(* ===== verification/_CoqProject ===== *)
-Q . S2P
Prelude.v
Spec.v
SpecTheorems.v
KvPool.v
KvInv.v
KvPrim.v
KvOps.v
KvTheorems.v
Ring.v
Scheduler.v
SchedSpec.v
SchedInv.v
SchedOps.v
SchedLife.v
SchedTheorems.v
Engine.v
EngineInv.v
EngineOps.v
EngineComplete.v
EngineTheorems.v
Bytes.v
PlanSelection.v
M1Completion.v
CompletionFacts.v
CompletionWire.v
WireFacts.v
WireTheorems.v
StepPublication.v
PublicationTheorems.v
ArgmaxTheorems.v
Radix.v
RadixSpec.v
RadixInv.v
RadixOps.v
RadixRep.v
RadixLookup.v
RadixRegister.v
RadixCommit.v
RadixShare.v
RadixTheorems.v
Tokenizer.v
TokenizerBpe.v
TokenizerProgram.v
TokenizerText.v
TokenizerSpell.v
TokenizerTheorems.v
Platform.v
Readback.v
ReadbackTheorems.v
SpecLoop.v
SpecLoopFacts.v
SpecLoopRounds.v
SpecLoopWorld.v
SpecLoopText.v
SpecLoopTheorems.v
Registry.v
RegistryFacts.v
RegistryInv.v
RegistryOps.v
RegistryRounds.v
RegistryWindow.v
RegistryWorld.v
RegistryWorldInv.v
RegistryLife.v
RegistryProgress.v
RegistryTheorems.v
ContinuousBatch.v
PhysicalKv.v
PhysicalKvInv.v
PhysicalKvOps.v
PhysicalKvSpec.v
PhysicalKvSettle.v
PhysicalKvBatch.v
PhysicalKvWorld.v
PhysicalKvMemory.v
PhysicalKvLife.v
PhysicalKvTheorems.v
KvIndexing.v
Isolation.v
StepComposition.v
