(* ===== verification/Prelude.v ===== *)
(** Ferric: a verification library for the host side of an LLM inference
    engine written in Rust (crates under [src/crates/]).

    * The program

    Ferric serves token-generation requests on one device.  A fixed number of
    request slots is handed out by a scheduler; every slot owns a chain of KV
    cache pages in a pool; batches of ready requests are dispatched under
    consecutive completion epochs, and a completed batch commits or rolls back
    the tokens its members wrote.  Prefixes of live requests can be found again
    in a trie and shared page by page.  The device reports each member's tokens
    in a compact record, which is decoded, checked against the plan of the step
    and published.  Several tokens may be speculated by a draft model and
    verified greedily by the target.  Text enters and leaves through a byte-pair
    tokenizer.  Above all this a coordinator repeats speculative rounds over a
    roster of members: it binds a round to its current state, preflights the
    checked records of the round, commits them under each member's stop policy,
    and lets the draft model catch up.  A serving registry keeps the requests
    with their plans, decides which batch the physical queue runs next, and
    reserves, publishes and completes it.

    * How the model is written

    A Rust method that mutates and may fail is a computation of the state monad
    of this file, [M S A]: it ends in a state and a value, or in [Panic] (an
    index out of bounds, an arithmetic overflow, a failed slice).  [Result] is
    an ordinary value, so a method that mutates and then returns [Err] keeps
    its mutation.  Unsigned integers are [N]; [checked_add] and the unchecked
    operators carry their width ([add32], [add_w], ...).  Loops are recursions
    over the list the loop walks, or take a fuel; a loop that would outlive its
    fuel panics ([Panic]) or its fuel is the exact number of iterations, so
    "does not panic" includes "ends".  Theorems are stated with [wp], which is
    [False] on a panic: each says that the operation ends and what it leaves on
    every branch.

    * The files and the code

    - [Prelude] (this file): machine integers, results, the monad, its
      weakest-precondition rules, the tactics [split_all], [case_bools], [wp_steps] and
      the lemmas on lists and options the components share.
    - [Spec], [SpecTheorems]: [ferric-spec/src/identity.rs], [completion.rs],
      [scheduling.rs], [speculation.rs]; the sequential semantics: identities,
      the exact-next epoch rule, the request lifecycle, greedy verification.
    - [KvPool]: [ferric-engine/src/cache.rs], every operation of the paged
      pool.  [KvInv] states its invariant [wf], [KvPrim] and [KvOps] prove what
      each operation leaves, [KvTheorems] the guarantees.
    - [Ring], [Scheduler]: [ferric-engine/src/scheduler.rs] and [epoch.rs],
      every operation of the bounded scheduler.  [SchedSpec] is its abstract
      specification (plain queues), [SchedInv] the invariant of the
      specification, [SchedOps] the refinement, [SchedLife] and
      [SchedTheorems] the guarantees.
    - [Engine]: [ferric-engine/src/system.rs], which composes the two behind a
      fault latch; [EngineInv], [EngineOps], [EngineComplete],
      [EngineTheorems].
    - [Bytes], [PlanSelection], [M1Completion], [CompletionWire],
      [StepPublication]: the completion path, [ferric-spec/src/m1_completion.rs],
      [speculative_completion.rs], the selections of [graph.rs],
      [step_plan_publication.rs], and [ferric-engine/src/completion_wire.rs]
      with the record layout of [ferric-qwen-kernels/src/logits.rs].  Facts and
      theorems are in [CompletionFacts], [WireFacts], [WireTheorems],
      [PublicationTheorems], [ArgmaxTheorems].
    - [Radix]: [ferric-engine/src/radix_prefix.rs], every operation of the
      prefix index and its bridge into the engine.  [RadixSpec] is its
      specification (a table of token lists), [RadixInv], [RadixOps],
      [RadixRep], [RadixLookup], [RadixRegister], [RadixCommit] and
      [RadixShare] the refinement, [RadixTheorems] the guarantees.
    - [Platform]: the types and functions of external crates the files below
      use, as a class with its laws, and vectors with a capacity.
    - [Readback]: [ferric-engine/src/observed_completion.rs],
      [completed_readback_join.rs] and the geometry of [completion_output.rs]:
      a completed output image becomes checked records.  [ReadbackTheorems].
    - [SpecLoop]: [ferric-engine/src/speculative_generation_loop.rs], every
      operation of the coordinator.  [SpecLoopFacts] specifies shapes, policies
      and lanes, [SpecLoopRounds] bindings, preflight, commit and catch-up,
      [SpecLoopWorld] runs of the coordinator with its outstanding bindings and
      permits as a step relation, [SpecLoopText] the text a run publishes,
      [SpecLoopTheorems] the guarantees.
    - [Registry]: [ferric-engine/src/m1_serving_registry.rs], plans, queue
      actions, reservations, windows, draft catch-ups and every operation on
      the registry.  [RegistryFacts] specifies the pure parts, [RegistryInv]
      states the invariant [registry_ok], [RegistryOps], [RegistryRounds] and
      [RegistryWindow] prove what each operation leaves, [RegistryWorld] puts
      the registry among the callers that hold its tokens ([run_op] runs a
      call, [step] is the relation it implements), [RegistryWorldInv],
      [RegistryLife], [RegistryProgress] and [RegistryTheorems] the guarantees.
    - [Tokenizer]: [ferric-build/src/tokenizer_execution.rs];
      [TokenizerBpe], [TokenizerProgram], [TokenizerSpell], [TokenizerText],
      [TokenizerTheorems].

    A definition has the name of the Rust item it translates; [admit] is
    [admit_request] and [state] is [request_state].  A loop of a method is a
    definition of its own, named after what it does; its comment quotes the
    loop's condition.

    * What the theorems show

    - Engine: any sequence of operations keeps scheduler and pool in agreement,
      the error paths that guard against a disagreement are never taken, a
      fault comes only from an exhausted generation counter, a faulted engine
      is frozen, and an exact completion is all or nothing.
    - KV pool: every run refines a pool of per-request token counters, pages
      are conserved and isolated, every operation is specified on every branch,
      and a released handle stays dead.
    - Scheduler: every run refines the queue scheduler, slots follow the
      lifecycle of [Spec], batches complete in order, a ready request waits a
      bounded number of dispatches, a detached handle stays dead.
    - Prefix index: every run refines the table, its walks end, registration is
      all or nothing, sharing takes the longest prefix a live source serves.
    - Completion path: decoder and encoder are inverse, the checker admits
      exactly the canonical record, publication follows its protocol, argmax
      picks the lowest token of the largest BF16 number, and speculation
      publishes what the target alone would decode.
    - Readback: an image is accepted exactly when it holds the records its
      steps admit, lane by lane, and zeros elsewhere.
    - Generation loop: no interleaving of bindings, permits, reports and
      catch-ups panics or breaks the coordinator; a permit commits only in the
      state it was preflighted in, once; a round is accepted exactly when it
      matches its binding; rounds are bounded and always possible while there
      is room; every cursor stays in the context; and the text published is the
      target's own generation under the member's policy.
    - Serving registry: no sequence of calls panics or breaks the roster; each
      call is accepted exactly when [step] allows it and otherwise changes
      nothing; the planned batch is the one the policy calls for and the only
      one reserved; a completion settles exactly its batch; publications and
      completions alternate under consecutive epochs; requests follow the
      lifecycle of [Spec]; an abandoned window is restored; nothing runs beside
      a draft catch-up; and the registry is never wedged.
    - Tokenizer: decoding undoes encoding, merging is the reference byte-pair
      merging and ends, and special tokens obey the policy.
    - Sequential semantics: greedy speculation is lossless for any number of
      rounds and any drafter.

    * Bounds and fuel

    The capacities of the source ([MAX_PAGE_SLOTS], [MAX_REQUEST_SLOTS],
    [MAX_PAGES_PER_REQUEST], [MAX_TOKENIZER_INPUT_BYTES], ...) are kept as they
    are; the const generic [C] of the scheduler, the engine and the registry is
    a parameter.
    Loops that count to a bound get exactly that many steps of fuel.  The walks
    of the trie get one step per node slot, enough because the links of a
    well-formed trie never visit a slot twice ([RadixInv]).  The merge loop of
    the tokenizer gets one step per symbol, enough because a merge shortens the
    list, and its scanners one step per input byte.

    * Parameters

    Unicode normalization and the regular expression that splits text come
    from external crates: they are arguments of the tokenizer's definitions,
    with what the code relies on as hypotheses ([text_support] in
    [TokenizerTheorems]: spans are ordered, cover the text and lie on character
    boundaries), instantiated by a concrete function in the witnesses.  An
    authenticated prefill execution and a qualification context are inputs of
    the operations that take them.  [Platform] has the readbacks of the device
    runtime, SHA-256, the allocator's answer to a reservation and the pushes of
    a bounded array vector as fields, with two laws: a granted reservation has
    the requested capacity, a push succeeds below the capacity.  The coordinator
    and registry identities come from a counter, the state of [loop_new] and
    [Registry.new].

    * Not modelled

    - Everything that only moves linear handles through the external device
      runtime: the queue rearm and rollover, the authenticated executors, the
      physical recipes and buffers, the serving bridge, the device buffers
      behind a readback and the diagnostics.  Its code is not in the repository.
    - GPU kernels ([src/device], [ferric-kernels], the rest of
      [ferric-qwen-kernels]) and the generated runner.
    - Admission of model files ([ferric-build]: JSON, safetensors, digests,
      bundles) and the kernel artifact build.
    - Adapters, services, benches, experiments, proof tooling.
    - Of the serving registry: the wrappers that only turn physical witnesses
      of a catch-up into its key, and the reconciliation of an authenticated
      prefill, whose evidence belongs to the device runtime, up to the
      installation in a fresh registry ([installed_ok]).
    - Not modelled yet: continuous batching and request isolation, KV indexing
      of a speculative round, validation of generated and physical plans,
      memory layout.

    Proofs in the source (Verus [requires], [ensures], ghost code) are not
    translated: the definitions model the executable lines. *)
From stdpp Require Export base tactics list numbers option decidable sets.
From Stdlib Require Export NArith Lia.

Global Open Scope N_scope.

(** * Machine integers

    Rust's unsigned integers are [N]; the width appears where the source
    relies on it: [checked_add], the unchecked [+], [-], [*] (which panic when
    they leave the range, or would wrap in a release build: both count as a
    failure here, see [Panic] below) and the bit operations on masks. *)
Definition u32_max : N := 4294967295.
Definition u64_max : N := 18446744073709551615.
Definition usize_max : N := u64_max.

Definition checked_add (max a b : N) : option N :=
  if a + b <=? max then Some (a + b) else None.

Definition checked_sub (a b : N) : option N :=
  if b <=? a then Some (a - b) else None.

(** * Results, outcomes and the state monad

    A Rust function that takes [&mut self] and returns [T] is a value of
    [M Self T]: it ends in a new state and a value, or it panics (an index out
    of bounds, an arithmetic overflow).  [Result] is an ordinary value, so a
    function that mutates and then returns [Err] keeps its mutation. *)
Inductive result (A E : Type) : Type :=
| Ok (a : A)
| Err (e : E).
Arguments Ok {A E} a.
Arguments Err {A E} e.

#[export] Instance result_eq_dec `{EqDecision A, EqDecision E} : EqDecision (result A E).
Proof. solve_decision. Defined.

Inductive outcome (S A : Type) : Type :=
| Done (s : S) (a : A)
| Panic.
Arguments Done {S A} s a.
Arguments Panic {S A}.

Definition M (S A : Type) : Type := S -> outcome S A.

Definition ret {S A} (a : A) : M S A := fun s => Done s a.
Definition panic {S A} : M S A := fun _ => Panic.
Definition bind {S A B} (m : M S A) (k : A -> M S B) : M S B :=
  fun s => match m s with Done s' a => k a s' | Panic => Panic end.
Definition gets {S A} (f : S -> A) : M S A := fun s => Done s (f s).
Definition modify {S} (f : S -> S) : M S unit := fun s => Done (f s) tt.

(** The [?] operator: continue with the value, or return the error. *)
Definition try_bind {S A B E} (m : M S (result A E)) (k : A -> M S (result B E)) :
    M S (result B E) :=
  bind m (fun r => match r with Ok a => k a | Err e => ret (Err e) end).

(** Run a component's operation on a field of the enclosing state. *)
Definition zoom {S T A} (get : S -> T) (put : T -> S -> S) (m : M T A) : M S A :=
  fun s => match m (get s) with
           | Done t a => Done (put t s) a
           | Panic => Panic
           end.

Declare Scope prog_scope.
Delimit Scope prog_scope with prog.
Notation "'let!' x ':=' m 'in' k" := (bind m (fun x => k))
  (at level 10, x pattern, m at level 100, k at level 200,
   format "'let!'  x  ':='  m  'in' '//' k") : prog_scope.
Notation "'let?' x ':=' m 'in' k" := (try_bind m (fun x => k))
  (at level 10, x pattern, m at level 100, k at level 200,
   format "'let?'  x  ':='  m  'in' '//' k") : prog_scope.
Notation "m1 ';;' m2" := (bind m1 (fun _ => m2))
  (at level 100, m2 at level 200, right associativity,
   format "'[v' m1 ';;' '/' m2 ']'") : prog_scope.

(** Unchecked arithmetic of the source. *)
Definition add_w {S} (max a b : N) : M S N :=
  if a + b <=? max then ret (a + b) else panic.
Definition sub_w {S} (a b : N) : M S N :=
  if b <=? a then ret (a - b) else panic.
Definition mul_w {S} (max a b : N) : M S N :=
  if a * b <=? max then ret (a * b) else panic.
Definition add32 {S} (a b : N) : M S N := add_w u32_max a b.
Definition mul32 {S} (a b : N) : M S N := mul_w u32_max a b.
Definition add_usize {S} (a b : N) : M S N := add_w usize_max a b.

(** * Fixed-size vectors indexed by machine integers *)
Definition vlen {A} (l : list A) : N := N.of_nat (length l).
Definition vget {A} (l : list A) (i : N) : option A := l !! N.to_nat i.
Definition vset {A} (l : list A) (i : N) (x : A) : list A := <[N.to_nat i := x]> l.
Definition vnth {A} (d : A) (l : list A) (i : N) : A := default d (vget l i).
Definition vfill {A} (n : N) (x : A) : list A := replicate (N.to_nat n) x.

(** Indexing a slice argument. *)
Definition slice_at {S A} (l : list A) (i : N) : M S A :=
  match vget l i with Some a => ret a | None => panic end.

(** Assigning to an element of a slice argument. *)
Definition slice_set {S A} (l : list A) (i : N) (x : A) : M S (list A) :=
  if i <? vlen l then ret (vset l i x) else panic.

(** [v[i]] as an rvalue and [v[i] = g(v[i])]: both panic out of bounds. *)
Definition read_at {S A} (f : S -> list A) (i : N) : M S A :=
  fun s => match vget (f s) i with Some a => Done s a | None => Panic end.
Definition update_at {S A} (f : S -> list A) (put : list A -> S -> S) (i : N) (g : A -> A) :
    M S unit :=
  fun s => match vget (f s) i with
           | Some a => Done (put (vset (f s) i (g a)) s) tt
           | None => Panic
           end.

#[global] Arguments N.shiftl : simpl never.
#[global] Arguments N.testbit : simpl never.
#[global] Arguments N.lor : simpl never.
#[global] Arguments N.land : simpl never.
#[global] Arguments N.lnot : simpl never.
#[global] Arguments vlen : simpl never.
#[global] Arguments vget : simpl never.
#[global] Arguments vset : simpl never.
#[global] Arguments vnth : simpl never.
#[global] Arguments vfill : simpl never.
#[global] Arguments checked_add : simpl never.
#[global] Arguments checked_sub : simpl never.

(** * Weakest preconditions

    [wp m s Q]: from [s], [m] does not panic and ends in a state and a value
    that satisfy [Q]. *)
Definition wp {S A} (m : M S A) (s : S) (Q : S -> A -> Prop) : Prop :=
  match m s with Done s' a => Q s' a | Panic => False end.

Section wp_rules.
Context {S : Type}.

Lemma wp_mono {A} (m : M S A) s (Q Q' : S -> A -> Prop) :
  wp m s Q -> (forall s' a, Q s' a -> Q' s' a) -> wp m s Q'.
Proof. unfold wp. destruct (m s); naive_solver. Qed.

Lemma wp_done {A} (m : M S A) s Q :
  wp m s Q -> exists s' a, m s = Done s' a /\ Q s' a.
Proof. unfold wp. destruct (m s); naive_solver. Qed.

Lemma wp_of_done {A} (m : M S A) s s' a (Q : S -> A -> Prop) :
  m s = Done s' a -> Q s' a -> wp m s Q.
Proof. unfold wp. intros ->. done. Qed.

Lemma wp_conj {A} (m : M S A) s (Q Q' : S -> A -> Prop) :
  wp m s Q -> wp m s Q' -> wp m s (fun s' a => Q s' a /\ Q' s' a).
Proof. unfold wp. destruct (m s); naive_solver. Qed.

Lemma wp_ret {A} (a : A) s (Q : S -> A -> Prop) : Q s a -> wp (ret a) s Q.
Proof. done. Qed.

Lemma wp_bind {A B} (m : M S A) (k : A -> M S B) s Q :
  wp m s (fun s' a => wp (k a) s' Q) -> wp (bind m k) s Q.
Proof. unfold wp, bind. destruct (m s); done. Qed.

Lemma wp_try_bind {A B E} (m : M S (result A E)) (k : A -> M S (result B E)) s Q :
  wp m s (fun s' r => match r with Ok a => wp (k a) s' Q | Err e => Q s' (Err e) end) ->
  wp (try_bind m k) s Q.
Proof.
  intros H. apply wp_bind. eapply wp_mono; [exact H|].
  intros s' [a|e]; done.
Qed.

Lemma wp_gets {A} (f : S -> A) s (Q : S -> A -> Prop) : Q s (f s) -> wp (gets f) s Q.
Proof. done. Qed.

Lemma wp_modify (f : S -> S) s (Q : S -> unit -> Prop) : Q (f s) tt -> wp (modify f) s Q.
Proof. done. Qed.

Lemma wp_add_w max a b s (Q : S -> N -> Prop) :
  a + b <= max -> Q s (a + b) -> wp (add_w max a b) s Q.
Proof. intros H ?. unfold add_w. by rewrite (proj2 (N.leb_le _ _) H). Qed.

Lemma wp_add32 a b s (Q : S -> N -> Prop) :
  a + b <= u32_max -> Q s (a + b) -> wp (add32 a b) s Q.
Proof. apply wp_add_w. Qed.

Lemma wp_add_usize a b s (Q : S -> N -> Prop) :
  a + b <= usize_max -> Q s (a + b) -> wp (add_usize a b) s Q.
Proof. apply wp_add_w. Qed.

Lemma wp_sub_w a b s (Q : S -> N -> Prop) :
  b <= a -> Q s (a - b) -> wp (sub_w a b) s Q.
Proof. intros H ?. unfold sub_w. by rewrite (proj2 (N.leb_le _ _) H). Qed.

Lemma wp_mul_w max a b s (Q : S -> N -> Prop) :
  a * b <= max -> Q s (a * b) -> wp (mul_w max a b) s Q.
Proof. intros H ?. unfold mul_w. by rewrite (proj2 (N.leb_le _ _) H). Qed.

Lemma wp_mul32 a b s (Q : S -> N -> Prop) :
  a * b <= u32_max -> Q s (a * b) -> wp (mul32 a b) s Q.
Proof. apply wp_mul_w. Qed.

Lemma wp_slice_at {A} (l : list A) i x s (Q : S -> A -> Prop) :
  vget l i = Some x -> Q s x -> wp (slice_at l i) s Q.
Proof. intros H ?. unfold slice_at. by rewrite H. Qed.

Lemma wp_slice_set {A} (l : list A) i x s (Q : S -> list A -> Prop) :
  i < vlen l -> Q s (vset l i x) -> wp (slice_set l i x) s Q.
Proof. intros H ?. unfold slice_set. by rewrite (proj2 (N.ltb_lt _ _) H). Qed.

Lemma wp_zoom {T A} (get : S -> T) (put : T -> S -> S) (m : M T A) s Q :
  wp m (get s) (fun t a => Q (put t s) a) -> wp (zoom get put m) s Q.
Proof. unfold wp, zoom. destruct (m (get s)); done. Qed.
End wp_rules.

(** * Vector lemmas *)
Section vectors.
Context {A : Type}.
Implicit Types (l : list A) (i j : N) (d x : A).

Lemma vlen_app l l' : vlen (l ++ l') = vlen l + vlen l'.
Proof. unfold vlen. rewrite length_app. lia. Qed.

Lemma vlen_cons x l : vlen (x :: l) = vlen l + 1.
Proof. unfold vlen. simpl. lia. Qed.

Lemma vlen_nil : vlen (@nil A) = 0.
Proof. done. Qed.

Lemma vget_lt l i : i < vlen l -> exists x, vget l i = Some x.
Proof.
  unfold vlen, vget. intros H.
  destruct (lookup_lt_is_Some_2 l (N.to_nat i)) as [x Hx]; [lia|eauto].
Qed.

Lemma vget_Some_lt l i x : vget l i = Some x -> i < vlen l.
Proof. unfold vlen, vget. intros H%lookup_lt_Some. lia. Qed.

Lemma vget_nth d l i : i < vlen l -> vget l i = Some (vnth d l i).
Proof. intros [x Hx]%vget_lt. unfold vnth. by rewrite Hx. Qed.

Lemma vnth_get d l i x : vget l i = Some x -> vnth d l i = x.
Proof. unfold vnth. by intros ->. Qed.

Lemma vlen_vset l i x : vlen (vset l i x) = vlen l.
Proof. unfold vlen, vset. by rewrite length_insert. Qed.

Lemma vlen_vfill n x : vlen (vfill n x) = n.
Proof. unfold vlen, vfill. rewrite length_replicate. lia. Qed.

Lemma vget_vset_eq l i x : i < vlen l -> vget (vset l i x) i = Some x.
Proof. unfold vlen, vget, vset. intros. apply list_lookup_insert_eq. lia. Qed.

Lemma vget_vset_ne l i j x : i <> j -> vget (vset l i x) j = vget l j.
Proof. unfold vget, vset. intros. apply list_lookup_insert_ne. lia. Qed.

Lemma vnth_vset d l i j x :
  i < vlen l -> vnth d (vset l i x) j = if decide (j = i) then x else vnth d l j.
Proof.
  intros Hi. unfold vnth. case_decide as E.
  - subst. by rewrite vget_vset_eq.
  - by rewrite vget_vset_ne.
Qed.

Lemma vnth_vset_eq d l i x : i < vlen l -> vnth d (vset l i x) i = x.
Proof. intros. rewrite vnth_vset by done. by case_decide. Qed.

Lemma vnth_vset_ne d l i j x : j <> i -> vnth d (vset l i x) j = vnth d l j.
Proof. intros. unfold vnth. by rewrite vget_vset_ne. Qed.

Lemma vset_vset l i x y : vset (vset l i x) i y = vset l i y.
Proof. unfold vset. apply list_insert_insert_eq. Qed.

Lemma vset_id d l i : vset l i (vnth d l i) = l.
Proof.
  destruct (N.lt_ge_cases i (vlen l)) as [Hi|Hi].
  - unfold vset. apply list_insert_id. by apply vget_nth.
  - unfold vset. apply list_insert_ge. unfold vlen in Hi. lia.
Qed.

Lemma vget_vfill n x i : i < n -> vget (vfill n x) i = Some x.
Proof. unfold vget, vfill. intros. apply lookup_replicate_2. lia. Qed.

Lemma vnth_vfill n x i : vnth x (vfill n x) i = x.
Proof.
  unfold vnth, vget, vfill.
  destruct (replicate (N.to_nat n) x !! N.to_nat i) as [y|] eqn:E; [|done].
  apply lookup_replicate in E as [-> _]. done.
Qed.
End vectors.

Section wp_vectors.
Context {S A : Type} (f : S -> list A) (put : list A -> S -> S).

Lemma wp_read_at d i s (Q : S -> A -> Prop) :
  i < vlen (f s) -> Q s (vnth d (f s) i) -> wp (read_at f i) s Q.
Proof. intros H ?. unfold wp, read_at. by rewrite (vget_nth d). Qed.

Lemma wp_update_at d i g s (Q : S -> unit -> Prop) :
  i < vlen (f s) -> Q (put (vset (f s) i (g (vnth d (f s) i))) s) tt ->
  wp (update_at f put i g) s Q.
Proof. intros H ?. unfold wp, update_at. by rewrite (vget_nth d). Qed.
End wp_vectors.

Create Rewrite HintDb vec.
#[global] Hint Rewrite @vlen_vset @vlen_vfill : vec.

(** * Shared automation *)
Create HintDb ferric discriminated.

Ltac split_all :=
  repeat match goal with
         | H : _ /\ _ |- _ => destruct H
         | H : exists _, _ |- _ => destruct H
         end.

(** Case analysis on the boolean tests of the code, read as propositions. *)
Ltac case_bool :=
  match goal with
  | |- context [?a <=? ?b] => destruct (N.leb_spec a b)
  | |- context [?a <? ?b] => destruct (N.ltb_spec a b)
  | |- context [?a =? ?b] => destruct (N.eqb_spec a b)
  end.
Ltac case_bools := repeat case_bool.

Ltac wp_step :=
  first
    [ apply wp_bind
    | apply wp_try_bind
    | apply wp_ret
    | apply wp_gets
    | apply wp_modify
    | apply wp_zoom ].
Ltac wp_steps := repeat (wp_step; cbv beta).
