(* ===== verification/Spec.v ===== *)
(** The sequential semantics of [crates/ferric-spec]: request identities
    ([identity.rs]), the exact-next completion rule ([completion.rs]), the
    request lifecycle oracle ([scheduling.rs]) and greedy speculative
    verification ([speculation.rs]), with the theorems that make each of them
    the refinement target of the engine. *)
From S2P Require Import Prelude.
Local Open Scope prog_scope.

(** ** [identity.rs] *)
Module Identity.

(** The 32 bytes of an [Identity]. *)
Record Identity := mkIdentity { bytes : list N }.

(** The scan of [is_present]: stop at the first nonzero byte. *)
Fixpoint is_present_from (l : list N) : bool :=
  match l with
  | [] => false
  | b :: l' => if negb (b =? 0) then true else is_present_from l'
  end.

Definition is_present (self : Identity) : bool := is_present_from (bytes self).

(** The scan of [equals]: stop at the first difference. *)
Fixpoint equals_from (l r : list N) : bool :=
  match l, r with
  | a :: l', b :: r' => if negb (a =? b) then false else equals_from l' r'
  | _, _ => true
  end.

Definition equals (self other : Identity) : bool := equals_from (bytes self) (bytes other).

Definition well_sized (i : Identity) : Prop := length (bytes i) = 32%nat.

End Identity.

Record RequestId := mkRequestId { slot : N; generation : N }.

#[export] Instance RequestId_eq_dec : EqDecision RequestId.
Proof. solve_decision. Defined.

(** ** [completion.rs] *)
Module Completion.

Record CompletionEpoch := mkEpoch { value : N }.

Inductive CompletionOrderError := Exhausted | NotExactNext.

Definition check_exact_next (completed observed : CompletionEpoch) :
    result CompletionEpoch CompletionOrderError :=
  match checked_add u64_max (value completed) 1 with
  | Some next => if next =? value observed then Ok observed else Err NotExactNext
  | None => Err Exhausted
  end.

#[export] Instance CompletionEpoch_eq_dec : EqDecision CompletionEpoch.
Proof. solve_decision. Defined.

End Completion.

(** ** [scheduling.rs] *)
Module Lifecycle.

Inductive RequestState := Vacant | Ready | InFlight | Retiring.

Inductive LifecyclePhase :=
| Idle | Executing | AwaitingKv | RetiringExecuting | RetiringQuiescent.

Record SequentialRequest := mkSeq { state : RequestState; phase : LifecyclePhase }.

Inductive RequestTransition :=
| Admit | Dispatch | Retire | CompleteExact | FinalizeKv | DetachKv.

Inductive TransitionError :=
| Occupied | NotReady | NotInFlight | AlreadyRetiring | NotRetiring.

#[export] Instance RequestState_eq_dec : EqDecision RequestState.
Proof. solve_decision. Defined.
#[export] Instance LifecyclePhase_eq_dec : EqDecision LifecyclePhase.
Proof. solve_decision. Defined.
#[export] Instance RequestTransition_eq_dec : EqDecision RequestTransition.
Proof. solve_decision. Defined.

Definition apply_request_transition (request : SequentialRequest) (transition : RequestTransition) :
    result SequentialRequest TransitionError :=
  match transition with
  | Admit =>
      match state request, phase request with
      | Vacant, Idle => Ok (mkSeq Ready Idle)
      | _, _ => Err Occupied
      end
  | Dispatch =>
      match state request, phase request with
      | Ready, Idle => Ok (mkSeq InFlight Executing)
      | _, _ => Err NotReady
      end
  | Retire =>
      match state request, phase request with
      | Ready, Idle | InFlight, AwaitingKv => Ok (mkSeq Retiring RetiringQuiescent)
      | InFlight, Executing => Ok (mkSeq Retiring RetiringExecuting)
      | Retiring, _ => Err AlreadyRetiring
      | _, _ => Err NotReady
      end
  | CompleteExact =>
      match state request, phase request with
      | InFlight, Executing => Ok (mkSeq InFlight AwaitingKv)
      | Retiring, RetiringExecuting => Ok (mkSeq Retiring RetiringQuiescent)
      | _, _ => Err NotInFlight
      end
  | FinalizeKv =>
      match state request, phase request with
      | InFlight, AwaitingKv => Ok (mkSeq Ready Idle)
      | _, _ => Err NotInFlight
      end
  | DetachKv =>
      match state request, phase request with
      | Retiring, RetiringQuiescent => Ok (mkSeq Vacant Idle)
      | _, _ => Err NotRetiring
      end
  end.

(** A lifecycle run: transitions the oracle rejects leave the request as it is. *)
Definition step (request : SequentialRequest) (t : RequestTransition) : SequentialRequest :=
  match apply_request_transition request t with Ok r => r | Err _ => request end.

Definition run : SequentialRequest -> list RequestTransition -> SequentialRequest :=
  foldl step.

(** The state and phase combinations that occur. *)
Definition coherent (r : SequentialRequest) : bool :=
  match state r, phase r with
  | Vacant, Idle | Ready, Idle | InFlight, Executing | InFlight, AwaitingKv
  | Retiring, RetiringExecuting | Retiring, RetiringQuiescent => true
  | _, _ => false
  end.

End Lifecycle.

(** ** [speculation.rs] *)
Module Speculation.

Definition TokenId := N.

Record GreedyCommit := mkCommit {
  accepted_draft_tokens : N;
  emitted_tokens : list TokenId;
  target_correction_or_bonus : TokenId
}.

Inductive GreedyVerificationError :=
| MissingTargetBonus
| DraftTokenCountOverflow
| IncorrectTargetChoiceCount (expected actual : N).

(** [while accepted < draft_tokens.len() && draft_tokens[accepted] == target_choices[accepted]];
    [fuel] bounds the iterations, [verify_greedy_round] passes the draft length. *)
Fixpoint accept_loop {S} (fuel : nat) (draft_tokens target_choices : list TokenId) (accepted : N) :
    M S N :=
  match fuel with
  | O => ret accepted
  | S fuel' =>
      if accepted <? vlen draft_tokens then
        let! d := slice_at draft_tokens accepted in
        let! t := slice_at target_choices accepted in
        if d =? t then
          let! next := add_usize accepted 1 in
          accept_loop fuel' draft_tokens target_choices next
        else ret accepted
      else ret accepted
  end.

(** [while index < accepted { emitted.push(draft_tokens[index]); index += 1; }] *)
Fixpoint emit_loop {S} (fuel : nat) (draft_tokens : list TokenId) (accepted index : N)
    (emitted : list TokenId) : M S (list TokenId) :=
  match fuel with
  | O => ret emitted
  | S fuel' =>
      if index <? accepted then
        let! d := slice_at draft_tokens index in
        let! next := add_usize index 1 in
        emit_loop fuel' draft_tokens accepted next (emitted ++ [d])
      else ret emitted
  end.

Definition verify_greedy_round {S} (draft_tokens target_choices : list TokenId) :
    M S (result GreedyCommit GreedyVerificationError) :=
  if vlen target_choices =? 0 then ret (Err MissingTargetBonus)
  else
    match checked_add usize_max (vlen draft_tokens) 1 with
    | None => ret (Err DraftTokenCountOverflow)
    | Some expected =>
        if negb (vlen target_choices =? expected) then
          ret (Err (IncorrectTargetChoiceCount expected (vlen target_choices)))
        else
          let! accepted := accept_loop (length draft_tokens) draft_tokens target_choices 0 in
          let! correction_or_bonus := slice_at target_choices accepted in
          let! emitted := emit_loop (N.to_nat accepted) draft_tokens accepted 0 [] in
          ret (Ok (mkCommit accepted (emitted ++ [correction_or_bonus]) correction_or_bonus))
    end.

(** Plain greedy decoding of a target model, [target prefix] being the argmax
    token after [prefix]: what the serving engine would emit with no draft. *)
Fixpoint greedy_decode (target : list TokenId -> TokenId) (prefix : list TokenId) (n : nat) :
    list TokenId :=
  match n with
  | O => []
  | S n' => let t := target prefix in t :: greedy_decode target (prefix ++ [t]) n'
  end.

(** The choices one verification pass of the target produces: entry [i] is its
    argmax after the prefix extended by the first [i] draft tokens. *)
Definition target_pass (target : list TokenId -> TokenId) (prefix draft : list TokenId) :
    list TokenId :=
  (fun i => target (prefix ++ take i draft)) <$> seq 0 (S (length draft)).

End Speculation.

(** ** Theorems *)

Module IdentityFacts.
Import Identity.

Lemma is_present_from_spec l : is_present_from l = true <-> exists b, b ∈ l /\ b <> 0.
Proof.
  induction l as [|b l IH]; simpl.
  - split; [done|]. intros (b & Hb & _). set_solver.
  - destruct (N.eqb_spec b 0); simpl.
    + rewrite IH. set_solver.
    + split; [|done]. intros _. exists b. set_solver.
Qed.

Lemma equals_from_spec l r : length l = length r -> equals_from l r = true <-> l = r.
Proof.
  revert r. induction l as [|a l IH]; intros [|b r] Hl; simplify_eq/=; try done.
  destruct (N.eqb_spec a b); simpl.
  - rewrite IH by done. naive_solver.
  - naive_solver.
Qed.

End IdentityFacts.

Module LifecycleFacts.
Import Lifecycle.

Lemma step_coherent r t : coherent r = true -> coherent (step r t) = true.
Proof. destruct r as [[] []], t; done. Qed.

Lemma run_app r ts ts' : run r (ts ++ ts') = run (run r ts) ts'.
Proof. unfold run. by rewrite foldl_app. Qed.

Lemma run_coherent ts r : coherent r = true -> coherent (run r ts) = true.
Proof.
  revert r. induction ts as [|t ts IH]; intros r Hr; simpl; [done|].
  apply IH. by apply step_coherent.
Qed.

Lemma step_retiring r t :
  coherent r = true -> state r = Retiring -> t <> DetachKv -> state (step r t) = Retiring.
Proof. destruct r as [[] []], t; done. Qed.

Lemma run_retiring ts r :
  coherent r = true -> state r = Retiring -> DetachKv ∉ ts -> state (run r ts) = Retiring.
Proof.
  revert r. induction ts as [|t ts IH]; intros r Hc Hr Hts; simpl; [done|].
  apply not_elem_of_cons in Hts as [Ht Hts].
  apply IH; auto using step_coherent, step_retiring.
Qed.

End LifecycleFacts.

Module SpeculationFacts.
Import Speculation.

Section run.
Context {S : Type}.

(** The loop stops at the first mismatch, or at the end of the draft. *)
Lemma accept_loop_wp fuel draft target accepted (s : S) :
  vlen target = vlen draft + 1 -> vlen target <= usize_max ->
  accepted <= vlen draft -> vlen draft - accepted <= N.of_nat fuel ->
  (forall i, i < accepted -> vget draft i = vget target i) ->
  wp (accept_loop fuel draft target accepted) s (fun s' k =>
    s' = s /\ k <= vlen draft /\
    (forall i, i < k -> vget draft i = vget target i) /\
    (k = vlen draft \/ vget draft k <> vget target k)).
Proof.
  intros Hlen Hmax. revert accepted. induction fuel as [|fuel IH]; intros accepted Hle Hf Hpre; simpl.
  - apply wp_ret. split_and!; auto. left. lia.
  - destruct (N.ltb_spec accepted (vlen draft)) as [Hlt|Hge].
    2:{ apply wp_ret. split_and!; auto. left. lia. }
    destruct (vget_lt draft accepted) as [d Hd]; [done|].
    destruct (vget_lt target accepted) as [t Ht]; [lia|].
    wp_step. eapply wp_slice_at; [exact Hd|].
    wp_step. eapply wp_slice_at; [exact Ht|].
    destruct (N.eqb_spec d t) as [->|Hne].
    + wp_step. apply wp_add_usize; [lia|]. apply IH; [lia..|].
      intros i Hi. destruct (decide (i = accepted)) as [->|]; [congruence|apply Hpre; lia].
    + apply wp_ret. split_and!; auto. right. congruence.
Qed.

Lemma emit_loop_wp fuel draft accepted index emitted (s : S) :
  accepted <= vlen draft -> vlen draft < usize_max -> index <= accepted ->
  accepted - index <= N.of_nat fuel ->
  emitted = take (N.to_nat index) draft ->
  wp (emit_loop fuel draft accepted index emitted) s (fun s' l =>
    s' = s /\ l = take (N.to_nat accepted) draft).
Proof.
  intros Hacc Hmax. revert index emitted.
  induction fuel as [|fuel IH]; intros index emitted Hi Hf ->; simpl.
  - apply wp_ret. split; [done|]. f_equal. lia.
  - destruct (N.ltb_spec index accepted).
    2:{ apply wp_ret. split; [done|]. f_equal. lia. }
    destruct (vget_lt draft index) as [d Hd]; [lia|].
    wp_step. eapply wp_slice_at; [exact Hd|].
    wp_step. apply wp_add_usize; [lia|]. apply IH; [lia..|].
    replace (N.to_nat (index + 1)) with (Datatypes.S (N.to_nat index)) by lia.
    symmetry. by apply take_S_r.
Qed.

(** The executed round, on every branch. *)
Lemma verify_greedy_round_wp draft target (s : S) :
  vlen draft < usize_max -> vlen target = vlen draft + 1 ->
  wp (verify_greedy_round draft target) s (fun s' r =>
    s' = s /\ exists k t, k <= vlen draft /\ vget target k = Some t /\
      (forall i, i < k -> vget draft i = vget target i) /\
      (k = vlen draft \/ vget draft k <> vget target k) /\
      r = Ok (mkCommit k (take (N.to_nat k) draft ++ [t]) t)).
Proof.
  intros Hmax Hlen. unfold verify_greedy_round.
  destruct (N.eqb_spec (vlen target) 0); [lia|].
  unfold checked_add. destruct (N.leb_spec (vlen draft + 1) usize_max); [|lia].
  rewrite Hlen, N.eqb_refl. simpl.
  wp_step. eapply wp_mono; [apply accept_loop_wp; try lia; unfold vlen; lia|].
  intros s' k (-> & Hk & Hpre & Hstop). simpl.
  destruct (vget_lt target k) as [t Ht]; [lia|].
  wp_step. eapply wp_slice_at; [exact Ht|].
  wp_step. eapply wp_mono; [apply emit_loop_wp; try lia; done|].
  intros s' l [-> ->]. simpl. apply wp_ret. split; [done|]. exists k, t. done.
Qed.
End run.

Lemma target_pass_length target prefix draft :
  vlen (target_pass target prefix draft) = vlen draft + 1.
Proof. unfold vlen, target_pass. rewrite length_fmap, length_seq. lia. Qed.

Lemma target_pass_get target prefix draft k :
  k <= vlen draft ->
  vget (target_pass target prefix draft) k = Some (target (prefix ++ take (N.to_nat k) draft)).
Proof.
  unfold vlen, vget, target_pass. intros Hk.
  rewrite list_lookup_fmap, lookup_seq_lt by lia. done.
Qed.

(** A matching draft prefix is what plain decoding emits. *)
Lemma greedy_decode_prefix target draft : forall prefix k,
  (k <= length draft)%nat ->
  (forall i, (i < k)%nat -> draft !! i = Some (target (prefix ++ take i draft))) ->
  greedy_decode target prefix k = take k draft.
Proof.
  induction draft as [|d draft IH]; intros prefix [|k] Hk Hpre; simpl in *; try done; [lia|].
  pose proof (Hpre 0%nat ltac:(lia)) as H0. simpl in H0. rewrite app_nil_r in H0.
  injection H0 as Hd. rewrite <- Hd. f_equal. apply IH; [lia|].
  intros i Hi. specialize (Hpre (S i) ltac:(lia)). simpl in Hpre.
  by rewrite <- app_assoc.
Qed.

Lemma greedy_decode_snoc target : forall k prefix,
  greedy_decode target prefix (S k) =
  greedy_decode target prefix k ++ [target (prefix ++ greedy_decode target prefix k)].
Proof.
  induction k as [|k IH]; intros prefix; simpl.
  - by rewrite app_nil_r.
  - f_equal. change (greedy_decode target (prefix ++ [target prefix]) (S k) =
      greedy_decode target (prefix ++ [target prefix]) k ++
      [target (prefix ++ target prefix :: greedy_decode target (prefix ++ [target prefix]) k)]).
    rewrite IH. by rewrite <- app_assoc.
Qed.

End SpeculationFacts.
