(* ===== verification/SpecTheorems.v ===== *)
(** What the sequential semantics of [crates/ferric-spec] guarantees: greedy
    speculation emits exactly the target model's own tokens, completions are
    accepted in exact order, a retired request stays retired until it is
    detached, and identity comparison decides equality. *)
From S2P Require Import Prelude Spec.
Local Open Scope prog_scope.

Module SpeculationTheorems.
Import Speculation SpeculationFacts.

(** One round of speculative decoding: draft, verify against one target pass,
    append what the verification emits. *)
Definition decode_round (target : list TokenId -> TokenId) (drafter : list TokenId -> list TokenId)
    (prefix : list TokenId) : M unit (result (list TokenId) GreedyVerificationError) :=
  let? commit := verify_greedy_round (drafter prefix) (target_pass target prefix (drafter prefix)) in
  ret (Ok (prefix ++ emitted_tokens commit)).

Fixpoint decode_rounds (rounds : nat) (target : list TokenId -> TokenId)
    (drafter : list TokenId -> list TokenId) (prefix : list TokenId) :
    M unit (result (list TokenId) GreedyVerificationError) :=
  match rounds with
  | O => ret (Ok prefix)
  | S rounds' =>
      let? prefix' := decode_round target drafter prefix in
      decode_rounds rounds' target drafter prefix'
  end.

Lemma greedy_decode_app target m : forall n prefix,
  greedy_decode target prefix (m + n) =
  greedy_decode target prefix m ++ greedy_decode target (prefix ++ greedy_decode target prefix m) n.
Proof.
  induction m as [|m IH]; intros n prefix; simpl; [by rewrite app_nil_r|].
  f_equal. rewrite IH. by rewrite <- app_assoc.
Qed.

Lemma round_emits target prefix draft {S : Type} (s : S) :
  vlen draft < usize_max ->
  wp (verify_greedy_round draft (target_pass target prefix draft)) s (fun s' r => s' = s /\
    exists c, r = Ok c /\ accepted_draft_tokens c <= vlen draft /\
      emitted_tokens c =
        greedy_decode target prefix (Datatypes.S (N.to_nat (accepted_draft_tokens c))) /\
      last (emitted_tokens c) = Some (target_correction_or_bonus c) /\
      (accepted_draft_tokens c = vlen draft \/
       vget draft (accepted_draft_tokens c) <> Some (target_correction_or_bonus c))).
Proof.
  intros Hmax. eapply wp_mono; [apply verify_greedy_round_wp; [done|apply target_pass_length]|].
  intros s' r (-> & k & t & Hk & Ht & Hpre & Hstop & ->). split; [done|].
  eexists. split; [done|]. cbn [accepted_draft_tokens emitted_tokens target_correction_or_bonus].
  rewrite target_pass_get in Ht by done. injection Ht as Ht.
  assert (Hdec : greedy_decode target prefix (N.to_nat k) = take (N.to_nat k) draft).
  { apply greedy_decode_prefix; [unfold vlen in Hk; lia|]. intros i Hi.
    specialize (Hpre (N.of_nat i) ltac:(lia)). rewrite target_pass_get in Hpre by lia.
    unfold vget in Hpre. by rewrite !Nat2N.id in Hpre. }
  split_and!; [done| | |].
  - rewrite greedy_decode_snoc, Hdec. by rewrite Ht.
  - by rewrite last_snoc.
  - destruct Hstop as [|Hne]; [by left|right]. rewrite target_pass_get in Hne by done. by rewrite <- Ht.
Qed.

(** Verifying any draft against one pass of the target emits exactly the
    tokens plain greedy decoding of the target emits, one more than the
    accepted draft tokens; the last is the target's own choice, and the round
    stops only at the end of the draft or where the draft and the target
    differ. *)
Theorem greedy_round_lossless target prefix draft :
  vlen draft < usize_max ->
  wp (verify_greedy_round draft (target_pass target prefix draft)) tt (fun _ r =>
    exists c, r = Ok c /\ accepted_draft_tokens c <= vlen draft /\
      emitted_tokens c = greedy_decode target prefix (S (N.to_nat (accepted_draft_tokens c))) /\
      last (emitted_tokens c) = Some (target_correction_or_bonus c) /\
      (accepted_draft_tokens c = vlen draft \/
       vget draft (accepted_draft_tokens c) <> Some (target_correction_or_bonus c))).
Proof. intros H. eapply wp_mono; [by apply round_emits|]. by intros [] r [_ ?]. Qed.

(** A toy target: the sum of the prefix plus one. *)
Definition toy_target (l : list TokenId) : TokenId := foldr N.add 1 l.

Lemma greedy_round_lossless_witness :
  vlen [2; 4; 9] < usize_max /\
  exists c, verify_greedy_round [2; 4; 9] (target_pass toy_target [1] [2; 4; 9]) tt = Done tt (Ok c) /\
    accepted_draft_tokens c = 2 /\ emitted_tokens c = greedy_decode toy_target [1] 3.
Proof.
  split; [by vm_compute|].
  pose proof (greedy_round_lossless toy_target [1] [2; 4; 9] ltac:(by vm_compute)) as H.
  apply wp_done in H as ([] & r & Hrun & c & Hr & _ & He & _). exists c.
  rewrite Hrun, Hr.
  assert (Hk : accepted_draft_tokens c = 2).
  { vm_compute in Hrun. rewrite Hr in Hrun. by injection Hrun as <-. }
  rewrite Hk in He. exact (conj eq_refl (conj Hk He)).
Defined.

(** C40: speculative decoding is lossless and makes progress whatever the
    drafter proposes: [rounds] rounds never fail, and they extend the prefix by
    the first [m] tokens plain greedy decoding emits, with at least one token
    per round. *)
Theorem speculative_decoding_lossless rounds target drafter prefix :
  (forall l, vlen (drafter l) < usize_max) ->
  wp (decode_rounds rounds target drafter prefix) tt (fun _ r =>
    exists m, (rounds <= m)%nat /\ r = Ok (prefix ++ greedy_decode target prefix m)).
Proof.
  intros Hd. revert prefix. induction rounds as [|rounds IH]; intros prefix; simpl.
  - exists 0%nat. simpl. by rewrite app_nil_r.
  - apply wp_try_bind. unfold decode_round. apply wp_try_bind.
    eapply wp_mono; [by apply round_emits|].
    intros [] r (_ & c & -> & _ & He & _). apply wp_ret.
    eapply wp_mono; [apply IH|]. intros [] r (m & Hm & ->).
    exists (S (N.to_nat (accepted_draft_tokens c)) + m)%nat. split; [lia|].
    by rewrite greedy_decode_app, He, app_assoc.
Qed.

Lemma speculative_decoding_lossless_witness :
  (forall l, vlen ((fun _ : list TokenId => [2; 4]) l) < usize_max) /\
  wp (decode_rounds 3 toy_target (fun _ => [2; 4]) [1]) tt (fun _ r =>
    exists m, (3 <= m)%nat /\ r = Ok ([1] ++ greedy_decode toy_target [1] m)).
Proof.
  assert (H : forall l, vlen ((fun _ : list TokenId => [2; 4]) l) < usize_max)
    by (intros l; by vm_compute).
  split; [exact H|]. exact (speculative_decoding_lossless 3 toy_target _ [1] H).
Defined.

(** Verification refuses, with the documented error, exactly the inputs
    whose number of target choices is not one more than the number of draft
    tokens; otherwise the accepted tokens are the longest common prefix of the
    draft and the choices, and the emitted tokens are that prefix followed by
    the target's next choice. *)
Theorem verify_greedy_round_spec draft choices :
  vlen draft < usize_max ->
  wp (verify_greedy_round draft choices) tt (fun _ r =>
    if vlen choices =? 0 then r = Err MissingTargetBonus
    else if negb (vlen choices =? vlen draft + 1) then
      r = Err (IncorrectTargetChoiceCount (vlen draft + 1) (vlen choices))
    else exists k t, k <= vlen draft /\ vget choices k = Some t /\
      take (N.to_nat k) draft = take (N.to_nat k) choices /\
      (k = vlen draft \/ vget draft k <> vget choices k) /\
      r = Ok (mkCommit k (take (N.to_nat k) choices ++ [t]) t)).
Proof.
  intros Hmax. destruct (N.eqb_spec (vlen choices) 0) as [H0|H0].
  { unfold verify_greedy_round. by rewrite H0. }
  destruct (N.eqb_spec (vlen choices) (vlen draft + 1)) as [Hl|Hl]; simpl.
  - eapply wp_mono; [by apply verify_greedy_round_wp|].
    intros [] r (_ & k & t & Hk & Ht & Hpre & Hstop & ->). exists k, t.
    assert (Htake : take (N.to_nat k) draft = take (N.to_nat k) choices).
    { apply list_eq. intros i. destruct (decide (i < N.to_nat k)%nat).
      - rewrite !lookup_take_lt by lia. specialize (Hpre (N.of_nat i) ltac:(lia)).
        unfold vget in Hpre. by rewrite Nat2N.id in Hpre.
      - by rewrite !lookup_take_ge by lia. }
    rewrite Htake. done.
  - unfold verify_greedy_round. destruct (N.eqb_spec (vlen choices) 0); [done|].
    unfold checked_add. destruct (N.leb_spec (vlen draft + 1) usize_max); [|lia].
    by destruct (N.eqb_spec (vlen choices) (vlen draft + 1)).
Qed.

Lemma verify_greedy_round_spec_witness :
  vlen [7; 8] < usize_max /\
  verify_greedy_round [7; 8] [7; 9] tt = Done tt (Err (IncorrectTargetChoiceCount 3 2)).
Proof.
  split; [by vm_compute|].
  pose proof (verify_greedy_round_spec [7; 8] [7; 9] ltac:(by vm_compute)) as H.
  apply wp_done in H as ([] & r & Hrun & H). rewrite Hrun. exact (f_equal _ H).
Defined.

End SpeculationTheorems.

Module CompletionTheorems.
Import Completion.

(** Accepting a sequence of observed completions one by one. *)
Fixpoint accept_all (completed : CompletionEpoch) (observed : list CompletionEpoch) :
    result CompletionEpoch CompletionOrderError :=
  match observed with
  | [] => Ok completed
  | o :: observed' =>
      match check_exact_next completed o with
      | Ok completed' => accept_all completed' observed'
      | Err e => Err e
      end
  end.

Lemma check_exact_next_ok completed observed e :
  check_exact_next completed observed = Ok e <->
  value observed = value completed + 1 /\ value observed <= u64_max /\ e = observed.
Proof.
  unfold check_exact_next, checked_add.
  destruct (N.leb_spec (value completed + 1) u64_max); simpl.
  - destruct (N.eqb_spec (value completed + 1) (value observed)); naive_solver lia.
  - split; [done|]. lia.
Qed.

(** Completions are accepted in exact order: a sequence of observed epochs is
    accepted if and only if it is the run of consecutive epochs that follows
    the completed one without leaving the 64-bit range, so a gap, a repetition
    or a reordering is always refused. *)
Theorem completion_exact_order completed observed last_epoch :
  value completed <= u64_max ->
  accept_all completed observed = Ok last_epoch <->
  value <$> observed = (fun i => value completed + 1 + N.of_nat i) <$> seq 0 (length observed) /\
  value last_epoch = value completed + vlen observed /\ value last_epoch <= u64_max.
Proof.
  revert completed. induction observed as [|o observed IH]; intros completed Hc; simpl.
  - unfold vlen. simpl. rewrite N.add_0_r. destruct completed as [c], last_epoch as [l]; simpl in *.
    split; [intros [= ->]; done|]. intros (_ & -> & _). done.
  - assert (Hseq : seq 1 (length observed) = S <$> seq 0 (length observed)) by by rewrite fmap_S_seq.
    rewrite Hseq, <- list_fmap_compose.
    assert (Hv : vlen (o :: observed) = 1 + vlen observed) by (unfold vlen; simpl; lia).
    rewrite Hv. destruct (check_exact_next completed o) as [c'|e] eqn:E.
    + apply check_exact_next_ok in E as (E1 & E2 & ->). rewrite IH by done. rewrite E1.
      assert (Hf : ((fun i => value completed + 1 + 1 + N.of_nat i) <$> seq 0 (length observed)) =
        (((fun i => value completed + 1 + N.of_nat i) ∘ S) <$> seq 0 (length observed)))
        by (apply list_fmap_ext; intros i x _; simpl; lia).
      rewrite Hf. rewrite N.add_0_r.
      split; intros (H1 & H2 & H3); (split_and!; [|lia|lia]); [by f_equal|by injection H1].
    + split; [done|]. rewrite N.add_0_r. intros (H1 & H2 & H3). injection H1 as H1 _.
      assert (Hok : check_exact_next completed o = Ok o).
      { apply check_exact_next_ok. split_and!; [done|lia|done]. }
      congruence.
Qed.

Lemma completion_exact_order_witness :
  value (mkEpoch 4) <= u64_max /\
  accept_all (mkEpoch 4) [mkEpoch 5; mkEpoch 6] = Ok (mkEpoch 6) /\
  accept_all (mkEpoch 4) [mkEpoch 6; mkEpoch 5] <> Ok (mkEpoch 5).
Proof.
  split_and!; [by vm_compute| |].
  - apply (completion_exact_order (mkEpoch 4) [mkEpoch 5; mkEpoch 6] (mkEpoch 6)); by vm_compute.
  - intros H. apply (completion_exact_order (mkEpoch 4)) in H as [H _]; [|by vm_compute].
    vm_compute in H. discriminate H.
Defined.

End CompletionTheorems.

Module LifecycleTheorems.
Import Lifecycle LifecycleFacts.

(** Cancellation is terminal: once a retire transition is accepted, no
    sequence of transitions without a KV detach leaves the retiring state, the
    request can never be dispatched or finalized again, and the state and phase
    stay one of the six legal combinations. *)
Theorem retired_until_detached r r' ts :
  coherent r = true -> apply_request_transition r Retire = Ok r' -> DetachKv ∉ ts ->
  state (run r' ts) = Retiring /\ coherent (run r' ts) = true /\
  apply_request_transition (run r' ts) Dispatch = Err NotReady /\
  apply_request_transition (run r' ts) FinalizeKv = Err NotInFlight.
Proof.
  intros Hc Hr Hts.
  assert (Hs : state r' = Retiring /\ coherent r' = true).
  { destruct r as [[] []]; simplify_eq/=; done. }
  destruct Hs as [Hs Hc'].
  pose proof (run_retiring ts r' Hc' Hs Hts) as H. pose proof (run_coherent ts r' Hc') as H'.
  split_and!; [done..| |]; unfold apply_request_transition; by rewrite H.
Qed.

Lemma retired_until_detached_witness :
  (DetachKv ∉ [CompleteExact; Dispatch]) /\
  state (run (mkSeq Retiring RetiringExecuting) [CompleteExact; Dispatch]) = Retiring.
Proof.
  assert (H : DetachKv ∉ [CompleteExact; Dispatch]) by set_solver.
  split; [exact H|].
  exact (proj1 (retired_until_detached (mkSeq InFlight Executing) _ _ eq_refl eq_refl H)).
Defined.

(** A request runs at most one batch at a time: while a request executes,
    until its exact completion is accepted, whatever else is attempted it can be
    neither dispatched again nor have its KV finalized or detached. *)
Theorem dispatch_needs_completion r ts :
  coherent r = true -> phase r = Executing -> CompleteExact ∉ ts ->
  apply_request_transition (run r ts) Dispatch = Err NotReady /\
  apply_request_transition (run r ts) FinalizeKv = Err NotInFlight /\
  apply_request_transition (run r ts) DetachKv = Err NotRetiring.
Proof.
  intros Hc Hp Hts.
  assert (H : phase (run r ts) = Executing /\ state (run r ts) = InFlight \/
              phase (run r ts) = RetiringExecuting /\ state (run r ts) = Retiring).
  { assert (H0 : phase r = Executing /\ state r = InFlight \/
                 phase r = RetiringExecuting /\ state r = Retiring)
      by (destruct r as [[] []]; simplify_eq/=; auto).
    clear Hc Hp. revert r H0. induction ts as [|t ts IH]; intros r H0; simpl; [done|].
    apply not_elem_of_cons in Hts as [Ht Hts]. apply IH; [done|].
    destruct r as [[] []], t; simplify_eq/=; naive_solver. }
  unfold apply_request_transition. destruct H as [[-> ->]|[-> ->]]; done.
Qed.

Lemma dispatch_needs_completion_witness :
  apply_request_transition (run (mkSeq InFlight Executing) [Retire; FinalizeKv]) Dispatch = Err NotReady.
Proof.
  assert (H : CompleteExact ∉ [Retire; FinalizeKv]) by set_solver.
  exact (proj1 (dispatch_needs_completion (mkSeq InFlight Executing) _ eq_refl eq_refl H)).
Defined.

End LifecycleTheorems.

Module IdentityTheorems.
Import Identity IdentityFacts.

(** Comparing two identities of the fixed size decides equality, and an
    identity is present exactly when some byte of it is not zero. *)
Theorem identity_comparison (a b : Identity) :
  well_sized a -> well_sized b ->
  (equals a b = true <-> a = b) /\ (is_present a = false <-> bytes a = replicate 32 0).
Proof.
  unfold well_sized, equals, is_present. intros Ha Hb. destruct a as [a], b as [b]; simpl in *. split.
  - rewrite equals_from_spec by congruence. naive_solver.
  - rewrite <- not_true_iff_false, is_present_from_spec.
    transitivity (replicate 32 0 = a); [|split; intros; by symmetry].
    rewrite replicate_as_elem_of. split.
    + intros H. split; [done|]. intros y Hy. destruct (N.eq_dec y 0); [done|].
      exfalso. apply H. by exists y.
    + intros [_ H] (x & Hx & Hn). by apply Hn, H.
Qed.

Lemma identity_comparison_witness :
  is_present (mkIdentity (replicate 32 0)) = false.
Proof.
  apply (identity_comparison (mkIdentity (replicate 32 0)) (mkIdentity (replicate 32 1)));
    reflexivity.
Defined.

End IdentityTheorems.
