(* ===== verification/KvPool.v ===== *)
(** The paged KV pool of [crates/ferric-engine/src/cache.rs]: its data, its
    fixed capacities and every operation, translated statement by statement.
    A Rust method on [&mut self] is a computation in [M KvPool]; indexing out of
    bounds, an overflowing [+] or [*], an underflowing [-], a division by zero
    and a shift by 32 or more end in [Panic]. *)
From S2P Require Import Prelude Spec.
Local Open Scope prog_scope.

Definition MAX_PAGE_SLOTS : N := 16384.
Definition MAX_REQUEST_SLOTS : N := 32.
Definition MAX_PAGES_PER_REQUEST : N := 512.

Record PageId := mkPageId { pid_index : N; pid_generation : N }.

Definition PageId_EMPTY : PageId := mkPageId 0 0.

Record RequestKey := mkRequestKey { rk_slot : N; rk_generation : N }.

Inductive PageState :=
| Free
| Writable (owner_slot : N)
| Sealed.

Record PageSlot := mkPageSlot {
  ps_generation : N;
  ps_state : PageState;
  ps_initialized_tokens : N;
  ps_reference_mask : N
}.

Definition PageSlot_free : PageSlot := mkPageSlot 1 Free 0 0.

Record RequestSlot := mkRequestSlot {
  rs_generation : N;
  rs_live : bool;
  rs_committed_tokens : N;
  rs_resident_tokens : N;
  rs_page_count : N;
  rs_pages : list PageId
}.

Definition RequestSlot_empty : RequestSlot :=
  mkRequestSlot 1 false 0 0 0 (vfill MAX_PAGES_PER_REQUEST PageId_EMPTY).

Inductive Capacity := Pages | PageTokens | ContextTokens | RequestPages.
Inductive Invariant := FreeStack | PageStateInv | ReferenceCount | TentativePage.

Inductive KvError :=
| ZeroCapacity (c : Capacity)
| CapacityExceedsBuildBound (c : Capacity)
| PageExceedsContext
| InvalidRequestSlot (slot : N)
| RequestSlotOccupied (slot : N)
| UnknownRequest (slot : N)
| StaleRequestGeneration (slot expected actual : N)
| RequestGenerationExhausted (slot : N)
| ContextExceeded
| CommitExceedsResident
| RequestPageTableFull
| OutOfPages
| InvalidPage (page : PageId)
| StalePage (page : PageId)
| GenerationExhausted (page : PageId)
| ReferenceCountExhausted (page : PageId)
| SameRequestShare
| PrefixNotPageAligned
| PrefixExceedsCommitted
| PrefixPageIncomplete (page : PageId)
| TargetNotEmpty
| ReadOutOfBounds
| ReadUninitialized (page : PageId)
| InvalidQuiescencePermit
| InvariantViolation (i : Invariant).

#[export] Instance PageId_eq_dec : EqDecision PageId.
Proof. solve_decision. Defined.
#[export] Instance PageState_eq_dec : EqDecision PageState.
Proof. solve_decision. Defined.
#[export] Instance PageSlot_eq_dec : EqDecision PageSlot.
Proof. solve_decision. Defined.
#[export] Instance Capacity_eq_dec : EqDecision Capacity.
Proof. solve_decision. Defined.
#[export] Instance Invariant_eq_dec : EqDecision Invariant.
Proof. solve_decision. Defined.
#[export] Instance KvError_eq_dec : EqDecision KvError.
Proof. solve_decision. Defined.

Record KvPool := mkKvPool {
  page_tokens : N;
  max_context_tokens : N;
  page_limit : N;
  pages : list PageSlot;
  free_stack : list N;
  free_len : N;
  free_bitmap : list bool;
  requests : list RequestSlot
}.

(** The capabilities of [scheduler.rs] that the pool consumes and returns. *)
Inductive KvQuiescenceOrigin :=
| NeverSubmitted
| CompletedExact (epoch : N).

Record KvQuiescencePermit := mkPermit {
  permit_request : RequestId;
  permit_origin : KvQuiescenceOrigin
}.

Record KvFinalizedRequest := mkFinalized {
  finalized_request : RequestId;
  finalized_origin : KvQuiescenceOrigin
}.

Record KvDetachedRequest := mkDetached {
  detached_request : RequestId;
  detached_origin : KvQuiescenceOrigin
}.

Record KvAuthorityError := mkAuthorityError {
  authority_error : KvError;
  authority_permit : KvQuiescencePermit
}.

#[export] Instance KvQuiescenceOrigin_eq_dec : EqDecision KvQuiescenceOrigin.
Proof. solve_decision. Defined.
#[export] Instance KvQuiescencePermit_eq_dec : EqDecision KvQuiescencePermit.
Proof. solve_decision. Defined.

(** ** Field assignment *)
Definition set_ps_state (v : PageState) (p : PageSlot) : PageSlot :=
  mkPageSlot (ps_generation p) v (ps_initialized_tokens p) (ps_reference_mask p).
Definition set_ps_initialized (v : N) (p : PageSlot) : PageSlot :=
  mkPageSlot (ps_generation p) (ps_state p) v (ps_reference_mask p).
Definition set_ps_mask (v : N) (p : PageSlot) : PageSlot :=
  mkPageSlot (ps_generation p) (ps_state p) (ps_initialized_tokens p) v.

Definition set_rs_live (v : bool) (r : RequestSlot) : RequestSlot :=
  mkRequestSlot (rs_generation r) v (rs_committed_tokens r) (rs_resident_tokens r)
    (rs_page_count r) (rs_pages r).
Definition set_rs_generation (v : N) (r : RequestSlot) : RequestSlot :=
  mkRequestSlot v (rs_live r) (rs_committed_tokens r) (rs_resident_tokens r)
    (rs_page_count r) (rs_pages r).
Definition set_rs_committed (v : N) (r : RequestSlot) : RequestSlot :=
  mkRequestSlot (rs_generation r) (rs_live r) v (rs_resident_tokens r)
    (rs_page_count r) (rs_pages r).
Definition set_rs_resident (v : N) (r : RequestSlot) : RequestSlot :=
  mkRequestSlot (rs_generation r) (rs_live r) (rs_committed_tokens r) v
    (rs_page_count r) (rs_pages r).
Definition set_rs_page_count (v : N) (r : RequestSlot) : RequestSlot :=
  mkRequestSlot (rs_generation r) (rs_live r) (rs_committed_tokens r)
    (rs_resident_tokens r) v (rs_pages r).
Definition set_rs_pages (v : list PageId) (r : RequestSlot) : RequestSlot :=
  mkRequestSlot (rs_generation r) (rs_live r) (rs_committed_tokens r)
    (rs_resident_tokens r) (rs_page_count r) v.

Definition put_pages (v : list PageSlot) (s : KvPool) : KvPool :=
  mkKvPool (page_tokens s) (max_context_tokens s) (page_limit s) v (free_stack s)
    (free_len s) (free_bitmap s) (requests s).
Definition put_free_stack (v : list N) (s : KvPool) : KvPool :=
  mkKvPool (page_tokens s) (max_context_tokens s) (page_limit s) (pages s) v
    (free_len s) (free_bitmap s) (requests s).
Definition put_free_len (v : N) (s : KvPool) : KvPool :=
  mkKvPool (page_tokens s) (max_context_tokens s) (page_limit s) (pages s) (free_stack s)
    v (free_bitmap s) (requests s).
Definition put_free_bitmap (v : list bool) (s : KvPool) : KvPool :=
  mkKvPool (page_tokens s) (max_context_tokens s) (page_limit s) (pages s) (free_stack s)
    (free_len s) v (requests s).
Definition put_requests (v : list RequestSlot) (s : KvPool) : KvPool :=
  mkKvPool (page_tokens s) (max_context_tokens s) (page_limit s) (pages s) (free_stack s)
    (free_len s) (free_bitmap s) v.

Definition read_page (i : N) : M KvPool PageSlot := read_at pages i.
Definition update_page (i : N) (g : PageSlot -> PageSlot) : M KvPool unit :=
  update_at pages put_pages i g.
Definition read_request (i : N) : M KvPool RequestSlot := read_at requests i.
Definition update_request (i : N) (g : RequestSlot -> RequestSlot) : M KvPool unit :=
  update_at requests put_requests i g.
Definition write_bitmap (i : N) (b : bool) : M KvPool unit :=
  update_at free_bitmap put_free_bitmap i (fun _ => b).
Definition write_free_stack (i v : N) : M KvPool unit :=
  update_at free_stack put_free_stack i (fun _ => v).

(** [self.requests[i].pages[pos]] and its assignment. *)
Definition read_chain (i pos : N) : M KvPool PageId :=
  let! r := read_request i in
  slice_at (rs_pages r) pos.
Definition write_chain (i pos : N) (page : PageId) : M KvPool unit :=
  let! r := read_request i in
  if pos <? vlen (rs_pages r) then update_request i (set_rs_pages (vset (rs_pages r) pos page))
  else panic.

Definition div_w {S} (a b : N) : M S N := if b =? 0 then panic else ret (a / b).
Definition mod_w {S} (a b : N) : M S N := if b =? 0 then panic else ret (a mod b).
(** [1_u32 << n] *)
Definition shl1_u32 {S} (n : N) : M S N := if n <? 32 then ret (N.shiftl 1 n) else panic.
(** [!x] on [u32] *)
Definition not_u32 (x : N) : N := N.lnot x 32.

(** ** Reference masks *)
Definition set_reference {S} (mask request_slot : N) : M S N :=
  let! bit := shl1_u32 request_slot in
  ret (N.lor mask bit).

Definition clear_reference {S} (mask request_slot : N) : M S N :=
  let! bit := shl1_u32 request_slot in
  ret (N.land mask (not_u32 bit)).

(** ** Construction *)
Fixpoint fill_free_stack (fuel : nat) (page_count index : N) : M KvPool unit :=
  match fuel with
  | O => ret tt
  | S fuel' =>
      if index <? page_count then
        let! d := sub_w page_count index in
        let! v := sub_w d 1 in
        write_free_stack index v ;;
        let! next := add32 index 1 in
        fill_free_stack fuel' page_count next
      else ret tt
  end.

Definition new_bounded {S} (page_count ptokens max_context : N) : M S (result KvPool KvError) :=
  if page_count =? 0 then ret (Err (ZeroCapacity Pages))
  else if ptokens =? 0 then ret (Err (ZeroCapacity PageTokens))
  else if max_context =? 0 then ret (Err (ZeroCapacity ContextTokens))
  else if MAX_PAGE_SLOTS <? page_count then ret (Err (CapacityExceedsBuildBound Pages))
  else if max_context <? ptokens then ret (Err PageExceedsContext)
  else
    let rounded_context := max_context + ptokens - 1 in
    let required_chain_pages := rounded_context / ptokens in
    if MAX_PAGES_PER_REQUEST <? required_chain_pages then
      ret (Err (CapacityExceedsBuildBound RequestPages))
    else
      let pool := mkKvPool ptokens max_context page_count
        (vfill MAX_PAGE_SLOTS PageSlot_free) (vfill MAX_PAGE_SLOTS 0) page_count
        (vfill MAX_PAGE_SLOTS true) (vfill MAX_REQUEST_SLOTS RequestSlot_empty) in
      match fill_free_stack (N.to_nat page_count) page_count 0 pool with
      | Done pool' _ => ret (Ok pool')
      | Panic => panic
      end.

Definition new {S} (page_count ptokens max_context : N) : M S (result KvPool KvError) :=
  new_bounded page_count ptokens max_context.

(** ** Lookups *)
Definition live_request_index (request : RequestKey) : M KvPool (result N KvError) :=
  let index := rk_slot request in
  if MAX_REQUEST_SLOTS <=? index then ret (Err (InvalidRequestSlot (rk_slot request)))
  else
    let! slot := read_request index in
    if negb (rs_live slot) then ret (Err (UnknownRequest (rk_slot request)))
    else if negb (rs_generation slot =? rk_generation request) then
      ret (Err (StaleRequestGeneration (rk_slot request) (rs_generation slot)
                  (rk_generation request)))
    else ret (Ok index).

Definition page_slot (page : PageId) : M KvPool (result PageSlot KvError) :=
  let index := pid_index page in
  let! limit := gets page_limit in
  if limit <=? index then ret (Err (InvalidPage page))
  else
    let! slot := read_page index in
    if negb (ps_generation slot =? pid_generation page) then ret (Err (StalePage page))
    else ret (Ok slot).

Definition page_has_other_reference (page_index excluded_slot : N) : M KvPool bool :=
  let! p := read_page page_index in
  let! bit := shl1_u32 excluded_slot in
  ret (negb (N.land (ps_reference_mask p) (not_u32 bit) =? 0)).

(** ** Admission *)
Definition create_request_key (request : RequestKey) : M KvPool (result unit KvError) :=
  if MAX_REQUEST_SLOTS <=? rk_slot request then
    ret (Err (InvalidRequestSlot (rk_slot request)))
  else
    let index := rk_slot request in
    let! r := read_request index in
    if rs_live r then ret (Err (RequestSlotOccupied (rk_slot request)))
    else if negb (rs_generation r =? rk_generation request) then
      ret (Err (StaleRequestGeneration (rk_slot request) (rs_generation r)
                  (rk_generation request)))
    else
      update_request index (set_rs_live true) ;;
      ret (Ok tt).

(** ** Appending tentative tokens *)
Definition append_existing_page (request_index : N) (page : PageId) (written : N) :
    M KvPool unit :=
  let page_index := pid_index page in
  let! p := read_page page_index in
  let! initialized := add32 (ps_initialized_tokens p) written in
  update_page page_index (set_ps_initialized initialized) ;;
  let! r := read_request request_index in
  let! resident := add32 (rs_resident_tokens r) written in
  update_request request_index (set_rs_resident resident).

Definition append_fresh_page (request : RequestKey) (request_index written : N) :
    M KvPool unit :=
  let! len := gets free_len in
  let! stack_index := sub_w len 1 in
  let! page_index := read_at free_stack stack_index in
  let! r := read_request request_index in
  let chain_position := rs_page_count r in
  modify (put_free_len stack_index) ;;
  write_bitmap page_index false ;;
  update_page page_index (set_ps_state (Writable (rk_slot request))) ;;
  update_page page_index (set_ps_initialized written) ;;
  let! p := read_page page_index in
  let! mask := set_reference (ps_reference_mask p) (rk_slot request) in
  update_page page_index (set_ps_mask mask) ;;
  let! p' := read_page page_index in
  write_chain request_index chain_position (mkPageId page_index (ps_generation p')) ;;
  let! count := add32 chain_position 1 in
  update_request request_index (set_rs_page_count count) ;;
  let! r' := read_request request_index in
  let! resident := add32 (rs_resident_tokens r') written in
  update_request request_index (set_rs_resident resident).

(** [while allocated < required_pages]; [count] is the number of iterations. *)
Fixpoint append_loop (count : nat) (request : RequestKey) (request_index remaining : N) :
    M KvPool unit :=
  match count with
  | O => ret tt
  | S count' =>
      let! ptokens := gets page_tokens in
      let written := N.min remaining ptokens in
      append_fresh_page request request_index written ;;
      let! remaining' := sub_w remaining written in
      append_loop count' request request_index remaining'
  end.

(** The remaining capacity of the tail page; a sealed tail is extended by
    copy-on-write, so it has none. *)
Definition tail_capacity_of (request : RequestKey) (old_page_count : N) (tail_page : PageId) :
    M KvPool (result N KvError) :=
  if old_page_count =? 0 then ret (Ok 0)
  else
    let? slot := page_slot tail_page in
    match ps_state slot with
    | Writable owner_slot =>
        if negb (owner_slot =? rk_slot request) then
          ret (Err (InvariantViolation PageStateInv))
        else
          let! ptokens := gets page_tokens in
          let! capacity := sub_w ptokens (ps_initialized_tokens slot) in
          ret (Ok capacity)
    | Sealed => ret (Ok 0)
    | Free => ret (Err (InvariantViolation PageStateInv))
    end.

Definition append_tentative_key (request : RequestKey) (token_count : N) :
    M KvPool (result unit KvError) :=
  let? request_index := live_request_index request in
  let! r := read_request request_index in
  let old_resident := rs_resident_tokens r in
  match checked_add u32_max old_resident token_count with
  | None => ret (Err ContextExceeded)
  | Some new_resident =>
  let! max_context := gets max_context_tokens in
  if max_context <? new_resident then ret (Err ContextExceeded)
  else if token_count =? 0 then ret (Ok tt)
  else
  let old_page_count := rs_page_count r in
  let! tail_page := (if old_page_count =? 0 then ret PageId_EMPTY
                     else read_chain request_index (old_page_count - 1)) in
  let? tail_capacity := tail_capacity_of request old_page_count tail_page in
  let! ptokens := gets page_tokens in
  let after_tail := token_count - tail_capacity in
  let! full_pages := div_w after_tail ptokens in
  let! partial_tokens := mod_w after_tail ptokens in
  let extra_page := N.min partial_tokens 1 in
  match checked_add u32_max full_pages extra_page with
  | None => ret (Err RequestPageTableFull)
  | Some required_pages =>
  match checked_add u32_max old_page_count required_pages with
  | None => ret (Err RequestPageTableFull)
  | Some final_page_count =>
  if MAX_PAGES_PER_REQUEST <? final_page_count then ret (Err RequestPageTableFull)
  else
  let! len := gets free_len in
  if len <? required_pages then ret (Err OutOfPages)
  else
  let tail_written := N.min token_count tail_capacity in
  let! remaining :=
    (if 0 <? tail_written then
       append_existing_page request_index tail_page tail_written ;;
       sub_w token_count tail_written
     else ret token_count) in
  append_loop (N.to_nat required_pages) request request_index remaining ;;
  ret (Ok tt)
  end end end.

(** ** Sharing a committed prefix *)
Definition share_next_page (source_index target_index target_slot position : N) :
    M KvPool unit :=
  let! page := read_chain source_index position in
  let page_index := pid_index page in
  let! p := read_page page_index in
  match ps_state p with
  | Writable _ => update_page page_index (set_ps_state Sealed)
  | Sealed | Free => ret tt
  end ;;
  let! p' := read_page page_index in
  let! mask := set_reference (ps_reference_mask p') target_slot in
  update_page page_index (set_ps_mask mask) ;;
  write_chain target_index position page ;;
  let! ptokens := gets page_tokens in
  let! t := read_request target_index in
  let! count := add32 (rs_page_count t) 1 in
  update_request target_index (set_rs_page_count count) ;;
  let! t1 := read_request target_index in
  let! resident := add32 (rs_resident_tokens t1) ptokens in
  update_request target_index (set_rs_resident resident) ;;
  let! t2 := read_request target_index in
  let! committed := add32 (rs_committed_tokens t2) ptokens in
  update_request target_index (set_rs_committed committed).

Fixpoint share_loop (count : nat) (source_index target_index target_slot position : N) :
    M KvPool unit :=
  match count with
  | O => ret tt
  | S count' =>
      share_next_page source_index target_index target_slot position ;;
      let! next := add32 position 1 in
      share_loop count' source_index target_index target_slot next
  end.

Definition share_committed_prefix_key (source target : RequestKey) (token_count : N) :
    M KvPool (result unit KvError) :=
  let? source_index := live_request_index source in
  let? target_index := live_request_index target in
  if source_index =? target_index then ret (Err SameRequestShare)
  else
    let! ptokens := gets page_tokens in
    let! shared_pages := div_w token_count ptokens in
    let! aligned_tokens := mul32 shared_pages ptokens in
    if (token_count =? 0) || negb (aligned_tokens =? token_count) then
      ret (Err PrefixNotPageAligned)
    else
      let! s := read_request source_index in
      if rs_committed_tokens s <? token_count then ret (Err PrefixExceedsCommitted)
      else
        let! t := read_request target_index in
        if negb (rs_resident_tokens t =? 0) then ret (Err TargetNotEmpty)
        else if MAX_PAGES_PER_REQUEST <? shared_pages then ret (Err RequestPageTableFull)
        else
          share_loop (N.to_nat shared_pages) source_index target_index (rk_slot target) 0 ;;
          ret (Ok tt).

(** ** Dropping pages *)
Definition drop_sole_tail (request_index : N) (page : PageId) (new_committed : N) :
    M KvPool unit :=
  let! r := read_request request_index in
  let! position := sub_w (rs_page_count r) 1 in
  let page_index := pid_index page in
  let! p := read_page page_index in
  let! generation := add32 (ps_generation p) 1 in
  let! new_resident := sub_w (rs_resident_tokens r) (ps_initialized_tokens p) in
  let! stack_position := gets free_len in
  write_chain request_index position PageId_EMPTY ;;
  update_request request_index (set_rs_page_count position) ;;
  update_request request_index (set_rs_resident new_resident) ;;
  update_request request_index (set_rs_committed new_committed) ;;
  update_page page_index (fun _ => mkPageSlot generation Free 0 0) ;;
  write_bitmap page_index true ;;
  write_free_stack stack_position (pid_index page) ;;
  let! len := add32 stack_position 1 in
  modify (put_free_len len).

Definition detach_shared_tail (request_index request_slot : N) (page : PageId)
    (new_committed : N) : M KvPool unit :=
  let! r := read_request request_index in
  let! position := sub_w (rs_page_count r) 1 in
  let page_index := pid_index page in
  let! p := read_page page_index in
  let! new_resident := sub_w (rs_resident_tokens r) (ps_initialized_tokens p) in
  let! updated_mask := clear_reference (ps_reference_mask p) request_slot in
  write_chain request_index position PageId_EMPTY ;;
  update_request request_index (set_rs_page_count position) ;;
  update_request request_index (set_rs_resident new_resident) ;;
  update_request request_index (set_rs_committed new_committed) ;;
  update_page page_index (set_ps_mask updated_mask).

Definition truncate_writable_tail (request_index : N) (page : PageId)
    (new_resident tail_tokens : N) : M KvPool unit :=
  update_page (pid_index page) (set_ps_initialized tail_tokens) ;;
  update_request request_index (set_rs_resident new_resident).

Definition raise_committed (request_index committed : N) : M KvPool unit :=
  update_request request_index (set_rs_committed committed).

Definition retire_empty_request (request_index : N) : M KvPool unit :=
  update_request request_index (set_rs_live false) ;;
  let! r := read_request request_index in
  let! generation := add32 (rs_generation r) 1 in
  update_request request_index (set_rs_generation generation).

(** ** Finalizing an exact completion *)

(** The generation check over the pages that will be dropped. *)
Fixpoint finalize_check (count : nat) (request_index position : N) :
    M KvPool (result unit KvError) :=
  match count with
  | O => ret (Ok tt)
  | S count' =>
      let! page := read_chain request_index position in
      let! p := read_page (pid_index page) in
      if ps_generation p =? u32_max then ret (Err (GenerationExhausted page))
      else
        let! next := add32 position 1 in
        finalize_check count' request_index next
  end.

(** [while remaining_pages > retained_pages] *)
Fixpoint finalize_drop (count : nat) (request_index committed remaining_pages : N) :
    M KvPool unit :=
  match count with
  | O => ret tt
  | S count' =>
      let! tail_position := sub_w remaining_pages 1 in
      let! page := read_chain request_index tail_position in
      let! _ := read_page (pid_index page) in
      drop_sole_tail request_index page committed ;;
      finalize_drop count' request_index committed tail_position
  end.

Definition finalize_tentative_key (request : RequestKey) (accepted_tokens : N) :
    M KvPool (result unit KvError) :=
  let? request_index := live_request_index request in
  let! r := read_request request_index in
  match checked_add u32_max (rs_committed_tokens r) accepted_tokens with
  | None => ret (Err CommitExceedsResident)
  | Some committed =>
  if rs_resident_tokens r <? committed then ret (Err CommitExceedsResident)
  else
  let old_page_count := rs_page_count r in
  let! ptokens := gets page_tokens in
  let! full_pages := div_w committed ptokens in
  let! tail_tokens := mod_w committed ptokens in
  let extra_page := N.min tail_tokens 1 in
  let! retained_pages := add32 full_pages extra_page in
  let! reclaim_count := sub_w old_page_count retained_pages in
  let! len := gets free_len in
  let! limit := gets page_limit in
  match checked_add u32_max len reclaim_count with
  | None => ret (Err (InvariantViolation FreeStack))
  | Some total =>
  if limit <? total then ret (Err (InvariantViolation FreeStack))
  else
  let? _ := finalize_check (N.to_nat reclaim_count) request_index retained_pages in
  raise_committed request_index committed ;;
  finalize_drop (N.to_nat reclaim_count) request_index committed old_page_count ;;
  (if negb (tail_tokens =? 0) then
     let! last := sub_w retained_pages 1 in
     let! tail := read_chain request_index last in
     let! _ := read_page (pid_index tail) in
     truncate_writable_tail request_index tail committed tail_tokens
   else ret tt) ;;
  ret (Ok tt)
  end end.

(** ** Releasing a request *)

(** Count the pages that return to the free stack. *)
Fixpoint release_count (count : nat) (request_index request_slot position reclaim_count : N) :
    M KvPool (result N KvError) :=
  match count with
  | O => ret (Ok reclaim_count)
  | S count' =>
      let! page := read_chain request_index position in
      let! shared := page_has_other_reference (pid_index page) request_slot in
      if shared then
        let! next := add32 position 1 in
        release_count count' request_index request_slot next reclaim_count
      else
        let! p := read_page (pid_index page) in
        if ps_generation p =? u32_max then ret (Err (GenerationExhausted page))
        else
          let! reclaim' := add32 reclaim_count 1 in
          let! next := add32 position 1 in
          release_count count' request_index request_slot next reclaim'
  end.

(** [while remaining > 0] *)
Fixpoint release_drop (count : nat) (request_index request_slot remaining : N) :
    M KvPool unit :=
  match count with
  | O => ret tt
  | S count' =>
      let! tail_position := sub_w remaining 1 in
      let! page := read_chain request_index tail_position in
      let page_index := pid_index page in
      let! p := read_page page_index in
      let! r := read_request request_index in
      let! new_resident := sub_w (rs_resident_tokens r) (ps_initialized_tokens p) in
      let new_committed := N.min (rs_committed_tokens r) new_resident in
      let! shared := page_has_other_reference page_index request_slot in
      (if shared then detach_shared_tail request_index request_slot page new_committed
       else drop_sole_tail request_index page new_committed) ;;
      release_drop count' request_index request_slot tail_position
  end.

Definition release_request_key (request : RequestKey) : M KvPool (result unit KvError) :=
  let? request_index := live_request_index request in
  let! r := read_request request_index in
  if rs_generation r =? u32_max then
    ret (Err (RequestGenerationExhausted (rk_slot request)))
  else
    let page_count := rs_page_count r in
    let? reclaim_count := release_count (N.to_nat page_count) request_index (rk_slot request) 0 0 in
    let! len := gets free_len in
    let! limit := gets page_limit in
    match checked_add u32_max len reclaim_count with
    | None => ret (Err (InvariantViolation FreeStack))
    | Some total =>
    if limit <? total then ret (Err (InvariantViolation FreeStack))
    else
      release_drop (N.to_nat page_count) request_index (rk_slot request) page_count ;;
      retire_empty_request request_index ;;
      ret (Ok tt)
    end.

(** ** Reading *)
Definition validate_read_key (request : RequestKey) (logical_offset span : N) :
    M KvPool (result unit KvError) :=
  let? request_index := live_request_index request in
  match checked_add u32_max logical_offset span with
  | None => ret (Err ReadOutOfBounds)
  | Some end_ =>
      let! r := read_request request_index in
      if rs_resident_tokens r <? end_ then ret (Err ReadOutOfBounds) else ret (Ok tt)
  end.

(** ** The public interface *)
Definition request_key (request : RequestId) : RequestKey :=
  mkRequestKey (slot request) (generation request).

Definition create_request (request : RequestId) : M KvPool (result unit KvError) :=
  create_request_key (request_key request).

Definition append_tentative (request : RequestId) (token_count : N) :
    M KvPool (result unit KvError) :=
  append_tentative_key (request_key request) token_count.

Definition share_committed_prefix (source target : RequestId) (token_count : N) :
    M KvPool (result unit KvError) :=
  share_committed_prefix_key (request_key source) (request_key target) token_count.

Definition same_request_id (left right : RequestId) : bool :=
  (slot left =? slot right) && (generation left =? generation right).

Definition finalize_tentative (request : RequestId) (accepted_tokens : N)
    (permit : KvQuiescencePermit) : M KvPool (result KvFinalizedRequest KvAuthorityError) :=
  let origin := permit_origin permit in
  let request_matches := same_request_id (permit_request permit) request in
  let completed := match origin with NeverSubmitted => false | CompletedExact _ => true end in
  if negb request_matches || negb completed then
    ret (Err (mkAuthorityError InvalidQuiescencePermit permit))
  else
    let! r := finalize_tentative_key (request_key request) accepted_tokens in
    match r with
    | Ok _ => ret (Ok (mkFinalized request origin))
    | Err error => ret (Err (mkAuthorityError error permit))
    end.

Definition release_request (request : RequestId) (permit : KvQuiescencePermit) :
    M KvPool (result KvDetachedRequest KvAuthorityError) :=
  let origin := permit_origin permit in
  if negb (same_request_id (permit_request permit) request) then
    ret (Err (mkAuthorityError InvalidQuiescencePermit permit))
  else
    let! r := release_request_key (request_key request) in
    match r with
    | Ok _ => ret (Ok (mkDetached request origin))
    | Err error => ret (Err (mkAuthorityError error permit))
    end.

Definition validate_read (request : RequestId) (logical_offset span : N) :
    M KvPool (result unit KvError) :=
  validate_read_key (request_key request) logical_offset span.

Definition resident_tokens (self : KvPool) (request : RequestId) : option N :=
  match vget (requests self) (slot request) with
  | Some s => if rs_live s && (rs_generation s =? generation request)
              then Some (rs_resident_tokens s) else None
  | None => None
  end.

Definition committed_tokens (self : KvPool) (request : RequestId) : option N :=
  match vget (requests self) (slot request) with
  | Some s => if rs_live s && (rs_generation s =? generation request)
              then Some (rs_committed_tokens s) else None
  | None => None
  end.

Definition free_pages (self : KvPool) : N := free_len self.
