(* ===== verification/KvInv.v ===== *)
(** The invariant of the KV pool and the lemma that carries it through every
    primitive update: each primitive of [cache.rs] rewrites one page slot and
    one request slot, so one frame lemma ([wf_update]) covers them all. *)
From S2P Require Import Prelude Spec KvPool.

(** ** Page arithmetic *)
Lemma full_page k pt res pos :
  pos < k -> k * pt <= res -> N.min pt (res - pos * pt) = pt.
Proof.
  intros Hk Hres. assert ((pos + 1) * pt <= k * pt) by (apply N.mul_le_mono_r; lia). lia.
Qed.

Lemma tight_page k pt res pos :
  pos + 1 < k -> k * pt < res + pt -> N.min pt (res - pos * pt) = pt.
Proof.
  intros Hk Hres. apply (full_page (k - 1)); [lia|].
  replace k with (k - 1 + 1) in Hres by lia. lia.
Qed.

Lemma last_page k pt res :
  0 < k -> res <= k * pt -> k * pt < res + pt ->
  N.min pt (res - (k - 1) * pt) = res - (k - 1) * pt /\ (k - 1) * pt < res.
Proof. intros Hk. replace (k * pt) with ((k - 1) * pt + pt) by nia. lia. Qed.

(** ** Total views of the vectors *)
Definition page_at (s : KvPool) (p : N) : PageSlot := vnth PageSlot_free (pages s) p.
Definition req_at (s : KvPool) (i : N) : RequestSlot := vnth RequestSlot_empty (requests s) i.
Definition pid_at (r : RequestSlot) (pos : N) : PageId := vnth PageId_EMPTY (rs_pages r) pos.
Definition bit_at (s : KvPool) (p : N) : bool := vnth false (free_bitmap s) p.
Definition stack_at (s : KvPool) (k : N) : N := vnth 0 (free_stack s) k.

(** Request [i] holds page [p] somewhere in its chain. *)
Definition holds (r : RequestSlot) (p : N) : Prop :=
  exists pos, pos < rs_page_count r /\ pid_index (pid_at r pos) = p.

Definition is_free (st : PageState) : bool :=
  match st with Free => true | _ => false end.

(** ** The invariant *)
Record shape (s : KvPool) : Prop := mkShape {
  sh_pages : vlen (pages s) = MAX_PAGE_SLOTS;
  sh_stack : vlen (free_stack s) = MAX_PAGE_SLOTS;
  sh_bitmap : vlen (free_bitmap s) = MAX_PAGE_SLOTS;
  sh_requests : vlen (requests s) = MAX_REQUEST_SLOTS;
  sh_tokens : 0 < page_tokens s <= max_context_tokens s;
  sh_context : max_context_tokens s <= MAX_PAGES_PER_REQUEST * page_tokens s;
  sh_context32 : max_context_tokens s <= u32_max;
  sh_limit : 0 < page_limit s <= MAX_PAGE_SLOTS
}.

Record request_ok (ptokens max_context : N) (r : RequestSlot) : Prop := mkRequestOk {
  rq_generation : 0 < rs_generation r <= u32_max;
  rq_pages : vlen (rs_pages r) = MAX_PAGES_PER_REQUEST;
  rq_committed : rs_committed_tokens r <= rs_resident_tokens r;
  rq_resident : rs_resident_tokens r <= max_context;
  rq_dead : rs_live r = false -> rs_resident_tokens r = 0;
  rq_cover : rs_resident_tokens r <= rs_page_count r * ptokens;
  rq_tight : rs_page_count r * ptokens < rs_resident_tokens r + ptokens
}.

(** What the chain entry [pid] at position [pos] of request [i] says about the
    page [ps] it names. *)
Record entry_ok (limit ptokens i : N) (r : RequestSlot) (pos : N) (pid : PageId)
    (ps : PageSlot) : Prop := mkEntryOk {
  en_index : pid_index pid < limit;
  en_generation : ps_generation ps = pid_generation pid;
  en_initialized : ps_initialized_tokens ps = N.min ptokens (rs_resident_tokens r - pos * ptokens);
  en_state : match ps_state ps with
             | Writable owner => owner = i
             | Sealed => (pos + 1) * ptokens <= rs_committed_tokens r
             | Free => False
             end
}.

Definition page_ok (ptokens : N) (ps : PageSlot) : Prop :=
  0 < ps_generation ps <= u32_max /\
  match ps_state ps with
  | Free => ps_initialized_tokens ps = 0 /\ ps_reference_mask ps = 0
  | Writable owner =>
      owner < MAX_REQUEST_SLOTS /\ ps_reference_mask ps = N.shiftl 1 owner /\
      0 < ps_initialized_tokens ps <= ptokens
  | Sealed => ps_reference_mask ps <> 0 /\ ps_initialized_tokens ps = ptokens
  end.

(** The free stack lists, without repetition, the pages the bitmap marks. *)
Record free_ok (limit : N) (stack : list N) (len : N) (bitmap : list bool) : Prop := mkFreeOk {
  fr_range : forall k, k < len -> vnth 0 stack k < limit;
  fr_inj : forall k k', k < len -> k' < len -> vnth 0 stack k = vnth 0 stack k' -> k = k';
  fr_bitmap : forall p, p < limit ->
    vnth false bitmap p = true <-> exists k, k < len /\ vnth 0 stack k = p
}.

Record wf (s : KvPool) : Prop := mkWf {
  wf_shape : shape s;
  wf_request : forall i, request_ok (page_tokens s) (max_context_tokens s) (req_at s i);
  wf_entry : forall i pos, pos < rs_page_count (req_at s i) ->
    entry_ok (page_limit s) (page_tokens s) i (req_at s i) pos (pid_at (req_at s i) pos)
      (page_at s (pid_index (pid_at (req_at s i) pos)));
  wf_inj : forall i pos pos',
    pos < rs_page_count (req_at s i) -> pos' < rs_page_count (req_at s i) ->
    pid_index (pid_at (req_at s i) pos) = pid_index (pid_at (req_at s i) pos') -> pos = pos';
  wf_page : forall p, p < page_limit s -> page_ok (page_tokens s) (page_at s p);
  wf_bitmap : forall p, p < page_limit s -> bit_at s p = is_free (ps_state (page_at s p));
  wf_mask : forall p j, p < page_limit s ->
    N.testbit (ps_reference_mask (page_at s p)) j = true <-> holds (req_at s j) p;
  wf_free : free_ok (page_limit s) (free_stack s) (free_len s) (free_bitmap s)
}.

(** ** Consequences *)
Section facts.
Context (s : KvPool) (Hwf : wf s).

Lemma holds_lt i p : holds (req_at s i) p -> p < page_limit s.
Proof. intros (pos & Hpos & <-). by destruct (wf_entry s Hwf i pos Hpos). Qed.

Lemma holds_not_free i p : holds (req_at s i) p -> ps_state (page_at s p) <> Free.
Proof.
  intros (pos & Hpos & <-) HF. destruct (wf_entry s Hwf i pos Hpos) as [_ _ _ Hst].
  by rewrite HF in Hst.
Qed.

Lemma req_out_of_range i : MAX_REQUEST_SLOTS <= i -> req_at s i = RequestSlot_empty.
Proof.
  intros Hi. unfold req_at, vnth. destruct (vget (requests s) i) eqn:E; [|done].
  apply vget_Some_lt in E. rewrite (sh_requests s (wf_shape s Hwf)) in E. lia.
Qed.

Lemma holds_slot i p : holds (req_at s i) p -> i < MAX_REQUEST_SLOTS.
Proof.
  intros (pos & Hpos & _). destruct (N.lt_ge_cases i MAX_REQUEST_SLOTS) as [|Hi]; [done|].
  rewrite (req_out_of_range i Hi) in Hpos. simpl in Hpos. lia.
Qed.

Lemma holds_live i p : holds (req_at s i) p -> rs_live (req_at s i) = true.
Proof.
  intros (pos & Hpos & _). destruct (wf_request s Hwf i) as [].
  destruct (rs_live (req_at s i)); [done|]. rewrite rq_dead0 in rq_tight0 by done.
  pose proof (sh_tokens s (wf_shape s Hwf)). nia.
Qed.

(** A writable page has exactly one holder, its owner. *)
Lemma writable_sole p o i :
  p < page_limit s -> ps_state (page_at s p) = Writable o ->
  holds (req_at s i) p <-> i = o.
Proof.
  intros Hp Ho. rewrite <- (wf_mask s Hwf p i Hp).
  destruct (wf_page s Hwf p Hp) as [_ Hpg]. rewrite Ho in Hpg. destruct Hpg as (_ & -> & _).
  rewrite N.shiftl_1_l, N.pow2_bits_eqb, N.eqb_eq. naive_solver.
Qed.

Lemma page_count_le i : rs_page_count (req_at s i) <= MAX_PAGES_PER_REQUEST.
Proof.
  destruct (wf_request s Hwf i), (wf_shape s Hwf).
  unfold MAX_PAGES_PER_REQUEST in *. nia.
Qed.

Lemma page_in_vec p : p < page_limit s -> p < vlen (pages s).
Proof. destruct (wf_shape s Hwf). lia. Qed.

Lemma page_in_bitmap p : p < page_limit s -> p < vlen (free_bitmap s).
Proof. destruct (wf_shape s Hwf). lia. Qed.

Lemma request_in_vec i : i < MAX_REQUEST_SLOTS -> i < vlen (requests s).
Proof. destruct (wf_shape s Hwf). lia. Qed.

Lemma request_pages_len i : vlen (rs_pages (req_at s i)) = MAX_PAGES_PER_REQUEST.
Proof. by destruct (wf_request s Hwf i). Qed.
End facts.

(** ** One page and one request change *)
Definition updated (s : KvPool) (p : N) (np : PageSlot) (i : N) (nr : RequestSlot)
    (stack : list N) (len : N) (bitmap : list bool) : KvPool :=
  mkKvPool (page_tokens s) (max_context_tokens s) (page_limit s) (vset (pages s) p np)
    stack len bitmap (vset (requests s) i nr).

Section update.
Context (s : KvPool) (p : N) (np : PageSlot) (i : N) (nr : RequestSlot)
  (stack : list N) (len : N) (bitmap : list bool).
Let s' := updated s p np i nr stack len bitmap.
Context (Hwf : wf s) (Hp : p < page_limit s) (Hi : i < MAX_REQUEST_SLOTS).

Lemma page_at_updated q :
  page_at s' q = if decide (q = p) then np else page_at s q.
Proof. apply vnth_vset. by apply page_in_vec. Qed.

Lemma req_at_updated j :
  req_at s' j = if decide (j = i) then nr else req_at s j.
Proof. apply vnth_vset. by apply request_in_vec. Qed.

Context (Hnr : request_ok (page_tokens s) (max_context_tokens s) nr)
  (** the chain of the changed request *)
  (Hentry : forall pos, pos < rs_page_count nr ->
    entry_ok (page_limit s) (page_tokens s) i nr pos (pid_at nr pos)
      (if decide (pid_index (pid_at nr pos) = p) then np
       else page_at s (pid_index (pid_at nr pos))))
  (Hinj : forall pos pos', pos < rs_page_count nr -> pos' < rs_page_count nr ->
    pid_index (pid_at nr pos) = pid_index (pid_at nr pos') -> pos = pos')
  (** the other holders of the changed page *)
  (Hother : forall j pos, j <> i -> pos < rs_page_count (req_at s j) ->
    pid_index (pid_at (req_at s j) pos) = p ->
    entry_ok (page_limit s) (page_tokens s) j (req_at s j) pos (pid_at (req_at s j) pos) np)
  (Hnp : page_ok (page_tokens s) np)
  (Hmask_other : forall j, j <> i ->
    N.testbit (ps_reference_mask np) j = true <-> holds (req_at s j) p)
  (Hmask_self : N.testbit (ps_reference_mask np) i = true <-> holds nr p)
  (Hframe : forall q, q <> p -> holds nr q <-> holds (req_at s i) q)
  (Hstack : vlen stack = MAX_PAGE_SLOTS) (Hbm : vlen bitmap = MAX_PAGE_SLOTS)
  (Hbitmap : forall q, vnth false bitmap q =
    if decide (q = p) then is_free (ps_state np) else bit_at s q)
  (Hfree : free_ok (page_limit s) stack len bitmap).

Lemma wf_update : wf s'.
Proof.
  destruct (wf_shape s Hwf) as [].
  constructor.
  - constructor; simpl; rewrite ?vlen_vset; done.
  - intros j. rewrite req_at_updated. case_decide; [done|]. apply (wf_request s Hwf).
  - intros j pos. rewrite req_at_updated. case_decide as Hj.
    + subst j. intros Hpos. rewrite page_at_updated. by apply Hentry.
    + intros Hpos. rewrite page_at_updated. case_decide as Hq.
      * by apply Hother.
      * by apply (wf_entry s Hwf).
  - intros j pos pos'. rewrite req_at_updated. case_decide; [apply Hinj|apply (wf_inj s Hwf)].
  - intros q Hq. rewrite page_at_updated. case_decide; [done|by apply (wf_page s Hwf)].
  - intros q Hq. unfold bit_at. simpl. rewrite Hbitmap, page_at_updated.
    case_decide; [done|by apply (wf_bitmap s Hwf)].
  - intros q j Hq. rewrite page_at_updated, req_at_updated.
    destruct (decide (q = p)) as [->|Hqp], (decide (j = i)) as [->|Hji].
    + done.
    + by apply Hmask_other.
    + rewrite (wf_mask s Hwf q i Hq). symmetry. by apply Hframe.
    + by apply (wf_mask s Hwf).
  - done.
Qed.
End update.

(** ** The free stack *)
Section free_stack.
Context (limit : N) (stack : list N) (len : N) (bitmap : list bool).

Lemma free_ok_bitmap_ext bitmap' :
  (forall p, p < limit -> vnth false bitmap' p = vnth false bitmap p) ->
  free_ok limit stack len bitmap -> free_ok limit stack len bitmap'.
Proof.
  intros Hb []. constructor; [done..|]. intros p Hp. rewrite Hb by done. by apply fr_bitmap0.
Qed.

Lemma free_ok_pop :
  0 < len -> len <= vlen stack -> vlen stack <= vlen bitmap -> limit <= vlen bitmap ->
  free_ok limit stack len bitmap ->
  free_ok limit stack (len - 1) (vset bitmap (vnth 0 stack (len - 1)) false).
Proof.
  intros Hl Hs Hv Hb [Hr Hi Hbm]. set (p0 := vnth 0 stack (len - 1)).
  assert (Hp0 : p0 < limit) by (apply Hr; lia).
  constructor.
  - intros k Hk. apply Hr. lia.
  - intros k k' Hk Hk'. apply Hi; lia.
  - intros p Hp. rewrite vnth_vset by lia. case_decide as E.
    + subst p. split; [done|]. intros (k & Hk & Hk').
      assert (k = len - 1) by (apply Hi; [lia..|done]). lia.
    + rewrite Hbm by done. split.
      * intros (k & Hk & Hk'). exists k. split; [|done].
        destruct (decide (k = len - 1)) as [->|]; [|lia]. by destruct E.
      * intros (k & Hk & Hk'). exists k. split; [lia|done].
Qed.

Lemma free_ok_push p0 :
  len < vlen stack -> p0 < limit -> limit <= vlen bitmap -> vnth false bitmap p0 = false ->
  free_ok limit stack len bitmap ->
  free_ok limit (vset stack len p0) (len + 1) (vset bitmap p0 true).
Proof.
  intros Hl Hp0 Hb Hfalse [Hr Hi Hbm].
  assert (Hno : forall k, k < len -> vnth 0 stack k <> p0).
  { intros k Hk Heq. assert (vnth false bitmap p0 = true) by (apply Hbm; eauto). congruence. }
  constructor.
  - intros k Hk. rewrite vnth_vset by done. case_decide; [done|]. apply Hr. lia.
  - intros k k' Hk Hk'. rewrite !vnth_vset by done. repeat case_decide; subst; auto.
    + intros Heq. exfalso. apply (Hno k'); [lia|done].
    + intros Heq. exfalso. apply (Hno k); [lia|done].
    + apply Hi; lia.
  - intros p Hp. rewrite vnth_vset by lia. case_decide as E.
    + subst p. split; [|done]. intros _. exists len. split; [lia|]. by apply vnth_vset_eq.
    + rewrite Hbm by done. split.
      * intros (k & Hk & Hk'). exists k. split; [lia|]. rewrite vnth_vset by done.
        case_decide; [lia|done].
      * intros (k & Hk & Hk'). rewrite vnth_vset in Hk' by done. case_decide; [congruence|].
        exists k. split; [lia|done].
Qed.
End free_stack.

(** ** Counting free pages *)
Definition all_pages (s : KvPool) : list N := N.of_nat <$> seq 0 (N.to_nat (page_limit s)).
Definition free_list (s : KvPool) : list N :=
  (fun k => stack_at s (N.of_nat k)) <$> seq 0 (N.to_nat (free_len s)).

Section counting.
Context (s : KvPool) (Hwf : wf s).

Lemma elem_of_all_pages p : p ∈ all_pages s <-> p < page_limit s.
Proof.
  unfold all_pages. rewrite list_elem_of_fmap. setoid_rewrite elem_of_seq. split.
  - intros (k & -> & ?). lia.
  - intros. exists (N.to_nat p). lia.
Qed.

Lemma NoDup_all_pages : NoDup (all_pages s).
Proof. apply NoDup_fmap; [intros ???; lia|apply NoDup_seq]. Qed.

Lemma elem_of_free_list p :
  p ∈ free_list s <-> p < page_limit s /\ ps_state (page_at s p) = Free.
Proof.
  pose proof (wf_free s Hwf) as [Hr Hi Hb].
  assert (Hin : p ∈ free_list s <-> exists k, k < free_len s /\ stack_at s k = p).
  { unfold free_list. rewrite list_elem_of_fmap. setoid_rewrite elem_of_seq. split.
    - intros (k & -> & ?). exists (N.of_nat k). split; [lia|done].
    - intros (k & ? & <-). exists (N.to_nat k). rewrite N2Nat.id. split; [done|lia]. }
  rewrite Hin. split.
  - intros (k & Hk & <-). assert (Hlt : stack_at s k < page_limit s) by by apply Hr.
    split; [done|]. assert (Hbit : bit_at s (stack_at s k) = true) by (apply Hb; eauto).
    rewrite (wf_bitmap s Hwf) in Hbit by done. by destruct (ps_state _).
  - intros [Hp HF]. apply Hb; [done|]. change (bit_at s p = true).
    by rewrite (wf_bitmap s Hwf), HF.
Qed.

Lemma NoDup_free_list : NoDup (free_list s).
Proof.
  apply NoDup_fmap_2_strong; [|apply NoDup_seq].
  intros x y Hx Hy Heq. apply elem_of_seq in Hx, Hy.
  apply (fr_inj _ _ _ _ (wf_free s Hwf)) in Heq; lia.
Qed.

(** The free stack holds exactly the free pages. *)
Lemma free_list_perm :
  free_list s ≡ₚ filter (fun p => ps_state (page_at s p) = Free) (all_pages s).
Proof.
  apply NoDup_Permutation.
  - apply NoDup_free_list.
  - apply NoDup_filter, NoDup_all_pages.
  - intros p. rewrite elem_of_free_list, list_elem_of_filter, elem_of_all_pages. tauto.
Qed.

Lemma length_free_list : length (free_list s) = N.to_nat (free_len s).
Proof. unfold free_list. by rewrite length_fmap, length_seq. Qed.

(** Distinct pages in use leave room on the free stack. *)
Lemma in_use_bound (l : list N) :
  NoDup l -> (forall p, p ∈ l -> p < page_limit s /\ ps_state (page_at s p) <> Free) ->
  free_len s + vlen l <= page_limit s.
Proof.
  intros Hnd Hl.
  assert (Hsub : free_list s ++ l ⊆+ all_pages s).
  { apply NoDup_submseteq.
    - apply NoDup_app. split_and!; [apply NoDup_free_list| |done].
      intros p Hp Hp'. apply elem_of_free_list in Hp. destruct (Hl p Hp'). tauto.
    - intros p. rewrite elem_of_app, elem_of_free_list, elem_of_all_pages.
      intros [[]|Hp]; [done|by destruct (Hl p Hp)]. }
  apply submseteq_length in Hsub. rewrite length_app, length_free_list in Hsub.
  unfold all_pages in Hsub. rewrite length_fmap, length_seq in Hsub. unfold vlen. lia.
Qed.

Lemma free_len_le : free_len s <= page_limit s.
Proof. pose proof (in_use_bound [] (NoDup_nil_2)) as H. unfold vlen in H. simpl in H. 
  apply N.le_trans with (free_len s + 0); [lia|]. apply H. intros p Hp. set_solver.
Qed.

Lemma free_len_lt p :
  p < page_limit s -> ps_state (page_at s p) <> Free -> free_len s < page_limit s.
Proof.
  intros Hp HF. pose proof (in_use_bound [p] (NoDup_singleton p)) as H.
  unfold vlen in H. simpl in H. cut (free_len s + 1 <= page_limit s); [lia|].
  apply H. intros q ->%list_elem_of_singleton. done.
Qed.
End counting.
