(* ===== verification/KvPrim.v ===== *)
(** The primitive updates of the KV pool ([append_existing_page],
    [append_fresh_page], [share_next_page], [drop_sole_tail],
    [detach_shared_tail], [truncate_writable_tail], [raise_committed],
    [retire_empty_request]): the exact state each leaves, and that each
    preserves the invariant. *)
From S2P Require Import Prelude Spec KvPool KvInv.

(** ** Access rules *)
Section access.
Implicit Types (s : KvPool).

Lemma wp_read_page i s (Q : KvPool -> PageSlot -> Prop) :
  i < vlen (pages s) -> Q s (page_at s i) -> wp (read_page i) s Q.
Proof. apply wp_read_at. Qed.

Lemma wp_update_page i g s (Q : KvPool -> unit -> Prop) :
  i < vlen (pages s) -> Q (put_pages (vset (pages s) i (g (page_at s i))) s) tt ->
  wp (update_page i g) s Q.
Proof. apply wp_update_at. Qed.

Lemma wp_read_request i s (Q : KvPool -> RequestSlot -> Prop) :
  i < vlen (requests s) -> Q s (req_at s i) -> wp (read_request i) s Q.
Proof. apply wp_read_at. Qed.

Lemma wp_update_request i g s (Q : KvPool -> unit -> Prop) :
  i < vlen (requests s) -> Q (put_requests (vset (requests s) i (g (req_at s i))) s) tt ->
  wp (update_request i g) s Q.
Proof. apply wp_update_at. Qed.

Lemma wp_write_bitmap i b s (Q : KvPool -> unit -> Prop) :
  i < vlen (free_bitmap s) -> Q (put_free_bitmap (vset (free_bitmap s) i b) s) tt ->
  wp (write_bitmap i b) s Q.
Proof. apply (wp_update_at free_bitmap put_free_bitmap false i (fun _ => b)). Qed.

Lemma wp_write_free_stack i v s (Q : KvPool -> unit -> Prop) :
  i < vlen (free_stack s) -> Q (put_free_stack (vset (free_stack s) i v) s) tt ->
  wp (write_free_stack i v) s Q.
Proof. apply (wp_update_at free_stack put_free_stack 0 i (fun _ => v)). Qed.

Lemma wp_read_stack i s (Q : KvPool -> N -> Prop) :
  i < vlen (free_stack s) -> Q s (stack_at s i) -> wp (read_at free_stack i) s Q.
Proof. apply wp_read_at. Qed.

Lemma wp_read_chain i pos s (Q : KvPool -> PageId -> Prop) :
  i < vlen (requests s) -> pos < vlen (rs_pages (req_at s i)) ->
  Q s (pid_at (req_at s i) pos) -> wp (read_chain i pos) s Q.
Proof.
  intros Hi Hpos HQ. unfold read_chain. apply wp_bind, wp_read_request; [done|].
  eapply wp_slice_at; [by apply vget_nth|done].
Qed.

Lemma wp_write_chain i pos pid s (Q : KvPool -> unit -> Prop) :
  i < vlen (requests s) -> pos < vlen (rs_pages (req_at s i)) ->
  Q (put_requests (vset (requests s) i
       (set_rs_pages (vset (rs_pages (req_at s i)) pos pid) (req_at s i))) s) tt ->
  wp (write_chain i pos pid) s Q.
Proof.
  intros Hi Hpos HQ. unfold write_chain. apply wp_bind, wp_read_request; [done|].
  destruct (N.ltb_spec pos (vlen (rs_pages (req_at s i)))); [|lia].
  by apply wp_update_request.
Qed.

Lemma wp_div_w {S} a b (s : S) (Q : S -> N -> Prop) :
  b <> 0 -> Q s (a / b) -> wp (div_w a b) s Q.
Proof. intros H ?. unfold div_w. destruct (N.eqb_spec b 0); done. Qed.

Lemma wp_mod_w {S} a b (s : S) (Q : S -> N -> Prop) :
  b <> 0 -> Q s (a mod b) -> wp (mod_w a b) s Q.
Proof. intros H ?. unfold mod_w. destruct (N.eqb_spec b 0); done. Qed.

Lemma wp_shl1 {S} n (s : S) (Q : S -> N -> Prop) :
  n < 32 -> Q s (N.shiftl 1 n) -> wp (shl1_u32 n) s Q.
Proof. intros H ?. unfold shl1_u32. destruct (N.ltb_spec n 32); [done|lia]. Qed.

Lemma wp_set_reference {S} mask n (s : S) (Q : S -> N -> Prop) :
  n < 32 -> Q s (N.lor mask (N.shiftl 1 n)) -> wp (set_reference mask n) s Q.
Proof. intros. unfold set_reference. by apply wp_bind, wp_shl1. Qed.

Lemma wp_clear_reference {S} mask n (s : S) (Q : S -> N -> Prop) :
  n < 32 -> Q s (N.land mask (not_u32 (N.shiftl 1 n))) -> wp (clear_reference mask n) s Q.
Proof. intros. unfold clear_reference. by apply wp_bind, wp_shl1. Qed.

Lemma wp_page_has_other_reference p n s (Q : KvPool -> bool -> Prop) :
  p < vlen (pages s) -> n < 32 ->
  Q s (negb (N.land (ps_reference_mask (page_at s p)) (not_u32 (N.shiftl 1 n)) =? 0)) ->
  wp (page_has_other_reference p n) s Q.
Proof.
  intros. unfold page_has_other_reference.
  apply wp_bind, wp_read_page; [done|]. by apply wp_bind, wp_shl1.
Qed.
End access.

(** One step of symbolic execution; bounds are left to [kv_side]. *)
Ltac kv_side :=
  try done; unfold page_at, req_at, u32_max in *; simpl; rewrite ?vlen_vset; try done; try lia.

(** The facts of the invariant that bounds need. *)
Ltac kv_bounds s Hwf :=
  let H := fresh "Hshape" in
  pose proof (wf_shape s Hwf) as H; destruct H;
  pose proof (free_len_le s Hwf);
  unfold MAX_PAGE_SLOTS, MAX_REQUEST_SLOTS, MAX_PAGES_PER_REQUEST in *.

(** Close [s' = updated ...] after symbolic execution. *)
Ltac kv_state :=
  unfold updated, put_pages, put_requests, put_free_stack, put_free_len, put_free_bitmap; simpl;
  rewrite ?vset_vset; try reflexivity.

Ltac kv_step :=
  lazymatch goal with
  | |- wp (bind _ _) _ _ => apply wp_bind
  | |- wp (try_bind _ _) _ _ => apply wp_try_bind
  | |- wp (gets _) _ _ => apply wp_gets
  | |- wp (ret _) _ _ => apply wp_ret
  | |- wp (modify _) _ _ => apply wp_modify
  | |- wp (read_page _) _ _ => apply wp_read_page; [kv_side|]
  | |- wp (update_page _ _) _ _ => apply wp_update_page; [kv_side|]
  | |- wp (read_request _) _ _ => apply wp_read_request; [kv_side|]
  | |- wp (update_request _ _) _ _ => apply wp_update_request; [kv_side|]
  | |- wp (write_bitmap _ _) _ _ => apply wp_write_bitmap; [kv_side|]
  | |- wp (write_free_stack _ _) _ _ => apply wp_write_free_stack; [kv_side|]
  | |- wp (read_at free_stack _) _ _ => apply wp_read_stack; [kv_side|]
  | |- wp (read_chain _ _) _ _ => apply wp_read_chain; [kv_side|kv_side|]
  | |- wp (write_chain _ _ _) _ _ => apply wp_write_chain; [kv_side|kv_side|]
  | |- wp (set_reference _ _) _ _ => apply wp_set_reference; [kv_side|]
  | |- wp (clear_reference _ _) _ _ => apply wp_clear_reference; [kv_side|]
  | |- wp (page_has_other_reference _ _) _ _ =>
      apply wp_page_has_other_reference; [kv_side|kv_side|]
  | |- wp (add32 _ _) _ _ => apply wp_add32; [kv_side|]
  | |- wp (sub_w _ _) _ _ => apply wp_sub_w; [kv_side|]
  | |- wp (mul32 _ _) _ _ => apply wp_mul32; [kv_side|]
  | |- wp (div_w _ _) _ _ => apply wp_div_w; [kv_side|]
  | |- wp (mod_w _ _) _ _ => apply wp_mod_w; [kv_side|]
  end;
  cbv beta.

(** Reduce lookups of the vectors just written. *)
Ltac kv_lookup :=
  unfold page_at, req_at, pid_at, bit_at; simpl;
  repeat (rewrite vnth_vset_eq by kv_side); simpl.

(** ** Bit facts *)
Section bits.
Lemma testbit_bit n k : N.testbit (N.shiftl 1 n) k = (n =? k).
Proof. by rewrite N.shiftl_1_l, N.pow2_bits_eqb. Qed.

Lemma testbit_not_bit n k : n < 32 ->
  N.testbit (not_u32 (N.shiftl 1 n)) k = (k <? 32) && negb (n =? k).
Proof.
  intros Hn. unfold not_u32. destruct (N.ltb_spec k 32); simpl.
  - rewrite N.lnot_spec_low by done. by rewrite testbit_bit.
  - rewrite N.lnot_spec_high by done. rewrite testbit_bit.
    destruct (N.eqb_spec n k); [lia|done].
Qed.

Lemma testbit_set mask n k :
  N.testbit (N.lor mask (N.shiftl 1 n)) k = true <-> N.testbit mask k = true \/ k = n.
Proof.
  rewrite N.lor_spec, testbit_bit, orb_true_iff, N.eqb_eq. naive_solver.
Qed.

Lemma testbit_clear mask n k : n < 32 ->
  N.testbit (N.land mask (not_u32 (N.shiftl 1 n))) k = true <->
  N.testbit mask k = true /\ k < 32 /\ k <> n.
Proof.
  intros Hn. rewrite N.land_spec, testbit_not_bit by done.
  rewrite !andb_true_iff, N.ltb_lt, negb_true_iff, N.eqb_neq. naive_solver.
Qed.

Lemma mask_nonzero mask : mask <> 0 <-> exists k, N.testbit mask k = true.
Proof.
  split.
  - intros H. exists (N.log2 mask). by apply N.bit_log2.
  - intros [k Hk] ->. by rewrite N.bits_0 in Hk.
Qed.

Lemma mask_ext mask mask' :
  (forall k, N.testbit mask k = true <-> N.testbit mask' k = true) -> mask = mask'.
Proof. intros H. apply N.bits_inj. intros k. specialize (H k).
  destruct (N.testbit mask k), (N.testbit mask' k); intuition congruence. Qed.
End bits.

(** ** Appending *)
Definition fresh_request (r : RequestSlot) (pid : PageId) (written : N) : RequestSlot :=
  mkRequestSlot (rs_generation r) (rs_live r) (rs_committed_tokens r)
    (rs_resident_tokens r + written) (rs_page_count r + 1)
    (vset (rs_pages r) (rs_page_count r) pid).

Definition fresh_state (s : KvPool) (i written : N) : KvPool :=
  let p := stack_at s (free_len s - 1) in
  let np := mkPageSlot (ps_generation (page_at s p)) (Writable i) written (N.shiftl 1 i) in
  updated s p np i
    (fresh_request (req_at s i) (mkPageId p (ps_generation (page_at s p))) written)
    (free_stack s) (free_len s - 1) (vset (free_bitmap s) p false).

Section fresh.
Context (s : KvPool) (i written : N) (Hwf : wf s).
Context (Hi : i < MAX_REQUEST_SLOTS) (Hfree : 0 < free_len s).
Let p := stack_at s (free_len s - 1).
Let r := req_at s i.

Lemma stack_top_free : p < page_limit s /\ ps_state (page_at s p) = Free.
Proof.
  apply (elem_of_free_list s Hwf). unfold free_list. apply list_elem_of_fmap.
  exists (N.to_nat (free_len s - 1)). rewrite N2Nat.id, elem_of_seq. split; [done|lia].
Qed.

Lemma stack_top_mask : ps_reference_mask (page_at s p) = 0.
Proof.
  destruct stack_top_free as [Hp HF]. destruct (wf_page s Hwf p Hp) as [_ H].
  rewrite HF in H. tauto.
Qed.

Lemma append_fresh_page_wp key :
  rk_slot key = i -> rs_page_count r < MAX_PAGES_PER_REQUEST ->
  rs_resident_tokens r + written <= u32_max ->
  wp (append_fresh_page key i written) s (fun s' _ => s' = fresh_state s i written).
Proof.
  intros Hkey Hcount Hres. destruct stack_top_free as [Hp HF].
  pose proof stack_top_mask as Hmask.
  kv_bounds s Hwf. pose proof (request_pages_len s Hwf i) as Hlen. subst r.
  unfold MAX_PAGES_PER_REQUEST in *.
  unfold append_fresh_page. rewrite Hkey.
  do 8 kv_step. fold p. repeat (kv_step; kv_lookup).
  unfold fresh_state. fold p in Hmask |- *. unfold page_at in Hmask. rewrite Hmask, N.lor_0_l.
  kv_state.
Qed.

Lemma fresh_request_pid pid pos :
  rs_page_count r < MAX_PAGES_PER_REQUEST ->
  pid_at (fresh_request r pid written) pos =
    if decide (pos = rs_page_count r) then pid else pid_at r pos.
Proof.
  intros Hc. unfold pid_at. simpl. apply vnth_vset.
  unfold r. by rewrite (request_pages_len s Hwf).
Qed.

Lemma fresh_state_wf :
  rs_live r = true -> rs_resident_tokens r = rs_page_count r * page_tokens s ->
  0 < written <= page_tokens s -> rs_resident_tokens r + written <= max_context_tokens s ->
  wf (fresh_state s i written).
Proof.
  intros Hlive Hfull Hw Hctx. destruct stack_top_free as [Hp HF].
  pose proof (wf_request s Hwf i) as Hr. fold r in Hr. destruct Hr.
  kv_bounds s Hwf.
  assert (Hcount : rs_page_count r < 512) by nia.
  assert (Hnohold : forall j, ~ holds (req_at s j) p).
  { intros j Hj. by apply (holds_not_free s Hwf) in Hj. }
  assert (Hold : forall pos, pos < rs_page_count r -> pid_index (pid_at r pos) <> p).
  { intros pos Hpos Heq. apply (Hnohold i). by exists pos. }
  unfold fresh_state. fold p. fold r.
  assert (Hpid := fresh_request_pid (mkPageId p (ps_generation (page_at s p)))).
  apply wf_update; try done.
  - constructor; simpl; try done; rewrite ?vlen_vset; try done; try lia. by rewrite Hlive.
  - intros pos Hpos. simpl in Hpos. rewrite Hpid by done.
    destruct (decide (pos = rs_page_count r)) as [->|Hne].
    + simpl. rewrite decide_True by done. constructor; simpl; try done. lia.
    + rewrite decide_False by (apply Hold; lia).
      destruct (wf_entry s Hwf i pos ltac:(fold r; lia)) as [E1 E2 E3 E4]. fold r in E1, E2, E3, E4.
      constructor; simpl; try done. rewrite E3. nia.
  - intros pos pos'. simpl. rewrite !Hpid by done. intros H1 H2.
    repeat case_decide; subst; simpl; try done.
    + intros Heq. exfalso. apply (Hold pos'); [lia|done].
    + intros Heq. exfalso. apply (Hold pos); [lia|done].
    + intros Heq. apply (wf_inj s Hwf i); fold r; [lia..|done].
  - intros j pos _ Hpos Heq. exfalso. apply (Hnohold j). by exists pos.
  - destruct (wf_page s Hwf p Hp) as [Hg _]. unfold page_ok. simpl. split_and!; try done; lia.
  - intros j Hj. simpl. rewrite testbit_bit. destruct (N.eqb_spec i j); [done|].
    split; [done|]. intros H1. by apply Hnohold in H1.
  - simpl. rewrite testbit_bit, N.eqb_refl. split; [|done]. intros _.
    exists (rs_page_count r). simpl. split; [lia|]. rewrite Hpid by done. by rewrite decide_True.
  - intros q Hq. unfold holds. simpl. split.
    + intros (pos & Hpos & Heq). rewrite Hpid in Heq by done. case_decide; [done|].
      exists pos. fold r. split; [lia|done].
    + intros (pos & Hpos & Heq). fold r in Hpos, Heq. exists pos. split; [lia|].
      rewrite Hpid by done. rewrite decide_False by lia. done.
  - by rewrite vlen_vset.
  - intros q. rewrite vnth_vset by lia. done.
  - unfold p, stack_at. apply free_ok_pop; try lia. apply (wf_free s Hwf).
Qed.
End fresh.

(** A chain that keeps its pages keeps what it holds. *)
Lemma holds_same_chain r r' :
  rs_page_count r' = rs_page_count r -> rs_pages r' = rs_pages r ->
  forall q, holds r' q <-> holds r q.
Proof. intros Hc Hp q. unfold holds, pid_at. by rewrite Hc, Hp. Qed.

Lemma free_ok_same s : wf s -> free_ok (page_limit s) (free_stack s) (free_len s) (free_bitmap s).
Proof. apply wf_free. Qed.

(** ** Filling and truncating the writable tail *)
Definition resized_request (r : RequestSlot) (resident : N) : RequestSlot :=
  set_rs_resident resident r.

(** The tail page [pid] of request [i] is resized to [initialized] tokens. *)
Definition resized_state (s : KvPool) (i p initialized resident : N) : KvPool :=
  updated s p (set_ps_initialized initialized (page_at s p)) i
    (set_rs_resident resident (req_at s i)) (free_stack s) (free_len s) (free_bitmap s).

Section resize.
Context (s : KvPool) (i : N) (Hwf : wf s).
Context (Hi : i < MAX_REQUEST_SLOTS).
Let r := req_at s i.
Context (Hcount : 0 < rs_page_count r).
Let tail := pid_at r (rs_page_count r - 1).
Let p := pid_index tail.

Lemma tail_entry :
  entry_ok (page_limit s) (page_tokens s) i r (rs_page_count r - 1) tail (page_at s p).
Proof. apply (wf_entry s Hwf i). fold r. lia. Qed.

Lemma append_existing_page_wp written :
  ps_initialized_tokens (page_at s p) + written <= u32_max ->
  rs_resident_tokens r + written <= u32_max ->
  wp (append_existing_page i tail written) s (fun s' _ =>
    s' = resized_state s i p (ps_initialized_tokens (page_at s p) + written)
           (rs_resident_tokens r + written)).
Proof.
  intros Hp Hr. destruct tail_entry as [Hpl _ _ _]. fold p in Hpl. subst r.
  kv_bounds s Hwf. unfold append_existing_page. fold p.
  repeat (kv_step; kv_lookup). unfold resized_state. kv_state.
Qed.

Lemma truncate_writable_tail_wp resident tail_tokens :
  wp (truncate_writable_tail i tail resident tail_tokens) s (fun s' _ =>
    s' = resized_state s i p tail_tokens resident).
Proof.
  destruct tail_entry as [Hpl _ _ _]. fold p in Hpl.
  kv_bounds s Hwf. unfold truncate_writable_tail. fold p.
  repeat (kv_step; kv_lookup). unfold resized_state. kv_state.
Qed.

Lemma resized_state_wf initialized resident :
  ps_state (page_at s p) = Writable i ->
  0 < initialized <= page_tokens s ->
  resident = (rs_page_count r - 1) * page_tokens s + initialized ->
  rs_committed_tokens r <= resident -> resident <= max_context_tokens s ->
  wf (resized_state s i p initialized resident).
Proof.
  intros Hst Hinit -> Hcom Hctx. destruct tail_entry as [Hpl Hgen Hini _]. fold p in Hpl.
  pose proof (wf_request s Hwf i) as Hr. fold r in Hr. destruct Hr. kv_bounds s Hwf.
  assert (Hlive : rs_live r = true).
  { apply (holds_live s Hwf i p). exists (rs_page_count r - 1). fold r. split; [lia|done]. }
  assert (Hsame : forall q, holds (set_rs_resident
      ((rs_page_count r - 1) * page_tokens s + initialized) r) q <-> holds r q)
    by by apply holds_same_chain.
  unfold resized_state. fold r.
  apply wf_update; try done.
  - pose proof (N.mul_sub_distr_r (rs_page_count r) 1 (page_tokens s)).
    assert (1 * page_tokens s <= rs_page_count r * page_tokens s) by (apply N.mul_le_mono_r; lia).
    constructor; simpl; try done; try lia. by rewrite Hlive.
  - intros pos Hpos. simpl in Hpos. unfold pid_at. simpl. fold (pid_at r pos).
    destruct (wf_entry s Hwf i pos Hpos) as [E1 E2 E3 E4]. fold r in E1, E2, E3, E4.
    case_decide as Heq.
    + assert (pos = rs_page_count r - 1) as ->.
      { apply (wf_inj s Hwf i); fold r; [lia..|done]. }
      rewrite Heq in E1, E2, E4. constructor; simpl; try done. lia.
    + constructor; simpl; try done. rewrite E3.
      assert (pos <> rs_page_count r - 1) by (intros Hx; apply Heq; by rewrite Hx).
      rewrite (tight_page (rs_page_count r)) by lia. symmetry.
      apply (full_page (rs_page_count r - 1)); lia.
  - intros pos pos'. apply (wf_inj s Hwf i).
  - intros j pos Hj Hpos Heq. exfalso. apply Hj.
    apply (writable_sole s Hwf p i j Hpl Hst). by exists pos.
  - destruct (wf_page s Hwf p Hpl) as [Hg Hpg]. unfold page_ok. simpl. rewrite Hst in *.
    split_and!; try done; try tauto; lia.
  - intros j _. by apply (wf_mask s Hwf).
  - rewrite Hsame. by apply (wf_mask s Hwf).
  - intros q. simpl. case_decide; [subst q|done]. by apply (wf_bitmap s Hwf).
  - apply (wf_free s Hwf).
Qed.
End resize.

(** ** Requests that change and keep their chain *)
Definition with_request (s : KvPool) (i : N) (nr : RequestSlot) : KvPool :=
  put_requests (vset (requests s) i nr) s.

Lemma with_request_updated s i nr p : 
  with_request s i nr =
  updated s p (page_at s p) i nr (free_stack s) (free_len s) (free_bitmap s).
Proof. unfold with_request, updated, put_requests, page_at. by rewrite vset_id. Qed.

Section with_request.
Context (s : KvPool) (i : N) (nr : RequestSlot) (Hwf : wf s) (Hi : i < MAX_REQUEST_SLOTS).
Let r := req_at s i.

Lemma with_request_wf :
  rs_page_count nr = rs_page_count r -> rs_pages nr = rs_pages r ->
  rs_resident_tokens nr = rs_resident_tokens r ->
  rs_committed_tokens r <= rs_committed_tokens nr ->
  request_ok (page_tokens s) (max_context_tokens s) nr ->
  wf (with_request s i nr).
Proof.
  intros Hc Hp Hres Hcom Hok. kv_bounds s Hwf.
  assert (Hpid : forall pos, pid_at nr pos = pid_at r pos) by (unfold pid_at; by rewrite Hp).
  assert (Hsame := holds_same_chain r nr Hc Hp).
  rewrite (with_request_updated s i nr 0). apply wf_update; try done; try lia.
  - intros pos. rewrite Hc, Hpid. intros Hpos.
    destruct (wf_entry s Hwf i pos Hpos) as [E1 E2 E3 E4]. fold r in E1, E2, E3, E4.
    assert (E : entry_ok (page_limit s) (page_tokens s) i nr pos (pid_at r pos)
      (page_at s (pid_index (pid_at r pos)))).
    { constructor; [done..| |].
      - by rewrite Hres.
      - destruct (ps_state _); [done..|lia]. }
    case_decide as Heq; [|done]. by rewrite Heq in E.
  - intros pos pos'. rewrite Hc, !Hpid. apply (wf_inj s Hwf i).
  - intros j pos _ Hpos <-. by apply (wf_entry s Hwf).
  - apply (wf_page s Hwf). lia.
  - intros j _. apply (wf_mask s Hwf). lia.
  - rewrite Hsame. apply (wf_mask s Hwf). lia.
  - intros q. case_decide; [subst q|done]. apply (wf_bitmap s Hwf). lia.
  - apply (wf_free s Hwf).
Qed.

Lemma req_at_with_request j :
  req_at (with_request s i nr) j = if decide (j = i) then nr else req_at s j.
Proof. unfold req_at. simpl. apply vnth_vset. by apply request_in_vec. Qed.
End with_request.

Lemma raise_committed_wp s i committed :
  wf s -> i < MAX_REQUEST_SLOTS ->
  wp (raise_committed i committed) s (fun s' _ =>
    s' = with_request s i (set_rs_committed committed (req_at s i))).
Proof. intros Hwf Hi. apply wp_update_request; [by apply request_in_vec|done]. Qed.

Lemma retire_empty_request_wp s i :
  wf s -> i < MAX_REQUEST_SLOTS -> rs_generation (req_at s i) < u32_max ->
  wp (retire_empty_request i) s (fun s' _ =>
    s' = with_request s i (set_rs_generation (rs_generation (req_at s i) + 1)
           (set_rs_live false (req_at s i)))).
Proof.
  intros Hwf Hi Hg. kv_bounds s Hwf. unfold retire_empty_request.
  repeat (kv_step; kv_lookup). unfold with_request. kv_state.
Qed.

(** ** Dropping the tail page *)
Definition popped_request (r : RequestSlot) (committed resident : N) : RequestSlot :=
  mkRequestSlot (rs_generation r) (rs_live r) committed resident (rs_page_count r - 1)
    (vset (rs_pages r) (rs_page_count r - 1) PageId_EMPTY).

Definition dropped_state (s : KvPool) (i p committed : N) : KvPool :=
  let r := req_at s i in
  updated s p (mkPageSlot (ps_generation (page_at s p) + 1) Free 0 0) i
    (popped_request r committed ((rs_page_count r - 1) * page_tokens s))
    (vset (free_stack s) (free_len s) p) (free_len s + 1) (vset (free_bitmap s) p true).

Definition detached_state (s : KvPool) (i p committed : N) : KvPool :=
  let r := req_at s i in
  updated s p
    (set_ps_mask (N.land (ps_reference_mask (page_at s p)) (not_u32 (N.shiftl 1 i))) (page_at s p))
    i (popped_request r committed ((rs_page_count r - 1) * page_tokens s))
    (free_stack s) (free_len s) (free_bitmap s).

Section pop.
Context (s : KvPool) (i : N) (Hwf : wf s) (Hi : i < MAX_REQUEST_SLOTS).
Let r := req_at s i.
Context (Hcount : 0 < rs_page_count r).
Let tail := pid_at r (rs_page_count r - 1).
Let p := pid_index tail.
Context (committed : N).

Lemma tail_resident :
  ps_initialized_tokens (page_at s p) <= rs_resident_tokens r /\
  rs_resident_tokens r - ps_initialized_tokens (page_at s p) =
    (rs_page_count r - 1) * page_tokens s.
Proof.
  destruct (tail_entry s i Hwf Hi Hcount) as [_ _ E _]. fold r tail p in E.
  pose proof (wf_request s Hwf i) as Hr. fold r in Hr. destruct Hr.
  destruct (last_page (rs_page_count r) (page_tokens s) (rs_resident_tokens r)) as [H1 H2]; try done.
  rewrite E, H1. generalize dependent ((rs_page_count r - 1) * page_tokens s).
  clear. intros X _ _ H. split; lia.
Qed.

Lemma tail_limit : p < page_limit s.
Proof. by destruct (tail_entry s i Hwf Hi Hcount) as [E _ _ _]. Qed.

Lemma drop_sole_tail_wp :
  ps_generation (page_at s p) < u32_max ->
  wp (drop_sole_tail i tail committed) s (fun s' _ => s' = dropped_state s i p committed).
Proof.
  intros Hg. pose proof tail_limit as Hp. destruct tail_resident as [Hini Hres].
  pose proof (page_count_le s Hwf i). pose proof (request_pages_len s Hwf i).
  assert (Hfl : free_len s < page_limit s).
  { apply (free_len_lt s Hwf p Hp). apply (holds_not_free s Hwf i).
    exists (rs_page_count r - 1). fold r. split; [lia|done]. }
  kv_bounds s Hwf. unfold drop_sole_tail. fold p. subst r.
  repeat (kv_step; kv_lookup). unfold dropped_state. rewrite <- Hres. kv_state.
Qed.

Lemma detach_shared_tail_wp :
  wp (detach_shared_tail i i tail committed) s (fun s' _ => s' = detached_state s i p committed).
Proof.
  pose proof tail_limit as Hp. destruct tail_resident as [Hini Hres].
  pose proof (page_count_le s Hwf i). pose proof (request_pages_len s Hwf i).
  kv_bounds s Hwf. unfold detach_shared_tail. fold p. subst r.
  repeat (kv_step; kv_lookup). unfold detached_state. rewrite <- Hres. kv_state.
Qed.

Context (Hcom_le : committed <= (rs_page_count r - 1) * page_tokens s)
  (Hcom_ge : N.min (rs_committed_tokens r) ((rs_page_count r - 1) * page_tokens s) <= committed).

Let nr := popped_request r committed ((rs_page_count r - 1) * page_tokens s).

Lemma popped_pid pos : pos < rs_page_count nr -> pid_at nr pos = pid_at r pos.
Proof. simpl. intros. unfold pid_at. simpl. apply vnth_vset_ne. lia. Qed.

Lemma popped_ne pos : pos < rs_page_count nr -> pid_index (pid_at r pos) <> p.
Proof.
  simpl. intros Hpos Heq.
  assert (pos = rs_page_count r - 1) by (apply (wf_inj s Hwf i); fold r; [lia..|done]). lia.
Qed.

Lemma popped_ok : request_ok (page_tokens s) (max_context_tokens s) nr.
Proof.
  pose proof (wf_request s Hwf i) as Hr. fold r in Hr.
  destruct Hr as [? ? ? ? Hd ? ?]. kv_bounds s Hwf.
  destruct (last_page (rs_page_count r) (page_tokens s) (rs_resident_tokens r)); try done.
  constructor; simpl; rewrite ?vlen_vset; try done; try lia.
  intros Hdead. specialize (Hd Hdead). lia.
Qed.

Lemma popped_entry np pos :
  pos < rs_page_count nr ->
  entry_ok (page_limit s) (page_tokens s) i nr pos (pid_at nr pos)
    (if decide (pid_index (pid_at nr pos) = p) then np
     else page_at s (pid_index (pid_at nr pos))).
Proof.
  intros Hpos. rewrite popped_pid by done. rewrite decide_False by by apply popped_ne.
  simpl in Hpos. pose proof (wf_request s Hwf i) as Hr. fold r in Hr. destruct Hr.
  destruct (wf_entry s Hwf i pos ltac:(fold r; lia)) as [E1 E2 E3 E4]. fold r in E1, E2, E3, E4.
  assert ((pos + 1) * page_tokens s <= (rs_page_count r - 1) * page_tokens s)
    by (apply N.mul_le_mono_r; lia).
  constructor; simpl; try done.
  - rewrite E3, (tight_page (rs_page_count r)) by lia.
    symmetry. by apply (full_page (rs_page_count r - 1)).
  - destruct (ps_state _); try done. lia.
Qed.

Lemma popped_inj pos pos' :
  pos < rs_page_count nr -> pos' < rs_page_count nr ->
  pid_index (pid_at nr pos) = pid_index (pid_at nr pos') -> pos = pos'.
Proof.
  intros H1 H2. rewrite !popped_pid by done. simpl in *.
  intros Heq. apply (wf_inj s Hwf i); fold r; [lia..|done].
Qed.

Lemma popped_not_holds : ~ holds nr p.
Proof.
  intros (pos & Hpos & Heq). rewrite popped_pid in Heq by done. by apply (popped_ne pos).
Qed.

Lemma popped_holds q : q <> p -> holds nr q <-> holds r q.
Proof.
  intros Hq. split.
  - intros (pos & Hpos & Heq). rewrite popped_pid in Heq by done. simpl in Hpos.
    exists pos. split; [lia|done].
  - intros (pos & Hpos & Heq). exists pos.
    destruct (decide (pos = rs_page_count r - 1)) as [->|].
    + by destruct Hq.
    + assert (Hlt : pos < rs_page_count nr) by (simpl; lia). by rewrite popped_pid.
Qed.

Lemma dropped_state_wf :
  ps_generation (page_at s p) < u32_max ->
  (forall j, j <> i -> ~ holds (req_at s j) p) ->
  wf (dropped_state s i p committed).
Proof.
  intros Hg Hsole. pose proof tail_limit as Hp.
  assert (Hnf : ps_state (page_at s p) <> Free).
  { apply (holds_not_free s Hwf i). exists (rs_page_count r - 1). fold r. split; [lia|done]. }
  pose proof (free_len_lt s Hwf p Hp Hnf). kv_bounds s Hwf.
  unfold dropped_state. fold r nr. apply wf_update; try done.
  - apply popped_ok.
  - intros pos. apply popped_entry.
  - apply popped_inj.
  - intros j pos Hj Hpos Heq. exfalso. apply (Hsole j Hj). by exists pos.
  - destruct (wf_page s Hwf p Hp) as [Hgen _]. unfold page_ok. simpl. split; [lia|done].
  - intros j Hj. simpl. rewrite N.bits_0. split; [done|]. intros Hh. by apply Hsole in Hh.
  - simpl. rewrite N.bits_0. split; [done|]. intros Hh. by apply popped_not_holds in Hh.
  - apply popped_holds.
  - by rewrite vlen_vset.
  - by rewrite vlen_vset.
  - intros q. rewrite vnth_vset by lia. done.
  - apply free_ok_push; try lia; [|apply (wf_free s Hwf)].
    change (bit_at s p = false). rewrite (wf_bitmap s Hwf) by done. by destruct (ps_state _).
Qed.

Lemma detached_state_wf j0 :
  j0 <> i -> holds (req_at s j0) p -> wf (detached_state s i p committed).
Proof.
  intros Hj0 Hh0. pose proof tail_limit as Hp.
  assert (Hself : holds (req_at s i) p) by (exists (rs_page_count r - 1); fold r; split; [lia|done]).
  assert (Hsealed : ps_state (page_at s p) = Sealed).
  { destruct (ps_state (page_at s p)) as [|o|] eqn:E; [|exfalso|done].
    - by apply (holds_not_free s Hwf i) in Hself.
    - apply Hj0. apply (writable_sole s Hwf p o _ Hp E) in Hh0, Hself. congruence. }
  assert (H32 : i < 32) by exact Hi.
  kv_bounds s Hwf. destruct (wf_page s Hwf p Hp) as [Hgen Hpg]. rewrite Hsealed in Hpg.
  assert (Hbits : forall j, N.testbit (ps_reference_mask (set_ps_mask
    (N.land (ps_reference_mask (page_at s p)) (not_u32 (N.shiftl 1 i))) (page_at s p))) j = true
    <-> holds (req_at s j) p /\ j <> i).
  { intros j. simpl. rewrite testbit_clear by done. rewrite (wf_mask s Hwf p j Hp). split; [tauto|].
    intros [Hh Hne]. split_and!; try done. by apply (holds_slot s Hwf j p). }
  unfold detached_state. fold r nr. apply wf_update; try done.
  - apply popped_ok.
  - intros pos. apply popped_entry.
  - apply popped_inj.
  - intros j pos Hj Hpos Heq. destruct (wf_entry s Hwf j pos Hpos) as [E1 E2 E3 E4].
    rewrite Heq in E2, E3, E4. by constructor.
  - unfold page_ok. simpl. rewrite Hsealed. split_and!; try lia; try tauto.
    apply mask_nonzero. exists j0. apply Hbits. done.
  - intros j Hj. rewrite Hbits. tauto.
  - rewrite Hbits. split; [tauto|]. intros Hh. by apply popped_not_holds in Hh.
  - apply popped_holds.
  - intros q. simpl. case_decide; [subst q|done]. by apply (wf_bitmap s Hwf).
  - apply (wf_free s Hwf).
Qed.
End pop.

(** ** Sharing one page *)
Definition shared_request (t : RequestSlot) (pid : PageId) (ptokens : N) : RequestSlot :=
  mkRequestSlot (rs_generation t) (rs_live t) (rs_committed_tokens t + ptokens)
    (rs_resident_tokens t + ptokens) (rs_page_count t + 1)
    (vset (rs_pages t) (rs_page_count t) pid).

Definition sealed_with (ps : PageSlot) (j : N) : PageSlot :=
  mkPageSlot (ps_generation ps) Sealed (ps_initialized_tokens ps)
    (N.lor (ps_reference_mask ps) (N.shiftl 1 j)).

Definition shared_state (s : KvPool) (i j : N) : KvPool :=
  let t := req_at s j in
  let pid := pid_at (req_at s i) (rs_page_count t) in
  updated s (pid_index pid) (sealed_with (page_at s (pid_index pid)) j) j
    (shared_request t pid (page_tokens s)) (free_stack s) (free_len s) (free_bitmap s).

Section share.
Context (s : KvPool) (i j : N) (Hwf : wf s).
Context (Hi : i < MAX_REQUEST_SLOTS) (Hj : j < MAX_REQUEST_SLOTS) (Hij : i <> j).
Let r := req_at s i.
Let t := req_at s j.
Let pos := rs_page_count t.
Let pid := pid_at r pos.
Let p := pid_index pid.
Context (Hsrc : (pos + 1) * page_tokens s <= rs_committed_tokens r)
  (Htgt : rs_resident_tokens t = pos * page_tokens s)
  (Hcom : rs_committed_tokens t = pos * page_tokens s).

Lemma share_position : pos < rs_page_count r /\ pos < MAX_PAGES_PER_REQUEST.
Proof.
  pose proof (wf_request s Hwf i) as Hr. fold r in Hr. destruct Hr.
  pose proof (page_count_le s Hwf i) as Hle. fold r in Hle. kv_bounds s Hwf.
  assert (pos < rs_page_count r); [|lia].
  apply N.lt_nge. intros Hge.
  assert (rs_page_count r * page_tokens s <= pos * page_tokens s) by (apply N.mul_le_mono_r; lia).
  lia.
Qed.

Lemma share_entry : entry_ok (page_limit s) (page_tokens s) i r pos pid (page_at s p).
Proof. apply (wf_entry s Hwf i). apply share_position. Qed.

Lemma share_next_page_wp :
  wp (share_next_page i j j pos) s (fun s' _ => s' = shared_state s i j).
Proof.
  destruct share_position as [Hpos Hpos']. destruct share_entry as [Hp _ _ _]. fold p in Hp.
  pose proof (request_pages_len s Hwf i). pose proof (request_pages_len s Hwf j).
  pose proof (wf_request s Hwf i) as Hr. fold r in Hr. destruct Hr.
  kv_bounds s Hwf. unfold u32_max in *.
  unfold share_next_page. do 2 kv_step. fold r pid p. repeat kv_step.
  assert (Hst : wp (match ps_state (page_at s p) with
      | Writable _ => update_page p (set_ps_state Sealed) | _ => ret tt end) s
      (fun s' _ => s' = put_pages (vset (pages s) p (set_ps_state
          (match ps_state (page_at s p) with Writable _ => Sealed | st => st end)
          (page_at s p))) s)).
  { destruct (ps_state (page_at s p)) eqn:E.
    1,3: apply wp_ret; unfold put_pages, page_at in *; rewrite <- E;
         destruct (vnth PageSlot_free (pages s) p) eqn:E'; unfold set_ps_state; simpl;
         rewrite <- E', vset_id; by destruct s.
    apply wp_update_page; [kv_side|done]. }
  eapply wp_mono; [exact Hst|]. intros s' _ ->. clear Hst. cbv beta.
  destruct share_entry as [_ _ _ Hstate].
  assert (Hs : match ps_state (page_at s p) with Writable _ => Sealed | st => st end = Sealed)
    by by destruct (ps_state (page_at s p)).
  rewrite Hs. subst t pos. repeat (kv_step; kv_lookup).
  unfold shared_state. fold r pid p. kv_state.
Qed.

Lemma shared_pid q :
  pid_at (shared_request t pid (page_tokens s)) q = if decide (q = pos) then pid else pid_at t q.
Proof.
  destruct share_position as [_ Hpos]. unfold pid_at. simpl. apply vnth_vset.
  unfold t. by rewrite (request_pages_len s Hwf).
Qed.

Lemma shared_state_wf :
  rs_live t = true -> ~ holds t p -> wf (shared_state s i j).
Proof.
  intros Hlive Hnew. destruct share_position as [Hpos Hpos'].
  destruct share_entry as [Hp Hgen Hini Hst]. fold p in Hp.
  pose proof (wf_request s Hwf i) as Hr. fold r in Hr. destruct Hr.
  pose proof (wf_request s Hwf j) as Ht. fold t in Ht. destruct Ht as [? ? ? ? ? ? ?].
  rewrite (full_page (pos + 1)) in Hini by lia.
  assert (Hnew' : forall q, q < pos -> pid_index (pid_at t q) <> p).
  { intros q Hq Heq. apply Hnew. by exists q. }
  assert (Hself : holds (req_at s i) p) by by exists pos.
  kv_bounds s Hwf. unfold shared_state. fold r t pos pid p. apply wf_update; try done.
  - assert (pos + 1 <= 512) by lia.
    constructor; simpl; rewrite ?vlen_vset; fold pos; try done; try lia. by rewrite Hlive.
  - intros q Hq. simpl in Hq. fold pos in Hq. rewrite shared_pid.
    destruct (decide (q = pos)) as [->|Hne].
    + rewrite decide_True by done. constructor; simpl; try done; try lia.
    + rewrite decide_False by (apply Hnew'; lia).
      destruct (wf_entry s Hwf j q ltac:(fold t pos; lia)) as [E1 E2 E3 E4].
      fold t in E1, E2, E3, E4. constructor; simpl; try done.
      * rewrite E3. transitivity (page_tokens s); [|symmetry]; apply (full_page pos); lia.
      * destruct (ps_state (page_at s (pid_index (pid_at t q)))); try done.
        apply (N.le_trans _ _ _ E4). lia.
  - intros q q'. simpl. fold pos. rewrite !shared_pid. intros H1 H2.
    repeat case_decide; subst; simpl; try done.
    + intros Heq. exfalso. apply (Hnew' q'); [lia|done].
    + intros Heq. exfalso. apply (Hnew' q); [lia|done].
    + intros Heq. apply (wf_inj s Hwf j); fold t pos; [lia..|done].
  - intros k q Hk Hq Heq. destruct (wf_entry s Hwf k q Hq) as [E1 E2 E3 E4].
    rewrite Heq in E2, E3, E4. constructor; simpl; try done.
    destruct (ps_state (page_at s p)) as [|o|]; [done| |done].
    subst o. subst k. replace q with pos; [done|].
    apply (wf_inj s Hwf i); fold r; [done..|]. done.
  - destruct (wf_page s Hwf p Hp) as [Hg _]. unfold page_ok. simpl. split_and!; try lia.
    apply mask_nonzero. exists j. apply testbit_set. by right.
  - intros k Hk. simpl. rewrite testbit_set, (wf_mask s Hwf p k Hp). naive_solver.
  - simpl. rewrite testbit_set. split; [|by right]. intros _. exists pos. simpl. fold pos.
    split; [lia|]. rewrite shared_pid. by rewrite decide_True.
  - intros q Hq. fold t. unfold holds. simpl. fold pos. split.
    + intros (k & Hk & Heq). rewrite shared_pid in Heq. case_decide; [done|].
      exists k. split; [lia|done].
    + intros (k & Hk & Heq). exists k. split; [lia|].
      rewrite shared_pid. rewrite decide_False by lia. done.
  - intros q. simpl. case_decide; [subst q|done]. change (bit_at s p = false).
    rewrite (wf_bitmap s Hwf) by done. by destruct (ps_state (page_at s p)).
  - apply (wf_free s Hwf).
Qed.
End share.
