(* ===== verification/KvOps.v ===== *)
(** The operations of the KV pool: what each leaves on every branch.  The
    decision functions ([live_decision], [append_decision], ...) say which
    error an operation returns; the [_wp] lemmas say that the operation of
    [KvPool.v] takes that decision, leaves the pool untouched on an error, and
    performs its effect on success. *)
From S2P Require Import Prelude Spec KvPool KvInv KvPrim.

(** Pages needed for [n] tokens. *)
Definition pages_for (n ptokens : N) : N := (n + ptokens - 1) / ptokens.

(** ** Decisions *)
Definition live_decision (s : KvPool) (k : RequestKey) : option KvError :=
  let r := req_at s (rk_slot k) in
  if MAX_REQUEST_SLOTS <=? rk_slot k then Some (InvalidRequestSlot (rk_slot k))
  else if negb (rs_live r) then Some (UnknownRequest (rk_slot k))
  else if negb (rs_generation r =? rk_generation k) then
    Some (StaleRequestGeneration (rk_slot k) (rs_generation r) (rk_generation k))
  else None.

Definition create_decision (s : KvPool) (k : RequestKey) : option KvError :=
  let r := req_at s (rk_slot k) in
  if MAX_REQUEST_SLOTS <=? rk_slot k then Some (InvalidRequestSlot (rk_slot k))
  else if rs_live r then Some (RequestSlotOccupied (rk_slot k))
  else if negb (rs_generation r =? rk_generation k) then
    Some (StaleRequestGeneration (rk_slot k) (rs_generation r) (rk_generation k))
  else None.

(** The page demand of an append: a copy-on-write tail is always full, so the
    demand only depends on the token counts. *)
Definition append_demand (s : KvPool) (i n : N) : N :=
  pages_for (rs_resident_tokens (req_at s i) + n) (page_tokens s) - rs_page_count (req_at s i).

Definition append_decision (s : KvPool) (k : RequestKey) (n : N) : option KvError :=
  match live_decision s k with
  | Some e => Some e
  | None =>
      if max_context_tokens s <? rs_resident_tokens (req_at s (rk_slot k)) + n then
        Some ContextExceeded
      else if free_len s <? append_demand s (rk_slot k) n then Some OutOfPages
      else None
  end.

Definition share_decision (s : KvPool) (source target : RequestKey) (n : N) : option KvError :=
  match live_decision s source with
  | Some e => Some e
  | None =>
  match live_decision s target with
  | Some e => Some e
  | None =>
      if rk_slot source =? rk_slot target then Some SameRequestShare
      else if (n =? 0) || negb (n mod page_tokens s =? 0) then Some PrefixNotPageAligned
      else if rs_committed_tokens (req_at s (rk_slot source)) <? n then Some PrefixExceedsCommitted
      else if negb (rs_resident_tokens (req_at s (rk_slot target)) =? 0) then Some TargetNotEmpty
      else None
  end end.

(** The first page of [chain i] in positions [pos, pos + count) whose generation
    cannot be incremented, among those selected by [sel]. *)
Fixpoint first_exhausted (sel : PageId -> bool) (s : KvPool) (i : N) (count : nat) (pos : N) :
    option PageId :=
  match count with
  | O => None
  | S count' =>
      let page := pid_at (req_at s i) pos in
      if sel page && (ps_generation (page_at s (pid_index page)) =? u32_max) then Some page
      else first_exhausted sel s i count' (pos + 1)
  end.

Definition finalize_decision (s : KvPool) (k : RequestKey) (accepted : N) : option KvError :=
  match live_decision s k with
  | Some e => Some e
  | None =>
      let r := req_at s (rk_slot k) in
      let committed := rs_committed_tokens r + accepted in
      if rs_resident_tokens r <? committed then Some CommitExceedsResident
      else
        let retained := pages_for committed (page_tokens s) in
        GenerationExhausted <$>
          first_exhausted (fun _ => true) s (rk_slot k) (N.to_nat (rs_page_count r - retained)) retained
  end.

(** Pages of request [i] that no other request holds. *)
Definition sole_page (s : KvPool) (i : N) (page : PageId) : bool :=
  N.land (ps_reference_mask (page_at s (pid_index page))) (not_u32 (N.shiftl 1 i)) =? 0.

Definition release_decision (s : KvPool) (k : RequestKey) : option KvError :=
  match live_decision s k with
  | Some e => Some e
  | None =>
      let r := req_at s (rk_slot k) in
      if rs_generation r =? u32_max then Some (RequestGenerationExhausted (rk_slot k))
      else GenerationExhausted <$>
        first_exhausted (sole_page s (rk_slot k)) s (rk_slot k) (N.to_nat (rs_page_count r)) 0
  end.

Definition read_decision (s : KvPool) (k : RequestKey) (offset span : N) : option KvError :=
  match live_decision s k with
  | Some e => Some e
  | None =>
      if rs_resident_tokens (req_at s (rk_slot k)) <? offset + span then Some ReadOutOfBounds
      else None
  end.

(** ** Effects *)

(** Only request [i] and the free pages may differ. *)
Record evolves (s s' : KvPool) (i : N) : Prop := mkEvolves {
  ev_tokens : page_tokens s' = page_tokens s;
  ev_context : max_context_tokens s' = max_context_tokens s;
  ev_limit : page_limit s' = page_limit s;
  ev_other : forall j, j <> i -> req_at s' j = req_at s j
}.

(** Request [i] holds [n] more tokens on [k] more pages, after its old chain. *)
Record appended (s s' : KvPool) (i n k : N) : Prop := mkAppended {
  ap_evolves : evolves s s' i;
  ap_live : rs_live (req_at s' i) = rs_live (req_at s i);
  ap_generation : rs_generation (req_at s' i) = rs_generation (req_at s i);
  ap_committed : rs_committed_tokens (req_at s' i) = rs_committed_tokens (req_at s i);
  ap_resident : rs_resident_tokens (req_at s' i) = rs_resident_tokens (req_at s i) + n;
  ap_count : rs_page_count (req_at s' i) = rs_page_count (req_at s i) + k;
  ap_chain : forall pos, pos < rs_page_count (req_at s i) ->
    pid_at (req_at s' i) pos = pid_at (req_at s i) pos;
  ap_free : free_len s' + k = free_len s
}.

(** Request [target] now starts with the first [k] pages of [source]. *)
Record shared (s s' : KvPool) (source target k : N) : Prop := mkShared {
  sd_evolves : evolves s s' target;
  sd_live : rs_live (req_at s' target) = rs_live (req_at s target);
  sd_generation : rs_generation (req_at s' target) = rs_generation (req_at s target);
  sd_committed : rs_committed_tokens (req_at s' target) = k * page_tokens s;
  sd_resident : rs_resident_tokens (req_at s' target) = k * page_tokens s;
  sd_count : rs_page_count (req_at s' target) = k;
  sd_chain : forall pos, pos < k -> pid_at (req_at s' target) pos = pid_at (req_at s source) pos;
  sd_free : free_len s' = free_len s;
  sd_sealed : forall pos, pos < k ->
    ps_state (page_at s' (pid_index (pid_at (req_at s source) pos))) = Sealed
}.

(** Request [i] keeps its first [retained] pages and [committed] tokens;
    [freed] pages return to the free stack, and only pages at positions from
    [keep] on are rewritten. *)
Record truncated (s s' : KvPool) (i committed resident retained keep freed : N) : Prop :=
  mkTruncated {
  tr_evolves : evolves s s' i;
  tr_live : rs_live (req_at s' i) = rs_live (req_at s i);
  tr_generation : rs_generation (req_at s' i) = rs_generation (req_at s i);
  tr_committed : rs_committed_tokens (req_at s' i) = committed;
  tr_resident : rs_resident_tokens (req_at s' i) = resident;
  tr_count : rs_page_count (req_at s' i) = retained;
  tr_chain : forall pos, pos < retained -> pid_at (req_at s' i) pos = pid_at (req_at s i) pos;
  tr_free : free_len s' = free_len s + freed;
  tr_page : forall q, (forall pos, pos < rs_page_count (req_at s i) -> keep <= pos ->
      pid_index (pid_at (req_at s i) pos) <> q) -> page_at s' q = page_at s q;
  tr_dropped : forall pos, retained <= pos < rs_page_count (req_at s i) ->
    page_at s' (pid_index (pid_at (req_at s i) pos)) =
      mkPageSlot (ps_generation (page_at s (pid_index (pid_at (req_at s i) pos))) + 1) Free 0 0
}.

(** The slot of a page once request [i] let go of it. *)
Definition let_go (s : KvPool) (i : N) (page : PageId) : PageSlot :=
  if sole_page s i page
  then mkPageSlot (ps_generation (page_at s (pid_index page)) + 1) Free 0 0
  else set_ps_mask (N.land (ps_reference_mask (page_at s (pid_index page)))
         (not_u32 (N.shiftl 1 i))) (page_at s (pid_index page)).

(** Request [i] is gone: its slot is dead under the next generation, its sole
    pages are free under their next generations, and the pages other requests
    still hold lost one reference bit. *)
Record released (s s' : KvPool) (i freed : N) : Prop := mkReleased {
  rl_evolves : evolves s s' i;
  rl_live : rs_live (req_at s' i) = false;
  rl_generation : rs_generation (req_at s' i) = rs_generation (req_at s i) + 1;
  rl_committed : rs_committed_tokens (req_at s' i) = 0;
  rl_resident : rs_resident_tokens (req_at s' i) = 0;
  rl_count : rs_page_count (req_at s' i) = 0;
  rl_free : free_len s' = free_len s + freed;
  rl_page : forall q, ~ holds (req_at s i) q -> page_at s' q = page_at s q;
  rl_held : forall pos, pos < rs_page_count (req_at s i) ->
    page_at s' (pid_index (pid_at (req_at s i) pos)) = let_go s i (pid_at (req_at s i) pos)
}.

Lemma evolves_refl s i : evolves s s i.
Proof. done. Qed.

Lemma evolves_trans s1 s2 s3 i : evolves s1 s2 i -> evolves s2 s3 i -> evolves s1 s3 i.
Proof. intros [H1 H2 H3 H4] [G1 G2 G3 G4]. constructor; try congruence.
  intros j Hj. rewrite G4, H4; done. Qed.

Lemma evolves_updated s p np i nr stack len bitmap :
  wf s -> p < page_limit s -> i < MAX_REQUEST_SLOTS ->
  evolves s (updated s p np i nr stack len bitmap) i.
Proof.
  intros Hwf Hp Hi. constructor; try done. intros j Hj.
  rewrite req_at_updated by done. by rewrite decide_False.
Qed.

Lemma evolves_with_request s i nr :
  wf s -> i < MAX_REQUEST_SLOTS -> evolves s (with_request s i nr) i.
Proof.
  intros Hwf Hi. constructor; try done. intros j Hj.
  rewrite req_at_with_request by done. by rewrite decide_False.
Qed.
#[export] Hint Resolve evolves_refl evolves_updated evolves_with_request : ferric.

(** ** Page demand arithmetic *)
Lemma pages_for_exact n k pt : 0 < pt -> n <= k * pt -> k * pt < n + pt -> pages_for n pt = k.
Proof.
  intros Hpt H1 H2. unfold pages_for. symmetry. 
  apply (N.div_unique _ _ k (n + pt - 1 - k * pt)); nia.
Qed.

Lemma pages_for_spec n pt :
  0 < pt -> n <= pages_for n pt * pt /\ pages_for n pt * pt < n + pt.
Proof.
  intros Hpt. unfold pages_for. pose proof (N.div_mod (n + pt - 1) pt ltac:(lia)) as H.
  pose proof (N.mod_lt (n + pt - 1) pt ltac:(lia)) as H'.
  revert H H'. generalize ((n + pt - 1) / pt), ((n + pt - 1) mod pt). intros; lia.
Qed.

Lemma pages_for_split n pt :
  0 < pt -> n / pt + N.min (n mod pt) 1 = pages_for n pt.
Proof.
  intros Hpt. symmetry. pose proof (N.div_mod n pt ltac:(lia)) as H.
  pose proof (N.mod_lt n pt ltac:(lia)) as H'.
  revert H H'. generalize (n / pt), (n mod pt). intros q m H H'.
  apply pages_for_exact; [done|..]; destruct (N.min_spec m 1) as [[? ->]|[? ->]]; lia.
Qed.

Lemma pages_for_mono n m pt : n <= m -> pages_for n pt <= pages_for m pt.
Proof. intros. unfold pages_for. apply N.Div0.div_le_mono. lia. Qed.

Lemma pages_for_add n k pt : 0 < pt -> pages_for (k * pt + n) pt = k + pages_for n pt.
Proof.
  intros Hpt. pose proof (pages_for_spec n pt Hpt). apply pages_for_exact; [done|nia..].
Qed.

Lemma pages_for_0 pt : 0 < pt -> pages_for 0 pt = 0.
Proof. intros. apply pages_for_exact; lia. Qed.

Section counts.
Context (s : KvPool) (Hwf : wf s).

Lemma wf_pages_for i :
  pages_for (rs_resident_tokens (req_at s i)) (page_tokens s) = rs_page_count (req_at s i).
Proof.
  destruct (wf_request s Hwf i). destruct (wf_shape s Hwf).
  apply pages_for_exact; try done. lia.
Qed.

Lemma pages_for_context n : n <= max_context_tokens s ->
  pages_for n (page_tokens s) <= MAX_PAGES_PER_REQUEST.
Proof.
  intros Hn. destruct (wf_shape s Hwf).
  destruct (pages_for_spec n (page_tokens s)) as [H1 H2]; [lia|].
  unfold MAX_PAGES_PER_REQUEST in *. nia.
Qed.
End counts.

Lemma div_mul_le n pt : n / pt * pt <= n.
Proof. rewrite N.mul_comm. apply N.Div0.mul_div_le. Qed.

Lemma aligned_eqb n pt : pt <> 0 -> (n / pt * pt =? n) = (n mod pt =? 0).
Proof.
  intros Hpt. pose proof (N.div_mod n pt Hpt) as H. revert H.
  generalize (n / pt), (n mod pt). intros q m H.
  destruct (N.eqb_spec (q * pt) n), (N.eqb_spec m 0); try done; lia.
Qed.

(** ** Looking a request up *)
Lemma live_request_index_wp s k :
  wf s -> wp (live_request_index k) s (fun s' r =>
    s' = s /\ r = match live_decision s k with Some e => Err e | None => Ok (rk_slot k) end).
Proof.
  intros Hwf. unfold live_request_index, live_decision.
  destruct (N.leb_spec MAX_REQUEST_SLOTS (rk_slot k)) as [H|H]; [done|].
  kv_bounds s Hwf. repeat kv_step. 
  destruct (rs_live (req_at s (rk_slot k))); simpl; [|done].
  by destruct (rs_generation (req_at s (rk_slot k)) =? rk_generation k).
Qed.

Lemma live_decision_None s k :
  live_decision s k = None <->
  rk_slot k < MAX_REQUEST_SLOTS /\ rs_live (req_at s (rk_slot k)) = true /\
  rs_generation (req_at s (rk_slot k)) = rk_generation k.
Proof.
  unfold live_decision. destruct (N.leb_spec MAX_REQUEST_SLOTS (rk_slot k)); simpl.
  { split; [done|]. intros (? & _). lia. }
  destruct (rs_live _); simpl; [|naive_solver].
  destruct (N.eqb_spec (rs_generation (req_at s (rk_slot k))) (rk_generation k)); naive_solver.
Qed.

(** Symbolic execution of [let? i := live_request_index k in ...]. *)
Ltac kv_live Hwf E :=
  kv_step; eapply wp_mono; [by apply (live_request_index_wp _ _ Hwf)|];
  intros ? ? [-> ->]; cbv beta;
  match goal with |- context [live_decision ?s ?k] => destruct (live_decision s k) eqn:E end;
  [try done|apply live_decision_None in E as (?Hslot & ?Hlive & ?Hgen)].

Lemma validate_read_key_wp s k offset span :
  wf s -> wp (validate_read_key k offset span) s (fun s' r =>
    s' = s /\ r = match read_decision s k offset span with Some e => Err e | None => Ok tt end).
Proof.
  intros Hwf. unfold validate_read_key, read_decision. kv_live Hwf E.
  unfold checked_add. destruct (N.leb_spec (offset + span) u32_max).
  - kv_bounds s Hwf. repeat kv_step. by destruct (rs_resident_tokens _ <? _).
  - apply wp_ret. destruct (wf_request s Hwf (rk_slot k)), (wf_shape s Hwf).
    destruct (N.ltb_spec (rs_resident_tokens (req_at s (rk_slot k))) (offset + span)); [done|lia].
Qed.

Lemma create_request_key_wp s k :
  wf s -> wp (create_request_key k) s (fun s' r =>
    match create_decision s k with
    | Some e => r = Err e /\ s' = s
    | None => r = Ok tt /\ wf s' /\
        s' = with_request s (rk_slot k) (set_rs_live true (req_at s (rk_slot k)))
    end).
Proof.
  intros Hwf. unfold create_request_key, create_decision.
  destruct (N.leb_spec MAX_REQUEST_SLOTS (rk_slot k)) as [H|H]; [done|].
  kv_bounds s Hwf. repeat kv_step.
  destruct (rs_live (req_at s (rk_slot k))) eqn:E; simpl; [done|].
  destruct (rs_generation (req_at s (rk_slot k)) =? rk_generation k) eqn:G; simpl; [|done].
  repeat kv_step. split_and!; [done| |done].
  apply with_request_wf; try done. destruct (wf_request s Hwf (rk_slot k)). by constructor.
Qed.

(** ** Appending *)
Lemma appended_refl s i : appended s s i 0 0.
Proof. constructor; auto with ferric; lia. Qed.

Lemma appended_trans s1 s2 s3 i n k n' k' :
  appended s1 s2 i n k -> appended s2 s3 i n' k' -> appended s1 s3 i (n + n') (k + k').
Proof.
  intros [A1 A2 A3 A4 A5 A6 A7 A8] [B1 B2 B3 B4 B5 B6 B7 B8].
  constructor; try congruence; try lia.
  - by eapply evolves_trans.
  - intros pos Hpos. rewrite B7 by lia. by apply A7.
Qed.

Lemma fresh_appended s i written :
  wf s -> i < MAX_REQUEST_SLOTS -> 0 < free_len s ->
  rs_page_count (req_at s i) < MAX_PAGES_PER_REQUEST ->
  appended s (fresh_state s i written) i written 1.
Proof.
  intros Hwf Hi Hfree Hcount. destruct (stack_top_free s i Hwf Hi Hfree) as [Hp _].
  assert (Hreq : req_at (fresh_state s i written) i =
    fresh_request (req_at s i) (mkPageId (stack_at s (free_len s - 1))
      (ps_generation (page_at s (stack_at s (free_len s - 1))))) written).
  { unfold fresh_state. rewrite req_at_updated by done. by rewrite decide_True. }
  constructor; try rewrite Hreq; simpl; try done.
  - by apply evolves_updated.
  - intros pos Hpos. rewrite (fresh_request_pid s i written Hwf) by done.
    rewrite decide_False by lia. done.
  - lia.
Qed.

Lemma append_loop_wp count : forall s key i remaining,
  wf s -> i < MAX_REQUEST_SLOTS -> rk_slot key = i -> rs_live (req_at s i) = true ->
  pages_for remaining (page_tokens s) = N.of_nat count ->
  (0 < remaining -> rs_resident_tokens (req_at s i) = rs_page_count (req_at s i) * page_tokens s) ->
  rs_resident_tokens (req_at s i) + remaining <= max_context_tokens s ->
  N.of_nat count <= free_len s ->
  wp (append_loop count key i remaining) s (fun s' _ =>
    wf s' /\ appended s s' i remaining (N.of_nat count)).
Proof.
  induction count as [|count IH]; intros s key i remaining Hwf Hi Hkey Hlive Hpages Hfull Hctx Hfree;
    simpl.
  - destruct (pages_for_spec remaining (page_tokens s)); [destruct (wf_shape s Hwf); lia|].
    assert (remaining = 0) as -> by (rewrite Hpages in *; lia).
    apply wp_ret. auto using appended_refl.
  - destruct (wf_shape s Hwf).
    destruct (pages_for_spec remaining (page_tokens s)) as [P1 P2]; [lia|].
    destruct (N.eq_0_gt_0_cases remaining) as [->|Hrem].
    { rewrite pages_for_0 in Hpages by lia. lia. }
    specialize (Hfull Hrem). set (w := N.min remaining (page_tokens s)).
    assert (Hcount : rs_page_count (req_at s i) < MAX_PAGES_PER_REQUEST)
      by (unfold MAX_PAGES_PER_REQUEST in *; nia).
    repeat kv_step. fold w.
    eapply wp_mono; [apply (append_fresh_page_wp s i w Hwf); try done; try lia|].
    intros s' _ ->. cbv beta. kv_step.
    assert (Hwf' : wf (fresh_state s i w)) by (apply fresh_state_wf; try done; lia).
    pose proof (fresh_appended s i w Hwf Hi ltac:(lia) Hcount) as [[? ? ? ?] A2 A3 A4 A5 A6 A7 A8].
    assert (Hnext : pages_for (remaining - w) (page_tokens s) = N.of_nat count).
    { unfold w. destruct (N.min_spec remaining (page_tokens s)) as [[? ->]|[? ->]].
      - rewrite N.sub_diag, pages_for_0 by lia.
        assert (pages_for remaining (page_tokens s) = 1) by (apply pages_for_exact; lia). lia.
      - assert (E : remaining = 1 * page_tokens s + (remaining - page_tokens s)) by lia.
        rewrite E, pages_for_add in Hpages by lia. lia. }
    kv_step. eapply wp_mono; [apply IH; rewrite ?ev_tokens0, ?ev_context0; try done|].
    + by rewrite A2.
    + intros Hr. rewrite A5, A6, Hfull. unfold w in *. lia.
    + rewrite A5. unfold w. lia.
    + lia.
    + intros s' _ [Hw' Happ]. split; [done|].
      replace remaining with (w + (remaining - w)) by lia.
      replace (N.of_nat (S count)) with (1 + N.of_nat count) by lia.
      eapply appended_trans; [|exact Happ]. apply fresh_appended; try done; lia.
Qed.

Lemma page_slot_wp s page :
  wf s -> pid_index page < page_limit s ->
  ps_generation (page_at s (pid_index page)) = pid_generation page ->
  wp (page_slot page) s (fun s' r => s' = s /\ r = Ok (page_at s (pid_index page))).
Proof.
  intros Hwf Hp Hgen. pose proof (page_in_vec s Hwf _ Hp). unfold page_slot. repeat kv_step.
  destruct (N.leb_spec (page_limit s) (pid_index page)); [lia|]. repeat kv_step.
  by rewrite Hgen, N.eqb_refl.
Qed.

Section tail_capacity.
Context (s : KvPool) (k : RequestKey) (Hwf : wf s) (Hk : rk_slot k < MAX_REQUEST_SLOTS).
Let r := req_at s (rk_slot k).

Lemma tail_capacity_of_wp :
  wp (tail_capacity_of k (rs_page_count r)
        (if rs_page_count r =? 0 then PageId_EMPTY else pid_at r (rs_page_count r - 1))) s
    (fun s' c => s' = s /\ c = Ok (rs_page_count r * page_tokens s - rs_resident_tokens r)).
Proof.
  unfold tail_capacity_of. destruct (N.eqb_spec (rs_page_count r) 0) as [H0|H0].
  { apply wp_ret. split; [done|]. by rewrite H0. }
  assert (Hc : 0 < rs_page_count r) by lia.
  destruct (tail_entry s (rk_slot k) Hwf Hk Hc) as [E1 E2 E3 E4]. fold r in E1, E2, E3, E4.
  pose proof (wf_request s Hwf (rk_slot k)) as Hr. fold r in Hr. destruct Hr.
  destruct (last_page (rs_page_count r) (page_tokens s) (rs_resident_tokens r)) as [L1 L2];
    try done. rewrite L1 in E3.
  assert (Hmul : rs_page_count r * page_tokens s =
    (rs_page_count r - 1) * page_tokens s + page_tokens s).
  { rewrite <- (N.mul_1_l (page_tokens s)) at 3. rewrite <- N.mul_add_distr_r. f_equal. lia. }
  kv_step. eapply wp_mono; [by apply page_slot_wp|]. intros ? ? [-> ->].
  destruct (wf_page s Hwf _ E1) as [_ Hpg].
  destruct (ps_state (page_at s _)) as [|o|] eqn:Est; [done| |].
  - subst o. rewrite N.eqb_refl. simpl. repeat kv_step. split; [done|]. f_equal.
    rewrite E3, Hmul. generalize dependent ((rs_page_count r - 1) * page_tokens s). intros; lia.
  - apply wp_ret. split; [done|]. f_equal. destruct Hpg as [_ Hpg]. rewrite Hpg in E3.
    rewrite Hmul. generalize dependent ((rs_page_count r - 1) * page_tokens s). intros; lia.
Qed.

Lemma demand_split n :
  pages_for (rs_resident_tokens r + n) (page_tokens s) =
  rs_page_count r +
    pages_for (n - (rs_page_count r * page_tokens s - rs_resident_tokens r)) (page_tokens s).
Proof.
  pose proof (wf_request s Hwf (rk_slot k)) as Hr. fold r in Hr. destruct Hr.
  destruct (wf_shape s Hwf).
  destruct (N.le_gt_cases n (rs_page_count r * page_tokens s - rs_resident_tokens r)).
  - replace (n - _) with 0 by lia. rewrite pages_for_0 by lia.
    rewrite (pages_for_exact _ (rs_page_count r)); lia.
  - rewrite <- pages_for_add by lia. f_equal. lia.
Qed.
End tail_capacity.

Section existing.
Context (s : KvPool) (i : N) (Hwf : wf s) (Hi : i < MAX_REQUEST_SLOTS).
Let r := req_at s i.

(** The part of an append that fits the writable tail page. *)
Lemma append_tail_wp n :
  let cap := rs_page_count r * page_tokens s - rs_resident_tokens r in
  rs_resident_tokens r + n <= max_context_tokens s ->
  wp (if (0 <? N.min n cap)
      then bind (append_existing_page i
             (if rs_page_count r =? 0 then PageId_EMPTY else pid_at r (rs_page_count r - 1))
             (N.min n cap))
             (fun _ => sub_w n (N.min n cap))
      else ret n) s
    (fun s' rem => rem = n - N.min n cap /\ wf s' /\ appended s s' i (N.min n cap) 0).
Proof.
  intros cap Hctx. destruct (N.ltb_spec 0 (N.min n cap)) as [Hpos|Hz].
  2:{ apply wp_ret. replace (N.min n cap) with 0 by lia. rewrite N.sub_0_r.
      auto using appended_refl. }
  pose proof (wf_request s Hwf i) as Hr. fold r in Hr. destruct Hr. destruct (wf_shape s Hwf).
  assert (Hc : 0 < rs_page_count r) by (unfold cap in *; nia).
  destruct (N.eqb_spec (rs_page_count r) 0); [lia|].
  destruct (tail_entry s i Hwf Hi Hc) as [E1 E2 E3 E4]. fold r in E1, E2, E3, E4.
  destruct (last_page (rs_page_count r) (page_tokens s) (rs_resident_tokens r)) as [L1 L2];
    try done. rewrite L1 in E3.
  assert (Hmul : rs_page_count r * page_tokens s =
    (rs_page_count r - 1) * page_tokens s + page_tokens s).
  { rewrite <- (N.mul_1_l (page_tokens s)) at 3. rewrite <- N.mul_add_distr_r. f_equal. lia. }
  destruct (wf_page s Hwf _ E1) as [_ Hpg].
  set (p := pid_index (pid_at r (rs_page_count r - 1))) in *.
  set (B := (rs_page_count r - 1) * page_tokens s) in *.
  assert (Hcap : cap = page_tokens s - ps_initialized_tokens (page_at s p)) by (unfold cap; lia).
  assert (Hst : ps_state (page_at s p) = Writable i).
  { destruct (ps_state (page_at s p)) as [|o|]; [done|congruence|]. destruct Hpg. lia. }
  kv_step. eapply wp_mono; [apply (append_existing_page_wp s i Hwf Hi Hc)|].
  { fold r p. lia. } { fold r. lia. }
  intros s' _ ->. fold r p. cbv beta. repeat kv_step. split; [done|].
  assert (Hreq : forall a b, req_at (resized_state s i p a b) i = set_rs_resident b r).
  { intros. unfold resized_state. rewrite req_at_updated by done. by rewrite decide_True. }
  split.
  - apply (resized_state_wf s i Hwf Hi Hc); fold r p; try done; try lia.
  - constructor; rewrite ?Hreq; simpl; fold r; try done; try lia.
    by apply evolves_updated.
Qed.
End existing.

Lemma append_tentative_key_wp s k n :
  wf s -> wp (append_tentative_key k n) s (fun s' r =>
    match append_decision s k n with
    | Some e => r = Err e /\ s' = s
    | None => r = Ok tt /\ wf s' /\ appended s s' (rk_slot k) n (append_demand s (rk_slot k) n)
    end).
Proof.
  intros Hwf. unfold append_tentative_key, append_decision. kv_live Hwf E.
  pose proof (wf_request s Hwf (rk_slot k)) as Hr. destruct Hr.
  pose proof (page_count_le s Hwf (rk_slot k)) as Hcount.
  pose proof (request_pages_len s Hwf (rk_slot k)) as Hplen.
  pose proof (append_tail_wp s (rk_slot k) Hwf Hslot n) as Htail. simpl in Htail.
  pose proof (tail_capacity_of_wp s k Hwf Hslot) as Hcap.
  pose proof (demand_split s k Hwf Hslot n) as Hsplit.
  kv_bounds s Hwf. unfold append_demand. do 2 kv_step.
  set (r := req_at s (rk_slot k)) in *.
  unfold checked_add. destruct (N.leb_spec (rs_resident_tokens r + n) u32_max) as [Hu|Hu].
  2:{ apply wp_ret. destruct (N.ltb_spec (max_context_tokens s) (rs_resident_tokens r + n)); [done|lia]. }
  repeat kv_step.
  destruct (N.ltb_spec (max_context_tokens s) (rs_resident_tokens r + n)) as [Hctx|Hctx]; [done|].
  pose proof (pages_for_context s Hwf _ Hctx) as Hmax. unfold MAX_PAGES_PER_REQUEST in Hmax.
  destruct (N.eqb_spec n 0) as [->|Hn].
  { apply wp_ret. assert (Hz : pages_for (rs_resident_tokens r) (page_tokens s) = rs_page_count r)
      by apply (wf_pages_for s Hwf). rewrite N.add_0_r, Hz, N.sub_diag.
    destruct (N.ltb_spec (free_len s) 0); [lia|]. auto using appended_refl. }
  set (cap := rs_page_count r * page_tokens s - rs_resident_tokens r) in *.
  apply wp_bind. eapply wp_mono with (Q := fun s' t => s' = s /\
    t = if rs_page_count r =? 0 then PageId_EMPTY else pid_at r (rs_page_count r - 1)).
  { destruct (N.eqb_spec (rs_page_count r) 0); [done|].
    apply wp_read_chain; [kv_side| |done]. fold r. rewrite Hplen. lia. }
  intros ? ? [-> ->]. cbv beta. kv_step.
  eapply wp_mono; [exact Hcap|]. intros ? ? [-> ->]. repeat kv_step.
  rewrite pages_for_split by lia. rewrite Hsplit in Hmax |- *.
  set (req := pages_for (n - cap) (page_tokens s)) in *.
  rewrite (proj2 (N.leb_le req u32_max)) by (unfold u32_max; lia).
  rewrite (proj2 (N.leb_le (rs_page_count r + req) u32_max)) by (unfold u32_max; lia).
  destruct (N.ltb_spec 512 (rs_page_count r + req)); [lia|].
  replace (rs_page_count r + req - rs_page_count r) with req by lia.
  repeat kv_step. destruct (N.ltb_spec (free_len s) req) as [Hfree|Hfree]; [done|].
  kv_step. eapply wp_mono; [by apply Htail|]. intros s1 rem (-> & Hwf1 & Happ). cbv beta.
  destruct Happ as [[? ? ? ?] A2 A3 A4 A5 A6 A7 A8] eqn:Eapp.
  assert (Hrem : n - N.min n cap = n - cap) by lia.
  kv_step. eapply wp_mono; [apply append_loop_wp; try done|].
  - by rewrite A2.
  - rewrite Hrem, ev_tokens0, N2Nat.id. done.
  - rewrite A5, A6, ev_tokens0. fold r. unfold cap. lia.
  - rewrite A5, ev_context0. fold r. lia.
  - lia.
  - intros s' _ [Hwf' Happ']. apply wp_ret. split_and!; try done.
    rewrite N2Nat.id in Happ'. replace n with (N.min n cap + (n - N.min n cap)) by lia.
    change req with (0 + req). by eapply appended_trans.
Qed.

(** ** Sharing *)
Lemma share_loop_wp count : forall s i j pos,
  wf s -> i < MAX_REQUEST_SLOTS -> j < MAX_REQUEST_SLOTS -> i <> j ->
  rs_live (req_at s j) = true ->
  rs_page_count (req_at s j) = pos ->
  rs_resident_tokens (req_at s j) = pos * page_tokens s ->
  rs_committed_tokens (req_at s j) = pos * page_tokens s ->
  (pos + N.of_nat count) * page_tokens s <= rs_committed_tokens (req_at s i) ->
  (forall q, q < pos -> pid_at (req_at s j) q = pid_at (req_at s i) q /\
     ps_state (page_at s (pid_index (pid_at (req_at s i) q))) = Sealed) ->
  wp (share_loop count i j j pos) s (fun s' _ =>
    wf s' /\ shared s s' i j (pos + N.of_nat count)).
Proof.
  induction count as [|count IH]; intros s i j pos Hwf Hi Hj Hij Hlive Hcnt Hres Hcom Hsrc Hpre;
    simpl.
  - apply wp_ret. rewrite N.add_0_r. split; [done|]. constructor; auto with ferric; naive_solver.
  - assert (Hsrc1 : (rs_page_count (req_at s j) + 1) * page_tokens s <=
      rs_committed_tokens (req_at s i)).
    { rewrite Hcnt. etrans; [|exact Hsrc]. apply N.mul_le_mono_r. lia. }
    rewrite <- Hcnt in Hres, Hcom.
    destruct (share_position s i j Hwf Hi Hj Hij Hsrc1 Hres Hcom) as [Hlt H512].
    pose proof (share_entry s i j Hwf Hi Hj Hij Hsrc1 Hres Hcom) as [Hp _ _ _].
    rewrite Hcnt in *.
    kv_step. rewrite <- Hcnt at 1. eapply wp_mono; [by apply (share_next_page_wp s i j); rewrite ?Hcnt|].
    intros s1 [] E1. cbv beta in E1 |- *.
    set (p := pid_index (pid_at (req_at s i) pos)) in *.
    assert (Hnh : ~ holds (req_at s j) p).
    { intros (q & Hq & Heq). rewrite Hcnt in Hq. destruct (Hpre q Hq) as [Hpid _].
      rewrite Hpid in Heq. apply (wf_inj s Hwf i) in Heq; lia. }
    assert (Hwf1 : wf s1).
    { subst s1. apply shared_state_wf; rewrite ?Hcnt; done. }
    assert (Hrj : req_at s1 j = shared_request (req_at s j) (pid_at (req_at s i) pos) (page_tokens s)).
    { subst s1. unfold shared_state. rewrite Hcnt, req_at_updated by done. by rewrite decide_True. }
    assert (Hev : evolves s s1 j).
    { subst s1. unfold shared_state. rewrite Hcnt. by apply evolves_updated. }
    assert (Hpg : forall q, page_at s1 q = if decide (q = p) then sealed_with (page_at s p) j else page_at s q).
    { intros q. subst s1. unfold shared_state. rewrite Hcnt. fold p. by apply page_at_updated. }
    assert (Hpid : forall q, pid_at (req_at s1 j) q =
      if decide (q = pos) then pid_at (req_at s i) pos else pid_at (req_at s j) q).
    { intros q. rewrite Hrj. rewrite <- Hcnt. apply (shared_pid s i j); rewrite ?Hcnt; done. }
    destruct Hev as [Ev1 Ev2 Ev3 Ev4]. pose proof (Ev4 i Hij) as Hri.
    unfold MAX_PAGES_PER_REQUEST in *. kv_step. apply wp_add32; [unfold u32_max; lia|].
    eapply wp_mono; [apply IH; rewrite ?Ev1, ?Hri; try done|].
    + by rewrite Hrj.
    + rewrite Hrj. simpl. lia.
    + rewrite Hrj. simpl. rewrite Hres. lia.
    + rewrite Hrj. simpl. rewrite Hcom. lia.
    + replace (pos + 1 + N.of_nat count) with (pos + N.of_nat (S count)) by lia. done.
    + intros q Hq. rewrite Hpid, Hpg. case_decide as Eq.
      * subst q. fold p. by rewrite decide_True.
      * destruct (Hpre q ltac:(lia)) as [-> Hs]. split; [done|]. case_decide; done.
    + intros s' _ [Hwf' [S1 S2 S3 S4 S5 S6 S7 S8 S9]]. split; [done|].
      rewrite Ev1 in S4, S5. rewrite Hri in S7, S9. rewrite Hrj in S2, S3.
      replace (pos + N.of_nat (S count)) with (pos + 1 + N.of_nat count) by lia.
      constructor; rewrite ?S2, ?S3; try done.
      * eapply evolves_trans; [|exact S1]. done.
      * rewrite S8. by subst s1.
Qed.

Lemma empty_request s i : wf s -> rs_resident_tokens (req_at s i) = 0 ->
  rs_page_count (req_at s i) = 0 /\ rs_committed_tokens (req_at s i) = 0.
Proof.
  intros Hwf H0. destruct (wf_request s Hwf i). destruct (wf_shape s Hwf). rewrite H0 in *.
  split; [|lia]. destruct (N.eq_0_gt_0_cases (rs_page_count (req_at s i))); [done|nia].
Qed.

Lemma share_committed_prefix_key_wp s source target n :
  wf s -> n <= u32_max ->
  wp (share_committed_prefix_key source target n) s (fun s' r =>
    match share_decision s source target n with
    | Some e => r = Err e /\ s' = s
    | None => r = Ok tt /\ wf s' /\
        shared s s' (rk_slot source) (rk_slot target) (n / page_tokens s)
    end).
Proof.
  intros Hwf Hn. unfold share_committed_prefix_key, share_decision.
  kv_live Hwf E1. kv_live Hwf E2.
  destruct (N.eqb_spec (rk_slot source) (rk_slot target)) as [|Hne]; [done|].
  pose proof (wf_request s Hwf (rk_slot source)) as Hr. destruct Hr.
  kv_bounds s Hwf. 
  do 5 kv_step. apply wp_mul32; [by etrans; [apply div_mul_le|]|].
  rewrite aligned_eqb by lia. destruct ((n =? 0) || negb (n mod page_tokens s =? 0)) eqn:Ha; [done|].
  apply orb_false_iff in Ha as [_ Ha]. apply negb_false_iff in Ha.
  rewrite <- aligned_eqb in Ha by lia. apply N.eqb_eq in Ha.
  repeat kv_step.
  destruct (N.ltb_spec (rs_committed_tokens (req_at s (rk_slot source))) n) as [|Hcom]; [done|].
  repeat kv_step.
  destruct (N.eqb_spec (rs_resident_tokens (req_at s (rk_slot target))) 0) as [Hz|]; simpl; [|done].
  destruct (empty_request s _ Hwf Hz) as [Hc Hz'].
  destruct (N.ltb_spec 512 (n / page_tokens s)).
  { assert (n / page_tokens s <= 512); [|lia]. apply N.Div0.div_le_upper_bound. lia. }
  kv_step. eapply wp_mono; [apply share_loop_wp; try done|].
  - rewrite N2Nat.id, N.add_0_l, Ha. done.
  - intros q Hq. lia.
  - intros s' _ [Hwf' Hs]. rewrite N2Nat.id in Hs. apply wp_ret. done.
Qed.

(** ** Finalizing *)

(** Distinct chain positions name distinct pages in use. *)
Lemma chain_room s i (l : list nat) :
  wf s -> NoDup l -> (forall k, k ∈ l -> N.of_nat k < rs_page_count (req_at s i)) ->
  free_len s + vlen l <= page_limit s.
Proof.
  intros Hwf Hnd Hl.
  replace (vlen l) with (vlen ((fun k => pid_index (pid_at (req_at s i) (N.of_nat k))) <$> l))
    by (unfold vlen; by rewrite length_fmap).
  apply (in_use_bound s Hwf).
  - apply NoDup_fmap_2_strong; [|done]. intros x y Hx Hy Heq.
    apply (wf_inj s Hwf i) in Heq; [lia|by apply Hl..].
  - intros p (k & -> & Hk)%list_elem_of_fmap.
    assert (Hh : holds (req_at s i) (pid_index (pid_at (req_at s i) (N.of_nat k))))
      by (exists (N.of_nat k); auto).
    split; [by apply (holds_lt s Hwf i)|by apply (holds_not_free s Hwf i)].
Qed.

Lemma first_exhausted_None sel s i count : forall pos,
  first_exhausted sel s i count pos = None <->
  forall q, pos <= q < pos + N.of_nat count -> sel (pid_at (req_at s i) q) = true ->
    ps_generation (page_at s (pid_index (pid_at (req_at s i) q))) <> u32_max.
Proof.
  induction count as [|count IH]; intros pos; simpl.
  - split; [|done]. intros _ q Hq. lia.
  - destruct (sel (pid_at (req_at s i) pos)) eqn:Es; simpl.
    + destruct (N.eqb_spec (ps_generation (page_at s (pid_index (pid_at (req_at s i) pos)))) u32_max)
        as [He|He].
      * split; [done|]. intros H. exfalso. by apply (H pos); [lia|..].
      * rewrite IH. split; intros H q Hq; [|apply H; lia].
        destruct (decide (q = pos)) as [->|]; [done|apply H; lia].
    + rewrite IH. split; intros H q Hq; [|apply H; lia].
      destruct (decide (q = pos)) as [->|]; [congruence|apply H; lia].
Qed.

Lemma finalize_check_wp s i count : forall pos,
  wf s -> i < MAX_REQUEST_SLOTS -> pos + N.of_nat count <= rs_page_count (req_at s i) ->
  wp (finalize_check count i pos) s (fun s' r => s' = s /\
    r = match first_exhausted (fun _ => true) s i count pos with
        | Some page => Err (GenerationExhausted page) | None => Ok tt end).
Proof.
  induction count as [|count IH]; intros pos Hwf Hi Hle; simpl; [done|].
  pose proof (page_count_le s Hwf i). pose proof (request_pages_len s Hwf i).
  destruct (wf_entry s Hwf i pos ltac:(lia)) as [Hp _ _ _].
  kv_bounds s Hwf. do 4 kv_step.
  destruct (ps_generation (page_at s (pid_index (pid_at (req_at s i) pos))) =? u32_max); [done|].
  kv_step. apply wp_add32; [unfold u32_max; lia|]. apply IH; [done..|lia].
Qed.

Lemma truncated_refl s i : 
  truncated s s i (rs_committed_tokens (req_at s i)) (rs_resident_tokens (req_at s i))
    (rs_page_count (req_at s i)) (rs_page_count (req_at s i)) 0.
Proof. constructor; auto with ferric; lia. Qed.

Lemma truncated_trans s1 s2 s3 i c1 res1 ret1 keep1 f1 c2 res2 ret2 keep2 f2 :
  wf s1 -> ret1 <= rs_page_count (req_at s1 i) -> ret1 <= keep1 -> ret2 <= ret1 -> keep2 <= keep1 ->
  truncated s1 s2 i c1 res1 ret1 keep1 f1 -> truncated s2 s3 i c2 res2 ret2 keep2 f2 ->
  truncated s1 s3 i c2 res2 ret2 keep2 (f1 + f2).
Proof.
  intros Hwf H1 Hk1 H2 H3 [V1 V2 V3 V4 V5 V6 V7 V8 V9 V10] [W1 W2 W3 W4 W5 W6 W7 W8 W9 W10].
  rewrite V6 in W9, W10.
  assert (Hinj : forall pos pos', pos < rs_page_count (req_at s1 i) ->
    pos' < rs_page_count (req_at s1 i) -> pos <> pos' ->
    pid_index (pid_at (req_at s1 i) pos) <> pid_index (pid_at (req_at s1 i) pos')).
  { intros pos pos' Hp Hp' Hne Heq. by apply (wf_inj s1 Hwf i) in Heq. }
  constructor; try congruence; try lia.
  - by eapply evolves_trans.
  - intros pos Hpos. rewrite W7 by done. apply V7. lia.
  - intros q Hq. rewrite W9, V9; [done| |].
    + intros pos Hp1 Hp2. apply Hq; lia.
    + intros pos Hp1 Hp2. rewrite V7 by lia. apply Hq; lia.
  - intros pos Hpos. destruct (N.lt_ge_cases pos ret1) as [Hlt|Hge].
    + rewrite <- (V7 pos) at 1 by lia. rewrite W10 by lia. rewrite V7 by lia.
      rewrite V9; [done|]. intros pos' Hp1 Hp2. apply Hinj; lia.
    + rewrite W9; [apply V10; lia|]. intros pos' Hp1 Hp2. rewrite V7 by lia. apply Hinj; lia.
Qed.

Lemma raised_truncated s i c :
  wf s -> i < MAX_REQUEST_SLOTS ->
  truncated s (with_request s i (set_rs_committed c (req_at s i))) i c
    (rs_resident_tokens (req_at s i)) (rs_page_count (req_at s i))
    (rs_page_count (req_at s i)) 0.
Proof.
  intros Hwf Hi. assert (Hreq := req_at_with_request s i (set_rs_committed c (req_at s i)) Hwf Hi i).
  rewrite decide_True in Hreq by done.
  constructor; rewrite ?Hreq; simpl; auto with ferric; lia.
Qed.

(** Dropping only the tail page. *)
Lemma dropped_truncated s i committed :
  wf s -> i < MAX_REQUEST_SLOTS -> 0 < rs_page_count (req_at s i) ->
  let k := rs_page_count (req_at s i) - 1 in
  truncated s (dropped_state s i (pid_index (pid_at (req_at s i) k)) committed) i
    committed (k * page_tokens s) k k 1.
Proof.
  intros Hwf Hi Hc k. pose proof (tail_limit s i Hwf Hi Hc) as Hp. fold k in Hp.
  assert (Hreq : req_at (dropped_state s i (pid_index (pid_at (req_at s i) k)) committed) i =
    popped_request (req_at s i) committed (k * page_tokens s)).
  { unfold dropped_state. rewrite req_at_updated by done. by rewrite decide_True. }
  constructor; rewrite ?Hreq; simpl; try done.
  - by apply evolves_updated.
  - intros pos Hpos. unfold pid_at. simpl. apply vnth_vset_ne. lia.
  - intros q Hq. unfold dropped_state. rewrite page_at_updated by done.
    rewrite decide_False; [done|]. intros ->. apply (Hq k); unfold k; [lia..|done].
  - intros pos Hpos. replace pos with k by (unfold k in *; lia).
    unfold dropped_state. rewrite page_at_updated by done. by rewrite decide_True.
Qed.

(** Writable pages beyond the committed tokens belong to their request alone. *)
Lemma uncommitted_writable s i pos :
  wf s -> pos < rs_page_count (req_at s i) ->
  rs_committed_tokens (req_at s i) < (pos + 1) * page_tokens s ->
  ps_state (page_at s (pid_index (pid_at (req_at s i) pos))) = Writable i.
Proof.
  intros Hwf Hpos Hcom. destruct (wf_entry s Hwf i pos Hpos) as [_ _ _ Hst].
  destruct (ps_state _) as [|o|]; [done|by subst|lia].
Qed.

(** Trimming the tail page of a chain that is already short enough. *)
Lemma finalize_tail_wp s i c :
  wf s -> i < MAX_REQUEST_SLOTS ->
  rs_committed_tokens (req_at s i) = c -> c <= rs_resident_tokens (req_at s i) ->
  rs_page_count (req_at s i) = pages_for c (page_tokens s) ->
  wp (if negb (c mod page_tokens s =? 0) then
        bind (sub_w (rs_page_count (req_at s i)) 1) (fun last =>
        bind (read_chain i last) (fun tail =>
        bind (read_page (pid_index tail)) (fun _ =>
        truncate_writable_tail i tail c (c mod page_tokens s))))
      else ret tt) s
    (fun s' _ => wf s' /\ truncated s s' i c c (rs_page_count (req_at s i)) (c / page_tokens s) 0).
Proof.
  intros Hwf Hi Hcom Hres Hcnt. pose proof (wf_shape s Hwf) as [].
  pose proof (N.div_mod c (page_tokens s) ltac:(lia)) as Hdm.
  pose proof (N.mod_lt c (page_tokens s) ltac:(lia)) as Hml.
  rewrite <- pages_for_split in Hcnt by lia.
  pose proof (wf_request s Hwf i) as Hr. destruct Hr.
  set (q := c / page_tokens s) in *. set (m := c mod page_tokens s) in *.
  destruct (N.eqb_spec m 0) as [Hz|Hnz]; simpl.
  - apply wp_ret. split; [done|].
    assert (Hq : q = rs_page_count (req_at s i)) by lia.
    assert (c = rs_resident_tokens (req_at s i)) as Hc by (rewrite Hq in Hdm; lia).
    pose proof (truncated_refl s i) as Ht. rewrite Hcom, <- Hc, <- Hq in Ht. by rewrite <- Hq.
  - assert (Hq : q = rs_page_count (req_at s i) - 1) by lia.
    assert (Hc : 0 < rs_page_count (req_at s i)) by lia.
    pose proof (page_count_le s Hwf i). pose proof (request_pages_len s Hwf i).
    pose proof (tail_limit s i Hwf Hi Hc) as Hp.
    assert (Hst : ps_state (page_at s (pid_index (pid_at (req_at s i)
      (rs_page_count (req_at s i) - 1)))) = Writable i).
    { apply (uncommitted_writable s i); [done|lia|]. rewrite Hcom, <- Hq. lia. }
    kv_bounds s Hwf. do 6 kv_step. eapply wp_mono; [by apply (truncate_writable_tail_wp s i Hwf Hi Hc)|].
    intros s1 [] ->.
    assert (Hreq : req_at (resized_state s i (pid_index (pid_at (req_at s i)
      (rs_page_count (req_at s i) - 1))) m c) i = set_rs_resident c (req_at s i)).
    { unfold resized_state. rewrite req_at_updated by done. by rewrite decide_True. }
    split.
    + apply resized_state_wf; try done; try lia.
    + constructor; rewrite ?Hreq; simpl; try done; try lia.
      * by apply evolves_updated.
      * intros p Hne. unfold resized_state. rewrite page_at_updated by done.
        rewrite decide_False; [done|]. intros ->. apply (Hne q); [lia|done|by rewrite Hq].
Qed.

Lemma finalize_drop_wp count : forall s i retained,
  wf s -> i < MAX_REQUEST_SLOTS ->
  rs_page_count (req_at s i) = retained + N.of_nat count ->
  rs_committed_tokens (req_at s i) <= retained * page_tokens s ->
  (forall pos, retained <= pos < retained + N.of_nat count ->
     ps_generation (page_at s (pid_index (pid_at (req_at s i) pos))) < u32_max) ->
  wp (finalize_drop count i (rs_committed_tokens (req_at s i)) (rs_page_count (req_at s i))) s
    (fun s' _ => wf s' /\
      truncated s s' i (rs_committed_tokens (req_at s i))
        (if decide (count = 0%nat) then rs_resident_tokens (req_at s i)
         else retained * page_tokens s) retained retained (N.of_nat count)).
Proof.
  induction count as [|count IH]; intros s i retained Hwf Hi Hcnt Hcom Hgen; simpl.
  - apply wp_ret. split; [done|]. simpl.
    replace retained with (rs_page_count (req_at s i)) by lia. apply truncated_refl.
  - set (r := req_at s i) in *. set (k := rs_page_count r - 1).
    assert (Hc : 0 < rs_page_count r) by lia. assert (Hk : k = retained + N.of_nat count) by lia.
    pose proof (page_count_le s Hwf i). pose proof (request_pages_len s Hwf i).
    pose proof (tail_limit s i Hwf Hi Hc) as Hp. fold r k in Hp.
    assert (Hmono : retained * page_tokens s <= k * page_tokens s) by (apply N.mul_le_mono_r; lia).
    assert (Hst := uncommitted_writable s i k Hwf ltac:(fold r; lia)).
    destruct (wf_shape s Hwf). unfold MAX_PAGES_PER_REQUEST, MAX_REQUEST_SLOTS in *.
    fold r in Hst. specialize (Hst ltac:(lia)).
    specialize (Hgen k) as Hgk. specialize (Hgk ltac:(lia)).
    do 3 kv_step. apply wp_read_chain; [by rewrite sh_requests|fold r in H, H0 |- *; lia|].
    fold k. fold r. unfold MAX_PAGE_SLOTS in *. do 3 kv_step.
    eapply wp_mono; [by apply (drop_sole_tail_wp s i Hwf Hi Hc)|]. intros s1 [] E1. cbv beta in E1 |- *.
    assert (Hwf1 : wf s1).
    { subst s1. apply dropped_state_wf; try done; fold r k; try lia.
      intros j Hj Hh. apply Hj. by apply (writable_sole s Hwf _ i j Hp Hst). }
    assert (Ht : truncated s s1 i (rs_committed_tokens r) (k * page_tokens s) k k 1)
      by (subst s1; by apply dropped_truncated).
    clear E1. destruct (Ht) as [[V1 V2 V3 V4] T2 T3 T4 T5 T6 T7 T8 T9 T10].
    fold r in T2, T3, T7, T9, T10.
    specialize (IH s1 i retained Hwf1 Hi). rewrite T4, T6, V1, T5 in IH.
    eapply wp_mono; [apply IH; try done|].
    + intros pos Hpos. rewrite T7 by lia. rewrite T9; [apply Hgen; lia|].
      intros pos' H1 H2 Heq.
      assert (pos' = pos) by (apply (wf_inj s Hwf i); fold r; [lia|lia|done]). lia.
    + intros s' [] [Hwf' Hu]. split; [done|].
      replace (N.of_nat (S count)) with (1 + N.of_nat count) by lia.
      assert (Hres : (if decide (count = 0%nat) then k * page_tokens s else retained * page_tokens s)
        = retained * page_tokens s) by (case_decide; [subst count; f_equal; lia|done]).
      rewrite Hres in Hu.
      eapply (truncated_trans s s1 s' i _ _ k k); try done; fold r; try lia.
Qed.

(** Dropping the tail of a chain never overflows the free stack. *)
Lemma chain_tail_room s i retained :
  wf s -> free_len s + (rs_page_count (req_at s i) - retained) <= page_limit s.
Proof.
  intros Hwf. set (n := rs_page_count (req_at s i) - retained).
  replace n with (vlen (seq (N.to_nat retained) (N.to_nat n)))
    by (unfold vlen; rewrite length_seq; lia).
  apply (chain_room s i); [done|apply NoDup_seq|].
  intros k [H1 H2]%elem_of_seq. unfold n in *. lia.
Qed.

Lemma finalize_tentative_key_wp s k accepted :
  wf s -> wp (finalize_tentative_key k accepted) s (fun s' r =>
    match finalize_decision s k accepted with
    | Some e => r = Err e /\ s' = s
    | None => r = Ok tt /\ wf s' /\
        let r := req_at s (rk_slot k) in
        let c := rs_committed_tokens r + accepted in
        let retained := pages_for c (page_tokens s) in
        c <= rs_resident_tokens r /\ retained <= rs_page_count r /\
        truncated s s' (rk_slot k) c c retained (c / page_tokens s) (rs_page_count r - retained)
    end).
Proof.
  intros Hwf. unfold finalize_tentative_key, finalize_decision. kv_live Hwf E.
  set (i := rk_slot k) in *.
  pose proof (wf_request s Hwf i) as Hr. destruct Hr. pose proof (page_count_le s Hwf i).
  pose proof (wf_shape s Hwf) as []. 
  kv_step. apply wp_read_request; [by apply request_in_vec|]. cbv zeta.
  set (c := rs_committed_tokens (req_at s i) + accepted).
  unfold checked_add. fold c. destruct (N.leb_spec c u32_max) as [Hu|Hu].
  2:{ apply wp_ret. destruct (N.ltb_spec (rs_resident_tokens (req_at s i)) c); [done|lia]. }
  destruct (N.ltb_spec (rs_resident_tokens (req_at s i)) c) as [|Hcr]; [done|].
  do 7 kv_step.
  set (pt := page_tokens s) in *. set (retained := pages_for c pt).
  assert (Hret : retained <= rs_page_count (req_at s i)).
  { unfold retained. rewrite <- (wf_pages_for s Hwf i). by apply pages_for_mono. }
  assert (Hcov : c <= retained * pt) by (apply pages_for_spec; lia).
  pose proof (chain_tail_room s i retained Hwf) as Hroom.
  unfold MAX_PAGES_PER_REQUEST, MAX_PAGE_SLOTS in *.
  apply wp_add32; [rewrite pages_for_split by lia; fold retained; unfold u32_max; lia|].
  rewrite pages_for_split by lia. fold retained.
  kv_step. apply wp_sub_w; [done|]. do 4 kv_step.
  set (drop := rs_page_count (req_at s i) - retained) in *.
  destruct (N.leb_spec (free_len s + drop) u32_max); [|unfold u32_max in *; lia].
  destruct (N.ltb_spec (page_limit s) (free_len s + drop)); [lia|].
  kv_step. eapply wp_mono; [by apply finalize_check_wp; try lia|].
  intros ? ? [-> ->]. cbv beta.
  destruct (first_exhausted _ s i (N.to_nat drop) retained) as [page|] eqn:Eg; [done|].
  simpl. rewrite first_exhausted_None in Eg.
  kv_step. eapply wp_mono; [by apply raise_committed_wp|]. intros s1 [] E1. cbv beta in E1 |- *.
  pose proof (raised_truncated s i c Hwf Hslot) as T1. rewrite <- E1 in T1.
  assert (Hwf1 : wf s1).
  { subst s1. apply with_request_wf; try done; try (simpl; lia). }
  destruct (T1) as [[V1 V2 V3 V4] V5 V6 V7 V8 V9 V10 V11 V12 _].
  assert (Hdrop := finalize_drop_wp (N.to_nat drop) s1 i retained Hwf1 Hslot).
  rewrite V7, V8, V9, V1, N2Nat.id in Hdrop. fold pt in Hdrop.
  kv_step. eapply wp_mono; [apply Hdrop; try done; try (unfold drop; lia)|].
  { intros pos Hpos. rewrite V10 by lia. rewrite V12.
    - pose proof (Eg pos) as Hg. destruct (wf_entry s Hwf i pos ltac:(unfold drop in *; lia)) as [Hp _ _ _].
      destruct (wf_page s Hwf _ Hp) as [? _]. specialize (Hg ltac:(lia) eq_refl). lia.
    - intros pos' ? ?. lia. }
  intros s2 [] [Hwf2 T2]. cbv beta. 
  destruct (T2) as [[W1 W2 W3 W4] W5 W6 W7 W8 W9 W10 W11 W12 _].
  assert (Htail := finalize_tail_wp s2 i c Hwf2 Hslot).
  rewrite W7, W8, W9, W1, V1 in Htail. fold pt in Htail.
  kv_step. eapply wp_mono; [apply Htail; try done|].
  { case_decide; [done|]. lia. }
  intros s3 [] [Hwf3 T3]. apply wp_ret. split_and!; try done.
  assert (Hkeep : c / pt <= retained) by (unfold retained; rewrite <- pages_for_split by lia; apply N.le_add_r).
  rewrite <- (N.add_0_r drop).
  eapply (truncated_trans s s2 s3 i _ _ retained retained); try done.
  rewrite <- (N.add_0_l drop).
  eapply (truncated_trans s s1 s2 i _ _ (rs_page_count (req_at s i)) (rs_page_count (req_at s i)));
    done.
Qed.

(** ** Releasing *)

(** Sole pages of request [i] at positions [pos, pos + count). *)
Fixpoint sole_count (s : KvPool) (i : N) (count : nat) (pos : N) : N :=
  match count with
  | O => 0
  | S count' =>
      (if sole_page s i (pid_at (req_at s i) pos) then 1 else 0) + sole_count s i count' (pos + 1)
  end.

Lemma sole_count_le s i count : forall pos, sole_count s i count pos <= N.of_nat count.
Proof.
  induction count as [|count IH]; intros pos; simpl; [done|].
  specialize (IH (pos + 1)). destruct (sole_page _ _ _); lia.
Qed.

(** Counting from the tail, as [release_drop] does. *)
Lemma sole_count_snoc s i count : forall pos,
  sole_count s i (S count) pos =
  sole_count s i count pos +
    (if sole_page s i (pid_at (req_at s i) (pos + N.of_nat count)) then 1 else 0).
Proof.
  induction count as [|count IH]; intros pos.
  - simpl. change (N.of_nat 0) with 0. by rewrite !N.add_0_r, N.add_0_l.
  - change (sole_count s i (S (S count)) pos) with
      ((if sole_page s i (pid_at (req_at s i) pos) then 1 else 0) + sole_count s i (S count) (pos + 1)).
    rewrite (IH (pos + 1)). replace (pos + 1 + N.of_nat count) with (pos + N.of_nat (S count)) by lia.
    cbn [sole_count]. lia.
Qed.

Lemma sole_count_ext s s' i count : forall pos,
  (forall q, pos <= q < pos + N.of_nat count ->
     sole_page s i (pid_at (req_at s i) q) = sole_page s' i (pid_at (req_at s' i) q)) ->
  sole_count s i count pos = sole_count s' i count pos.
Proof.
  induction count as [|count IH]; intros pos H; simpl; [done|].
  rewrite H by lia. f_equal. apply IH. intros q Hq. apply H. lia.
Qed.

(** A page is sole exactly when no other request holds it. *)
Lemma sole_page_spec s i pos :
  wf s -> pos < rs_page_count (req_at s i) ->
  sole_page s i (pid_at (req_at s i) pos) = true <->
  forall j, j <> i -> ~ holds (req_at s j) (pid_index (pid_at (req_at s i) pos)).
Proof.
  intros Hwf Hpos. set (p := pid_index (pid_at (req_at s i) pos)).
  assert (Hh : holds (req_at s i) p) by by exists pos.
  pose proof (holds_lt s Hwf i p Hh) as Hp. pose proof (holds_slot s Hwf i p Hh) as Hi.
  unfold sole_page. fold p. rewrite N.eqb_eq. split.
  - intros Hz j Hj Hhj. pose proof (holds_slot s Hwf j p Hhj) as Hjs.
    assert (Hb : N.testbit (N.land (ps_reference_mask (page_at s p)) (not_u32 (N.shiftl 1 i))) j
      = true) by (apply testbit_clear; [done|]; split_and!; [by apply (wf_mask s Hwf)|done..]).
    by rewrite Hz, N.bits_0 in Hb.
  - intros Hsole. destruct (N.eq_dec (N.land (ps_reference_mask (page_at s p))
      (not_u32 (N.shiftl 1 i))) 0) as [|Hne]; [done|exfalso].
    apply mask_nonzero in Hne as [j Hj]. apply testbit_clear in Hj as (Hj & _ & Hne); [|done].
    by apply (Hsole j Hne), (wf_mask s Hwf).
Qed.

Lemma release_count_wp s i count : forall pos acc,
  wf s -> i < MAX_REQUEST_SLOTS -> pos + N.of_nat count <= rs_page_count (req_at s i) ->
  acc <= pos ->
  wp (release_count count i i pos acc) s (fun s' r => s' = s /\
    r = match first_exhausted (sole_page s i) s i count pos with
        | Some page => Err (GenerationExhausted page)
        | None => Ok (acc + sole_count s i count pos)
        end).
Proof.
  induction count as [|count IH]; intros pos acc Hwf Hi Hle Hacc; simpl.
  { apply wp_ret. by rewrite N.add_0_r. }
  pose proof (page_count_le s Hwf i). pose proof (request_pages_len s Hwf i).
  destruct (wf_entry s Hwf i pos ltac:(lia)) as [Hp _ _ _].
  assert (Hi32 : i < 32) by exact Hi.
  kv_bounds s Hwf. do 4 kv_step. 
  change (N.land _ _ =? 0) with (sole_page s i (pid_at (req_at s i) pos)).
  destruct (sole_page s i (pid_at (req_at s i) pos)) eqn:Es; simpl.
  - do 2 kv_step.
    destruct (ps_generation (page_at s (pid_index (pid_at (req_at s i) pos))) =? u32_max); [done|].
    kv_step. apply wp_add32; [unfold u32_max; lia|]. kv_step. apply wp_add32; [unfold u32_max; lia|].
    rewrite N.add_assoc. apply IH; done || lia.
  - kv_step. apply wp_add32; [unfold u32_max; lia|]. rewrite N.add_0_l. apply IH; done || lia.
Qed.

(** Request [i] let go of its whole chain and stays live. *)
Record unchained (s s' : KvPool) (i freed : N) : Prop := mkUnchained {
  un_evolves : evolves s s' i;
  un_live : rs_live (req_at s' i) = rs_live (req_at s i);
  un_generation : rs_generation (req_at s' i) = rs_generation (req_at s i);
  un_count : rs_page_count (req_at s' i) = 0;
  un_free : free_len s' = free_len s + freed;
  un_page : forall q, ~ holds (req_at s i) q -> page_at s' q = page_at s q;
  un_held : forall pos, pos < rs_page_count (req_at s i) ->
    page_at s' (pid_index (pid_at (req_at s i) pos)) = let_go s i (pid_at (req_at s i) pos)
}.

(** One step of [release_drop]: the tail is dropped or detached. *)
Definition let_go_state (s : KvPool) (i committed : N) : KvPool :=
  let tail := pid_at (req_at s i) (rs_page_count (req_at s i) - 1) in
  if sole_page s i tail then dropped_state s i (pid_index tail) committed
  else detached_state s i (pid_index tail) committed.

Section let_go.
Context (s : KvPool) (i : N) (Hwf : wf s) (Hi : i < MAX_REQUEST_SLOTS).
Let r := req_at s i.
Context (Hcount : 0 < rs_page_count r).
Let k := rs_page_count r - 1.
Let tail := pid_at r k.
Let committed := N.min (rs_committed_tokens r) (k * page_tokens s).
Let s1 := let_go_state s i committed.

Lemma let_go_request : req_at s1 i = popped_request r committed (k * page_tokens s).
Proof.
  pose proof (tail_limit s i Hwf Hi Hcount).
  unfold s1, let_go_state. destruct (sole_page _ _ _).
  - unfold dropped_state. rewrite req_at_updated by done. by rewrite decide_True.
  - unfold detached_state. rewrite req_at_updated by done. by rewrite decide_True.
Qed.

Lemma let_go_page q :
  page_at s1 q = if decide (q = pid_index tail) then let_go s i tail else page_at s q.
Proof.
  pose proof (tail_limit s i Hwf Hi Hcount).
  unfold s1, let_go_state, let_go. fold r k tail. destruct (sole_page s i tail).
  - unfold dropped_state. by rewrite page_at_updated.
  - unfold detached_state. by rewrite page_at_updated.
Qed.

Lemma let_go_evolves : evolves s s1 i.
Proof.
  pose proof (tail_limit s i Hwf Hi Hcount).
  unfold s1, let_go_state. destruct (sole_page _ _ _); by apply evolves_updated.
Qed.

Lemma let_go_free : free_len s1 = free_len s + (if sole_page s i tail then 1 else 0).
Proof.
  unfold s1, let_go_state. fold r k tail. destruct (sole_page _ _ _); simpl; lia.
Qed.

Lemma let_go_wf :
  (sole_page s i tail = true -> ps_generation (page_at s (pid_index tail)) < u32_max) -> wf s1.
Proof.
  intros Hg. assert (Hk : k < rs_page_count r) by (unfold k; lia).
  pose proof (sole_page_spec s i k Hwf Hk) as Hspec. fold r tail in Hspec.
  assert (Hself : holds (req_at s i) (pid_index tail)) by by exists k.
  pose proof (holds_lt s Hwf i _ Hself) as Hp. 
  unfold s1, let_go_state. fold r k tail. destruct (sole_page s i tail) eqn:Es.
  - apply dropped_state_wf; try done; fold r k; try (unfold committed; lia); auto.
    by apply Hspec.
  - assert (exists j, j <> i /\ holds (req_at s j) (pid_index tail)) as (j & Hj & Hh).
    { unfold sole_page in Es. apply N.eqb_neq, mask_nonzero in Es as [j Hj].
      apply testbit_clear in Hj as (Hj & _ & Hne); [|done]. exists j. split; [done|].
      by apply (wf_mask s Hwf). }
    by apply (detached_state_wf s i Hwf Hi Hcount committed (N.le_min_r _ _) (N.le_refl _) j).
Qed.

Lemma release_step_wp (k' : unit -> M KvPool unit) Q :
  (sole_page s i tail = true -> ps_generation (page_at s (pid_index tail)) < u32_max) ->
  wp (k' tt) s1 Q ->
  wp (bind (read_chain i k) (fun page =>
      bind (read_page (pid_index page)) (fun p =>
      bind (read_request i) (fun r =>
      bind (sub_w (rs_resident_tokens r) (ps_initialized_tokens p)) (fun new_resident =>
      bind (page_has_other_reference (pid_index page) i) (fun shared =>
      bind (if shared
            then detach_shared_tail i i page (N.min (rs_committed_tokens r) new_resident)
            else drop_sole_tail i page (N.min (rs_committed_tokens r) new_resident)) k')))))) s Q.
Proof.
  intros Hg HQ. pose proof (tail_limit s i Hwf Hi Hcount) as Hp. fold r k tail in Hp.
  pose proof (tail_resident s i Hwf Hi Hcount) as [Hini Hres]. fold r k tail in Hini, Hres.
  assert (Hk : k < vlen (rs_pages r)).
  { unfold r. rewrite (request_pages_len s Hwf i). apply N.lt_le_trans with (rs_page_count r).
    - unfold k. generalize dependent (rs_page_count r). intros; lia.
    - apply (page_count_le s Hwf i). }
  pose proof (wf_shape s Hwf) as []. unfold MAX_PAGE_SLOTS in *.
  assert (Hi32 : i < 32) by exact Hi.
  kv_step. apply wp_read_chain; [by rewrite sh_requests|done|].
  fold r tail. kv_step. apply wp_read_page; [lia|].
  kv_step. apply wp_read_request; [by rewrite sh_requests|]. fold r.
  kv_step. apply wp_sub_w; [done|]. rewrite Hres.
  kv_step. apply wp_page_has_other_reference; [lia|done|].
  change (N.land _ _ =? 0) with (sole_page s i tail). kv_step. fold committed.
  unfold s1, let_go_state in HQ. fold r k tail in HQ.
  destruct (sole_page s i tail) eqn:Es; simpl.
  - eapply wp_mono; [by apply (drop_sole_tail_wp s i Hwf Hi Hcount); auto|].
    intros s' [] ->. done.
  - eapply wp_mono; [by apply (detach_shared_tail_wp s i Hwf Hi Hcount)|].
    intros s' [] ->. done.
Qed.
End let_go.

Lemma release_drop_wp count : forall s i,
  wf s -> i < MAX_REQUEST_SLOTS -> rs_page_count (req_at s i) = N.of_nat count ->
  (forall pos, pos < N.of_nat count -> sole_page s i (pid_at (req_at s i) pos) = true ->
     ps_generation (page_at s (pid_index (pid_at (req_at s i) pos))) < u32_max) ->
  wp (release_drop count i i (rs_page_count (req_at s i))) s (fun s' _ =>
    wf s' /\ unchained s s' i (sole_count s i count 0)).
Proof.
  induction count as [|count IH]; intros s i Hwf Hi Hcnt Hgen; cbn [release_drop].
  - apply wp_ret. split; [done|]. constructor; auto with ferric; simpl; try done; [lia|].
    intros pos. rewrite Hcnt. simpl. lia.
  - assert (Hc : 0 < rs_page_count (req_at s i)) by lia.
    set (k := rs_page_count (req_at s i) - 1). assert (Hk : k = N.of_nat count) by lia.
    set (committed := N.min (rs_committed_tokens (req_at s i)) (k * page_tokens s)).
    kv_step. apply wp_sub_w; [lia|]. cbv beta.
    assert (Hg : sole_page s i (pid_at (req_at s i) k) = true ->
      ps_generation (page_at s (pid_index (pid_at (req_at s i) k))) < u32_max)
      by (apply Hgen; lia).
    apply (release_step_wp s i Hwf Hi Hc (fun _ => release_drop count i i k)); [done|].
    fold k committed. set (s1 := let_go_state s i committed).
    assert (Hwf1 : wf s1) by by apply let_go_wf.
    pose proof (let_go_request s i Hwf Hi Hc) as Hreq.
    pose proof (let_go_page s i Hwf Hi Hc) as Hpg.
    pose proof (let_go_evolves s i Hwf Hi Hc) as Hev.
    pose proof (let_go_free s i) as Hfree.
    fold k committed s1 in Hreq, Hpg, Hev, Hfree.
    assert (Hcnt1 : rs_page_count (req_at s1 i) = k) by by rewrite Hreq.
    assert (Hinj : forall pos, pos < k ->
      pid_index (pid_at (req_at s i) pos) <> pid_index (pid_at (req_at s i) k)).
    { intros pos Hpos Heq. apply (wf_inj s Hwf i) in Heq; lia. }
    assert (Hpid : forall pos, pos < k -> pid_at (req_at s1 i) pos = pid_at (req_at s i) pos).
    { intros pos Hpos. rewrite Hreq. unfold pid_at. simpl. apply vnth_vset_ne. fold k. lia. }
    assert (Hsame : forall pos, pos < k -> page_at s1 (pid_index (pid_at (req_at s i) pos)) =
      page_at s (pid_index (pid_at (req_at s i) pos))).
    { intros pos Hpos. rewrite Hpg. rewrite decide_False; [done|by apply Hinj]. }
    assert (Hsole : forall pos, pos < k ->
      sole_page s i (pid_at (req_at s i) pos) = sole_page s1 i (pid_at (req_at s1 i) pos)).
    { intros pos Hpos. unfold sole_page. by rewrite Hpid, Hsame. }
    specialize (IH s1 i Hwf1 Hi). rewrite Hcnt1 in IH.
    eapply wp_mono; [apply IH; [done|]|].
    { intros pos Hpos. rewrite <- Hsole, Hpid, Hsame by lia. apply Hgen. lia. }
    intros s' [] [Hwf' [[V1 V2 V3 V4] U2 U3 U4 U5 U6 U7]]. split; [done|]. clear IH.
    destruct Hev as [W1 W2 W3 W4]. constructor.
    + constructor; try congruence. intros j Hj. rewrite V4, W4; done.
    + by rewrite U2, Hreq.
    + by rewrite U3, Hreq.
    + done.
    + rewrite U5, Hfree by done. rewrite sole_count_snoc, N.add_0_l, <- Hk.
      rewrite (sole_count_ext s s1 i count 0); [lia|]. intros q Hq. apply Hsole. lia.
    + intros q Hq. rewrite U6.
      * rewrite Hpg. rewrite decide_False; [done|]. intros ->. apply Hq. exists k. split; [lia|done].
      * intros (pos & Hpos & Heq). apply Hq. exists pos. rewrite Hpid in Heq by lia.
        split; [lia|done].
    + intros pos Hpos. destruct (decide (pos = k)) as [->|Hne].
      * rewrite U6.
        -- rewrite Hpg. by rewrite decide_True.
        -- intros (pos & Hpos' & Heq). rewrite Hpid in Heq by lia. apply (Hinj pos); [lia|done].
      * specialize (U7 pos ltac:(lia)). rewrite Hpid in U7 by lia. rewrite U7.
        unfold let_go. rewrite Hsame by lia. rewrite <- (Hpid pos) at 1 by lia.
        by rewrite <- Hsole by lia.
Qed.

Lemma release_request_key_wp s k :
  wf s -> wp (release_request_key k) s (fun s' r =>
    match release_decision s k with
    | Some e => r = Err e /\ s' = s
    | None => r = Ok tt /\ wf s' /\
        released s s' (rk_slot k)
          (sole_count s (rk_slot k) (N.to_nat (rs_page_count (req_at s (rk_slot k)))) 0)
    end).
Proof.
  intros Hwf. unfold release_request_key, release_decision. kv_live Hwf E.
  set (i := rk_slot k) in *.
  pose proof (wf_request s Hwf i) as Hr. destruct Hr. pose proof (page_count_le s Hwf i).
  pose proof (wf_shape s Hwf) as [].
  kv_step. apply wp_read_request; [by apply request_in_vec|].
  destruct (N.eqb_spec (rs_generation (req_at s i)) u32_max) as [|Hmaxg]; [done|]. cbv zeta.
  set (n := rs_page_count (req_at s i)) in *.
  kv_step. eapply wp_mono; [apply release_count_wp; try done; fold n; lia|].
  intros ? ? [-> ->]. cbv beta.
  destruct (first_exhausted _ s i (N.to_nat n) 0) as [page|] eqn:Eg; [done|]. simpl.
  rewrite first_exhausted_None in Eg. rewrite N.add_0_l. do 4 kv_step.
  set (freed := sole_count s i (N.to_nat n) 0).
  assert (Hfreed : freed <= n) by (pose proof (sole_count_le s i (N.to_nat n) 0); unfold freed; lia).
  pose proof (chain_tail_room s i 0 Hwf) as Hroom. fold n in Hroom. rewrite N.sub_0_r in Hroom.
  unfold checked_add, MAX_PAGE_SLOTS, MAX_PAGES_PER_REQUEST in *.
  destruct (N.leb_spec (free_len s + freed) u32_max); [|unfold u32_max in *; lia].
  destruct (N.ltb_spec (page_limit s) (free_len s + freed)); [lia|].
  kv_step. unfold n. eapply wp_mono; [apply release_drop_wp; try done; fold n; [lia|]|].
  { intros pos Hpos Hs. destruct (wf_entry s Hwf i pos ltac:(fold n; lia)) as [Hp _ _ _].
    destruct (wf_page s Hwf _ Hp) as [? _]. pose proof (Eg pos ltac:(lia) Hs). lia. }
  intros s1 [] [Hwf1 [[V1 V2 V3 V4] U2 U3 U4 U5 U6 U7]].
  fold n freed in U5.
  pose proof (wf_request s1 Hwf1 i) as []. rewrite U4 in *.
  kv_step. eapply wp_mono; [apply retire_empty_request_wp; try done; rewrite U3; lia|].
  intros s' [] ->. apply wp_ret.
  set (nr := set_rs_generation _ _).
  assert (Hreq := fun j => req_at_with_request s1 i nr Hwf1 Hslot j).
  pose proof (Hreq i) as Hreqi. rewrite decide_True in Hreqi by done.
  split_and!; [done| |].
  - apply with_request_wf; try done. unfold nr. constructor; simpl; rewrite ?U3, ?U4; try done; lia.
  - constructor; rewrite ?Hreqi; unfold nr; simpl; try done; try lia.
    constructor; try done. intros j Hj. rewrite Hreq, decide_False by done. by apply V4.
Qed.

(** ** Construction *)
Definition new_decision (page_count ptokens max_context : N) : option KvError :=
  if page_count =? 0 then Some (ZeroCapacity Pages)
  else if ptokens =? 0 then Some (ZeroCapacity PageTokens)
  else if max_context =? 0 then Some (ZeroCapacity ContextTokens)
  else if MAX_PAGE_SLOTS <? page_count then Some (CapacityExceedsBuildBound Pages)
  else if max_context <? ptokens then Some PageExceedsContext
  else if MAX_PAGES_PER_REQUEST <? pages_for max_context ptokens then
    Some (CapacityExceedsBuildBound RequestPages)
  else None.

(** The pool no request has used yet. *)
Record pristine (s : KvPool) (page_count ptokens max_context : N) : Prop := mkPristine {
  pr_tokens : page_tokens s = ptokens;
  pr_context : max_context_tokens s = max_context;
  pr_limit : page_limit s = page_count;
  pr_free : free_len s = page_count;
  pr_pages : forall p, page_at s p = PageSlot_free;
  pr_requests : forall i, req_at s i = RequestSlot_empty;
  pr_stack : forall k, k < page_count -> stack_at s k = page_count - 1 - k
}.

Lemma fill_free_stack_wp fuel : forall s page_count index,
  N.of_nat fuel = page_count - index -> index <= page_count ->
  page_count <= vlen (free_stack s) -> page_count <= u32_max ->
  (forall k, k < index -> stack_at s k = page_count - 1 - k) ->
  wp (fill_free_stack fuel page_count index) s (fun s' _ =>
    exists stack, s' = put_free_stack stack s /\ vlen stack = vlen (free_stack s) /\
      forall k, k < page_count -> vnth 0 stack k = page_count - 1 - k).
Proof.
  induction fuel as [|fuel IH]; intros s n index Hfuel Hle Hlen H32 Hk; cbn [fill_free_stack].
  - apply wp_ret. exists (free_stack s). split_and!; [by destruct s|done|].
    intros k ?. apply Hk. lia.
  - destruct (N.ltb_spec index n); [|lia].
    kv_step. apply wp_sub_w; [lia|]. kv_step. apply wp_sub_w; [lia|].
    do 2 kv_step. kv_step. apply wp_add32; [lia|].
    eapply wp_mono; [apply IH; simpl; rewrite ?vlen_vset; try done; try lia|].
    + intros k Hlt. unfold stack_at. simpl. rewrite vnth_vset by lia.
      case_decide as E; [subst k; lia|apply Hk; lia].
    + intros s' _ (stack & -> & Hl & Hs). exists stack. simpl in Hl.
      rewrite vlen_vset in Hl. done.
Qed.

Lemma pristine_wf s page_count ptokens max_context :
  pristine s page_count ptokens max_context ->
  vlen (pages s) = MAX_PAGE_SLOTS -> vlen (free_stack s) = MAX_PAGE_SLOTS ->
  vlen (requests s) = MAX_REQUEST_SLOTS -> free_bitmap s = vfill MAX_PAGE_SLOTS true ->
  0 < ptokens <= max_context -> max_context <= MAX_PAGES_PER_REQUEST * ptokens ->
  max_context <= u32_max -> 0 < page_count <= MAX_PAGE_SLOTS -> wf s.
Proof.
  intros [H1 H2 H3 H4 H5 H6 H7] Hp Hs Hr Hb Ht Hc H32 Hl.
  assert (Hbit : forall p, p < page_count -> vnth false (free_bitmap s) p = true).
  { intros p Hlt. apply vnth_get. rewrite Hb. apply vget_vfill. lia. }
  constructor.
  - constructor; rewrite ?H1, ?H2, ?H3; try done. rewrite Hb. apply vlen_vfill.
  - intros i. rewrite H6, H1, H2. constructor; simpl; try done; lia.
  - intros i pos. rewrite H6. simpl. lia.
  - intros i pos pos'. rewrite H6. simpl. lia.
  - intros p Hlt. rewrite H5. done.
  - intros p Hlt. rewrite H5, H3 in *. by apply Hbit.
  - intros p j Hlt. rewrite H5, H6. simpl. rewrite N.bits_0. split; [done|].
    intros (pos & Hpos & _). simpl in Hpos. lia.
  - rewrite H3, H4. constructor.
    + intros k Hk. change (stack_at s k < page_count). rewrite H7 by done. lia.
    + intros k k' Hk Hk'. change (stack_at s k = stack_at s k' -> k = k').
      rewrite !H7 by done. lia.
    + intros p Hlt. rewrite Hbit by done. split; [|done]. intros _.
      exists (page_count - 1 - p). split; [lia|].
      change (stack_at s (page_count - 1 - p) = p). rewrite H7 by lia. lia.
Qed.

Lemma new_bounded_wp {S} (s0 : S) page_count ptokens max_context :
  max_context <= u32_max ->
  wp (new_bounded page_count ptokens max_context) s0 (fun s' r => s' = s0 /\
    match new_decision page_count ptokens max_context with
    | Some e => r = Err e
    | None => exists pool, r = Ok pool /\ wf pool /\ pristine pool page_count ptokens max_context
    end).
Proof.
  intros H32. unfold new_bounded, new_decision. cbv zeta.
  destruct (N.eqb_spec page_count 0); [done|]. destruct (N.eqb_spec ptokens 0); [done|].
  destruct (N.eqb_spec max_context 0); [done|].
  destruct (N.ltb_spec MAX_PAGE_SLOTS page_count); [done|].
  destruct (N.ltb_spec max_context ptokens); [done|].
  fold (pages_for max_context ptokens).
  destruct (N.ltb_spec MAX_PAGES_PER_REQUEST (pages_for max_context ptokens)) as [|Hch]; [done|].
  set (pool := mkKvPool _ _ _ _ _ _ _ _).
  assert (Hf : wp (fill_free_stack (N.to_nat page_count) page_count 0) pool (fun s' _ =>
    exists stack, s' = put_free_stack stack pool /\ vlen stack = MAX_PAGE_SLOTS /\
      forall k, k < page_count -> vnth 0 stack k = page_count - 1 - k)).
  { assert (Hl : vlen (free_stack pool) = MAX_PAGE_SLOTS) by apply vlen_vfill.
    unfold MAX_PAGE_SLOTS, u32_max in *.
    eapply wp_mono; [apply fill_free_stack_wp; rewrite ?Hl; try lia|].
    - unfold u32_max. lia.
    - intros s' _ (stack & -> & Hs & Hv). exists stack.
      exact (conj eq_refl (conj (eq_trans Hs Hl) Hv)). }
  apply wp_done in Hf as (s' & [] & Hrun & stack & -> & Hl & Hst).
  unfold wp. rewrite Hrun. split; [done|].
  assert (Hpr : pristine (put_free_stack stack pool) page_count ptokens max_context).
  { constructor; try done; intros; apply vnth_vfill. }
  exists (put_free_stack stack pool). split_and!; [done| |done].
  eapply pristine_wf; try done; simpl; try apply vlen_vfill; try lia.
  destruct (pages_for_spec max_context ptokens) as [P1 P2]; [lia|].
  etrans; [exact P1|]. by apply N.mul_le_mono_r.
Qed.
