(* ===== verification/KvTheorems.v ===== *)
(** What the KV pool guarantees: it refines a pool without pages, it never
    panics, every page is either free or held, no operation reaches another
    request's tokens, and stale handles stay rejected. *)
From S2P Require Import Prelude Spec KvPool KvInv KvPrim KvOps.
Local Open Scope prog_scope.

(** ** The abstract pool: token counts per request slot, no pages *)
Record RequestView := mkView {
  rv_generation : N;
  rv_live : bool;
  rv_committed : N;
  rv_resident : N
}.

Definition view (s : KvPool) (i : N) : RequestView :=
  let r := req_at s i in
  mkView (rs_generation r) (rs_live r) (rs_committed_tokens r) (rs_resident_tokens r).

Definition at_slot (i : N) (g : RequestView -> RequestView) (v : N -> RequestView) (j : N) :
    RequestView :=
  if decide (j = i) then g (v j) else v j.

Inductive KvOp :=
| OpCreate (request : RequestId)
| OpAppend (request : RequestId) (token_count : N)
| OpShare (source target : RequestId) (token_count : N)
| OpFinalize (request : RequestId) (accepted : N) (permit : KvQuiescencePermit)
| OpRelease (request : RequestId) (permit : KvQuiescencePermit)
| OpRead (request : RequestId) (offset span : N).

(** Token counts are [u32] in the source; only [share] needs it. *)
Definition op_width (op : KvOp) : Prop :=
  match op with OpShare _ _ n => n <= u32_max | _ => True end.

#[export] Instance op_width_dec op : Decision (op_width op).
Proof. destruct op; apply _. Defined.

(** The effect of a successful operation on the abstract pool. *)
Definition abs_op (op : KvOp) : (N -> RequestView) -> N -> RequestView :=
  match op with
  | OpCreate r => at_slot (slot r) (fun v =>
      mkView (rv_generation v) true (rv_committed v) (rv_resident v))
  | OpAppend r n => at_slot (slot r) (fun v =>
      mkView (rv_generation v) (rv_live v) (rv_committed v) (rv_resident v + n))
  | OpShare _ t n => at_slot (slot t) (fun v =>
      mkView (rv_generation v) (rv_live v) n n)
  | OpFinalize r n _ => at_slot (slot r) (fun v =>
      mkView (rv_generation v) (rv_live v) (rv_committed v + n) (rv_committed v + n))
  | OpRelease r _ => at_slot (slot r) (fun v =>
      mkView (rv_generation v + 1) false 0 0)
  | OpRead _ _ _ => fun v => v
  end.

Definition is_ok {A E} (r : result A E) : bool := match r with Ok _ => true | Err _ => false end.

Definition run_op (op : KvOp) : M KvPool bool :=
  match op with
  | OpCreate r => let! x := create_request r in ret (is_ok x)
  | OpAppend r n => let! x := append_tentative r n in ret (is_ok x)
  | OpShare a b n => let! x := share_committed_prefix a b n in ret (is_ok x)
  | OpFinalize r n p => let! x := finalize_tentative r n p in ret (is_ok x)
  | OpRelease r p => let! x := release_request r p in ret (is_ok x)
  | OpRead r o n => let! x := validate_read r o n in ret (is_ok x)
  end.

Fixpoint run_ops (ops : list KvOp) : M KvPool (list bool) :=
  match ops with
  | [] => ret []
  | op :: rest =>
      let! ok := run_op op in
      let! oks := run_ops rest in
      ret (ok :: oks)
  end.

(** The request slot an operation writes. *)
Definition op_slot (op : KvOp) : N :=
  match op with
  | OpCreate r | OpAppend r _ | OpFinalize r _ _ | OpRelease r _ | OpRead r _ _ => slot r
  | OpShare _ t _ => slot t
  end.

(** ** The wrappers that check a permit *)
Definition permit_error (request : RequestId) (permit : KvQuiescencePermit) (exact : bool) : bool :=
  negb (same_request_id (permit_request permit) request) ||
  (exact && match permit_origin permit with NeverSubmitted => true | CompletedExact _ => false end).

Lemma finalize_tentative_wp s request accepted permit :
  wf s -> wp (finalize_tentative request accepted permit) s (fun s' r =>
    if permit_error request permit true then
      r = Err (mkAuthorityError InvalidQuiescencePermit permit) /\ s' = s
    else match finalize_decision s (request_key request) accepted with
    | Some e => r = Err (mkAuthorityError e permit) /\ s' = s
    | None => r = Ok (mkFinalized request (permit_origin permit)) /\ wf s' /\
        let r := req_at s (slot request) in
        let c := rs_committed_tokens r + accepted in
        let retained := pages_for c (page_tokens s) in
        c <= rs_resident_tokens r /\ retained <= rs_page_count r /\
        truncated s s' (slot request) c c retained (c / page_tokens s)
          (rs_page_count r - retained)
    end).
Proof.
  intros Hwf. unfold finalize_tentative, permit_error.
  destruct (same_request_id _ _), (permit_origin permit) eqn:Eo; simpl; try done.
  apply wp_bind. eapply wp_mono; [by apply finalize_tentative_key_wp|].
  intros s' r. cbv beta. destruct (finalize_decision _ _ _); [by intros [-> ->]|].
  intros (-> & H). apply wp_ret. done.
Qed.

Lemma release_request_wp s request permit :
  wf s -> wp (release_request request permit) s (fun s' r =>
    if permit_error request permit false then
      r = Err (mkAuthorityError InvalidQuiescencePermit permit) /\ s' = s
    else match release_decision s (request_key request) with
    | Some e => r = Err (mkAuthorityError e permit) /\ s' = s
    | None => r = Ok (mkDetached request (permit_origin permit)) /\ wf s' /\
        released s s' (slot request)
          (sole_count s (slot request) (N.to_nat (rs_page_count (req_at s (slot request)))) 0)
    end).
Proof.
  intros Hwf. unfold release_request, permit_error.
  destruct (same_request_id _ _); simpl; [|done].
  apply wp_bind. eapply wp_mono; [by apply release_request_key_wp|].
  intros s' r. cbv beta. destruct (release_decision _ _); [by intros [-> ->]|].
  intros (-> & H). apply wp_ret. done.
Qed.

(** ** One step of the pool *)

(** What a step may do: the invariant holds, only the written slot changes, and
    the token counts follow the abstract pool. *)
Definition step_post (op : KvOp) (s s' : KvPool) (ok : bool) : Prop :=
  wf s' /\
  (if ok then evolves s s' (op_slot op) /\ forall i, view s' i = abs_op op (view s) i
   else s' = s).

Lemma evolves_view s s' i g :
  evolves s s' i -> view s' i = g (view s i) -> forall j, view s' j = at_slot i g (view s) j.
Proof.
  intros [_ _ _ H] Hi j. unfold at_slot. case_decide as E; [by subst|].
  unfold view. by rewrite H.
Qed.


Lemma run_op_wp op s : wf s -> op_width op -> wp (run_op op) s (step_post op s).
Proof.
  intros Hwf Hw. unfold step_post. destruct op as [r|r n|a b n|r n p|r p|r o n]; simpl; apply wp_bind.
  - eapply wp_mono; [by apply create_request_key_wp|]. intros s' x. cbv beta.
    destruct (create_decision s (request_key r)) eqn:Ed; [by intros [-> ->]|].
    intros (-> & Hwf' & ->). apply wp_ret. split; [done|]. 
    unfold create_decision in Ed. destruct (N.leb_spec MAX_REQUEST_SLOTS (rk_slot (request_key r))); [done|].
    assert (Hev := evolves_with_request s (slot r) (set_rs_live true (req_at s (slot r))) Hwf ltac:(done)).
    split; [done|]. apply (evolves_view _ _ _ _ Hev). unfold view.
    rewrite req_at_with_request by done. by rewrite decide_True.
  - eapply wp_mono; [by apply append_tentative_key_wp|]. intros s' x. cbv beta.
    destruct (append_decision s (request_key r) n); [by intros [-> ->]|].
    intros (-> & Hwf' & [Hev L G C R _ _ _]). apply wp_ret. split; [done|]. split; [done|].
    apply (evolves_view _ _ _ _ Hev). unfold view. simpl in *. by rewrite L, G, C, R.
  - eapply wp_mono; [by apply share_committed_prefix_key_wp|]. intros s' x. cbv beta.
    destruct (share_decision s (request_key a) (request_key b) n) eqn:Ed; [by intros [-> ->]|].
    intros (-> & Hwf' & [Hev L G C R _ _ _ _]). apply wp_ret. split; [done|]. split; [done|].
    apply (evolves_view _ _ _ _ Hev). unfold view. simpl in *. rewrite L, G, C, R.
    assert (n / page_tokens s * page_tokens s = n) as ->; [|done].
    unfold share_decision in Ed. repeat (case_match; try done).
    apply orb_false_iff in H2 as [_ H2]. apply negb_false_iff in H2.
    rewrite <- aligned_eqb in H2; [by apply N.eqb_eq|]. destruct (wf_shape s Hwf). lia.
  - eapply wp_mono; [by apply finalize_tentative_wp|]. intros s' x. cbv beta.
    destruct (permit_error r p true); [by intros [-> ->]|].
    destruct (finalize_decision _ _ _); [by intros [-> ->]|].
    intros (-> & Hwf' & _ & _ & [Hev L G C R _ _ _ _ _]). apply wp_ret. split; [done|]. split; [done|].
    apply (evolves_view _ _ _ _ Hev). unfold view. by rewrite L, G, C, R.
  - eapply wp_mono; [by apply release_request_wp|]. intros s' x. cbv beta.
    destruct (permit_error r p false); [by intros [-> ->]|].
    destruct (release_decision _ _); [by intros [-> ->]|].
    intros (-> & Hwf' & [Hev L G C R _ _ _ _]). apply wp_ret. split; [done|]. split; [done|].
    apply (evolves_view _ _ _ _ Hev). unfold view. by rewrite L, G, C, R.
  - eapply wp_mono; [by apply validate_read_key_wp|]. intros s' x [-> ->]. apply wp_ret.
    split; [done|]. by destruct (read_decision _ _ _ _).
Qed.

(** ** Runs *)
Fixpoint abs_run (ops : list KvOp) (oks : list bool) (v : N -> RequestView) : N -> RequestView :=
  match ops, oks with
  | op :: ops', ok :: oks' => abs_run ops' oks' (if ok then abs_op op v else v)
  | _, _ => v
  end.

(** A step relation on pools, closed under any sequence of operations. *)
Inductive kv_reach : KvPool -> KvPool -> Prop :=
| reach_refl s : kv_reach s s
| reach_step s1 s2 s3 op ok :
    kv_reach s1 s2 -> op_width op -> run_op op s2 = Done s3 ok -> kv_reach s1 s3.

Lemma reach_inv (P : KvPool -> Prop) s s' :
  kv_reach s s' -> wf s -> P s ->
  (forall op s1 s2 ok, wf s1 -> P s1 -> op_width op -> step_post op s1 s2 ok -> P s2) ->
  wf s' /\ P s'.
Proof.
  intros Hr Hwf HP Hstep. induction Hr as [s|s1 s2 s3 op ok Hr IH Hw Hrun]; [done|].
  destruct (IH Hwf HP) as [Hwf2 HP2].
  pose proof (run_op_wp op s2 Hwf2 Hw) as H. unfold wp in H. rewrite Hrun in H.
  destruct (H) as [Hwf3 _]. split; [done|]. by apply (Hstep op s2 s3 ok).
Qed.

Lemma abs_op_ext op v w : (forall i, v i = w i) -> forall i, abs_op op v i = abs_op op w i.
Proof. intros H i. destruct op; simpl; unfold at_slot; rewrite ?H; done. Qed.

Lemma abs_run_ext ops : forall oks v w, (forall i, v i = w i) ->
  forall i, abs_run ops oks v i = abs_run ops oks w i.
Proof.
  induction ops as [|op ops IH]; intros [|ok oks] v w H i; simpl; try apply H.
  apply IH. intros j. destruct ok; [by apply abs_op_ext|apply H].
Qed.

Lemma run_ops_wp ops : forall s, wf s -> Forall op_width ops ->
  wp (run_ops ops) s (fun s' oks =>
    wf s' /\ length oks = length ops /\ (forall i, view s' i = abs_run ops oks (view s) i) /\
    page_limit s' = page_limit s).
Proof.
  induction ops as [|op ops IH]; intros s Hwf Hw; simpl; [done|].
  apply Forall_cons in Hw as [Hop Hw]. apply wp_bind.
  eapply wp_mono; [by apply run_op_wp|]. intros s1 ok [Hwf1 Hstep]. apply wp_bind.
  eapply wp_mono; [by apply IH|]. intros s2 oks (Hwf2 & Hlen & Hview & Hl). apply wp_ret.
  split_and!; [done|simpl; lia| |].
  - intros i. rewrite Hview. simpl. apply abs_run_ext. intros j. destruct ok.
    + by destruct Hstep as [_ ->].
    + by subst.
  - rewrite Hl. destruct ok; [by destruct Hstep as [[] _]|by subst].
Qed.

(** ** Pools built and driven by a script, for concrete instances *)
Definition demo_new (n pt ctx : N) : KvPool :=
  match new n pt ctx tt with
  | Done _ (Ok p) => p
  | _ => mkKvPool 0 0 0 [] [] 0 [] []
  end.

Definition demo (n pt ctx : N) (ops : list KvOp) : KvPool :=
  match run_ops ops (demo_new n pt ctx) with Done s _ => s | Panic => demo_new n pt ctx end.

Lemma demo_new_spec n pt ctx : ctx <= u32_max -> new_decision n pt ctx = None ->
  wf (demo_new n pt ctx) /\ pristine (demo_new n pt ctx) n pt ctx.
Proof.
  intros Hc Hd. pose proof (new_bounded_wp tt n pt ctx Hc) as H. unfold wp in H.
  unfold demo_new, new. destruct (new_bounded n pt ctx tt) as [[] r|]; [|done].
  rewrite Hd in H. destruct H as (_ & pool & -> & H). done.
Qed.

Lemma demo_wf n pt ctx ops : 
  ctx <= u32_max -> new_decision n pt ctx = None -> Forall op_width ops -> wf (demo n pt ctx ops).
Proof.
  intros Hc Hd Hw. destruct (demo_new_spec n pt ctx Hc Hd) as [Hwf _].
  pose proof (run_ops_wp ops _ Hwf Hw) as H. unfold wp in H. unfold demo.
  destruct (run_ops ops (demo_new n pt ctx)); [by destruct H|done].
Qed.

Ltac demo_wf_tac :=
  apply demo_wf; [by vm_compute|by vm_compute|repeat constructor; by vm_compute].

Definition r0 : RequestId := mkRequestId 0 1.
Definition r1 : RequestId := mkRequestId 1 1.
Definition permit0 : KvQuiescencePermit := mkPermit r0 (CompletedExact 1).

(** Request 0 holds seven tokens on four pages of two, four of them committed
    and shared with request 1. *)
Definition demo_script : list KvOp :=
  [OpCreate r0; OpAppend r0 4; OpFinalize r0 4 permit0; OpCreate r1; OpShare r0 r1 4;
   OpAppend r0 3; OpAppend r1 1].

Definition demo_pool : KvPool := demo 8 2 16 demo_script.

Lemma demo_pool_wf : wf demo_pool.
Proof. demo_wf_tac. Qed.

(** ** Accounting *)
Definition in_use (s : KvPool) : list N :=
  filter (fun p => ps_state (page_at s p) <> Free) (all_pages s).

Lemma holder_exists s p :
  wf s -> p < page_limit s -> ps_state (page_at s p) <> Free -> exists i, holds (req_at s i) p.
Proof.
  intros Hwf Hp Hf. destruct (wf_page s Hwf p Hp) as [_ Hpg].
  assert (Hm : ps_reference_mask (page_at s p) <> 0).
  { destruct (ps_state (page_at s p)) as [|o|]; [done| |tauto].
    destruct Hpg as (_ & -> & _). apply mask_nonzero. exists o. rewrite testbit_bit. apply N.eqb_refl. }
  apply mask_nonzero in Hm as [i Hi]. exists i. by apply (wf_mask s Hwf).
Qed.



(** C22: the pool refines a pool of token counters: any sequence of operations
    runs without a panic, keeps the invariant, and changes the generation, the
    liveness and the committed and resident tokens of every slot exactly as the
    abstract operations that succeeded do; a failed operation changes nothing. *)
Theorem kv_refines_token_counters n pt ctx ops :
  ctx <= u32_max -> new_decision n pt ctx = None -> Forall op_width ops ->
  exists pool, new n pt ctx tt = Done tt (Ok pool) /\
    wp (run_ops ops) pool (fun s' oks =>
      wf s' /\ length oks = length ops /\ page_limit s' = n /\
      forall i, view s' i = abs_run ops oks (fun _ => mkView 1 false 0 0) i).
Proof.
  intros Hc Hd Hw. pose proof (new_bounded_wp tt n pt ctx Hc) as H. rewrite Hd in H.
  apply wp_done in H as ([] & r & Hrun & _ & pool & -> & Hwf & Hpr).
  exists pool. split; [done|].
  eapply wp_mono; [by apply run_ops_wp|]. intros s' oks (Hwf' & Hlen & Hview & Hl).
  split_and!; [done|done|by rewrite Hl, (pr_limit _ _ _ _ Hpr)|].
  intros i. rewrite Hview. apply abs_run_ext. intros j. unfold view.
  by rewrite (pr_requests _ _ _ _ Hpr).
Qed.

Lemma kv_refines_token_counters_witness :
  Forall op_width demo_script /\
  exists pool, new 8 2 16 tt = Done tt (Ok pool) /\
    wp (run_ops demo_script) pool (fun s' oks =>
      wf s' /\ length oks = 7%nat /\ page_limit s' = 8 /\
      forall i, view s' i = abs_run demo_script oks (fun _ => mkView 1 false 0 0) i).
Proof.
  assert (Hw : Forall op_width demo_script) by (repeat constructor; by vm_compute).
  split; [exact Hw|].
  exact (kv_refines_token_counters 8 2 16 demo_script ltac:(by vm_compute) ltac:(by vm_compute) Hw).
Defined.

(** Construction takes exactly the documented decision: the first violated
    capacity rule is the error, and otherwise the pool is fresh (every page
    free, every request slot dead under generation 1, the free stack handing
    out page 0 first) and well formed. *)
Theorem kv_new_spec n pt ctx :
  ctx <= u32_max ->
  wp (new n pt ctx) tt (fun _ r =>
    match new_decision n pt ctx with
    | Some e => r = Err e
    | None => exists pool, r = Ok pool /\ wf pool /\ pristine pool n pt ctx
    end).
Proof.
  intros Hc. eapply wp_mono; [by apply new_bounded_wp|]. by intros [] r [_ H].
Qed.

Lemma kv_new_spec_witness :
  new 8 2 2048 tt = Done tt (Err (CapacityExceedsBuildBound RequestPages)) /\
  exists pool, new 8 2 16 tt = Done tt (Ok pool) /\ wf pool /\ pristine pool 8 2 16.
Proof.
  split.
  - pose proof (kv_new_spec 8 2 2048 ltac:(by vm_compute)) as H.
    apply wp_done in H as ([] & r & Hrun & H). rewrite Hrun. by rewrite H.
  - pose proof (kv_new_spec 8 2 16 ltac:(by vm_compute)) as H.
    apply wp_done in H as ([] & r & Hrun & pool & -> & H). exists pool.
    exact (conj Hrun H).
Defined.

(** ** Operations, on every branch *)

(** C26: appending either refuses with the first failing check (handle,
    context limit, free pages) and leaves the pool untouched, or adds exactly
    the requested tokens to the request, on the minimal number of fresh pages,
    after its unchanged page chain; no other request changes. *)
Theorem kv_append_spec s request n :
  wf s ->
  wp (append_tentative request n) s (fun s' r =>
    match append_decision s (request_key request) n with
    | Some e => r = Err e /\ s' = s
    | None => r = Ok tt /\ wf s' /\
        appended s s' (slot request) n (append_demand s (slot request) n)
    end).
Proof. intros Hwf. by apply append_tentative_key_wp. Qed.

Lemma kv_append_spec_witness :
  wf demo_pool /\
  (exists s', append_tentative r0 5 demo_pool = Done s' (Ok tt) /\ wf s' /\ appended demo_pool s' 0 5 2) /\
  append_tentative r0 10 demo_pool = Done demo_pool (Err ContextExceeded).
Proof.
  split_and!; [exact demo_pool_wf| |].
  - pose proof (kv_append_spec demo_pool r0 5 demo_pool_wf) as H.
    apply wp_done in H as (s' & r & Hrun & H). exists s'. rewrite Hrun.
    assert (Hd : append_decision demo_pool (request_key r0) 5 = None) by by vm_compute.
    rewrite Hd in H. destruct H as (-> & Hwf & Ha).
    assert (Hk : append_demand demo_pool (slot r0) 5 = 2) by by vm_compute.
    rewrite Hk in Ha. exact (conj eq_refl (conj Hwf Ha)).
  - pose proof (kv_append_spec demo_pool r0 10 demo_pool_wf) as H.
    apply wp_done in H as (s' & r & Hrun & H). rewrite Hrun.
    assert (Hd : append_decision demo_pool (request_key r0) 10 = Some ContextExceeded) by by vm_compute.
    rewrite Hd in H. by destruct H as [-> ->].
Defined.

(** Sharing a committed prefix either refuses with the first failing check,
    or makes the empty target start with exactly the source's first pages,
    sealed so that neither request can write them again, using no free page. *)
Theorem kv_share_spec s source target n :
  wf s -> n <= u32_max ->
  wp (share_committed_prefix source target n) s (fun s' r =>
    match share_decision s (request_key source) (request_key target) n with
    | Some e => r = Err e /\ s' = s
    | None => r = Ok tt /\ wf s' /\ shared s s' (slot source) (slot target) (n / page_tokens s)
    end).
Proof. intros Hwf Hn. by apply share_committed_prefix_key_wp. Qed.

Definition demo_unshared : KvPool :=
  demo 8 2 16 [OpCreate r0; OpAppend r0 5; OpFinalize r0 4 permit0; OpCreate r1].

Lemma demo_unshared_wf : wf demo_unshared.
Proof. demo_wf_tac. Qed.

Lemma kv_share_spec_witness :
  wf demo_unshared /\
  (exists s', share_committed_prefix r0 r1 4 demo_unshared = Done s' (Ok tt) /\ wf s' /\
     shared demo_unshared s' 0 1 2) /\
  share_committed_prefix r0 r1 3 demo_unshared = Done demo_unshared (Err PrefixNotPageAligned).
Proof.
  split_and!; [exact demo_unshared_wf| |].
  - pose proof (kv_share_spec demo_unshared r0 r1 4 demo_unshared_wf ltac:(by vm_compute)) as H.
    apply wp_done in H as (s' & r & Hrun & H). exists s'. rewrite Hrun.
    assert (Hd : share_decision demo_unshared (request_key r0) (request_key r1) 4 = None)
      by by vm_compute.
    rewrite Hd in H. destruct H as (-> & Hwf & Ha).
    assert (Hk : 4 / page_tokens demo_unshared = 2) by by vm_compute.
    rewrite Hk in Ha. exact (conj eq_refl (conj Hwf Ha)).
  - pose proof (kv_share_spec demo_unshared r0 r1 3 demo_unshared_wf ltac:(by vm_compute)) as H.
    apply wp_done in H as (s' & r & Hrun & H). rewrite Hrun.
    assert (Hd : share_decision demo_unshared (request_key r0) (request_key r1) 3 =
      Some PrefixNotPageAligned) by by vm_compute.
    rewrite Hd in H. by destruct H as [-> ->].
Defined.

(** Finalizing an exact completion needs that request's completed permit and
    gives it back on every refusal; on success the request keeps exactly its
    accepted tokens, all committed, on the minimal prefix of its chain, every
    rejected page is free under its next generation, and only pages past the
    accepted full pages are rewritten. *)
Theorem kv_finalize_spec s request accepted permit :
  wf s ->
  wp (finalize_tentative request accepted permit) s (fun s' r =>
    if permit_error request permit true then
      r = Err (mkAuthorityError InvalidQuiescencePermit permit) /\ s' = s
    else match finalize_decision s (request_key request) accepted with
    | Some e => r = Err (mkAuthorityError e permit) /\ s' = s
    | None => r = Ok (mkFinalized request (permit_origin permit)) /\ wf s' /\
        let r := req_at s (slot request) in
        let c := rs_committed_tokens r + accepted in
        let retained := pages_for c (page_tokens s) in
        c <= rs_resident_tokens r /\ retained <= rs_page_count r /\
        truncated s s' (slot request) c c retained (c / page_tokens s)
          (rs_page_count r - retained)
    end).
Proof. apply finalize_tentative_wp. Qed.

Lemma kv_finalize_spec_witness :
  wf demo_pool /\
  exists s', finalize_tentative r0 1 permit0 demo_pool =
      Done s' (Ok (mkFinalized r0 (CompletedExact 1))) /\
    wf s' /\ truncated demo_pool s' 0 5 5 3 2 1.
Proof.
  split; [exact demo_pool_wf|].
  pose proof (kv_finalize_spec demo_pool r0 1 permit0 demo_pool_wf) as H.
  apply wp_done in H as (s' & r & Hrun & H). exists s'. rewrite Hrun.
  assert (Hd : finalize_decision demo_pool (request_key r0) 1 = None) by by vm_compute.
  assert (Hp : permit_error r0 permit0 true = false) by by vm_compute.
  rewrite Hp, Hd in H. cbv zeta in H. destruct H as (-> & Hwf & _ & _ & Ha).
  assert (Hc : rs_committed_tokens (req_at demo_pool (slot r0)) = 4) by by vm_compute.
  assert (Hn : rs_page_count (req_at demo_pool (slot r0)) = 4) by by vm_compute.
  assert (Ht : page_tokens demo_pool = 2) by by vm_compute.
  rewrite Hc, Hn, Ht in Ha. exact (conj eq_refl (conj Hwf Ha)).
Defined.

(** Releasing a request needs its permit and gives it back on every refusal;
    on success the slot is dead under its next generation, exactly the pages no
    other request holds return to the free stack under their next generation,
    and every shared page only loses this request's reference bit. *)
Theorem kv_release_spec s request permit :
  wf s ->
  wp (release_request request permit) s (fun s' r =>
    if permit_error request permit false then
      r = Err (mkAuthorityError InvalidQuiescencePermit permit) /\ s' = s
    else match release_decision s (request_key request) with
    | Some e => r = Err (mkAuthorityError e permit) /\ s' = s
    | None => r = Ok (mkDetached request (permit_origin permit)) /\ wf s' /\
        released s s' (slot request)
          (sole_count s (slot request) (N.to_nat (rs_page_count (req_at s (slot request)))) 0) /\
        forall pos, pos < rs_page_count (req_at s (slot request)) ->
          (sole_page s (slot request) (pid_at (req_at s (slot request)) pos) = true <->
           forall j, j <> slot request ->
             ~ holds (req_at s j) (pid_index (pid_at (req_at s (slot request)) pos)))
    end).
Proof.
  intros Hwf. eapply wp_mono; [by apply release_request_wp|]. intros s' r. cbv beta.
  destruct (permit_error _ _ _); [done|]. destruct (release_decision _ _); [done|].
  intros (-> & Hwf' & Hr). split_and!; try done. intros pos Hpos. by apply sole_page_spec.
Qed.

Lemma kv_release_spec_witness :
  wf demo_pool /\
  exists s', release_request r0 permit0 demo_pool =
      Done s' (Ok (mkDetached r0 (CompletedExact 1))) /\
    wf s' /\ released demo_pool s' 0 2.
Proof.
  split; [exact demo_pool_wf|].
  pose proof (kv_release_spec demo_pool r0 permit0 demo_pool_wf) as H.
  apply wp_done in H as (s' & r & Hrun & H). exists s'. rewrite Hrun.
  assert (Hd : release_decision demo_pool (request_key r0) = None) by by vm_compute.
  assert (Hp : permit_error r0 permit0 false = false) by by vm_compute.
  rewrite Hp, Hd in H. cbv zeta in H. destruct H as (-> & Hwf & Ha & _).
  assert (Hn : sole_count demo_pool (slot r0)
    (N.to_nat (rs_page_count (req_at demo_pool (slot r0)))) 0 = 2) by by vm_compute.
  rewrite Hn in Ha. exact (conj eq_refl (conj Hwf Ha)).
Defined.

(** ** Reads *)

(** Token [t] of request [i] sits in an initialized slot of a current page. *)
Definition token_resident (s : KvPool) (i t : N) : Prop :=
  let pos := t / page_tokens s in
  let page := pid_at (req_at s i) pos in
  pos < rs_page_count (req_at s i) /\ pid_index page < page_limit s /\
  ps_generation (page_at s (pid_index page)) = pid_generation page /\
  t mod page_tokens s < ps_initialized_tokens (page_at s (pid_index page)).

Lemma resident_token s i t :
  wf s -> t < rs_resident_tokens (req_at s i) -> token_resident s i t.
Proof.
  intros Hwf Ht. unfold token_resident. cbv zeta.
  pose proof (wf_request s Hwf i) as Hr. destruct Hr. destruct (wf_shape s Hwf).
  pose proof (N.div_mod t (page_tokens s) ltac:(lia)) as Hdm.
  pose proof (N.mod_lt t (page_tokens s) ltac:(lia)) as Hml.
  assert (Hpos : t / page_tokens s < rs_page_count (req_at s i)).
  { apply N.Div0.div_lt_upper_bound. lia. }
  destruct (wf_entry s Hwf i _ Hpos) as [E1 E2 E3 _]. split_and!; [done..|].
  rewrite E3. revert Hdm Hml Ht. generalize (t mod page_tokens s). intros m Hdm Hml Ht. lia.
Qed.

(** A read is admitted exactly when its request is live and the whole range
    is resident, it changes nothing, and every token of an admitted range sits
    in an initialized slot of a page of the request's chain whose generation is
    still the one the chain recorded. *)
Theorem kv_read_initialized s request offset span :
  wf s ->
  wp (validate_read request offset span) s (fun s' r => s' = s /\
    match read_decision s (request_key request) offset span with
    | Some e => r = Err e
    | None => r = Ok tt /\
        forall t, offset <= t < offset + span -> token_resident s (slot request) t
    end).
Proof.
  intros Hwf. eapply wp_mono; [by apply validate_read_key_wp|]. intros s' r [-> ->]. cbv beta.
  split; [done|]. unfold read_decision. destruct (live_decision s (request_key request)); [done|].
  destruct (N.ltb_spec (rs_resident_tokens (req_at s (rk_slot (request_key request))))
    (offset + span)) as [|H]; [done|].
  split; [done|]. intros t Ht. apply resident_token; [done|]. simpl in H. lia.
Qed.

Lemma kv_read_initialized_witness :
  wf demo_pool /\
  (validate_read r0 2 5 demo_pool = Done demo_pool (Ok tt) /\ token_resident demo_pool 0 6) /\
  validate_read r0 3 5 demo_pool = Done demo_pool (Err ReadOutOfBounds).
Proof.
  split_and!; [exact demo_pool_wf| | |].
  - pose proof (kv_read_initialized demo_pool r0 2 5 demo_pool_wf) as H.
    apply wp_done in H as (s' & r & Hrun & -> & H). rewrite Hrun.
    assert (Hd : read_decision demo_pool (request_key r0) 2 5 = None) by by vm_compute.
    rewrite Hd in H. by destruct H as [-> H].
  - apply resident_token; [exact demo_pool_wf|by vm_compute].
  - pose proof (kv_read_initialized demo_pool r0 3 5 demo_pool_wf) as H.
    apply wp_done in H as (s' & r & Hrun & -> & H). rewrite Hrun.
    assert (Hd : read_decision demo_pool (request_key r0) 3 5 = Some ReadOutOfBounds)
      by by vm_compute.
    rewrite Hd in H. by rewrite H.
Defined.

(** ** Isolation and stale handles *)

(** C23: no operation reaches the tokens of a request other than the one it
    writes: the other request keeps its handle, its counters, its page chain,
    and every page of the chain keeps its generation, its initialized tokens
    and this request among its holders. *)
Theorem kv_isolation op s j :
  wf s -> op_width op -> j <> op_slot op ->
  wp (run_op op) s (fun s' _ =>
    req_at s' j = req_at s j /\
    forall pos, pos < rs_page_count (req_at s j) ->
      let p := pid_index (pid_at (req_at s j) pos) in
      ps_generation (page_at s' p) = ps_generation (page_at s p) /\
      ps_initialized_tokens (page_at s' p) = ps_initialized_tokens (page_at s p) /\
      N.testbit (ps_reference_mask (page_at s' p)) j = true).
Proof.
  intros Hwf Hw Hj. eapply wp_mono; [by apply run_op_wp|]. intros s' ok [Hwf' H]. cbv beta.
  assert (Hsame : req_at s' j = req_at s j /\ page_tokens s' = page_tokens s /\
    page_limit s' = page_limit s).
  { destruct ok; [|by subst]. destruct H as [[] _]. auto. }
  destruct Hsame as (Hreq & Ht & Hl). split; [done|]. intros pos Hpos. cbv zeta.
  destruct (wf_entry s Hwf j pos Hpos) as [E1 E2 E3 _].
  rewrite <- Hreq in Hpos. destruct (wf_entry s' Hwf' j pos Hpos) as [F1 F2 F3 _].
  rewrite Hreq, Ht in *. split_and!; [congruence..|].
  apply (wf_mask s' Hwf' _ j F1). rewrite Hreq. by exists pos.
Qed.

Lemma kv_isolation_witness :
  wf demo_pool /\
  wp (run_op (OpRelease r0 permit0)) demo_pool (fun s' _ =>
    req_at s' 1 = req_at demo_pool 1 /\
    ps_generation (page_at s' 0) = ps_generation (page_at demo_pool 0) /\
    ps_initialized_tokens (page_at s' 0) = 2).
Proof.
  split; [exact demo_pool_wf|].
  eapply wp_mono; [apply (kv_isolation (OpRelease r0 permit0) demo_pool 1 demo_pool_wf I);
    by vm_compute|].
  intros s' ok [H1 H2]. split; [exact H1|].
  assert (Hlt : 0 < rs_page_count (req_at demo_pool 1)) by by vm_compute.
  assert (Hp : pid_index (pid_at (req_at demo_pool 1) 0) = 0) by by vm_compute.
  assert (Hi : ps_initialized_tokens (page_at demo_pool 0) = 2) by by vm_compute.
  destruct (H2 0 Hlt) as (G1 & G2 & _). rewrite Hp in G1, G2. rewrite Hi in G2.
  exact (conj G1 G2).
Defined.

Definition op_uses (r : RequestId) (op : KvOp) : Prop :=
  match op with
  | OpCreate r' | OpAppend r' _ | OpFinalize r' _ _ | OpRelease r' _ | OpRead r' _ _ => r' = r
  | OpShare a b _ => a = r \/ b = r
  end.

Lemma abs_op_generation op v i : rv_generation (v i) <= rv_generation (abs_op op v i).
Proof.
  destruct op; simpl; unfold at_slot; try case_decide; simpl; try lia.
Qed.

Definition retired_handle (r : RequestId) (s : KvPool) : Prop :=
  generation r < rs_generation (req_at s (slot r)).

Lemma retired_handle_step r op s1 s2 ok :
  wf s1 -> retired_handle r s1 -> op_width op -> step_post op s1 s2 ok -> retired_handle r s2.
Proof.
  unfold retired_handle. intros _ Hr _ [_ H]. destruct ok; [|by subst].
  destruct H as [_ H]. pose proof (abs_op_generation op (view s1) (slot r)) as Hg.
  rewrite <- H in Hg. unfold view in Hg. simpl in Hg. lia.
Qed.

Lemma retired_handle_dead r s : retired_handle r s -> exists e, live_decision s (request_key r) = Some e.
Proof.
  unfold retired_handle, live_decision. simpl. intros H. 
  destruct (MAX_REQUEST_SLOTS <=? slot r); [eauto|].
  destruct (rs_live (req_at s (slot r))); simpl; [|eauto].
  destruct (N.eqb_spec (rs_generation (req_at s (slot r))) (generation r)); [lia|eauto].
Qed.

Lemma retired_handle_rejected r s op :
  wf s -> retired_handle r s -> op_width op -> op_uses r op -> run_op op s = Done s false.
Proof.
  intros Hwf Hr Hw Hu. destruct (retired_handle_dead r s Hr) as [e He].
  assert (Hc : exists e, create_decision s (request_key r) = Some e).
  { unfold create_decision, retired_handle in *. simpl.
    destruct (MAX_REQUEST_SLOTS <=? slot r); [eauto|].
    destruct (rs_live (req_at s (slot r))); [eauto|].
    destruct (N.eqb_spec (rs_generation (req_at s (slot r))) (generation r)); [lia|simpl; eauto]. }
  assert (H : wp (run_op op) s (fun s' ok => s' = s /\ ok = false)).
  { destruct op as [x|x n|a b n|x n p|x p|x o n]; simpl in *; subst; apply wp_bind.
    - destruct Hc as [e' Hc]. eapply wp_mono; [by apply create_request_key_wp|]. rewrite Hc.
      by intros s' x [-> ->].
    - eapply wp_mono; [by apply append_tentative_key_wp|]. unfold append_decision. rewrite He.
      by intros s' x [-> ->].
    - eapply wp_mono; [by apply share_committed_prefix_key_wp|].
      assert (exists e', share_decision s (request_key a) (request_key b) n = Some e') as [e' ->].
      { unfold share_decision. destruct Hu as [->| ->]; rewrite He; [eauto|].
        destruct (live_decision s (request_key a)); eauto. }
      by intros s' x [-> ->].
    - eapply wp_mono; [by apply finalize_tentative_wp|]. unfold finalize_decision. rewrite He.
      intros s' x. cbv beta. destruct (permit_error _ _ _); by intros [-> ->].
    - eapply wp_mono; [by apply release_request_wp|]. unfold release_decision. rewrite He.
      intros s' x. cbv beta. destruct (permit_error _ _ _); by intros [-> ->].
    - eapply wp_mono; [by apply validate_read_key_wp|]. unfold read_decision. rewrite He.
      by intros s' x [-> ->]. }
  unfold wp in H. destruct (run_op op s); [|done]. by destruct H as [-> ->].
Qed.

(** C24: once a request is released, its handle is rejected for ever: after any
    further sequence of operations, every operation that names the released
    handle (even a new creation) fails and changes nothing. *)
Theorem kv_released_handle_is_dead s r permit s1 done_ s2 op :
  wf s -> release_request r permit s = Done s1 (Ok done_) -> kv_reach s1 s2 ->
  op_width op -> op_uses r op -> run_op op s2 = Done s2 false.
Proof.
  intros Hwf Hrun Hreach Hw Hu.
  pose proof (release_request_wp s r permit Hwf) as H. unfold wp in H. rewrite Hrun in H.
  destruct (permit_error _ _ _); [by destruct H|].
  destruct (release_decision _ _) eqn:Ed; [by destruct H|].
  destruct H as (_ & Hwf1 & [_ _ Hg _ _ _ _ _ _]).
  assert (Hr1 : retired_handle r s1).
  { unfold retired_handle. rewrite Hg. unfold release_decision in Ed.
    destruct (live_decision s (request_key r)) eqn:El; [done|].
    apply live_decision_None in El as (_ & _ & El). simpl in El. lia. }
  destruct (reach_inv (retired_handle r) s1 s2 Hreach Hwf1 Hr1) as [Hwf2 Hr2].
  { intros op' t1 t2 ok Ht Hr. by apply retired_handle_step. }
  by apply (retired_handle_rejected r).
Qed.

Definition demo_released : KvPool := demo 8 2 16 (demo_script ++ [OpRelease r0 permit0]).

Lemma kv_released_handle_is_dead_witness :
  wf demo_pool /\
  release_request r0 permit0 demo_pool = Done demo_released (Ok (mkDetached r0 (CompletedExact 1))) /\
  run_op (OpAppend r0 1) demo_released = Done demo_released false.
Proof.
  assert (Hrun : release_request r0 permit0 demo_pool =
    Done demo_released (Ok (mkDetached r0 (CompletedExact 1)))) by by vm_compute.
  split_and!; [exact demo_pool_wf|exact Hrun|].
  exact (kv_released_handle_is_dead demo_pool r0 permit0 demo_released _ demo_released
    (OpAppend r0 1) demo_pool_wf Hrun (reach_refl _) I eq_refl).
Defined.
