(* ===== verification/Ring.v ===== *)
(** The fixed-capacity ring buffers of [scheduler.rs]: the two index helpers
    [advance] and [ring_tail], and the queue a ring represents, with the laws
    that pushing at the tail appends and popping at the head drops. *)
From S2P Require Import Prelude.
Local Open Scope prog_scope.

Definition advance {S} (C index : N) : M S N :=
  let! next := add_usize index 1 in
  if next =? C then ret 0 else add_usize index 1.

Definition ring_tail {S} (C head len : N) : M S N :=
  let! distance := sub_w C head in
  if len <? distance then add_usize head len else sub_w len distance.

(** The position [offset] places after [head]. *)
Definition ring_pos (C head offset : N) : N :=
  if head + offset <? C then head + offset else head + offset - C.

(** The queue in a ring: [len] entries from [head], oldest first. *)
Definition queue {A} (d : A) (C : N) (ring : list A) (head len : N) : list A :=
  (fun k => vnth d ring (ring_pos C head (N.of_nat k))) <$> seq 0 (N.to_nat len).

Section ring.
Context {A : Type} (d : A) (C : N).

Lemma ring_pos_lt head offset : head < C -> offset <= C -> ring_pos C head offset < C.
Proof. intros. unfold ring_pos. destruct (N.ltb_spec (head + offset) C); lia. Qed.

Lemma ring_pos_0 head : head < C -> ring_pos C head 0 = head.
Proof. intros. unfold ring_pos. destruct (N.ltb_spec (head + 0) C); lia. Qed.

Lemma ring_pos_add head a b :
  head < C -> a <= C -> a + b <= C -> ring_pos C (ring_pos C head a) b = ring_pos C head (a + b).
Proof.
  intros. unfold ring_pos. destruct (N.ltb_spec (head + a) C), (N.ltb_spec (head + (a + b)) C).
  all: match goal with |- context [?x <? C] => destruct (N.ltb_spec x C) end; lia.
Qed.

Lemma ring_pos_inj head a b :
  head < C -> a < C -> b < C -> ring_pos C head a = ring_pos C head b -> a = b.
Proof.
  intros. unfold ring_pos in *.
  destruct (N.ltb_spec (head + a) C), (N.ltb_spec (head + b) C); lia.
Qed.

Lemma wp_advance {S} index (s : S) (Q : S -> N -> Prop) :
  index < C -> C <= usize_max -> Q s (ring_pos C index 1) -> wp (advance C index) s Q.
Proof.
  intros Hi HC HQ. unfold advance. apply wp_bind, wp_add_usize; [lia|]. unfold ring_pos in HQ.
  destruct (N.eqb_spec (index + 1) C), (N.ltb_spec (index + 1) C); try lia.
  - apply wp_ret. by replace (index + 1 - C) with 0 in HQ by lia.
  - by apply wp_add_usize; [lia|].
Qed.

Lemma wp_ring_tail {S} head len (s : S) (Q : S -> N -> Prop) :
  head < C -> len <= C -> C <= usize_max -> Q s (ring_pos C head len) ->
  wp (ring_tail C head len) s Q.
Proof.
  intros Hh Hl HC HQ. unfold ring_tail. apply wp_bind, wp_sub_w; [lia|]. unfold ring_pos in HQ.
  destruct (N.ltb_spec len (C - head)), (N.ltb_spec (head + len) C); try lia.
  - by apply wp_add_usize; [lia|].
  - apply wp_sub_w; [lia|]. by replace (len - (C - head)) with (head + len - C) by lia.
Qed.

Lemma length_queue ring head len : length (queue d C ring head len) = N.to_nat len.
Proof. unfold queue. by rewrite length_fmap, length_seq. Qed.

Lemma vlen_queue ring head len : vlen (queue d C ring head len) = len.
Proof. unfold vlen. rewrite length_queue. lia. Qed.

Lemma queue_lookup ring head len k :
  k < len -> queue d C ring head len !! N.to_nat k = Some (vnth d ring (ring_pos C head k)).
Proof.
  intros Hk. unfold queue. rewrite list_lookup_fmap, lookup_seq_lt by lia. simpl.
  by rewrite N2Nat.id.
Qed.

Lemma elem_of_queue ring head len x :
  x ∈ queue d C ring head len <-> exists k, k < len /\ vnth d ring (ring_pos C head k) = x.
Proof.
  unfold queue. rewrite list_elem_of_fmap. setoid_rewrite elem_of_seq. split.
  - intros (k & -> & ?). exists (N.of_nat k). split; [lia|done].
  - intros (k & ? & <-). exists (N.to_nat k). rewrite N2Nat.id. split; [done|lia].
Qed.

Lemma queue_0 ring head : queue d C ring head 0 = [].
Proof. done. Qed.

(** Writing the slot after the last entry and extending the length appends. *)
Lemma queue_push ring head len x :
  head < C -> len < C -> vlen ring = C ->
  queue d C (vset ring (ring_pos C head len) x) head (len + 1) = queue d C ring head len ++ [x].
Proof.
  intros Hh Hl Hr. unfold queue. replace (N.to_nat (len + 1)) with (N.to_nat len + 1)%nat by lia.
  rewrite seq_app, fmap_app. f_equal.
  - apply list_fmap_ext. intros i k Hk. apply lookup_seq in Hk as [-> Hk].
    rewrite vnth_vset_ne; [done|]. intros Heq. apply ring_pos_inj in Heq; lia.
  - simpl. rewrite N2Nat.id, vnth_vset_eq; [done|]. rewrite Hr. apply ring_pos_lt; lia.
Qed.

(** Advancing the head by [n] drops the first [n] entries. *)
Lemma queue_drop ring head len n :
  head < C -> len <= C -> n <= len ->
  queue d C ring (ring_pos C head n) (len - n) = drop (N.to_nat n) (queue d C ring head len).
Proof.
  intros Hh Hl Hn. apply list_eq. intros i. rewrite lookup_drop. unfold queue.
  rewrite !list_lookup_fmap. destruct (decide (i < N.to_nat (len - n))%nat).
  - rewrite !lookup_seq_lt by lia. simpl. do 2 f_equal.
    rewrite ring_pos_add by lia. f_equal. lia.
  - rewrite !lookup_seq_ge by lia. done.
Qed.

Lemma queue_head ring head len :
  head < C -> 0 < len -> len <= C ->
  queue d C ring head len =
    vnth d ring head :: queue d C ring (ring_pos C head 1) (len - 1).
Proof.
  intros Hh Hl HC. rewrite queue_drop by lia.
  pose proof (queue_lookup ring head len 0 Hl) as H. rewrite ring_pos_0 in H by done.
  destruct (queue d C ring head len) as [|y q]; [done|]. by injection H as ->.
Qed.

(** Writing outside the queue leaves it. *)
Lemma queue_ext ring ring' head len :
  (forall k, k < len -> vnth d ring' (ring_pos C head k) = vnth d ring (ring_pos C head k)) ->
  queue d C ring' head len = queue d C ring head len.
Proof.
  intros H. apply list_fmap_ext. intros i k Hk. apply lookup_seq in Hk as [-> Hk]. apply H. lia.
Qed.
End ring.
