(* ===== verification/Scheduler.v ===== *)
(** The bounded scheduler of [crates/ferric-engine/src/scheduler.rs], translated
    statement by statement: the request slots, the four ring buffers (free
    slots, reclaimable slots, batch members, pending batches) and every
    operation.  [C] is the const generic capacity. *)
From S2P Require Import Prelude Spec KvPool Ring.
Import Spec.Completion Spec.Lifecycle.
Local Open Scope prog_scope.

Definition NO_EPOCH : N := 0.
Definition M1_MAX_ACTIVE_SEQUENCES : N := 32.

Definition slot_index_to_u32 (slot_index : N) : N :=
  if slot_index <=? u32_max then slot_index else u32_max.

Record Slot := mkSlot {
  sl_generation : N;
  sl_state : RequestState;
  sl_active_epoch : N;
  sl_last_quiescent_epoch : N;
  sl_in_free_ring : bool;
  sl_in_reclaim_ring : bool
}.

Definition Slot_INITIAL : Slot := mkSlot 1 Vacant NO_EPOCH NO_EPOCH true false.

Record BatchRecord := mkBatchRecord { br_epoch : CompletionEpoch; br_member_count : N }.

Definition BatchRecord_EMPTY : BatchRecord := mkBatchRecord (mkEpoch 0) 0.

Record DispatchBatch := mkDispatchBatch { db_epoch : CompletionEpoch; db_member_count : N }.

Record M1ScheduledDispatchV1 := mkScheduledDispatch {
  sd_batch : DispatchBatch;
  sd_members : list (option RequestId)
}.

Inductive SchedulerError :=
| ZeroCapacity
| CapacityExceedsKvSlots
| OutOfSlots
| EmptyBatchStorage
| CompletionStorageTooSmall
| CompletionStorageNotEmpty
| SubmissionEpochExhausted
| InvalidSlot
| StaleRequest
| RequestNotLive
| AlreadyRetiring
| NoPendingBatch
| CompletionNotExactNext
| CompletionEpochMismatch
| FinalizationMismatch
| DetachmentMismatch
| GenerationExhausted
| InvariantViolation.

Module M1ExactDispatchErrorV1.
Inductive M1ExactDispatchErrorV1 :=
| Faulted
| EmptyRoster
| RosterTooLarge (maximum actual : N)
| DuplicateRequest (first_lane lane : N)
| MissingRequest (lane : N) (request : RequestId)
| RequestNotReady (lane : N) (request : RequestId) (state : RequestState)
| SubmissionEpochExhausted
| EpochMismatch (expected actual : CompletionEpoch)
| PendingBatchCapacityExhausted
| PendingMemberCapacityExceeded (available actual : N).
End M1ExactDispatchErrorV1.

(** [epoch.rs] *)
Record ExactCompletion := mkExactCompletion { ec_epoch : CompletionEpoch }.

Record CompletionFailure := mkCompletionFailure {
  cf_error : SchedulerError;
  cf_completion : ExactCompletion
}.

Record Scheduler := mkScheduler {
  slots : list Slot;
  free_ring : list N;
  free_head : N;
  free_count : N;
  reclaim_ring : list N;
  reclaim_head : N;
  reclaim_len : N;
  member_ring : list RequestId;
  member_head : N;
  member_len : N;
  batch_ring : list BatchRecord;
  batch_head : N;
  batch_len : N;
  cursor : N;
  submitted : N;
  completed : N;
  live_count : N
}.

(** ** Field assignment *)
Definition put_slots v s := mkScheduler v (free_ring s) (free_head s) (free_count s)
  (reclaim_ring s) (reclaim_head s) (reclaim_len s) (member_ring s) (member_head s) (member_len s)
  (batch_ring s) (batch_head s) (batch_len s) (cursor s) (submitted s) (completed s) (live_count s).
Definition put_free ring head len s := mkScheduler (slots s) ring head len
  (reclaim_ring s) (reclaim_head s) (reclaim_len s) (member_ring s) (member_head s) (member_len s)
  (batch_ring s) (batch_head s) (batch_len s) (cursor s) (submitted s) (completed s) (live_count s).
Definition put_reclaim ring head len s := mkScheduler (slots s) (free_ring s) (free_head s)
  (free_count s) ring head len (member_ring s) (member_head s) (member_len s)
  (batch_ring s) (batch_head s) (batch_len s) (cursor s) (submitted s) (completed s) (live_count s).
Definition put_members ring head len s := mkScheduler (slots s) (free_ring s) (free_head s)
  (free_count s) (reclaim_ring s) (reclaim_head s) (reclaim_len s) ring head len
  (batch_ring s) (batch_head s) (batch_len s) (cursor s) (submitted s) (completed s) (live_count s).
Definition put_batches ring head len s := mkScheduler (slots s) (free_ring s) (free_head s)
  (free_count s) (reclaim_ring s) (reclaim_head s) (reclaim_len s) (member_ring s) (member_head s)
  (member_len s) ring head len (cursor s) (submitted s) (completed s) (live_count s).
Definition put_scalars c sub comp live s := mkScheduler (slots s) (free_ring s) (free_head s)
  (free_count s) (reclaim_ring s) (reclaim_head s) (reclaim_len s) (member_ring s) (member_head s)
  (member_len s) (batch_ring s) (batch_head s) (batch_len s) c sub comp live.

Definition put_free_ring v s := put_free v (free_head s) (free_count s) s.
Definition put_reclaim_ring v s := put_reclaim v (reclaim_head s) (reclaim_len s) s.
Definition put_member_ring v s := put_members v (member_head s) (member_len s) s.
Definition put_batch_ring v s := put_batches v (batch_head s) (batch_len s) s.
Definition put_free_head v s := put_free (free_ring s) v (free_count s) s.
Definition put_free_count v s := put_free (free_ring s) (free_head s) v s.
Definition put_reclaim_head v s := put_reclaim (reclaim_ring s) v (reclaim_len s) s.
Definition put_reclaim_len v s := put_reclaim (reclaim_ring s) (reclaim_head s) v s.
Definition put_member_head v s := put_members (member_ring s) v (member_len s) s.
Definition put_member_len v s := put_members (member_ring s) (member_head s) v s.
Definition put_batch_head v s := put_batches (batch_ring s) v (batch_len s) s.
Definition put_batch_len v s := put_batches (batch_ring s) (batch_head s) v s.
Definition put_cursor v s := put_scalars v (submitted s) (completed s) (live_count s) s.
Definition put_submitted v s := put_scalars (cursor s) v (completed s) (live_count s) s.
Definition put_completed v s := put_scalars (cursor s) (submitted s) v (live_count s) s.
Definition put_live_count v s := put_scalars (cursor s) (submitted s) (completed s) v s.

Definition set_sl_state v sl := mkSlot (sl_generation sl) v (sl_active_epoch sl)
  (sl_last_quiescent_epoch sl) (sl_in_free_ring sl) (sl_in_reclaim_ring sl).
Definition set_sl_active v sl := mkSlot (sl_generation sl) (sl_state sl) v
  (sl_last_quiescent_epoch sl) (sl_in_free_ring sl) (sl_in_reclaim_ring sl).
Definition set_sl_quiescent v sl := mkSlot (sl_generation sl) (sl_state sl) (sl_active_epoch sl)
  v (sl_in_free_ring sl) (sl_in_reclaim_ring sl).
Definition set_sl_in_free v sl := mkSlot (sl_generation sl) (sl_state sl) (sl_active_epoch sl)
  (sl_last_quiescent_epoch sl) v (sl_in_reclaim_ring sl).
Definition set_sl_in_reclaim v sl := mkSlot (sl_generation sl) (sl_state sl) (sl_active_epoch sl)
  (sl_last_quiescent_epoch sl) (sl_in_free_ring sl) v.

Definition read_slot (i : N) : M Scheduler Slot := read_at slots i.
Definition update_slot (i : N) (g : Slot -> Slot) : M Scheduler unit := update_at slots put_slots i g.

Section scheduler.
Context (C : N).

(** ** Construction *)
Fixpoint fill_free_ring {S} (fuel : nat) (index : N) (ring : list N) : M S (list N) :=
  match fuel with
  | O => ret ring
  | Datatypes.S fuel' =>
      if index <? C then
        let! ring' := slice_set ring index index in
        let! next := add_usize index 1 in
        fill_free_ring fuel' next ring'
      else ret ring
  end.

Definition new {S} : M S (result Scheduler SchedulerError) :=
  if C =? 0 then ret (Err ZeroCapacity)
  else if MAX_REQUEST_SLOTS <? C then ret (Err CapacityExceedsKvSlots)
  else
    let! ring := fill_free_ring (N.to_nat C) 0 (vfill C 0) in
    ret (Ok (mkScheduler (vfill C Slot_INITIAL) ring 0 C (vfill C 0) 0 0
      (vfill C (mkRequestId 0 0)) 0 0 (vfill C BatchRecord_EMPTY) 0 0 0 0 0 0)).

(** ** Observations *)
Definition capacity (self : Scheduler) : N := C.

Definition completed_epoch (self : Scheduler) : CompletionEpoch := mkEpoch (completed self).

Definition pending_batch_member_count : M Scheduler N :=
  let! len := gets batch_len in
  if len =? 0 then ret 0
  else
    let! head := gets batch_head in
    let! batch := read_at batch_ring head in
    ret (br_member_count batch).

Definition pending_member (offset : N) : M Scheduler (option RequestId) :=
  let! len := gets batch_len in
  if len =? 0 then ret None
  else
    let! head := gets batch_head in
    let! batch := read_at batch_ring head in
    if br_member_count batch <=? offset then ret None
    else
      let! mhead := gets member_head in
      let! position := ring_tail C mhead offset in
      let! member := read_at member_ring position in
      ret (Some member).

Definition pending_retirement_ready (offset : N) (request : RequestId) (epoch : CompletionEpoch) :
    M Scheduler bool :=
  let! member := pending_member offset in
  if bool_decide (member <> Some request) || (C <=? slot request) then ret false
  else
    let! sl := read_slot (slot request) in
    ret ((sl_generation sl =? generation request) &&
         bool_decide (sl_state sl = Retiring) &&
         (sl_active_epoch sl =? value epoch) &&
         negb (sl_in_reclaim_ring sl) &&
         (sl_generation sl <? u32_max)).

(** [pub fn state]: the state of a live handle. *)
Definition request_state (request : RequestId) : M Scheduler (option RequestState) :=
  if C <=? slot request then ret None
  else
    let! sl := read_slot (slot request) in
    ret (if sl_generation sl =? generation request then
           match sl_state sl with
           | Vacant => None
           | Ready | InFlight | Retiring => Some (sl_state sl)
           end
         else None).

(** ** Admission *)
Definition admit_available (slot_index : N) : M Scheduler RequestId :=
  let! sl := read_slot slot_index in
  let! head := gets free_head in
  let! head' := advance C head in
  modify (put_free_head head') ;;
  let! len := gets free_count in
  let! len' := sub_w len 1 in
  modify (put_free_count len') ;;
  update_slot slot_index (set_sl_state Ready) ;;
  update_slot slot_index (set_sl_in_free false) ;;
  let! live := gets live_count in
  let! live' := add_usize live 1 in
  modify (put_live_count live') ;;
  ret (mkRequestId (slot_index_to_u32 slot_index) (sl_generation sl)).

Definition admit_established : M Scheduler RequestId :=
  let! head := gets free_head in
  let! slot_index := read_at free_ring head in
  admit_available slot_index.

Definition admit_request : M Scheduler (result RequestId SchedulerError) :=
  let! len := gets free_count in
  if len =? 0 then ret (Err OutOfSlots)
  else
    let! request := admit_established in
    ret (Ok request).

(** ** Retirement *)
Definition retire_inflight (slot_index : N) : M Scheduler unit :=
  update_slot slot_index (set_sl_state Retiring).

Definition retire_ready (slot_index : N) : M Scheduler unit :=
  let! head := gets reclaim_head in
  let! len := gets reclaim_len in
  let! tail := ring_tail C head len in
  update_at reclaim_ring put_reclaim_ring tail (fun _ => slot_index) ;;
  let! len' := add_usize len 1 in
  modify (put_reclaim_len len') ;;
  update_slot slot_index (set_sl_state Retiring) ;;
  update_slot slot_index (set_sl_active NO_EPOCH) ;;
  update_slot slot_index (set_sl_in_reclaim true).

Definition retire (request : RequestId) : M Scheduler (result unit SchedulerError) :=
  let slot_index := slot request in
  if C <=? slot_index then ret (Err InvalidSlot)
  else
    let! sl := read_slot slot_index in
    if negb (sl_generation sl =? generation request) then ret (Err StaleRequest)
    else
      match sl_state sl with
      | Vacant => ret (Err RequestNotLive)
      | Retiring => ret (Err AlreadyRetiring)
      | InFlight => retire_inflight slot_index ;; ret (Ok tt)
      | Ready => retire_ready slot_index ;; ret (Ok tt)
      end.

(** ** Dispatch in cursor order *)
Definition dispatch_one_selected (output : list RequestId) (selected slot_index member_tail
    next_epoch : N) : M Scheduler (list RequestId) :=
  let! sl := read_slot slot_index in
  let handle := mkRequestId (slot_index_to_u32 slot_index) (sl_generation sl) in
  let! output' := slice_set output selected handle in
  update_at member_ring put_member_ring member_tail (fun _ => handle) ;;
  update_slot slot_index (set_sl_state InFlight) ;;
  update_slot slot_index (set_sl_active next_epoch) ;;
  ret output'.

Definition dispatch_preflight (output : list RequestId) :
    M Scheduler (result (option (N * N)) SchedulerError) :=
  if vlen output =? 0 then ret (Err EmptyBatchStorage)
  else
    let! sub := gets submitted in
    match checked_add u64_max sub 1 with
    | None => ret (Err SubmissionEpochExhausted)
    | Some next_epoch =>
        let! blen := gets batch_len in
        let! mlen := gets member_len in
        if (blen =? C) || (mlen =? C) then ret (Ok None)
        else
          let! available_members := sub_w C mlen in
          let limit := if vlen output <? available_members then vlen output else available_members in
          ret (Ok (Some (next_epoch, limit)))
    end.

(** [while scanned < C && selected < limit]; [fuel] bounds the iterations. *)
Fixpoint dispatch_scan (fuel : nat) (output : list RequestId)
    (limit next_epoch slot_index scanned selected member_tail : N) :
    M Scheduler (N * N * list RequestId) :=
  match fuel with
  | O => ret (selected, slot_index, output)
  | Datatypes.S fuel' =>
      if (scanned <? C) && (selected <? limit) then
        let! sl := read_slot slot_index in
        let! step :=
          (match sl_state sl with
           | Ready =>
               let! output' := dispatch_one_selected output selected slot_index member_tail next_epoch in
               let! member_tail' := advance C member_tail in
               let! selected' := add_usize selected 1 in
               ret (output', member_tail', selected')
           | Vacant | InFlight | Retiring => ret (output, member_tail, selected)
           end) in
        let '(output', member_tail', selected') := step in
        let! slot_index' := advance C slot_index in
        let! scanned' := add_usize scanned 1 in
        dispatch_scan fuel' output' limit next_epoch slot_index' scanned' selected' member_tail'
      else ret (selected, slot_index, output)
  end.

Definition dispatch_scan_commit (output : list RequestId) (limit next_epoch : N) :
    M Scheduler (N * N * list RequestId) :=
  let! mhead := gets member_head in
  let! mlen := gets member_len in
  let! member_start := ring_tail C mhead mlen in
  let! cur := gets cursor in
  dispatch_scan (N.to_nat C) output limit next_epoch cur 0 0 member_start.

(** The batch record and the counters a dispatch commits. *)
Definition dispatch_enabled (output : list RequestId) (next_epoch limit : N) :
    M Scheduler (option DispatchBatch * list RequestId) :=
  let! scan := dispatch_scan_commit output limit next_epoch in
  let '(selected, slot_index, output') := scan in
  if selected =? 0 then ret (None, output')
  else
    let! bhead := gets batch_head in
    let! blen := gets batch_len in
    let! batch_tail := ring_tail C bhead blen in
    update_at batch_ring put_batch_ring batch_tail
      (fun _ => mkBatchRecord (mkEpoch next_epoch) selected) ;;
    let! blen' := add_usize blen 1 in
    modify (put_batch_len blen') ;;
    let! mlen := gets member_len in
    let! mlen' := add_usize mlen selected in
    modify (put_member_len mlen') ;;
    modify (put_cursor slot_index) ;;
    modify (put_submitted next_epoch) ;;
    ret (Some (mkDispatchBatch (mkEpoch next_epoch) selected), output').

(** The caller's slice is returned with its new contents. *)
Definition dispatch_ready (output : list RequestId) :
    M Scheduler (result (option DispatchBatch) SchedulerError * list RequestId) :=
  let! pre := dispatch_preflight output in
  match pre with
  | Err error => ret (Err error, output)
  | Ok None => ret (Ok None, output)
  | Ok (Some (next_epoch, limit)) =>
      let! res := dispatch_enabled output next_epoch limit in
      let '(batch, output') := res in
      ret (Ok batch, output')
  end.

(** ** Dispatch of an exact roster *)
Fixpoint dispatch_exact_loop (lanes : nat) (requests : list RequestId) (next_epoch lane
    member_tail : N) : M Scheduler unit :=
  match lanes with
  | O => ret tt
  | Datatypes.S lanes' =>
      let! request := slice_at requests lane in
      let slot_index := slot request in
      update_slot slot_index (set_sl_state InFlight) ;;
      update_slot slot_index (set_sl_active next_epoch) ;;
      update_at member_ring put_member_ring member_tail (fun _ => request) ;;
      let! member_tail' := advance C member_tail in
      let! lane' := add_usize lane 1 in
      dispatch_exact_loop lanes' requests next_epoch lane' member_tail'
  end.

Definition dispatch_exact_commit (requests : list RequestId) (next_epoch : N) :
    M Scheduler DispatchBatch :=
  let! mhead := gets member_head in
  let! mlen := gets member_len in
  let! member_tail := ring_tail C mhead mlen in
  dispatch_exact_loop (length requests) requests next_epoch 0 member_tail ;;
  let! bhead := gets batch_head in
  let! blen := gets batch_len in
  let! batch_tail := ring_tail C bhead blen in
  let batch := mkDispatchBatch (mkEpoch next_epoch) (vlen requests) in
  update_at batch_ring put_batch_ring batch_tail
    (fun _ => mkBatchRecord (db_epoch batch) (db_member_count batch)) ;;
  let! blen' := add_usize blen 1 in
  modify (put_batch_len blen') ;;
  let! mlen0 := gets member_len in
  let! mlen' := add_usize mlen0 (vlen requests) in
  modify (put_member_len mlen') ;;
  modify (put_submitted next_epoch) ;;
  ret batch.

(** [while first_lane < lane] *)
Fixpoint duplicate_scan {S} (fuel : nat) (requests : list RequestId) (request : RequestId)
    (lane first_lane : N) : M S (option N) :=
  match fuel with
  | O => ret None
  | Datatypes.S fuel' =>
      if first_lane <? lane then
        let! other := slice_at requests first_lane in
        if slot other =? slot request then ret (Some first_lane)
        else
          let! next := add_usize first_lane 1 in
          duplicate_scan fuel' requests request lane next
      else ret None
  end.

(** [while lane < requests.len()] *)
Fixpoint roster_check (lanes : nat) (requests : list RequestId) (lane : N) :
    M Scheduler (result unit M1ExactDispatchErrorV1.M1ExactDispatchErrorV1) :=
  match lanes with
  | O => ret (Ok tt)
  | Datatypes.S lanes' =>
      let! request := slice_at requests lane in
      let! duplicate := duplicate_scan (N.to_nat lane) requests request lane 0 in
      match duplicate with
      | Some first_lane => ret (Err (M1ExactDispatchErrorV1.DuplicateRequest first_lane lane))
      | None =>
          let! st := request_state request in
          match st with
          | None => ret (Err (M1ExactDispatchErrorV1.MissingRequest lane request))
          | Some Ready =>
              let! next := add_usize lane 1 in
              roster_check lanes' requests next
          | Some state => ret (Err (M1ExactDispatchErrorV1.RequestNotReady lane request state))
          end
      end
  end.

Fixpoint copy_selected {S} (lanes : nat) (requests : list RequestId) (lane : N)
    (selected : list RequestId) : M S (list RequestId) :=
  match lanes with
  | O => ret selected
  | Datatypes.S lanes' =>
      let! request := slice_at requests lane in
      let! selected' := slice_set selected lane request in
      let! next := add_usize lane 1 in
      copy_selected lanes' requests next selected'
  end.

Fixpoint fill_members {S} (count : nat) (selected : list RequestId) (index : N)
    (members : list (option RequestId)) : M S (list (option RequestId)) :=
  match count with
  | O => ret members
  | Datatypes.S count' =>
      let! request := slice_at selected index in
      let! members' := slice_set members index (Some request) in
      let! next := add_usize index 1 in
      fill_members count' selected next members'
  end.

Definition from_dispatch_batch {S} (batch : DispatchBatch) (selected : list RequestId) :
    M S M1ScheduledDispatchV1 :=
  let! members := fill_members (N.to_nat (db_member_count batch)) selected 0
                    (vfill M1_MAX_ACTIVE_SEQUENCES None) in
  ret (mkScheduledDispatch batch members).

Definition dispatch_m1_exact_ready (expected_epoch : CompletionEpoch) (requests : list RequestId) :
    M Scheduler (result M1ScheduledDispatchV1 M1ExactDispatchErrorV1.M1ExactDispatchErrorV1) :=
  if vlen requests =? 0 then ret (Err M1ExactDispatchErrorV1.EmptyRoster)
  else if M1_MAX_ACTIVE_SEQUENCES <? vlen requests then
    ret (Err (M1ExactDispatchErrorV1.RosterTooLarge M1_MAX_ACTIVE_SEQUENCES (vlen requests)))
  else
    let! sub := gets submitted in
    match checked_add u64_max sub 1 with
    | None => ret (Err M1ExactDispatchErrorV1.SubmissionEpochExhausted)
    | Some next =>
        let next_epoch := mkEpoch next in
        if bool_decide (expected_epoch <> next_epoch) then
          ret (Err (M1ExactDispatchErrorV1.EpochMismatch next_epoch expected_epoch))
        else
          let! blen := gets batch_len in
          if blen =? C then ret (Err M1ExactDispatchErrorV1.PendingBatchCapacityExhausted)
          else
            let! mlen := gets member_len in
            let! available_members := sub_w C mlen in
            if available_members <? vlen requests then
              ret (Err (M1ExactDispatchErrorV1.PendingMemberCapacityExceeded available_members
                          (vlen requests)))
            else
              let? _ := roster_check (length requests) requests 0 in
              let! selected := copy_selected (length requests) requests 0
                                 (vfill M1_MAX_ACTIVE_SEQUENCES (mkRequestId 0 0)) in
              let! batch := dispatch_exact_commit requests next in
              let! dispatch := from_dispatch_batch batch selected in
              ret (Ok dispatch)
    end.

(** ** Exact completion *)
Fixpoint completion_preflight_loop (count : nat) (observed : N)
    (permits : list (option KvQuiescencePermit)) (checked check_head : N) :
    M Scheduler (result unit SchedulerError) :=
  match count with
  | O => ret (Ok tt)
  | Datatypes.S count' =>
      let! permit := slice_at permits checked in
      match permit with
      | Some _ => ret (Err CompletionStorageNotEmpty)
      | None =>
          let! handle := read_at member_ring check_head in
          if C <=? slot handle then ret (Err InvariantViolation)
          else
            let! sl := read_slot (slot handle) in
            if negb (sl_generation sl =? generation handle) || negb (sl_active_epoch sl =? observed)
            then ret (Err InvariantViolation)
            else
              match sl_state sl with
              | InFlight | Retiring =>
                  let! check_head' := advance C check_head in
                  let! checked' := add_usize checked 1 in
                  completion_preflight_loop count' observed permits checked' check_head'
              | Vacant | Ready => ret (Err InvariantViolation)
              end
      end
  end.

Definition completion_preflight (batch : BatchRecord) (observed : N)
    (permits : list (option KvQuiescencePermit)) : M Scheduler (result unit SchedulerError) :=
  let! head := gets member_head in
  completion_preflight_loop (N.to_nat (br_member_count batch)) observed permits 0 head.

(** [while processed < batch.member_count]: the new head and the filled permits. *)
Fixpoint complete_loop (count : nat) (observed processed head : N)
    (permits : list (option KvQuiescencePermit)) :
    M Scheduler (N * list (option KvQuiescencePermit)) :=
  match count with
  | O => ret (head, permits)
  | Datatypes.S count' =>
      let! handle := read_at member_ring head in
      let! permits' := slice_set permits processed (Some (mkPermit handle (CompletedExact observed))) in
      let! head' := advance C head in
      let! processed' := add_usize processed 1 in
      complete_loop count' observed processed' head' permits'
  end.

Definition complete_exact (completion : ExactCompletion)
    (permits : list (option KvQuiescencePermit)) :
    M Scheduler (result N CompletionFailure * list (option KvQuiescencePermit)) :=
  let fail error := ret (Err (mkCompletionFailure error completion), permits) in
  let! blen := gets batch_len in
  if blen =? 0 then fail NoPendingBatch
  else
    let! comp := gets completed in
    match checked_add u64_max comp 1 with
    | None => fail CompletionNotExactNext
    | Some expected =>
        let observed := value (ec_epoch completion) in
        if negb (observed =? expected) then fail CompletionNotExactNext
        else
          let! bhead := gets batch_head in
          let! batch := read_at batch_ring bhead in
          if negb (value (br_epoch batch) =? observed) || (br_member_count batch =? 0) then
            fail CompletionEpochMismatch
          else if vlen permits <? br_member_count batch then fail CompletionStorageTooSmall
          else
            let! pre := completion_preflight batch observed permits in
            match pre with
            | Err error => fail error
            | Ok _ =>
                let! head := gets member_head in
                let! res := complete_loop (N.to_nat (br_member_count batch)) observed 0 head permits in
                let '(head', permits') := res in
                modify (put_member_head head') ;;
                let! mlen := gets member_len in
                let! mlen' := sub_w mlen (br_member_count batch) in
                modify (put_member_len mlen') ;;
                let! bhead0 := gets batch_head in
                let! bhead' := advance C bhead0 in
                modify (put_batch_head bhead') ;;
                let! blen0 := gets batch_len in
                let! blen' := sub_w blen0 1 in
                modify (put_batch_len blen') ;;
                modify (put_completed observed) ;;
                ret (Ok (br_member_count batch), permits')
            end
    end.

(** ** Retired requests without outstanding work *)
Definition preflight_next_reincarnation : M Scheduler (result RequestId SchedulerError) :=
  let! len := gets reclaim_len in
  if len =? 0 then ret (Err DetachmentMismatch)
  else
    let! head := gets reclaim_head in
    let! slot_index := read_at reclaim_ring head in
    let! sl := read_slot slot_index in
    if sl_generation sl =? u32_max then ret (Err GenerationExhausted)
    else ret (Ok (mkRequestId (slot_index_to_u32 slot_index) (sl_generation sl))).

Definition take_retiring_permit :
    M Scheduler (result (option KvQuiescencePermit) SchedulerError) :=
  let! len := gets reclaim_len in
  if len =? 0 then ret (Ok None)
  else
    let! head := gets reclaim_head in
    let! slot_index := read_at reclaim_ring head in
    if C <=? slot_index then ret (Err InvariantViolation)
    else
      let! sl := read_slot slot_index in
      match sl_state sl with
      | Retiring =>
          if negb (sl_active_epoch sl =? NO_EPOCH) then ret (Err InvariantViolation)
          else if negb (sl_in_reclaim_ring sl) then ret (Err InvariantViolation)
          else
            let! head' := advance C head in
            modify (put_reclaim_head head') ;;
            let! len' := sub_w len 1 in
            modify (put_reclaim_len len') ;;
            update_slot slot_index (set_sl_in_reclaim false) ;;
            let request := mkRequestId (slot_index_to_u32 slot_index) (sl_generation sl) in
            let origin := if sl_last_quiescent_epoch sl =? NO_EPOCH then NeverSubmitted
                          else CompletedExact (sl_last_quiescent_epoch sl) in
            ret (Ok (Some (mkPermit request origin)))
      | Vacant | Ready | InFlight => ret (Err InvariantViolation)
      end.

(** ** Accepting finalized KV *)
Definition finalized_origin_epoch {S} (finalized : KvFinalizedRequest) :
    M S (result N SchedulerError) :=
  match finalized_origin finalized with
  | CompletedExact epoch => ret (Ok epoch)
  | NeverSubmitted => ret (Err FinalizationMismatch)
  end.

Definition finalized_request_preflight (request : RequestId) (epoch : N) :
    M Scheduler (result unit SchedulerError) :=
  let slot_index := slot request in
  if C <=? slot_index then ret (Err InvalidSlot)
  else
    let! sl := read_slot slot_index in
    let! comp := gets completed in
    if negb (sl_generation sl =? generation request) then ret (Err FinalizationMismatch)
    else
      match sl_state sl with
      | InFlight =>
          if sl_active_epoch sl =? NO_EPOCH then ret (Err FinalizationMismatch)
          else if comp <? sl_active_epoch sl then ret (Err FinalizationMismatch)
          else if negb (sl_active_epoch sl =? epoch) then ret (Err FinalizationMismatch)
          else ret (Ok tt)
      | Vacant | Ready | Retiring => ret (Err FinalizationMismatch)
      end.

Definition finalized_preflight (finalized : KvFinalizedRequest) :
    M Scheduler (result (RequestId * N) SchedulerError) :=
  let request := finalized_request finalized in
  let? epoch := finalized_origin_epoch finalized in
  let? _ := finalized_request_preflight request epoch in
  ret (Ok (request, epoch)).

Definition finalize_slot (request : RequestId) (epoch : N) : M Scheduler unit :=
  let slot_index := slot request in
  update_slot slot_index (set_sl_state Ready) ;;
  update_slot slot_index (set_sl_active NO_EPOCH) ;;
  update_slot slot_index (set_sl_quiescent epoch).

Definition accept_finalized (finalized : KvFinalizedRequest) :
    M Scheduler (result unit SchedulerError) :=
  let? validated := finalized_preflight finalized in
  finalize_slot (fst validated) (snd validated) ;;
  ret (Ok tt).

(** ** Reclaiming detached requests *)
Definition reclaim_next_generation (slot_index : N) : M Scheduler (result N SchedulerError) :=
  let! sl := read_slot slot_index in
  if sl_generation sl =? u32_max then ret (Err GenerationExhausted)
  else
    let! next := add32 (sl_generation sl) 1 in
    ret (Ok next).

Definition origin_matches (sl : Slot) (origin : KvQuiescenceOrigin) (comp : N) : bool :=
  match origin with
  | NeverSubmitted => (sl_active_epoch sl =? NO_EPOCH) && (sl_last_quiescent_epoch sl =? NO_EPOCH)
  | CompletedExact epoch =>
      (negb (sl_active_epoch sl =? NO_EPOCH) && (sl_active_epoch sl =? epoch) && (epoch <=? comp))
      || ((sl_active_epoch sl =? NO_EPOCH) && (sl_last_quiescent_epoch sl =? epoch))
  end.

Definition detached_preflight (detached : KvDetachedRequest) :
    M Scheduler (result (RequestId * N) SchedulerError) :=
  let request := detached_request detached in
  let slot_index := slot request in
  if C <=? slot_index then ret (Err InvalidSlot)
  else
    let! sl := read_slot slot_index in
    let! comp := gets completed in
    let matches := origin_matches sl (detached_origin detached) comp in
    if negb (sl_generation sl =? generation request) then ret (Err DetachmentMismatch)
    else
      match sl_state sl with
      | Retiring =>
          if sl_in_reclaim_ring sl || negb matches then ret (Err DetachmentMismatch)
          else
            let? next_generation := reclaim_next_generation slot_index in
            let! len := gets free_count in
            if len =? C then ret (Err InvariantViolation)
            else ret (Ok (request, next_generation))
      | Vacant | Ready | InFlight => ret (Err DetachmentMismatch)
      end.

Definition reclaim_slot (request : RequestId) (next_generation : N) : M Scheduler RequestId :=
  let slot_index := slot request in
  let! head := gets free_head in
  let! len := gets free_count in
  let! free_tail := ring_tail C head len in
  update_at free_ring put_free_ring free_tail (fun _ => slot_index) ;;
  let! len' := add_usize len 1 in
  modify (put_free_count len') ;;
  update_slot slot_index (fun _ => mkSlot next_generation Vacant NO_EPOCH NO_EPOCH true false) ;;
  let! live := gets live_count in
  let! live' := sub_w live 1 in
  modify (put_live_count live') ;;
  ret request.

Definition reclaim_detached (detached : KvDetachedRequest) :
    M Scheduler (result RequestId SchedulerError) :=
  let? validated := detached_preflight detached in
  let! request := reclaim_slot (fst validated) (snd validated) in
  ret (Ok request).

Definition reincarnate_detached (detached : KvDetachedRequest) : M Scheduler RequestId :=
  let predecessor := detached_request detached in
  let slot_index := slot predecessor in
  let! next := reclaim_next_generation slot_index in
  let next_generation := match next with Ok g => g | Err _ => 1 end in
  update_slot slot_index (fun _ => mkSlot next_generation Ready NO_EPOCH NO_EPOCH false false) ;;
  ret (mkRequestId (slot_index_to_u32 slot_index) next_generation).

End scheduler.
