(* ===== verification/SchedSpec.v ===== *)
(** The abstract scheduler: the same slots, with plain queues in place of the
    ring buffers, and the operations as pure functions.  It is what the
    scheduler of [Scheduler.v] promises; [SchedOps.v] proves that it keeps the
    promise, and this file that the promise keeps the invariant. *)
From S2P Require Import Prelude Spec.
Import Spec.Completion Spec.Lifecycle.
From S2P Require Import KvPool Ring Scheduler.

Record AbsSched := mkAbs {
  a_slots : list Slot;
  a_free : list N;
  a_reclaim : list N;
  a_members : list RequestId;
  a_batches : list BatchRecord;
  a_cursor : N;
  a_submitted : N;
  a_completed : N;
  a_live : N
}.

Definition slot_of (l : list Slot) (i : N) : Slot := vnth Slot_INITIAL l i.
Definition a_slot (a : AbsSched) (i : N) : Slot := slot_of (a_slots a) i.
Definition handle_at (l : list Slot) (i : N) : RequestId := mkRequestId i (sl_generation (slot_of l i)).

(** The abstraction of a concrete scheduler. *)
Definition abs (C : N) (s : Scheduler) : AbsSched :=
  mkAbs (slots s) (queue 0 C (free_ring s) (free_head s) (free_count s))
    (queue 0 C (reclaim_ring s) (reclaim_head s) (reclaim_len s))
    (queue (mkRequestId 0 0) C (member_ring s) (member_head s) (member_len s))
    (queue BatchRecord_EMPTY C (batch_ring s) (batch_head s) (batch_len s))
    (cursor s) (submitted s) (completed s) (live_count s).

(** ** The invariant *)
Definition slot_ok (sub comp : N) (sl : Slot) : Prop :=
  (0 < sl_generation sl <= u32_max /\ sl_last_quiescent_epoch sl <= comp /\ sl_active_epoch sl <= sub) /\
  match sl_state sl with
  | Vacant => sl_active_epoch sl = 0 /\ sl_last_quiescent_epoch sl = 0 /\
              sl_in_free_ring sl = true /\ sl_in_reclaim_ring sl = false
  | Ready => sl_active_epoch sl = 0 /\ sl_in_free_ring sl = false /\ sl_in_reclaim_ring sl = false
  | InFlight => 0 < sl_active_epoch sl /\ sl_in_free_ring sl = false /\ sl_in_reclaim_ring sl = false
  | Retiring => sl_in_free_ring sl = false /\ (sl_in_reclaim_ring sl = true -> sl_active_epoch sl = 0)
  end.

(** The epoch of every pending member, batch by batch. *)
Definition member_epochs (batches : list BatchRecord) : list N :=
  flat_map (fun b => replicate (N.to_nat (br_member_count b)) (value (br_epoch b))) batches.

Record a_inv (C : N) (a : AbsSched) : Prop := mkAInv {
  ai_cap : 0 < C <= MAX_REQUEST_SLOTS;
  ai_slots : vlen (a_slots a) = C;
  ai_slot : forall i, i < C -> slot_ok (a_submitted a) (a_completed a) (a_slot a i);
  ai_free_nodup : NoDup (a_free a);
  ai_free : forall i, i ∈ a_free a <-> i < C /\ sl_in_free_ring (a_slot a i) = true;
  ai_reclaim_nodup : NoDup (a_reclaim a);
  ai_reclaim : forall i, i ∈ a_reclaim a <-> i < C /\ sl_in_reclaim_ring (a_slot a i) = true;
  ai_members_nodup : NoDup (slot <$> a_members a);
  ai_member : forall r, r ∈ a_members a -> slot r < C /\
    sl_generation (a_slot a (slot r)) = generation r /\
    (sl_state (a_slot a (slot r)) = InFlight \/ sl_state (a_slot a (slot r)) = Retiring);
  ai_pending : forall i, i < C -> a_completed a < sl_active_epoch (a_slot a i) ->
    exists r, r ∈ a_members a /\ slot r = i;
  ai_epochs : (fun r => sl_active_epoch (a_slot a (slot r))) <$> a_members a =
    member_epochs (a_batches a);
  ai_batches : forall k b, a_batches a !! k = Some b ->
    value (br_epoch b) = a_completed a + 1 + N.of_nat k /\ 0 < br_member_count b;
  ai_submitted : a_submitted a = a_completed a + vlen (a_batches a);
  ai_u64 : a_submitted a <= u64_max;
  ai_live : a_live a + vlen (a_free a) = C;
  ai_cursor : a_cursor a < C
}.

(** ** The operations *)
Definition dispatch_slot (epoch : N) (sl : Slot) : Slot := set_sl_active epoch (set_sl_state InFlight sl).

Definition a_new (C : N) : AbsSched :=
  mkAbs (vfill C Slot_INITIAL) (N.of_nat <$> seq 0 (N.to_nat C)) [] [] [] 0 0 0 0.

Definition a_admit (a : AbsSched) : result RequestId SchedulerError * AbsSched :=
  match a_free a with
  | [] => (Err OutOfSlots, a)
  | i :: rest =>
      (Ok (handle_at (a_slots a) i),
       mkAbs (vset (a_slots a) i (set_sl_in_free false (set_sl_state Ready (a_slot a i)))) rest
         (a_reclaim a) (a_members a) (a_batches a) (a_cursor a) (a_submitted a) (a_completed a)
         (a_live a + 1))
  end.

(** A live handle's slot, or the error every operation reports for it. *)
Definition a_retire (C : N) (a : AbsSched) (r : RequestId) :
    result unit SchedulerError * AbsSched :=
  let i := slot r in
  if C <=? i then (Err InvalidSlot, a)
  else if negb (sl_generation (a_slot a i) =? generation r) then (Err StaleRequest, a)
  else match sl_state (a_slot a i) with
  | Vacant => (Err RequestNotLive, a)
  | Retiring => (Err AlreadyRetiring, a)
  | InFlight =>
      (Ok tt, mkAbs (vset (a_slots a) i (set_sl_state Retiring (a_slot a i))) (a_free a)
         (a_reclaim a) (a_members a) (a_batches a) (a_cursor a) (a_submitted a) (a_completed a)
         (a_live a))
  | Ready =>
      (Ok tt, mkAbs (vset (a_slots a) i (set_sl_in_reclaim true (set_sl_active NO_EPOCH
           (set_sl_state Retiring (a_slot a i))))) (a_free a)
         (a_reclaim a ++ [i]) (a_members a) (a_batches a) (a_cursor a) (a_submitted a)
         (a_completed a) (a_live a))
  end.

(** Scanning [order] for at most [limit] ready slots: the handles chosen, the
    slots afterwards, and how many entries were scanned. *)
Fixpoint a_scan (order : list N) (limit : N) (epoch : N) (sl : list Slot) :
    list RequestId * list Slot * N :=
  match order with
  | [] => ([], sl, 0)
  | i :: rest =>
      if 0 <? limit then
        match sl_state (slot_of sl i) with
        | Ready =>
            let '(chosen, sl', n) :=
              a_scan rest (limit - 1) epoch (vset sl i (dispatch_slot epoch (slot_of sl i))) in
            (handle_at sl i :: chosen, sl', n + 1)
        | _ =>
            let '(chosen, sl', n) := a_scan rest limit epoch sl in
            (chosen, sl', n + 1)
        end
      else ([], sl, 0)
  end.

Definition scan_order (C cursor : N) : list N :=
  (fun k => ring_pos C cursor (N.of_nat k)) <$> seq 0 (N.to_nat C).

(** Append a batch for [epoch]. *)
Definition a_commit (a : AbsSched) (sl : list Slot) (chosen : list RequestId) (epoch cursor : N) :
    AbsSched :=
  mkAbs sl (a_free a) (a_reclaim a) (a_members a ++ chosen)
    (a_batches a ++ [mkBatchRecord (mkEpoch epoch) (vlen chosen)]) cursor epoch (a_completed a)
    (a_live a).

(** The handles a dispatch chooses for an output slice of [room] entries. *)
Definition a_dispatch (C : N) (a : AbsSched) (room : N) :
    result (option (list RequestId)) SchedulerError * AbsSched :=
  if room =? 0 then (Err EmptyBatchStorage, a)
  else if u64_max <? a_submitted a + 1 then (Err SubmissionEpochExhausted, a)
  else if (vlen (a_batches a) =? C) || (vlen (a_members a) =? C) then (Ok None, a)
  else
    let epoch := a_submitted a + 1 in
    let limit := N.min room (C - vlen (a_members a)) in
    let '(chosen, sl, n) := a_scan (scan_order C (a_cursor a)) limit epoch (a_slots a) in
    match chosen with
    | [] => (Ok None, a)
    | _ => (Ok (Some chosen), a_commit a sl chosen epoch (ring_pos C (a_cursor a) n))
    end.

Definition a_state (C : N) (a : AbsSched) (r : RequestId) : option RequestState :=
  if C <=? slot r then None
  else if sl_generation (a_slot a (slot r)) =? generation r then
    match sl_state (a_slot a (slot r)) with Vacant => None | st => Some st end
  else None.

Definition dispatch_all (epoch : N) (sl : list Slot) (rs : list RequestId) : list Slot :=
  foldl (fun l r => vset l (slot r) (dispatch_slot epoch (slot_of l (slot r)))) sl rs.

(** The first lane of a roster that repeats a slot or is not ready. *)
Fixpoint roster_error (C : N) (a : AbsSched) (before rest : list RequestId) :
    option M1ExactDispatchErrorV1.M1ExactDispatchErrorV1 :=
  match rest with
  | [] => None
  | r :: rest' =>
      match list_find (fun r' => slot r' = slot r) before with
      | Some (first_lane, _) =>
          Some (M1ExactDispatchErrorV1.DuplicateRequest (N.of_nat first_lane) (vlen before))
      | None =>
          match a_state C a r with
          | None => Some (M1ExactDispatchErrorV1.MissingRequest (vlen before) r)
          | Some Ready => roster_error C a (before ++ [r]) rest'
          | Some st => Some (M1ExactDispatchErrorV1.RequestNotReady (vlen before) r st)
          end
      end
  end.

Definition exact_error (C : N) (a : AbsSched) (expected : CompletionEpoch) (rs : list RequestId) :
    option M1ExactDispatchErrorV1.M1ExactDispatchErrorV1 :=
  let next := mkEpoch (a_submitted a + 1) in
  if vlen rs =? 0 then Some M1ExactDispatchErrorV1.EmptyRoster
  else if M1_MAX_ACTIVE_SEQUENCES <? vlen rs then
    Some (M1ExactDispatchErrorV1.RosterTooLarge M1_MAX_ACTIVE_SEQUENCES (vlen rs))
  else if u64_max <? a_submitted a + 1 then Some M1ExactDispatchErrorV1.SubmissionEpochExhausted
  else if negb (value expected =? a_submitted a + 1) then
    Some (M1ExactDispatchErrorV1.EpochMismatch next expected)
  else if vlen (a_batches a) =? C then Some M1ExactDispatchErrorV1.PendingBatchCapacityExhausted
  else if C - vlen (a_members a) <? vlen rs then
    Some (M1ExactDispatchErrorV1.PendingMemberCapacityExceeded (C - vlen (a_members a)) (vlen rs))
  else roster_error C a [] rs.

Definition a_dispatch_exact (C : N) (a : AbsSched) (expected : CompletionEpoch)
    (rs : list RequestId) :
    result (list RequestId) M1ExactDispatchErrorV1.M1ExactDispatchErrorV1 * AbsSched :=
  match exact_error C a expected rs with
  | Some e => (Err e, a)
  | None =>
      let epoch := a_submitted a + 1 in
      (Ok rs, a_commit a (dispatch_all epoch (a_slots a) rs) rs epoch (a_cursor a))
  end.

(** The members of the oldest pending batch. *)
Definition a_head_members (a : AbsSched) : list RequestId :=
  match a_batches a with
  | [] => []
  | b :: _ => take (N.to_nat (br_member_count b)) (a_members a)
  end.

Definition a_complete_error (a : AbsSched) (epoch : N) (permits : list (option KvQuiescencePermit)) :
    option SchedulerError :=
  match a_batches a with
  | [] => Some NoPendingBatch
  | b :: _ =>
      if negb (epoch =? a_completed a + 1) then Some CompletionNotExactNext
      else if vlen permits <? br_member_count b then Some CompletionStorageTooSmall
      else if existsb (fun p => match p with Some _ => true | None => false end)
                (take (N.to_nat (br_member_count b)) permits) then Some CompletionStorageNotEmpty
      else None
  end.

(** Completing the oldest batch pops its members and hands out their permits. *)
Definition a_completed_state (a : AbsSched) : AbsSched :=
  mkAbs (a_slots a) (a_free a) (a_reclaim a) (drop (length (a_head_members a)) (a_members a))
    (tail (a_batches a)) (a_cursor a) (a_submitted a) (a_completed a + 1) (a_live a).

Definition completion_permits (epoch : N) (rs : list RequestId) : list (option KvQuiescencePermit) :=
  (fun r => Some (mkPermit r (CompletedExact epoch))) <$> rs.

Definition quiescence_origin (sl : Slot) : KvQuiescenceOrigin :=
  if sl_last_quiescent_epoch sl =? NO_EPOCH then NeverSubmitted
  else CompletedExact (sl_last_quiescent_epoch sl).

Definition a_take (a : AbsSched) : option KvQuiescencePermit * AbsSched :=
  match a_reclaim a with
  | [] => (None, a)
  | i :: rest =>
      (Some (mkPermit (handle_at (a_slots a) i) (quiescence_origin (a_slot a i))),
       mkAbs (vset (a_slots a) i (set_sl_in_reclaim false (a_slot a i))) (a_free a) rest
         (a_members a) (a_batches a) (a_cursor a) (a_submitted a) (a_completed a) (a_live a))
  end.

Definition put_a_slots (sl : list Slot) (a : AbsSched) : AbsSched :=
  mkAbs sl (a_free a) (a_reclaim a) (a_members a) (a_batches a) (a_cursor a) (a_submitted a)
    (a_completed a) (a_live a).

Definition a_finalize_error (C : N) (a : AbsSched) (f : KvFinalizedRequest) : option SchedulerError :=
  let r := finalized_request f in
  let sl := a_slot a (slot r) in
  match finalized_origin f with
  | NeverSubmitted => Some FinalizationMismatch
  | CompletedExact epoch =>
      if C <=? slot r then Some InvalidSlot
      else if (sl_generation sl =? generation r) && bool_decide (sl_state sl = InFlight) &&
              negb (sl_active_epoch sl =? NO_EPOCH) && (sl_active_epoch sl <=? a_completed a) &&
              (sl_active_epoch sl =? epoch)
      then None else Some FinalizationMismatch
  end.

Definition finalized_slot (epoch : N) (sl : Slot) : Slot :=
  set_sl_quiescent epoch (set_sl_active NO_EPOCH (set_sl_state Ready sl)).

Definition a_finalize (C : N) (a : AbsSched) (f : KvFinalizedRequest) :
    result unit SchedulerError * AbsSched :=
  match a_finalize_error C a f with
  | Some e => (Err e, a)
  | None =>
      let i := slot (finalized_request f) in
      let epoch := match finalized_origin f with CompletedExact e => e | NeverSubmitted => 0 end in
      (Ok tt, put_a_slots (vset (a_slots a) i (finalized_slot epoch (a_slot a i))) a)
  end.

Definition a_detach_error (C : N) (a : AbsSched) (d : KvDetachedRequest) : option SchedulerError :=
  let r := detached_request d in
  let sl := a_slot a (slot r) in
  if C <=? slot r then Some InvalidSlot
  else if (sl_generation sl =? generation r) && bool_decide (sl_state sl = Retiring) &&
          negb (sl_in_reclaim_ring sl) && origin_matches sl (detached_origin d) (a_completed a)
  then if sl_generation sl =? u32_max then Some GenerationExhausted else None
  else Some DetachmentMismatch.

Definition a_detach (C : N) (a : AbsSched) (d : KvDetachedRequest) :
    result RequestId SchedulerError * AbsSched :=
  match a_detach_error C a d with
  | Some e => (Err e, a)
  | None =>
      let i := slot (detached_request d) in
      (Ok (detached_request d),
       mkAbs (vset (a_slots a) i (mkSlot (sl_generation (a_slot a i) + 1) Vacant NO_EPOCH NO_EPOCH
           true false)) (a_free a ++ [i]) (a_reclaim a) (a_members a) (a_batches a) (a_cursor a)
         (a_submitted a) (a_completed a) (a_live a - 1))
  end.

(** The slot of a detached request starts over as a ready successor. *)
Definition a_reincarnate (a : AbsSched) (d : KvDetachedRequest) : RequestId * AbsSched :=
  let i := slot (detached_request d) in
  let g := sl_generation (a_slot a i) + 1 in
  (mkRequestId i g,
   put_a_slots (vset (a_slots a) i (mkSlot g Ready NO_EPOCH NO_EPOCH false false)) a).
