(* ===== verification/SchedInv.v ===== *)
(** The abstract scheduler keeps its invariant: one lemma for the operations
    that rewrite a single slot, one for the two dispatches, one for exact
    completion. *)
From S2P Require Import Prelude Spec.
Import Spec.Completion Spec.Lifecycle.
From S2P Require Import KvPool Ring Scheduler SchedSpec.

(** ** Slot vectors *)
Lemma slot_of_vset l i j x :
  i < vlen l -> slot_of (vset l i x) j = if decide (j = i) then x else slot_of l j.
Proof. apply vnth_vset. Qed.

Lemma elem_of_snoc_cond {A} (l : list A) (i j : A) (P : Prop) :
  i ∉ l -> (j ∈ l ++ [i] <-> (j = i \/ j ∈ l)).
Proof. intros _. rewrite elem_of_app, list_elem_of_singleton. tauto. Qed.

(** Distinct indices below [C] are at most [C]. *)
Lemma nodup_bound (l : list N) (C : N) : NoDup l -> (forall i, i ∈ l -> i < C) -> vlen l <= C.
Proof.
  intros Hnd Hl. assert (Hsub : l ⊆+ (N.of_nat <$> seq 0 (N.to_nat C))).
  { apply NoDup_submseteq; [done|]. intros i Hi. apply list_elem_of_fmap.
    exists (N.to_nat i). rewrite elem_of_seq. specialize (Hl i Hi). lia. }
  apply submseteq_length in Hsub. rewrite length_fmap, length_seq in Hsub. unfold vlen. lia.
Qed.

Lemma nodup_room (l : list N) (C i : N) :
  NoDup l -> (forall j, j ∈ l -> j < C) -> i < C -> i ∉ l -> vlen l < C.
Proof.
  intros Hnd Hl Hi Hni. assert (H : vlen (i :: l) <= C).
  { apply nodup_bound; [by constructor|]. intros j Hj. apply elem_of_cons in Hj as [->|]; auto. }
  rewrite vlen_cons in H. lia.
Qed.

(** ** Pending members *)
Lemma member_epochs_app l k : member_epochs (l ++ k) = member_epochs l ++ member_epochs k.
Proof. apply flat_map_app. Qed.

Lemma elem_of_member_epochs e bs :
  e ∈ member_epochs bs -> exists k b, bs !! k = Some b /\ e = value (br_epoch b).
Proof.
  unfold member_epochs. rewrite list_elem_of_In, in_flat_map. setoid_rewrite <- list_elem_of_In.
  intros (b & Hb & He). apply list_elem_of_lookup in Hb as [k Hk]. apply elem_of_replicate in He as [-> _].
  eauto.
Qed.

Section facts.
Context (C : N) (a : AbsSched) (Hinv : a_inv C a).

Lemma member_active r :
  r ∈ a_members a -> a_completed a < sl_active_epoch (a_slot a (slot r)) <= a_submitted a.
Proof.
  intros Hr. assert (He : sl_active_epoch (a_slot a (slot r)) ∈ member_epochs (a_batches a)).
  { rewrite <- (ai_epochs C a Hinv). apply list_elem_of_fmap. by exists r. }
  apply elem_of_member_epochs in He as (k & b & Hk & ->).
  destruct (ai_batches C a Hinv k b Hk) as [-> _].
  pose proof (ai_submitted C a Hinv). apply lookup_lt_Some in Hk. unfold vlen in *. lia.
Qed.

Lemma slot_of_member r : r ∈ a_members a -> slot r < C.
Proof. intros Hr. by destruct (ai_member C a Hinv r Hr). Qed.

Lemma member_unique r r' : r ∈ a_members a -> r' ∈ a_members a -> slot r = slot r' -> r = r'.
Proof.
  intros Hr Hr' Heq. destruct (ai_member C a Hinv r Hr) as (_ & H1 & _).
  destruct (ai_member C a Hinv r' Hr') as (_ & H2 & _).
  destruct r as [i g], r' as [i' g']. simpl in *. congruence.
Qed.

Lemma free_vacant i : i ∈ a_free a -> i < C /\ sl_state (a_slot a i) = Vacant.
Proof.
  intros [Hi Hf]%(ai_free C a Hinv). split; [done|].
  destruct (ai_slot C a Hinv i Hi) as [_ H]. destruct (sl_state (a_slot a i)); [done|..].
  all: destruct H; intuition congruence.
Qed.

Lemma reclaim_retiring i :
  i ∈ a_reclaim a -> i < C /\ sl_state (a_slot a i) = Retiring /\ sl_active_epoch (a_slot a i) = 0.
Proof.
  intros [Hi Hf]%(ai_reclaim C a Hinv). split; [done|].
  destruct (ai_slot C a Hinv i Hi) as [_ H]. destruct (sl_state (a_slot a i)).
  all: intuition congruence.
Qed.

Lemma slots_len : vlen (a_slots a) = C.
Proof. apply (ai_slots C a Hinv). Qed.

Lemma members_le : vlen (a_members a) <= C.
Proof.
  assert (H : vlen (slot <$> a_members a) <= C).
  { apply nodup_bound; [apply (ai_members_nodup C a Hinv)|].
    intros i (r & -> & Hr)%list_elem_of_fmap. by apply slot_of_member. }
  unfold vlen in *. by rewrite length_fmap in H.
Qed.

Lemma member_epochs_length bs :
  (forall k b, bs !! k = Some b -> 0 < br_member_count b) -> (length bs <= length (member_epochs bs))%nat.
Proof.
  induction bs as [|b bs IH]; intros H; simpl; [lia|].
  rewrite length_app, length_replicate. pose proof (H 0%nat b eq_refl).
  assert (length bs <= length (member_epochs bs))%nat; [|lia].
  apply IH. intros k b' Hk. by apply (H (S k)).
Qed.

Lemma batches_le_members : vlen (a_batches a) <= vlen (a_members a).
Proof.
  pose proof (member_epochs_length (a_batches a)) as H.
  rewrite <- (ai_epochs C a Hinv), length_fmap in H. unfold vlen.
  assert (length (a_batches a) <= length (a_members a))%nat; [|lia].
  apply H. intros k b Hk. by destruct (ai_batches C a Hinv k b Hk).
Qed.
End facts.

(** ** Rewriting one slot *)
Section set_slot.
Context (C : N) (a : AbsSched) (i : N) (x : Slot) (free' reclaim' : list N) (live' : N).
Let a' := mkAbs (vset (a_slots a) i x) free' reclaim' (a_members a) (a_batches a) (a_cursor a)
            (a_submitted a) (a_completed a) live'.

Lemma a_slot_set j : a_inv C a -> i < C -> a_slot a' j = if decide (j = i) then x else a_slot a j.
Proof. intros Hinv Hi. apply slot_of_vset. by rewrite (slots_len C a Hinv). Qed.

Lemma inv_set_slot :
  a_inv C a -> i < C -> slot_ok (a_submitted a) (a_completed a) x ->
  (forall r, r ∈ a_members a -> slot r = i ->
     sl_generation x = generation r /\ (sl_state x = InFlight \/ sl_state x = Retiring) /\
     sl_active_epoch x = sl_active_epoch (a_slot a i)) ->
  (a_completed a < sl_active_epoch x -> exists r, r ∈ a_members a /\ slot r = i) ->
  NoDup free' -> (forall j, j ∈ free' <-> if decide (j = i) then sl_in_free_ring x = true else j ∈ a_free a) ->
  NoDup reclaim' ->
  (forall j, j ∈ reclaim' <-> if decide (j = i) then sl_in_reclaim_ring x = true else j ∈ a_reclaim a) ->
  live' + vlen free' = C -> a_inv C a'.
Proof.
  intros Hinv Hi Hok Hmem Hpend Hfn Hf Hrn Hr Hlive.
  assert (Hs := fun j => a_slot_set j Hinv Hi).
  constructor; try done; simpl; try by destruct Hinv.
  - rewrite vlen_vset. apply Hinv.
  - intros j Hj. rewrite Hs. case_decide; [done|by apply Hinv].
  - intros j. rewrite Hf, Hs. case_decide as E; [subst; tauto|apply Hinv].
  - intros j. rewrite Hr, Hs. case_decide as E; [subst; tauto|apply Hinv].
  - intros r Hin. rewrite Hs. destruct (ai_member C a Hinv r Hin) as (H1 & H2 & H3). split; [done|].
    case_decide as E; [|done]. destruct (Hmem r Hin E) as (G1 & G2 & _). done.
  - intros j Hj. rewrite Hs. case_decide as E; [subst; apply Hpend|by apply Hinv].
  - rewrite <- (ai_epochs C a Hinv). apply list_fmap_ext. intros k r Hk. rewrite Hs.
    case_decide as E; [|done]. rewrite E.
    apply (Hmem r); [by apply list_elem_of_lookup_2 with k|done].
Qed.
End set_slot.

(** Slots that are not pending members. *)
Lemma not_member C a i :
  a_inv C a -> sl_active_epoch (a_slot a i) <= a_completed a -> forall r, r ∈ a_members a -> slot r <> i.
Proof. intros Hinv Ha r Hr <-. pose proof (member_active C a Hinv r Hr). lia. Qed.

Ltac slot_cases Hinv i H :=
  let G := fresh "Hgen" in
  destruct (ai_slot _ _ Hinv i H) as [G ?Hst].

Lemma a_new_inv C : 0 < C <= MAX_REQUEST_SLOTS -> a_inv C (a_new C).
Proof.
  intros HC. assert (Hs : forall i, a_slot (a_new C) i = Slot_INITIAL) by (intros; apply vnth_vfill).
  constructor; simpl; try done.
  - apply vlen_vfill.
  - intros i _. rewrite Hs. done.
  - apply NoDup_fmap; [intros ???; lia|apply NoDup_seq].
  - intros i. rewrite Hs, list_elem_of_fmap. setoid_rewrite elem_of_seq. split.
    + intros (k & -> & ?). split; [lia|done].
    + intros [? _]. exists (N.to_nat i). lia.
  - apply NoDup_nil_2.
  - intros i. rewrite Hs. simpl. set_solver.
  - apply NoDup_nil_2.
  - set_solver.
  - intros i _. rewrite Hs. simpl. unfold NO_EPOCH. lia.
  - unfold vlen. rewrite length_fmap, length_seq. lia.
  - lia.
Qed.

Lemma a_admit_inv C a : a_inv C a -> a_inv C (a_admit a).2.
Proof.
  intros Hinv. unfold a_admit. destruct (a_free a) as [|i rest] eqn:Ef; [done|]. simpl.
  assert (Hin : i ∈ a_free a) by (rewrite Ef; set_solver).
  destruct (free_vacant C a Hinv i Hin) as [Hi Hv]. slot_cases Hinv i Hi. rewrite Hv in Hst.
  pose proof (ai_free_nodup C a Hinv) as Hnd. rewrite Ef in Hnd. apply NoDup_cons in Hnd as [Hni Hnd].
  pose proof (ai_live C a Hinv) as Hl. rewrite Ef, vlen_cons in Hl.
  apply inv_set_slot; try done.
  - unfold slot_ok. simpl. tauto.
  - intros r Hr Hs. exfalso. revert Hs. apply (not_member C a); [done|lia|done].
  - simpl. lia.
  - intros j. simpl. rewrite Ef. case_decide as E; [rewrite E; naive_solver|set_solver].
  - apply (ai_reclaim_nodup C a Hinv).
  - intros j. simpl. case_decide as E; [rewrite E|done]. rewrite (ai_reclaim C a Hinv). tauto.
  - lia.
Qed.

Lemma a_retire_inv C a r : a_inv C a -> a_inv C (a_retire C a r).2.
Proof.
  intros Hinv. unfold a_retire. destruct (N.leb_spec C (slot r)) as [|Hi]; [done|].
  destruct (sl_generation (a_slot a (slot r)) =? generation r); [|done]. simpl.
  set (i := slot r) in *. slot_cases Hinv i Hi.
  destruct (sl_state (a_slot a i)) eqn:Es; try done; simpl.
  - apply inv_set_slot; try done.
    + unfold slot_ok. simpl. unfold NO_EPOCH. split; [lia|done || tauto].
    + intros r' Hr Hs. exfalso. revert Hs. apply (not_member C a); [done|lia|done].
    + simpl. unfold NO_EPOCH. lia.
    + apply (ai_free_nodup C a Hinv).
    + intros j. simpl. case_decide as E; [rewrite E|done]. rewrite (ai_free C a Hinv). tauto.
    + apply NoDup_app. split_and!; [apply (ai_reclaim_nodup C a Hinv)| |apply NoDup_singleton].
      intros j Hj ->%list_elem_of_singleton. apply (ai_reclaim C a Hinv) in Hj as [_ Hj].
      intuition congruence.
    + intros j. simpl. rewrite elem_of_app, list_elem_of_singleton. case_decide; [naive_solver|tauto].
    + apply (ai_live C a Hinv).
  - apply inv_set_slot; try done.
    + unfold slot_ok. simpl. intuition congruence.
    + intros r' Hr Hs. destruct (ai_member C a Hinv r' Hr) as (_ & Hg & _). rewrite Hs in Hg.
      simpl. auto.
    + simpl. by apply (ai_pending C a Hinv).
    + apply (ai_free_nodup C a Hinv).
    + intros j. simpl. case_decide as E; [rewrite E|done]. rewrite (ai_free C a Hinv). tauto.
    + apply (ai_reclaim_nodup C a Hinv).
    + intros j. simpl. case_decide as E; [rewrite E|done]. rewrite (ai_reclaim C a Hinv). tauto.
    + apply (ai_live C a Hinv).
Qed.

Lemma a_take_inv C a : a_inv C a -> a_inv C (a_take a).2.
Proof.
  intros Hinv. unfold a_take. destruct (a_reclaim a) as [|i rest] eqn:Er; [done|]. simpl.
  assert (Hin : i ∈ a_reclaim a) by (rewrite Er; set_solver).
  destruct (reclaim_retiring C a Hinv i Hin) as (Hi & Hv & Ha). slot_cases Hinv i Hi.
  rewrite Hv in Hst. pose proof (ai_reclaim_nodup C a Hinv) as Hnd. rewrite Er in Hnd.
  apply NoDup_cons in Hnd as [Hni Hnd].
  apply inv_set_slot; try done.
  - unfold slot_ok. simpl. rewrite Hv. intuition congruence.
  - intros r Hr Hs. exfalso. revert Hs. apply (not_member C a); [done|lia|done].
  - simpl. lia.
  - apply (ai_free_nodup C a Hinv).
  - intros j. simpl. case_decide as E; [rewrite E|done]. rewrite (ai_free C a Hinv). tauto.
  - intros j. simpl. rewrite Er. case_decide as E; [rewrite E; naive_solver|set_solver].
  - apply (ai_live C a Hinv).
Qed.

(** What the checks of [a_finalize] and [a_detach] establish. *)
Lemma a_finalize_ready C a f :
  a_finalize_error C a f = None ->
  slot (finalized_request f) < C /\
  sl_generation (a_slot a (slot (finalized_request f))) = generation (finalized_request f) /\
  sl_state (a_slot a (slot (finalized_request f))) = InFlight /\
  0 < sl_active_epoch (a_slot a (slot (finalized_request f))) <= a_completed a /\
  finalized_origin f = CompletedExact (sl_active_epoch (a_slot a (slot (finalized_request f)))).
Proof.
  unfold a_finalize_error. destruct (finalized_origin f) as [|e]; [done|].
  destruct (N.leb_spec C (slot (finalized_request f))); [done|].
  destruct (_ && _) eqn:E; [|done]. intros _.
  rewrite !andb_true_iff, bool_decide_eq_true, negb_true_iff, !N.eqb_eq, N.eqb_neq, N.leb_le in E.
  destruct E as ((((E1 & E2) & E3) & E4) & E5). unfold NO_EPOCH in E3.
  split_and!; try done; [lia|by rewrite E5].
Qed.

Lemma a_detach_ready C a d :
  a_detach_error C a d = None ->
  slot (detached_request d) < C /\
  sl_generation (a_slot a (slot (detached_request d))) = generation (detached_request d) /\
  sl_state (a_slot a (slot (detached_request d))) = Retiring /\
  sl_in_reclaim_ring (a_slot a (slot (detached_request d))) = false /\
  sl_active_epoch (a_slot a (slot (detached_request d))) <= a_completed a /\
  sl_generation (a_slot a (slot (detached_request d))) <> u32_max.
Proof.
  unfold a_detach_error. destruct (N.leb_spec C (slot (detached_request d))); [done|].
  destruct (_ && _) eqn:E; [|done].
  destruct (N.eqb_spec (sl_generation (a_slot a (slot (detached_request d)))) u32_max); [done|].
  intros _. rewrite !andb_true_iff, bool_decide_eq_true, negb_true_iff, N.eqb_eq in E.
  destruct E as (((E1 & E2) & E3) & E4). split_and!; try done.
  unfold origin_matches, NO_EPOCH in E4. destruct (detached_origin d).
  - apply andb_true_iff in E4 as [E4 _]. apply N.eqb_eq in E4. lia.
  - rewrite orb_true_iff, !andb_true_iff, !N.eqb_eq, N.leb_le in E4. lia.
Qed.

Lemma a_finalize_inv C a f : a_inv C a -> a_inv C (a_finalize C a f).2.
Proof.
  intros Hinv. unfold a_finalize. destruct (a_finalize_error C a f) eqn:E; [done|].
  apply a_finalize_ready in E as (Hi & Hg & Hs & Ha & Ho). rewrite Ho.
  set (i := slot (finalized_request f)) in *. slot_cases Hinv i Hi. rewrite Hs in Hst.
  apply inv_set_slot; try done.
  - unfold slot_ok. simpl. unfold NO_EPOCH. split; [lia|tauto].
  - intros r' Hr Hs'. exfalso. revert Hs'. apply (not_member C a); [done|lia|done].
  - simpl. unfold NO_EPOCH. lia.
  - apply (ai_free_nodup C a Hinv).
  - intros j. simpl. case_decide as E; [rewrite E|done]. rewrite (ai_free C a Hinv). tauto.
  - apply (ai_reclaim_nodup C a Hinv).
  - intros j. simpl. case_decide as E; [rewrite E|done]. rewrite (ai_reclaim C a Hinv). tauto.
  - apply (ai_live C a Hinv).
Qed.

(** A slot that is not vacant leaves room in the free queue. *)
Lemma free_room C a i :
  a_inv C a -> i < C -> sl_state (a_slot a i) <> Vacant -> (i ∉ a_free a) /\ vlen (a_free a) < C.
Proof.
  intros Hinv Hi Hs. assert (Hni : i ∉ a_free a) by (intros H; by apply (free_vacant C a Hinv) in H as [_ H]).
  split; [done|]. apply (nodup_room _ C i); [apply (ai_free_nodup C a Hinv)| |done|done].
  intros j Hj. by apply (ai_free C a Hinv) in Hj as [? _].
Qed.

Lemma reclaim_room C a i :
  a_inv C a -> i < C -> sl_in_reclaim_ring (a_slot a i) = false ->
  (i ∉ a_reclaim a) /\ vlen (a_reclaim a) < C.
Proof.
  intros Hinv Hi Hs. assert (Hni : i ∉ a_reclaim a).
  { intros H. apply (ai_reclaim C a Hinv) in H as [_ H]. congruence. }
  split; [done|]. apply (nodup_room _ C i); [apply (ai_reclaim_nodup C a Hinv)| |done|done].
  intros j Hj. by apply (ai_reclaim C a Hinv) in Hj as [? _].
Qed.

Lemma a_detach_inv C a d : a_inv C a -> a_inv C (a_detach C a d).2.
Proof.
  intros Hinv. unfold a_detach. destruct (a_detach_error C a d) eqn:E; [done|].
  apply a_detach_ready in E as (Hi & Hg & Hs & Hr & Ha & Hmax).
  set (i := slot (detached_request d)) in *. slot_cases Hinv i Hi. rewrite Hs in Hst.
  destruct (free_room C a i Hinv Hi) as [Hni Hroom]; [congruence|].
  pose proof (ai_live C a Hinv) as Hl.
  apply inv_set_slot; try done.
  - unfold slot_ok. simpl. unfold NO_EPOCH. split; [lia|done].
  - intros r' Hr' Hs'. exfalso. revert Hs'. by apply (not_member C a).
  - simpl. unfold NO_EPOCH. lia.
  - apply NoDup_app. split_and!; [apply (ai_free_nodup C a Hinv)| |apply NoDup_singleton].
    intros j Hj ->%list_elem_of_singleton. done.
  - intros j. simpl. rewrite elem_of_app, list_elem_of_singleton. case_decide; [naive_solver|tauto].
  - apply (ai_reclaim_nodup C a Hinv).
  - intros j. simpl. case_decide as E; [rewrite E|done]. rewrite (ai_reclaim C a Hinv).
    split; [|done]. intros [_ H]. congruence.
  - rewrite vlen_app, vlen_cons, vlen_nil. lia.
Qed.

(** Reincarnation needs what [a_detach] checks. *)
Lemma a_reincarnate_inv C a d :
  a_inv C a -> a_detach_error C a d = None -> a_inv C (a_reincarnate a d).2.
Proof.
  intros Hinv E. apply a_detach_ready in E as (Hi & Hg & Hs & Hr & Ha & Hmax).
  set (i := slot (detached_request d)) in *. slot_cases Hinv i Hi. rewrite Hs in Hst.
  unfold a_reincarnate. cbv zeta. fold i. apply inv_set_slot; try done.
  - unfold slot_ok. simpl. unfold NO_EPOCH. split; [lia|done].
  - intros r' Hr' Hs'. exfalso. revert Hs'. by apply (not_member C a).
  - simpl. unfold NO_EPOCH. lia.
  - apply (ai_free_nodup C a Hinv).
  - intros j. simpl. case_decide as E; [rewrite E|done]. rewrite (ai_free C a Hinv).
    split; [|done]. intros [_ H]. intuition congruence.
  - apply (ai_reclaim_nodup C a Hinv).
  - intros j. simpl. case_decide as E; [rewrite E|done]. rewrite (ai_reclaim C a Hinv).
    split; [|done]. intros [_ H]. congruence.
  - apply (ai_live C a Hinv).
Qed.

(** ** Dispatch *)
Lemma slot_of_dispatch_all epoch rs : forall sl j,
  NoDup (slot <$> rs) -> (forall r, r ∈ rs -> slot r < vlen sl) ->
  slot_of (dispatch_all epoch sl rs) j =
    if decide (j ∈ slot <$> rs) then dispatch_slot epoch (slot_of sl j) else slot_of sl j.
Proof.
  induction rs as [|r rs IH]; intros sl j Hnd Hlt; simpl; [done|].
  rewrite fmap_cons in Hnd. apply NoDup_cons in Hnd as [Hni Hnd].
  unfold dispatch_all. simpl. fold (dispatch_all epoch (vset sl (slot r) (dispatch_slot epoch (slot_of sl (slot r)))) rs).
  rewrite IH; [|done|intros r' Hr'; rewrite vlen_vset; apply Hlt; set_solver].
  rewrite !slot_of_vset by (apply Hlt; set_solver).
  destruct (decide (j ∈ slot <$> rs)) as [Hj|Hj].
  - rewrite decide_False by congruence. rewrite decide_True by set_solver. done.
  - destruct (decide (j = slot r)) as [->|Hne].
    + by rewrite decide_True by set_solver.
    + by rewrite decide_False by set_solver.
Qed.

Lemma vlen_dispatch_all epoch rs : forall sl, vlen (dispatch_all epoch sl rs) = vlen sl.
Proof.
  induction rs as [|r rs IH]; intros sl; [done|]. unfold dispatch_all. simpl.
  fold (dispatch_all epoch (vset sl (slot r) (dispatch_slot epoch (slot_of sl (slot r)))) rs).
  by rewrite IH, vlen_vset.
Qed.

(** Handles that name distinct ready slots. *)
Record dispatchable (C : N) (a : AbsSched) (rs : list RequestId) : Prop := mkDispatchable {
  dp_nodup : NoDup (slot <$> rs);
  dp_ready : forall r, r ∈ rs -> slot r < C /\ sl_generation (a_slot a (slot r)) = generation r /\
    sl_state (a_slot a (slot r)) = Ready
}.

Lemma a_commit_inv C a rs cursor :
  a_inv C a -> dispatchable C a rs -> rs <> [] -> a_submitted a + 1 <= u64_max -> cursor < C ->
  a_inv C (a_commit a (dispatch_all (a_submitted a + 1) (a_slots a) rs) rs (a_submitted a + 1) cursor).
Proof.
  intros Hinv [Hnd Hrs] Hne H64 Hcur. pose proof (slots_len C a Hinv) as Hlen.
  set (e := a_submitted a + 1). pose proof (ai_submitted C a Hinv) as Hsub.
  assert (Hsl : forall j, slot_of (dispatch_all e (a_slots a) rs) j =
    if decide (j ∈ slot <$> rs) then dispatch_slot e (a_slot a j) else a_slot a j).
  { intros j. apply slot_of_dispatch_all; [done|]. intros r Hr. rewrite Hlen. by apply Hrs. }
  assert (Hready : forall j, j ∈ slot <$> rs -> j < C /\ sl_state (a_slot a j) = Ready).
  { intros j (r & -> & Hr)%list_elem_of_fmap. destruct (Hrs r Hr) as (? & _ & ?). done. }
  assert (Hmem : forall r, r ∈ a_members a -> slot r ∉ slot <$> rs).
  { intros r Hr Hin. destruct (ai_member C a Hinv r Hr) as (_ & _ & Hst).
    destruct (Hready _ Hin) as [_ Hst']. destruct Hst; congruence. }
  constructor; simpl; unfold a_slot; simpl; try (by destruct Hinv).
  - by rewrite vlen_dispatch_all.
  - intros i Hi. rewrite Hsl. slot_cases Hinv i Hi. case_decide as E.
    + destruct (Hready i E) as [_ Hs]. rewrite Hs in Hst. unfold slot_ok, e. simpl.
      split_and!; try tauto; lia.
    + unfold slot_ok. split; [unfold e; lia|done].
  - intros i. rewrite Hsl, (ai_free C a Hinv). case_decide; done.
  - intros i. rewrite Hsl, (ai_reclaim C a Hinv). case_decide; done.
  - rewrite fmap_app. apply NoDup_app. split_and!; [apply (ai_members_nodup C a Hinv)| |done].
    intros i (r & -> & Hr)%list_elem_of_fmap. by apply Hmem.
  - intros r [Hr|Hr]%elem_of_app; rewrite Hsl.
    + rewrite decide_False by by apply Hmem. by apply (ai_member C a Hinv).
    + rewrite decide_True by (apply list_elem_of_fmap; eauto). destruct (Hrs r Hr) as (? & ? & _). 
      simpl. auto.
  - intros i Hi. rewrite Hsl. case_decide as E.
    + intros _. apply list_elem_of_fmap in E as (r & -> & Hr). exists r. set_solver.
    + intros Hp. destruct (ai_pending C a Hinv i Hi Hp) as (r & Hr & Hs). exists r. set_solver.
  - rewrite fmap_app, member_epochs_app. f_equal.
    + rewrite <- (ai_epochs C a Hinv). apply list_fmap_ext. intros k r Hk.
      rewrite Hsl, decide_False; [done|]. apply Hmem. by apply list_elem_of_lookup_2 with k.
    + unfold member_epochs. simpl. rewrite app_nil_r. unfold vlen. rewrite Nat2N.id.
      symmetry. apply replicate_as_elem_of. rewrite length_fmap. split; [done|].
      intros x (r & -> & Hr)%list_elem_of_fmap. rewrite Hsl.
      rewrite decide_True by (apply list_elem_of_fmap; eauto). done.
  - intros k b [Hk|[Hk Hb]]%lookup_app_Some; [by apply (ai_batches C a Hinv)|].
    apply list_lookup_singleton_Some in Hb as [Hz <-]. simpl. 
    assert (k = length (a_batches a)) as -> by lia. unfold vlen, e in *. split; [lia|].
    destruct rs; [done|simpl; lia].
  - rewrite vlen_app, vlen_cons, vlen_nil. unfold e. lia.
Qed.

(** ** Scanning *)
Definition ready_at (sl : list Slot) (i : N) : Prop := sl_state (slot_of sl i) = Ready.

#[export] Instance ready_at_dec sl i : Decision (ready_at sl i).
Proof. unfold ready_at. apply _. Defined.

Lemma filter_ext_in {A} (P Q : A -> Prop) `{forall x, Decision (P x), forall x, Decision (Q x)} (l : list A) :
  (forall x, x ∈ l -> P x <-> Q x) -> filter P l = filter Q l.
Proof.
  induction l as [|x l IH]; intros Hl; [done|].
  rewrite !filter_cons, IH by (intros y Hy; apply Hl; set_solver).
  specialize (Hl x ltac:(set_solver)). repeat case_decide; try done; tauto.
Qed.

Lemma a_scan_spec order : forall limit e sl chosen sl' n,
  NoDup order -> (forall i, i ∈ order -> i < vlen sl) ->
  a_scan order limit e sl = (chosen, sl', n) ->
  chosen = handle_at sl <$> take (N.to_nat limit) (filter (ready_at sl) order) /\
  sl' = dispatch_all e sl chosen /\
  filter (ready_at sl) (take (N.to_nat n) order) = slot <$> chosen /\
  n <= vlen order /\ (n = vlen order \/ vlen chosen = limit).
Proof.
  induction order as [|i order IH]; intros limit e sl chosen sl' n Hnd Hlt Hscan; cbn [a_scan] in Hscan.
  { injection Hscan as <- <- <-. cbn. rewrite !take_nil. split_and!; try done. by left. }
  apply NoDup_cons in Hnd as [Hni Hnd]. rewrite vlen_cons.
  assert (Hi : i < vlen sl) by (apply Hlt; set_solver).
  destruct (N.ltb_spec 0 limit) as [Hpos|Hz].
  2:{ injection Hscan as <- <- <-. assert (limit = 0) as -> by lia. split_and!; try done; [lia|by right]. }
  destruct (decide (ready_at sl i)) as [Hr|Hr].
  - unfold ready_at in Hr. rewrite Hr in Hscan.
    set (sl1 := vset sl i (dispatch_slot e (slot_of sl i))) in *.
    destruct (a_scan order (limit - 1) e sl1) as [[chosen1 sl2] n1] eqn:E.
    injection Hscan as <- <- <-.
    assert (Hslot : forall j, j ∈ order -> slot_of sl1 j = slot_of sl j).
    { intros j Hj. unfold sl1. rewrite slot_of_vset by done. rewrite decide_False; [done|].
      intros ->. done. }
    assert (Hf : forall l : list N, (forall j, j ∈ l -> j ∈ order) -> filter (ready_at sl1) l = filter (ready_at sl) l).
    { intros l Hl. apply filter_ext_in. intros j Hj. unfold ready_at. by rewrite Hslot by auto. }
    destruct (IH (limit - 1) e sl1 chosen1 sl2 n1 Hnd) as (I1 & I2 & I3 & I4 & I5); [|done|].
    { intros j Hj. unfold sl1. rewrite vlen_vset. apply Hlt. set_solver. }
    rewrite Hf in I1 by done.
    rewrite Hf in I3 by (intros j Hj; eapply elem_of_take in Hj as (k & Hk & _);
      by apply list_elem_of_lookup_2 in Hk).
    assert (Hc : chosen1 = handle_at sl <$> take (N.to_nat (limit - 1)) (filter (ready_at sl) order)).
    { rewrite I1. apply list_fmap_ext. intros k j Hk. unfold handle_at. rewrite Hslot; [done|].
      apply lookup_take_Some in Hk as [Hk _]. apply list_elem_of_lookup_2, list_elem_of_filter in Hk.
      tauto. }
    replace (N.to_nat limit) with (S (N.to_nat (limit - 1))) by lia.
    replace (N.to_nat (n1 + 1)) with (S (N.to_nat n1)) by lia. simpl.
    rewrite !filter_cons_True by done. simpl. split_and!.
    + f_equal. exact Hc.
    + rewrite I2. unfold dispatch_all. done.
    + f_equal. exact I3.
    + lia.
    + rewrite vlen_cons. lia.
  - destruct (a_scan order limit e sl) as [[chosen1 sl2] n1] eqn:E.
    assert (Hscan' : (chosen1, sl2, n1 + 1) = (chosen, sl', n)).
    { unfold ready_at in Hr. destruct (sl_state (slot_of sl i)); try done. }
    injection Hscan' as <- <- <-.
    destruct (IH limit e sl chosen1 sl2 n1 Hnd) as (I1 & I2 & I3 & I4 & I5); [|done|].
    { intros j Hj. apply Hlt. set_solver. }
    replace (N.to_nat (n1 + 1)) with (S (N.to_nat n1)) by lia. simpl.
    rewrite !filter_cons_False by done. split_and!; try done; lia.
Qed.

Section order.
Context (C : N) (a : AbsSched) (Hinv : a_inv C a).

Lemma scan_order_nodup : NoDup (scan_order C (a_cursor a)).
Proof.
  apply NoDup_fmap_2_strong; [|apply NoDup_seq]. intros x y Hx Hy Heq.
  apply elem_of_seq in Hx, Hy. apply (ring_pos_inj C) in Heq; [lia|apply (ai_cursor C a Hinv)|lia|lia].
Qed.

Lemma scan_order_lt i : i ∈ scan_order C (a_cursor a) -> i < C.
Proof.
  intros (k & -> & Hk)%list_elem_of_fmap. apply elem_of_seq in Hk.
  apply ring_pos_lt; [apply (ai_cursor C a Hinv)|lia].
Qed.

Lemma vlen_scan_order : vlen (scan_order C (a_cursor a)) = C.
Proof. unfold vlen, scan_order. rewrite length_fmap, length_seq. lia. Qed.

(** The handles a scan chooses can be dispatched. *)
Lemma scan_dispatchable limit e chosen sl' n :
  a_scan (scan_order C (a_cursor a)) limit e (a_slots a) = (chosen, sl', n) ->
  dispatchable C a chosen /\ sl' = dispatch_all e (a_slots a) chosen /\ n <= C /\ vlen chosen <= limit.
Proof.
  intros Hscan. apply a_scan_spec in Hscan as (H1 & H2 & H3 & H4 & H5).
  2: apply scan_order_nodup.
  2: { intros i Hi. rewrite (slots_len C a Hinv). by apply scan_order_lt. }
  rewrite vlen_scan_order in *. split_and!; try done.
  - split.
    + rewrite <- H3. apply NoDup_filter. eapply sublist_NoDup; [apply scan_order_nodup|apply sublist_take].
    + intros r Hr. rewrite H1 in Hr. apply list_elem_of_fmap in Hr as (i & -> & Hi).
      apply elem_of_take in Hi as (k & Hk & _).
      apply list_elem_of_lookup_2, list_elem_of_filter in Hk as [Hr Hi]. simpl.
      split; [by apply scan_order_lt|done].
  - rewrite H1. unfold vlen. rewrite length_fmap, length_take. lia.
Qed.
End order.

Lemma a_dispatch_inv C a room : a_inv C a -> a_inv C (a_dispatch C a room).2.
Proof.
  intros Hinv. unfold a_dispatch. destruct (room =? 0); [done|].
  destruct (N.ltb_spec u64_max (a_submitted a + 1)); [done|].
  destruct (_ || _); [done|].
  destruct (a_scan _ _ _ _) as [[chosen sl] n] eqn:E.
  apply scan_dispatchable in E as (Hd & -> & Hn & _); [|done].
  destruct chosen as [|r chosen]; [done|]. cbn [snd].
  apply a_commit_inv; try done. apply ring_pos_lt; [apply (ai_cursor C a Hinv)|done].
Qed.

(** A roster without an error is dispatchable. *)
Lemma roster_error_None C a rest : forall before,
  roster_error C a before rest = None ->
  NoDup (slot <$> before) -> (forall r, r ∈ before -> a_state C a r = Some Ready) ->
  NoDup (slot <$> (before ++ rest)) /\ forall r, r ∈ before ++ rest -> a_state C a r = Some Ready.
Proof.
  induction rest as [|r rest IH]; intros before Hnone Hnd Hst; cbn [roster_error] in Hnone.
  { by rewrite app_nil_r. }
  destruct (list_find _ before) as [[k r']|] eqn:Ef; [done|].
  apply list_find_None in Ef. rewrite Forall_forall in Ef.
  destruct (a_state C a r) as [st|] eqn:Es; [|done].
  destruct st; try done. rewrite (cons_middle r before rest), app_assoc.
  apply IH; [done| |].
  - rewrite fmap_app. apply NoDup_app. split_and!; [done| |apply NoDup_singleton].
    intros i (x & -> & Hx)%list_elem_of_fmap Hi. apply list_elem_of_singleton in Hi.
    by apply (Ef x Hx).
  - intros x [Hx|Hx]%elem_of_app; [auto|]. apply list_elem_of_singleton in Hx as ->. done.
Qed.

Lemma a_state_Ready C a r : a_state C a r = Some Ready <->
  slot r < C /\ sl_generation (a_slot a (slot r)) = generation r /\ sl_state (a_slot a (slot r)) = Ready.
Proof.
  unfold a_state. destruct (N.leb_spec C (slot r)).
  { split; [done|lia]. }
  destruct (N.eqb_spec (sl_generation (a_slot a (slot r))) (generation r)).
  - destruct (sl_state _) eqn:E; naive_solver.
  - naive_solver.
Qed.

Lemma exact_dispatchable C a expected rs :
  vlen (a_members a) <= C -> exact_error C a expected rs = None ->
  dispatchable C a rs /\ rs <> [] /\ a_submitted a + 1 <= u64_max /\
  vlen (a_members a) + vlen rs <= C /\ vlen (a_batches a) <> C.
Proof.
  intros Hc Hnone. unfold exact_error in Hnone. cbv zeta in Hnone.
  destruct (N.eqb_spec (vlen rs) 0) as [|Hne]; [done|].
  destruct (_ <? vlen rs); [done|].
  destruct (N.ltb_spec u64_max (a_submitted a + 1)); [done|].
  destruct (negb _); [done|]. destruct (N.eqb_spec (vlen (a_batches a)) C); [done|].
  destruct (N.ltb_spec (C - vlen (a_members a)) (vlen rs)); [done|].
  apply roster_error_None in Hnone as [H1 H2]; [|apply NoDup_nil_2|set_solver].
  split_and!; [| |done|lia|done].
  - split; [done|]. intros r Hr. by apply a_state_Ready, H2.
  - intros ->. done.
Qed.

Lemma a_dispatch_exact_inv C a expected rs : a_inv C a -> a_inv C (a_dispatch_exact C a expected rs).2.
Proof.
  intros Hinv. unfold a_dispatch_exact. destruct (exact_error _ _ _ _) eqn:E; [done|].
  apply exact_dispatchable in E as (Hd & Hne & H64 & _); [|by apply members_le].
  apply a_commit_inv; try done. apply (ai_cursor C a Hinv).
Qed.

(** ** Exact completion *)
Section complete.
Context (C : N) (a : AbsSched) (b : BatchRecord) (rest : list BatchRecord).
Context (Hinv : a_inv C a) (Hb : a_batches a = b :: rest).
Let n := N.to_nat (br_member_count b).

Lemma head_epoch : value (br_epoch b) = a_completed a + 1 /\ 0 < br_member_count b.
Proof.
  destruct (ai_batches C a Hinv 0 b) as [H1 H2]; [by rewrite Hb|]. split; [lia|done].
Qed.

Lemma head_epochs :
  (fun r => sl_active_epoch (a_slot a (slot r))) <$> a_members a =
  replicate n (a_completed a + 1) ++ member_epochs rest.
Proof.
  rewrite (ai_epochs C a Hinv), Hb. simpl. destruct head_epoch as [-> _]. done.
Qed.

Lemma head_members_length : (n <= length (a_members a))%nat.
Proof.
  pose proof (f_equal length head_epochs) as H.
  rewrite length_fmap, length_app, length_replicate in H. lia.
Qed.

Lemma a_head_members_length : length (a_head_members a) = n.
Proof.
  unfold a_head_members. rewrite Hb, length_take. fold n. pose proof head_members_length. lia.
Qed.

(** The members of the head batch run in its epoch; the others later. *)
Lemma head_member_active r :
  r ∈ a_head_members a -> sl_active_epoch (a_slot a (slot r)) = a_completed a + 1.
Proof.
  unfold a_head_members. rewrite Hb. fold n. intros Hr. apply elem_of_take in Hr as (k & Hk & Hlt).
  pose proof head_epochs as He. apply (f_equal (.!! k)) in He.
  rewrite list_lookup_fmap, Hk in He. rewrite lookup_app_l in He by by rewrite length_replicate.
  rewrite lookup_replicate_2 in He by done. simpl in He. by injection He.
Qed.

Lemma later_member_active r :
  r ∈ drop n (a_members a) -> a_completed a + 1 < sl_active_epoch (a_slot a (slot r)).
Proof.
  intros Hr. assert (He : sl_active_epoch (a_slot a (slot r)) ∈ member_epochs rest).
  { replace (member_epochs rest) with
      ((fun r => sl_active_epoch (a_slot a (slot r))) <$> drop n (a_members a)).
    - apply list_elem_of_fmap. by exists r.
    - rewrite fmap_drop, head_epochs. by rewrite drop_app_length' by by rewrite length_replicate. }
  apply elem_of_member_epochs in He as (k & b' & Hk & ->).
  destruct (ai_batches C a Hinv (S k) b') as [-> _]; [by rewrite Hb|]. lia.
Qed.

Lemma a_completed_inv : a_inv C (a_completed_state a).
Proof.
  assert (Hmem : forall r, r ∈ drop n (a_members a) -> r ∈ a_members a).
  { intros r Hr. apply list_elem_of_lookup in Hr as [k Hk]. rewrite lookup_drop in Hk.
    by apply list_elem_of_lookup_2 in Hk. }
  pose proof (ai_submitted C a Hinv) as Hsub. rewrite Hb, vlen_cons in Hsub.
  unfold a_completed_state. rewrite a_head_members_length, Hb. simpl.
  constructor; simpl; unfold a_slot; simpl; try (by destruct Hinv).
  - intros i Hi. slot_cases Hinv i Hi. unfold a_slot in *. split; [lia|done].
  - rewrite fmap_drop. eapply sublist_NoDup; [apply (ai_members_nodup C a Hinv)|apply sublist_drop].
  - intros r Hr. apply (ai_member C a Hinv). auto.
  - intros i Hi Hp. destruct (ai_pending C a Hinv i Hi) as (r & Hr & <-); [unfold a_slot; lia|].
    exists r. split; [|done]. rewrite <- (take_drop n (a_members a)) in Hr.
    apply elem_of_app in Hr as [Hr|Hr]; [|done].
    assert (Hh : r ∈ a_head_members a) by (unfold a_head_members; by rewrite Hb).
    pose proof (head_member_active r Hh) as Ha. unfold a_slot in Ha. lia.
  - pose proof head_epochs as He. rewrite fmap_drop.
    unfold a_slot in He. rewrite He. by rewrite drop_app_length' by by rewrite length_replicate.
  - intros k b' Hk. destruct (ai_batches C a Hinv (S k) b') as [H1 H2]; [by rewrite Hb|].
    split; [lia|done].
  - lia.
Qed.
End complete.
