(* ===== verification/SchedOps.v ===== *)
(** The scheduler of [Scheduler.v] implements the abstract scheduler: every
    operation, run on ring buffers, never panics, keeps the shape of the rings,
    and changes the queues exactly as the abstract operation does. *)
From S2P Require Import Prelude Spec.
Import Spec.Completion Spec.Lifecycle.
From S2P Require Import KvPool Ring Scheduler SchedSpec SchedInv.
Local Open Scope prog_scope.

Record sched_shape (C : N) (s : Scheduler) : Prop := mkSchedShape {
  ss_free : vlen (free_ring s) = C;
  ss_free_head : free_head s < C;
  ss_free_count : free_count s <= C;
  ss_reclaim : vlen (reclaim_ring s) = C;
  ss_reclaim_head : reclaim_head s < C;
  ss_reclaim_len : reclaim_len s <= C;
  ss_member : vlen (member_ring s) = C;
  ss_member_head : member_head s < C;
  ss_member_len : member_len s <= C;
  ss_batch : vlen (batch_ring s) = C;
  ss_batch_head : batch_head s < C;
  ss_batch_len : batch_len s <= C
}.

Record sched_wf (C : N) (s : Scheduler) : Prop := mkSchedWf {
  sw_shape : sched_shape C s;
  sw_inv : a_inv C (abs C s)
}.

(** [m] implements the abstract step that returns [r] in state [a']. *)
Definition implements {A} (C : N) (m : M Scheduler A) (s : Scheduler) (r : A) (a' : AbsSched) : Prop :=
  wp m s (fun s' x => sched_wf C s' /\ x = r /\ abs C s' = a').

(** ** Access rules *)
Section access.
Implicit Types (s : Scheduler).

Lemma wp_read_slot i s (Q : Scheduler -> Slot -> Prop) :
  i < vlen (slots s) -> Q s (slot_of (slots s) i) -> wp (read_slot i) s Q.
Proof. apply wp_read_at. Qed.

Lemma wp_update_slot i g s (Q : Scheduler -> unit -> Prop) :
  i < vlen (slots s) -> Q (put_slots (vset (slots s) i (g (slot_of (slots s) i))) s) tt ->
  wp (update_slot i g) s Q.
Proof. apply wp_update_at. Qed.

Lemma wp_read_free i s (Q : Scheduler -> N -> Prop) :
  i < vlen (free_ring s) -> Q s (vnth 0 (free_ring s) i) -> wp (read_at free_ring i) s Q.
Proof. apply wp_read_at. Qed.

Lemma wp_read_reclaim i s (Q : Scheduler -> N -> Prop) :
  i < vlen (reclaim_ring s) -> Q s (vnth 0 (reclaim_ring s) i) -> wp (read_at reclaim_ring i) s Q.
Proof. apply wp_read_at. Qed.

Lemma wp_read_member i s (Q : Scheduler -> RequestId -> Prop) :
  i < vlen (member_ring s) -> Q s (vnth (mkRequestId 0 0) (member_ring s) i) ->
  wp (read_at member_ring i) s Q.
Proof. apply wp_read_at. Qed.

Lemma wp_read_batch i s (Q : Scheduler -> BatchRecord -> Prop) :
  i < vlen (batch_ring s) -> Q s (vnth BatchRecord_EMPTY (batch_ring s) i) ->
  wp (read_at batch_ring i) s Q.
Proof. apply wp_read_at. Qed.

Lemma wp_write_free i x s (Q : Scheduler -> unit -> Prop) :
  i < vlen (free_ring s) -> Q (put_free_ring (vset (free_ring s) i x) s) tt ->
  wp (update_at free_ring put_free_ring i (fun _ => x)) s Q.
Proof. apply (wp_update_at _ _ 0 i (fun _ => x)). Qed.

Lemma wp_write_reclaim i x s (Q : Scheduler -> unit -> Prop) :
  i < vlen (reclaim_ring s) -> Q (put_reclaim_ring (vset (reclaim_ring s) i x) s) tt ->
  wp (update_at reclaim_ring put_reclaim_ring i (fun _ => x)) s Q.
Proof. apply (wp_update_at _ _ 0 i (fun _ => x)). Qed.

Lemma wp_write_member i x s (Q : Scheduler -> unit -> Prop) :
  i < vlen (member_ring s) -> Q (put_member_ring (vset (member_ring s) i x) s) tt ->
  wp (update_at member_ring put_member_ring i (fun _ => x)) s Q.
Proof. apply (wp_update_at _ _ (mkRequestId 0 0) i (fun _ => x)). Qed.

Lemma wp_write_batch i x s (Q : Scheduler -> unit -> Prop) :
  i < vlen (batch_ring s) -> Q (put_batch_ring (vset (batch_ring s) i x) s) tt ->
  wp (update_at batch_ring put_batch_ring i (fun _ => x)) s Q.
Proof. apply (wp_update_at _ _ BatchRecord_EMPTY i (fun _ => x)). Qed.
End access.

Ltac sch_side :=
  try done; simpl; rewrite ?vlen_vset; try done;
  unfold MAX_REQUEST_SLOTS, usize_max, u64_max, u32_max in *; try lia;
  try (eapply N.lt_le_trans; [apply ring_pos_lt; lia|lia]).

Ltac sch_simpl :=
  cbn [slots free_ring free_head free_count reclaim_ring reclaim_head reclaim_len member_ring
       member_head member_len batch_ring batch_head batch_len cursor submitted completed live_count
       put_slots put_free put_reclaim put_members put_batches put_scalars put_free_ring
       put_reclaim_ring put_member_ring put_batch_ring put_free_head put_free_count
       put_reclaim_head put_reclaim_len put_member_head put_member_len put_batch_head
       put_batch_len put_cursor put_submitted put_completed put_live_count].

Ltac sch_step :=
  lazymatch goal with
  | |- wp (bind _ _) _ _ => apply wp_bind
  | |- wp (try_bind _ _) _ _ => apply wp_try_bind
  | |- wp (gets _) _ _ => apply wp_gets
  | |- wp (ret _) _ _ => apply wp_ret
  | |- wp (modify _) _ _ => apply wp_modify
  | |- wp (read_slot _) _ _ => apply wp_read_slot; [sch_side|]
  | |- wp (update_slot _ _) _ _ => apply wp_update_slot; [sch_side|]
  | |- wp (read_at free_ring _) _ _ => apply wp_read_free; [sch_side|]
  | |- wp (read_at reclaim_ring _) _ _ => apply wp_read_reclaim; [sch_side|]
  | |- wp (read_at member_ring _) _ _ => apply wp_read_member; [sch_side|]
  | |- wp (read_at batch_ring _) _ _ => apply wp_read_batch; [sch_side|]
  | |- wp (update_at free_ring _ _ _) _ _ => apply wp_write_free; [sch_side|]
  | |- wp (update_at reclaim_ring _ _ _) _ _ => apply wp_write_reclaim; [sch_side|]
  | |- wp (update_at member_ring _ _ _) _ _ => apply wp_write_member; [sch_side|]
  | |- wp (update_at batch_ring _ _ _) _ _ => apply wp_write_batch; [sch_side|]
  | |- wp (add_usize _ _) _ _ => apply wp_add_usize; [sch_side|]
  | |- wp (add32 _ _) _ _ => apply wp_add32; [sch_side|]
  | |- wp (sub_w _ _) _ _ => apply wp_sub_w; [sch_side|]
  | |- wp (advance _ _) _ _ => apply wp_advance; [sch_side|sch_side|]
  | |- wp (ring_tail _ _ _) _ _ => apply wp_ring_tail; [sch_side|sch_side|sch_side|]
  end;
  cbv beta; sch_simpl.

(** The bounds symbolic execution needs. *)
Ltac sch_bounds Hwf :=
  let Hs := fresh "Hshape" in let Hi := fresh "Hinv" in
  destruct Hwf as [Hs Hi];
  pose proof (ai_cap _ _ Hi) as Hcap; pose proof (ai_slots _ _ Hi) as Hslots;
  pose proof (ai_live _ _ Hi) as Hlive; pose proof (ai_cursor _ _ Hi) as Hcursor;
  pose proof (ai_u64 _ _ Hi) as H64; pose proof (ai_submitted _ _ Hi) as Hsub;
  destruct (Hs) as [];
  cbn [abs a_slots a_free a_live a_cursor a_submitted a_completed a_batches] in Hslots, Hlive, Hcursor, H64, Hsub;
  rewrite vlen_queue in Hlive; rewrite vlen_queue in Hsub.

(** Writing a slot over itself twice. *)
Lemma slot_of_put l i x : i < vlen l -> slot_of (vset l i x) i = x.
Proof. intros. rewrite slot_of_vset by done. by rewrite decide_True. Qed.

Lemma slot_index_id i C : i < C -> C <= MAX_REQUEST_SLOTS -> slot_index_to_u32 i = i.
Proof.
  unfold slot_index_to_u32, MAX_REQUEST_SLOTS, u32_max. intros.
  destruct (N.leb_spec i 4294967295); lia.
Qed.

Section ops.
Context (C : N) (s : Scheduler) (Hwf : sched_wf C s).

Lemma request_state_wp r :
  wp (request_state C r) s (fun s' st => s' = s /\ st = a_state C (abs C s) r).
Proof using Hwf.
  sch_bounds Hwf. unfold request_state, a_state.
  destruct (N.leb_spec C (slot r)); [done|]. do 2 sch_step. sch_step. split; [done|].
  unfold a_slot. simpl. destruct (_ =? _); [|done]. by destruct (sl_state _).
Qed.

Lemma free_head_eq :
  0 < free_count s ->
  a_free (abs C s) = vnth 0 (free_ring s) (free_head s) ::
    queue 0 C (free_ring s) (ring_pos C (free_head s) 1) (free_count s - 1).
Proof using Hwf. intros H. destruct Hwf as [[] _]. by apply queue_head. Qed.

Lemma admit_wp : implements C (admit_request C) s (a_admit (abs C s)).1 (a_admit (abs C s)).2.
Proof using Hwf.
  pose proof (a_admit_inv C _ (sw_inv C s Hwf)) as Hpost. unfold implements.
  pose proof free_head_eq as Hhead. pose proof Hwf as Hwf'. sch_bounds Hwf. unfold admit_request.
  do 2 sch_step. unfold a_admit in *.
  destruct (N.eqb_spec (free_count s) 0) as [Hz|Hz].
  { assert (Hnil : a_free (abs C s) = []) by (simpl; by rewrite Hz).
    rewrite Hnil. by apply wp_ret. }
  rewrite Hhead in * by lia. specialize (Hhead ltac:(lia)).
  set (i := vnth 0 (free_ring s) (free_head s)) in *.
  set (rest := queue _ _ _ _ _) in *. cbn [fst snd] in *.
  assert (Hin : i ∈ a_free (abs C s)) by (rewrite Hhead; set_solver).
  apply (free_vacant C _ Hinv) in Hin as [Hi _].
  unfold admit_established, admit_available. repeat sch_step. fold i. repeat sch_step.
  rewrite slot_of_put by by rewrite Hslots. rewrite vset_vset.
  rewrite (slot_index_id i C) by lia.
  match goal with |- sched_wf _ ?x /\ _ => set (s' := x) end.
  assert (Habs : abs C s' = mkAbs (vset (slots s) i (set_sl_in_free false (set_sl_state Ready
    (slot_of (slots s) i)))) rest (a_reclaim (abs C s)) (a_members (abs C s)) (a_batches (abs C s))
    (a_cursor (abs C s)) (a_submitted (abs C s)) (a_completed (abs C s)) (a_live (abs C s) + 1)) by done.
  split_and!; try done. split; [|by rewrite Habs].
  constructor; simpl; try done; try lia. by apply ring_pos_lt; lia.
Qed.

(** Closing an operation: the rings keep their shape, and the queues are the
    abstract step's. *)
Lemma implements_done {A} s' (x r : A) a' :
  sched_shape C s' -> a_inv C a' -> abs C s' = a' -> x = r ->
  sched_wf C s' /\ x = r /\ abs C s' = a'.
Proof using Type. intros H1 H2 H3 ->. split_and!; try done. split; [done|by rewrite H3]. Qed.

Lemma retire_wp r :
  implements C (retire C r) s (a_retire C (abs C s) r).1 (a_retire C (abs C s) r).2.
Proof using Hwf.
  pose proof (a_retire_inv C _ r (sw_inv C s Hwf)) as Hpost. unfold implements.
  pose proof Hwf as Hwf'. sch_bounds Hwf. unfold retire, a_retire in *. cbv zeta.
  destruct (N.leb_spec C (slot r)) as [|Hi]; [done|]. do 2 sch_step.
  change (slot_of (slots s) (slot r)) with (a_slot (abs C s) (slot r)).
  destruct (sl_generation (a_slot (abs C s) (slot r)) =? generation r); [|done].
  cbn [negb] in *. set (i := slot r) in *.
  destruct (sl_state (a_slot (abs C s) i)) eqn:Es; try done.
  - destruct (ai_slot C _ Hinv i Hi) as [_ Hok]. rewrite Es in Hok.
    destruct (reclaim_room C _ i Hinv Hi) as [_ Hroom]; [tauto|].
    simpl in Hroom. rewrite vlen_queue in Hroom.
    unfold retire_ready. repeat sch_step. apply implements_done; try done.
    + constructor; simpl; rewrite ?vlen_vset; try done; lia.
    + unfold abs. simpl. rewrite !slot_of_put by (rewrite ?vlen_vset; by rewrite Hslots).
      rewrite !vset_vset. f_equal. by apply queue_push.
  - unfold retire_inflight. repeat sch_step. apply implements_done; done.
Qed.

Lemma reclaim_head_eq :
  0 < reclaim_len s ->
  a_reclaim (abs C s) = vnth 0 (reclaim_ring s) (reclaim_head s) ::
    queue 0 C (reclaim_ring s) (ring_pos C (reclaim_head s) 1) (reclaim_len s - 1).
Proof using Hwf. intros H. destruct Hwf as [[] _]. by apply queue_head. Qed.

Lemma take_retiring_permit_wp :
  implements C (take_retiring_permit C) s (Ok (a_take (abs C s)).1) (a_take (abs C s)).2.
Proof using Hwf.
  pose proof (a_take_inv C _ (sw_inv C s Hwf)) as Hpost. unfold implements.
  pose proof reclaim_head_eq as Hhead. pose proof Hwf as Hwf'. sch_bounds Hwf.
  unfold take_retiring_permit, a_take in *. do 2 sch_step.
  destruct (N.eqb_spec (reclaim_len s) 0) as [Hz|Hz].
  { assert (Hnil : a_reclaim (abs C s) = []) by (simpl; by rewrite Hz). rewrite Hnil. by apply wp_ret. }
  rewrite Hhead in * by lia. specialize (Hhead ltac:(lia)).
  set (i := vnth 0 (reclaim_ring s) (reclaim_head s)) in *.
  set (rest := queue _ _ _ _ _) in *. cbn [fst snd] in *.
  assert (Hin : i ∈ a_reclaim (abs C s)) by (rewrite Hhead; set_solver).
  pose proof (proj1 (ai_reclaim C _ Hinv i) Hin) as [_ Hflag].
  apply (reclaim_retiring C _ Hinv) in Hin as (Hi & Hst & Ha).
  repeat sch_step. fold i. destruct (N.leb_spec C i); [lia|]. repeat sch_step.
  change (slot_of (slots s) i) with (a_slot (abs C s) i). rewrite Hst, Ha, Hflag. simpl.
  repeat sch_step. apply implements_done; try done.
  - constructor; simpl; try done; try lia. by apply ring_pos_lt; lia.
  - by rewrite (slot_index_id i C) by lia.
Qed.

Lemma preflight_next_reincarnation_wp :
  wp preflight_next_reincarnation s (fun s' r => s' = s /\ r =
    match a_reclaim (abs C s) with
    | [] => Err DetachmentMismatch
    | i :: _ => if sl_generation (a_slot (abs C s) i) =? u32_max then Err GenerationExhausted
                else Ok (handle_at (slots s) i)
    end).
Proof using Hwf.
  pose proof reclaim_head_eq as Hhead. sch_bounds Hwf. unfold preflight_next_reincarnation.
  do 2 sch_step. destruct (N.eqb_spec (reclaim_len s) 0) as [Hz|Hz].
  { assert (Hnil : a_reclaim (abs C s) = []) by (simpl; by rewrite Hz). by rewrite Hnil. }
  rewrite Hhead by lia. specialize (Hhead ltac:(lia)).
  set (i := vnth 0 (reclaim_ring s) (reclaim_head s)) in *.
  assert (Hin : i ∈ a_reclaim (abs C s)) by (rewrite Hhead; set_solver).
  apply (reclaim_retiring C _ Hinv) in Hin as (Hi & _ & _).
  repeat sch_step. fold i. repeat sch_step. unfold a_slot. simpl.
  destruct (_ =? u32_max); [done|]. by rewrite (slot_index_id i C) by lia.
Qed.

Lemma accept_finalized_wp f :
  implements C (accept_finalized C f) s (a_finalize C (abs C s) f).1 (a_finalize C (abs C s) f).2.
Proof using Hwf.
  pose proof (a_finalize_inv C _ f (sw_inv C s Hwf)) as Hpost. unfold implements.
  pose proof Hwf as Hwf'. sch_bounds Hwf.
  assert (Hpre : wp (finalized_preflight C f) s (fun s' r => s' = s /\
    match a_finalize_error C (abs C s) f with
    | Some e => r = Err e
    | None => exists epoch, finalized_origin f = CompletedExact epoch /\
                r = Ok (finalized_request f, epoch)
    end)).
  { unfold finalized_preflight, finalized_origin_epoch, a_finalize_error. cbv zeta. sch_step.
    destruct (finalized_origin f) as [|epoch]; [done|]. apply wp_ret. sch_step.
    unfold finalized_request_preflight. cbv zeta.
    destruct (N.leb_spec C (slot (finalized_request f))); [done|]. repeat sch_step.
    change (slot_of (slots s) ?i) with (a_slot (abs C s) i).
    destruct (_ =? generation _); simpl; [|done].
    destruct (sl_state _); simpl; try done.
    destruct (_ =? NO_EPOCH); simpl; [done|].
    change (a_completed (abs C s)) with (completed s).
    rewrite N.ltb_antisym. destruct (_ <=? completed s); simpl; [|done].
    destruct (_ =? epoch); simpl; [|done]. apply wp_ret. split; [done|]. eauto. }
  unfold accept_finalized. sch_step. eapply wp_mono; [exact Hpre|].
  intros ? x [-> Hx]. cbv beta. unfold a_finalize in *.
  destruct (a_finalize_error C (abs C s) f) as [e|] eqn:Ee; [by subst|].
  destruct Hx as (epoch & Ho & ->). rewrite Ho in *.
  apply a_finalize_ready in Ee as (Hi & _). unfold finalize_slot. simpl.
  repeat sch_step. apply implements_done; try done.
  unfold abs, put_a_slots. simpl. rewrite !slot_of_put by (rewrite ?vlen_vset; by rewrite Hslots).
  by rewrite !vset_vset.
Qed.

Lemma reclaim_detached_wp d :
  implements C (reclaim_detached C d) s (a_detach C (abs C s) d).1 (a_detach C (abs C s) d).2.
Proof using Hwf.
  pose proof (a_detach_inv C _ d (sw_inv C s Hwf)) as Hpost. unfold implements.
  pose proof Hwf as Hwf'. sch_bounds Hwf.
  assert (Hpre : wp (detached_preflight C d) s (fun s' r => s' = s /\
    match a_detach_error C (abs C s) d with
    | Some e => r = Err e
    | None => r = Ok (detached_request d, sl_generation (a_slot (abs C s) (slot (detached_request d))) + 1)
    end)).
  { unfold detached_preflight, a_detach_error. cbv zeta.
    destruct (N.leb_spec C (slot (detached_request d))) as [|Hi]; [done|]. repeat sch_step.
    change (slot_of (slots s) ?i) with (a_slot (abs C s) i).
    set (i := slot (detached_request d)) in *.
    destruct (_ =? generation _); simpl; [|done].
    destruct (sl_state (a_slot (abs C s) i)) eqn:Est; simpl; try done.
    destruct (sl_in_reclaim_ring _); simpl; [done|].
    change (a_completed (abs C s)) with (completed s).
    destruct (origin_matches _ _ _); simpl; [|done].
    destruct (free_room C _ i Hinv Hi) as [_ Hroom]; [congruence|].
    simpl in Hroom. rewrite vlen_queue in Hroom.
    destruct (ai_slot C _ Hinv i Hi) as [(Hg & _) _].
    unfold reclaim_next_generation. do 3 sch_step.
    change (slot_of (slots s) ?i) with (a_slot (abs C s) i).
    destruct (N.eqb_spec (sl_generation (a_slot (abs C s) i)) u32_max); [done|].
    repeat sch_step. destruct (N.eqb_spec (free_count s) C); [lia|]. by apply wp_ret. }
  unfold reclaim_detached. sch_step. eapply wp_mono; [exact Hpre|].
  intros ? x [-> Hx]. cbv beta. unfold a_detach in *.
  destruct (a_detach_error C (abs C s) d) as [e|] eqn:Ee; subst x; [done|].
  apply a_detach_ready in Ee as (Hi & _ & Hs & _).
  destruct (free_room C _ _ Hinv Hi) as [_ Hroom]; [congruence|].
  simpl in Hroom. rewrite vlen_queue in Hroom. cbn [fst snd].
  unfold reclaim_slot. cbv zeta. repeat sch_step. apply implements_done; try done.
  - constructor; simpl; rewrite ?vlen_vset; try done; lia.
  - unfold abs. simpl. f_equal. by apply queue_push.
Qed.

Lemma reincarnate_detached_wp d :
  a_detach_error C (abs C s) d = None ->
  implements C (reincarnate_detached d) s (a_reincarnate (abs C s) d).1 (a_reincarnate (abs C s) d).2.
Proof using Hwf.
  intros Ee. pose proof (a_reincarnate_inv C _ d (sw_inv C s Hwf) Ee) as Hpost. unfold implements.
  apply a_detach_ready in Ee as (Hi & _ & _ & _ & _ & Hmax).
  pose proof Hwf as Hwf'. sch_bounds Hwf.
  set (i := slot (detached_request d)) in *. destruct (ai_slot C _ Hinv i Hi) as [(Hg & _) _].
  unfold reincarnate_detached, reclaim_next_generation. cbv zeta. fold i.
  do 3 sch_step. change (slot_of (slots s) ?i) with (a_slot (abs C s) i).
  destruct (N.eqb_spec (sl_generation (a_slot (abs C s) i)) u32_max); [done|].
  repeat sch_step. apply implements_done; try done.
  by rewrite (slot_index_id i C) by lia.
Qed.
End ops.

(** ** Dispatch *)

(** Writing a run of values into a slice and into a ring. *)
Fixpoint write_list {A} (l : list A) (k : N) (xs : list A) : list A :=
  match xs with
  | [] => l
  | x :: xs' => write_list (vset l k x) (k + 1) xs'
  end.

Fixpoint push_list {A} (C head : N) (ring : list A) (len : N) (xs : list A) : list A :=
  match xs with
  | [] => ring
  | x :: xs' => push_list C head (vset ring (ring_pos C head len) x) (len + 1) xs'
  end.

Lemma vlen_write_list {A} (xs : list A) : forall l k, vlen (write_list l k xs) = vlen l.
Proof. induction xs as [|x xs IH]; intros l k; simpl; [done|]. by rewrite IH, vlen_vset. Qed.

Lemma vlen_push_list {A} C head (xs : list A) : forall ring len,
  vlen (push_list C head ring len xs) = vlen ring.
Proof. induction xs as [|x xs IH]; intros l k; simpl; [done|]. by rewrite IH, vlen_vset. Qed.

Lemma take_write_list {A} (xs : list A) : forall l k,
  k + vlen xs <= vlen l ->
  take (N.to_nat (k + vlen xs)) (write_list l k xs) = take (N.to_nat k) l ++ xs.
Proof.
  induction xs as [|x xs IH]; intros l k Hlen; simpl.
  - rewrite vlen_nil, N.add_0_r. by rewrite app_nil_r.
  - rewrite vlen_cons in *. replace (k + (vlen xs + 1)) with (k + 1 + vlen xs) by lia.
    rewrite IH by (rewrite vlen_vset; lia). replace (N.to_nat (k + 1)) with (S (N.to_nat k)) by lia.
    rewrite (take_S_r _ _ x) by (apply (vget_vset_eq l k x); lia).
    rewrite <- app_assoc. f_equal. unfold vset. rewrite take_insert_ge by lia. done.
Qed.

Lemma write_list_app {A} (xs : list A) : forall l k, k + vlen xs <= vlen l ->
  write_list l k xs = take (N.to_nat k) l ++ xs ++ drop (N.to_nat (k + vlen xs)) l.
Proof.
  induction xs as [|x xs IH]; intros l k Hlen; cbn [write_list].
  { rewrite vlen_nil, N.add_0_r. simpl. by rewrite take_drop. }
  rewrite vlen_cons in *. rewrite IH by (rewrite vlen_vset; lia).
  replace (N.to_nat (k + 1)) with (S (N.to_nat k)) by lia.
  rewrite (take_S_r _ _ x) by (apply (vget_vset_eq l k x); lia).
  unfold vset. rewrite take_insert_ge, drop_insert_lt by lia. rewrite <- app_assoc. simpl.
  do 4 f_equal. lia.
Qed.

Lemma queue_push_list {A} (d : A) C head (xs : list A) : forall ring len,
  head < C -> len + vlen xs <= C -> vlen ring = C ->
  queue d C (push_list C head ring len xs) head (len + vlen xs) = queue d C ring head len ++ xs.
Proof.
  induction xs as [|x xs IH]; intros ring len Hh Hl Hr; simpl.
  - rewrite vlen_nil, N.add_0_r. by rewrite app_nil_r.
  - rewrite vlen_cons in *. replace (len + (vlen xs + 1)) with (len + 1 + vlen xs) by lia.
    rewrite IH by (rewrite ?vlen_vset; lia). rewrite queue_push by lia. by rewrite <- app_assoc.
Qed.

Definition with_dispatch (s : Scheduler) (sl : list Slot) (ring : list RequestId) : Scheduler :=
  put_member_ring ring (put_slots sl s).

Lemma scan_suffix C cur scanned :
  scanned < C ->
  (fun k => ring_pos C cur (N.of_nat k)) <$> seq (N.to_nat scanned) (N.to_nat (C - scanned)) =
  ring_pos C cur scanned ::
    ((fun k => ring_pos C cur (N.of_nat k)) <$>
       seq (N.to_nat (scanned + 1)) (N.to_nat (C - (scanned + 1)))).
Proof.
  intros H. replace (N.to_nat (C - scanned)) with (S (N.to_nat (C - (scanned + 1)))) by lia.
  replace (N.to_nat (scanned + 1)) with (S (N.to_nat scanned)) by lia. simpl.
  by rewrite N2Nat.id.
Qed.

(** The scan loop computes [a_scan] on the rest of the scan order. *)
Lemma dispatch_scan_wp C fuel : forall s output limit epoch scanned selected chosen sl n,
  0 < C <= MAX_REQUEST_SLOTS -> vlen (slots s) = C -> vlen (member_ring s) = C ->
  cursor s < C -> member_head s < C -> N.of_nat fuel = C - scanned -> scanned <= C ->
  selected <= limit -> limit <= vlen output -> member_len s + limit <= C -> limit <= C ->
  a_scan ((fun k => ring_pos C (cursor s) (N.of_nat k)) <$>
            seq (N.to_nat scanned) (N.to_nat (C - scanned))) (limit - selected) epoch (slots s)
    = (chosen, sl, n) ->
  wp (dispatch_scan C fuel output limit epoch (ring_pos C (cursor s) scanned) scanned selected
        (ring_pos C (member_head s) (member_len s + selected))) s (fun s' r =>
    s' = with_dispatch s sl (push_list C (member_head s) (member_ring s) (member_len s + selected) chosen) /\
    r = (selected + vlen chosen, ring_pos C (cursor s) (scanned + n),
         write_list output selected chosen)).
Proof.
  induction fuel as [|fuel IH];
    intros s output limit epoch scanned selected chosen sl n HC Hsl Hmr Hcur Hmh Hfuel Hscd Hsel Hlim
      Hml HlC Hscan; cbn [dispatch_scan].
  { replace (N.to_nat (C - scanned)) with 0%nat in Hscan by lia. simpl in Hscan.
    injection Hscan as <- <- <-. apply wp_ret. rewrite vlen_nil, !N.add_0_r. simpl.
    split; [by destruct s|done]. }
  rewrite scan_suffix in Hscan by lia. cbn [a_scan] in Hscan.
  destruct (N.ltb_spec scanned C) as [Hs|Hs]; [|lia]. simpl.
  destruct (N.ltb_spec selected limit) as [Hsl'|Hsl'].
  2:{ destruct (N.ltb_spec 0 (limit - selected)); [lia|]. injection Hscan as <- <- <-.
      apply wp_ret. rewrite vlen_nil, !N.add_0_r. simpl. split; [by destruct s|done]. }
  destruct (N.ltb_spec 0 (limit - selected)); [|lia].
  assert (Hidx : ring_pos C (cursor s) scanned < C) by (apply ring_pos_lt; lia).
  assert (Hpos : ring_pos C (member_head s) (member_len s + selected) < C) by (apply ring_pos_lt; lia).
  set (i := ring_pos C (cursor s) scanned) in *.
  set (order := (fun k => ring_pos C (cursor s) (N.of_nat k)) <$> seq (N.to_nat (scanned + 1)) _) in *.
  unfold MAX_REQUEST_SLOTS in *. do 2 sch_step.
  (* a slot that is not ready is skipped *)
  assert (Hskip : forall chosen1 sl1 n1,
    a_scan order (limit - selected) epoch (slots s) = (chosen1, sl1, n1) ->
    (chosen1, sl1, n1 + 1) = (chosen, sl, n) ->
    wp (bind (ret (output, ring_pos C (member_head s) (member_len s + selected), selected))
          (fun '(output', member_tail', selected') =>
             bind (advance C i) (fun slot_index' =>
             bind (add_usize scanned 1) (fun scanned' =>
               dispatch_scan C fuel output' limit epoch slot_index' scanned' selected' member_tail'))))
      s (fun s' r => s' = with_dispatch s sl
            (push_list C (member_head s) (member_ring s) (member_len s + selected) chosen) /\
         r = (selected + vlen chosen, ring_pos C (cursor s) (scanned + n),
              write_list output selected chosen))).
  { intros chosen1 sl1 n1 E Heq. injection Heq as -> -> <-. do 6 sch_step.
    unfold i. rewrite ring_pos_add by lia.
    replace (scanned + (n1 + 1)) with (scanned + 1 + n1) by lia.
    apply IH; try done; lia. }
  destruct (sl_state (slot_of (slots s) i)) eqn:Est.
  - destruct (a_scan order (limit - selected) epoch (slots s)) as [[chosen1 sl1] n1] eqn:E.
    by apply (Hskip _ _ _ eq_refl).
  - clear Hskip.
    destruct (a_scan order (limit - selected - 1) epoch _) as [[chosen1 sl1] n1] eqn:E.
    injection Hscan as <- <- <-. unfold dispatch_one_selected. repeat sch_step.
    apply wp_slice_set; [lia|]. repeat sch_step.
    rewrite slot_of_put by by rewrite Hsl. rewrite vset_vset.
    change (set_sl_active epoch (set_sl_state InFlight ?x)) with (dispatch_slot epoch x).
    rewrite (slot_index_id i C) by (unfold MAX_REQUEST_SLOTS; lia).
    change (mkRequestId i (sl_generation (slot_of (slots s) i))) with (handle_at (slots s) i).
    match goal with |- wp _ ?x _ => set (s1 := x) end.
    unfold i. rewrite !ring_pos_add by lia. fold i.
    replace (member_len s + selected + 1) with (member_len s + (selected + 1)) by lia.
    assert (HIH := IH s1 (vset output selected (handle_at (slots s) i)) limit epoch (scanned + 1)
      (selected + 1) chosen1 sl1 n1). change (cursor s1) with (cursor s) in HIH.
    eapply wp_mono; [apply HIH; try done; simpl; rewrite ?vlen_vset; try done; try lia|].
    + by replace (limit - (selected + 1)) with (limit - selected - 1) by lia.
    + intros s' r [-> ->]. rewrite vlen_cons. simpl. split.
      * unfold with_dispatch. simpl.
        by replace (member_len s + (selected + 1)) with (member_len s + selected + 1) by lia.
      * replace (selected + 1 + vlen chosen1) with (selected + (vlen chosen1 + 1)) by lia.
        by replace (scanned + 1 + n1) with (scanned + (n1 + 1)) by lia.
  - destruct (a_scan order (limit - selected) epoch (slots s)) as [[chosen1 sl1] n1] eqn:E.
    by apply (Hskip _ _ _ eq_refl).
  - destruct (a_scan order (limit - selected) epoch (slots s)) as [[chosen1 sl1] n1] eqn:E.
    by apply (Hskip _ _ _ eq_refl).
Qed.

Section dispatch.
Context (C : N) (s : Scheduler) (Hwf : sched_wf C s).

(** The state a dispatch of [chosen] leaves. *)
Definition committed_state (sl : list Slot) (chosen : list RequestId) (epoch cur : N) : Scheduler :=
  put_scalars cur epoch (completed s) (live_count s)
    (put_batches (vset (batch_ring s) (ring_pos C (batch_head s) (batch_len s))
        (mkBatchRecord (mkEpoch epoch) (vlen chosen))) (batch_head s) (batch_len s + 1)
      (put_members (push_list C (member_head s) (member_ring s) (member_len s) chosen)
         (member_head s) (member_len s + vlen chosen) (put_slots sl s))).

Lemma committed_state_abs sl chosen epoch cur :
  batch_len s < C -> member_len s + vlen chosen <= C ->
  abs C (committed_state sl chosen epoch cur) = a_commit (abs C s) sl chosen epoch cur.
Proof using Hwf.
  intros Hb Hm. destruct Hwf as [[] _]. unfold abs, a_commit. simpl.
  by rewrite queue_push_list, queue_push by done.
Qed.

Lemma committed_state_shape sl chosen epoch cur :
  batch_len s < C -> member_len s + vlen chosen <= C ->
  sched_shape C (committed_state sl chosen epoch cur).
Proof using Hwf.
  intros Hb Hm. destruct Hwf as [[] _].
  constructor; simpl; rewrite ?vlen_vset, ?vlen_push_list; try done; lia.
Qed.

Lemma members_len : vlen (a_members (abs C s)) = member_len s.
Proof using Type. apply vlen_queue. Qed.

Lemma batches_len : vlen (a_batches (abs C s)) = batch_len s.
Proof using Type. apply vlen_queue. Qed.

Definition dispatch_result (output : list RequestId)
    (r : result (option (list RequestId)) SchedulerError) :
    result (option DispatchBatch) SchedulerError * list RequestId :=
  match r with
  | Err e => (Err e, output)
  | Ok None => (Ok None, output)
  | Ok (Some chosen) =>
      (Ok (Some (mkDispatchBatch (mkEpoch (submitted s + 1)) (vlen chosen))), write_list output 0 chosen)
  end.

Lemma dispatch_ready_wp output :
  let d := a_dispatch C (abs C s) (vlen output) in
  implements C (dispatch_ready C output) s (dispatch_result output d.1) d.2.
Proof using Hwf.
  cbv zeta. pose proof (a_dispatch_inv C _ (vlen output) (sw_inv C s Hwf)) as Hpost.
  unfold implements. pose proof Hwf as Hwf'. sch_bounds Hwf.
  unfold dispatch_ready, dispatch_preflight, a_dispatch in *.
  rewrite members_len, batches_len in *.
  change (a_submitted (abs C s)) with (submitted s) in *.
  change (a_cursor (abs C s)) with (cursor s) in *.
  change (a_slots (abs C s)) with (slots s) in *. sch_step.
  destruct (N.eqb_spec (vlen output) 0) as [|Hout]; [by apply wp_ret|]. do 2 sch_step.
  unfold checked_add. rewrite N.ltb_antisym in *.
  destruct (N.leb_spec (submitted s + 1) u64_max) as [Hsub1|]; [|by apply wp_ret].
  cbn [negb] in *. do 4 sch_step.
  destruct (N.eqb_spec (batch_len s) C) as [|Hbl]; [by apply wp_ret|].
  destruct (N.eqb_spec (member_len s) C) as [|Hml]; [by apply wp_ret|]. cbn [orb] in *.
  repeat sch_step.
  assert (Hlimit : (if vlen output <? C - member_len s then vlen output else C - member_len s) =
    N.min (vlen output) (C - member_len s)).
  { destruct (N.ltb_spec (vlen output) (C - member_len s)); lia. }
  rewrite Hlimit. set (limit := N.min _ _) in *. set (epoch := submitted s + 1) in *.
  destruct (a_scan (scan_order C (cursor s)) limit epoch (slots s)) as [[chosen sl] n] eqn:Escan.
  pose proof (scan_dispatchable C _ Hinv limit epoch chosen sl n Escan) as (_ & Hsl & Hn & Hch).
  unfold dispatch_enabled, dispatch_scan_commit. repeat sch_step.
  pose proof (dispatch_scan_wp C (N.to_nat C) s output limit epoch 0 0 chosen sl n) as Hscan.
  rewrite N.add_0_r, ring_pos_0, !N.add_0_l, N.sub_0_r in Hscan by done.
  eapply wp_mono; [apply Hscan; try done; try lia; rewrite N.sub_0_r; apply Escan|].
  clear Hscan. intros s' r [-> ->]. cbv beta.
  destruct chosen as [|r chosen].
  { simpl. sch_step. simpl in Hsl. subst sl. apply wp_ret. by apply implements_done. }
  destruct (N.eqb_spec (vlen (r :: chosen)) 0) as [Hz|_]; [rewrite vlen_cons in Hz; lia|].
  set (rs := r :: chosen) in *.
  unfold with_dispatch. repeat sch_step.
  cbn [snd fst dispatch_result] in *. apply implements_done; try done.
  - apply (committed_state_shape sl rs epoch); lia.
  - apply (committed_state_abs sl rs epoch); lia.
Qed.
End dispatch.

(** ** Exact rosters *)
Lemma drop_vget {A} (l : list A) (k : N) (x : A) (rest : list A) :
  drop (N.to_nat k) l = x :: rest ->
  vget l k = Some x /\ drop (N.to_nat (k + 1)) l = rest /\ k < vlen l /\
  take (N.to_nat (k + 1)) l = take (N.to_nat k) l ++ [x].
Proof.
  intros H. assert (Hx : l !! N.to_nat k = Some x).
  { replace (N.to_nat k) with (N.to_nat k + 0)%nat by lia. by rewrite <- lookup_drop, H. }
  replace (N.to_nat (k + 1)) with (S (N.to_nat k)) by lia.
  split_and!; [done| | |by apply take_S_r].
  - erewrite drop_S in H by exact Hx. by injection H.
  - apply lookup_lt_Some in Hx. unfold vlen. lia.
Qed.

Lemma duplicate_scan_wp {S} (s : S) requests r lane fuel : forall k,
  N.of_nat fuel = lane - k -> k <= lane -> lane <= vlen requests -> vlen requests <= usize_max ->
  wp (duplicate_scan fuel requests r lane k) s (fun s' x => s' = s /\
    x = (fun p => k + N.of_nat p.1) <$>
          list_find (fun r' => slot r' = slot r) (drop (N.to_nat k) (take (N.to_nat lane) requests))).
Proof.
  induction fuel as [|fuel IH]; intros k Hf Hk Hlane Hmax; cbn [duplicate_scan].
  - rewrite drop_ge; [done|]. rewrite length_take. lia.
  - destruct (N.ltb_spec k lane); [|lia].
    destruct (vget_lt requests k) as [r' Hr']; [lia|].
    assert (Ht : take (N.to_nat lane) requests !! N.to_nat k = Some r').
    { rewrite lookup_take_lt by lia. exact Hr'. }
    rewrite (drop_S _ _ _ Ht). sch_step. eapply wp_slice_at; [exact Hr'|].
    cbn [list_find]. destruct (N.eqb_spec (slot r') (slot r)) as [He|He].
    + rewrite decide_True by done. apply wp_ret. split; [done|]. simpl. f_equal. lia.
    + rewrite decide_False by done. sch_step. apply wp_add_usize; [lia|].
      eapply wp_mono; [apply IH; lia|]. intros ? x [-> ->]. split; [done|].
      replace (N.to_nat (k + 1)) with (Datatypes.S (N.to_nat k)) by lia.
      destruct (list_find _ _) as [[j y]|]; simpl; [|done]. f_equal. lia.
Qed.

Section exact.
Context (C : N) (s : Scheduler) (Hwf : sched_wf C s).

Lemma roster_check_wp requests rest : forall lane,
  drop (N.to_nat lane) requests = rest -> vlen requests <= usize_max ->
  wp (roster_check C (length rest) requests lane) s (fun s' x => s' = s /\
    x = match roster_error C (abs C s) (take (N.to_nat lane) requests) rest with
        | Some e => Err e | None => Ok tt end).
Proof using Hwf.
  induction rest as [|r rest IH]; intros lane Hrest Hmax; cbn [roster_check length roster_error].
  { by apply wp_ret. }
  apply drop_vget in Hrest as (Hr & Hrest & Hlt & Htake).
  sch_step. eapply wp_slice_at; [exact Hr|]. sch_step.
  eapply wp_mono; [apply duplicate_scan_wp; lia|]. intros ? x [-> ->]. cbv beta. rewrite drop_0.
  assert (Hlane : vlen (take (N.to_nat lane) requests) = lane).
  { unfold vlen. rewrite length_take. unfold vlen in Hlt. lia. }
  rewrite Hlane. destruct (list_find _ _) as [[k y]|]; simpl; [by apply wp_ret|].
  sch_step. eapply wp_mono; [by apply request_state_wp|]. intros ? st [-> ->]. cbv beta.
  destruct (a_state C (abs C s) r) as [[]|]; try done.
  sch_step. apply wp_add_usize; [lia|]. rewrite <- Htake. by apply IH.
Qed.

Lemma dispatch_exact_loop_wp (requests : list RequestId) (epoch : N) (rest : list RequestId) : forall s1 lane,
  drop (N.to_nat lane) requests = rest -> vlen requests <= usize_max -> 0 < C <= MAX_REQUEST_SLOTS ->
  vlen (slots s1) = C -> vlen (member_ring s1) = C -> member_head s1 < C ->
  member_len s1 + vlen requests <= C -> (forall r, r ∈ rest -> slot r < C) ->
  wp (dispatch_exact_loop C (length rest) requests epoch lane
        (ring_pos C (member_head s1) (member_len s1 + lane))) s1 (fun s' _ =>
    s' = with_dispatch s1 (dispatch_all epoch (slots s1) rest)
           (push_list C (member_head s1) (member_ring s1) (member_len s1 + lane) rest)).
Proof using Type.
  clear Hwf s. induction rest as [|r rest IH]; intros s1 lane Hrest Hmax HC Hsl Hmr Hmh Hml Hlt;
    cbn [dispatch_exact_loop length].
  { apply wp_ret. by destruct s1. }
  apply drop_vget in Hrest as (Hr & Hrest & Hlane & _).
  assert (Hslot : slot r < C) by (apply Hlt; set_solver).
  assert (Hpos : ring_pos C (member_head s1) (member_len s1 + lane) < C) by (apply ring_pos_lt; lia).
  sch_step. eapply wp_slice_at; [exact Hr|]. cbv zeta. unfold MAX_REQUEST_SLOTS in *.
  repeat sch_step. rewrite slot_of_put by by rewrite Hsl. rewrite vset_vset.
  change (set_sl_active epoch (set_sl_state InFlight ?x)) with (dispatch_slot epoch x).
  match goal with |- wp _ ?x _ => set (s2 := x) end.
  rewrite ring_pos_add by lia. replace (member_len s1 + lane + 1) with (member_len s1 + (lane + 1)) by lia.
  eapply wp_mono; [apply (IH s2 (lane + 1)); try done; simpl; rewrite ?vlen_vset; try done; try lia|].
  { intros r' Hr'. apply Hlt. set_solver. }
  intros s' _ ->. unfold with_dispatch, dispatch_all. simpl.
  by replace (member_len s1 + (lane + 1)) with (member_len s1 + lane + 1) by lia.
Qed.

Lemma copy_selected_wp {S} (t : S) requests rest : forall lane selected,
  drop (N.to_nat lane) requests = rest -> vlen requests <= vlen selected -> vlen selected <= usize_max ->
  wp (copy_selected (length rest) requests lane selected) t (fun t' l =>
    t' = t /\ l = write_list selected lane rest).
Proof using Type.
  clear Hwf s. induction rest as [|r rest IH]; intros lane selected Hrest Hlen Hmax; cbn [copy_selected length].
  { by apply wp_ret. }
  apply drop_vget in Hrest as (Hr & Hrest & Hlane & _).
  sch_step. eapply wp_slice_at; [exact Hr|]. sch_step. apply wp_slice_set; [lia|].
  sch_step. apply wp_add_usize; [lia|]. apply IH; rewrite ?vlen_vset; done.
Qed.

Lemma fill_members_wp {S} (t : S) (selected : list RequestId) (rest : list RequestId) : forall index members,
  take (length rest) (drop (N.to_nat index) selected) = rest ->
  index + vlen rest <= vlen members -> vlen members <= usize_max ->
  wp (fill_members (length rest) selected index members) t (fun t' l =>
    t' = t /\ l = write_list members index (Some <$> rest)).
Proof using Type.
  clear Hwf s. induction rest as [|r rest IH]; intros index members Hrest Hlen Hmax; cbn [fill_members length].
  { by apply wp_ret. }
  rewrite vlen_cons in Hlen.
  destruct (drop (N.to_nat index) selected) as [|x rest'] eqn:Ed; [done|]. simpl in Hrest.
  injection Hrest as -> Hrest. apply drop_vget in Ed as (Hr & Hd & Hlane & _).
  sch_step. eapply wp_slice_at; [exact Hr|]. sch_step. apply wp_slice_set; [lia|].
  sch_step. apply wp_add_usize; [lia|]. rewrite fmap_cons. cbn [write_list]. 
  apply IH; rewrite ?vlen_vset; try done; [by rewrite Hd|lia].
Qed.

(** The dispatch metadata of a batch with members [rs]. *)
Definition scheduled (epoch : N) (rs : list RequestId) : M1ScheduledDispatchV1 :=
  mkScheduledDispatch (mkDispatchBatch (mkEpoch epoch) (vlen rs))
    (write_list (vfill M1_MAX_ACTIVE_SEQUENCES None) 0 (Some <$> rs)).

Lemma from_dispatch_batch_wp {S} (t : S) epoch selected rs :
  take (length rs) selected = rs -> vlen rs <= M1_MAX_ACTIVE_SEQUENCES ->
  wp (from_dispatch_batch (mkDispatchBatch (mkEpoch epoch) (vlen rs)) selected) t (fun t' x =>
    t' = t /\ x = scheduled epoch rs).
Proof using Type.
  clear Hwf s. intros Hsel Hlen. unfold from_dispatch_batch. sch_step. simpl db_member_count.
  replace (N.to_nat (vlen rs)) with (length rs) by (unfold vlen; lia).
  eapply wp_mono; [apply fill_members_wp; rewrite ?vlen_vfill; try done|].
  intros ? l [-> ->]. by apply wp_ret.
Qed.

Lemma dispatch_m1_exact_ready_wp expected requests :
  let d := a_dispatch_exact C (abs C s) expected requests in
  implements C (dispatch_m1_exact_ready C expected requests) s
    match d.1 with Ok rs => Ok (scheduled (submitted s + 1) rs) | Err e => Err e end d.2.
Proof using Hwf.
  cbv zeta. pose proof (a_dispatch_exact_inv C _ expected requests (sw_inv C s Hwf)) as Hpost.
  unfold implements. pose proof Hwf as Hwf'. sch_bounds Hwf.
  unfold a_dispatch_exact in *.
  destruct (exact_error C (abs C s) expected requests) as [e|] eqn:Ee.
  - cbn [fst snd]. unfold dispatch_m1_exact_ready, exact_error in *. cbv zeta in Ee.
    rewrite (members_len C s), (batches_len C s) in Ee.
    change (a_submitted (abs C s)) with (submitted s) in Ee.
    destruct (vlen requests =? 0); [injection Ee as <-; by apply wp_ret|].
    destruct (N.ltb_spec M1_MAX_ACTIVE_SEQUENCES (vlen requests)); [injection Ee as <-; by apply wp_ret|].
    do 2 sch_step. unfold checked_add. rewrite N.ltb_antisym in Ee.
    destruct (submitted s + 1 <=? u64_max); cbn [negb] in Ee; [|injection Ee as <-; by apply wp_ret].
    destruct expected as [ex]. simpl value in Ee.
    destruct (N.eqb_spec ex (submitted s + 1)) as [->|Hne]; cbn [negb] in Ee.
    2:{ injection Ee as <-. rewrite bool_decide_eq_true_2 by congruence. by apply wp_ret. }
    rewrite bool_decide_eq_false_2 by tauto. do 2 sch_step.
    destruct (batch_len s =? C); [injection Ee as <-; by apply wp_ret|].
    repeat sch_step. destruct (C - member_len s <? vlen requests); [injection Ee as <-; by apply wp_ret|].
    sch_step. eapply wp_mono; [apply (roster_check_wp requests requests 0); [done|]|].
    + unfold M1_MAX_ACTIVE_SEQUENCES, usize_max, u64_max in *. lia.
    + intros ? x [-> ->]. cbv beta. change (take (N.to_nat 0) requests) with (@nil RequestId).
      by rewrite Ee.
  - pose proof (exact_dispatchable C (abs C s) expected requests) as Hd.
    rewrite (members_len C s) in Hd. specialize (Hd ltac:(done) Ee).
    rewrite (batches_len C s) in Hd. destruct Hd as ([Hnd Hrs] & Hne & Hs64 & Hroom & Hbl).
    change (a_submitted (abs C s)) with (submitted s) in *. change (a_slots (abs C s)) with (slots s) in *.
    change (a_cursor (abs C s)) with (cursor s) in *. cbn [fst snd] in *.
    unfold dispatch_m1_exact_ready, exact_error in *. cbv zeta in Ee.
    rewrite (members_len C s), (batches_len C s) in Ee.
    change (a_submitted (abs C s)) with (submitted s) in Ee.
    destruct (vlen requests =? 0); [done|].
    destruct (N.ltb_spec M1_MAX_ACTIVE_SEQUENCES (vlen requests)) as [|Hm1]; [done|].
    do 2 sch_step. unfold checked_add. destruct (submitted s + 1 <=? u64_max) eqn:E64.
    2:{ apply N.leb_gt in E64. lia. }
    destruct (u64_max <? submitted s + 1); [done|]. destruct expected as [ex]. simpl value in Ee.
    destruct (N.eqb_spec ex (submitted s + 1)) as [->|]; [|done]. cbn [negb] in Ee.
    rewrite bool_decide_eq_false_2 by tauto. do 2 sch_step.
    destruct (batch_len s =? C); [done|]. repeat sch_step.
    destruct (C - member_len s <? vlen requests); [done|].
    set (epoch := submitted s + 1) in *.
    assert (Hmax : vlen requests <= usize_max)
      by (unfold M1_MAX_ACTIVE_SEQUENCES, usize_max, u64_max in *; lia).
    sch_step. eapply wp_mono; [by apply (roster_check_wp requests requests 0)|].
    intros ? x [-> ->]. cbv beta. change (take (N.to_nat 0) requests) with (@nil RequestId). rewrite Ee.
    sch_step. eapply wp_mono; [apply (copy_selected_wp s requests requests 0); rewrite ?vlen_vfill; done|].
    intros ? selected [-> ->]. cbv beta. sch_step. unfold dispatch_exact_commit. repeat sch_step.
    pose proof (dispatch_exact_loop_wp requests epoch requests s 0) as Hloop.
    rewrite N.add_0_r in Hloop. eapply wp_mono; [apply Hloop; try done|].
    { intros r Hr. by apply Hrs. }
    clear Hloop. intros s1 _ ->. unfold with_dispatch. repeat sch_step.
    eapply wp_mono; [apply (from_dispatch_batch_wp _ epoch _ requests); [|done]|].
    + pose proof (take_write_list requests (vfill M1_MAX_ACTIVE_SEQUENCES (mkRequestId 0 0)) 0) as Ht.
      rewrite vlen_vfill, N.add_0_l in Ht. specialize (Ht Hm1).
      replace (length requests) with (N.to_nat (vlen requests)) by (unfold vlen; lia). exact Ht.
    + intros ? x [-> ->]. apply wp_ret. apply implements_done; try done.
      * apply (committed_state_shape C s Hwf' (dispatch_all epoch (slots s) requests) requests epoch); lia.
      * apply (committed_state_abs C s Hwf'); lia.
Qed.
End exact.

(** ** Exact completion *)
Definition occupied (p : option KvQuiescencePermit) : bool :=
  match p with Some _ => true | None => false end.

Section complete_ops.
Context (C : N) (s : Scheduler) (Hwf : sched_wf C s).

Lemma member_at k :
  k < member_len s ->
  a_members (abs C s) !! N.to_nat k =
    Some (vnth (mkRequestId 0 0) (member_ring s) (ring_pos C (member_head s) k)).
Proof using Type. clear Hwf. intros Hk. by apply queue_lookup. Qed.

Section head_batch.
Context (b : BatchRecord) (rest : list BatchRecord) (Hb : a_batches (abs C s) = b :: rest).
Let n := br_member_count b.

Lemma head_count_le : n <= member_len s.
Proof using Hwf Hb.
  pose proof (head_members_length C _ b rest (sw_inv C s Hwf) Hb) as H.
  pose proof (members_len C s) as H'. unfold vlen in H'. unfold n. lia.
Qed.

Lemma head_member_at k :
  k < n -> exists r, a_members (abs C s) !! N.to_nat k = Some r /\ r ∈ a_head_members (abs C s).
Proof using Hwf Hb.
  intros Hk. pose proof head_count_le. exists (vnth (mkRequestId 0 0) (member_ring s) (ring_pos C (member_head s) k)).
  assert (Hm := member_at k ltac:(lia)). split; [done|].
  unfold a_head_members. rewrite Hb. apply elem_of_take. exists (N.to_nat k).
  split; [done|]. fold n. lia.
Qed.

Lemma completion_preflight_loop_wp permits count : forall k,
  k + N.of_nat count = n -> n <= vlen permits -> n <= usize_max ->
  wp (completion_preflight_loop C count (completed s + 1) permits k (ring_pos C (member_head s) k)) s
    (fun s' r => s' = s /\
      r = if existsb occupied (take count (drop (N.to_nat k) permits))
          then Err CompletionStorageNotEmpty else Ok tt).
Proof using Hwf Hb.
  pose proof head_count_le as Hn. induction count as [|count IH]; intros k Hk Hp Hmax;
    cbn [completion_preflight_loop]; [by apply wp_ret|].
  destruct (vget_lt permits k) as [p Hpk]; [lia|].
  destruct (head_member_at k ltac:(lia)) as (r & Hr & Hhead).
  assert (Hin : r ∈ a_members (abs C s)) by by apply list_elem_of_lookup_2 in Hr.
  pose proof (head_member_active C _ b rest (sw_inv C s Hwf) Hb r Hhead) as Hact.
  destruct (ai_member C _ (sw_inv C s Hwf) r Hin) as (Hslot & Hg & Hst).
  rewrite member_at in Hr by lia. injection Hr as Hr.
  pose proof Hwf as Hwf'. sch_bounds Hwf.
  sch_step. eapply wp_slice_at; [exact Hpk|]. erewrite (drop_S permits) by exact Hpk. cbn [take existsb].
  destruct p as [p|]; simpl; [by apply wp_ret|]. repeat sch_step. rewrite Hr.
  destruct (N.leb_spec C (slot r)); [lia|]. repeat sch_step.
  change (slot_of (slots s) (slot r)) with (a_slot (abs C s) (slot r)).
  change (a_completed (abs C s)) with (completed s) in Hact.
  rewrite Hg, Hact, !N.eqb_refl. simpl.
  replace (S (N.to_nat k)) with (N.to_nat (k + 1)) by lia.
  assert (Hnext : wp (bind (advance C (ring_pos C (member_head s) k)) (fun check_head' =>
    bind (add_usize k 1) (fun checked' =>
      completion_preflight_loop C count (completed s + 1) permits checked' check_head'))) s
    (fun s' x => s' = s /\ x = if existsb occupied (take count (drop (N.to_nat (k + 1)) permits))
                               then Err CompletionStorageNotEmpty else Ok tt)).
  { repeat sch_step. rewrite ring_pos_add by lia. apply IH; lia. }
  destruct Hst as [-> | ->]; exact Hnext.
Qed.

Lemma complete_loop_wp count : forall k permits,
  k + N.of_nat count = n -> n <= vlen permits -> n <= usize_max ->
  wp (complete_loop C count (completed s + 1) k (ring_pos C (member_head s) k) permits) s
    (fun s' x => s' = s /\ x = (ring_pos C (member_head s) n,
       write_list permits k (completion_permits (completed s + 1)
         (take count (drop (N.to_nat k) (a_members (abs C s))))))).
Proof using Hwf Hb.
  pose proof head_count_le as Hn. induction count as [|count IH]; intros k permits Hk Hp Hmax;
    cbn [complete_loop].
  { apply wp_ret. by replace n with k by lia. }
  pose proof (member_at k ltac:(lia)) as Hr. pose proof Hwf as Hwf'. sch_bounds Hwf.
  assert (Hpos : ring_pos C (member_head s) k < C) by (apply ring_pos_lt; lia).
  erewrite drop_S by exact Hr. cbn [take]. unfold completion_permits. rewrite fmap_cons. cbn [write_list].
  do 2 sch_step. sch_step. apply wp_slice_set; [lia|]. repeat sch_step.
  rewrite ring_pos_add by lia. replace (S (N.to_nat k)) with (N.to_nat (k + 1)) by lia.
  apply IH; rewrite ?vlen_vset; lia.
Qed.
End head_batch.

Lemma batch_head_eq :
  0 < batch_len s ->
  a_batches (abs C s) = vnth BatchRecord_EMPTY (batch_ring s) (batch_head s) ::
    queue BatchRecord_EMPTY C (batch_ring s) (ring_pos C (batch_head s) 1) (batch_len s - 1).
Proof using Hwf. intros H. destruct Hwf as [[] _]. by apply queue_head. Qed.

Definition completion_result (completion : ExactCompletion) (permits : list (option KvQuiescencePermit)) :
    result N CompletionFailure * list (option KvQuiescencePermit) * AbsSched :=
  match a_complete_error (abs C s) (value (ec_epoch completion)) permits with
  | Some e => (Err (mkCompletionFailure e completion), permits, abs C s)
  | None =>
      let rs := a_head_members (abs C s) in
      (Ok (vlen rs), write_list permits 0 (completion_permits (completed s + 1) rs),
       a_completed_state (abs C s))
  end.

Lemma complete_exact_wp completion permits :
  let r := completion_result completion permits in
  implements C (complete_exact C completion permits) s r.1 r.2.
Proof using Hwf.
  cbv zeta. unfold implements, completion_result, a_complete_error.
  pose proof batch_head_eq as Hhead. pose proof Hwf as Hwf'. sch_bounds Hwf.
  unfold complete_exact. do 2 sch_step.
  destruct (N.eqb_spec (batch_len s) 0) as [Hz|Hz].
  { assert (Hnil : a_batches (abs C s) = []) by (simpl; by rewrite Hz). rewrite Hnil. by apply wp_ret. }
  specialize (Hhead ltac:(lia)). rewrite Hhead.
  set (b := vnth BatchRecord_EMPTY (batch_ring s) (batch_head s)) in *.
  set (rest := queue _ _ _ _ _) in *. set (e := value (ec_epoch completion)).
  change (a_completed (abs C s)) with (completed s).
  destruct (head_epoch C _ b rest Hinv Hhead) as [Hbe Hbc].
  change (a_completed (abs C s)) with (completed s) in Hbe.
  do 2 sch_step. unfold checked_add. destruct (N.leb_spec (completed s + 1) u64_max); [|lia].
  destruct (N.eqb_spec e (completed s + 1)) as [He|]; cbn [negb]; [|by apply wp_ret].
  repeat sch_step. fold b. rewrite Hbe, <- He, N.eqb_refl. cbn [negb orb].
  destruct (N.eqb_spec (br_member_count b) 0); [lia|].
  destruct (N.ltb_spec (vlen permits) (br_member_count b)) as [|Hlen]; [by apply wp_ret|].
  pose proof (head_count_le b rest Hhead) as Hn.
  assert (Hmax : br_member_count b <= usize_max) by (unfold MAX_REQUEST_SLOTS, usize_max, u64_max in *; lia).
  unfold completion_preflight. repeat sch_step. rewrite He.
  pose proof (completion_preflight_loop_wp b rest Hhead permits (N.to_nat (br_member_count b)) 0) as Hpre.
  rewrite ring_pos_0, N2Nat.id in Hpre by done. rewrite drop_0 in Hpre.
  eapply wp_mono; [by apply Hpre|]. intros ? x [-> ->]. cbv beta. clear Hpre.
  change (fun p => match p with Some _ => true | None => false end) with occupied.
  destruct (existsb occupied _); [by apply wp_ret|].
  pose proof (complete_loop_wp b rest Hhead (N.to_nat (br_member_count b)) 0 permits) as Hloop.
  rewrite ring_pos_0, N2Nat.id, drop_0 in Hloop by done.
  repeat sch_step. eapply wp_mono; [by apply Hloop|]. intros ? x [-> ->]. cbv beta. clear Hloop.
  repeat sch_step.
  assert (Hmem : a_head_members (abs C s) = take (N.to_nat (br_member_count b)) (a_members (abs C s)))
    by (unfold a_head_members; by rewrite Hhead).
  pose proof (a_head_members_length C _ b rest Hinv Hhead) as Hml.
  apply implements_done.
  - constructor; simpl; try done; try lia; apply ring_pos_lt; lia.
  - by apply (a_completed_inv C _ b rest).
  - unfold a_completed_state. rewrite Hml. unfold abs. simpl.
    rewrite <- (queue_drop _ C) by lia. f_equal.
    change (queue BatchRecord_EMPTY C (batch_ring s) (batch_head s) (batch_len s)) with (a_batches (abs C s)).
    by rewrite Hhead.
  - assert (Hv : vlen (a_head_members (abs C s)) = br_member_count b) by (unfold vlen; rewrite Hml; lia).
    cbn [fst]. by rewrite Hv, Hmem.
Qed.

(** ** Observing the pending batch *)
Lemma pending_batch_member_count_wp :
  wp pending_batch_member_count s (fun s' n => s' = s /\ n = vlen (a_head_members (abs C s))).
Proof using Hwf.
  pose proof batch_head_eq as Hhead. pose proof Hwf as Hwf'. sch_bounds Hwf.
  unfold pending_batch_member_count. do 2 sch_step.
  destruct (N.eqb_spec (batch_len s) 0) as [Hz|Hz].
  { assert (Hnil : a_batches (abs C s) = []) by (simpl; by rewrite Hz). apply wp_ret. 
    unfold a_head_members. by rewrite Hnil. }
  specialize (Hhead ltac:(lia)). repeat sch_step. split; [done|].
  pose proof (a_head_members_length C _ _ _ Hinv Hhead) as Hml. unfold vlen. rewrite Hml. lia.
Qed.

Lemma pending_member_wp k :
  wp (pending_member C k) s (fun s' x => s' = s /\ x = a_head_members (abs C s) !! N.to_nat k).
Proof using Hwf.
  pose proof batch_head_eq as Hhead. pose proof Hwf as Hwf'. sch_bounds Hwf.
  unfold pending_member. do 2 sch_step.
  destruct (N.eqb_spec (batch_len s) 0) as [Hz|Hz].
  { assert (Hnil : a_batches (abs C s) = []) by (simpl; by rewrite Hz). apply wp_ret.
    unfold a_head_members. by rewrite Hnil. }
  specialize (Hhead ltac:(lia)). repeat sch_step.
  set (b := vnth BatchRecord_EMPTY (batch_ring s) (batch_head s)) in *.
  pose proof (head_count_le b _ Hhead) as Hn. unfold a_head_members. rewrite Hhead.
  destruct (N.leb_spec (br_member_count b) k).
  - apply wp_ret. split; [done|]. symmetry. apply lookup_take_ge. lia.
  - repeat sch_step. split; [done|]. rewrite lookup_take_lt by lia. symmetry. apply member_at. lia.
Qed.

Lemma pending_retirement_ready_wp k r epoch :
  wp (pending_retirement_ready C k r epoch) s (fun s' x => s' = s /\
    x = bool_decide (a_head_members (abs C s) !! N.to_nat k = Some r) && (slot r <? C) &&
        ((sl_generation (a_slot (abs C s) (slot r)) =? generation r) &&
         bool_decide (sl_state (a_slot (abs C s) (slot r)) = Retiring) &&
         (sl_active_epoch (a_slot (abs C s) (slot r)) =? value epoch) &&
         negb (sl_in_reclaim_ring (a_slot (abs C s) (slot r))) &&
         (sl_generation (a_slot (abs C s) (slot r)) <? u32_max))).
Proof using Hwf.
  unfold pending_retirement_ready. sch_step. eapply wp_mono; [apply pending_member_wp|].
  intros ? x [-> ->]. cbv beta. pose proof Hwf as Hwf'. sch_bounds Hwf.
  destruct (decide (a_head_members (abs C s) !! N.to_nat k = Some r)) as [Hm|Hm].
  - rewrite bool_decide_eq_false_2 by tauto. rewrite bool_decide_eq_true_2 by done. simpl.
    destruct (N.leb_spec C (slot r)), (N.ltb_spec (slot r) C); try lia; [by apply wp_ret|].
    repeat sch_step. done.
  - rewrite bool_decide_eq_true_2 by done. rewrite bool_decide_eq_false_2 by done. by apply wp_ret.
Qed.
End complete_ops.

(** ** Construction *)
Lemma fill_free_ring_wp {S} (t : S) C fuel : forall index ring,
  N.of_nat fuel = C - index -> index <= C -> vlen ring = C -> C <= usize_max ->
  (forall k, k < index -> vnth 0 ring k = k) ->
  wp (fill_free_ring C fuel index ring) t (fun t' l => t' = t /\ vlen l = C /\
    forall k, k < C -> vnth 0 l k = k).
Proof.
  induction fuel as [|fuel IH]; intros index ring Hf Hi Hr Hmax Hk; cbn [fill_free_ring].
  { apply wp_ret. split_and!; try done. intros k ?. apply Hk. lia. }
  destruct (N.ltb_spec index C); [|lia]. sch_step. apply wp_slice_set; [lia|].
  sch_step. apply wp_add_usize; [lia|]. apply IH; rewrite ?vlen_vset; try done; try lia.
  intros k Hlt. rewrite vnth_vset by lia. case_decide as E; [done|]. apply Hk. lia.
Qed.

Lemma sched_new_wp {S} (t : S) C :
  wp (new C) t (fun t' r => t' = t /\
    if C =? 0 then r = Err ZeroCapacity
    else if MAX_REQUEST_SLOTS <? C then r = Err CapacityExceedsKvSlots
    else exists s, r = Ok s /\ sched_wf C s /\ abs C s = a_new C).
Proof.
  unfold new. destruct (N.eqb_spec C 0); [by apply wp_ret|].
  destruct (N.ltb_spec MAX_REQUEST_SLOTS C); [by apply wp_ret|].
  sch_step. eapply wp_mono; [apply fill_free_ring_wp; rewrite ?vlen_vfill; try done; try lia|].
  - unfold MAX_REQUEST_SLOTS, usize_max, u64_max in *. lia.
  - intros ? ring (-> & Hl & Hring). cbv beta. apply wp_ret. split; [done|].
    match goal with |- exists s, Ok ?x = _ /\ _ => set (s0 := x) end.
    assert (Habs : abs C s0 = a_new C).
    { unfold abs, a_new. simpl. f_equal. unfold queue. apply list_fmap_ext. intros j k Hk.
      apply lookup_seq in Hk as [-> Hk]. unfold ring_pos.
      destruct (N.ltb_spec (0 + N.of_nat (0 + j)) C); [|lia]. rewrite Hring by lia. lia. }
    exists s0. split_and!; [done| |done]. split.
    + constructor; simpl; rewrite ?vlen_vfill; try done; lia.
    + rewrite Habs. apply a_new_inv. lia.
Qed.
