(* ===== verification/SchedLife.v ===== *)
(** The scheduler seen slot by slot and batch by batch: the lifecycle phase of
    a slot and how each operation moves it, the rosters still pending, the
    generations, and the round-robin distance of a ready slot.  These are facts
    about the abstract scheduler; [SchedTheorems.v] transports them to the
    ring-buffer scheduler. *)
From S2P Require Import Prelude Spec.
Import Spec.Completion Spec.Lifecycle.
From S2P Require Import KvPool Ring Scheduler SchedSpec SchedInv SchedOps.

(** ** Operations as data *)
Inductive SOp :=
| SAdmit
| SRetire (request : RequestId)
| SDispatch (output : list RequestId)
| SDispatchExact (expected : CompletionEpoch) (requests : list RequestId)
| SComplete (completion : ExactCompletion) (permits : list (option KvQuiescencePermit))
| STake
| SFinalize (finalized : KvFinalizedRequest)
| SDetach (detached : KvDetachedRequest).

Inductive SResult :=
| RAdmit (r : result RequestId SchedulerError)
| RUnit (r : result unit SchedulerError)
| RDispatch (r : result (option DispatchBatch) SchedulerError * list RequestId)
| RExact (r : result M1ScheduledDispatchV1 M1ExactDispatchErrorV1.M1ExactDispatchErrorV1)
| RComplete (r : result N CompletionFailure * list (option KvQuiescencePermit))
| RTake (r : result (option KvQuiescencePermit) SchedulerError)
| RDetach (r : result RequestId SchedulerError).

(** What each operation does to the queues. *)
Definition a_batch_result (a : AbsSched) (out : list RequestId)
    (r : result (option (list RequestId)) SchedulerError) :
    result (option DispatchBatch) SchedulerError * list RequestId :=
  match r with
  | Err e => (Err e, out)
  | Ok None => (Ok None, out)
  | Ok (Some rs) =>
      (Ok (Some (mkDispatchBatch (mkEpoch (a_submitted a + 1)) (vlen rs))), write_list out 0 rs)
  end.

Definition a_complete (a : AbsSched) (c : ExactCompletion) (ps : list (option KvQuiescencePermit)) :
    (result N CompletionFailure * list (option KvQuiescencePermit)) * AbsSched :=
  match a_complete_error a (value (ec_epoch c)) ps with
  | Some e => ((Err (mkCompletionFailure e c), ps), a)
  | None =>
      let rs := a_head_members a in
      ((Ok (vlen rs), write_list ps 0 (completion_permits (a_completed a + 1) rs)), a_completed_state a)
  end.

Definition a_sop (C : N) (op : SOp) (a : AbsSched) : SResult * AbsSched :=
  match op with
  | SAdmit => let '(r, a') := a_admit a in (RAdmit r, a')
  | SRetire x => let '(r, a') := a_retire C a x in (RUnit r, a')
  | SDispatch out => let '(r, a') := a_dispatch C a (vlen out) in (RDispatch (a_batch_result a out r), a')
  | SDispatchExact e rs =>
      let '(r, a') := a_dispatch_exact C a e rs in
      (RExact (match r with Ok l => Ok (scheduled (a_submitted a + 1) l) | Err x => Err x end), a')
  | SComplete c ps => let '(r, a') := a_complete a c ps in (RComplete r, a')
  | STake => let '(r, a') := a_take a in (RTake (Ok r), a')
  | SFinalize f => let '(r, a') := a_finalize C a f in (RUnit r, a')
  | SDetach d => let '(r, a') := a_detach C a d in (RDetach r, a')
  end.

(** The batch an operation dispatched and the batch it completed, each an epoch
    with its roster, read off its result. *)
Definition dispatch_event (op : SOp) (r : SResult) : list (N * list RequestId) :=
  match op, r with
  | SDispatch _, RDispatch (Ok (Some b), out) =>
      [(value (db_epoch b), take (N.to_nat (db_member_count b)) out)]
  | SDispatchExact _ rs, RExact (Ok sd) => [(value (db_epoch (sd_batch sd)), rs)]
  | _, _ => []
  end.

Definition permit_requests (ps : list (option KvQuiescencePermit)) : list RequestId :=
  omap (fmap permit_request) ps.

Definition complete_event (op : SOp) (r : SResult) : list (N * list RequestId) :=
  match op, r with
  | SComplete c _, RComplete (Ok n, ps) =>
      [(value (ec_epoch c), permit_requests (take (N.to_nat n) ps))]
  | _, _ => []
  end.

Definition rosters_slots (l : list (N * list RequestId)) : list N := flat_map (fun e => slot <$> e.2) l.

(** The slots an operation moves, and the lifecycle transition it moves them
    by. *)
Definition touched (op : SOp) (r : SResult) : list N :=
  match op, r with
  | SAdmit, RAdmit (Ok h) => [slot h]
  | SRetire x, RUnit (Ok _) => [slot x]
  | SDispatch _, _ | SDispatchExact _ _, _ => rosters_slots (dispatch_event op r)
  | SComplete _ _, _ => rosters_slots (complete_event op r)
  | SFinalize f, RUnit (Ok _) => [slot (finalized_request f)]
  | SDetach d, RDetach (Ok _) => [slot (detached_request d)]
  | _, _ => []
  end.

Definition transition_of (op : SOp) : option RequestTransition :=
  match op with
  | SAdmit => Some Admit
  | SRetire _ => Some Retire
  | SDispatch _ | SDispatchExact _ _ => Some Dispatch
  | SComplete _ _ => Some CompleteExact
  | STake => None
  | SFinalize _ => Some FinalizeKv
  | SDetach _ => Some DetachKv
  end.

(** The lifecycle state and phase of a slot. *)
Definition slot_life (completed : N) (sl : Slot) : SequentialRequest :=
  mkSeq (sl_state sl)
    (match sl_state sl with
     | Vacant | Ready => Idle
     | InFlight => if completed <? sl_active_epoch sl then Executing else AwaitingKv
     | Retiring => if completed <? sl_active_epoch sl then RetiringExecuting else RetiringQuiescent
     end).

Definition life (a : AbsSched) (i : N) : SequentialRequest := slot_life (a_completed a) (a_slot a i).

(** The pending batches with their rosters, oldest first. *)
Fixpoint rosters (bs : list BatchRecord) (ms : list RequestId) : list (N * list RequestId) :=
  match bs with
  | [] => []
  | b :: bs' =>
      let n := N.to_nat (br_member_count b) in
      (value (br_epoch b), take n ms) :: rosters bs' (drop n ms)
  end.

Definition pending (a : AbsSched) : list (N * list RequestId) := rosters (a_batches a) (a_members a).

(** How far the round-robin cursor is from a slot. *)
Definition distance (C cursor i : N) : N := if cursor <=? i then i - cursor else i + C - cursor.

(** ** The results of the batch operations *)
Section events.
Context (C : N) (a : AbsSched) (Hinv : a_inv C a).

Lemma take_write_whole {A} (l xs : list A) :
  vlen xs <= vlen l -> take (length xs) (write_list l 0 xs) = xs.
Proof.
  intros H. pose proof (take_write_list xs l 0) as E.
  replace (N.to_nat (0 + vlen xs)) with (length xs) in E by (unfold vlen; lia). simpl in E. apply E. lia.
Qed.

(** A dispatch from the cursor: nothing happens, or the scan's choice is
    committed. *)
Lemma a_dispatch_cases out :
  (dispatch_event (SDispatch out) (a_sop C (SDispatch out) a).1 = [] /\
   (a_sop C (SDispatch out) a).2 = a) \/
  exists chosen n,
    a_scan (scan_order C (a_cursor a)) (N.min (vlen out) (C - vlen (a_members a)))
      (a_submitted a + 1) (a_slots a) =
      (chosen, dispatch_all (a_submitted a + 1) (a_slots a) chosen, n) /\
    chosen <> [] /\ a_submitted a + 1 <= u64_max /\ dispatchable C a chosen /\
    dispatch_event (SDispatch out) (a_sop C (SDispatch out) a).1 = [(a_submitted a + 1, chosen)] /\
    (a_sop C (SDispatch out) a).2 =
      a_commit a (dispatch_all (a_submitted a + 1) (a_slots a) chosen) chosen (a_submitted a + 1)
        (ring_pos C (a_cursor a) n).
Proof.
  unfold a_sop, a_dispatch. destruct (vlen out =? 0); [by left|].
  destruct (N.ltb_spec u64_max (a_submitted a + 1)); [by left|]. destruct (_ || _); [by left|].
  destruct (a_scan _ _ _ _) as [[chosen sl] n] eqn:E. pose proof E as Hs.
  apply scan_dispatchable in Hs as (Hd & -> & Hn & Hl); [|done].
  destruct chosen as [|r chosen]; [by left|]. right. exists (r :: chosen), n.
  split_and!; try done. unfold a_batch_result, dispatch_event. cbn [fst snd db_epoch db_member_count value].
  unfold vlen at 1. rewrite Nat2N.id, take_write_whole; [done|]. lia.
Qed.

Lemma a_dispatch_exact_cases e rs :
  (dispatch_event (SDispatchExact e rs) (a_sop C (SDispatchExact e rs) a).1 = [] /\
   (a_sop C (SDispatchExact e rs) a).2 = a) \/
  (rs <> [] /\ a_submitted a + 1 <= u64_max /\ dispatchable C a rs /\
   dispatch_event (SDispatchExact e rs) (a_sop C (SDispatchExact e rs) a).1 = [(a_submitted a + 1, rs)] /\
   (a_sop C (SDispatchExact e rs) a).2 =
     a_commit a (dispatch_all (a_submitted a + 1) (a_slots a) rs) rs (a_submitted a + 1) (a_cursor a)).
Proof.
  unfold a_sop, a_dispatch_exact. destruct (exact_error C a e rs) eqn:E; [by left|]. right.
  apply exact_dispatchable in E as (Hd & Hne & H64 & _); [done|]. by apply members_le.
Qed.

Lemma permit_requests_completion e rs : permit_requests (completion_permits e rs) = rs.
Proof. induction rs as [|r rs IH]; [done|]. cbn. f_equal. exact IH. Qed.

Lemma a_complete_cases c ps :
  (complete_event (SComplete c ps) (a_sop C (SComplete c ps) a).1 = [] /\
   (a_sop C (SComplete c ps) a).2 = a) \/
  exists b rest, a_batches a = b :: rest /\ value (ec_epoch c) = a_completed a + 1 /\
    complete_event (SComplete c ps) (a_sop C (SComplete c ps) a).1 =
      [(a_completed a + 1, a_head_members a)] /\
    (a_sop C (SComplete c ps) a).2 = a_completed_state a.
Proof.
  unfold a_sop, a_complete. destruct (a_complete_error _ _ _) eqn:E; [by left|]. right.
  unfold a_complete_error in E. destruct (a_batches a) as [|b rest] eqn:Eb; [done|].
  destruct (N.eqb_spec (value (ec_epoch c)) (a_completed a + 1)) as [He|]; [|done]. simpl in E.
  destruct (N.ltb_spec (vlen ps) (br_member_count b)); [done|].
  exists b, rest. split_and!; try done. unfold complete_event. cbn [fst snd]. rewrite He.
  unfold vlen at 1. rewrite Nat2N.id.
  pose proof (a_head_members_length C a b rest Hinv Eb) as Hl.
  assert (Hp : length (completion_permits (a_completed a + 1) (a_head_members a)) = length (a_head_members a)).
  { unfold completion_permits. by rewrite length_fmap. }
  rewrite <- Hp, take_write_whole, permit_requests_completion; [done|]. unfold vlen in *. lia.
Qed.
End events.

(** ** The lifecycle of a slot *)
Section life.
Context (C : N) (a : AbsSched) (Hinv : a_inv C a).

(** [l'] is [l] moved by an accepted transition. *)
Definition moved (t : RequestTransition) (l l' : SequentialRequest) : Prop :=
  apply_request_transition l t = Ok l'.

Lemma life_set i x free reclaim live j :
  i < C ->
  life (mkAbs (vset (a_slots a) i x) free reclaim (a_members a) (a_batches a) (a_cursor a)
          (a_submitted a) (a_completed a) live) j =
  if decide (j = i) then slot_life (a_completed a) x else life a j.
Proof.
  intros Hi. unfold life, a_slot. simpl. rewrite slot_of_vset by (by rewrite (slots_len C a Hinv)).
  by case_decide.
Qed.

(** One slot moves by [t], the others stay. *)
Definition single (t : RequestTransition) (i : N) (a' : AbsSched) : Prop :=
  forall j, if decide (j ∈ [i]) then moved t (life a j) (life a' j) else life a' j = life a j.

Lemma single_set t i x free reclaim live :
  i < C -> moved t (life a i) (slot_life (a_completed a) x) ->
  single t i (mkAbs (vset (a_slots a) i x) free reclaim (a_members a) (a_batches a) (a_cursor a)
          (a_submitted a) (a_completed a) live).
Proof.
  intros Hi Hm j. rewrite life_set by done.
  destruct (decide (j = i)) as [->|Hne].
  - rewrite decide_True by set_solver. done.
  - by rewrite decide_False by set_solver.
Qed.

Lemma moved_slot t i (sl : Slot) st ph l' :
  sl = a_slot a i -> sl_state sl = st -> phase (slot_life (a_completed a) sl) = ph ->
  apply_request_transition (mkSeq st ph) t = Ok l' -> moved t (life a i) l'.
Proof. intros -> <- <-. unfold moved, life. unfold slot_life. done. Qed.

Lemma a_commit_life rs e cursor :
  dispatchable C a rs -> a_completed a < e ->
  forall j, if decide (j ∈ slot <$> rs)
    then moved Dispatch (life a j) (life (a_commit a (dispatch_all e (a_slots a) rs) rs e cursor) j)
    else life (a_commit a (dispatch_all e (a_slots a) rs) rs e cursor) j = life a j.
Proof.
  intros [Hnd Hrs] He j. unfold life at 2 3, a_slot. simpl.
  rewrite slot_of_dispatch_all; [|done|].
  2: { intros r Hr. rewrite (slots_len C a Hinv). by apply Hrs. }
  case_decide as Hj; [|done]. apply list_elem_of_fmap in Hj as (r & -> & Hr).
  destruct (Hrs r Hr) as (_ & _ & Hst). unfold moved, life, slot_life. rewrite Hst. simpl.
  destruct (N.ltb_spec (a_completed a) e); [done|lia].
Qed.

Lemma a_completed_life b rest : a_batches a = b :: rest ->
  forall j, j < C -> if decide (j ∈ slot <$> a_head_members a)
    then moved CompleteExact (life a j) (life (a_completed_state a) j)
    else life (a_completed_state a) j = life a j.
Proof.
  intros Hb j Hj. change (life (a_completed_state a) j) with (slot_life (a_completed a + 1) (a_slot a j)).
  case_decide as Hin.
  - apply list_elem_of_fmap in Hin as (r & -> & Hr).
    pose proof (head_member_active C a b rest Hinv Hb r Hr) as Ha.
    assert (Hm : r ∈ a_members a).
    { unfold a_head_members in Hr. rewrite Hb in Hr. apply elem_of_take in Hr as (k & Hk & _).
      by apply list_elem_of_lookup_2 in Hk. }
    destruct (ai_member C a Hinv r Hm) as (_ & _ & Hst).
    unfold moved, life, slot_life. rewrite Ha.
    destruct (N.ltb_spec (a_completed a) (a_completed a + 1)); [|lia].
    destruct (N.ltb_spec (a_completed a + 1) (a_completed a + 1)); [lia|].
    destruct Hst as [-> | ->]; done.
  - unfold life, slot_life. f_equal.
    assert (Hiff : (a_completed a + 1 <? sl_active_epoch (a_slot a j)) =
                   (a_completed a <? sl_active_epoch (a_slot a j))).
    { destruct (N.ltb_spec (a_completed a + 1) (sl_active_epoch (a_slot a j))),
        (N.ltb_spec (a_completed a) (sl_active_epoch (a_slot a j))); try done; [lia|].
      destruct (ai_pending C a Hinv j Hj) as (r & Hr & <-); [done|]. exfalso. apply Hin.
      apply list_elem_of_fmap. exists r. split; [done|].
      pose proof (later_member_active C a b rest Hinv Hb r) as Hlater.
      unfold a_head_members. rewrite Hb.
      rewrite <- (take_drop (N.to_nat (br_member_count b)) (a_members a)) in Hr.
      apply elem_of_app in Hr as [|Hr]; [done|]. specialize (Hlater Hr). lia. }
    by rewrite Hiff.
Qed.
End life.

(** Every operation moves exactly the slots its result names, each by the
    transition of the lifecycle oracle, which accepts it. *)
Lemma sop_life C op a j : a_inv C a -> j < C ->
  if decide (j ∈ touched op (a_sop C op a).1)
  then exists t, transition_of op = Some t /\ moved t (life a j) (life (a_sop C op a).2 j)
  else life (a_sop C op a).2 j = life a j.
Proof.
  intros Hinv Hj.
  assert (Hsingle : forall t i a', transition_of op = Some t -> single a t i a' ->
    if decide (j ∈ [i]) then exists t', transition_of op = Some t' /\ moved t' (life a j) (life a' j)
    else life a' j = life a j).
  { intros t i a' Ht Hs. specialize (Hs j). case_decide; eauto. }
  destruct op.
  - unfold a_sop, a_admit. destruct (a_free a) as [|i rest] eqn:Ef; [done|]. simpl.
    destruct (free_vacant C a Hinv i) as [Hi Hv]; [rewrite Ef; set_solver|].
    eapply Hsingle; [done|]. eapply single_set; [done..|].
    unfold moved, life, slot_life. simpl. by rewrite Hv.
  - unfold a_sop, a_retire. destruct (N.leb_spec C (slot request)) as [|Hi]; [done|].
    destruct (sl_generation _ =? _); [|done]. simpl. slot_cases Hinv (slot request) Hi.
    destruct (sl_state (a_slot a (slot request))) eqn:Es; try done; cbn [fst snd touched].
    all: eapply Hsingle; [done|]; eapply single_set; [done..|].
    all: unfold moved, life, slot_life; rewrite Es; simpl.
    + destruct (N.ltb_spec (a_completed a) NO_EPOCH); [unfold NO_EPOCH in *; lia|done].
    + by destruct (a_completed a <? sl_active_epoch (a_slot a (slot request))).
  - destruct (a_dispatch_cases C a Hinv output) as [(He & ->)|(chosen & n & _ & _ & _ & Hd & He & ->)].
    { unfold touched. by rewrite He. }
    unfold touched. rewrite He. simpl. rewrite app_nil_r.
    pose proof (a_commit_life C a Hinv chosen (a_submitted a + 1) (ring_pos C (a_cursor a) n) Hd) as H.
    pose proof (ai_submitted C a Hinv). specialize (H ltac:(lia) j). case_decide; eauto.
  - destruct (a_dispatch_exact_cases C a Hinv expected requests) as [(He & ->)|(_ & _ & Hd & He & ->)].
    { unfold touched. by rewrite He. }
    unfold touched. rewrite He. simpl. rewrite app_nil_r.
    pose proof (a_commit_life C a Hinv requests (a_submitted a + 1) (a_cursor a) Hd) as H.
    pose proof (ai_submitted C a Hinv). specialize (H ltac:(lia) j). case_decide; eauto.
  - destruct (a_complete_cases C a Hinv completion permits) as [(He & ->)|(b & rest & Hb & _ & He & ->)].
    { unfold touched. by rewrite He. }
    unfold touched. rewrite He. cbn [rosters_slots flat_map snd]. rewrite app_nil_r.
    pose proof (a_completed_life C a Hinv b rest Hb j Hj) as H. case_decide; eauto.
  - unfold a_sop, a_take. destruct (a_reclaim a) as [|i rest] eqn:Er; [done|].
    destruct (reclaim_retiring C a Hinv i) as (Hi & Hs & Ha); [rewrite Er; set_solver|].
    cbn [fst snd touched]. rewrite (life_set C a Hinv) by done. rewrite decide_False by set_solver.
    case_decide as E; [|done]. subst j. unfold life, slot_life. simpl. done.
  - unfold a_sop, a_finalize. destruct (a_finalize_error C a finalized) eqn:E; [done|].
    apply a_finalize_ready in E as (Hi & Hg & Hs & Ha & Ho). cbn [fst snd touched].
    eapply Hsingle; [done|]. eapply single_set; [done..|]. unfold moved, life, slot_life. rewrite Hs. simpl.
    destruct (N.ltb_spec (a_completed a) (sl_active_epoch (a_slot a (slot (finalized_request finalized)))));
      [lia|done].
  - unfold a_sop, a_detach. destruct (a_detach_error C a detached) eqn:E; [done|].
    apply a_detach_ready in E as (Hi & Hg & Hs & Hr & Ha & Hmax). cbn [fst snd touched].
    eapply Hsingle; [done|]. eapply single_set; [done..|]. unfold moved, life, slot_life. rewrite Hs. simpl.
    destruct (N.ltb_spec (a_completed a) (sl_active_epoch (a_slot a (slot (detached_request detached)))));
      [lia|done].
Qed.

(** ** The pending rosters *)
Lemma rosters_app bs : forall ms bs' ms', length ms = length (member_epochs bs) ->
  rosters (bs ++ bs') (ms ++ ms') = rosters bs ms ++ rosters bs' ms'.
Proof.
  induction bs as [|b bs IH]; intros ms bs' ms' Hl; simpl in *.
  { by destruct ms. }
  rewrite length_app, length_replicate in Hl. fold (member_epochs bs) in Hl. f_equal.
  - f_equal. rewrite take_app_le by lia. done.
  - rewrite drop_app_le by lia. apply IH. rewrite length_drop. lia.
Qed.

Lemma pending_commit C a sl rs e cursor : a_inv C a ->
  pending (a_commit a sl rs e cursor) = pending a ++ [(e, rs)].
Proof.
  intros Hinv. unfold pending. simpl. rewrite rosters_app.
  - f_equal. simpl. unfold vlen. rewrite Nat2N.id. by rewrite take_ge by lia.
  - by rewrite <- (ai_epochs C a Hinv), length_fmap.
Qed.

Lemma pending_completed C a b rest : a_inv C a -> a_batches a = b :: rest ->
  pending a = (a_completed a + 1, a_head_members a) :: pending (a_completed_state a).
Proof.
  intros Hinv Hb. unfold pending, a_completed_state. simpl.
  rewrite (a_head_members_length C a b rest Hinv Hb). unfold a_head_members. rewrite Hb. simpl.
  destruct (head_epoch C a b rest Hinv Hb) as [-> _]. done.
Qed.


(** The batches that were pending and the one dispatched now are the one
    completed now and those pending afterwards, in this order. *)
Lemma sop_pending C op a : a_inv C a ->
  pending a ++ dispatch_event op (a_sop C op a).1 =
  complete_event op (a_sop C op a).1 ++ pending (a_sop C op a).2.
Proof.
  intros Hinv. destruct op.
  - unfold a_sop, a_admit. destruct (a_free a); simpl; by rewrite app_nil_r.
  - unfold a_sop, a_retire. repeat case_match; simplify_eq/=; by rewrite app_nil_r.
  - destruct (a_dispatch_cases C a Hinv output) as [(He & ->)|(chosen & n & _ & _ & _ & _ & He & ->)].
    + rewrite He. cbn [complete_event]. by rewrite app_nil_r.
    + rewrite He, (pending_commit C) by done. done.
  - destruct (a_dispatch_exact_cases C a Hinv expected requests) as [(He & ->)|(_ & _ & _ & He & ->)].
    + rewrite He. cbn [complete_event]. by rewrite app_nil_r.
    + rewrite He, (pending_commit C) by done. done.
  - destruct (a_complete_cases C a Hinv completion permits) as [(He & ->)|(b & rest & Hb & _ & He & ->)].
    + rewrite He. cbn [dispatch_event]. by rewrite app_nil_r.
    + rewrite He. cbn [dispatch_event]. rewrite app_nil_r. by apply (pending_completed C a b rest).
  - unfold a_sop, a_take. destruct (a_reclaim a); simpl; by rewrite app_nil_r.
  - unfold a_sop, a_finalize. destruct (a_finalize_error C a finalized); simpl; by rewrite app_nil_r.
  - unfold a_sop, a_detach. destruct (a_detach_error C a detached); simpl; by rewrite app_nil_r.
Qed.

(** A dispatched batch carries the next submission epoch, a completed one the
    next completion epoch, and nothing else changes the two counters. *)
Lemma sop_epochs C op a : a_inv C a ->
  (a_submitted (a_sop C op a).2 = a_submitted a + vlen (dispatch_event op (a_sop C op a).1) /\
   Forall (fun e => e.1 = a_submitted a + 1) (dispatch_event op (a_sop C op a).1)) /\
  (a_completed (a_sop C op a).2 = a_completed a + vlen (complete_event op (a_sop C op a).1) /\
   Forall (fun e => e.1 = a_completed a + 1) (complete_event op (a_sop C op a).1)).
Proof.
  intros Hinv.
  destruct op.
  - unfold a_sop, a_admit. destruct (a_free a); simpl; rewrite vlen_nil; split; split; (lia || done).
  - unfold a_sop, a_retire. repeat case_match; simplify_eq/=; rewrite vlen_nil; split; split; (lia || done).
  - destruct (a_dispatch_cases C a Hinv output) as [(He & ->)|(chosen & n & _ & _ & _ & _ & He & ->)].
    all: rewrite He; cbn; rewrite ?vlen_cons, ?vlen_nil; split; split; (lia || done || by constructor).
  - destruct (a_dispatch_exact_cases C a Hinv expected requests) as [(He & ->)|(_ & _ & _ & He & ->)].
    all: rewrite He; cbn; rewrite ?vlen_cons, ?vlen_nil; split; split; (lia || done || by constructor).
  - destruct (a_complete_cases C a Hinv completion permits) as [(He & ->)|(b & rest & Hb & _ & He & ->)].
    all: rewrite He; cbn; rewrite ?vlen_cons, ?vlen_nil; split; split; (lia || done || by constructor).
  - unfold a_sop, a_take. destruct (a_reclaim a); simpl; rewrite vlen_nil; split; split; (lia || done).
  - unfold a_sop, a_finalize. destruct (a_finalize_error C a finalized); simpl; rewrite vlen_nil;
      split; split; (lia || done).
  - unfold a_sop, a_detach. destruct (a_detach_error C a detached); simpl; rewrite vlen_nil;
      split; split; (lia || done).
Qed.

(** ** Generations *)
Definition generation_at (a : AbsSched) (i : N) : N := sl_generation (a_slot a i).

Lemma generation_set C a i x free reclaim live j :
  a_inv C a -> i < C -> sl_generation (a_slot a i) <= sl_generation x ->
  generation_at a j <=
  generation_at (mkAbs (vset (a_slots a) i x) free reclaim (a_members a) (a_batches a) (a_cursor a)
          (a_submitted a) (a_completed a) live) j.
Proof.
  intros Hinv Hi Hx. unfold generation_at, a_slot. simpl.
  rewrite slot_of_vset by (by rewrite (slots_len C a Hinv)). case_decide as E; [by subst j|done].
Qed.

Lemma generation_commit C a rs e cursor j : a_inv C a -> dispatchable C a rs ->
  generation_at (a_commit a (dispatch_all e (a_slots a) rs) rs e cursor) j = generation_at a j.
Proof.
  intros Hinv [Hnd Hrs]. unfold generation_at, a_slot. simpl. rewrite slot_of_dispatch_all; [|done|].
  - by case_decide.
  - intros r Hr. rewrite (slots_len C a Hinv). by apply Hrs.
Qed.

(** No operation lowers a generation. *)
Lemma sop_generation C op a j : a_inv C a -> generation_at a j <= generation_at (a_sop C op a).2 j.
Proof.
  intros Hinv. destruct op.
  - unfold a_sop, a_admit. destruct (a_free a) as [|i rest] eqn:Ef; [done|].
    destruct (free_vacant C a Hinv i) as [Hi Hv]; [rewrite Ef; set_solver|].
    by apply (generation_set C).
  - unfold a_sop, a_retire. destruct (N.leb_spec C (slot request)) as [|Hi]; [done|].
    destruct (sl_generation _ =? _); [|done]. cbn [negb].
    destruct (sl_state _); try done; by apply (generation_set C).
  - destruct (a_dispatch_cases C a Hinv output) as [(_ & ->)|(chosen & n & _ & _ & _ & Hd & _ & ->)]; [done|].
    by rewrite (generation_commit C).
  - destruct (a_dispatch_exact_cases C a Hinv expected requests) as [(_ & ->)|(_ & _ & Hd & _ & ->)]; [done|].
    by rewrite (generation_commit C).
  - destruct (a_complete_cases C a Hinv completion permits) as [(_ & ->)|(b & rest & _ & _ & _ & ->)]; done.
  - unfold a_sop, a_take. destruct (a_reclaim a) as [|i rest] eqn:Er; [done|].
    destruct (reclaim_retiring C a Hinv i) as (Hi & _); [rewrite Er; set_solver|].
    by apply (generation_set C).
  - unfold a_sop, a_finalize. destruct (a_finalize_error C a finalized) eqn:E; [done|].
    apply a_finalize_ready in E as (Hi & _). by apply (generation_set C).
  - unfold a_sop, a_detach. destruct (a_detach_error C a detached) eqn:E; [done|].
    apply a_detach_ready in E as (Hi & _). apply (generation_set C); [done..|]. simpl. lia.
Qed.

(** ** Round robin *)
Lemma scan_order_distance C cursor i : cursor < C -> i < C ->
  scan_order C cursor !! N.to_nat (distance C cursor i) = Some i /\ distance C cursor i < C.
Proof.
  intros Hc Hi. unfold distance, scan_order. split; [|destruct (N.leb_spec cursor i); lia].
  rewrite list_lookup_fmap, lookup_seq_lt by (destruct (N.leb_spec cursor i); lia). simpl. f_equal.
  rewrite N2Nat.id. unfold ring_pos. destruct (N.leb_spec cursor i).
  - destruct (N.ltb_spec (cursor + (i - cursor)) C); lia.
  - destruct (N.ltb_spec (cursor + (i + C - cursor)) C); lia.
Qed.

Lemma distance_advance C cursor n i : cursor < C -> i < C -> n <= distance C cursor i ->
  distance C (ring_pos C cursor n) i = distance C cursor i - n.
Proof.
  intros Hc Hi. unfold distance, ring_pos. destruct (N.leb_spec cursor i), (N.ltb_spec (cursor + n) C);
    intros Hn; match goal with |- context [?x <=? i] => destruct (N.leb_spec x i) end; lia.
Qed.

(** A dispatch that passes over a ready slot moves the cursor towards it. *)
Lemma sop_distance C op a i : a_inv C a -> i < C -> sl_state (a_slot a i) = Ready ->
  i ∉ rosters_slots (dispatch_event op (a_sop C op a).1) ->
  let r := (a_sop C op a).1 in
  let moves := match op with SDispatch _ => vlen (dispatch_event op r) | _ => 0 end in
  distance C (a_cursor (a_sop C op a).2) i + moves <= distance C (a_cursor a) i.
Proof.
  intros Hinv Hi Hr Hni. cbv zeta. destruct op.
  - unfold a_sop, a_admit. destruct (a_free a); simpl; lia.
  - unfold a_sop, a_retire. repeat case_match; simplify_eq/=; lia.
  - destruct (a_dispatch_cases C a Hinv output) as [(-> & ->)|(chosen & n & Hs & Hne & _ & _ & He & ->)].
    { rewrite vlen_nil. lia. }
    rewrite He in *. rewrite vlen_cons, vlen_nil. cbn [a_commit a_cursor].
    pose proof (ai_cursor C a Hinv) as Hcur. destruct (scan_order_distance C (a_cursor a) i) as [Hpos Hlt]; [done..|].
    apply a_scan_spec in Hs as (Hch & _ & Hf & Hn & _).
    2: by apply scan_order_nodup.
    2: { intros j Hj. rewrite (slots_len C a Hinv). by apply (scan_order_lt C a Hinv). }
    assert (Hge : n <= distance C (a_cursor a) i).
    { apply N.nlt_ge. intros Hlt'. apply Hni. cbn [rosters_slots flat_map snd]. rewrite app_nil_r, <- Hf.
      apply list_elem_of_filter. split; [exact Hr|]. apply elem_of_take. eexists. split; [exact Hpos|]. lia. }
    assert (Hn0 : 0 < n).
    { apply N.neq_0_lt_0. intros ->. simpl in Hf. by destruct chosen. }
    rewrite distance_advance by done. lia.
  - destruct (a_dispatch_exact_cases C a Hinv expected requests) as [(_ & ->)|(_ & _ & _ & _ & ->)].
    all: simpl; lia.
  - destruct (a_complete_cases C a Hinv completion permits) as [(_ & ->)|(b & rest & _ & _ & _ & ->)]; simpl; lia.
  - unfold a_sop, a_take. destruct (a_reclaim a); simpl; lia.
  - unfold a_sop, a_finalize. destruct (a_finalize_error C a finalized); simpl; lia.
  - unfold a_sop, a_detach. destruct (a_detach_error C a detached); simpl; lia.
Qed.

Lemma a_sop_inv C op a : a_inv C a -> a_inv C (a_sop C op a).2.
Proof.
  intros Hinv. destruct op; unfold a_sop.
  - pose proof (a_admit_inv C a Hinv) as H. by destruct (a_admit a).
  - pose proof (a_retire_inv C a request Hinv) as H. by destruct (a_retire C a request).
  - pose proof (a_dispatch_inv C a (vlen output) Hinv) as H. by destruct (a_dispatch C a (vlen output)).
  - pose proof (a_dispatch_exact_inv C a expected requests Hinv) as H.
    by destruct (a_dispatch_exact C a expected requests).
  - unfold a_complete. destruct (a_complete_error _ _ _) eqn:E; [done|].
    unfold a_complete_error in E. destruct (a_batches a) as [|b rest] eqn:Eb; [done|].
    by apply (a_completed_inv C a b rest).
  - pose proof (a_take_inv C a Hinv) as H. by destruct (a_take a).
  - pose proof (a_finalize_inv C a finalized Hinv) as H. by destruct (a_finalize C a finalized).
  - pose proof (a_detach_inv C a detached Hinv) as H. by destruct (a_detach C a detached).
Qed.

(** Entries that count up from [n]. *)
Definition numbered {A} (n : N) (l : list (N * A)) : Prop :=
  forall k e, l !! k = Some e -> e.1 = n + N.of_nat k.

Lemma numbered_app {A} n (l l' : list (N * A)) :
  Forall (fun e => e.1 = n) l -> (length l <= 1)%nat -> numbered (n + vlen l) l' -> numbered n (l ++ l').
Proof.
  intros Hl H1 H' k e [Hk|[Hge Hk]]%lookup_app_Some.
  - rewrite Forall_lookup in Hl. rewrite (Hl k e Hk). apply lookup_lt_Some in Hk. lia.
  - rewrite (H' _ e Hk). unfold vlen. lia.
Qed.

Lemma event_single op r : (length (dispatch_event op r) <= 1)%nat /\ (length (complete_event op r) <= 1)%nat.
Proof.
  unfold dispatch_event, complete_event. split; repeat case_match; simpl; lia.
Qed.
