(* ===== verification/SchedTheorems.v ===== *)
(** What the scheduler guarantees: any run refines the queue scheduler, every
    slot follows the lifecycle oracle, batches complete first in first out, a
    handle that was detached never becomes live again, and a ready request is
    dispatched after a bounded number of dispatches. *)
From S2P Require Import Prelude Spec.
Import Spec.Completion Spec.Lifecycle.
From S2P Require Import KvPool Ring Scheduler SchedSpec SchedInv SchedOps SchedLife.
Local Open Scope prog_scope.

(** ** Running operations *)
Definition run_sop (C : N) (op : SOp) : M Scheduler SResult :=
  match op with
  | SAdmit => let! r := admit_request C in ret (RAdmit r)
  | SRetire x => let! r := retire C x in ret (RUnit r)
  | SDispatch out => let! r := dispatch_ready C out in ret (RDispatch r)
  | SDispatchExact e rs => let! r := dispatch_m1_exact_ready C e rs in ret (RExact r)
  | SComplete c ps => let! r := complete_exact C c ps in ret (RComplete r)
  | STake => let! r := take_retiring_permit C in ret (RTake r)
  | SFinalize f => let! r := accept_finalized C f in ret (RUnit r)
  | SDetach d => let! r := reclaim_detached C d in ret (RDetach r)
  end.

Lemma run_sop_wp C op s : sched_wf C s ->
  implements C (run_sop C op) s (a_sop C op (abs C s)).1 (a_sop C op (abs C s)).2.
Proof.
  intros Hwf. unfold implements. destruct op; simpl; apply wp_bind.
  - pose proof (admit_wp C s Hwf) as H. destruct (a_admit (abs C s)).
    eapply wp_mono; [exact H|]. intros s' x (? & -> & ?). by apply wp_ret.
  - pose proof (retire_wp C s Hwf request) as H. destruct (a_retire C (abs C s) request).
    eapply wp_mono; [exact H|]. intros s' x (? & -> & ?). by apply wp_ret.
  - pose proof (dispatch_ready_wp C s Hwf output) as H.
    destruct (a_dispatch C (abs C s) (vlen output)).
    eapply wp_mono; [exact H|]. intros s' x (? & -> & ?). by apply wp_ret.
  - pose proof (dispatch_m1_exact_ready_wp C s Hwf expected requests) as H.
    destruct (a_dispatch_exact C (abs C s) expected requests).
    eapply wp_mono; [exact H|]. intros s' x (? & -> & ?). by apply wp_ret.
  - pose proof (complete_exact_wp C s Hwf completion permits) as H. unfold completion_result in H.
    unfold a_complete. change (a_completed (abs C s)) with (completed s).
    destruct (a_complete_error _ _ _);
      (eapply wp_mono; [exact H|]; intros s' x (? & -> & ?); by apply wp_ret).
  - pose proof (take_retiring_permit_wp C s Hwf) as H. destruct (a_take (abs C s)).
    eapply wp_mono; [exact H|]. intros s' x (? & -> & ?). by apply wp_ret.
  - pose proof (accept_finalized_wp C s Hwf finalized) as H. destruct (a_finalize C (abs C s) finalized).
    eapply wp_mono; [exact H|]. intros s' x (? & -> & ?). by apply wp_ret.
  - pose proof (reclaim_detached_wp C s Hwf detached) as H. destruct (a_detach C (abs C s) detached).
    eapply wp_mono; [exact H|]. intros s' x (? & -> & ?). by apply wp_ret.
Qed.

Fixpoint run_sops (C : N) (ops : list SOp) : M Scheduler (list SResult) :=
  match ops with
  | [] => ret []
  | op :: rest =>
      let! r := run_sop C op in
      let! rs := run_sops C rest in
      ret (r :: rs)
  end.

Fixpoint a_sops (C : N) (ops : list SOp) (a : AbsSched) : list SResult * AbsSched :=
  match ops with
  | [] => ([], a)
  | op :: rest =>
      let '(r, a1) := a_sop C op a in
      let '(rs, a2) := a_sops C rest a1 in
      (r :: rs, a2)
  end.

Lemma run_sops_wp C ops : forall s, sched_wf C s ->
  implements C (run_sops C ops) s (a_sops C ops (abs C s)).1 (a_sops C ops (abs C s)).2.
Proof.
  induction ops as [|op ops IH]; intros s Hwf; [by apply wp_ret|]. cbn [run_sops a_sops].
  apply wp_bind. eapply wp_mono; [by apply run_sop_wp|]. intros s1 r (Hwf1 & -> & Habs).
  destruct (a_sop C op (abs C s)) as [r a1]. cbn [fst snd] in *. subst a1.
  apply wp_bind. eapply wp_mono; [by apply IH|]. intros s2 rs (Hwf2 & -> & Habs2).
  destruct (a_sops C ops (abs C s1)) as [rs a2]. by apply wp_ret.
Qed.

(** A scheduler driven by a script, for concrete instances. *)
Definition sched_demo (C : N) (ops : list SOp) : Scheduler :=
  match new C tt with
  | Done _ (Ok s) => match run_sops C ops s with Done s' _ => s' | Panic => s end
  | _ => mkScheduler [] [] 0 0 [] 0 0 [] 0 0 [] 0 0 0 0 0 0
  end.

Lemma sched_demo_wf C ops : 0 < C <= MAX_REQUEST_SLOTS ->
  sched_wf C (sched_demo C ops) /\ abs C (sched_demo C ops) = (a_sops C ops (a_new C)).2.
Proof.
  intros HC. pose proof (sched_new_wp tt C) as H. unfold sched_demo, wp in *.
  destruct (new C tt) as [[] r|]; [|done]. destruct H as [_ H].
  destruct (N.eqb_spec C 0); [lia|]. destruct (N.ltb_spec MAX_REQUEST_SLOTS C); [lia|].
  destruct H as (s & -> & Hwf & Habs).
  pose proof (run_sops_wp C ops s Hwf) as Hrun. unfold implements, wp in Hrun.
  destruct (run_sops C ops s); [|done]. rewrite Habs in Hrun. tauto.
Qed.


Definition h0 : RequestId := mkRequestId 0 1.
Definition h1 : RequestId := mkRequestId 1 1.
Definition out2 : list RequestId := [mkRequestId 0 0; mkRequestId 0 0].

(** Two requests run in one batch; the first is retired while it runs. *)
Definition demo_sched_script : list SOp :=
  [SAdmit; SAdmit; SDispatch out2; SRetire h0; SComplete (mkExactCompletion (mkEpoch 1)) [None; None];
   SFinalize (mkFinalized h1 (CompletedExact 1))].


Lemma run_sop_step C op s : sched_wf C s ->
  wp (run_sop C op) s (fun s' r =>
    sched_wf C s' /\ a_inv C (abs C s) /\ r = (a_sop C op (abs C s)).1 /\
    abs C s' = (a_sop C op (abs C s)).2).
Proof.
  intros Hwf. eapply wp_mono; [by apply run_sop_wp|]. intros s' r (? & -> & ->).
  split_and!; try done. by destruct Hwf.
Qed.

Lemma sched_wf_inv C s : sched_wf C s -> a_inv C (abs C s).
Proof. by intros []. Qed.


(** ** Batches *)
Definition dispatches (ops : list SOp) (rs : list SResult) : list (N * list RequestId) :=
  concat (zip_with dispatch_event ops rs).
Definition completions (ops : list SOp) (rs : list SResult) : list (N * list RequestId) :=
  concat (zip_with complete_event ops rs).

Lemma a_sops_batches C ops : forall a, a_inv C a ->
  let '(rs, a') := a_sops C ops a in
  a_inv C a' /\
  pending a ++ dispatches ops rs = completions ops rs ++ pending a' /\
  numbered (a_submitted a + 1) (dispatches ops rs) /\ numbered (a_completed a + 1) (completions ops rs) /\
  a_completed a' = a_completed a + vlen (completions ops rs).
Proof.
  induction ops as [|op ops IH]; intros a Hinv; cbn [a_sops].
  { unfold dispatches, completions. simpl. rewrite app_nil_r. split_and!; try done. rewrite vlen_nil. lia. }
  pose proof (a_sop_inv C op a Hinv) as Hinv1. pose proof (sop_pending C op a Hinv) as Hp.
  pose proof (sop_epochs C op a Hinv) as [[Hs Hs'] [Hc Hc']].
  destruct (a_sop C op a) as [r a1]. cbn [fst snd] in *. specialize (IH a1 Hinv1).
  destruct (a_sops C ops a1) as [rs a2]. destruct IH as (Hinv2 & Hp2 & Hn & Hm & He).
  destruct (event_single op r) as [Hl1 Hl2].
  unfold dispatches, completions in *. cbn [zip_with concat].
  split_and!; [done|..].
  - rewrite app_assoc, Hp, <- !app_assoc. by f_equal.
  - apply numbered_app; try done. replace (a_submitted a + 1 + vlen (dispatch_event op r)) with
      (a_submitted a1 + 1) by lia. done.
  - apply numbered_app; try done. replace (a_completed a + 1 + vlen (complete_event op r)) with
      (a_completed a1 + 1) by lia. done.
  - rewrite vlen_app. lia.
Qed.

(** C28: batches complete exactly once and in dispatch order: whatever sequence of
    operations runs on a new scheduler, the dispatched batches carry the epochs
    1, 2, 3, ..., and the batches completed so far, with their rosters, are
    precisely the first ones dispatched; the others are pending in order. *)
Theorem sched_fifo_completion C ops :
  0 < C <= MAX_REQUEST_SLOTS ->
  exists s, new C tt = Done tt (Ok s) /\
    wp (run_sops C ops) s (fun s' rs =>
      dispatches ops rs = completions ops rs ++ pending (abs C s') /\
      numbered 1 (dispatches ops rs) /\ completed s' = vlen (completions ops rs)).
Proof.
  intros HC. pose proof (sched_new_wp tt C) as H. apply wp_done in H as ([] & r & Hrun & _ & H).
  destruct (N.eqb_spec C 0); [lia|]. destruct (N.ltb_spec MAX_REQUEST_SLOTS C); [lia|].
  destruct H as (s & -> & Hwf & Habs). exists s. split; [done|].
  eapply wp_mono; [by apply run_sops_wp|]. intros s' rs (_ & -> & Habs').
  pose proof (a_sops_batches C ops (abs C s) (sched_wf_inv C s Hwf)) as Hb. rewrite Habs in *.
  destruct (a_sops C ops (a_new C)) as [rs a']. cbn [fst snd] in *. subst a'.
  destruct Hb as (_ & Hp & Hn & _ & Hc). split_and!; try done.
Qed.

Lemma sched_fifo_completion_witness :
  0 < 2 <= MAX_REQUEST_SLOTS /\
  exists s, new 2 tt = Done tt (Ok s) /\
    wp (run_sops 2 demo_sched_script) s (fun s' rs =>
      dispatches demo_sched_script rs = completions demo_sched_script rs ++ pending (abs 2 s') /\
      numbered 1 (dispatches demo_sched_script rs) /\
      completed s' = vlen (completions demo_sched_script rs)).
Proof.
  assert (H : 0 < 2 <= MAX_REQUEST_SLOTS) by by vm_compute.
  split; [exact H|]. exact (sched_fifo_completion 2 demo_sched_script H).
Defined.

(** ** Stale handles *)
Lemma a_sops_generation C ops : forall a j, a_inv C a ->
  generation_at a j <= generation_at (a_sops C ops a).2 j.
Proof.
  induction ops as [|op ops IH]; intros a j Hinv; [done|]. cbn [a_sops].
  pose proof (a_sop_inv C op a Hinv) as Hinv1. pose proof (sop_generation C op a j Hinv) as Hg.
  destruct (a_sop C op a) as [r a1]. specialize (IH a1 j Hinv1).
  destruct (a_sops C ops a1) as [rs a2]. cbn [fst snd] in *. lia.
Qed.

(** A detached handle is dead for good: after the scheduler accepts the detach
    of a request, however the slot is used afterwards, even for new requests,
    the old handle has no state, cannot be retired, and is not accepted by a
    finalize or another detach. *)
Theorem sched_detached_is_dead C d ops e s :
  sched_wf C s -> a_detach_error C (abs C s) d = None ->
  wp (let! r := reclaim_detached C d in
      run_sops C ops ;;
      let! st := request_state C (detached_request d) in
      let! rt := retire C (detached_request d) in
      let! fin := accept_finalized C (mkFinalized (detached_request d) (CompletedExact e)) in
      let! det := reclaim_detached C d in
      ret (r, st, rt, fin, det)) s
    (fun s' x => x = (Ok (detached_request d), None, Err StaleRequest, Err FinalizationMismatch,
                      Err DetachmentMismatch)).
Proof.
  intros Hwf Hd. pose proof (sched_wf_inv C s Hwf) as Hinv.
  pose proof (a_detach_ready C (abs C s) d Hd) as (Hi & Hg & _).
  apply wp_bind. eapply wp_mono; [by apply reclaim_detached_wp|]. intros s1 r (Hwf1 & -> & Ha1).
  unfold a_detach in Ha1. rewrite Hd in Ha1. unfold a_detach at 1. rewrite Hd. cbn [fst snd] in *.
  assert (Hgen : generation (detached_request d) < generation_at (abs C s1) (slot (detached_request d))).
  { rewrite Ha1. unfold generation_at, a_slot at 1. cbn [a_slots].
    rewrite slot_of_vset by (by rewrite (slots_len C _ Hinv)). rewrite decide_True by done. simpl.
    rewrite Hg. lia. }
  apply wp_bind. eapply wp_mono; [by apply run_sops_wp|]. intros s2 rs (Hwf2 & _ & Ha2).
  pose proof (a_sops_generation C ops (abs C s1) (slot (detached_request d)) (sched_wf_inv C s1 Hwf1)) as Hge.
  rewrite <- Ha2 in Hge.
  assert (Hne : (sl_generation (a_slot (abs C s2) (slot (detached_request d))) =?
                 generation (detached_request d)) = false).
  { apply N.eqb_neq. unfold generation_at in *. lia. }
  apply wp_bind. eapply wp_mono; [by apply request_state_wp|]. intros ? st [-> ->].
  assert (Hst : a_state C (abs C s2) (detached_request d) = None).
  { unfold a_state. rewrite Hne. by destruct (_ <=? _). }
  rewrite Hst. apply N.leb_gt in Hi.
  apply wp_bind. eapply wp_mono; [by apply retire_wp|]. unfold a_retire. rewrite Hi, Hne. cbn [negb fst snd].
  intros s3 rt (Hwf3 & -> & Ha3).
  apply wp_bind. eapply wp_mono; [by apply accept_finalized_wp|]. rewrite Ha3.
  unfold a_finalize, a_finalize_error. cbn [finalized_request finalized_origin]. rewrite Hi, Hne.
  cbn [andb fst snd]. intros s4 fin (Hwf4 & -> & Ha4).
  apply wp_bind. eapply wp_mono; [by apply reclaim_detached_wp|]. rewrite Ha4.
  unfold a_detach, a_detach_error. rewrite Hi, Hne. cbn [andb fst snd]. intros s5 det (_ & -> & _).
  by apply wp_ret.
Qed.

(** A retired request whose permit was taken, ready to be detached. *)
Definition demo_detach : Scheduler := sched_demo 2 [SAdmit; SRetire h0; STake].
Definition detach_h0 : KvDetachedRequest := mkDetached h0 NeverSubmitted.

Lemma demo_detach_wf : sched_wf 2 demo_detach.
Proof. apply sched_demo_wf. by vm_compute. Qed.

Lemma sched_detached_is_dead_witness :
  wp (let! r := reclaim_detached 2 detach_h0 in
      run_sops 2 [SAdmit; SAdmit; SDispatch out2] ;;
      let! st := request_state 2 (detached_request detach_h0) in
      let! rt := retire 2 (detached_request detach_h0) in
      let! fin := accept_finalized 2 (mkFinalized (detached_request detach_h0) (CompletedExact 1)) in
      let! det := reclaim_detached 2 detach_h0 in
      ret (r, st, rt, fin, det)) demo_detach
    (fun s' x => x = (Ok h0, None, Err StaleRequest, Err FinalizationMismatch,
                      Err DetachmentMismatch)).
Proof.
  exact (sched_detached_is_dead 2 detach_h0 [SAdmit; SAdmit; SDispatch out2] 1 demo_detach
    demo_detach_wf ltac:(vm_compute; reflexivity)).
Defined.


(** ** Round robin *)

(** The ready slots in scan order from the cursor. *)
Definition ready_from_cursor (C : N) (s : Scheduler) : list N :=
  filter (ready_at (slots s)) (scan_order C (cursor s)).

(** A dispatch takes the ready requests in round-robin order from the cursor,
    as many as there are, as fit in the output and as there is room for pending
    members; it returns no batch exactly when that number is zero or the batch
    ring is full, and the chosen requests become members of a new last batch
    with the next epoch. *)
Theorem sched_dispatch_round_robin C output s :
  sched_wf C s -> 0 < vlen output -> submitted s < u64_max ->
  let room := N.min (vlen output) (C - member_len s) in
  let chosen := handle_at (slots s) <$> take (N.to_nat room) (ready_from_cursor C s) in
  wp (dispatch_ready C output) s (fun s' r =>
    sched_wf C s' /\
    if decide (batch_len s = C \/ chosen = [])
    then r = (Ok None, output) /\ abs C s' = abs C s
    else r = (Ok (Some (mkDispatchBatch (mkEpoch (submitted s + 1)) (vlen chosen))),
              chosen ++ drop (length chosen) output) /\
      pending (abs C s') = pending (abs C s) ++ [(submitted s + 1, chosen)]).
Proof.
  intros Hwf Hout H64 room chosen. pose proof (sched_wf_inv C s Hwf) as Hinv.
  pose proof (members_le C _ Hinv) as Hml. pose proof (batches_le_members C _ Hinv) as Hbl.
  simpl in Hml, Hbl. rewrite !vlen_queue in *.
  eapply wp_mono; [by apply dispatch_ready_wp|]. intros s' r (Hwf' & -> & Habs). split; [done|].
  revert Habs. unfold a_dispatch. destruct (N.eqb_spec (vlen output) 0); [lia|]. simpl.
  destruct (N.ltb_spec u64_max (submitted s + 1)); [lia|]. rewrite !vlen_queue.
  destruct (N.eqb_spec (batch_len s) C) as [Hb|Hb]; simpl.
  { intros ->. rewrite decide_True by by left. done. }
  destruct (N.eqb_spec (member_len s) C) as [Hm|Hm]; simpl.
  { intros ->. rewrite decide_True; [done|]. right. unfold chosen, room. rewrite Hm, N.sub_diag, N.min_0_r.
    done. }
  fold room. destruct (a_scan _ _ _ _) as [[ch sl] cnt] eqn:E.
  assert (Hch : ch = chosen).
  { apply a_scan_spec in E as (-> & _); [done|by apply (scan_order_nodup C (abs C s))|].
    intros i Hi. change (vlen (slots s)) with (vlen (a_slots (abs C s))); rewrite (slots_len C _ Hinv). by apply (scan_order_lt C (abs C s) Hinv). }
  subst ch. clearbody chosen.
  assert (Hle : vlen chosen <= room).
  { apply (scan_dispatchable C (abs C s)) in E as (_ & _ & _ & ?); done. }
  destruct chosen as [|x l]; cbn [fst snd dispatch_result].
  { intros ->. by rewrite decide_True by by right. }
  intros ->. rewrite decide_False by (by intros [?|?]). split.
  - f_equal. rewrite write_list_app by (unfold room in Hle; lia).
    replace (N.to_nat (0 + vlen (x :: l))) with (length (x :: l)) by (unfold vlen; lia). done.
  - by apply (pending_commit C).
Qed.

Lemma sched_dispatch_round_robin_witness :
  wp (dispatch_ready 2 [mkRequestId 7 7]) (sched_demo 2 [SAdmit; SAdmit]) (fun s' r =>
    sched_wf 2 s' /\
    if decide (batch_len (sched_demo 2 [SAdmit; SAdmit]) = 2 \/ [h0] = [])
    then r = (Ok None, [mkRequestId 7 7]) /\ abs 2 s' = abs 2 (sched_demo 2 [SAdmit; SAdmit])
    else r = (Ok (Some (mkDispatchBatch (mkEpoch 1) 1)), [h0]) /\
      pending (abs 2 s') = pending (abs 2 (sched_demo 2 [SAdmit; SAdmit])) ++ [(1, [h0])]).
Proof.
  assert (Hwf : sched_wf 2 (sched_demo 2 [SAdmit; SAdmit])) by (apply sched_demo_wf; by vm_compute).
  exact (sched_dispatch_round_robin 2 [mkRequestId 7 7] (sched_demo 2 [SAdmit; SAdmit]) Hwf
    ltac:(by vm_compute) ltac:(by vm_compute)).
Defined.

(** The batches dispatched from the cursor in a run, and the slots it moved. *)
Definition round_robin_event (op : SOp) (r : SResult) : list (N * list RequestId) :=
  match op with SDispatch _ => dispatch_event op r | _ => [] end.
Definition round_robin_batches (ops : list SOp) (rs : list SResult) : list (N * list RequestId) :=
  concat (zip_with round_robin_event ops rs).
Definition moved_slots (ops : list SOp) (rs : list SResult) : list N :=
  concat (zip_with touched ops rs).

Lemma a_sops_distance C i ops : forall a, a_inv C a -> i < C -> sl_state (a_slot a i) = Ready ->
  i ∉ moved_slots ops (a_sops C ops a).1 ->
  distance C (a_cursor (a_sops C ops a).2) i + vlen (round_robin_batches ops (a_sops C ops a).1) <=
  distance C (a_cursor a) i.
Proof.
  induction ops as [|op ops IH]; intros a Hinv Hi Hr Hni; cbn [a_sops].
  { unfold round_robin_batches. cbn. rewrite vlen_nil. lia. }
  cbn [a_sops] in Hni. pose proof (a_sop_inv C op a Hinv) as Hinv1.
  pose proof (sop_life C op a i Hinv Hi) as Hlife. pose proof (sop_distance C op a i Hinv Hi Hr) as Hd.
  destruct (a_sop C op a) as [r a1]. cbn [fst snd] in *. specialize (IH a1 Hinv1 Hi).
  destruct (a_sops C ops a1) as [rs a2]. cbn [fst snd] in *.
  unfold moved_slots in *. cbn [zip_with concat] in *. apply not_elem_of_app in Hni as [Hn1 Hn2].
  rewrite decide_False in Hlife by done.
  assert (Hr1 : sl_state (a_slot a1 i) = Ready).
  { change (state (life a1 i) = Ready). by rewrite Hlife. }
  specialize (IH Hr1 Hn2). unfold round_robin_batches in *. cbn [zip_with concat]. rewrite vlen_app.
  assert (Hd' : distance C (a_cursor a1) i + vlen (round_robin_event op r) <= distance C (a_cursor a) i);
    [|lia].
  destruct op; simpl in Hd |- *; try (rewrite ?vlen_nil; apply Hd; by apply not_elem_of_nil).
  - apply Hd. exact Hn1.
  - rewrite vlen_nil. apply Hd. exact Hn1.
Qed.

(** C30: no ready request starves: while a ready slot is left alone, the round-robin
    dispatches can pass it over at most as often as its distance from the
    cursor, so fewer than the capacity, whatever else happens in between. *)
Theorem sched_bounded_waiting C ops i s :
  sched_wf C s -> i < C -> sl_state (slot_of (slots s) i) = Ready ->
  wp (run_sops C ops) s (fun s' rs =>
    (i ∈ moved_slots ops rs) \/
    vlen (round_robin_batches ops rs) <= distance C (cursor s) i < C).
Proof.
  intros Hwf Hi Hr. pose proof (sched_wf_inv C s Hwf) as Hinv.
  eapply wp_mono; [by apply run_sops_wp|]. intros s' rs (_ & -> & _).
  destruct (decide (i ∈ moved_slots ops (a_sops C ops (abs C s)).1)) as [|Hni]; [by left|]. right.
  pose proof (a_sops_distance C i ops (abs C s) Hinv Hi Hr Hni) as Hd.
  pose proof (scan_order_distance C (cursor s) i (ai_cursor C _ Hinv) Hi) as [_ Hlt].
  simpl in Hd. lia.
Qed.

Lemma sched_bounded_waiting_witness :
  wp (run_sops 2 [SDispatch [mkRequestId 7 7]]) (sched_demo 2 [SAdmit; SAdmit]) (fun s' rs =>
    (1 ∈ moved_slots [SDispatch [mkRequestId 7 7]] rs) \/
    vlen (round_robin_batches [SDispatch [mkRequestId 7 7]] rs) <= 1 < 2).
Proof.
  assert (Hwf : sched_wf 2 (sched_demo 2 [SAdmit; SAdmit])) by (apply sched_demo_wf; by vm_compute).
  exact (sched_bounded_waiting 2 [SDispatch [mkRequestId 7 7]] 1 (sched_demo 2 [SAdmit; SAdmit]) Hwf
    ltac:(lia) ltac:(by vm_compute)).
Defined.

(** ** Admission *)
Definition slot_indices (C : N) : list N := N.of_nat <$> seq 0 (N.to_nat C).

Definition vacant_at (sl : list Slot) (i : N) : Prop := sl_state (slot_of sl i) = Vacant.

#[export] Instance vacant_at_dec sl i : Decision (vacant_at sl i).
Proof. unfold vacant_at. apply _. Defined.

Lemma slot_indices_elem C i : i ∈ slot_indices C <-> i < C.
Proof.
  unfold slot_indices. rewrite list_elem_of_fmap. split.
  - intros (k & -> & Hk%elem_of_seq). lia.
  - intros Hi. exists (N.to_nat i). rewrite elem_of_seq. lia.
Qed.

Lemma filter_split {A} (P : A -> Prop) `{forall x, Decision (P x)} (l : list A) :
  (length (filter P l) + length (filter (fun x => ~ P x) l) = length l)%nat.
Proof.
  induction l as [|x l IH]; [done|]. rewrite !filter_cons. simpl.
  destruct (decide (P x)); [rewrite decide_False by tauto | rewrite decide_True by tauto]; simpl; lia.
Qed.

Lemma live_slots C a : a_inv C a ->
  a_live a = vlen (filter (fun i => ~ vacant_at (a_slots a) i) (slot_indices C)).
Proof.
  intros Hinv. assert (Hp : a_free a ≡ₚ filter (vacant_at (a_slots a)) (slot_indices C)).
  { apply NoDup_Permutation.
    - apply (ai_free_nodup C a Hinv).
    - apply NoDup_filter, NoDup_fmap_2; [intros ???; lia|apply NoDup_seq].
    - intros i. rewrite list_elem_of_filter, slot_indices_elem. split.
      + intros Hi. destruct (free_vacant C a Hinv i Hi). done.
      + intros [Hv Hi]. apply (ai_free C a Hinv). split; [done|].
        destruct (ai_slot C a Hinv i Hi) as [_ H]. unfold vacant_at, a_slot in *. rewrite Hv in H. tauto. }
  apply Permutation_length in Hp. pose proof (filter_split (vacant_at (a_slots a)) (slot_indices C)) as Hs.
  pose proof (ai_live C a Hinv) as Hl. unfold slot_indices at 3 in Hs. rewrite length_fmap, length_seq in Hs.
  unfold vlen in *. lia.
Qed.

(** Admission is exact: the live count is the number of slots that are not
    vacant; [admit_request] succeeds precisely when that is below the capacity, and then
    hands out a vacant slot at its current generation, which becomes ready;
    otherwise it reports [OutOfSlots] and changes nothing. *)
Theorem sched_admission_exact C s :
  sched_wf C s ->
  live_count s = vlen (filter (fun i => ~ vacant_at (slots s) i) (slot_indices C)) /\
  wp (admit_request C) s (fun s' r =>
    if live_count s <? C
    then exists h, r = Ok h /\ slot h < C /\
      vacant_at (slots s) (slot h) /\ generation h = sl_generation (slot_of (slots s) (slot h)) /\
      a_state C (abs C s') h = Some Ready /\ live_count s' = live_count s + 1
    else r = Err OutOfSlots /\ abs C s' = abs C s).
Proof.
  intros Hwf. pose proof (sched_wf_inv C s Hwf) as Hinv. split; [by apply (live_slots C (abs C s))|].
  eapply wp_mono; [by apply admit_wp|]. intros s' r (_ & -> & Habs). revert Habs.
  pose proof (ai_live C _ Hinv) as Hl. change (a_live (abs C s)) with (live_count s) in Hl.
  unfold a_admit. destruct (a_free (abs C s)) as [|i rest] eqn:Ef; cbn [fst snd].
  { intros ->. rewrite vlen_nil in Hl. destruct (N.ltb_spec (live_count s) C); [lia|done]. }
  intros Habs. rewrite vlen_cons in Hl. destruct (N.ltb_spec (live_count s) C); [|lia].
  destruct (free_vacant C _ Hinv i) as [Hi Hv]; [rewrite Ef; set_solver|].
  exists (handle_at (slots s) i). split_and!; try done.
  - rewrite Habs. apply a_state_Ready. unfold a_slot. cbn [a_slots handle_at slot generation].
    rewrite slot_of_vset by (by rewrite (slots_len C _ Hinv)). by rewrite decide_True by done.
  - by apply (f_equal a_live) in Habs.
Qed.

Lemma sched_admission_exact_witness :
  live_count demo_detach = 1 /\
  wp (admit_request 2) demo_detach (fun s' r =>
    exists h, r = Ok h /\ slot h < 2 /\ a_state 2 (abs 2 s') h = Some Ready /\ live_count s' = 2).
Proof.
  destruct (sched_admission_exact 2 demo_detach demo_detach_wf) as [H1 H2]. split; [by vm_compute|].
  eapply wp_mono; [exact H2|]. intros s' r H.
  change (live_count demo_detach <? 2) with true in H.
  destruct H as (h & ? & ? & _ & _ & ? & ?). exists h. split_and!; done.
Defined.
