(* ===== verification/Engine.v ===== *)
(** The engine of [crates/ferric-engine/src/system.rs]: one scheduler and one KV
    pool behind a fault latch.  Every operation of the two components is reached
    through it; it passes the scheduler's quiescence permits to the pool and the
    pool's receipts back.  [on_scheduler] and [on_kv] run a component's operation
    on its field. *)
From S2P Require Import Prelude Spec.
Import Spec.Completion Spec.Lifecycle.
From S2P Require Import KvPool Ring Scheduler.
Local Open Scope prog_scope.

Module EngineError.
Inductive EngineError :=
| Faulted
| CompletionResultCount (expected actual : N)
| RequestNotReady
| Scheduler (e : SchedulerError)
| Kv (e : KvError)
| InvariantViolation.
End EngineError.
Abbreviation EngineError := EngineError.EngineError.

(** The failure of a completion, with the completion when it was not consumed. *)
Record EngineCompletionFailure := mkEngineFailure {
  ef_error : EngineError;
  ef_completion : option ExactCompletion
}.

Definition returned (error : EngineError) (completion : ExactCompletion) : EngineCompletionFailure :=
  mkEngineFailure error (Some completion).
Definition consumed (error : EngineError) : EngineCompletionFailure := mkEngineFailure error None.

Record Engine := mkEngine {
  scheduler : Scheduler;
  kv : KvPool;
  permits : list (option KvQuiescencePermit);
  faulted : bool
}.

Record M1CaptureQuarantinedEngineV1 := mkQuarantined { quarantined_engine : Engine }.

Definition put_scheduler (v : Scheduler) (e : Engine) : Engine :=
  mkEngine v (kv e) (permits e) (faulted e).
Definition put_kv (v : KvPool) (e : Engine) : Engine :=
  mkEngine (scheduler e) v (permits e) (faulted e).
Definition put_permits (v : list (option KvQuiescencePermit)) (e : Engine) : Engine :=
  mkEngine (scheduler e) (kv e) v (faulted e).
Definition put_faulted (v : bool) (e : Engine) : Engine :=
  mkEngine (scheduler e) (kv e) (permits e) v.

Definition on_scheduler {A} (m : M Scheduler A) : M Engine A := zoom scheduler put_scheduler m.
Definition on_kv {A} (m : M KvPool A) : M Engine A := zoom kv put_kv m.

Section engine.
Context (C : N).

(** ** Construction and accessors *)

(** [while index < C { permits.push(None); index += 1; }] *)
Fixpoint push_permits {S} (fuel : nat) (index : N) (ps : list (option KvQuiescencePermit)) :
    M S (list (option KvQuiescencePermit)) :=
  match fuel with
  | O => ret ps
  | S fuel' =>
      if index <? C then
        let! index' := add_usize index 1 in
        push_permits fuel' index' (ps ++ [None])
      else ret ps
  end.

Definition new {S} (page_count ptokens max_context : N) : M S (result Engine EngineError) :=
  let! s := Scheduler.new C in
  match s with
  | Err error => ret (Err (EngineError.Scheduler error))
  | Ok sched =>
      let! k := KvPool.new page_count ptokens max_context in
      match k with
      | Err error => ret (Err (EngineError.Kv error))
      | Ok pool =>
          let! ps := push_permits (N.to_nat C) 0 [] in
          ret (Ok (mkEngine sched pool ps false))
      end
  end.

Definition is_faulted (self : Engine) : bool := faulted self.
Definition quarantine_m1_queue_rearm_failure : M Engine unit := modify (put_faulted true).
Definition into_m1_capture_quarantine : M Engine M1CaptureQuarantinedEngineV1 :=
  quarantine_m1_queue_rearm_failure ;;
  gets mkQuarantined.
Definition live_count (self : Engine) : N := Scheduler.live_count (scheduler self).
Definition completed_epoch (self : Engine) : CompletionEpoch := Scheduler.completed_epoch (scheduler self).
Definition page_tokens (self : Engine) : N := KvPool.page_tokens (kv self).
Definition free_pages (self : Engine) : N := KvPool.free_pages (kv self).
Definition resident_tokens (self : Engine) (request : RequestId) : option N :=
  KvPool.resident_tokens (kv self) request.
Definition committed_tokens (self : Engine) (request : RequestId) : option N :=
  KvPool.committed_tokens (kv self) request.
Definition state (request : RequestId) : M Engine (option RequestState) :=
  on_scheduler (request_state C request).

Definition require_healthy : M Engine (result unit EngineError) :=
  let! f := gets faulted in
  if f then ret (Err EngineError.Faulted) else ret (Ok tt).

Definition set_fault : M Engine unit := modify (put_faulted true).

(** [self.permits.set(index, None)] for every index. *)
Fixpoint clear_permits_loop (fuel : nat) (index : N) : M Engine unit :=
  match fuel with
  | O => ret tt
  | S fuel' =>
      if index <? C then
        update_at permits put_permits index (fun _ => None) ;;
        let! index' := add_usize index 1 in
        clear_permits_loop fuel' index'
      else ret tt
  end.

Definition clear_permits : M Engine unit := clear_permits_loop (N.to_nat C) 0.

(** ** Checking a completion *)

(** One member of the batch; the loop of [preflight_complete_exact] stops at the
    first error. *)
Definition preflight_member (completion : ExactCompletion) (accepted_tokens : list N) (index : N) :
    M Engine (result unit EngineError) :=
  let! member := on_scheduler (pending_member C index) in
  match member with
  | None => ret (Err EngineError.InvariantViolation)
  | Some request =>
      let! st := state request in
      match st with
      | Some InFlight =>
          let! resident := gets (fun e => resident_tokens e request) in
          let! committed := gets (fun e => committed_tokens e request) in
          match resident, committed with
          | Some r, Some c =>
              match checked_sub r c with
              | None => ret (Err EngineError.InvariantViolation)
              | Some tentative =>
                  let! accepted := slice_at accepted_tokens index in
                  if tentative <? accepted then
                    ret (Err (EngineError.Kv CommitExceedsResident))
                  else ret (Ok tt)
              end
          | _, _ => ret (Err EngineError.InvariantViolation)
          end
      | Some Retiring =>
          let! ready := on_scheduler (pending_retirement_ready C index request (ec_epoch completion)) in
          if ready then ret (Ok tt)
          else if generation request =? u32_max then
            ret (Err (EngineError.Scheduler GenerationExhausted))
          else ret (Err EngineError.InvariantViolation)
      | _ => ret (Err EngineError.InvariantViolation)
      end
  end.

Fixpoint preflight_loop (count : nat) (completion : ExactCompletion) (accepted_tokens : list N)
    (index : N) : M Engine (result unit EngineError) :=
  match count with
  | O => ret (Ok tt)
  | S count' =>
      let? _ := preflight_member completion accepted_tokens index in
      let! index' := add_usize index 1 in
      preflight_loop count' completion accepted_tokens index'
  end.

Definition preflight_complete_exact (completion : ExactCompletion) (accepted_tokens : list N) :
    M Engine (result unit EngineError) :=
  let! f := gets faulted in
  if f then ret (Err EngineError.Faulted)
  else
    let! member_count := on_scheduler pending_batch_member_count in
    if negb (vlen accepted_tokens =? member_count) then
      ret (Err (EngineError.CompletionResultCount member_count (vlen accepted_tokens)))
    else if member_count =? 0 then ret (Err (EngineError.Scheduler NoPendingBatch))
    else
      let! completed := gets completed_epoch in
      match check_exact_next completed (ec_epoch completion) with
      | Err _ => ret (Err (EngineError.Scheduler CompletionNotExactNext))
      | Ok _ => preflight_loop (N.to_nat member_count) completion accepted_tokens 0
      end.

Definition reject_reordered_completion (completion : ExactCompletion) (accepted_tokens : list N) :
    M Engine EngineCompletionFailure :=
  let! r := preflight_complete_exact completion accepted_tokens in
  match r with
  | Err error => ret (returned error completion)
  | Ok _ => ret (returned (EngineError.Scheduler CompletionNotExactNext) completion)
  end.

(** ** Request operations *)
Definition admit_request : M Engine (result RequestId EngineError) :=
  let? _ := require_healthy in
  let! admitted := on_scheduler (Scheduler.admit_request C) in
  match admitted with
  | Err error => ret (Err (EngineError.Scheduler error))
  | Ok request =>
      let! created := on_kv (create_request request) in
      match created with
      | Ok _ => ret (Ok request)
      | Err error => set_fault ;; ret (Err (EngineError.Kv error))
      end
  end.

Definition append_tentative (request : RequestId) (token_count : N) :
    M Engine (result unit EngineError) :=
  let? _ := require_healthy in
  let! st := state request in
  match st with
  | Some Ready =>
      let! appended := on_kv (KvPool.append_tentative request token_count) in
      match appended with
      | Ok _ => ret (Ok tt)
      | Err error => ret (Err (EngineError.Kv error))
      end
  | Some (Vacant | InFlight | Retiring) | None => ret (Err EngineError.RequestNotReady)
  end.

Definition share_committed_prefix (source target : RequestId) (token_count : N) :
    M Engine (result unit EngineError) :=
  let? _ := require_healthy in
  let! source_state := state source in
  match source_state with
  | Some Ready =>
      let! target_state := state target in
      match target_state with
      | Some Ready =>
          let! shared := on_kv (KvPool.share_committed_prefix source target token_count) in
          match shared with
          | Ok _ => ret (Ok tt)
          | Err error => ret (Err (EngineError.Kv error))
          end
      | _ => ret (Err EngineError.RequestNotReady)
      end
  | _ => ret (Err EngineError.RequestNotReady)
  end.

Definition validate_read (request : RequestId) (logical_offset span : N) :
    M Engine (result unit EngineError) :=
  let? _ := require_healthy in
  let! read := on_kv (KvPool.validate_read request logical_offset span) in
  match read with
  | Ok _ => ret (Ok tt)
  | Err error => ret (Err (EngineError.Kv error))
  end.

Definition retire (request : RequestId) : M Engine (result unit EngineError) :=
  let? _ := require_healthy in
  let! retired := on_scheduler (Scheduler.retire C request) in
  match retired with
  | Ok _ => ret (Ok tt)
  | Err error => ret (Err (EngineError.Scheduler error))
  end.

Definition reincarnate_next_retiring : M Engine (result RequestId EngineError) :=
  let? _ := require_healthy in
  let! preflight := on_scheduler preflight_next_reincarnation in
  match preflight with
  | Err error => ret (Err (EngineError.Scheduler error))
  | Ok predecessor =>
      let! taken := on_scheduler (take_retiring_permit C) in
      match taken with
      | Ok (Some permit) =>
          let! released := on_kv (release_request predecessor permit) in
          match released with
          | Err failure => set_fault ;; ret (Err (EngineError.Kv (authority_error failure)))
          | Ok detached =>
              let! successor := on_scheduler (reincarnate_detached detached) in
              let! created := on_kv (create_request successor) in
              match created with
              | Err error => set_fault ;; ret (Err (EngineError.Kv error))
              | Ok _ => ret (Ok successor)
              end
          end
      | Ok None | Err _ => ret (Err (EngineError.Scheduler InvariantViolation))
      end
  end.

Definition reclaim_one : M Engine (result (option RequestId) EngineError) :=
  let? _ := require_healthy in
  let! taken := on_scheduler (take_retiring_permit C) in
  match taken with
  | Err error => ret (Err (EngineError.Scheduler error))
  | Ok None => ret (Ok None)
  | Ok (Some permit) =>
      let request := permit_request permit in
      let! released := on_kv (release_request request permit) in
      match released with
      | Err failure => set_fault ;; ret (Err (EngineError.Kv (authority_error failure)))
      | Ok detached =>
          let! reclaimed := on_scheduler (reclaim_detached C detached) in
          match reclaimed with
          | Ok request => ret (Ok (Some request))
          | Err error => set_fault ;; ret (Err (EngineError.Scheduler error))
          end
      end
  end.

(** ** Dispatch *)
Definition dispatch_ready (output : list RequestId) :
    M Engine (result (option DispatchBatch) EngineError * list RequestId) :=
  let! healthy := require_healthy in
  match healthy with
  | Err error => ret (Err error, output)
  | Ok _ =>
      let! dispatched := on_scheduler (Scheduler.dispatch_ready C output) in
      match dispatched with
      | (Ok batch, output') => ret (Ok batch, output')
      | (Err error, output') => ret (Err (EngineError.Scheduler error), output')
      end
  end.

Definition dispatch_m1_ready : M Engine (result (option M1ScheduledDispatchV1) EngineError) :=
  let! dispatched := dispatch_ready (vfill M1_MAX_ACTIVE_SEQUENCES (mkRequestId 0 0)) in
  let '(r, selected) := dispatched in
  match r with
  | Err error => ret (Err error)
  | Ok None => ret (Ok None)
  | Ok (Some batch) =>
      let! scheduled := from_dispatch_batch batch selected in
      ret (Ok (Some scheduled))
  end.

Definition dispatch_m1_exact_ready (expected_epoch : CompletionEpoch) (requests : list RequestId) :
    M Engine (result M1ScheduledDispatchV1 M1ExactDispatchErrorV1.M1ExactDispatchErrorV1) :=
  let! f := gets faulted in
  if f then ret (Err M1ExactDispatchErrorV1.Faulted)
  else on_scheduler (Scheduler.dispatch_m1_exact_ready C expected_epoch requests).

(** ** Exact completion *)

(** The re-check of [complete_exact] before anything is consumed. *)
Definition recheck_member (completion : ExactCompletion) (accepted_tokens : list N) (index : N) :
    M Engine (result unit EngineCompletionFailure) :=
  let fault := set_fault ;; ret (Err (consumed EngineError.InvariantViolation)) in
  let! member := on_scheduler (pending_member C index) in
  match member with
  | None => fault
  | Some request =>
      let! st := state request in
      match st with
      | Some InFlight =>
          let! resident := gets (fun e => resident_tokens e request) in
          match resident with
          | None => fault
          | Some r =>
              let! committed := gets (fun e => committed_tokens e request) in
              match committed with
              | None => fault
              | Some c =>
                  match checked_sub r c with
                  | None => fault
                  | Some tentative =>
                      let! accepted := slice_at accepted_tokens index in
                      if tentative <? accepted then
                        ret (Err (returned (EngineError.Kv CommitExceedsResident) completion))
                      else ret (Ok tt)
                  end
              end
          end
      | _ => ret (Ok tt)
      end
  end.

Fixpoint recheck_loop (count : nat) (completion : ExactCompletion) (accepted_tokens : list N)
    (index : N) : M Engine (result unit EngineCompletionFailure) :=
  match count with
  | O => ret (Ok tt)
  | S count' =>
      let? _ := recheck_member completion accepted_tokens index in
      let! index' := add_usize index 1 in
      recheck_loop count' completion accepted_tokens index'
  end.

(** [self.permits[index].take()] *)
Definition take_permit (index : N) : M Engine (option KvQuiescencePermit) :=
  let! p := read_at permits index in
  update_at permits put_permits index (fun _ => None) ;;
  ret p.

Definition fault_and_clear {A} (error : EngineError) : M Engine (result A EngineCompletionFailure) :=
  set_fault ;; clear_permits ;; ret (Err (consumed error)).

(** One completed member: its KV is finalized, or released when it was retired
    while it ran. *)
Definition complete_member (accepted_tokens : list N) (index : N) :
    M Engine (result unit EngineCompletionFailure) :=
  let! taken := take_permit index in
  match taken with
  | None => fault_and_clear EngineError.InvariantViolation
  | Some permit =>
      let request := permit_request permit in
      let! st := state request in
      match st with
      | Some InFlight =>
          let! accepted := slice_at accepted_tokens index in
          let! finalized := on_kv (finalize_tentative request accepted permit) in
          match finalized with
          | Err failure => fault_and_clear (EngineError.Kv (authority_error failure))
          | Ok receipt =>
              let! r := on_scheduler (accept_finalized C receipt) in
              match r with
              | Err error => fault_and_clear (EngineError.Scheduler error)
              | Ok _ => ret (Ok tt)
              end
          end
      | Some Retiring =>
          let! released := on_kv (release_request request permit) in
          match released with
          | Err failure => fault_and_clear (EngineError.Kv (authority_error failure))
          | Ok detached =>
              let! r := on_scheduler (reclaim_detached C detached) in
              match r with
              | Ok _ => ret (Ok tt)
              | Err error => set_fault ;; ret (Err (consumed (EngineError.Scheduler error)))
              end
          end
      | Some (Ready | Vacant) | None => fault_and_clear EngineError.InvariantViolation
      end
  end.

Fixpoint complete_loop (count : nat) (accepted_tokens : list N) (index : N) :
    M Engine (result unit EngineCompletionFailure) :=
  match count with
  | O => ret (Ok tt)
  | S count' =>
      let? _ := complete_member accepted_tokens index in
      let! index' := add_usize index 1 in
      complete_loop count' accepted_tokens index'
  end.

Definition complete_exact (completion : ExactCompletion) (accepted_tokens : list N) :
    M Engine (result N EngineCompletionFailure) :=
  let! preflight := preflight_complete_exact completion accepted_tokens in
  match preflight with
  | Err error => ret (Err (returned error completion))
  | Ok _ =>
      let! f := gets faulted in
      if f then ret (Err (returned EngineError.Faulted completion))
      else
        let! member_count := on_scheduler pending_batch_member_count in
        if negb (vlen accepted_tokens =? member_count) then
          ret (Err (returned (EngineError.CompletionResultCount member_count (vlen accepted_tokens))
                      completion))
        else
          let? _ := recheck_loop (N.to_nat member_count) completion accepted_tokens 0 in
          let! ps := gets permits in
          let! res := on_scheduler (Scheduler.complete_exact C completion ps) in
          let '(r, ps') := res in
          modify (put_permits ps') ;;
          match r with
          | Err failure =>
              ret (Err (returned (EngineError.Scheduler (cf_error failure)) (cf_completion failure)))
          | Ok count =>
              let? _ := complete_loop (N.to_nat count) accepted_tokens 0 in
              ret (Ok count)
          end
  end.

End engine.
