(* ===== verification/EngineInv.v ===== *)
(** The joint invariant of the engine: the scheduler and the pool keep their own
    invariants, agree on which slots are in use and under which generation, and
    no quiescence permit is left in the completion buffer. *)
From S2P Require Import Prelude Spec.
Import Spec.Completion Spec.Lifecycle.
From S2P Require Import KvPool KvInv KvOps KvTheorems Ring Scheduler SchedSpec SchedInv SchedOps SchedLife.
From S2P Require Import Engine.
Local Open Scope prog_scope.

(** A slot is in use in the pool exactly when it is not vacant in the scheduler,
    under the same generation. *)
Record agree (C : N) (a : AbsSched) (k : KvPool) : Prop := mkAgree {
  ag_generation : forall i, i < C -> rs_generation (req_at k i) = sl_generation (a_slot a i);
  ag_live : forall i, i < C -> (rs_live (req_at k i) = true <-> sl_state (a_slot a i) <> Vacant);
  ag_beyond : forall i, C <= i -> rs_live (req_at k i) = false
}.

Record engine_ok (C : N) (e : Engine) : Prop := mkEngineOk {
  eo_sched : sched_wf C (scheduler e);
  eo_kv : wf (kv e);
  eo_agree : agree C (abs C (scheduler e)) (kv e);
  eo_permits : vlen (permits e) = C
}.

Record engine_wf (C : N) (e : Engine) : Prop := mkEngineWf {
  ew_ok : engine_ok C e;
  ew_empty : permits e = vfill C None
}.

(** ** Running a component's operation *)
Lemma wp_on_scheduler {A} (m : M Scheduler A) e (Q : Engine -> A -> Prop) :
  wp m (scheduler e) (fun s' x => Q (put_scheduler s' e) x) -> wp (on_scheduler m) e Q.
Proof. apply wp_zoom. Qed.

Lemma wp_on_kv {A} (m : M KvPool A) e (Q : Engine -> A -> Prop) :
  wp m (kv e) (fun s' x => Q (put_kv s' e) x) -> wp (on_kv m) e Q.
Proof. apply wp_zoom. Qed.

Lemma put_scheduler_id e : put_scheduler (scheduler e) e = e.
Proof. by destruct e. Qed.
Lemma put_kv_id e : put_kv (kv e) e = e.
Proof. by destruct e. Qed.
Lemma put_permits_id e : put_permits (permits e) e = e.
Proof. by destruct e. Qed.

(** ** Agreement *)

(** The scheduler changes no generation and empties or fills no slot. *)
Definition keeps (C : N) (a a' : AbsSched) : Prop :=
  forall i, i < C -> generation_at a' i = generation_at a i /\
    (sl_state (a_slot a' i) = Vacant <-> sl_state (a_slot a i) = Vacant).

Lemma agree_keeps C a a' k : agree C a k -> keeps C a a' -> agree C a' k.
Proof.
  intros [Hg Hl Hb] Hk. split; [| |done].
  - intros i Hi. destruct (Hk i Hi) as [H _]. unfold generation_at in H. rewrite H. auto.
  - intros i Hi. destruct (Hk i Hi) as [_ H]. rewrite H. auto.
Qed.

Lemma keeps_refl C a : keeps C a a.
Proof. by intros i Hi. Qed.

Lemma keeps_set C a i x free reclaim live :
  a_inv C a -> i < C -> sl_generation x = sl_generation (a_slot a i) ->
  (sl_state x = Vacant <-> sl_state (a_slot a i) = Vacant) ->
  keeps C a (mkAbs (vset (a_slots a) i x) free reclaim (a_members a) (a_batches a) (a_cursor a)
          (a_submitted a) (a_completed a) live).
Proof.
  intros Hinv Hi Hg Hv j Hj. unfold generation_at, a_slot. simpl.
  rewrite slot_of_vset by (by rewrite (slots_len C a Hinv)). case_decide as E; [by subst j|done].
Qed.

Lemma keeps_commit C a rs e cursor : a_inv C a -> dispatchable C a rs ->
  keeps C a (a_commit a (dispatch_all e (a_slots a) rs) rs e cursor).
Proof.
  intros Hinv Hd i Hi. rewrite (generation_commit C) by done. split; [done|].
  destruct Hd as [Hnd Hrs]. unfold a_slot. simpl. rewrite slot_of_dispatch_all; [|done|].
  - case_decide as Hin; [|done]. apply list_elem_of_fmap in Hin as (r & -> & Hr).
    destruct (Hrs r Hr) as (_ & _ & Hs). unfold a_slot in Hs. by rewrite Hs.
  - intros r Hr. rewrite (slots_len C a Hinv). by apply Hrs.
Qed.

Lemma retire_keeps C a r : a_inv C a -> keeps C a (a_retire C a r).2.
Proof.
  intros Hinv. unfold a_retire. destruct (N.leb_spec C (slot r)) as [|Hi]; [apply keeps_refl|].
  destruct (sl_generation _ =? _); [|apply keeps_refl]. cbn [negb].
  destruct (sl_state (a_slot a (slot r))) eqn:Es; try apply keeps_refl;
    (apply keeps_set; [done|done|done|by rewrite Es]).
Qed.

Lemma take_keeps C a : a_inv C a -> keeps C a (a_take a).2.
Proof.
  intros Hinv. unfold a_take. destruct (a_reclaim a) as [|i rest] eqn:Er; [apply keeps_refl|].
  destruct (reclaim_retiring C a Hinv i) as (Hi & _); [rewrite Er; set_solver|]. by apply keeps_set.
Qed.

Lemma dispatch_keeps C a room : a_inv C a -> keeps C a (a_dispatch C a room).2.
Proof.
  intros Hinv. unfold a_dispatch. destruct (room =? 0); [apply keeps_refl|].
  destruct (u64_max <? a_submitted a + 1); [apply keeps_refl|]. destruct (_ || _); [apply keeps_refl|].
  destruct (a_scan _ _ _ _) as [[chosen sl] n] eqn:E.
  apply scan_dispatchable in E as (Hd & -> & _); [|done].
  destruct chosen; [apply keeps_refl|]. by apply keeps_commit.
Qed.

Lemma dispatch_exact_keeps C a e rs : a_inv C a -> keeps C a (a_dispatch_exact C a e rs).2.
Proof.
  intros Hinv. unfold a_dispatch_exact. destruct (exact_error C a e rs) eqn:E; [apply keeps_refl|].
  apply exact_dispatchable in E as (Hd & _); [|by apply members_le]. by apply keeps_commit.
Qed.

Lemma finalize_keeps C a f : a_inv C a -> keeps C a (a_finalize C a f).2.
Proof.
  intros Hinv. unfold a_finalize. destruct (a_finalize_error C a f) eqn:E; [apply keeps_refl|].
  apply a_finalize_ready in E as (Hi & _ & Hs & _). apply keeps_set; [done..|]. by rewrite Hs.
Qed.

(** The pool changes no generation and creates or releases no request. *)
Lemma agree_view C a k k' i :
  agree C a k -> (forall j, j <> i -> req_at k' j = req_at k j) ->
  rs_generation (req_at k' i) = rs_generation (req_at k i) ->
  rs_live (req_at k' i) = rs_live (req_at k i) -> agree C a k'.
Proof.
  intros [Hg Hl Hb] Ho G L.
  assert (Hreq : forall j, rs_generation (req_at k' j) = rs_generation (req_at k j) /\
                           rs_live (req_at k' j) = rs_live (req_at k j)).
  { intros j. destruct (decide (j = i)) as [->|Hne]; [done|]. by rewrite Ho. }
  split; intros j Hj; destruct (Hreq j) as [R1 R2]; rewrite ?R1, ?R2; auto.
Qed.

(** Both sides change slot [i] together. *)
Lemma agree_both C a a' k k' i :
  agree C a k -> i < C ->
  (forall j, j <> i -> req_at k' j = req_at k j) ->
  (forall j, j < C -> j <> i -> a_slot a' j = a_slot a j) ->
  rs_generation (req_at k' i) = sl_generation (a_slot a' i) ->
  (rs_live (req_at k' i) = true <-> sl_state (a_slot a' i) <> Vacant) -> agree C a' k'.
Proof.
  intros [Hg Hl Hb] Hi Ho Ha G L. split; intros j Hj.
  - destruct (decide (j = i)) as [->|Hne]; [done|]. rewrite Ho, Ha by done. auto.
  - destruct (decide (j = i)) as [->|Hne]; [done|]. rewrite Ho, Ha by done. auto.
  - rewrite Ho by lia. auto.
Qed.

(** ** What the scheduler says about a handle, in the pool *)
Section handles.
Context (C : N) (a : AbsSched) (k : KvPool).
Context (Hinv : a_inv C a) (Hkv : wf k) (Hag : agree C a k).

Lemma slot_in_pool i : i < C -> i < MAX_REQUEST_SLOTS.
Proof. destruct (ai_cap C a Hinv). lia. Qed.

(** A handle is live in the pool exactly when the scheduler has a state for it. *)
Lemma live_decision_state r : live_decision k (request_key r) = None <-> a_state C a r <> None.
Proof.
  rewrite live_decision_None. unfold a_state, request_key. simpl.
  destruct (N.leb_spec C (slot r)) as [Hge|Hlt].
  - split; [|done]. intros (_ & Hl & _). rewrite (ag_beyond C a k Hag) in Hl by done. done.
  - rewrite (ag_generation C a k Hag) by done. pose proof (ag_live C a k Hag _ Hlt) as Hl.
    pose proof (slot_in_pool _ Hlt).
    destruct (N.eqb_spec (sl_generation (a_slot a (slot r))) (generation r)).
    + rewrite Hl. destruct (sl_state (a_slot a (slot r))); naive_solver.
    + naive_solver.
Qed.

Lemma tokens_of r :
  a_state C a r <> None ->
  KvPool.resident_tokens k r = Some (rs_resident_tokens (req_at k (slot r))) /\
  KvPool.committed_tokens k r = Some (rs_committed_tokens (req_at k (slot r))).
Proof.
  intros Hs. apply live_decision_state, live_decision_None in Hs as (Hi & Hl & Hg). simpl in *.
  unfold KvPool.resident_tokens, KvPool.committed_tokens.
  rewrite (vget_nth RequestSlot_empty) by (by rewrite (sh_requests k (wf_shape k Hkv))).
  change (vnth RequestSlot_empty (requests k) (slot r)) with (req_at k (slot r)).
  rewrite Hl, Hg, N.eqb_refl. done.
Qed.

(** A vacant slot's next handle can be created in the pool. *)
Lemma create_vacant i : i < C -> sl_state (a_slot a i) = Vacant ->
  create_decision k (request_key (handle_at (a_slots a) i)) = None.
Proof.
  intros Hi Hv. unfold create_decision, request_key, handle_at. simpl. pose proof (slot_in_pool i Hi).
  destruct (N.leb_spec MAX_REQUEST_SLOTS i); [lia|].
  pose proof (ag_live C a k Hag i Hi) as Hl. rewrite (ag_generation C a k Hag i Hi).
  destruct (rs_live (req_at k i)); [naive_solver|]. unfold a_slot. by rewrite N.eqb_refl.
Qed.
End handles.
