(* ===== verification/EngineOps.v ===== *)
(** Every engine operation keeps the joint invariant and does exactly what its
    components' specifications say: the error paths of [system.rs] that guard
    against a disagreement of the two components are never taken. *)
From S2P Require Import Prelude Spec.
Import Spec.Completion Spec.Lifecycle.
From S2P Require Import KvPool KvInv KvPrim KvOps KvTheorems Ring Scheduler SchedSpec SchedInv SchedOps SchedLife.
From S2P Require Import Engine EngineInv.
Local Open Scope prog_scope.

(** Nothing observable changed. *)
Record same (C : N) (e e' : Engine) : Prop := mkSame {
  sm_sched : abs C (scheduler e') = abs C (scheduler e);
  sm_kv : kv e' = kv e;
  sm_faulted : faulted e' = faulted e
}.

Lemma same_refl C e : same C e e.
Proof. done. Qed.

#[export] Hint Resolve same_refl : ferric.

Lemma engine_ok_inv C e : engine_ok C e -> a_inv C (abs C (scheduler e)).
Proof. by intros [[] ? ? ?]. Qed.

(** The scheduler moves on and the pool stays. *)
Lemma ok_put_scheduler C e s' :
  engine_ok C e -> sched_wf C s' -> keeps C (abs C (scheduler e)) (abs C s') ->
  engine_ok C (put_scheduler s' e).
Proof.
  intros [? ? Hag ?] Hs Hk. split; [done|done| |done]. by apply (agree_keeps C (abs C (scheduler e))).
Qed.

(** The pool moves on without creating or releasing a request. *)
Lemma ok_put_kv C e k' i :
  engine_ok C e -> wf k' -> evolves (kv e) k' i ->
  rs_generation (req_at k' i) = rs_generation (req_at (kv e) i) ->
  rs_live (req_at k' i) = rs_live (req_at (kv e) i) ->
  engine_ok C (put_kv k' e).
Proof.
  intros [? ? Hag ?] Hk [_ _ _ Ho] G L. split; [done|done| |done]. by apply (agree_view C _ (kv e) k' i).
Qed.

Lemma ok_put_faulted C e b : engine_ok C e -> engine_ok C (put_faulted b e).
Proof. by intros []. Qed.

Ltac eng_step :=
  lazymatch goal with
  | |- wp (bind _ _) _ _ => apply wp_bind
  | |- wp (try_bind _ _) _ _ => apply wp_try_bind
  | |- wp (gets _) _ _ => apply wp_gets
  | |- wp (modify _) _ _ => apply wp_modify
  | |- wp (ret _) _ _ => apply wp_ret
  | |- wp (on_scheduler _) _ _ => apply wp_on_scheduler
  | |- wp (on_kv _) _ _ => apply wp_on_kv
  | |- wp (set_fault) _ _ => apply wp_modify
  end; cbv beta.

Section ops.
Context (C : N).

Lemma eng_state_wp e r (Q : Engine -> option RequestState -> Prop) :
  engine_ok C e -> Q e (a_state C (abs C (scheduler e)) r) -> wp (state C r) e Q.
Proof.
  intros Hok HQ. unfold state. eng_step. eapply wp_mono; [apply request_state_wp; apply Hok|].
  intros s' x [-> ->]. by rewrite put_scheduler_id.
Qed.

(** [require_healthy] returns the latched fault before anything else happens. *)
Lemma wp_healthy {A} e (m : M Engine (result A EngineError)) (Q : Engine -> result A EngineError -> Prop) :
  (if faulted e then Q e (Err EngineError.Faulted) else wp m e Q) ->
  wp (let? _ := require_healthy in m) e Q.
Proof. unfold wp, try_bind, require_healthy, bind, gets, ret. destruct (faulted e) eqn:E; cbn; by rewrite ?E. Qed.

Lemma eng_admit_wp e : engine_wf C e ->
  wp (admit_request C) e (fun e' r => engine_wf C e' /\
    if faulted e then r = Err EngineError.Faulted /\ e' = e
    else faulted e' = false /\
    match a_admit (abs C (scheduler e)) with
    | (Ok h, a') => r = Ok h /\ abs C (scheduler e') = a' /\
        kv e' = with_request (kv e) (slot h) (set_rs_live true (req_at (kv e) (slot h)))
    | (Err x, _) => r = Err (EngineError.Scheduler x) /\ same C e e'
    end).
Proof.
  intros [Hok Hemp]. unfold admit_request. apply wp_healthy. destruct (faulted e) eqn:Ef; [done|].
  do 2 eng_step. pose proof (engine_ok_inv C e Hok) as Hinv.
  pose proof (admit_wp C (scheduler e) ltac:(apply Hok)) as Hadm. unfold implements in Hadm.
  eapply wp_mono; [exact Hadm|]. clear Hadm. intros s' x (Hs & -> & Habs). cbv beta.
  revert Habs. pose proof (a_admit_inv C _ Hinv) as Hinv'. unfold a_admit in *.
  destruct (a_free (abs C (scheduler e))) as [|i rest] eqn:Efree; cbn [fst snd].
  { intros Habs. eng_step. split; [|done]. split; [|done]. apply ok_put_scheduler; [done..|].
    rewrite Habs. apply keeps_refl. }
  intros Habs. destruct (free_vacant C _ Hinv i) as [Hi Hv]; [rewrite Efree; set_solver|].
  pose proof Hok as [_ Hkv Hag Hp].
  do 2 eng_step. eapply wp_mono; [by apply create_request_key_wp|]. intros k' x.
  change (kv (put_scheduler s' e)) with (kv e).
  rewrite (create_vacant C (abs C (scheduler e))) by done. intros (-> & Hk' & ->). eng_step.
  split; [|done]. split; [|done]. split; [done|done| |done]. simpl.
  pose proof (slot_in_pool C _ Hinv i Hi) as Hi32.
  assert (Hslot : forall j, a_slot (abs C s') j = if decide (j = i)
    then set_sl_in_free false (set_sl_state Ready (a_slot (abs C (scheduler e)) i))
    else a_slot (abs C (scheduler e)) j).
  { intros j. rewrite Habs. unfold a_slot at 1. cbn [a_slots].
    by rewrite slot_of_vset by (by rewrite (slots_len C _ Hinv)). }
  apply (agree_both C (abs C (scheduler e)) _ (kv e) _ i); [done|done|..].
  - intros j Hne. rewrite req_at_with_request by done. by rewrite decide_False.
  - intros j _ Hne. by rewrite Hslot, decide_False.
  - rewrite req_at_with_request by done. rewrite Hslot, !decide_True by done. simpl. by apply Hag.
  - rewrite req_at_with_request by done. rewrite Hslot, !decide_True by done. simpl. done.
Qed.

(** Operations that only pass a request that is ready on to the pool. *)
Lemma eng_append_wp e request n : engine_wf C e ->
  wp (append_tentative C request n) e (fun e' r => engine_wf C e' /\
    if faulted e then r = Err EngineError.Faulted /\ e' = e
    else faulted e' = false /\ scheduler e' = scheduler e /\
    if decide (a_state C (abs C (scheduler e)) request = Some Ready) then
      match append_decision (kv e) (request_key request) n with
      | Some x => r = Err (EngineError.Kv x) /\ e' = e
      | None => r = Ok tt /\
          appended (kv e) (kv e') (slot request) n (append_demand (kv e) (slot request) n)
      end
    else r = Err EngineError.RequestNotReady /\ e' = e).
Proof.
  intros [Hok Hemp]. unfold append_tentative. apply wp_healthy. destruct (faulted e) eqn:Ef; [done|].
  eng_step. apply eng_state_wp; [done|]. case_decide as Hs.
  2: { destruct (a_state _ _ _) as [[]|]; try done; by eng_step. }
  rewrite Hs. do 2 eng_step. eapply wp_mono; [apply append_tentative_key_wp; apply Hok|].
  intros k' x. cbv beta. destruct (append_decision _ _ _).
  { intros [-> ->]. eng_step. by rewrite put_kv_id. }
  intros (-> & Hk & Happ). eng_step. split_and!; try done. split; [|done].
  destruct Happ as [Hev L G _ _ _ _ _]. by apply (ok_put_kv C e k' (slot request)).
Qed.

Lemma eng_share_wp e source target n : engine_wf C e -> n <= u32_max ->
  wp (share_committed_prefix C source target n) e (fun e' r => engine_wf C e' /\
    if faulted e then r = Err EngineError.Faulted /\ e' = e
    else faulted e' = false /\ scheduler e' = scheduler e /\
    if decide (a_state C (abs C (scheduler e)) source = Some Ready /\
               a_state C (abs C (scheduler e)) target = Some Ready) then
      match share_decision (kv e) (request_key source) (request_key target) n with
      | Some x => r = Err (EngineError.Kv x) /\ e' = e
      | None => r = Ok tt /\
          shared (kv e) (kv e') (slot source) (slot target) (n / KvPool.page_tokens (kv e))
      end
    else r = Err EngineError.RequestNotReady /\ e' = e).
Proof.
  intros [Hok Hemp] Hn. unfold share_committed_prefix. apply wp_healthy.
  destruct (faulted e) eqn:Ef; [done|].
  eng_step. apply eng_state_wp; [done|].
  destruct (a_state C (abs C (scheduler e)) source) as [[]|] eqn:E1;
    try (eng_step; rewrite decide_False by (by intros [? ?]); done).
  eng_step. apply eng_state_wp; [done|].
  destruct (a_state C (abs C (scheduler e)) target) as [[]|] eqn:E2;
    try (eng_step; rewrite decide_False by (by intros [? ?]); done).
  do 2 eng_step. eapply wp_mono; [apply share_committed_prefix_key_wp; [apply Hok|done]|].
  intros k' x. cbv beta. case_decide as Hd; [|by destruct Hd]. destruct (share_decision _ _ _ _).
  { intros [-> ->]. eng_step. by rewrite put_kv_id. }
  intros (-> & Hk & Hsh). eng_step. split_and!; try done. split; [|done].
  destruct Hsh as [Hev L G _ _ _ _ _ _]. by apply (ok_put_kv C e k' (slot target)).
Qed.

Lemma eng_read_wp e request offset span : engine_wf C e ->
  wp (validate_read request offset span) e (fun e' r => e' = e /\
    r = if faulted e then Err EngineError.Faulted
        else match read_decision (kv e) (request_key request) offset span with
             | Some x => Err (EngineError.Kv x)
             | None => Ok tt
             end).
Proof.
  intros [Hok Hemp]. unfold validate_read. apply wp_healthy. destruct (faulted e) eqn:Ef; [done|].
  do 2 eng_step. eapply wp_mono; [apply validate_read_key_wp; apply Hok|]. intros k' x [-> ->].
  destruct (read_decision _ _ _ _); eng_step; by rewrite put_kv_id.
Qed.

(** Operations of the scheduler alone. *)
Lemma eng_scheduler_wp {A B} e (m : M Scheduler A) (r : A) a' (k : A -> M Engine B)
    (Q : Engine -> B -> Prop) :
  engine_wf C e -> implements C m (scheduler e) r a' -> keeps C (abs C (scheduler e)) a' ->
  (forall e', engine_wf C e' -> abs C (scheduler e') = a' -> kv e' = kv e -> faulted e' = faulted e ->
     wp (k r) e' Q) ->
  wp (bind (on_scheduler m) k) e Q.
Proof.
  intros [Hok Hemp] Hm Hk HQ. do 2 eng_step. eapply wp_mono; [exact Hm|].
  intros s' x (Hs & -> & Habs). apply HQ; try done. split; [|done].
  apply ok_put_scheduler; [done..|]. by rewrite Habs.
Qed.

Lemma eng_retire_wp e request : engine_wf C e ->
  wp (retire C request) e (fun e' r => engine_wf C e' /\
    if faulted e then r = Err EngineError.Faulted /\ e' = e
    else faulted e' = false /\ kv e' = kv e /\
      abs C (scheduler e') = (a_retire C (abs C (scheduler e)) request).2 /\
      r = match (a_retire C (abs C (scheduler e)) request).1 with
          | Ok _ => Ok tt
          | Err x => Err (EngineError.Scheduler x)
          end).
Proof.
  intros Hwf. unfold retire. apply wp_healthy. destruct (faulted e) eqn:Ef; [done|].
  assert (Hs : sched_wf C (scheduler e)) by apply Hwf.
  eapply eng_scheduler_wp; [done|by apply retire_wp|by apply retire_keeps; apply Hs|].
  intros e' Hwf' Habs Hkv Hf. destruct (a_retire _ _ _).1; eng_step; by rewrite Hf.
Qed.

Lemma eng_dispatch_wp e output : engine_wf C e ->
  wp (dispatch_ready C output) e (fun e' r => engine_wf C e' /\
    if faulted e then r = (Err EngineError.Faulted, output) /\ e' = e
    else faulted e' = false /\ kv e' = kv e /\
      abs C (scheduler e') = (a_dispatch C (abs C (scheduler e)) (vlen output)).2 /\
      r = let x := dispatch_result (scheduler e) output (a_dispatch C (abs C (scheduler e)) (vlen output)).1 in
          (match x.1 with Ok b => Ok b | Err y => Err (EngineError.Scheduler y) end, x.2)).
Proof.
  intros Hwf. unfold dispatch_ready, require_healthy. do 3 eng_step.
  destruct (faulted e) eqn:Ef; eng_step; [by eng_step|].
  assert (Hs : sched_wf C (scheduler e)) by apply Hwf.
  eapply eng_scheduler_wp; [done|by apply dispatch_ready_wp|by apply dispatch_keeps; apply Hs|].
  intros e' Hwf' Habs Hkv Hf. destruct (dispatch_result _ _ _) as [[x|y] o]; eng_step; by rewrite Hf.
Qed.

(** The fixed-size dispatch of at most 32 requests. *)
Lemma eng_dispatch_m1_wp e : engine_wf C e ->
  wp (dispatch_m1_ready C) e (fun e' r => engine_wf C e' /\
    if faulted e then r = Err EngineError.Faulted /\ e' = e
    else faulted e' = false /\ kv e' = kv e /\
      let d := a_dispatch C (abs C (scheduler e)) M1_MAX_ACTIVE_SEQUENCES in
      abs C (scheduler e') = d.2 /\
      r = match d.1 with
          | Ok (Some rs) => Ok (Some (scheduled (submitted (scheduler e) + 1) rs))
          | Ok None => Ok None
          | Err x => Err (EngineError.Scheduler x)
          end).
Proof.
  intros Hwf. pose proof (engine_ok_inv C e ltac:(apply Hwf)) as Hinv. unfold dispatch_m1_ready. eng_step.
  eapply wp_mono; [by apply eng_dispatch_wp|]. intros e' x. cbv beta.
  rewrite vlen_vfill. destruct (faulted e).
  { intros (Hwf' & -> & ->). by eng_step. }
  intros (Hwf' & Hf & Hk & Ha & ->). unfold a_dispatch in *.
  destruct (M1_MAX_ACTIVE_SEQUENCES =? 0); [done|].
  destruct (u64_max <? _); [done|]. destruct (_ || _); [done|].
  destruct (a_scan _ _ _ _) as [[chosen sl] n] eqn:E.
  apply scan_dispatchable in E as (_ & _ & _ & Hl); [|done].
  destruct chosen as [|c l]; [done|]. cbn [fst snd dispatch_result] in *. eng_step.
  eapply wp_mono; [apply from_dispatch_batch_wp|].
  - apply take_write_whole. rewrite vlen_vfill. lia.
  - lia.
  - intros ? x [-> ->]. by eng_step.
Qed.

Lemma eng_dispatch_exact_wp e expected requests : engine_wf C e ->
  wp (dispatch_m1_exact_ready C expected requests) e (fun e' r => engine_wf C e' /\
    if faulted e then r = Err M1ExactDispatchErrorV1.Faulted /\ e' = e
    else faulted e' = false /\ kv e' = kv e /\
      let d := a_dispatch_exact C (abs C (scheduler e)) expected requests in
      abs C (scheduler e') = d.2 /\
      r = match d.1 with Ok rs => Ok (scheduled (submitted (scheduler e) + 1) rs) | Err x => Err x end).
Proof.
  intros Hwf. unfold dispatch_m1_exact_ready. do 2 eng_step.
  destruct (faulted e) eqn:Ef; [by eng_step|].
  assert (Hs : sched_wf C (scheduler e)) by apply Hwf. destruct Hwf as [Hok Hemp].
  eng_step. eapply wp_mono; [by apply dispatch_m1_exact_ready_wp|]. intros s' x (Hs' & -> & Habs).
  split_and!; try done. split; [|done]. apply ok_put_scheduler; [done..|]. rewrite Habs.
  apply dispatch_exact_keeps. apply Hs.
Qed.

(** ** Releasing a request *)

(** The errors a release of a live handle can end in. *)
Definition exhaustion (i : N) (x : KvError) : Prop :=
  x = RequestGenerationExhausted i \/ exists page, x = KvPool.GenerationExhausted page.

Lemma release_exhaustion k r x :
  live_decision k (request_key r) = None -> release_decision k (request_key r) = Some x ->
  exhaustion (slot r) x.
Proof.
  intros Hl. unfold release_decision. rewrite Hl. destruct (_ =? u32_max).
  - intros [= <-]. by left.
  - destruct (first_exhausted _ _ _ _ _); [|done]. intros [= <-]. right. eauto.
Qed.

Lemma finalize_exhaustion k r n x :
  live_decision k (request_key r) = None ->
  rs_committed_tokens (req_at k (slot r)) + n <= rs_resident_tokens (req_at k (slot r)) ->
  finalize_decision k (request_key r) n = Some x -> exists page, x = KvPool.GenerationExhausted page.
Proof.
  intros Hl Hn. unfold finalize_decision. rewrite Hl. simpl.
  destruct (N.ltb_spec (rs_resident_tokens (req_at k (slot r)))
    (rs_committed_tokens (req_at k (slot r)) + n)); [lia|].
  destruct (first_exhausted _ _ _ _ _); [|done]. intros [= <-]. eauto.
Qed.

Lemma release_generation k r :
  live_decision k (request_key r) = None -> release_decision k (request_key r) = None ->
  rs_generation (req_at k (slot r)) <> u32_max.
Proof.
  intros Hl. unfold release_decision. rewrite Hl. simpl. by destruct (N.eqb_spec (rs_generation (req_at k (slot r))) u32_max).
Qed.

Lemma permit_same r o exact :
  permit_error r (mkPermit r o) exact =
  exact && match o with NeverSubmitted => true | CompletedExact _ => false end.
Proof. unfold permit_error, same_request_id. simpl. by rewrite !N.eqb_refl. Qed.

(** The pool releases the request of slot [i] and the scheduler vacates it. *)
Lemma agree_released a a' k k' i freed :
  a_inv C a -> agree C a k -> i < C -> released k k' i freed ->
  (forall j, a_slot a' j = if decide (j = i)
     then mkSlot (sl_generation (a_slot a i) + 1) Vacant NO_EPOCH NO_EPOCH true false
     else a_slot a j) ->
  agree C a' k'.
Proof.
  intros Hinv Hag Hi [[_ _ _ Ho] L G _ _ _ _ _ _] Hslot.
  apply (agree_both C a a' k k' i); [done..| | |].
  - intros j _ Hne. by rewrite Hslot, decide_False.
  - rewrite Hslot, decide_True, G by done. simpl. by rewrite (ag_generation C a k Hag).
  - rewrite Hslot, decide_True, L by done. simpl. naive_solver.
Qed.

Lemma detach_slot a d : a_inv C a -> a_detach_error C a d = None ->
  forall j, a_slot (a_detach C a d).2 j = if decide (j = slot (detached_request d))
    then mkSlot (sl_generation (a_slot a (slot (detached_request d))) + 1) Vacant NO_EPOCH NO_EPOCH true false
    else a_slot a j.
Proof.
  intros Hinv Hd j. unfold a_detach. rewrite Hd. apply a_detach_ready in Hd as (Hi & _).
  unfold a_slot at 1. cbn [snd a_slots]. apply slot_of_vset. by rewrite (slots_len C a Hinv).
Qed.

(** The oldest retired request, off the reclaim queue, can be detached. *)
Lemma take_detachable a p a1 : a_inv C a -> a_take a = (Some p, a1) ->
  let d := mkDetached (permit_request p) (permit_origin p) in
  slot (permit_request p) < C /\
  sl_state (a_slot a (slot (permit_request p))) = Retiring /\
  generation (permit_request p) = sl_generation (a_slot a (slot (permit_request p))) /\
  (sl_generation (a_slot a (slot (permit_request p))) <> u32_max -> a_detach_error C a1 d = None).
Proof.
  intros Hinv Ht. unfold a_take in Ht. destruct (a_reclaim a) as [|i rest] eqn:Er; [done|].
  injection Ht as <- <-. destruct (reclaim_retiring C a Hinv i) as (Hi & Hs & Ha); [rewrite Er; set_solver|].
  cbn [permit_request permit_origin handle_at slot generation]. split_and!; [done|done|done|].
  intros Hne. unfold a_detach_error. cbn [detached_request detached_origin handle_at slot generation].
  rewrite (proj2 (N.leb_gt _ _)) by done.
  match goal with |- context [a_slot ?b i] => set (a1 := b) end.
  assert (Hslot : a_slot a1 i = set_sl_in_reclaim false (a_slot a i)).
  { unfold a1, a_slot at 1. cbn [a_slots]. rewrite slot_of_vset by (by rewrite (slots_len C a Hinv)).
    by rewrite decide_True. }
  rewrite Hslot. cbn [set_sl_in_reclaim sl_generation sl_state sl_in_reclaim_ring].
  change (slot_of (a_slots a) i) with (a_slot a i). rewrite N.eqb_refl, Hs. cbn [negb andb].
  rewrite bool_decide_eq_true_2 by done. cbn [andb].
  destruct (N.eqb_spec (sl_generation (a_slot a i)) u32_max); [done|].
  assert (Hm : origin_matches (set_sl_in_reclaim false (a_slot a i)) (quiescence_origin (a_slot a i))
                 (a_completed a1) = true); [|by rewrite Hm].
  unfold quiescence_origin, origin_matches. cbn [set_sl_in_reclaim sl_active_epoch sl_last_quiescent_epoch].
  destruct (N.eqb_spec (sl_last_quiescent_epoch (a_slot a i)) NO_EPOCH) as [E|E].
  - by rewrite Ha.
  - rewrite Ha. cbn. by rewrite N.eqb_refl.
Qed.

Lemma take_wp e : engine_ok C e ->
  wp (on_scheduler (take_retiring_permit C)) e (fun e' r =>
    engine_ok C e' /\ r = Ok (a_take (abs C (scheduler e))).1 /\
    abs C (scheduler e') = (a_take (abs C (scheduler e))).2 /\
    kv e' = kv e /\ permits e' = permits e /\ faulted e' = faulted e).
Proof.
  intros Hok. eng_step. eapply wp_mono; [apply take_retiring_permit_wp; apply Hok|].
  intros s' x (Hs & -> & Habs). split_and!; try done. apply ok_put_scheduler; [done..|].
  rewrite Habs. apply take_keeps. by apply engine_ok_inv.
Qed.

(** Releasing the request a permit names, whose slot is in use. *)
Lemma release_wp e p :
  engine_ok C e -> a_state C (abs C (scheduler e)) (permit_request p) <> None ->
  wp (on_kv (release_request (permit_request p) p)) e (fun e' r =>
    scheduler e' = scheduler e /\ permits e' = permits e /\ faulted e' = faulted e /\
    match release_decision (kv e) (request_key (permit_request p)) with
    | Some x => r = Err (mkAuthorityError x p) /\ e' = e /\ exhaustion (slot (permit_request p)) x
    | None => r = Ok (mkDetached (permit_request p) (permit_origin p)) /\ wf (kv e') /\
        rs_generation (req_at (kv e) (slot (permit_request p))) <> u32_max /\
        exists freed, released (kv e) (kv e') (slot (permit_request p)) freed
    end).
Proof.
  intros Hok Hst. pose proof Hok as [Hs Hkv Hag _]. pose proof (engine_ok_inv C e Hok) as Hinv.
  apply (live_decision_state C _ (kv e)) in Hst; [|done..].
  eng_step. eapply wp_mono; [by apply release_request_wp|]. intros k' x. cbv beta.
  destruct p as [h o]. cbn [permit_request permit_origin] in *. rewrite permit_same. cbn [andb].
  destruct (release_decision (kv e) (request_key h)) as [y|] eqn:Ed.
  - intros [-> ->]. rewrite put_kv_id. split_and!; try done. by apply (release_exhaustion (kv e)).
  - intros (-> & Hk & Hrel). split_and!; try done; [by apply release_generation|by eexists].
Qed.

Lemma reclaim_one_wp e : engine_wf C e ->
  wp (reclaim_one C) e (fun e' r => engine_wf C e' /\
    if faulted e then r = Err EngineError.Faulted /\ e' = e
    else match a_take (abs C (scheduler e)) with
    | (None, _) => r = Ok None /\ same C e e'
    | (Some p, a1) =>
        match release_decision (kv e) (request_key (permit_request p)) with
        | Some x => r = Err (EngineError.Kv x) /\ exhaustion (slot (permit_request p)) x /\
            faulted e' = true /\ abs C (scheduler e') = a1 /\ kv e' = kv e
        | None => r = Ok (Some (permit_request p)) /\ faulted e' = false /\
            abs C (scheduler e') = (a_detach C a1 (mkDetached (permit_request p) (permit_origin p))).2 /\
            exists freed, released (kv e) (kv e') (slot (permit_request p)) freed
        end
    end).
Proof.
  intros [Hok Hemp]. unfold reclaim_one. apply wp_healthy. destruct (faulted e) eqn:Ef; [done|].
  pose proof (engine_ok_inv C e Hok) as Hinv.
  eng_step. eapply wp_mono; [by apply take_wp|]. intros e1 x (Hok1 & -> & Habs1 & Hk1 & Hp1 & Hf1).
  cbv beta. destruct (a_take (abs C (scheduler e))) as [[p|] a1] eqn:Et; cbn [fst snd] in *.
  2: { eng_step. split; [split; congruence|]. split; [done|]. unfold a_take in Et.
       destruct (a_reclaim _); [|done]. injection Et as <-. by constructor. }
  destruct (take_detachable _ p a1 Hinv Et) as (Hi & Hst & Hgen & Hdet).
  assert (Hkeep : keeps C (abs C (scheduler e)) a1).
  { pose proof (take_keeps C _ Hinv) as H. by rewrite Et in H. }
  assert (Hstate : a_state C (abs C (scheduler e1)) (permit_request p) <> None).
  { destruct (Hkeep _ Hi) as [Hg Hv]. rewrite Habs1. unfold a_state, generation_at in *.
    rewrite (proj2 (N.leb_gt _ _)) by done. rewrite Hg, Hgen, N.eqb_refl.
    destruct (sl_state (a_slot a1 _)) eqn:E; try done. rewrite Hst in Hv. naive_solver. }
  eng_step. eapply wp_mono; [by apply release_wp|]. intros e2 x (Hs2 & Hp2 & Hf2 & H). cbv beta.
  rewrite Hk1 in H. destruct (release_decision (kv e) _) as [y|].
  - destruct H as (-> & -> & Hx). do 2 eng_step. eng_step. split_and!; try done.
    split; [by apply ok_put_faulted|]. simpl. congruence.
  - destruct H as (-> & Hwf2 & Hne & freed & Hrel).
    pose proof Hok1 as [Hsw1 _ Hag1 Hlen1].
    assert (Hd : a_detach_error C a1 (mkDetached (permit_request p) (permit_origin p)) = None).
    { apply Hdet. rewrite <- (ag_generation C _ (kv e)); [done|apply Hok|done]. }
    eng_step. eng_step. eapply wp_mono; [apply reclaim_detached_wp; by rewrite Hs2|].
    rewrite Hs2, Habs1. intros s3 x (Hs3 & -> & Habs3).
    pose proof (detach_slot a1 _ ltac:(rewrite <- Habs1; apply Hsw1) Hd) as Hslot.
    unfold a_detach at 1. rewrite Hd. cbn [fst]. eng_step.
    split; [|split_and!; try done; [simpl; congruence|by eexists]].
    split; [|simpl; congruence]. split; [done|done| |simpl; congruence].
    change (agree C (abs C s3) (kv e2)). rewrite Habs3.
    apply (agree_released a1 _ (kv e) _ (slot (permit_request p)) freed); try done.
    + rewrite <- Habs1. apply Hsw1.
    + by rewrite <- Habs1, <- Hk1.
Qed.

Lemma reincarnate_slot a d : a_inv C a -> a_detach_error C a d = None ->
  (a_reincarnate a d).1 = mkRequestId (slot (detached_request d))
    (sl_generation (a_slot a (slot (detached_request d))) + 1) /\
  forall j, a_slot (a_reincarnate a d).2 j = if decide (j = slot (detached_request d))
    then mkSlot (sl_generation (a_slot a (slot (detached_request d))) + 1) Ready NO_EPOCH NO_EPOCH false false
    else a_slot a j.
Proof.
  intros Hinv Hd. split; [done|]. intros j. apply a_detach_ready in Hd as (Hi & _).
  unfold a_slot at 1. cbn [snd a_slots a_reincarnate put_a_slots]. apply slot_of_vset.
  by rewrite (slots_len C a Hinv).
Qed.

Lemma reincarnate_wp e : engine_wf C e ->
  wp (reincarnate_next_retiring C) e (fun e' r => engine_wf C e' /\
    if faulted e then r = Err EngineError.Faulted /\ e' = e
    else match a_reclaim (abs C (scheduler e)) with
    | [] => r = Err (EngineError.Scheduler DetachmentMismatch) /\ same C e e'
    | i :: _ =>
        let h := handle_at (a_slots (abs C (scheduler e))) i in
        if generation h =? u32_max
        then r = Err (EngineError.Scheduler GenerationExhausted) /\ same C e e'
        else match release_decision (kv e) (request_key h) with
        | Some x => r = Err (EngineError.Kv x) /\ exhaustion i x /\ faulted e' = true /\
            abs C (scheduler e') = (a_take (abs C (scheduler e))).2 /\ kv e' = kv e
        | None => r = Ok (mkRequestId i (generation h + 1)) /\ faulted e' = false /\
            abs C (scheduler e') = (a_reincarnate (a_take (abs C (scheduler e))).2
              (mkDetached h (quiescence_origin (a_slot (abs C (scheduler e)) i)))).2 /\
            evolves (kv e) (kv e') i /\ view (kv e') i = mkView (generation h + 1) true 0 0
        end
    end).
Proof.
  intros [Hok Hemp]. unfold reincarnate_next_retiring. apply wp_healthy. destruct (faulted e) eqn:Ef; [done|].
  pose proof (engine_ok_inv C e Hok) as Hinv. set (a := abs C (scheduler e)) in *.
  do 2 eng_step. eapply wp_mono; [apply preflight_next_reincarnation_wp; apply Hok|].
  intros s' x [-> ->]. cbv beta. rewrite put_scheduler_id. fold a.
  destruct (a_reclaim a) as [|i rest] eqn:Er; [by eng_step|].
  change (handle_at (slots (scheduler e)) i) with (handle_at (a_slots a) i).
  cbn [handle_at generation]. change (slot_of (a_slots a) i) with (a_slot a i).
  destruct (N.eqb_spec (sl_generation (a_slot a i)) u32_max) as [|Hne]; [by eng_step|].
  eng_step. eapply wp_mono; [by apply take_wp|]. intros e1 x (Hok1 & -> & Habs1 & Hk1 & Hp1 & Hf1).
  cbv beta. fold a in Habs1 |- *.
  set (h := handle_at (a_slots a) i). set (p := mkPermit h (quiescence_origin (a_slot a i))).
  assert (Et : a_take a = (Some p, (a_take a).2)) by (unfold a_take; by rewrite Er).
  destruct (take_detachable a p _ Hinv Et) as (Hi & Hst & Hgen & Hdet). cbn [p permit_request h handle_at slot] in *.
  set (a1 := (a_take a).2) in *. rewrite Et. cbn [fst].
  assert (Hkeep : keeps C a a1) by by apply take_keeps.
  assert (Hstate : a_state C (abs C (scheduler e1)) h <> None).
  { destruct (Hkeep _ Hi) as [Hg Hv]. rewrite Habs1. unfold a_state, generation_at in *. simpl.
    rewrite (proj2 (N.leb_gt _ _)) by done. rewrite Hg. unfold a_slot at 1. rewrite N.eqb_refl.
    destruct (sl_state (a_slot a1 _)) eqn:E; try done. rewrite Hst in Hv. naive_solver. }
  change h with (permit_request p) at 1.
  eng_step. eapply wp_mono; [by apply release_wp|]. intros e2 x (Hs2 & Hp2 & Hf2 & H). cbv beta.
  rewrite Hk1 in H. change (permit_request p) with h in *. cbn [h handle_at slot] in H.
  destruct (release_decision (kv e) (request_key h)) as [y|] eqn:Ed.
  - destruct H as (-> & -> & Hx). do 3 eng_step. split_and!; try done.
    split; [by apply ok_put_faulted|]. simpl. congruence.
  - destruct H as (-> & Hwf2 & _ & freed & Hrel). pose proof Hok1 as [Hsw1 _ Hag1 Hlen1].
    assert (Hinv1 : a_inv C a1) by (rewrite <- Habs1; apply Hsw1).
    specialize (Hdet Hne). destruct (reincarnate_slot a1 _ Hinv1 Hdet) as [Hr1 Hslot].
    cbn [detached_request h handle_at slot] in Hr1, Hslot.
    assert (Hg1 : sl_generation (a_slot a1 i) = sl_generation (a_slot a i)) by apply (Hkeep i Hi).
    rewrite Hg1 in Hr1, Hslot. pose proof (slot_in_pool C a Hinv i Hi) as Hi32.
    eng_step. eng_step. eapply wp_mono; [apply reincarnate_detached_wp; by rewrite Hs2, ?Habs1|].
    rewrite Hs2, Habs1. intros s3 x (Hs3 & -> & Habs3). cbv beta. rewrite Hr1. eng_step. eng_step.
    eapply wp_mono; [by apply create_request_key_wp|]. intros k4 x. cbv beta.
    change (kv (put_scheduler s3 e2)) with (kv e2).
    pose proof Hrel as [[Ev1 Ev2 Ev3 Ev4] L G Cm Rs Cn _ _ _].
    rewrite (ag_generation C a (kv e) ltac:(apply Hok) i Hi) in G.
    assert (Hcd : create_decision (kv e2) (request_key (mkRequestId i (sl_generation (a_slot a i) + 1))) = None).
    { unfold create_decision. simpl. rewrite (proj2 (N.leb_gt _ _)) by done. by rewrite L, G, N.eqb_refl. }
    rewrite Hcd. intros (-> & Hwf4 & ->). eng_step. simpl.
    assert (Hreq : forall j, req_at (with_request (kv e2) i (set_rs_live true (req_at (kv e2) i))) j =
      if decide (j = i) then set_rs_live true (req_at (kv e2) i) else req_at (kv e2) j)
      by (intros j; by apply req_at_with_request).
    split_and!; try done.
    + split; [|simpl; congruence]. split; [done|done| |simpl; congruence]. simpl. rewrite Habs3.
      apply (agree_both C a _ (kv e) _ i); [apply Hok|done|..].
      * intros j Hj. rewrite Hreq, decide_False by done. auto.
      * intros j Hj Hji. rewrite Hslot, decide_False by done. unfold a1, a_take. rewrite Er.
        unfold a_slot at 1. cbn [snd a_slots]. rewrite slot_of_vset by (by rewrite (slots_len C a Hinv)).
        by rewrite decide_False.
      * rewrite Hreq, Hslot, !decide_True by done. simpl. done.
      * rewrite Hreq, Hslot, !decide_True by done. simpl. done.
    + simpl. congruence.
    + split; [done|done|done|]. intros j Hj. rewrite Hreq, decide_False by done. auto.
    + unfold view. rewrite Hreq, decide_True by done. simpl. by rewrite G, Cm, Rs.
Qed.
End ops.
