(* ===== verification/EngineComplete.v ===== *)
(** Exact completion in the engine: the check before anything is consumed, and
    the loop that finalizes or releases every member of the completed batch. *)
From S2P Require Import Prelude Spec.
Import Spec.Completion Spec.Lifecycle.
From S2P Require Import KvPool KvInv KvPrim KvOps KvTheorems Ring Scheduler SchedSpec SchedInv SchedOps SchedLife.
From S2P Require Import Engine EngineInv EngineOps.
Local Open Scope prog_scope.

(** ** The check, as a decision on the components' states *)
Definition member_error (a : AbsSched) (k : KvPool) (r : RequestId) (n : N) : option EngineError :=
  match sl_state (a_slot a (slot r)) with
  | InFlight =>
      let q := req_at k (slot r) in
      if rs_resident_tokens q - rs_committed_tokens q <? n
      then Some (EngineError.Kv CommitExceedsResident) else None
  | Retiring =>
      if generation r =? u32_max then Some (EngineError.Scheduler GenerationExhausted) else None
  | Vacant | Ready => Some EngineError.InvariantViolation
  end.

Fixpoint members_error (a : AbsSched) (k : KvPool) (rs : list RequestId) (ns : list N) :
    option EngineError :=
  match rs, ns with
  | r :: rs', n :: ns' =>
      match member_error a k r n with
      | Some x => Some x
      | None => members_error a k rs' ns'
      end
  | _, _ => None
  end.

Definition preflight_error (C : N) (e : Engine) (completion : ExactCompletion) (accepted : list N) :
    option EngineError :=
  let a := abs C (scheduler e) in
  let rs := a_head_members a in
  if faulted e then Some EngineError.Faulted
  else if negb (vlen accepted =? vlen rs) then
    Some (EngineError.CompletionResultCount (vlen rs) (vlen accepted))
  else if vlen rs =? 0 then Some (EngineError.Scheduler NoPendingBatch)
  else if negb (value (ec_epoch completion) =? a_completed a + 1) then
    Some (EngineError.Scheduler CompletionNotExactNext)
  else members_error a (kv e) rs accepted.

(** A member of the completed batch that can be finalized or released. *)
Record member_ready (C epoch : N) (a : AbsSched) (k : KvPool) (r : RequestId) (n : N) : Prop := mkReady {
  mr_slot : slot r < C;
  mr_generation : sl_generation (a_slot a (slot r)) = generation r;
  mr_active : sl_active_epoch (a_slot a (slot r)) = epoch;
  mr_epoch : 0 < epoch <= a_completed a;
  mr_state : match sl_state (a_slot a (slot r)) with
             | InFlight => rs_committed_tokens (req_at k (slot r)) + n <= rs_resident_tokens (req_at k (slot r))
             | Retiring => generation r <> u32_max
             | _ => False
             end
}.

Section preflight.
Context (C : N) (e : Engine) (Hok : engine_ok C e).
Let a := abs C (scheduler e).

(** What the scheduler's invariant says about a member of the oldest batch. *)
Lemma head_member r : r ∈ a_head_members a ->
  slot r < C /\ sl_generation (a_slot a (slot r)) = generation r /\
  sl_active_epoch (a_slot a (slot r)) = a_completed a + 1 /\
  (sl_state (a_slot a (slot r)) = InFlight \/
   sl_state (a_slot a (slot r)) = Retiring /\ sl_in_reclaim_ring (a_slot a (slot r)) = false) /\
  a_state C a r = Some (sl_state (a_slot a (slot r))).
Proof using Hok.
  intros Hr. pose proof (engine_ok_inv C e Hok) as Hinv. fold a in Hinv.
  assert (Hb : exists b rest, a_batches a = b :: rest).
  { unfold a_head_members in Hr. destruct (a_batches a); [by apply not_elem_of_nil in Hr|eauto]. }
  destruct Hb as (b & rest & Hb).
  assert (Hm : r ∈ a_members a).
  { unfold a_head_members in Hr. rewrite Hb in Hr. apply elem_of_take in Hr as (j & Hj & _).
    by apply list_elem_of_lookup_2 in Hj. }
  destruct (ai_member C a Hinv r Hm) as (Hi & Hg & Hs).
  pose proof (head_member_active C a b rest Hinv Hb r Hr) as Ha.
  destruct (ai_slot C a Hinv (slot r) Hi) as [_ Hst].
  assert (Hst' : sl_state (a_slot a (slot r)) = InFlight \/
    sl_state (a_slot a (slot r)) = Retiring /\ sl_in_reclaim_ring (a_slot a (slot r)) = false).
  { destruct Hs as [Hs|Hs]; [by left|right]. split; [done|]. rewrite Hs in Hst. destruct Hst as [_ Hst].
    destruct (sl_in_reclaim_ring _); [|done]. specialize (Hst eq_refl). lia. }
  split_and!; try done. unfold a_state. rewrite (proj2 (N.leb_gt _ _)) by done.
  rewrite Hg, N.eqb_refl. by destruct Hs as [-> | ->].
Qed.

Lemma member_token_check r n {B} (k1 k2 : B) :
  r ∈ a_head_members a ->
  match checked_sub (rs_resident_tokens (req_at (kv e) (slot r)))
          (rs_committed_tokens (req_at (kv e) (slot r))) with
  | None => False
  | Some t => (if t <? n then k1 else k2) =
      if rs_resident_tokens (req_at (kv e) (slot r)) - rs_committed_tokens (req_at (kv e) (slot r)) <? n
      then k1 else k2
  end.
Proof using Hok.
  intros Hr. unfold checked_sub. destruct (wf_request (kv e) ltac:(apply Hok) (slot r)) as [].
  by rewrite (proj2 (N.leb_le _ _)) by done.
Qed.

Lemma preflight_member_wp completion accepted index r n :
  a_head_members a !! N.to_nat index = Some r -> vget accepted index = Some n ->
  value (ec_epoch completion) = a_completed a + 1 ->
  wp (preflight_member C completion accepted index) e (fun e' x => e' = e /\
    x = match member_error a (kv e) r n with Some y => Err y | None => Ok tt end).
Proof using Hok.
  intros Hr Hn Hep. pose proof (engine_ok_inv C e Hok) as Hinv. fold a in Hinv.
  destruct (head_member r) as (Hi & Hg & Ha & Hst & Hs); [by apply list_elem_of_lookup_2 in Hr|].
  assert (Hlive : a_state C a r <> None) by (rewrite Hs; done).
  destruct (tokens_of C a (kv e) Hinv ltac:(apply Hok) ltac:(apply Hok) r Hlive) as [Hres Hcom].
  unfold preflight_member, member_error. do 2 eng_step.
  eapply wp_mono; [apply pending_member_wp; apply Hok|]. intros s' x [-> ->].
  rewrite put_scheduler_id. fold a. rewrite Hr. eng_step. apply eng_state_wp; [done|]. fold a. rewrite Hs.
  destruct Hst as [Hst|[Hst Hrec]]; rewrite Hst.
  - do 4 eng_step. unfold resident_tokens, committed_tokens. rewrite Hres, Hcom.
    pose proof (wf_request (kv e) ltac:(apply Hok) (slot r)) as []. unfold checked_sub.
    rewrite (proj2 (N.leb_le _ _)) by done. eng_step. eapply wp_slice_at; [exact Hn|].
    by destruct (_ <? n).
  - do 2 eng_step. eapply wp_mono; [apply pending_retirement_ready_wp; apply Hok|].
    intros s' x [-> ->]. rewrite put_scheduler_id. fold a.
    rewrite bool_decide_eq_true_2 by done. rewrite (proj2 (N.ltb_lt _ _)) by done.
    rewrite Hg, N.eqb_refl, bool_decide_eq_true_2 by done. rewrite Ha, Hep, N.eqb_refl, Hrec. cbn [andb negb].
    destruct (ai_slot C a Hinv (slot r) Hi) as [(Hgen & _) _]. rewrite Hg in Hgen.
    destruct (N.ltb_spec (generation r) u32_max), (N.eqb_spec (generation r) u32_max); try lia; by eng_step.
Qed.

Lemma preflight_loop_wp completion accepted rest : forall index,
  drop (N.to_nat index) (a_head_members a) = rest ->
  vlen accepted = vlen (a_head_members a) -> vlen accepted <= usize_max ->
  value (ec_epoch completion) = a_completed a + 1 ->
  wp (preflight_loop C (length rest) completion accepted index) e (fun e' x => e' = e /\
    x = match members_error a (kv e) rest (drop (N.to_nat index) accepted) with
        | Some y => Err y | None => Ok tt end).
Proof using Hok.
  induction rest as [|r rest IH]; intros index Hrest Hlen Hmax Hep; cbn [preflight_loop length members_error].
  { by eng_step. }
  apply drop_vget in Hrest as (Hr & Hrest & Hlt & _).
  destruct (vget_lt accepted index) as [n Hn]; [lia|]. unfold vget in Hn. rewrite (drop_S _ n) by done.
  eng_step. eapply wp_mono; [by apply (preflight_member_wp completion accepted index r n)|].
  intros ? x [-> ->]. cbv beta. destruct (member_error a (kv e) r n); [done|].
  eng_step. apply wp_add_usize; [lia|]. replace (S (N.to_nat index)) with (N.to_nat (index + 1)) by lia.
  by apply IH.
Qed.

Lemma head_members_bound : vlen (a_head_members a) <= usize_max.
Proof using Hok.
  pose proof (engine_ok_inv C e Hok) as Hinv. fold a in Hinv. pose proof (members_le C a Hinv).
  pose proof (ai_cap C a Hinv) as [_ Hc].
  assert (vlen (a_head_members a) <= vlen (a_members a)).
  { unfold a_head_members. destruct (a_batches a); [unfold vlen; simpl; lia|]. unfold vlen. rewrite length_take. lia. }
  unfold MAX_REQUEST_SLOTS, usize_max, u64_max in *. lia.
Qed.

(** The preflight changes nothing and reports the first violated condition. *)
Lemma preflight_wp completion accepted :
  wp (preflight_complete_exact C completion accepted) e (fun e' x => e' = e /\
    x = match preflight_error C e completion accepted with Some y => Err y | None => Ok tt end).
Proof using Hok.
  pose proof (engine_ok_inv C e Hok) as Hinv. fold a in Hinv.
  unfold preflight_complete_exact, preflight_error. do 2 eng_step. fold a.
  destruct (faulted e); [by eng_step|]. do 2 eng_step.
  eapply wp_mono; [apply pending_batch_member_count_wp; apply Hok|]. intros s' x [-> ->].
  rewrite put_scheduler_id. fold a.
  destruct (N.eqb_spec (vlen accepted) (vlen (a_head_members a))) as [Hlen|]; [|by cbn [negb]]. cbn [negb].
  destruct (N.eqb_spec (vlen (a_head_members a)) 0) as [|Hne]; [by eng_step|].
  do 2 eng_step. unfold completed_epoch, Scheduler.completed_epoch, check_exact_next. simpl.
  change (completed (scheduler e)) with (a_completed a).
  assert (Hlt : a_completed a + 1 <= u64_max).
  { pose proof (ai_submitted C a Hinv). pose proof (ai_u64 C a Hinv).
    assert (0 < vlen (a_batches a)); [|lia]. unfold a_head_members in Hne.
    destruct (a_batches a); [done|]. rewrite vlen_cons. lia. }
  unfold checked_add. rewrite (proj2 (N.leb_le _ _)) by done.
  rewrite (N.eqb_sym (value (ec_epoch completion))).
  destruct (N.eqb_spec (a_completed a + 1) (value (ec_epoch completion))) as [Hep|]; [|by eng_step].
  cbn [negb]. pose proof (preflight_loop_wp completion accepted (a_head_members a) 0) as H.
  rewrite !drop_0 in H. replace (N.to_nat (vlen (a_head_members a))) with (length (a_head_members a))
    by (unfold vlen; lia).
  pose proof head_members_bound. apply H; try done. lia.
Qed.
End preflight.

(** ** Completing one member *)
Definition a_complete_member (C epoch : N) (a : AbsSched) (r : RequestId) : AbsSched :=
  match sl_state (a_slot a (slot r)) with
  | InFlight => (a_finalize C a (mkFinalized r (CompletedExact epoch))).2
  | Retiring => (a_detach C a (mkDetached r (CompletedExact epoch))).2
  | Vacant | Ready => a
  end.

(** The slot and the tokens of a member after its batch completed: accepted
    tokens are committed and rejected ones dropped; a retired request is gone. *)
Definition completed_slot (epoch : N) (sl : Slot) : Slot :=
  match sl_state sl with
  | InFlight => finalized_slot epoch sl
  | Retiring => mkSlot (sl_generation sl + 1) Vacant NO_EPOCH NO_EPOCH true false
  | Vacant | Ready => sl
  end.

Definition completed_view (st : RequestState) (n : N) (v : RequestView) : RequestView :=
  match st with
  | InFlight => mkView (rv_generation v) (rv_live v) (rv_committed v + n) (rv_committed v + n)
  | Retiring => mkView (rv_generation v + 1) false 0 0
  | Vacant | Ready => v
  end.

Section member.
Context (C : N).

Lemma ready_finalize epoch a k r n : member_ready C epoch a k r n ->
  sl_state (a_slot a (slot r)) = InFlight ->
  a_finalize_error C a (mkFinalized r (CompletedExact epoch)) = None.
Proof.
  intros [Hi Hg Ha He _] Hs. unfold a_finalize_error. cbn [finalized_request finalized_origin].
  rewrite (proj2 (N.leb_gt _ _)) by done. rewrite Hg, N.eqb_refl, Hs, Ha, N.eqb_refl.
  rewrite bool_decide_eq_true_2 by done. unfold NO_EPOCH.
  rewrite (proj2 (N.eqb_neq epoch 0)) by lia. rewrite (proj2 (N.leb_le _ _)) by lia. done.
Qed.

Lemma ready_detach epoch a k r n : a_inv C a -> member_ready C epoch a k r n ->
  sl_state (a_slot a (slot r)) = Retiring ->
  a_detach_error C a (mkDetached r (CompletedExact epoch)) = None.
Proof.
  intros Hinv [Hi Hg Ha He Hm] Hs. rewrite Hs in Hm. unfold a_detach_error, origin_matches.
  cbn [detached_request detached_origin]. rewrite (proj2 (N.leb_gt _ _)) by done.
  destruct (ai_slot C a Hinv (slot r) Hi) as [_ Hst]. rewrite Hs in Hst. destruct Hst as [_ Hst].
  rewrite Hg, N.eqb_refl, Hs, Ha, N.eqb_refl. rewrite bool_decide_eq_true_2 by done. unfold NO_EPOCH.
  rewrite (proj2 (N.eqb_neq epoch 0)) by lia. rewrite (proj2 (N.leb_le _ _)) by lia.
  rewrite (proj2 (N.eqb_neq (generation r) u32_max)) by done.
  destruct (sl_in_reclaim_ring _); [|done]. specialize (Hst eq_refl). lia.
Qed.

Lemma a_complete_member_slot epoch a k r n : a_inv C a -> member_ready C epoch a k r n ->
  a_completed (a_complete_member C epoch a r) = a_completed a /\
  forall j, a_slot (a_complete_member C epoch a r) j =
    if decide (j = slot r) then completed_slot epoch (a_slot a j) else a_slot a j.
Proof.
  intros Hinv Hr. unfold a_complete_member, completed_slot.
  destruct (sl_state (a_slot a (slot r))) eqn:Es; try (destruct Hr as [_ _ _ _ Hm]; by rewrite Es in Hm).
  - pose proof (ready_finalize epoch a k r n Hr Es) as Hf. unfold a_finalize. rewrite Hf.
    cbn [finalized_request finalized_origin snd put_a_slots a_completed]. split; [done|]. intros j.
    unfold a_slot at 1. cbn [put_a_slots a_slots]. destruct Hr as [Hi _ _ _ _].
    rewrite slot_of_vset by (by rewrite (slots_len C a Hinv)). case_decide as E; [|done]. subst j. by rewrite Es.
  - pose proof (ready_detach epoch a k r n Hinv Hr Es) as Hd. split.
    { unfold a_detach. by rewrite Hd. }
    intros j. rewrite detach_slot by done. cbn [detached_request]. case_decide as E; [|done]. subst j. by rewrite Es.
Qed.

Lemma clear_permits_loop_wp fuel : forall index e,
  N.of_nat fuel = C - index -> index <= C -> C <= usize_max -> vlen (permits e) = C ->
  (forall j, j < index -> vget (permits e) j = Some None) ->
  wp (clear_permits_loop C fuel index) e (fun e' _ => e' = put_permits (vfill C None) e).
Proof.
  induction fuel as [|fuel IH]; intros index e Hf Hi Hmax Hlen Hpre; cbn [clear_permits_loop].
  - eng_step. assert (index = C) as -> by lia.
    assert (Hp : permits e = vfill C None); [|by rewrite <- Hp, put_permits_id].
    apply list_eq. intros j. destruct (decide (N.of_nat j < C)) as [Hj|Hj].
    + specialize (Hpre (N.of_nat j) Hj). unfold vget in Hpre. rewrite Nat2N.id in Hpre. rewrite Hpre.
      symmetry. apply lookup_replicate_2. lia.
    + unfold vlen in Hlen. rewrite !lookup_ge_None_2; [done| |lia].
      unfold vfill. rewrite length_replicate. lia.
  - destruct (N.ltb_spec index C); [|lia]. eng_step. apply (wp_update_at _ _ None); [lia|].
    eng_step. apply wp_add_usize; [lia|].
    eapply wp_mono; [apply IH; simpl; rewrite ?vlen_vset; try done; try lia|].
    + intros j Hj. destruct (decide (j = index)) as [->|Hne].
      * apply vget_vset_eq. lia.
      * rewrite vget_vset_ne by done. apply Hpre. lia.
    + intros e' _ ->. by destruct e.
Qed.

Lemma fault_and_clear_wp {A} (e : Engine) error (Q : Engine -> result A EngineCompletionFailure -> Prop) :
  vlen (permits e) = C -> C <= usize_max ->
  Q (put_permits (vfill C None) (put_faulted true e)) (Err (consumed error)) ->
  wp (fault_and_clear C error) e Q.
Proof.
  intros Hl Hmax HQ. unfold fault_and_clear. do 2 eng_step. eng_step. unfold clear_permits.
  eapply wp_mono; [apply clear_permits_loop_wp; try done; try lia|].
  intros e' x ->. by eng_step.
Qed.

(** Every failure past this point consumed the completion, latched the fault and
    left the buffer empty; the only reason is an exhausted page generation. *)
Definition exhausted_failure (e' : Engine) (f : EngineCompletionFailure) : Prop :=
  engine_wf C e' /\ faulted e' = true /\
  exists page, f = consumed (EngineError.Kv (KvPool.GenerationExhausted page)).

Lemma complete_member_wp epoch e accepted index r n :
  engine_ok C e -> C <= usize_max ->
  vget (permits e) index = Some (Some (mkPermit r (CompletedExact epoch))) ->
  vget accepted index = Some n ->
  member_ready C epoch (abs C (scheduler e)) (kv e) r n ->
  wp (complete_member C accepted index) e (fun e' x =>
    match x with
    | Ok _ =>
        engine_ok C e' /\ permits e' = vset (permits e) index None /\ faulted e' = faulted e /\
        abs C (scheduler e') = a_complete_member C epoch (abs C (scheduler e)) r /\
        (forall j, j <> slot r -> req_at (kv e') j = req_at (kv e) j) /\
        view (kv e') (slot r) =
          completed_view (sl_state (a_slot (abs C (scheduler e)) (slot r))) n (view (kv e) (slot r))
    | Err f => exhausted_failure e' f
    end).
Proof.
  intros Hok Hmax Hp Hn Hr. pose proof (engine_ok_inv C e Hok) as Hinv. set (a := abs C (scheduler e)) in *.
  pose proof Hr as [Hi Hg Hact He Hm]. pose proof (vget_Some_lt _ _ _ Hp) as Hlt.
  assert (Hlive : a_state C a r = Some (sl_state (a_slot a (slot r)))).
  { unfold a_state. rewrite (proj2 (N.leb_gt _ _)) by done. rewrite Hg, N.eqb_refl.
    destruct (sl_state _); done. }
  assert (Hld : live_decision (kv e) (request_key r) = None).
  { apply (live_decision_state C a (kv e) Hinv); [apply Hok|]. rewrite Hlive.
    by destruct (sl_state _). }
  unfold complete_member, take_permit. do 2 eng_step. apply (wp_read_at _ None); [done|].
  rewrite (vnth_get _ _ _ _ Hp). eng_step. apply (wp_update_at _ _ None); [done|]. eng_step.
  set (e1 := put_permits (vset (permits e) index None) e).
  assert (Hok1 : engine_ok C e1).
  { destruct Hok. split; try done. simpl. by rewrite vlen_vset. }
  pose proof (eo_permits C e1 Hok1) as Hlen1.
  eng_step. apply eng_state_wp; [done|]. change (abs C (scheduler e1)) with a.
  cbn [permit_request]. rewrite Hlive. unfold a_complete_member.
  destruct (sl_state (a_slot a (slot r))) eqn:Es; try done.
  - eng_step. eapply wp_slice_at; [exact Hn|]. do 2 eng_step.
    eapply wp_mono; [apply finalize_tentative_wp; apply Hok1|]. intros k' x. cbv beta.
    rewrite permit_same. cbn [andb permit_origin]. change (kv e1) with (kv e).
    destruct (finalize_decision (kv e) (request_key r) n) as [y|] eqn:Ed.
    + intros [-> ->]. destruct (finalize_exhaustion (kv e) r n y Hld Hm Ed) as [page ->].
      apply fault_and_clear_wp; [done|done|]. split_and!; [|done|by eexists].
      split; [|done]. destruct Hok. split; try done. simpl. apply vlen_vfill.
    + intros (-> & Hk & _ & _ & Htr). do 2 eng_step.
      pose proof (ready_finalize epoch a (kv e) r n Hr Es) as Hf.
      eapply wp_mono; [apply accept_finalized_wp; apply Hok|].
      change (abs C (scheduler (put_kv k' e1))) with a. change (abs C (scheduler e)) with a.
      intros s' x (Hs' & -> & Habs). unfold a_finalize at 1. rewrite Hf. cbn [fst]. eng_step.
      pose proof Htr as [Hev L G Cm Rs _ _ _ _ _]. pose proof Hev as [_ _ _ Ho].
      split_and!; try done.
      * assert (Hok2 : engine_ok C (put_kv k' e1)) by by apply (ok_put_kv C e1 k' (slot r)).
        apply ok_put_scheduler; [done..|]. rewrite Habs. by apply finalize_keeps.
      * unfold view. simpl. by rewrite L, G, Cm, Rs.
  - do 2 eng_step. eapply wp_mono; [apply release_request_wp; apply Hok1|]. intros k' x. cbv beta.
    rewrite permit_same. cbn [andb permit_origin]. change (kv e1) with (kv e).
    destruct (release_decision (kv e) (request_key r)) as [y|] eqn:Ed.
    + intros [-> ->]. 
      assert (Hy : exists page, y = KvPool.GenerationExhausted page).
      { unfold release_decision in Ed. rewrite Hld in Ed. simpl in Ed.
        pose proof (ag_generation C a (kv e) (eo_agree C e Hok) _ Hi) as Hge. rewrite Hge, Hg in Ed.
        rewrite (proj2 (N.eqb_neq (generation r) u32_max)) in Ed by done.
        destruct (first_exhausted _ _ _ _ _); [|done]. injection Ed as <-. eauto. }
      destruct Hy as [page ->].
      apply fault_and_clear_wp; [done|done|]. split_and!; [|done|by eexists].
      split; [|done]. destruct Hok. split; try done. simpl. apply vlen_vfill.
    + intros (-> & Hk & Hrel). do 2 eng_step.
      pose proof (ready_detach epoch a (kv e) r n Hinv Hr Es) as Hd.
      eapply wp_mono; [apply reclaim_detached_wp; apply Hok|].
      change (abs C (scheduler (put_kv k' e1))) with a. change (abs C (scheduler e)) with a.
      intros s' x (Hs' & -> & Habs). unfold a_detach at 1. rewrite Hd. cbn [fst]. eng_step.
      pose proof Hrel as [[_ _ _ Ho] L G Cm Rs _ _ _ _].
      split_and!; try done.
      * split; [done|done| |done]. simpl. rewrite Habs.
        eapply (agree_released C a _ (kv e) _ (slot r)); [done|apply Hok|done|done|].
        exact (detach_slot C a _ Hinv Hd).
      * unfold view. simpl. by rewrite L, G, Cm, Rs.
Qed.
End member.

(** ** Completing the batch *)

(** The scheduler and the token counters after the members [l], each with its
    accepted tokens, completed in [epoch]. *)
Fixpoint a_complete_members (C epoch : N) (a : AbsSched) (l : list (RequestId * N)) : AbsSched :=
  match l with
  | [] => a
  | (r, _) :: l' => a_complete_members C epoch (a_complete_member C epoch a r) l'
  end.

Fixpoint views_completed (C epoch : N) (a : AbsSched) (l : list (RequestId * N))
    (v : N -> RequestView) : N -> RequestView :=
  match l with
  | [] => v
  | (r, n) :: l' =>
      views_completed C epoch (a_complete_member C epoch a r) l'
        (at_slot (slot r) (completed_view (sl_state (a_slot a (slot r))) n) v)
  end.

Lemma views_completed_ext C epoch l : forall a v w, (forall i, v i = w i) ->
  forall i, views_completed C epoch a l v i = views_completed C epoch a l w i.
Proof.
  induction l as [|[r n] l IH]; intros a v w H i; simpl; [done|]. apply IH. intros j.
  unfold at_slot. by rewrite !H.
Qed.

Section batch.
Context (C epoch : N) (accepted : list N).

(** What is left in the buffer: the permits of the members still to complete. *)
Definition buffer_of (k : N) (l : list (RequestId * N)) (room : N) : list (option KvQuiescencePermit) :=
  vfill k None ++ completion_permits epoch l.*1 ++ vfill room None.

Lemma buffer_head k r n l room :
  vget (buffer_of k ((r, n) :: l) room) k = Some (Some (mkPermit r (CompletedExact epoch))) /\
  vset (buffer_of k ((r, n) :: l) room) k None = buffer_of (k + 1) l room.
Proof.
  unfold buffer_of, vget, vset, vfill. simpl. split.
  - rewrite lookup_app_r by (rewrite length_replicate; lia). by rewrite length_replicate, Nat.sub_diag.
  - rewrite insert_app_r_alt by (rewrite length_replicate; lia). rewrite length_replicate, Nat.sub_diag. simpl.
    replace (N.to_nat (k + 1)) with (S (N.to_nat k)) by lia. rewrite replicate_S_end, <- app_assoc. done.
Qed.

Lemma complete_loop_batch_wp l : forall e k room,
  engine_ok C e -> C <= usize_max -> k + vlen l <= usize_max -> faulted e = false ->
  permits e = buffer_of k l room -> drop (N.to_nat k) accepted = l.*2 ->
  NoDup (slot <$> l.*1) ->
  Forall (fun p => member_ready C epoch (abs C (scheduler e)) (kv e) p.1 p.2) l ->
  wp (complete_loop C (length l) accepted k) e (fun e' x =>
    match x with
    | Ok _ =>
        engine_ok C e' /\ permits e' = vfill (k + vlen l + room) None /\ faulted e' = false /\
        abs C (scheduler e') = a_complete_members C epoch (abs C (scheduler e)) l /\
        forall i, view (kv e') i = views_completed C epoch (abs C (scheduler e)) l (view (kv e)) i
    | Err f => exhausted_failure C e' f
    end).
Proof.
  induction l as [|[r n] l IH]; intros e k room Hok Hmax Hk Hf Hp Hacc Hnd Hready; cbn [complete_loop length].
  { eng_step. split_and!; try done. rewrite Hp. unfold buffer_of, vlen, vfill. simpl.
    rewrite <- replicate_add. f_equal. lia. }
  apply Forall_cons in Hready as [Hr Hready]. cbn [fst snd] in Hr.
  rewrite vlen_cons in Hk. destruct (buffer_head k r n l room) as [Hg Hs].
  change (NoDup (slot r :: (slot <$> l.*1))) in Hnd. change (drop (N.to_nat k) accepted = n :: l.*2) in Hacc.
  apply NoDup_cons in Hnd as [Hni Hnd]. destruct (drop_vget accepted k n _ Hacc) as (Hn & Hacc' & _).
  eng_step. eapply wp_mono; [eapply (complete_member_wp C epoch e accepted k r n); try done; by rewrite Hp|].
  intros e1 [[]|f]; [|done]. cbv beta. intros (Hok1 & Hp1 & Hf1 & Ha1 & Hreq & Hview).
  eng_step. apply wp_add_usize; [lia|].
  pose proof (engine_ok_inv C e Hok) as Hinv.
  destruct (a_complete_member_slot C epoch _ (kv e) r n Hinv Hr) as [Hcomp Hslot].
  eapply wp_mono; [apply (IH e1 (k + 1) room); try done; try lia; try congruence|].
  - rewrite Forall_forall in Hready |- *. intros [r' n'] Hin. specialize (Hready _ Hin). cbn [fst snd] in *.
    assert (Hne : slot r' <> slot r).
    { intros E. apply Hni. rewrite <- E. apply list_elem_of_fmap. exists r'. split; [done|].
      apply list_elem_of_fmap. by exists (r', n'). }
    destruct Hready as [R1 R2 R3 R4 R5].
    assert (Hsl : a_slot (abs C (scheduler e1)) (slot r') = a_slot (abs C (scheduler e)) (slot r')).
    { rewrite Ha1, Hslot. by rewrite decide_False. }
    split; rewrite ?Hsl; try done.
    + by rewrite Ha1, Hcomp.
    + by rewrite Hreq.
  - intros e2 [[]|f]; [|done]. intros (Hok2 & Hp2 & Hf2 & Ha2 & Hv2). split_and!; try done.
    + rewrite Hp2, vlen_cons. f_equal. lia.
    + simpl. by rewrite Ha2, Ha1.
    + intros i. rewrite Hv2. simpl. rewrite Ha1. apply views_completed_ext. intros j. unfold at_slot.
      case_decide as E; [by subst j|]. unfold view. by rewrite Hreq.
Qed.
End batch.

Section complete.
Context (C : N) (e : Engine) (Hwf : engine_wf C e).
Let a := abs C (scheduler e).

Lemma recheck_member_wp completion accepted index r n :
  a_head_members a !! N.to_nat index = Some r -> vget accepted index = Some n ->
  member_error a (kv e) r n = None ->
  wp (recheck_member C completion accepted index) e (fun e' x => e' = e /\ x = Ok tt).
Proof using Hwf.
  intros Hr Hn Herr. destruct Hwf as [Hok Hemp]. pose proof (engine_ok_inv C e Hok) as Hinv. fold a in Hinv.
  destruct (head_member C e Hok r) as (Hi & Hg & Ha & Hst & Hs); [by apply list_elem_of_lookup_2 in Hr|].
  fold a in Hi, Hg, Ha, Hst, Hs.
  assert (Hlive : a_state C a r <> None) by (rewrite Hs; done).
  destruct (tokens_of C a (kv e) Hinv ltac:(apply Hok) ltac:(apply Hok) r Hlive) as [Hres Hcom].
  unfold recheck_member, member_error in *. do 2 eng_step.
  eapply wp_mono; [apply pending_member_wp; apply Hok|]. intros s' x [-> ->].
  rewrite put_scheduler_id. fold a. rewrite Hr. eng_step. apply eng_state_wp; [done|]. fold a. rewrite Hs.
  destruct Hst as [Hst|[Hst Hrec]]; rewrite Hst in Herr |- *; [|by eng_step].
  do 2 eng_step. unfold resident_tokens, committed_tokens. rewrite Hres. do 2 eng_step. rewrite Hcom.
  pose proof (wf_request (kv e) ltac:(apply Hok) (slot r)) as []. unfold checked_sub.
  rewrite (proj2 (N.leb_le _ _)) by done. eng_step. eapply wp_slice_at; [exact Hn|].
  by destruct (_ <? n).
Qed.

Lemma recheck_loop_wp completion accepted rest : forall index,
  drop (N.to_nat index) (a_head_members a) = rest ->
  vlen accepted = vlen (a_head_members a) -> vlen accepted <= usize_max ->
  members_error a (kv e) rest (drop (N.to_nat index) accepted) = None ->
  wp (recheck_loop C (length rest) completion accepted index) e (fun e' x => e' = e /\ x = Ok tt).
Proof using Hwf.
  induction rest as [|r rest IH]; intros index Hrest Hlen Hmax Herr; cbn [recheck_loop length members_error] in *.
  { by eng_step. }
  apply drop_vget in Hrest as (Hr & Hrest & Hlt & _).
  destruct (vget_lt accepted index) as [n Hn]; [lia|]. unfold vget in Hn. rewrite (drop_S _ n) in Herr by done.
  destruct (member_error a (kv e) r n) eqn:E; [done|].
  eng_step. eapply wp_mono; [by apply (recheck_member_wp completion accepted index r n)|].
  intros ? x [-> ->]. cbv beta.
  eng_step. apply wp_add_usize; [lia|]. apply IH; try done.
  by replace (N.to_nat (index + 1)) with (S (N.to_nat index)) by lia.
Qed.

(** Members that pass the check are ready once their batch is completed. *)
Lemma members_ready rs : forall accepted,
  (forall r, r ∈ rs -> r ∈ a_head_members a) -> length rs = length accepted ->
  members_error a (kv e) rs accepted = None ->
  Forall (fun p => member_ready C (a_completed a + 1) (a_completed_state a) (kv e) p.1 p.2) (zip rs accepted).
Proof using Hwf.
  destruct Hwf as [Hok Hemp]. induction rs as [|r rs IH]; intros [|n accepted] Hrs Hlen Herr; simpl; try done.
  cbn [members_error] in Herr. destruct (member_error a (kv e) r n) eqn:E; [done|].
  constructor.
  2: { apply IH; [|simpl in Hlen; lia|done]. intros x Hx. apply Hrs. set_solver. }
  cbn [fst snd]. destruct (head_member C e Hok r) as (Hi & Hg & Ha & Hst & _); [apply Hrs; set_solver|].
  fold a in Hi, Hg, Ha, Hst. split; try done; [simpl; lia|].
  change (a_slot (a_completed_state a) (slot r)) with (a_slot a (slot r)). unfold member_error in E.
  destruct (wf_request (kv e) ltac:(apply Hok) (slot r)) as [].
  destruct Hst as [Hst|[Hst _]]; rewrite Hst in E |- *.
  - destruct (N.ltb_spec (rs_resident_tokens (req_at (kv e) (slot r)) -
      rs_committed_tokens (req_at (kv e) (slot r))) n); [done|lia].
  - by destruct (N.eqb_spec (generation r) u32_max).
Qed.

Lemma empty_permits n : existsb occupied (take n (vfill C None)) = false.
Proof.
  apply not_true_iff_false. intros (p & Hp & Ho)%existsb_exists. apply list_elem_of_In in Hp.
  apply elem_of_take in Hp as (j & Hj & _). unfold vfill in Hj. by apply lookup_replicate in Hj as [-> _].
Qed.

Lemma eng_complete_wp completion accepted :
  wp (complete_exact C completion accepted) e (fun e' x => engine_wf C e' /\
    match preflight_error C e completion accepted with
    | Some y => x = Err (returned y completion) /\ e' = e
    | None =>
        let rs := a_head_members a in
        let epoch := a_completed a + 1 in
        match x with
        | Ok n => n = vlen rs /\ faulted e' = false /\
            abs C (scheduler e') = a_complete_members C epoch (a_completed_state a) (zip rs accepted) /\
            forall i, view (kv e') i =
              views_completed C epoch (a_completed_state a) (zip rs accepted) (view (kv e)) i
        | Err f => faulted e' = true /\
            exists page, f = consumed (EngineError.Kv (KvPool.GenerationExhausted page))
        end
    end).
Proof using Hwf.
  pose proof Hwf as [Hok Hemp]. pose proof (engine_ok_inv C e Hok) as Hinv. fold a in Hinv.
  unfold complete_exact. eng_step. eapply wp_mono; [by apply preflight_wp|].
  intros ? x [-> ->]. cbv beta. destruct (preflight_error C e completion accepted) as [y|] eqn:Epre.
  { by eng_step. }
  unfold preflight_error in Epre. fold a in Epre. do 2 eng_step. destruct (faulted e) eqn:Ef; [done|].
  destruct (N.eqb_spec (vlen accepted) (vlen (a_head_members a))) as [Hlen|]; [|done].
  destruct (N.eqb_spec (vlen (a_head_members a)) 0) as [|Hne]; [done|].
  destruct (N.eqb_spec (value (ec_epoch completion)) (a_completed a + 1)) as [Hep|]; [|done].
  cbn [negb] in Epre. set (rs := a_head_members a) in *.
  pose proof (head_members_bound C e Hok) as Hb. fold a rs in Hb.
  do 2 eng_step. eapply wp_mono; [apply pending_batch_member_count_wp; apply Hok|]. intros s' x [-> ->].
  rewrite put_scheduler_id. fold a rs. rewrite Hlen, N.eqb_refl. cbn [negb].
  replace (N.to_nat (vlen rs)) with (length rs) by (unfold vlen; lia).
  eng_step. eapply wp_mono; [apply (recheck_loop_wp completion accepted rs 0); rewrite ?drop_0; try done; lia|].
  intros ? x [-> ->]. cbv beta. do 4 eng_step.
  eapply wp_mono; [apply complete_exact_wp; apply Hok|]. intros s' x (Hs' & -> & Habs). cbv beta.
  assert (HbC : exists b rest, a_batches a = b :: rest).
  { unfold rs, a_head_members in Hne. destruct (a_batches a); [done|eauto]. }
  destruct HbC as (b & rest & Hbat).
  assert (Hcount : br_member_count b = vlen rs).
  { unfold vlen, rs. rewrite (a_head_members_length C a b rest Hinv Hbat). lia. }
  assert (HleC : vlen rs <= C).
  { pose proof (members_le C a Hinv). assert (vlen rs <= vlen (a_members a)); [|lia].
    unfold rs, a_head_members. rewrite Hbat. unfold vlen. rewrite length_take. lia. }
  assert (Hnone : a_complete_error a (value (ec_epoch completion)) (permits e) = None).
  { unfold a_complete_error. rewrite Hbat, Hep, N.eqb_refl, Hemp, vlen_vfill, Hcount. cbn [negb].
    rewrite (proj2 (N.ltb_ge _ _)) by done.
    change (fun p => match p with Some _ => true | None => false end) with occupied.
    by rewrite empty_permits. }
  unfold completion_result in *. fold a in Habs |- *. rewrite Hnone in Habs |- *. cbn [fst snd] in *.
  fold rs in Habs |- *. do 2 eng_step.
  set (e1 := put_permits _ _).
  assert (Hzip : length (zip rs accepted) = length rs).
  { rewrite length_zip_with. unfold vlen in Hlen. lia. }
  assert (Hz1 : (zip rs accepted).*1 = rs) by (apply fst_zip; unfold vlen in Hlen; lia).
  assert (Hz2 : (zip rs accepted).*2 = accepted) by (apply snd_zip; unfold vlen in Hlen; lia).
  assert (Hkeep : keeps C a (a_completed_state a)) by done.
  assert (Hok1 : engine_ok C e1).
  { assert (Hok0 : engine_ok C (put_scheduler s' e)).
    { apply ok_put_scheduler; [done|done|]. by rewrite Habs. }
    destruct Hok0. split; try done. simpl. by rewrite vlen_write_list, Hemp, vlen_vfill. }
  assert (HC32 : C <= usize_max).
  { destruct (ai_cap C a Hinv). unfold MAX_REQUEST_SLOTS, usize_max, u64_max in *. lia. }
  assert (Hv : vlen (zip rs accepted) = vlen rs) by (unfold vlen; by rewrite Hzip).
  replace (N.to_nat (vlen rs)) with (length (zip rs accepted)) by (rewrite Hzip; unfold vlen; lia).
  eng_step. eapply wp_mono; [apply (complete_loop_batch_wp C (a_completed a + 1) accepted (zip rs accepted) e1 0 (C - vlen rs));
    try done; try lia|].
  - simpl. rewrite Hemp. change (completed (scheduler e)) with (a_completed a).
    assert (Hl : vlen (completion_permits (a_completed a + 1) rs) = vlen rs)
      by (unfold completion_permits, vlen; by rewrite length_fmap).
    rewrite write_list_app by (rewrite vlen_vfill; lia). rewrite N.add_0_l, Hl. unfold buffer_of. rewrite Hz1.
    change (take (N.to_nat 0) (vfill C None)) with (@nil (option KvQuiescencePermit)).
    change (vfill 0 None) with (@nil (option KvQuiescencePermit)). cbn [app]. f_equal.
    unfold vfill. rewrite drop_replicate. f_equal. lia.
  - rewrite Hz1. pose proof (ai_members_nodup C a Hinv) as Hnd. unfold rs, a_head_members. rewrite Hbat.
    rewrite fmap_take. eapply sublist_NoDup; [exact Hnd|apply sublist_take].
  - simpl. rewrite Habs. apply members_ready; [done|unfold vlen in Hlen; lia|done].
  - intros e2 [[]|f]; cbv beta.
    + intros (Hok2 & Hp2 & Hf2 & Ha2 & Hv2). eng_step. split.
      * split; [done|]. rewrite Hp2. f_equal. lia.
      * split_and!; try done.
        -- rewrite Ha2. simpl. by rewrite Habs.
        -- intros i. rewrite Hv2. simpl. by rewrite Habs.
    + intros (Hwf2 & Hf2 & page & ->). split; [done|]. split; [done|]. by exists page.
Qed.
End complete.
