(* ===== verification/EngineTheorems.v ===== *)
(** What the engine guarantees: its two components never disagree, it faults
    only when a generation counter is exhausted, a faulted engine is frozen, and
    an exact completion finalizes or releases precisely the members of its
    batch. *)
From S2P Require Import Prelude Spec.
Import Spec.Completion Spec.Lifecycle.
From S2P Require Import KvPool KvInv KvPrim KvOps KvTheorems Ring Scheduler SchedSpec SchedInv SchedOps SchedLife.
From S2P Require Import Engine EngineInv EngineOps EngineComplete.
Local Open Scope prog_scope.

(** ** Operations as data *)
Inductive EOp :=
| EAdmit
| EAppend (request : RequestId) (token_count : N)
| EShare (source target : RequestId) (token_count : N)
| ERead (request : RequestId) (offset span : N)
| ERetire (request : RequestId)
| EReincarnate
| EReclaim
| EDispatch (output : list RequestId)
| EDispatchM1
| EDispatchExact (expected : CompletionEpoch) (requests : list RequestId)
| EComplete (completion : ExactCompletion) (accepted : list N)
| EReject (completion : ExactCompletion) (accepted : list N).

Inductive EResult :=
| XRequest (r : result RequestId EngineError)
| XUnit (r : result unit EngineError)
| XReclaimed (r : result (option RequestId) EngineError)
| XBatch (r : result (option DispatchBatch) EngineError * list RequestId)
| XM1 (r : result (option M1ScheduledDispatchV1) EngineError)
| XExact (r : result M1ScheduledDispatchV1 M1ExactDispatchErrorV1.M1ExactDispatchErrorV1)
| XCompleted (r : result N EngineCompletionFailure)
| XRejected (f : EngineCompletionFailure).

Definition op_ok (op : EOp) : Prop :=
  match op with EShare _ _ n => n <= u32_max | _ => True end.

Definition run_eop (C : N) (op : EOp) : M Engine EResult :=
  match op with
  | EAdmit => let! r := admit_request C in ret (XRequest r)
  | EAppend h n => let! r := append_tentative C h n in ret (XUnit r)
  | EShare a b n => let! r := share_committed_prefix C a b n in ret (XUnit r)
  | ERead h o n => let! r := validate_read h o n in ret (XUnit r)
  | ERetire h => let! r := retire C h in ret (XUnit r)
  | EReincarnate => let! r := reincarnate_next_retiring C in ret (XRequest r)
  | EReclaim => let! r := reclaim_one C in ret (XReclaimed r)
  | EDispatch out => let! r := dispatch_ready C out in ret (XBatch r)
  | EDispatchM1 => let! r := dispatch_m1_ready C in ret (XM1 r)
  | EDispatchExact ep rs => let! r := dispatch_m1_exact_ready C ep rs in ret (XExact r)
  | EComplete c ns => let! r := complete_exact C c ns in ret (XCompleted r)
  | EReject c ns => let! f := reject_reordered_completion C c ns in ret (XRejected f)
  end.

(** The engine error a result carries. *)
Definition error_in {A} (r : result A EngineError) : option EngineError :=
  match r with Ok _ => None | Err x => Some x end.

Definition error_of (x : EResult) : option EngineError :=
  match x with
  | XRequest r => error_in r
  | XUnit r => error_in r
  | XReclaimed r => error_in r
  | XBatch r => error_in r.1
  | XM1 r => error_in r
  | XExact (Err M1ExactDispatchErrorV1.Faulted) => Some EngineError.Faulted
  | XExact _ => None
  | XCompleted (Ok _) => None
  | XCompleted (Err f) | XRejected f => Some (ef_error f)
  end.

(** The errors with which the code reports a broken internal invariant. *)
Definition internal (x : EngineError) : bool :=
  match x with
  | EngineError.InvariantViolation
  | EngineError.Scheduler InvariantViolation
  | EngineError.Kv (KvPool.InvariantViolation _) => true
  | _ => false
  end.

Definition generation_exhausted (x : EngineError) : Prop :=
  exists i y, x = EngineError.Kv y /\ exhaustion i y.

(** What a step of a healthy engine may do. *)
Definition step_ok (e e' : Engine) (x : EResult) : Prop :=
  (forall y, error_of x = Some y -> internal y = false) /\
  (faulted e' = true -> exists y, error_of x = Some y /\ generation_exhausted y).

Definition step_post (C : N) (e e' : Engine) (x : EResult) : Prop :=
  engine_wf C e' /\
  if faulted e then error_of x = Some EngineError.Faulted /\ e' = e else step_ok e e' x.

Lemma step_healthy e e' x :
  faulted e' = false -> (forall y, error_of x = Some y -> internal y = false) -> step_ok e e' x.
Proof. intros Hf Hi. split; [done|]. by rewrite Hf. Qed.

Lemma step_exhausted e e' x i y :
  error_of x = Some (EngineError.Kv y) -> exhaustion i y -> step_ok e e' x.
Proof.
  intros Hx Hy. split.
  - intros z. rewrite Hx. intros [= <-]. by destruct Hy as [->|[page ->]].
  - intros _. exists (EngineError.Kv y). split; [done|]. by exists i, y.
Qed.

Section decisions.
Context (k : KvPool).

Lemma live_decision_external key x : live_decision k key = Some x -> internal (EngineError.Kv x) = false.
Proof. unfold live_decision. repeat case_match; naive_solver. Qed.

Lemma append_external key n x : append_decision k key n = Some x -> internal (EngineError.Kv x) = false.
Proof.
  unfold append_decision. destruct (live_decision k key) eqn:E.
  - intros [= <-]. by eapply live_decision_external.
  - repeat case_match; naive_solver.
Qed.

Lemma share_external a b n x : share_decision k a b n = Some x -> internal (EngineError.Kv x) = false.
Proof.
  unfold share_decision. destruct (live_decision k a) eqn:E1; [|destruct (live_decision k b) eqn:E2].
  - intros [= <-]. by eapply live_decision_external.
  - intros [= <-]. by eapply live_decision_external.
  - repeat case_match; naive_solver.
Qed.

Lemma read_external key o n x : read_decision k key o n = Some x -> internal (EngineError.Kv x) = false.
Proof.
  unfold read_decision. destruct (live_decision k key) eqn:E.
  - intros [= <-]. by eapply live_decision_external.
  - repeat case_match; naive_solver.
Qed.
End decisions.

Lemma members_external C e rs : forall accepted, engine_ok C e ->
  (forall r, r ∈ rs -> r ∈ a_head_members (abs C (scheduler e))) ->
  forall x, members_error (abs C (scheduler e)) (kv e) rs accepted = Some x -> internal x = false.
Proof.
  induction rs as [|r rs IH]; intros [|n accepted] Hok Hrs x; cbn [members_error]; try done.
  destruct (member_error _ _ r n) as [y|] eqn:E.
  - intros [= <-]. unfold member_error in E.
    destruct (head_member C e Hok r) as (_ & _ & _ & Hst & _); [apply Hrs; set_solver|].
    destruct Hst as [Hst|[Hst _]]; rewrite Hst in E; repeat case_match; naive_solver.
  - apply IH; [done|]. intros r' Hr'. apply Hrs. set_solver.
Qed.

Lemma preflight_external C e completion accepted x : engine_ok C e ->
  preflight_error C e completion accepted = Some x -> internal x = false.
Proof.
  intros Hok. unfold preflight_error. repeat (case_match; try naive_solver).
  by apply members_external.
Qed.

Lemma a_retire_external C a r x : (a_retire C a r).1 = Err x -> internal (EngineError.Scheduler x) = false.
Proof. unfold a_retire. repeat (case_match; simpl); naive_solver. Qed.

Lemma a_dispatch_external C a n x : (a_dispatch C a n).1 = Err x -> internal (EngineError.Scheduler x) = false.
Proof. unfold a_dispatch. repeat (case_match; simpl); naive_solver. Qed.

(** One step: the joint invariant is kept, and the step is one a healthy or a
    faulted engine may take. *)
Lemma run_eop_wp C op e : engine_wf C e -> op_ok op -> wp (run_eop C op) e (step_post C e).
Proof.
  intros Hwf Hop. assert (Hok : engine_ok C e) by by destruct Hwf. unfold step_post.
  destruct op; simpl run_eop; apply wp_bind.
  - eapply wp_mono; [by apply eng_admit_wp|]. intros e' r [Hwf' H]. apply wp_ret. split; [done|].
    destruct (faulted e) eqn:Ef; [by destruct H as [-> ->]|]. destruct H as [Hf H].
    apply step_healthy; [done|]. destruct (a_admit _) as [[h|x] a'] eqn:E; destruct H as [-> _]; [done|].
    unfold a_admit in E. destruct (a_free _); [|done]. injection E as <- <-. by intros y [= <-].
  - eapply wp_mono; [by apply eng_append_wp|]. intros e' r [Hwf' H]. apply wp_ret. split; [done|].
    destruct (faulted e) eqn:Ef; [by destruct H as [-> ->]|]. destruct H as (Hf & _ & H).
    apply step_healthy; [done|]. case_decide; [|destruct H as [-> ->]; by intros y [= <-]].
    destruct (append_decision _ _ _) eqn:E; destruct H as [-> _]; [|done]. intros y [= <-].
    by eapply append_external.
  - eapply wp_mono; [by apply eng_share_wp|]. intros e' r [Hwf' H]. apply wp_ret. split; [done|].
    destruct (faulted e) eqn:Ef; [by destruct H as [-> ->]|]. destruct H as (Hf & _ & H).
    apply step_healthy; [done|]. case_decide; [|destruct H as [-> ->]; by intros y [= <-]].
    destruct (share_decision _ _ _ _) eqn:E; destruct H as [-> _]; [|done]. intros y [= <-].
    by eapply share_external.
  - eapply wp_mono; [by apply (eng_read_wp C)|]. intros e' r [-> ->]. apply wp_ret. split; [done|].
    destruct (faulted e) eqn:Ef; [done|]. apply step_healthy; [done|].
    destruct (read_decision _ _ _ _) eqn:E; [|done]. intros y [= <-]. by eapply read_external.
  - eapply wp_mono; [by apply eng_retire_wp|]. intros e' r [Hwf' H]. apply wp_ret. split; [done|].
    destruct (faulted e) eqn:Ef; [by destruct H as [-> ->]|]. destruct H as (Hf & _ & _ & ->).
    apply step_healthy; [done|]. destruct (a_retire _ _ _).1 eqn:E; [done|]. intros y [= <-].
    by eapply a_retire_external.
  - eapply wp_mono; [by apply reincarnate_wp|]. intros e' r [Hwf' H]. apply wp_ret. split; [done|].
    destruct (faulted e) eqn:Ef; [by destruct H as [-> ->]|].
    destruct (a_reclaim _) as [|i l].
    { destruct H as [-> []]. apply step_healthy; [congruence|]. by intros y [= <-]. }
    cbv zeta in H. destruct (_ =? u32_max).
    { destruct H as [-> []]. apply step_healthy; [congruence|]. by intros y [= <-]. }
    destruct (release_decision _ _).
    + destruct H as (-> & Hx & _). by eapply step_exhausted.
    + destruct H as (-> & Hf & _). by apply step_healthy.
  - eapply wp_mono; [by apply reclaim_one_wp|]. intros e' r [Hwf' H]. apply wp_ret. split; [done|].
    destruct (faulted e) eqn:Ef; [by destruct H as [-> ->]|].
    destruct (a_take _) as [[p|] a1].
    2: { destruct H as [-> []]. apply step_healthy; [congruence|done]. }
    destruct (release_decision _ _).
    + destruct H as (-> & Hx & _). by eapply step_exhausted.
    + destruct H as (-> & Hf & _). by apply step_healthy.
  - eapply wp_mono; [by apply eng_dispatch_wp|]. intros e' r [Hwf' H]. apply wp_ret. split; [done|].
    destruct (faulted e) eqn:Ef; [by destruct H as [-> ->]|]. destruct H as (Hf & _ & _ & ->).
    apply step_healthy; [done|]. unfold dispatch_result.
    destruct (a_dispatch _ _ _).1 as [[]|] eqn:E; [done..|]. intros y [= <-].
    by eapply a_dispatch_external.
  - eapply wp_mono; [by apply eng_dispatch_m1_wp|]. intros e' r [Hwf' H]. apply wp_ret. split; [done|].
    destruct (faulted e) eqn:Ef; [by destruct H as [-> ->]|]. destruct H as (Hf & _ & _ & ->).
    apply step_healthy; [done|].
    destruct (a_dispatch _ _ _).1 as [[]|] eqn:E; [done..|]. intros y [= <-].
    by eapply a_dispatch_external.
  - eapply wp_mono; [by apply eng_dispatch_exact_wp|]. intros e' r [Hwf' H]. apply wp_ret. split; [done|].
    destruct (faulted e) eqn:Ef; [by destruct H as [-> ->]|]. destruct H as (Hf & _ & _ & ->).
    apply step_healthy; [done|]. intros y Hy. unfold error_of in Hy. repeat case_match; simplify_eq. done.
  - eapply wp_mono; [by apply eng_complete_wp|]. intros e' r [Hwf' H]. apply wp_ret. split; [done|].
    destruct (preflight_error _ _ _ _) as [y|] eqn:Ep.
    + destruct H as [-> ->]. destruct (faulted e) eqn:Ef.
      { unfold preflight_error in Ep. rewrite Ef in Ep. by injection Ep as <-. }
      apply step_healthy; [done|]. intros z [= <-]. by eapply preflight_external.
    + assert (Ef : faulted e = false).
      { unfold preflight_error in Ep. by destruct (faulted e). }
      rewrite Ef. cbv zeta in H. destruct r as [n|f].
      * destruct H as (_ & Hf & _). by apply step_healthy.
      * destruct H as (_ & page & ->). eapply (step_exhausted _ _ _ 0); [done|]. right. by exists page.
  - unfold reject_reordered_completion. eng_step. eapply wp_mono; [by apply preflight_wp|].
    intros e' r [-> ->]. destruct (preflight_error _ _ _ _) as [y|] eqn:Ep.
    + apply wp_ret. apply wp_ret. split; [done|]. destruct (faulted e) eqn:Ef.
      { unfold preflight_error in Ep. rewrite Ef in Ep. by injection Ep as <-. }
      apply step_healthy; [done|]. intros z [= <-]. by eapply preflight_external.
    + apply wp_ret. apply wp_ret. split; [done|]. unfold preflight_error in Ep.
      destruct (faulted e) eqn:Ef; [done|]. apply step_healthy; [done|]. by intros z [= <-].
Qed.

(** ** Runs *)
Fixpoint run_eops (C : N) (ops : list EOp) : M Engine (list EResult) :=
  match ops with
  | [] => ret []
  | op :: rest =>
      let! r := run_eop C op in
      let! rs := run_eops C rest in
      ret (r :: rs)
  end.

Lemma run_eops_wp C ops : forall e, engine_wf C e -> Forall op_ok ops ->
  wp (run_eops C ops) e (fun e' rs => engine_wf C e' /\
    Forall (fun x => forall y, error_of x = Some y -> internal y = false) rs /\
    (faulted e' = true -> faulted e = true \/
       Exists (fun x => exists y, error_of x = Some y /\ generation_exhausted y) rs)).
Proof.
  induction ops as [|op ops IH]; intros e Hwf Hops; cbn [run_eops].
  { apply wp_ret. split_and!; [done|by constructor|by left]. }
  apply Forall_cons in Hops as [Hop Hops]. apply wp_bind.
  eapply wp_mono; [by apply run_eop_wp|]. intros e1 x [Hwf1 Hstep]. apply wp_bind.
  eapply wp_mono; [by apply IH|]. intros e2 xs (Hwf2 & Hint & Hf). apply wp_ret. split; [done|].
  destruct (faulted e) eqn:Ef.
  - destruct Hstep as [Hx ->]. split; [|by left]. constructor; [|done]. rewrite Hx. by intros y [= <-].
  - destruct Hstep as [Hx Hfault]. split; [by constructor|]. intros Hf2. right.
    destruct (Hf Hf2) as [Hf1|Hex]; [|by apply Exists_cons_tl].
    apply Exists_cons_hd. by apply Hfault.
Qed.

Lemma push_permits_wp {S} C fuel : forall index ps (t : S),
  N.of_nat fuel = C - index -> index <= C -> C <= usize_max -> ps = vfill index None ->
  wp (push_permits C fuel index ps) t (fun t' l => t' = t /\ l = vfill C None).
Proof.
  induction fuel as [|fuel IH]; intros index ps t Hf Hi Hmax ->; cbn [push_permits].
  { apply wp_ret. split; [done|]. f_equal. lia. }
  destruct (N.ltb_spec index C); [|lia]. apply wp_bind, wp_add_usize; [lia|].
  apply IH; [lia|lia|done|]. unfold vfill. replace (N.to_nat (index + 1)) with (Datatypes.S (N.to_nat index)) by lia.
  by rewrite replicate_S_end.
Qed.

Lemma engine_new_wp {S} (t : S) C n pt ctx : ctx <= u32_max ->
  wp (new C n pt ctx) t (fun t' r => t' = t /\
    if C =? 0 then r = Err (EngineError.Scheduler ZeroCapacity)
    else if MAX_REQUEST_SLOTS <? C then r = Err (EngineError.Scheduler CapacityExceedsKvSlots)
    else match new_decision n pt ctx with
    | Some x => r = Err (EngineError.Kv x)
    | None => exists e, r = Ok e /\ engine_wf C e /\ faulted e = false /\
        abs C (scheduler e) = a_new C /\ pristine (kv e) n pt ctx
    end).
Proof.
  intros Hctx. unfold new. apply wp_bind. eapply wp_mono; [apply sched_new_wp|]. intros ? r [-> H].
  destruct (C =? 0) eqn:E0; [subst r; by apply wp_ret|].
  destruct (N.ltb_spec MAX_REQUEST_SLOTS C); [subst r; by apply wp_ret|].
  destruct H as (s & -> & Hs & Habs). apply wp_bind.
  eapply wp_mono; [by apply new_bounded_wp|]. intros ? r [-> H].
  destruct (new_decision n pt ctx); [subst r; by apply wp_ret|].
  destruct H as (pool & -> & Hwf & Hpr). apply wp_bind.
  eapply wp_mono; [apply (push_permits_wp C); try done; try lia|].
  { unfold MAX_REQUEST_SLOTS, usize_max, u64_max in *. lia. }
  intros ? ps [-> ->]. apply wp_ret. split; [done|]. eexists. split; [done|].
  split; [|done]. split; [|done]. split; [done|done| |apply vlen_vfill].
  simpl. rewrite Habs. pose proof (pr_requests _ _ _ _ Hpr) as Hr.
  split; intros i Hi; rewrite Hr; try done.
  all: change (a_slot (a_new C) i) with (vnth Slot_INITIAL (vfill C Slot_INITIAL) i); by rewrite vnth_vfill.
Qed.

(** An engine driven by a script, for concrete instances. *)
Definition demo_engine (C n pt ctx : N) (ops : list EOp) : Engine :=
  match new C n pt ctx tt with
  | Done _ (Ok e) => match run_eops C ops e with Done e' _ => e' | Panic => e end
  | _ => mkEngine (mkScheduler [] [] 0 0 [] 0 0 [] 0 0 [] 0 0 0 0 0 0) (mkKvPool 0 0 0 [] [] 0 [] []) [] true
  end.

Lemma demo_engine_wf C n pt ctx ops :
  0 < C <= MAX_REQUEST_SLOTS -> ctx <= u32_max -> new_decision n pt ctx = None -> Forall op_ok ops ->
  engine_wf C (demo_engine C n pt ctx ops).
Proof.
  intros HC Hctx Hd Hops. pose proof (engine_new_wp tt C n pt ctx Hctx) as H. unfold demo_engine, wp in *.
  destruct (new C n pt ctx tt) as [[] r|]; [|done]. destruct H as [_ H].
  destruct (N.eqb_spec C 0); [lia|]. destruct (N.ltb_spec MAX_REQUEST_SLOTS C); [lia|]. rewrite Hd in H.
  destruct H as (e & -> & Hwf & _). pose proof (run_eops_wp C ops e Hwf Hops) as Hrun. unfold wp in Hrun.
  destruct (run_eops C ops e); [by destruct Hrun|done].
Qed.


(** Request 0 holds three tokens and request 1 one; both run, and request 1 is
    retired while it runs. *)
Definition demo_engine_script : list EOp :=
  [EAdmit; EAppend r0 3; EAdmit; EAppend r1 1;
   EDispatch [mkRequestId 0 0; mkRequestId 0 0]; ERetire r1].

Definition demo_running : Engine := demo_engine 2 8 2 16 demo_engine_script.

Lemma demo_running_wf : engine_wf 2 demo_running.
Proof. apply demo_engine_wf; [by vm_compute|by vm_compute|by vm_compute|by repeat constructor]. Qed.


(** A faulted engine is frozen: every operation reports the fault and leaves
    the engine exactly as it is. *)
Theorem engine_faulted_is_frozen C op e :
  engine_wf C e -> faulted e = true -> op_ok op ->
  wp (run_eop C op) e (fun e' x => error_of x = Some EngineError.Faulted /\ e' = e).
Proof.
  intros Hwf Hf Hop. eapply wp_mono; [by apply run_eop_wp|]. intros e' x [_ H]. by rewrite Hf in H.
Qed.

Lemma quarantine_wf C e : engine_wf C e -> engine_wf C (put_faulted true e).
Proof. intros [Hok He]. split; [by apply ok_put_faulted|done]. Qed.

Lemma engine_faulted_is_frozen_witness :
  quarantine_m1_queue_rearm_failure demo_running = Done (put_faulted true demo_running) tt /\
  wp (run_eop 2 EReclaim) (put_faulted true demo_running) (fun e' x =>
    error_of x = Some EngineError.Faulted /\ e' = put_faulted true demo_running).
Proof.
  split; [reflexivity|].
  exact (engine_faulted_is_frozen 2 EReclaim (put_faulted true demo_running)
    (quarantine_wf 2 demo_running demo_running_wf) eq_refl I).
Defined.

(** ** Exact completion, slot by slot *)
Lemma a_complete_member_inv C epoch a r : a_inv C a -> a_inv C (a_complete_member C epoch a r).
Proof.
  intros Hinv. unfold a_complete_member.
  destruct (sl_state _); [done|done|by apply a_finalize_inv|by apply a_detach_inv].
Qed.

Lemma a_complete_members_slot C epoch l : forall a k j,
  a_inv C a -> NoDup (slot <$> l.*1) ->
  Forall (fun p => member_ready C epoch a k p.1 p.2) l ->
  a_completed (a_complete_members C epoch a l) = a_completed a /\
  a_slot (a_complete_members C epoch a l) j =
    (if decide (j ∈ slot <$> l.*1) then completed_slot epoch (a_slot a j) else a_slot a j) /\
  (forall v, views_completed C epoch a l v j =
    match list_find (fun p => slot p.1 = j) l with
    | Some (_, (r, n)) => completed_view (sl_state (a_slot a j)) n (v j)
    | None => v j
    end).
Proof.
  induction l as [|[r n] l IH]; intros a k j Hinv Hnd Hready; [done|].
  change (NoDup (slot r :: (slot <$> l.*1))) in Hnd. apply NoDup_cons in Hnd as [Hni Hnd].
  apply Forall_cons in Hready as [Hr Hready]. cbn [fst snd] in Hr.
  destruct (a_complete_member_slot C epoch a k r n Hinv Hr) as [Hcomp Hslot].
  assert (Hready' : Forall (fun p => member_ready C epoch (a_complete_member C epoch a r) k p.1 p.2) l).
  { rewrite Forall_forall in Hready |- *. intros [r' n'] Hin. specialize (Hready _ Hin). cbn [fst snd] in *.
    assert (Hne : slot r' <> slot r).
    { intros E. apply Hni. rewrite <- E. apply list_elem_of_fmap. exists r'. split; [done|].
      apply list_elem_of_fmap. by exists (r', n'). }
    destruct Hready as [R1 R2 R3 R4 R5].
    assert (Hsl : a_slot (a_complete_member C epoch a r) (slot r') = a_slot a (slot r')).
    { rewrite Hslot. by rewrite decide_False. }
    split; rewrite ?Hsl; try done. by rewrite Hcomp. }
  destruct (IH (a_complete_member C epoch a r) k j) as (I1 & I2 & I3); [by apply a_complete_member_inv|done..|].
  cbn [a_complete_members views_completed]. split_and!.
  - by rewrite I1.
  - rewrite I2, Hslot. change (((r, n) :: l).*1) with (r :: l.*1). rewrite fmap_cons.
    destruct (decide (j = slot r)) as [->|Hne].
    + rewrite (decide_False (P := _ ∈ slot <$> l.*1)) by done. by rewrite decide_True by set_solver.
    + destruct (decide (j ∈ slot <$> l.*1)); [rewrite decide_True by set_solver|rewrite decide_False by set_solver]; done.
  - intros v. rewrite I3. cbn [list_find fst]. unfold at_slot.
    destruct (decide (slot r = j)) as [<-|Hne].
    + rewrite decide_True by done. destruct (list_find _ l) as [[i [r' n']]|] eqn:E; [|done].
      apply list_find_Some in E as (Hl & Hs & _). exfalso. apply Hni. cbn [fst] in Hs. rewrite <- Hs.
      apply list_elem_of_fmap. exists r'. split; [done|]. apply list_elem_of_fmap. exists (r', n').
      split; [done|]. by eapply list_elem_of_lookup_2.
    + rewrite (decide_False (P := j = slot r)) by congruence.
      rewrite Hslot, (decide_False (P := j = slot r)) by congruence.
      destruct (list_find _ l) as [[i [r' n']]|]; done.
Qed.

(** The member of the oldest batch that runs on slot [i], with its accepted
    tokens. *)
Definition member_on (rs : list RequestId) (accepted : list N) (i : N) : option (RequestId * N) :=
  snd <$> list_find (fun p => slot p.1 = i) (zip rs accepted).

Lemma batch_ready C e completion accepted : engine_wf C e ->
  preflight_error C e completion accepted = None ->
  let a := abs C (scheduler e) in
  let rs := a_head_members a in
  a_inv C (a_completed_state a) /\ (zip rs accepted).*1 = rs /\ NoDup (slot <$> rs) /\
  Forall (fun p => member_ready C (a_completed a + 1) (a_completed_state a) (kv e) p.1 p.2) (zip rs accepted).
Proof.
  intros Hwf Hpre a rs. assert (Hok : engine_ok C e) by by destruct Hwf.
  pose proof (engine_ok_inv C e Hok) as Hinv. fold a in Hinv. unfold preflight_error in Hpre. fold a rs in Hpre.
  destruct (faulted e); [done|].
  destruct (N.eqb_spec (vlen accepted) (vlen rs)) as [Hlen|]; [|done].
  destruct (N.eqb_spec (vlen rs) 0) as [|Hne]; [done|]. destruct (negb (value _ =? _)); [done|].
  cbn [negb] in Hpre.
  assert (Hb : exists b rest, a_batches a = b :: rest).
  { unfold rs, a_head_members in Hne. destruct (a_batches a); [done|eauto]. }
  destruct Hb as (b & rest & Hb). assert (Hlen' : length rs = length accepted) by (unfold vlen in Hlen; lia).
  split_and!.
  - by apply (a_completed_inv C a b rest).
  - apply fst_zip. lia.
  - unfold rs, a_head_members. rewrite Hb, fmap_take.
    eapply sublist_NoDup; [apply (ai_members_nodup C a Hinv)|apply sublist_take].
  - by apply members_ready.
Qed.

(** C2: an exact completion, on every branch.  Either the check finds the first
    violated condition, and the completion comes back with an unchanged engine;
    or every member of the oldest batch is completed and nothing else changes: a
    member that was still running becomes ready with exactly its accepted tokens
    committed and the rest dropped, and a member retired while it ran loses its
    tokens and its handle; or some page generation is exhausted, and the engine
    is faulted with the completion consumed. *)
Theorem engine_complete_exact_spec C e completion accepted :
  engine_wf C e ->
  wp (complete_exact C completion accepted) e (fun e' x => engine_wf C e' /\
    match preflight_error C e completion accepted with
    | Some y => x = Err (returned y completion) /\ e' = e
    | None =>
        let rs := a_head_members (abs C (scheduler e)) in
        let epoch := completed (scheduler e) + 1 in
        match x with
        | Ok n => n = vlen rs /\ faulted e' = false /\ completed (scheduler e') = epoch /\
            forall i,
              let sl := slot_of (slots (scheduler e)) i in
              match member_on rs accepted i with
              | Some (r, m) =>
                  slot_of (slots (scheduler e')) i = completed_slot epoch sl /\
                  view (kv e') i = completed_view (sl_state sl) m (view (kv e) i)
              | None => slot_of (slots (scheduler e')) i = sl /\ view (kv e') i = view (kv e) i
              end
        | Err f => faulted e' = true /\
            exists page, f = consumed (EngineError.Kv (KvPool.GenerationExhausted page))
        end
    end).
Proof.
  intros Hwf. eapply wp_mono; [by apply eng_complete_wp|]. intros e' x [Hwf' H]. split; [done|].
  destruct (preflight_error C e completion accepted) as [y|] eqn:Ep; [done|].
  destruct (batch_ready C e completion accepted Hwf Ep) as (Hinv & Hz & Hnd & Hready).
  cbv zeta in *. destruct x as [n|f]; [|done]. destruct H as (-> & Hf & Ha & Hv).
  assert (Hpt := fun j => a_complete_members_slot C _ _ _ (kv e) j Hinv ltac:(rewrite Hz; exact Hnd) Hready).
  split_and!; [done|done| |].
  - destruct (Hpt 0) as [Hc _]. rewrite <- Ha in Hc. exact Hc.
  - intros i. destruct (Hpt i) as (_ & Hs & Hview). rewrite <- Ha in Hs. specialize (Hview (view (kv e))).
    rewrite <- Hv in Hview. rewrite Hz in Hs. unfold member_on.
    change (a_slot (abs C (scheduler e')) i) with (slot_of (slots (scheduler e')) i) in Hs.
    change (a_slot (a_completed_state (abs C (scheduler e))) i) with (slot_of (slots (scheduler e)) i) in Hs, Hview.
    destruct (list_find _ _) as [[k [r m]]|] eqn:E; simpl.
    + apply list_find_Some in E as (Hl & <- & _). split; [|done]. rewrite decide_True in Hs; [done|].
      apply list_elem_of_fmap. exists r. split; [done|]. rewrite <- Hz. apply list_elem_of_fmap.
      exists (r, m). split; [done|]. by eapply list_elem_of_lookup_2.
    + apply list_find_None in E. split; [|done]. rewrite decide_False in Hs; [done|].
      intros (r & -> & Hr)%list_elem_of_fmap. rewrite <- Hz in Hr.
      apply list_elem_of_fmap in Hr as ([r' m] & -> & Hr). rewrite Forall_forall in E. by apply (E _ Hr).
Qed.

Lemma engine_complete_exact_spec_witness :
  preflight_error 2 demo_running (mkExactCompletion (mkEpoch 1)) [2; 0] = None /\
  wp (complete_exact 2 (mkExactCompletion (mkEpoch 1)) [2; 0]) demo_running (fun e' x =>
    x = Ok 2 -> view (kv e') 0 = mkView 1 true 2 2 /\ view (kv e') 1 = mkView 2 false 0 0).
Proof.
  split; [by vm_compute|].
  eapply wp_mono; [exact (engine_complete_exact_spec 2 demo_running (mkExactCompletion (mkEpoch 1)) [2; 0] demo_running_wf)|].
  intros e' x [_ H]. assert (E : preflight_error 2 demo_running (mkExactCompletion (mkEpoch 1)) [2; 0] = None)
    by by vm_compute.
  rewrite E in H. clear E. intros ->. destruct H as (_ & _ & _ & H).
  pose proof (H 0) as H0. pose proof (H 1) as H1.
  assert (E0 : member_on (a_head_members (abs 2 (scheduler demo_running))) [2; 0] 0 = Some (r0, 2)) by by vm_compute.
  assert (E1 : member_on (a_head_members (abs 2 (scheduler demo_running))) [2; 0] 1 = Some (r1, 0)) by by vm_compute.
  cbv zeta in H0, H1. rewrite E0 in H0. rewrite E1 in H1. destruct H0 as [_ ->], H1 as [_ ->].
  split; by vm_compute.
Defined.

(** The scheduler and the pool agree on every handle: a handle has a state in
    the scheduler exactly when the pool knows its resident and its committed
    tokens, so no live request lacks its KV and no KV outlives its request. *)
Theorem engine_handles_agree C e r :
  engine_wf C e ->
  wp (state C r) e (fun e' st => e' = e /\
    (st = None <-> resident_tokens e r = None) /\ (st = None <-> committed_tokens e r = None)).
Proof.
  intros [Hok _]. pose proof (engine_ok_inv C e Hok) as Hinv. apply eng_state_wp; [done|].
  pose proof (live_decision_state C _ (kv e) Hinv ltac:(apply Hok) r) as Hlive.
  split; [done|]. destruct (a_state C (abs C (scheduler e)) r) as [st|] eqn:E.
  - destruct (tokens_of C _ (kv e) Hinv ltac:(apply Hok) ltac:(apply Hok) r) as [H1 H2]; [by rewrite E|].
    unfold resident_tokens, committed_tokens. by rewrite H1, H2.
  - assert (Hd : live_decision (kv e) (request_key r) <> None) by (intros H; by apply Hlive in H).
    assert (Hno : forall s, vget (requests (kv e)) (slot r) = Some s ->
      rs_live s && (rs_generation s =? generation r) = false).
    { intros s Hs. apply not_true_iff_false. intros [Hl Hg]%andb_prop. apply N.eqb_eq in Hg.
      apply Hd, live_decision_None. simpl. pose proof (vget_Some_lt _ _ _ Hs) as Hlt.
      rewrite (sh_requests _ (wf_shape _ (eo_kv C e Hok))) in Hlt. unfold req_at. by rewrite (vnth_get _ _ _ _ Hs). }
    unfold resident_tokens, committed_tokens, KvPool.resident_tokens, KvPool.committed_tokens.
    destruct (vget (requests (kv e)) (slot r)) as [s|] eqn:Es; [|done]. by rewrite (Hno s eq_refl).
Qed.

Lemma engine_handles_agree_witness :
  resident_tokens demo_running r0 = Some 3 /\
  wp (state 2 r0) demo_running (fun e' st => e' = demo_running /\
    (st = None <-> resident_tokens demo_running r0 = None) /\
    (st = None <-> committed_tokens demo_running r0 = None)).
Proof.
  split; [by vm_compute|]. exact (engine_handles_agree 2 demo_running r0 demo_running_wf).
Defined.
