(* ===== verification/Bytes.v ===== *)
(** Byte slices and little-endian integers: slicing with Rust's bounds panics,
    [from_le_bytes] and [to_le_bytes], and the lemmas that take a byte string
    apart into its fields and put it together again.  A byte is an [N] below
    256. *)
From S2P Require Import Prelude.
Local Open Scope prog_scope.

Definition byte_ok (b : N) : Prop := b < 256.
Definition bytes_ok (l : list N) : Prop := Forall byte_ok l.

#[export] Instance byte_ok_dec b : Decision (byte_ok b).
Proof. unfold byte_ok. apply _. Defined.
#[export] Instance bytes_ok_dec l : Decision (bytes_ok l).
Proof. unfold bytes_ok. apply _. Defined.

(** [l[a..b]], which panics unless [a <= b <= l.len()]. *)
Definition subslice {A} (l : list A) (a b : N) : list A :=
  take (N.to_nat (b - a)) (drop (N.to_nat a) l).
Definition slice_range {S A} (l : list A) (a b : N) : M S (list A) :=
  if (a <=? b) && (b <=? vlen l) then ret (subslice l a b) else panic.

Fixpoint from_le_bytes (l : list N) : N :=
  match l with
  | [] => 0
  | b :: l' => b + 256 * from_le_bytes l'
  end.

Fixpoint to_le_bytes (n : nat) (v : N) : list N :=
  match n with
  | O => []
  | S n' => v mod 256 :: to_le_bytes n' (v / 256)
  end.

(** ** Little-endian integers *)
Lemma to_le_bytes_length n v : length (to_le_bytes n v) = n.
Proof. revert v. induction n as [|n IH]; intros v; simpl; auto. Qed.

Lemma to_le_bytes_ok n v : bytes_ok (to_le_bytes n v).
Proof.
  revert v. induction n as [|n IH]; intros v; simpl; constructor; [|apply IH].
  unfold byte_ok. apply N.mod_lt. lia.
Qed.

Lemma from_le_bytes_lt l : bytes_ok l -> from_le_bytes l < 256 ^ vlen l.
Proof.
  unfold vlen. induction 1 as [|b l Hb _ IH]; [simpl; lia|]. unfold byte_ok in Hb.
  cbn [length from_le_bytes]. rewrite Nat2N.inj_succ, N.pow_succ_r by lia. lia.
Qed.

Lemma to_from_le_bytes l : bytes_ok l -> to_le_bytes (length l) (from_le_bytes l) = l.
Proof.
  induction 1 as [|b l Hb _ IH]; simpl; [done|]. unfold byte_ok in Hb.
  rewrite (N.mul_comm 256), N.Div0.mod_add, N.mod_small by lia.
  rewrite N.div_add, N.div_small, N.add_0_l, IH by lia. done.
Qed.

Lemma from_to_le_bytes n v : v < 256 ^ N.of_nat n -> from_le_bytes (to_le_bytes n v) = v.
Proof.
  revert v. induction n as [|n IH]; intros v Hv; simpl; [simpl in Hv; lia|].
  rewrite IH.
  - pose proof (N.div_mod v 256). lia.
  - apply N.Div0.div_lt_upper_bound. rewrite <- N.pow_succ_r by lia.
    by rewrite <- Nat2N.inj_succ.
Qed.

(** ** Slices *)
Section slices.
Context {A : Type}.
Implicit Types (l : list A) (a b c : N).

Lemma vlen_subslice l a b : a <= b -> b <= vlen l -> vlen (subslice l a b) = b - a.
Proof. unfold vlen, subslice. intros. rewrite length_take, length_drop. lia. Qed.

Lemma length_subslice l a b :
  a <= b -> b <= vlen l -> length (subslice l a b) = N.to_nat (b - a).
Proof. unfold vlen, subslice. intros. rewrite length_take, length_drop. lia. Qed.

Lemma subslice_all l : subslice l 0 (vlen l) = l.
Proof.
  unfold subslice, vlen. rewrite N.sub_0_r, Nat2N.id. simpl. by rewrite drop_0, take_ge.
Qed.

Lemma subslice_app l a b c :
  a <= b -> b <= c -> subslice l a b ++ subslice l b c = subslice l a c.
Proof.
  unfold subslice. intros Hab Hbc.
  rewrite <- (take_drop (N.to_nat (b - a)) (take (N.to_nat (c - a)) (drop (N.to_nat a) l))).
  f_equal.
  - rewrite take_take. f_equal. lia.
  - rewrite skipn_firstn_comm, drop_drop. f_equal; [lia|]. f_equal. lia.
Qed.

Lemma subslice_get l a x : vget l a = Some x -> subslice l a (a + 1) = [x].
Proof.
  unfold vget, subslice. intros Hx.
  replace (N.to_nat (a + 1 - a)) with 1%nat by lia.
  by rewrite (drop_S _ _ _ Hx).
Qed.

Lemma subslice_mid l1 l2 l3 a b :
  a = vlen l1 -> b = vlen l1 + vlen l2 -> subslice (l1 ++ l2 ++ l3) a b = l2.
Proof.
  intros -> ->. unfold subslice, vlen.
  rewrite Nat2N.id, drop_app_length.
  replace (N.to_nat _) with (length l2) by lia. by rewrite take_app_length.
Qed.

Lemma subslice_first l2 l3 b : b = vlen l2 -> subslice (l2 ++ l3) 0 b = l2.
Proof. intros ->. by apply (subslice_mid [] l2 l3). Qed.

Lemma vget_mid l1 x l3 a : a = vlen l1 -> vget (l1 ++ x :: l3) a = Some x.
Proof. intros ->. unfold vget, vlen. rewrite Nat2N.id. by rewrite list_lookup_middle. Qed.

Lemma Forall_subslice (P : A -> Prop) l a b : Forall P l -> Forall P (subslice l a b).
Proof. intros. unfold subslice. by apply Forall_take, Forall_drop. Qed.
End slices.

Lemma wp_slice_range {S A} (l : list A) a b (s : S) (Q : S -> list A -> Prop) :
  a <= b -> b <= vlen l -> Q s (subslice l a b) -> wp (slice_range l a b) s Q.
Proof.
  intros Ha Hb HQ. unfold slice_range.
  by rewrite (proj2 (N.leb_le _ _) Ha), (proj2 (N.leb_le _ _) Hb).
Qed.

(** Decide a closed proposition by evaluation. *)
Ltac by_decide := refine (bool_decide_unpack _ _); vm_compute; exact I.
