(* ===== verification/PlanSelection.v ===== *)
(** The generated-plan selection of [ferric-spec/src/graph.rs] and the step
    authority of [step_plan_publication.rs]: the roles, modes and buckets of the
    target and draft models, which pairs of mode and bucket are admitted, and
    the immutable logical authority of one step. *)
From S2P Require Import Prelude Spec.
From Stdlib Require Strings.String.
Local Open Scope prog_scope.

Module Graph.

Inductive Qwen3ModelRole := Target8B | Draft06B.
Inductive Qwen3ExecutionMode := Prefill | Decode | Speculative.

Inductive Qwen3PlanBucket :=
| PrefillS1T128 | PrefillS8T128 | PrefillS1T512 | PrefillS1T2048
| DecodeS1C8192 | DecodeS8C8192 | DecodeS32C8192
| SpeculativeS1K4C8192 | SpeculativeS8K4C8192 | SpeculativeS1K8C8192 | SpeculativeS1K16C8192.

Record Qwen3PlanDimensions := mkDimensions {
  sequences : N; active_tokens : N; context_tokens : N
}.

#[global] Instance Qwen3ModelRole_eq_dec : EqDecision Qwen3ModelRole.
Proof. solve_decision. Defined.
#[global] Instance Qwen3ExecutionMode_eq_dec : EqDecision Qwen3ExecutionMode.
Proof. solve_decision. Defined.
#[global] Instance Qwen3PlanBucket_eq_dec : EqDecision Qwen3PlanBucket.
Proof. solve_decision. Defined.

Definition dimensions (self : Qwen3PlanBucket) (role : Qwen3ModelRole)
    (mode : Qwen3ExecutionMode) : option Qwen3PlanDimensions :=
  match mode, self with
  | Prefill, PrefillS1T128 => Some (mkDimensions 1 128 128)
  | Prefill, PrefillS8T128 => Some (mkDimensions 8 128 128)
  | Prefill, PrefillS1T512 => Some (mkDimensions 1 512 512)
  | Prefill, PrefillS1T2048 => Some (mkDimensions 1 2048 2048)
  | Decode, DecodeS1C8192 => Some (mkDimensions 1 1 8192)
  | Decode, DecodeS8C8192 => Some (mkDimensions 8 1 8192)
  | Decode, DecodeS32C8192 => Some (mkDimensions 32 1 8192)
  | Speculative, SpeculativeS1K4C8192 =>
      Some (mkDimensions 1 (match role with Target8B => 5 | Draft06B => 4 end) 8192)
  | Speculative, SpeculativeS8K4C8192 =>
      Some (mkDimensions 8 (match role with Target8B => 5 | Draft06B => 4 end) 8192)
  | Speculative, SpeculativeS1K8C8192 =>
      Some (mkDimensions 1 (match role with Target8B => 9 | Draft06B => 8 end) 8192)
  | Speculative, SpeculativeS1K16C8192 =>
      Some (mkDimensions 1 (match role with Target8B => 17 | Draft06B => 16 end) 8192)
  | _, _ => None
  end.

Record Qwen3PlanSelection := mkSelection {
  role : Qwen3ModelRole; mode : Qwen3ExecutionMode; bucket : Qwen3PlanBucket
}.

#[global] Instance Qwen3PlanSelection_eq_dec : EqDecision Qwen3PlanSelection.
Proof. solve_decision. Defined.

Inductive Qwen3PlanError :=
| MissingIdentity (field : String.string)
| ZeroRevision
| StaleIdentity (field : String.string)
| StaleRevision
| ModeBucketMismatch
| SelectionMismatch
| StepCount (expected actual : N)
| StepMismatch (ordinal : N).

(** [Qwen3PlanSelection::matches]: the [matches!] tables of the three fields. *)
Definition selection_matches (self other : Qwen3PlanSelection) : bool :=
  let role_matches :=
    match role self, role other with
    | Target8B, Target8B | Draft06B, Draft06B => true
    | _, _ => false
    end in
  let mode_matches :=
    match mode self, mode other with
    | Prefill, Prefill | Decode, Decode | Speculative, Speculative => true
    | _, _ => false
    end in
  let bucket_matches :=
    match bucket self, bucket other with
    | PrefillS1T128, PrefillS1T128 | PrefillS8T128, PrefillS8T128
    | PrefillS1T512, PrefillS1T512 | PrefillS1T2048, PrefillS1T2048
    | DecodeS1C8192, DecodeS1C8192 | DecodeS8C8192, DecodeS8C8192
    | DecodeS32C8192, DecodeS32C8192 | SpeculativeS1K4C8192, SpeculativeS1K4C8192
    | SpeculativeS8K4C8192, SpeculativeS8K4C8192 | SpeculativeS1K8C8192, SpeculativeS1K8C8192
    | SpeculativeS1K16C8192, SpeculativeS1K16C8192 => true
    | _, _ => false
    end in
  role_matches && mode_matches && bucket_matches.

Definition validate (self : Qwen3PlanSelection) : result unit Qwen3PlanError :=
  match dimensions (bucket self) (role self) (mode self) with
  | None => Err ModeBucketMismatch
  | Some _ => Ok tt
  end.

End Graph.

(** [step_plan_publication.rs]: the immutable authority of one step. *)
Record StepPlan := mkStepPlan {
  request : RequestId;
  completion_epoch : Completion.CompletionEpoch;
  plan_id : Identity.Identity;
  selection : Graph.Qwen3PlanSelection
}.

(** ** Lemmas *)
Import Graph.

Lemma selection_matches_spec s s' : selection_matches s s' = true <-> s = s'.
Proof. destruct s as [[] [] []], s' as [[] [] []]; split; (done || discriminate). Qed.

(** The admitted selections: the bucket belongs to the mode. *)
Definition bucket_mode (b : Qwen3PlanBucket) : Qwen3ExecutionMode :=
  match b with
  | PrefillS1T128 | PrefillS8T128 | PrefillS1T512 | PrefillS1T2048 => Prefill
  | DecodeS1C8192 | DecodeS8C8192 | DecodeS32C8192 => Decode
  | SpeculativeS1K4C8192 | SpeculativeS8K4C8192 | SpeculativeS1K8C8192
  | SpeculativeS1K16C8192 => Speculative
  end.

Lemma validate_spec s :
  validate s = if decide (bucket_mode (bucket s) = mode s) then Ok tt else Err ModeBucketMismatch.
Proof. destruct s as [[] [] []]; done. Qed.
