(* ===== verification/M1Completion.v ===== *)
(** Compact completion records: [ferric-spec/src/m1_completion.rs] (the record
    a device writes, its validation against the expected step, the BF16 and
    integer argmax scans) and [speculative_completion.rs] (its join with the
    greedy verification of a speculative round). *)
From S2P Require Import Prelude Spec Bytes.
Local Open Scope prog_scope.

Definition M1_MAX_COMPLETION_TOKENS : N := 17.
Definition QWEN3_VOCABULARY_SIZE : N := 151936.

(** ** [m1_completion.rs]: compact completion records *)
Module Compact.

Record CompactCompletionRecord := mkCompact {
  request : RequestId;
  epoch : Completion.CompletionEpoch;
  plan_id : Identity.Identity;
  accepted_draft_tokens : N;
  emitted_token_count : N;
  emitted_tokens : list N
}.

Inductive CompactCompletionError :=
| ExpectedPlanIdentityAbsent
| RequestMismatch
| EpochMismatch
| PlanIdentityMismatch
| DraftLengthOutOfRange
| AcceptedLengthOutOfRange
| EmittedLengthMismatch
| TokenOutOfRange
| NonzeroUnusedToken
| ScoreCountMismatch.

(** [while index < record.emitted_token_count as usize]; [fuel] bounds the
    iterations and [validate_compact_completion] passes the count. *)
Fixpoint check_live_tokens {S} (fuel : nat) (record : CompactCompletionRecord) (index : N) :
    M S (result N CompactCompletionError) :=
  match fuel with
  | O => ret (Ok index)
  | S fuel' =>
      if index <? emitted_token_count record then
        let! token := slice_at (emitted_tokens record) index in
        if QWEN3_VOCABULARY_SIZE <=? token then ret (Err TokenOutOfRange)
        else
          let! next := add_usize index 1 in
          check_live_tokens fuel' record next
      else ret (Ok index)
  end.

(** [while index < M1_MAX_COMPLETION_TOKENS] *)
Fixpoint check_unused_tokens {S} (fuel : nat) (record : CompactCompletionRecord) (index : N) :
    M S (result unit CompactCompletionError) :=
  match fuel with
  | O => ret (Ok tt)
  | S fuel' =>
      if index <? M1_MAX_COMPLETION_TOKENS then
        let! token := slice_at (emitted_tokens record) index in
        if negb (token =? 0) then ret (Err NonzeroUnusedToken)
        else
          let! next := add_usize index 1 in
          check_unused_tokens fuel' record next
      else ret (Ok tt)
  end.

Definition validate_compact_completion {S} (record : CompactCompletionRecord)
    (expected_request : RequestId) (expected_epoch : Completion.CompletionEpoch)
    (expected_plan_id : Identity.Identity) (draft_token_count : N) :
    M S (result unit CompactCompletionError) :=
  if negb (Identity.is_present expected_plan_id) then ret (Err ExpectedPlanIdentityAbsent)
  else if negb (slot (request record) =? slot expected_request)
       || negb (generation (request record) =? generation expected_request) then
    ret (Err RequestMismatch)
  else if negb (Completion.value (epoch record) =? Completion.value expected_epoch) then
    ret (Err EpochMismatch)
  else if negb (Identity.equals (plan_id record) expected_plan_id) then
    ret (Err PlanIdentityMismatch)
  else if 16 <? draft_token_count then ret (Err DraftLengthOutOfRange)
  else if draft_token_count <? accepted_draft_tokens record then
    ret (Err AcceptedLengthOutOfRange)
  else
    let! expected_emitted := add_w 255 (accepted_draft_tokens record) 1 in
    if negb (emitted_token_count record =? expected_emitted)
       || (M1_MAX_COMPLETION_TOKENS <? emitted_token_count record) then
      ret (Err EmittedLengthMismatch)
    else
      let? index := check_live_tokens (N.to_nat (emitted_token_count record)) record 0 in
      check_unused_tokens (N.to_nat M1_MAX_COMPLETION_TOKENS) record index.

End Compact.

(** ** [m1_completion.rs]: lowest-token argmax *)
Module Argmax.

(** The integer order of finite BF16 encodings; both zeros map to zero. *)
Definition finite_bf16_order_key (bits : N) : option Z :=
  let magnitude := bits mod 32768 in
  if 32640 <=? magnitude then None
  else if bits <? 32768 then Some (Z.of_N magnitude)
  else Some (- Z.of_N magnitude)%Z.

Inductive FiniteBf16ArgmaxError :=
| RowExtent
| NonFinite (token : N).

(** [while index < QWEN3_VOCABULARY_SIZE] *)
Fixpoint bf16_scan {S} (fuel : nat) (bytes : list N) (index best : N) (best_value : Z) :
    M S (result N FiniteBf16ArgmaxError) :=
  match fuel with
  | O => ret (Ok best)
  | S fuel' =>
      if index <? QWEN3_VOCABULARY_SIZE then
        let! offset := mul_w usize_max 2 index in
        let! low := slice_at bytes offset in
        let! next_offset := add_usize offset 1 in
        let! high := slice_at bytes next_offset in
        let! scaled := mul_w 65535 high 256 in
        let! bits := add_w 65535 low scaled in
        match finite_bf16_order_key bits with
        | None => ret (Err (NonFinite index))
        | Some value =>
            let! next := add32 index 1 in
            if (index =? 0) || (best_value <? value)%Z
            then bf16_scan fuel' bytes next index value
            else bf16_scan fuel' bytes next best best_value
        end
      else ret (Ok best)
  end.

Definition select_lowest_finite_bf16_argmax {S} (bytes : list N) :
    M S (result N FiniteBf16ArgmaxError) :=
  let! extent := mul_w usize_max 2 QWEN3_VOCABULARY_SIZE in
  if negb (vlen bytes =? extent) then ret (Err RowExtent)
  else bf16_scan (N.to_nat QWEN3_VOCABULARY_SIZE) bytes 0 0 0.

(** [while (index as usize) < scores.len()] *)
Fixpoint score_scan {S} (fuel : nat) (scores : list Z) (index best : N) : M S N :=
  match fuel with
  | O => ret best
  | S fuel' =>
      if index <? vlen scores then
        let! score := slice_at scores index in
        let! best_score := slice_at scores best in
        let! next := add32 index 1 in
        score_scan fuel' scores next (if (best_score <? score)%Z then index else best)
      else ret best
  end.

Definition select_lowest_argmax {S} (scores : list Z) :
    M S (result N Compact.CompactCompletionError) :=
  if negb (vlen scores =? QWEN3_VOCABULARY_SIZE) then ret (Err Compact.ScoreCountMismatch)
  else
    let! best := score_scan (length scores) scores 1 0 in
    ret (Ok best).

End Argmax.

(** ** [speculative_completion.rs] *)
Module SpeculativeCompletion.
Import Compact.

Inductive SpeculativeCompletionError :=
| DraftLengthOutOfRange
| Completion (error : CompactCompletionError)
| Greedy (error : Speculation.GreedyVerificationError)
| AcceptedLengthMismatch
| EmittedTokenMismatch.

(** [while index < record.emitted_token_count as usize] *)
Fixpoint compare_tokens {S} (fuel : nat) (record : CompactCompletionRecord)
    (commit_tokens : list N) (index : N) : M S (result unit SpeculativeCompletionError) :=
  match fuel with
  | O => ret (Ok tt)
  | S fuel' =>
      if index <? emitted_token_count record then
        let! token := slice_at (emitted_tokens record) index in
        let! expected := slice_at commit_tokens index in
        if negb (token =? expected) then ret (Err EmittedTokenMismatch)
        else
          let! next := add_usize index 1 in
          compare_tokens fuel' record commit_tokens next
      else ret (Ok tt)
  end.

Definition verify_speculative_completion {S} (record : CompactCompletionRecord)
    (expected_request : RequestId) (expected_epoch : Completion.CompletionEpoch)
    (expected_plan_id : Identity.Identity) (draft_tokens target_choices : list N) :
    M S (result Speculation.GreedyCommit SpeculativeCompletionError) :=
  if 16 <? vlen draft_tokens then ret (Err DraftLengthOutOfRange)
  else if 255 <? vlen draft_tokens then ret (Err DraftLengthOutOfRange)
  else
    let draft_token_count := vlen draft_tokens in
    let! completion_result := validate_compact_completion record expected_request expected_epoch
                                expected_plan_id draft_token_count in
    match completion_result with
    | Err error => ret (Err (Completion error))
    | Ok _ =>
        let! greedy_result := Speculation.verify_greedy_round draft_tokens target_choices in
        match greedy_result with
        | Err error => ret (Err (Greedy error))
        | Ok commit =>
            if negb (accepted_draft_tokens record =? Speculation.accepted_draft_tokens commit) then
              ret (Err AcceptedLengthMismatch)
            else
              let commit_tokens := Speculation.emitted_tokens commit in
              if negb (emitted_token_count record =? vlen commit_tokens) then
                ret (Err EmittedTokenMismatch)
              else
                let? _ := compare_tokens (N.to_nat (emitted_token_count record)) record
                            commit_tokens 0 in
                ret (Ok commit)
        end
    end.

End SpeculativeCompletion.
