(* ===== verification/CompletionFacts.v ===== *)
(** What the completion validators compute: the loops of [M1Completion] as
    closed decisions, the canonical record of a step, and the exact condition
    under which a compact or speculative record is accepted. *)
From S2P Require Import Prelude Spec Bytes M1Completion.
Local Open Scope prog_scope.

(** ** Slices seen by the loops *)
Section slices.
Context {A : Type}.
Implicit Types l : list A.

Lemma subslice_cons l a b x :
  vget l a = Some x -> a < b -> subslice l a b = x :: subslice l (a + 1) b.
Proof.
  intros Hx Hab. rewrite <- (subslice_app l a (a + 1) b), (subslice_get _ _ _ Hx) by lia. done.
Qed.

Lemma subslice_nil l a b : b <= a -> subslice l a b = [].
Proof. intros. unfold subslice. by replace (N.to_nat (b - a)) with 0%nat by lia. Qed.

Lemma subslice_take l n : subslice l 0 n = take (N.to_nat n) l.
Proof. unfold subslice. rewrite N.sub_0_r. simpl. by rewrite drop_0. Qed.

Lemma subslice_drop l a n : n = vlen l -> subslice l a n = drop (N.to_nat a) l.
Proof. intros ->. unfold subslice, vlen. apply take_ge. rewrite length_drop. lia. Qed.
End slices.

Module CompactFacts.
Import Compact.

Definition live (token : N) : bool := token <? QWEN3_VOCABULARY_SIZE.

Section loops.
Context {S : Type} (r : CompactCompletionRecord).
Hypothesis tokens_len : vlen (emitted_tokens r) = M1_MAX_COMPLETION_TOKENS.
Hypothesis count_le : emitted_token_count r <= M1_MAX_COMPLETION_TOKENS.

Lemma check_live_tokens_wp fuel : forall index (s : S),
  index <= emitted_token_count r -> emitted_token_count r - index <= N.of_nat fuel ->
  wp (check_live_tokens fuel r index) s (fun s' o => s' = s /\
    o = if forallb live (subslice (emitted_tokens r) index (emitted_token_count r))
        then Ok (emitted_token_count r) else Err TokenOutOfRange).
Proof.
  unfold M1_MAX_COMPLETION_TOKENS in *.
  induction fuel as [|fuel IH]; intros index s Hi Hf; simpl.
  { apply wp_ret. split; [done|]. rewrite subslice_nil by lia. simpl. f_equal. lia. }
  destruct (N.ltb_spec index (emitted_token_count r)) as [Hlt|Hge].
  2:{ apply wp_ret. split; [done|]. rewrite subslice_nil by lia. simpl. f_equal. lia. }
  destruct (vget_lt (emitted_tokens r) index) as [x Hx]; [lia|].
  wp_step. eapply wp_slice_at; [exact Hx|]. rewrite (subslice_cons _ _ _ _ Hx Hlt).
  cbn [forallb]. unfold live at 1.
  destruct (N.leb_spec QWEN3_VOCABULARY_SIZE x) as [Hv|Hv].
  - apply wp_ret. split; [done|]. by rewrite (proj2 (N.ltb_ge _ _) Hv).
  - rewrite (proj2 (N.ltb_lt _ _) Hv). wp_step. apply wp_add_usize; [unfold usize_max, u64_max; lia|].
    apply IH; lia.
Qed.

Lemma check_unused_tokens_wp fuel : forall index (s : S),
  M1_MAX_COMPLETION_TOKENS - index <= N.of_nat fuel ->
  wp (check_unused_tokens fuel r index) s (fun s' o => s' = s /\
    o = if forallb (N.eqb 0) (subslice (emitted_tokens r) index M1_MAX_COMPLETION_TOKENS)
        then Ok tt else Err NonzeroUnusedToken).
Proof.
  unfold M1_MAX_COMPLETION_TOKENS in *.
  induction fuel as [|fuel IH]; intros index s Hf; simpl.
  { apply wp_ret. split; [done|]. by rewrite subslice_nil by lia. }
  unfold M1_MAX_COMPLETION_TOKENS.
  destruct (N.ltb_spec index 17) as [Hlt|Hge].
  2:{ apply wp_ret. split; [done|]. by rewrite subslice_nil by lia. }
  destruct (vget_lt (emitted_tokens r) index) as [x Hx]; [lia|].
  wp_step. eapply wp_slice_at; [exact Hx|]. rewrite (subslice_cons _ _ _ _ Hx Hlt).
  cbn [forallb]. rewrite (N.eqb_sym 0 x).
  destruct (N.eqb_spec x 0) as [->|Hv]; simpl.
  - wp_step. apply wp_add_usize; [unfold usize_max, u64_max; lia|]. apply IH; lia.
  - apply wp_ret. done.
Qed.
End loops.

(** The decision of [validate_compact_completion], as a list of checks. *)
Definition compact_error (r : CompactCompletionRecord) (req : RequestId)
    (ep : Completion.CompletionEpoch) (pid : Identity.Identity) (k : N) :
    option CompactCompletionError :=
  if negb (Identity.is_present pid) then Some ExpectedPlanIdentityAbsent
  else if negb (slot (request r) =? slot req) || negb (generation (request r) =? generation req)
  then Some RequestMismatch
  else if negb (Completion.value (epoch r) =? Completion.value ep) then Some EpochMismatch
  else if negb (Identity.equals (plan_id r) pid) then Some PlanIdentityMismatch
  else if 16 <? k then Some DraftLengthOutOfRange
  else if k <? accepted_draft_tokens r then Some AcceptedLengthOutOfRange
  else if negb (emitted_token_count r =? accepted_draft_tokens r + 1)
  then Some EmittedLengthMismatch
  else if negb (forallb live (take (N.to_nat (emitted_token_count r)) (emitted_tokens r)))
  then Some TokenOutOfRange
  else if negb (forallb (N.eqb 0) (drop (N.to_nat (emitted_token_count r)) (emitted_tokens r)))
  then Some NonzeroUnusedToken
  else None.

Definition verdict {E} (e : option E) : result unit E :=
  match e with None => Ok tt | Some e => Err e end.

Lemma validate_compact_completion_wp {S : Type} r req ep pid k (s : S) :
  vlen (emitted_tokens r) = M1_MAX_COMPLETION_TOKENS ->
  wp (validate_compact_completion r req ep pid k) s (fun s' o =>
    s' = s /\ o = verdict (compact_error r req ep pid k)).
Proof.
  intros Hlen. unfold validate_compact_completion, compact_error.
  do 4 (match goal with
          | |- wp (if ?b then ret _ else _) _ _ => destruct b; [by apply wp_ret|]
          end).
  destruct (N.ltb_spec 16 k) as [|Hk]; [by apply wp_ret|].
  destruct (N.ltb_spec k (accepted_draft_tokens r)) as [|Hacc]; [by apply wp_ret|].
  wp_step. apply wp_add_w; [lia|].
  destruct (N.eqb_spec (emitted_token_count r) (accepted_draft_tokens r + 1)) as [Hc|]; cbn [negb orb];
    [|by apply wp_ret].
  assert (Hle : emitted_token_count r <= M1_MAX_COMPLETION_TOKENS)
    by (unfold M1_MAX_COMPLETION_TOKENS; lia).
  rewrite (proj2 (N.ltb_ge _ _) Hle).
  wp_step. eapply wp_mono; [apply check_live_tokens_wp; [done..|lia|lia]|].
  intros s' o [-> ->]. rewrite subslice_take.
  destruct (forallb live _); cbn [negb]; [|done].
  eapply wp_mono; [apply check_unused_tokens_wp; [done..|lia]|].
  intros s' o [-> ->]. split; [done|]. rewrite subslice_drop by done. by destruct (forallb _ _).
Qed.

(** The canonical record of a step that emits [tokens]: the tokens, zero
    filled to the fixed array. *)
Definition canonical (req : RequestId) (ep : Completion.CompletionEpoch) (pid : Identity.Identity)
    (tokens : list N) : CompactCompletionRecord :=
  mkCompact req ep pid (vlen tokens - 1) (vlen tokens)
    (tokens ++ vfill (M1_MAX_COMPLETION_TOKENS - vlen tokens) 0).

Definition emitted (r : CompactCompletionRecord) : list N :=
  take (N.to_nat (emitted_token_count r)) (emitted_tokens r).

Lemma forallb_zero_replicate l : forallb (N.eqb 0) l = true -> l = replicate (length l) 0.
Proof.
  induction l as [|x l IH]; [done|]. cbn [forallb length replicate].
  intros [Hx Hl]%andb_true_iff. apply N.eqb_eq in Hx as <-. by rewrite <- IH.
Qed.

Lemma forallb_zero_vfill n : forallb (N.eqb 0) (vfill n 0) = true.
Proof. unfold vfill. by induction (N.to_nat n). Qed.

Lemma canonical_emitted req ep pid tokens :
  emitted (canonical req ep pid tokens) = tokens.
Proof. unfold emitted, canonical, vlen. simpl. by rewrite Nat2N.id, take_app_length. Qed.

Lemma canonical_vlen req ep pid tokens :
  vlen tokens <= M1_MAX_COMPLETION_TOKENS ->
  vlen (emitted_tokens (canonical req ep pid tokens)) = M1_MAX_COMPLETION_TOKENS.
Proof. intros. simpl. rewrite vlen_app, vlen_vfill. lia. Qed.

(** A record the checks accept is canonical. *)
Lemma compact_error_None_inv r req ep pid k :
  vlen (emitted_tokens r) = M1_MAX_COMPLETION_TOKENS ->
  Identity.well_sized pid -> Identity.well_sized (plan_id r) ->
  compact_error r req ep pid k = None ->
  Identity.is_present pid = true /\ k <= 16 /\ 1 <= vlen (emitted r) <= k + 1 /\
  Forall (fun t => t < QWEN3_VOCABULARY_SIZE) (emitted r) /\
  r = canonical req ep pid (emitted r).
Proof.
  intros Hlen Hp Hp'. unfold compact_error.
  destruct (Identity.is_present pid); [|done]. cbn [negb].
  destruct r as [[rs rg] [re] rp ra rc rt], req as [qs qg], ep as [qe].
  cbn [request slot generation epoch Completion.value plan_id accepted_draft_tokens
       emitted_token_count emitted_tokens] in *.
  destruct (N.eqb_spec rs qs) as [->|]; [|done]. destruct (N.eqb_spec rg qg) as [->|]; [|done].
  destruct (N.eqb_spec re qe) as [->|]; [|done]. cbn [negb orb].
  destruct (Identity.equals rp pid) eqn:Heq; [|done]. cbn [negb].
  destruct (N.ltb_spec 16 k) as [|Hk]; [done|]. destruct (N.ltb_spec k ra); [done|].
  destruct (N.eqb_spec rc (ra + 1)) as [->|]; [|done]. cbn [negb].
  destruct (forallb live _) eqn:Hlive; [|done].
  destruct (forallb (N.eqb 0) _) eqn:Hzero; [|done]. intros _.
  assert (Htl : vlen (take (N.to_nat (ra + 1)) rt) = ra + 1).
  { unfold vlen, M1_MAX_COMPLETION_TOKENS in *. rewrite length_take. lia. }
  unfold emitted. cbn [emitted_token_count emitted_tokens].
  split_and!; [done|done|lia|lia|..].
  - apply Forall_forall. intros x Hx. rewrite forallb_forall in Hlive.
    apply N.ltb_lt. apply Hlive. by apply list_elem_of_In.
  - unfold canonical. rewrite Htl. f_equal; [|lia|].
    + destruct rp as [rp], pid as [pb]. f_equal. apply IdentityFacts.equals_from_spec; [|done].
      unfold Identity.well_sized in *. simpl in *. congruence.
    + rewrite <- (take_drop (N.to_nat (ra + 1)) rt) at 1. f_equal.
      rewrite (forallb_zero_replicate _ Hzero) at 1. unfold vfill. f_equal.
      rewrite length_drop. unfold vlen, M1_MAX_COMPLETION_TOKENS in *. lia.
Qed.

(** A canonical record passes the checks. *)
Lemma compact_error_canonical req ep pid k tokens :
  Identity.is_present pid = true -> k <= 16 -> 1 <= vlen tokens <= k + 1 ->
  Forall (fun t => t < QWEN3_VOCABULARY_SIZE) tokens ->
  compact_error (canonical req ep pid tokens) req ep pid k = None.
Proof.
  intros Hpres Hk [Hl1 Hl2] Hv. unfold compact_error. rewrite Hpres. cbn [negb].
  unfold canonical at 1 2 3 4 5 6 7. cbn [request epoch plan_id accepted_draft_tokens
    emitted_token_count]. rewrite !N.eqb_refl. cbn [negb orb].
  unfold Identity.equals. rewrite (proj2 (IdentityFacts.equals_from_spec _ _ eq_refl) eq_refl).
  cbn [negb]. rewrite (proj2 (N.ltb_ge _ _) Hk), (proj2 (N.ltb_ge k (vlen tokens - 1))) by lia.
  replace (vlen tokens - 1 + 1) with (vlen tokens) by lia. rewrite N.eqb_refl. cbn [negb].
  fold (emitted (canonical req ep pid tokens)). rewrite canonical_emitted.
  assert (Hlive : forallb live tokens = true).
  { apply forallb_forall. intros x Hx. apply N.ltb_lt.
    rewrite Forall_forall in Hv. apply Hv. by apply list_elem_of_In. }
  rewrite Hlive. cbn [negb]. unfold canonical. cbn [emitted_token_count emitted_tokens].
  unfold vlen at 1. rewrite Nat2N.id, drop_app_length, forallb_zero_vfill. done.
Qed.

End CompactFacts.

(** ** Speculative rounds *)
Module SpeculativeFacts.
Import Compact CompactFacts SpeculativeCompletion.

(** The longest prefix on which the draft and the target choices agree, and
    the commit greedy verification makes of it. *)
Fixpoint matched (draft choices : list N) : nat :=
  match draft, choices with
  | d :: draft', t :: choices' => if d =? t then S (matched draft' choices') else O
  | _, _ => O
  end.

Definition greedy_commit (draft choices : list N) : Speculation.GreedyCommit :=
  let k := matched draft choices in
  Speculation.mkCommit (N.of_nat k) (take (S k) choices) (default 0 (choices !! k)).

#[global] Arguments greedy_commit : simpl never.

Lemma matched_unique draft : forall choices k,
  (k <= length draft)%nat -> length choices = S (length draft) ->
  (forall i, (i < k)%nat -> draft !! i = choices !! i) ->
  (k = length draft \/ draft !! k <> choices !! k) -> matched draft choices = k.
Proof.
  induction draft as [|d draft IH]; intros [|t choices] [|k] Hk Hl Hpre Hstop;
    simplify_eq/=; try done; try lia.
  - destruct Hstop as [|Hne]; [done|]. destruct (N.eqb_spec d t); [congruence|done].
  - specialize (Hpre 0%nat ltac:(lia)) as H0. simpl in H0. injection H0 as ->.
    rewrite N.eqb_refl. f_equal. apply IH; [lia|lia| |].
    + intros i Hi. exact (Hpre (S i) ltac:(lia)).
    + destruct Hstop as [|]; [left; lia|by right].
Qed.

Lemma matched_le draft : forall choices, (matched draft choices <= length draft)%nat.
Proof.
  induction draft as [|d draft IH]; intros [|t choices]; simpl; try lia.
  destruct (d =? t); [|lia]. specialize (IH choices). lia.
Qed.

Lemma greedy_commit_vlen draft choices :
  vlen choices = vlen draft + 1 ->
  vlen (Speculation.emitted_tokens (greedy_commit draft choices)) =
  Speculation.accepted_draft_tokens (greedy_commit draft choices) + 1.
Proof.
  unfold greedy_commit, vlen. cbn [Speculation.emitted_tokens Speculation.accepted_draft_tokens].
  unfold Speculation.TokenId. intros Hl. rewrite length_take.
  pose proof (matched_le draft choices). lia.
Qed.

Lemma verify_greedy_round_commit {S : Type} draft choices (s : S) :
  vlen draft < usize_max -> vlen choices = vlen draft + 1 ->
  wp (Speculation.verify_greedy_round draft choices) s (fun s' r =>
    s' = s /\ r = Ok (greedy_commit draft choices)).
Proof.
  intros Hmax Hl. eapply wp_mono; [by apply SpeculationFacts.verify_greedy_round_wp|].
  intros s' r (-> & k & t & Hk & Ht & Hpre & Hstop & ->). split; [done|].
  unfold vlen, vget, Speculation.TokenId in *.
  assert (Hm : matched draft choices = N.to_nat k).
  { apply matched_unique; [lia|lia| |].
    - intros i Hi. specialize (Hpre (N.of_nat i) ltac:(lia)). by rewrite Nat2N.id in Hpre.
    - destruct Hstop; [left; lia|by right]. }
  unfold greedy_commit. rewrite Hm, Ht, N2Nat.id, (take_S_r _ _ _ Ht). simpl. do 3 f_equal.
  apply list_eq_same_length with (n := N.to_nat k); rewrite ?length_take; [lia..|].
  intros i x y Hi Hx Hy. specialize (Hpre (N.of_nat i) ltac:(lia)).
  rewrite Nat2N.id in Hpre. rewrite lookup_take_lt in Hx, Hy by done. congruence.
Qed.

Section round.
Context (r : CompactCompletionRecord) (req : RequestId) (ep : Spec.Completion.CompletionEpoch)
        (pid : Identity.Identity) (draft choices : list N).

(** The decision of [verify_speculative_completion]. *)
Definition round_result : result Speculation.GreedyCommit SpeculativeCompletionError :=
  if 16 <? vlen draft then Err DraftLengthOutOfRange
  else match compact_error r req ep pid (vlen draft) with
  | Some e => Err (Completion e)
  | None =>
      if vlen choices =? 0 then Err (Greedy Speculation.MissingTargetBonus)
      else if negb (vlen choices =? vlen draft + 1) then
        Err (Greedy (Speculation.IncorrectTargetChoiceCount (vlen draft + 1) (vlen choices)))
      else
        let c := greedy_commit draft choices in
        if negb (accepted_draft_tokens r =? Speculation.accepted_draft_tokens c) then
          Err AcceptedLengthMismatch
        else if decide (emitted r = Speculation.emitted_tokens c) then Ok c
        else Err EmittedTokenMismatch
  end.

Lemma compare_tokens_wp {S : Type} fuel tokens : forall index (s : S),
  emitted_token_count r <= vlen (emitted_tokens r) -> vlen tokens = emitted_token_count r ->
  emitted_token_count r <= 17 -> emitted_token_count r - index <= N.of_nat fuel ->
  wp (compare_tokens fuel r tokens index) s (fun s' o => s' = s /\
    o = if decide (subslice (emitted_tokens r) index (emitted_token_count r) =
                   subslice tokens index (emitted_token_count r))
        then Ok tt else Err EmittedTokenMismatch).
Proof.
  induction fuel as [|fuel IH]; intros index s Hc Ht Hm Hf; simpl.
  { apply wp_ret. split; [done|]. by rewrite !subslice_nil, decide_True by (lia || done). }
  destruct (N.ltb_spec index (emitted_token_count r)) as [Hlt|Hge].
  2:{ apply wp_ret. split; [done|]. by rewrite !subslice_nil, decide_True by (lia || done). }
  destruct (vget_lt (emitted_tokens r) index) as [x Hx]; [lia|].
  destruct (vget_lt tokens index) as [y Hy]; [lia|].
  wp_step. eapply wp_slice_at; [exact Hx|]. wp_step. eapply wp_slice_at; [exact Hy|].
  rewrite (subslice_cons _ _ _ _ Hx Hlt), (subslice_cons _ _ _ _ Hy Hlt).
  destruct (N.eqb_spec x y) as [->|Hne]; cbn [negb].
  - wp_step. apply wp_add_usize; [unfold usize_max, u64_max; lia|].
    eapply wp_mono; [apply IH; lia|]. intros s' o [-> ->]. split; [done|].
    apply decide_ext. split; congruence.
  - apply wp_ret. split; [done|]. rewrite decide_False; [done|]. congruence.
Qed.

Lemma verify_speculative_completion_wp {S : Type} (s : S) :
  vlen (emitted_tokens r) = M1_MAX_COMPLETION_TOKENS ->
  wp (verify_speculative_completion r req ep pid draft choices) s (fun s' o =>
    s' = s /\ o = round_result).
Proof.
  intros Hlen. unfold verify_speculative_completion, round_result.
  destruct (N.ltb_spec 16 (vlen draft)) as [|Hd]; [by apply wp_ret|].
  assert (Hmax : vlen draft < usize_max) by (unfold usize_max, u64_max; lia).
  rewrite (proj2 (N.ltb_ge 255 _)) by lia.
  wp_step. eapply wp_mono; [by apply validate_compact_completion_wp|]. intros s' o [-> ->].
  destruct (compact_error r req ep pid (vlen draft)) as [e|] eqn:He;
    cbv beta iota zeta delta [verdict]; [by apply wp_ret|].
  wp_step. destruct (N.eqb_spec (vlen choices) 0) as [H0|H0].
  { unfold Speculation.verify_greedy_round, Speculation.TokenId. rewrite H0. by apply wp_ret. }
  destruct (N.eqb_spec (vlen choices) (vlen draft + 1)) as [Hl|Hl]; cbn [negb].
  2:{ unfold Speculation.verify_greedy_round, Speculation.TokenId, checked_add.
      rewrite (proj2 (N.eqb_neq _ _) H0), (proj2 (N.leb_le _ _)) by lia.
      rewrite (proj2 (N.eqb_neq _ _) Hl). by apply wp_ret. }
  eapply wp_mono; [by apply verify_greedy_round_commit|]. intros s' o [-> ->].
  cbv beta iota zeta.
  destruct (N.eqb_spec (accepted_draft_tokens r)
    (Speculation.accepted_draft_tokens (greedy_commit draft choices))) as [Ha|]; cbn [negb];
    [|by apply wp_ret].
  assert (Hcount : emitted_token_count r =
    vlen (Speculation.emitted_tokens (greedy_commit draft choices))).
  { rewrite greedy_commit_vlen, <- Ha by done. revert He. unfold compact_error.
    repeat (match goal with |- context [if ?b then _ else _] => destruct b eqn:? end; try done).
    intros _. by apply N.eqb_eq, negb_false_iff. }
  rewrite <- Hcount, N.eqb_refl. cbn [negb].
  assert (Hle : emitted_token_count r <= 17).
  { rewrite Hcount, greedy_commit_vlen by done. unfold greedy_commit. simpl.
    pose proof (matched_le draft choices). unfold vlen in Hd. lia. }
  wp_step. eapply wp_mono; [apply compare_tokens_wp;
    [unfold M1_MAX_COMPLETION_TOKENS in *; lia|by rewrite Hcount|lia|lia]|].
  intros s' o [-> ->]. rewrite !subslice_take. fold (emitted r).
  rewrite (take_ge (Speculation.emitted_tokens _)) by (rewrite Hcount; unfold vlen; lia).
  by case_decide.
Qed.

End round.
End SpeculativeFacts.
