(* ===== verification/CompletionWire.v ===== *)
(** The completion wire of [ferric-engine/src/completion_wire.rs]: the 120-byte
    record layout of [ferric-qwen-kernels/src/logits.rs], the decoder, and the
    checker that admits a record only against the step plan and the declared
    token semantics. *)
From S2P Require Import Prelude Spec Bytes PlanSelection M1Completion.
From S2P Require Scheduler.
Local Open Scope prog_scope.

(** ** [Qwen3LogitsCompactRecordLayoutV1] *)
Module Layout.
Definition RECORD_BYTES_USIZE : N := 120.
Definition REQUEST_SLOT_OFFSET : N := 0.
Definition REQUEST_GENERATION_OFFSET : N := 4.
Definition COMPLETION_EPOCH_OFFSET : N := 8.
Definition PLAN_IDENTITY_OFFSET : N := 16.
Definition PLAN_IDENTITY_BYTES : N := 32.
Definition ACCEPTED_DRAFT_TOKENS_OFFSET : N := 48.
Definition EMITTED_TOKEN_COUNT_OFFSET : N := 49.
Definition RESERVED_OFFSET : N := 50.
Definition RESERVED_BYTES : N := 2.
Definition TOKENS_OFFSET : N := 52.
Definition TOKEN_BYTES : N := 4.
Definition TOKEN_SLOTS : N := 17.

Definition token_offset (index : N) : option N :=
  if index <? TOKEN_SLOTS then Some (TOKENS_OFFSET + index * TOKEN_BYTES) else None.
End Layout.

(** ** Qualification context witnesses *)
Module Qualification.

Inductive M1QualificationLaneGrouping := S1 | S8 | S32.
Inductive M1QualificationContextStepKind := TeacherForcedPromptContext | FinalObserved.
Inductive M1QualificationCompactChoiceDisposition :=
| ObservedButSuppressed | ObservedAndPublished.
Inductive M1QualificationNextInputPolicy :=
| IndependentTeacherForcedPrompt | CompactChoiceFeedback | Terminal.

Record M1QualificationTokenRange := mkRange { start : N; range_end : N }.

Record M1QualificationContextStep := mkStep {
  kind : M1QualificationContextStepKind;
  input_tokens : M1QualificationTokenRange;
  prompt_context_commits : M1QualificationTokenRange;
  compact_choice : M1QualificationCompactChoiceDisposition;
  next_input : M1QualificationNextInputPolicy;
  externally_emitted_outputs_per_lane : N;
  aggregate_externally_emitted_output_count : N;
  qualification_capture_destination_required : bool;
  publish_qualification_output_to_host : bool
}.

Record M1QualificationLaneExecutionBinding := mkLane {
  lane_ordinal : N;
  lane_identity : Identity.Identity;
  token_sequence_identity : Identity.Identity
}.

Record M1ValidatedQualificationContextStepV1 := mkContext {
  policy_identity : Identity.Identity;
  grouping : M1QualificationLaneGrouping;
  ordinal : N;
  step : M1QualificationContextStep;
  declared_workload_digest : Identity.Identity;
  lane : M1QualificationLaneExecutionBinding
}.

#[global] Instance M1QualificationLaneGrouping_eq_dec : EqDecision M1QualificationLaneGrouping.
Proof. solve_decision. Defined.
#[global] Instance M1QualificationContextStepKind_eq_dec :
  EqDecision M1QualificationContextStepKind.
Proof. solve_decision. Defined.

End Qualification.

(** ** Expectations, checked records and errors *)
Inductive CompletionWireSemanticExpectation :=
| ExpectDirectFinalRow (choice : N)
| ExpectQualificationPromptCommit (context : Qualification.M1ValidatedQualificationContextStepV1)
| ExpectQualificationFinalRow (context : Qualification.M1ValidatedQualificationContextStepV1)
| ExpectSpeculative (draft_tokens target_choices : list N).

Record CompletionWireExpectation := mkExpectation {
  plan : StepPlan;
  expected_semantics : CompletionWireSemanticExpectation
}.

Inductive CheckedCompletionSemantics :=
| DirectFinalRow (token : N)
| QualificationPromptCommit (choice : N)
    (context : Qualification.M1ValidatedQualificationContextStepV1)
| QualificationFinalRow (token : N)
    (context : Qualification.M1ValidatedQualificationContextStepV1)
| CheckedSpeculative (accepted_draft_tokens correction_or_bonus : N).

Definition raw_compact_count (self : CheckedCompletionSemantics) : N :=
  match self with
  | DirectFinalRow _ | QualificationPromptCommit _ _ | QualificationFinalRow _ _ => 1
  | CheckedSpeculative accepted_draft_tokens _ => accepted_draft_tokens + 1
  end.

Definition logical_accepted_count (self : CheckedCompletionSemantics) : N :=
  raw_compact_count self.

Definition externally_published_count (self : CheckedCompletionSemantics) : N :=
  match self with
  | QualificationPromptCommit _ _ => 0
  | DirectFinalRow _ | QualificationFinalRow _ _ | CheckedSpeculative _ _ => raw_compact_count self
  end.

Inductive CompletionWireError :=
| RecordLength (expected actual : N)
| ReservedNonzero
| EmittedCountOutOfRange (actual : N)
| RequestSlotOutOfRange (actual : N)
| ZeroRequestGeneration
| Selection (error : Graph.Qwen3PlanError)
| NonTargetRole
| ModeSemanticsMismatch
| QualificationLaneMismatch (expected actual : N)
| QualificationGroupingMismatch
| QualificationStepKindMismatch
| QualificationFinalRowRequiresLogitsEvidence
| SpeculativeLengthMismatch (expected actual : N)
| Logical (error : Compact.CompactCompletionError)
| DirectFinalRowMismatch (expected actual : N)
| SpeculativeError (error : SpeculativeCompletion.SpeculativeCompletionError).

Record InertCheckedCompletionRecord := mkChecked {
  record : Compact.CompactCompletionRecord;
  checked_selection : Graph.Qwen3PlanSelection;
  checked_semantics : CheckedCompletionSemantics
}.

(** ** Decoding *)
Definition read_u32 {S} (bytes : list N) (offset : N) : M S N :=
  let! limit := add_usize offset 4 in
  let! w := slice_range bytes offset limit in
  ret (from_le_bytes w).

Definition read_u64 {S} (bytes : list N) (offset : N) : M S N :=
  let! limit := add_usize offset 8 in
  let! w := slice_range bytes offset limit in
  ret (from_le_bytes w).

(** [for (index, token) in emitted_tokens.iter_mut().enumerate()]: one
    iteration per slot of the fixed array. *)
Fixpoint read_tokens {S} (slots : nat) (bytes : list N) (index : N) (emitted_tokens : list N) :
    M S (list N) :=
  match slots with
  | O => ret emitted_tokens
  | S slots' =>
      match Layout.token_offset index with
      | None => panic
      | Some offset =>
          let! token := read_u32 bytes offset in
          let! emitted_tokens := slice_set emitted_tokens index token in
          read_tokens slots' bytes (index + 1) emitted_tokens
      end
  end.

Definition decode_completion_record {S} (bytes : list N) :
    M S (result Compact.CompactCompletionRecord CompletionWireError) :=
  if negb (vlen bytes =? Layout.RECORD_BYTES_USIZE) then
    ret (Err (RecordLength Layout.RECORD_BYTES_USIZE (vlen bytes)))
  else
    let! reserved := slice_range bytes Layout.RESERVED_OFFSET
                       (Layout.RESERVED_OFFSET + Layout.RESERVED_BYTES) in
    if existsb (fun byte => negb (byte =? 0)) reserved then ret (Err ReservedNonzero)
    else
      let! emitted_token_count := slice_at bytes Layout.EMITTED_TOKEN_COUNT_OFFSET in
      if Layout.TOKEN_SLOTS <? emitted_token_count then
        ret (Err (EmittedCountOutOfRange emitted_token_count))
      else
        let! slot := read_u32 bytes Layout.REQUEST_SLOT_OFFSET in
        if Scheduler.M1_MAX_ACTIVE_SEQUENCES <=? slot then ret (Err (RequestSlotOutOfRange slot))
        else
          let! generation := read_u32 bytes Layout.REQUEST_GENERATION_OFFSET in
          if generation =? 0 then ret (Err ZeroRequestGeneration)
          else
            let! epoch := read_u64 bytes Layout.COMPLETION_EPOCH_OFFSET in
            let! plan_id := slice_range bytes Layout.PLAN_IDENTITY_OFFSET
                              (Layout.PLAN_IDENTITY_OFFSET + Layout.PLAN_IDENTITY_BYTES) in
            let! emitted_tokens :=
              read_tokens (N.to_nat M1_MAX_COMPLETION_TOKENS) bytes 0
                (vfill M1_MAX_COMPLETION_TOKENS 0) in
            let! accepted_draft_tokens := slice_at bytes Layout.ACCEPTED_DRAFT_TOKENS_OFFSET in
            ret (Ok (Compact.mkCompact (mkRequestId slot generation) (Completion.mkEpoch epoch)
                       (Identity.mkIdentity plan_id) accepted_draft_tokens emitted_token_count
                       emitted_tokens)).

(** ** Checking *)
Definition speculative_k (bucket : Graph.Qwen3PlanBucket) : option N :=
  match bucket with
  | Graph.SpeculativeS1K4C8192 | Graph.SpeculativeS8K4C8192 => Some 4
  | Graph.SpeculativeS1K8C8192 => Some 8
  | Graph.SpeculativeS1K16C8192 => Some 16
  | _ => None
  end.

Definition checked_speculative_semantics {S} (commit : Speculation.GreedyCommit) :
    M S CheckedCompletionSemantics :=
  if 255 <? Speculation.accepted_draft_tokens commit then panic
  else
    ret (CheckedSpeculative (Speculation.accepted_draft_tokens commit)
           (Speculation.target_correction_or_bonus commit)).

Definition validate_qualification_selection (selection : Graph.Qwen3PlanSelection)
    (context : Qualification.M1ValidatedQualificationContextStepV1) :
    result unit CompletionWireError :=
  match
    match Graph.bucket selection with
    | Graph.DecodeS1C8192 => Some Qualification.S1
    | Graph.DecodeS8C8192 => Some Qualification.S8
    | Graph.DecodeS32C8192 => Some Qualification.S32
    | _ => None
    end
  with
  | None => Err QualificationGroupingMismatch
  | Some grouping =>
      if decide (Qualification.grouping context <> grouping)
      then Err QualificationGroupingMismatch else Ok tt
  end.

(** [validate_compact_completion(..).map_err(Logical)?] with the plan's
    authority and no draft tokens, shared by the one-token modes. *)
Definition validate_single {S} (record : Compact.CompactCompletionRecord) (plan : StepPlan) :
    M S (result unit CompletionWireError) :=
  let! r := Compact.validate_compact_completion record (request plan) (completion_epoch plan)
              (plan_id plan) 0 in
  match r with Err error => ret (Err (Logical error)) | Ok _ => ret (Ok tt) end.

Definition check_completion_record {S} (bytes : list N) (expectation : CompletionWireExpectation)
    (qualification_final_choice : option N) :
    M S (result InertCheckedCompletionRecord CompletionWireError) :=
  let? record := decode_completion_record bytes in
  let plan := plan expectation in
  let selection := selection plan in
  match Graph.validate selection with
  | Err error => ret (Err (Selection error))
  | Ok _ =>
      if negb (bool_decide (Graph.role selection = Graph.Target8B)) then ret (Err NonTargetRole)
      else
        let? semantics :=
          match Graph.mode selection, expected_semantics expectation with
          | (Graph.Prefill | Graph.Decode), ExpectDirectFinalRow choice =>
              let? _ := validate_single record plan in
              let! actual := slice_at (Compact.emitted_tokens record) 0 in
              if negb (actual =? choice) then ret (Err (DirectFinalRowMismatch choice actual))
              else ret (Ok (DirectFinalRow actual))
          | Graph.Decode, ExpectQualificationPromptCommit context =>
              match validate_qualification_selection selection context with
              | Err error => ret (Err error)
              | Ok _ =>
                  if decide (Qualification.kind (Qualification.step context)
                             <> Qualification.TeacherForcedPromptContext)
                  then ret (Err QualificationStepKindMismatch)
                  else
                    let? _ := validate_single record plan in
                    let! choice := slice_at (Compact.emitted_tokens record) 0 in
                    ret (Ok (QualificationPromptCommit choice context))
              end
          | Graph.Decode, ExpectQualificationFinalRow context =>
              match qualification_final_choice with
              | None => ret (Err QualificationFinalRowRequiresLogitsEvidence)
              | Some choice =>
                  match validate_qualification_selection selection context with
                  | Err error => ret (Err error)
                  | Ok _ =>
                      if decide (Qualification.kind (Qualification.step context)
                                 <> Qualification.FinalObserved)
                      then ret (Err QualificationStepKindMismatch)
                      else
                        let? _ := validate_single record plan in
                        let! actual := slice_at (Compact.emitted_tokens record) 0 in
                        if negb (actual =? choice) then
                          ret (Err (DirectFinalRowMismatch choice actual))
                        else ret (Ok (QualificationFinalRow actual context))
                  end
              end
          | Graph.Speculative, ExpectSpeculative draft_tokens target_choices =>
              match speculative_k (Graph.bucket selection) with
              | None => ret (Err ModeSemanticsMismatch)
              | Some expected =>
                  if negb (vlen draft_tokens =? expected) then
                    ret (Err (SpeculativeLengthMismatch expected (vlen draft_tokens)))
                  else
                    let! r := SpeculativeCompletion.verify_speculative_completion record
                                (request plan) (completion_epoch plan) (plan_id plan)
                                draft_tokens target_choices in
                    match r with
                    | Err error => ret (Err (SpeculativeError error))
                    | Ok commit =>
                        let! semantics := checked_speculative_semantics commit in
                        ret (Ok semantics)
                    end
              end
          | _, _ => ret (Err ModeSemanticsMismatch)
          end in
        ret (Ok (mkChecked record selection semantics))
  end.

Definition check_inert_completion_record {S} (bytes : list N)
    (expectation : CompletionWireExpectation) :
    M S (result InertCheckedCompletionRecord CompletionWireError) :=
  check_completion_record bytes expectation None.

Definition check_inert_qualification_final_completion_record {S} (bytes : list N)
    (expectation : CompletionWireExpectation) (derived_choice : N) :
    M S (result InertCheckedCompletionRecord CompletionWireError) :=
  check_completion_record bytes expectation (Some derived_choice).

(** ** The exact-epoch join *)
Record EpochJoinedCompletionRecord := mkJoined {
  joined_checked : InertCheckedCompletionRecord;
  joined_completion : Scheduler.ExactCompletion
}.

Record CompletionEpochJoinFailure := mkJoinFailure {
  failure_checked : InertCheckedCompletionRecord;
  failure_completion : Scheduler.ExactCompletion
}.

Definition bind_inert_completion_epoch (checked : InertCheckedCompletionRecord)
    (completion : Scheduler.ExactCompletion) :
    result EpochJoinedCompletionRecord CompletionEpochJoinFailure :=
  if negb (Completion.value (Compact.epoch (record checked))
           =? Completion.value (Scheduler.ec_epoch completion))
  then Err (mkJoinFailure checked completion)
  else Ok (mkJoined checked completion).

(** ** The reference encoder

    The byte string the layout assigns to a record: every field at its offset,
    little-endian, and the two reserved bytes zero. *)
Definition encode_record (r : Compact.CompactCompletionRecord) : list N :=
  to_le_bytes 4 (slot (Compact.request r)) ++ to_le_bytes 4 (generation (Compact.request r)) ++
  to_le_bytes 8 (Completion.value (Compact.epoch r)) ++ Identity.bytes (Compact.plan_id r) ++
  [Compact.accepted_draft_tokens r; Compact.emitted_token_count r] ++ [0; 0] ++
  concat (to_le_bytes 4 <$> Compact.emitted_tokens r).

(** The records that have an encoding: every field within its width, and the
    bounds the decoder enforces. *)
Record encodable (r : Compact.CompactCompletionRecord) : Prop := {
  en_slot : slot (Compact.request r) < Scheduler.M1_MAX_ACTIVE_SEQUENCES;
  en_generation : 0 < generation (Compact.request r) <= u32_max;
  en_epoch : Completion.value (Compact.epoch r) <= u64_max;
  en_plan : Identity.well_sized (Compact.plan_id r) /\ bytes_ok (Identity.bytes (Compact.plan_id r));
  en_accepted : Compact.accepted_draft_tokens r <= 255;
  en_count : Compact.emitted_token_count r <= M1_MAX_COMPLETION_TOKENS;
  en_tokens : vlen (Compact.emitted_tokens r) = M1_MAX_COMPLETION_TOKENS /\
              Forall (fun t => t <= u32_max) (Compact.emitted_tokens r)
}.
