(* ===== verification/WireFacts.v ===== *)
(** The completion wire as a codec: what the decoder reads from a byte string,
    the decision it takes on every input, and the two halves of the round trip
    with the reference encoder. *)
From S2P Require Import Prelude Spec Bytes PlanSelection M1Completion CompletionFacts CompletionWire.
Local Open Scope prog_scope.

(** The word at a token slot, and the record the layout reads. *)
Definition token_at (bytes : list N) (index : N) : N :=
  from_le_bytes (subslice bytes (52 + 4 * index) (52 + 4 * index + 4)).

Definition tokens_at (bytes : list N) (first : nat) (count : nat) : list N :=
  (fun i => token_at bytes (N.of_nat i)) <$> seq first count.

Definition fields (bytes : list N) : Compact.CompactCompletionRecord :=
  Compact.mkCompact
    (mkRequestId (from_le_bytes (subslice bytes 0 4)) (from_le_bytes (subslice bytes 4 8)))
    (Completion.mkEpoch (from_le_bytes (subslice bytes 8 16)))
    (Identity.mkIdentity (subslice bytes 16 48))
    (vnth 0 bytes 48) (vnth 0 bytes 49) (tokens_at bytes 0 17).

(** The decision of the decoder. *)
Definition decode_result (bytes : list N) :
    result Compact.CompactCompletionRecord CompletionWireError :=
  let r := fields bytes in
  if negb (vlen bytes =? 120) then Err (RecordLength 120 (vlen bytes))
  else if existsb (fun byte => negb (byte =? 0)) (subslice bytes 50 52) then Err ReservedNonzero
  else if 17 <? Compact.emitted_token_count r then
    Err (EmittedCountOutOfRange (Compact.emitted_token_count r))
  else if 32 <=? slot (Compact.request r) then
    Err (RequestSlotOutOfRange (slot (Compact.request r)))
  else if generation (Compact.request r) =? 0 then Err ZeroRequestGeneration
  else Ok r.

(** ** Decoding *)
Section decoding.
Context {S : Type} (bytes : list N).
Hypothesis record_len : vlen bytes = 120.

Lemma read_u32_wp offset (s : S) Q :
  offset + 4 <= 120 -> Q s (from_le_bytes (subslice bytes offset (offset + 4))) ->
  wp (read_u32 bytes offset) s Q.
Proof.
  intros Ho HQ. unfold read_u32. wp_step. apply wp_add_usize; [unfold usize_max, u64_max; lia|].
  wp_step. apply wp_slice_range; [lia|lia|]. by apply wp_ret.
Qed.

Lemma read_u64_wp offset (s : S) Q :
  offset + 8 <= 120 -> Q s (from_le_bytes (subslice bytes offset (offset + 8))) ->
  wp (read_u64 bytes offset) s Q.
Proof.
  intros Ho HQ. unfold read_u64. wp_step. apply wp_add_usize; [unfold usize_max, u64_max; lia|].
  wp_step. apply wp_slice_range; [lia|lia|]. by apply wp_ret.
Qed.

Lemma take_vset_S (l : list N) i v :
  i < vlen l -> take (Datatypes.S (N.to_nat i)) (vset l i v) = take (N.to_nat i) l ++ [v].
Proof.
  intros Hi. rewrite (take_S_r _ _ v); [|by apply vget_vset_eq].
  f_equal. unfold vset. by apply take_insert_ge.
Qed.

Lemma read_tokens_wp slots : forall index l (s : S),
  index + N.of_nat slots = 17 -> vlen l = 17 ->
  wp (read_tokens slots bytes index l) s (fun s' l' =>
    s' = s /\ l' = take (N.to_nat index) l ++ tokens_at bytes (N.to_nat index) slots).
Proof.
  induction slots as [|slots IH]; intros index l s Hi Hl; cbn [read_tokens].
  { apply wp_ret. split; [done|]. unfold tokens_at, vlen in *. simpl.
    rewrite app_nil_r, take_ge by lia. done. }
  unfold Layout.token_offset, Layout.TOKEN_SLOTS, Layout.TOKENS_OFFSET, Layout.TOKEN_BYTES.
  rewrite (proj2 (N.ltb_lt _ _)) by lia. wp_step. apply read_u32_wp; [lia|].
  wp_step. apply wp_slice_set; [lia|].
  eapply wp_mono; [apply IH; [lia|by rewrite vlen_vset]|]. intros s' l' [-> ->]. split; [done|].
  replace (N.to_nat (index + 1)) with (Datatypes.S (N.to_nat index)) by lia.
  rewrite take_vset_S, <- app_assoc by lia. f_equal.
  unfold tokens_at. simpl. unfold token_at at 2. rewrite N2Nat.id. do 3 f_equal; lia.
Qed.
End decoding.

Lemma decode_completion_record_wp {S : Type} bytes (s : S) :
  wp (decode_completion_record bytes) s (fun s' r => s' = s /\ r = decode_result bytes).
Proof.
  unfold decode_completion_record, decode_result, Layout.RECORD_BYTES_USIZE, Layout.RESERVED_OFFSET,
    Layout.RESERVED_BYTES, Layout.EMITTED_TOKEN_COUNT_OFFSET, Layout.TOKEN_SLOTS.
  destruct (N.eqb_spec (vlen bytes) 120) as [Hl|]; cbn [negb]; [|by apply wp_ret].
  wp_step. apply wp_slice_range; [lia|lia|]. change (50 + 2) with 52.
  destruct (existsb _ _); [by apply wp_ret|].
  wp_step. apply wp_slice_at with (x := vnth 0 bytes 49); [apply vget_nth; lia|].
  change (Compact.emitted_token_count (fields bytes)) with (vnth 0 bytes 49).
  destruct (17 <? vnth 0 bytes 49); [by apply wp_ret|].
  wp_step. apply read_u32_wp; [done|by cbn|].
  change (slot (Compact.request (fields bytes))) with (from_le_bytes (subslice bytes 0 4)).
  unfold Scheduler.M1_MAX_ACTIVE_SEQUENCES, Layout.REQUEST_SLOT_OFFSET. change (0 + 4) with 4.
  destruct (32 <=? _); [by apply wp_ret|].
  wp_step. apply read_u32_wp; [done|by cbn|].
  change (generation (Compact.request (fields bytes))) with (from_le_bytes (subslice bytes 4 8)).
  unfold Layout.REQUEST_GENERATION_OFFSET. change (4 + 4) with 8.
  destruct (_ =? 0); [by apply wp_ret|].
  wp_step. apply read_u64_wp; [done|by cbn|].
  wp_step. apply wp_slice_range; [by cbn|rewrite Hl; by cbn|].
  wp_step. eapply wp_mono; [by apply read_tokens_wp|]. intros s' l [-> ->].
  wp_step. apply wp_slice_at with (x := vnth 0 bytes 48); [apply vget_nth; rewrite Hl; done|].
  by apply wp_ret.
Qed.

(** ** Encoding what was decoded *)
Lemma to_le_subslice bytes a b n :
  bytes_ok bytes -> a + N.of_nat n = b -> b <= vlen bytes ->
  to_le_bytes n (from_le_bytes (subslice bytes a b)) = subslice bytes a b.
Proof.
  intros Hok Hab Hb.
  replace n with (length (subslice bytes a b)) by (rewrite length_subslice; lia).
  apply to_from_le_bytes. by apply Forall_subslice.
Qed.

Lemma concat_tokens_at bytes first count :
  bytes_ok bytes -> 52 + 4 * N.of_nat (first + count) <= vlen bytes ->
  concat (to_le_bytes 4 <$> tokens_at bytes first count) =
  subslice bytes (52 + 4 * N.of_nat first) (52 + 4 * N.of_nat (first + count)).
Proof.
  intros Hok. unfold tokens_at. revert first. induction count as [|count IH]; intros first Hl.
  { rewrite Nat.add_0_r. symmetry. apply subslice_nil. lia. }
  cbn [seq]. rewrite !fmap_cons. cbn [concat].
  rewrite (IH (Datatypes.S first)) by lia. unfold token_at.
  rewrite (to_le_subslice _ _ _ 4) by (done || lia).
  replace (52 + 4 * N.of_nat (Datatypes.S first)) with (52 + 4 * N.of_nat first + 4) by lia.
  rewrite subslice_app by lia. f_equal. lia.
Qed.

Lemma zero_bytes l : existsb (fun byte => negb (byte =? 0)) l = false -> l = replicate (length l) 0.
Proof.
  induction l as [|x l IH]; [done|]. cbn [existsb length replicate].
  intros [Hx Hl]%orb_false_iff. apply negb_false_iff, N.eqb_eq in Hx as ->. by rewrite <- IH.
Qed.

Lemma encode_fields bytes :
  bytes_ok bytes -> vlen bytes = 120 ->
  existsb (fun byte => negb (byte =? 0)) (subslice bytes 50 52) = false ->
  encode_record (fields bytes) = bytes.
Proof.
  intros Hok Hl Hz. unfold encode_record, fields.
  cbn [Compact.request slot generation Compact.epoch Completion.value Compact.plan_id Identity.bytes
       Compact.accepted_draft_tokens Compact.emitted_token_count Compact.emitted_tokens].
  rewrite (to_le_subslice _ 0 4 4), (to_le_subslice _ 4 8 4), (to_le_subslice _ 8 16 8),
    concat_tokens_at by (done || rewrite Hl; done).
  apply zero_bytes in Hz. rewrite length_subslice in Hz by (rewrite ?Hl; done).
  change [0; 0] with (replicate (N.to_nat (52 - 50)) 0). rewrite <- Hz.
  change [vnth 0 bytes 48; vnth 0 bytes 49] with ([vnth 0 bytes 48] ++ [vnth 0 bytes 49]).
  rewrite <- (subslice_get bytes 48), <- (subslice_get bytes 49)
    by (apply vget_nth; rewrite Hl; done).
  rewrite <- (app_assoc (subslice bytes 48 _)). cbn [N.of_nat Nat.add].
  change (48 + 1) with 49. change (49 + 1) with 50.
  change (52 + 4 * N.of_nat 0) with 52. change (52 + 4 * N.of_nat 17) with 120.
  rewrite !subslice_app by done. rewrite <- Hl. apply subslice_all.
Qed.

Lemma fields_encodable bytes :
  bytes_ok bytes -> vlen bytes = 120 ->
  Compact.emitted_token_count (fields bytes) <= 17 -> slot (Compact.request (fields bytes)) < 32 ->
  generation (Compact.request (fields bytes)) <> 0 -> encodable (fields bytes).
Proof.
  intros Hok Hl Hc Hs Hg.
  assert (Hw : forall a b, a <= b -> b <= 120 -> from_le_bytes (subslice bytes a b) < 256 ^ (b - a)).
  { intros a b Ha Hb. rewrite <- (vlen_subslice bytes a b) by lia.
    by apply from_le_bytes_lt, Forall_subslice. }
  split; [done| | | | |done|].
  - split; [lia|]. exact (N.lt_le_pred _ _ (Hw 4 8 ltac:(done) ltac:(done))).
  - exact (N.lt_le_pred _ _ (Hw 8 16 ltac:(done) ltac:(done))).
  - split; [|by apply Forall_subslice]. unfold Identity.well_sized. simpl.
    by rewrite length_subslice by (rewrite ?Hl; done).
  - cbn. assert (byte_ok (vnth 0 bytes 48)); [|unfold byte_ok in *; lia].
    eapply Forall_lookup_1; [exact Hok|]. apply vget_nth. by rewrite Hl.
  - cbn [fields Compact.emitted_tokens]. split.
    + unfold vlen, tokens_at. by rewrite length_fmap, length_seq.
    + apply Forall_fmap, Forall_seq. intros i Hi. simpl. unfold token_at.
      specialize (Hw (52 + 4 * N.of_nat i) (52 + 4 * N.of_nat i + 4) ltac:(lia) ltac:(lia)).
      replace (52 + 4 * N.of_nat i + 4 - (52 + 4 * N.of_nat i)) with 4 in Hw by lia.
      by apply N.lt_le_pred in Hw.
Qed.

(** ** Decoding what was encoded *)
Lemma concat_words_length (ts : list N) :
  vlen (concat (to_le_bytes 4 <$> ts)) = 4 * vlen ts.
Proof.
  induction ts as [|t ts IH]; [done|]. rewrite fmap_cons. cbn [concat].
  rewrite vlen_app, IH. unfold vlen. rewrite to_le_bytes_length. simpl. lia.
Qed.

Lemma subslice_word p ts i t :
  ts !! i = Some t ->
  subslice (p ++ concat (to_le_bytes 4 <$> ts)) (vlen p + 4 * N.of_nat i)
    (vlen p + 4 * N.of_nat i + 4) = to_le_bytes 4 t.
Proof.
  intros Hi. pose proof (lookup_lt_Some _ _ _ Hi) as Hlt.
  rewrite <- (take_drop_middle ts i t Hi) at 1.
  rewrite fmap_app, fmap_cons, concat_app. cbn [concat]. rewrite app_assoc.
  assert (Hv : vlen (take i ts) = N.of_nat i) by (unfold vlen; rewrite length_take; lia).
  apply subslice_mid; rewrite vlen_app, concat_words_length, Hv; [done|].
  unfold vlen. by rewrite to_le_bytes_length.
Qed.

Section encoded.
Context (r : Compact.CompactCompletionRecord).
Hypothesis enc : encodable r.

Local Definition head : list N :=
  to_le_bytes 4 (slot (Compact.request r)) ++ to_le_bytes 4 (generation (Compact.request r)) ++
  to_le_bytes 8 (Completion.value (Compact.epoch r)) ++ Identity.bytes (Compact.plan_id r) ++
  [Compact.accepted_draft_tokens r; Compact.emitted_token_count r] ++ [0; 0].

Lemma encode_record_head :
  encode_record r = head ++ concat (to_le_bytes 4 <$> Compact.emitted_tokens r).
Proof. unfold encode_record, head. by rewrite <- !app_assoc. Qed.

Lemma head_length : vlen head = 52.
Proof.
  destruct enc as [_ _ _ [Hp _] _ _ _]. unfold head, Identity.well_sized in *.
  rewrite !vlen_app. unfold vlen at 4. rewrite Hp. unfold vlen. by rewrite !to_le_bytes_length.
Qed.

Lemma encode_record_length : vlen (encode_record r) = 120.
Proof.
  rewrite encode_record_head, vlen_app, head_length, concat_words_length.
  by rewrite (proj1 (en_tokens r enc)).
Qed.

Lemma encode_record_bytes_ok : bytes_ok (encode_record r).
Proof.
  destruct enc as [_ _ _ [_ Hp] Ha Hc _]. unfold encode_record, bytes_ok, M1_MAX_COMPLETION_TOKENS in *.
  rewrite !Forall_app. split_and!; try apply to_le_bytes_ok; try done.
  - repeat constructor; unfold byte_ok; lia.
  - by repeat constructor.
  - apply Forall_concat, Forall_fmap, Forall_true. intros t. apply to_le_bytes_ok.
Qed.

Lemma fields_encode : fields (encode_record r) = r.
Proof.
  destruct enc as [Hs Hg He [Hp Hpb] Ha Hc [Ht Htok]]. unfold Identity.well_sized in Hp.
  unfold Scheduler.M1_MAX_ACTIVE_SEQUENCES, u32_max, u64_max in *.
  assert (Hwords : tokens_at (encode_record r) 0 17 = Compact.emitted_tokens r).
  { apply list_eq_same_length with (n := 17%nat); [|by unfold tokens_at; rewrite length_fmap, length_seq|].
    { unfold vlen, M1_MAX_COMPLETION_TOKENS in Ht. lia. }
    intros i x y Hi Hx Hy. unfold tokens_at in Hx.
    rewrite list_lookup_fmap, lookup_seq_lt in Hx by done. simpl in Hx. injection Hx as <-.
    unfold token_at. rewrite encode_record_head, <- head_length, (subslice_word _ _ _ _ Hy).
    apply from_to_le_bytes. rewrite Forall_lookup in Htok. specialize (Htok _ _ Hy). simpl in Htok.
    change (256 ^ N.of_nat 4) with 4294967296. lia. }
  unfold fields. rewrite Hwords. clear Hwords.
  pose proof (to_le_bytes_length 4 (slot (Compact.request r))) as L1.
  pose proof (to_le_bytes_length 4 (generation (Compact.request r))) as L2.
  pose proof (to_le_bytes_length 8 (Completion.value (Compact.epoch r))) as L3.
  unfold encode_record.
  rewrite (subslice_first (to_le_bytes 4 _)) by (unfold vlen; rewrite ?L1; done).
  rewrite (subslice_mid (to_le_bytes 4 (slot (Compact.request r))) (to_le_bytes 4 _))
    by (unfold vlen; rewrite ?L1, ?L2; done).
  rewrite (app_assoc _ (to_le_bytes 4 _)).
  rewrite (subslice_mid _ (to_le_bytes 8 _)) by (unfold vlen; rewrite ?length_app, ?L1, ?L2, ?L3; done).
  rewrite (app_assoc _ (to_le_bytes 8 _)).
  rewrite (subslice_mid _ (Identity.bytes _))
    by (unfold vlen; rewrite ?length_app, ?L1, ?L2, ?L3, ?Hp; done).
  rewrite (app_assoc _ (Identity.bytes _)). cbn [app].
  rewrite (vnth_get _ _ 48 (Compact.accepted_draft_tokens r)), (vnth_get _ _ 49 (Compact.emitted_token_count r)).
  2:{ rewrite cons_middle, app_assoc.
      apply vget_mid. unfold vlen. rewrite ?length_app, ?L1, ?L2, ?L3, ?Hp. done. }
  2:{ apply vget_mid. unfold vlen. rewrite ?length_app, ?L1, ?L2, ?L3, ?Hp. done. }
  rewrite !from_to_le_bytes by (simpl; lia).
  by destruct r as [[? ?] [?] [?] ? ? ?].
Qed.
End encoded.
