(* ===== verification/WireTheorems.v ===== *)
(** The completion path from device bytes to published tokens: the wire is a
    codec, a record is admitted exactly when it is the canonical record of the
    step, and what speculation publishes is what the target model decodes. *)
From S2P Require Import Prelude Spec SpecTheorems Bytes PlanSelection M1Completion CompletionFacts.
From S2P Require Import CompletionWire WireFacts.
Local Open Scope prog_scope.
Import Compact CompactFacts SpeculativeFacts.

(** ** The codec *)
Lemma decode_result_spec bytes r :
  bytes_ok bytes -> decode_result bytes = Ok r <-> encodable r /\ bytes = encode_record r.
Proof.
  intros Hok. unfold decode_result. split.
  - destruct (N.eqb_spec (vlen bytes) 120) as [Hl|]; [cbn [negb]|done].
    destruct (existsb _ _) eqn:Hz; [done|].
    destruct (N.ltb_spec 17 (emitted_token_count (fields bytes))); [done|].
    destruct (N.leb_spec 32 (slot (request (fields bytes)))); [done|].
    destruct (N.eqb_spec (generation (request (fields bytes))) 0); [done|].
    intros [= <-]. split; [by apply fields_encodable|]. symmetry. by apply encode_fields.
  - intros [Henc ->]. rewrite fields_encode, encode_record_length by done. cbn [negb N.eqb].
    destruct Henc as [Hs Hg _ [Hp _] _ Hc _]. unfold Identity.well_sized in Hp.
    unfold M1_MAX_COMPLETION_TOKENS, Scheduler.M1_MAX_ACTIVE_SEQUENCES in *.
    rewrite (proj2 (N.ltb_ge 17 _)), (proj2 (N.leb_gt 32 _)), (proj2 (N.eqb_neq _ 0)) by lia.
    assert (Hz : subslice (encode_record r) 50 52 = [0; 0]).
    { unfold encode_record. rewrite !app_assoc, <- (app_assoc _ [0; 0]).
      apply subslice_mid; unfold vlen; rewrite !length_app, Hp, !to_le_bytes_length; done. }
    by rewrite Hz.
Qed.

(** C35: the completion wire is a codec: on every byte string the decoder returns
    without a panic, and it returns a record precisely when the record is
    within the wire's bounds and the bytes are the record's encoding; so no two
    byte strings decode to one record, and every encodable record is decoded
    back. *)
Theorem wire_roundtrip bytes :
  bytes_ok bytes ->
  exists result, decode_completion_record bytes tt = Done tt result /\
    forall r, result = Ok r <-> encodable r /\ bytes = encode_record r.
Proof.
  intros Hok. destruct (wp_done _ _ _ (decode_completion_record_wp bytes tt)) as ([] & r & Hrun & _ & ->).
  exists (decode_result bytes). split; [done|]. intros r. by apply decode_result_spec.
Qed.

Definition demo_identity : Identity.Identity := Identity.mkIdentity (vfill 32 5).
Definition demo_request : RequestId := mkRequestId 3 9.
Definition demo_epoch : Completion.CompletionEpoch := Completion.mkEpoch 12.
Definition demo_record : CompactCompletionRecord :=
  canonical demo_request demo_epoch demo_identity [7; 11; 151935].

Lemma wire_roundtrip_witness :
  bytes_ok (encode_record demo_record) /\
  decode_completion_record (encode_record demo_record) tt = Done tt (Ok demo_record).
Proof.
  split; [by_decide|].
  destruct (wire_roundtrip (encode_record demo_record)) as (r & Hrun & Hr);
    [by_decide|].
  rewrite Hrun. f_equal. apply Hr. split; [|done].
  split; [by_decide|by_decide|by_decide|split; [done|by_decide]|by_decide|by_decide|].
  split; [done|by_decide].
Defined.

(** ** What a step admits *)
Definition authority_error (r : CompactCompletionRecord) (plan : StepPlan) :
    result unit CompletionWireError :=
  match compact_error r (PlanSelection.request plan) (completion_epoch plan)
          (PlanSelection.plan_id plan) 0 with
  | Some error => Err (Logical error)
  | None => Ok tt
  end.

Definition first_token (r : CompactCompletionRecord) : N := vnth 0 (emitted_tokens r) 0.

(** The payloads a step admits: the emitted tokens and the checked semantics,
    for every admitted pair of mode and expectation. *)
Inductive payload (s : Graph.Qwen3PlanSelection) (final_choice : option N) :
    CompletionWireSemanticExpectation -> list N -> CheckedCompletionSemantics -> Prop :=
| payload_direct choice :
    Graph.mode s <> Graph.Speculative ->
    payload s final_choice (ExpectDirectFinalRow choice) [choice] (DirectFinalRow choice)
| payload_prompt context choice :
    Graph.mode s = Graph.Decode -> validate_qualification_selection s context = Ok tt ->
    Qualification.kind (Qualification.step context) = Qualification.TeacherForcedPromptContext ->
    payload s final_choice (ExpectQualificationPromptCommit context) [choice]
      (QualificationPromptCommit choice context)
| payload_final context choice :
    Graph.mode s = Graph.Decode -> validate_qualification_selection s context = Ok tt ->
    Qualification.kind (Qualification.step context) = Qualification.FinalObserved ->
    final_choice = Some choice ->
    payload s final_choice (ExpectQualificationFinalRow context) [choice]
      (QualificationFinalRow choice context)
| payload_speculative draft choices :
    Graph.mode s = Graph.Speculative -> speculative_k (Graph.bucket s) = Some (vlen draft) ->
    vlen choices = vlen draft + 1 ->
    payload s final_choice (ExpectSpeculative draft choices)
      (Speculation.emitted_tokens (greedy_commit draft choices))
      (CheckedSpeculative (Speculation.accepted_draft_tokens (greedy_commit draft choices))
         (Speculation.target_correction_or_bonus (greedy_commit draft choices))).

(** A plan whose authority fits the wire. *)
Record plan_ok (plan : StepPlan) : Prop := {
  po_slot : slot (PlanSelection.request plan) < Scheduler.M1_MAX_ACTIVE_SEQUENCES;
  po_generation : 0 < generation (PlanSelection.request plan) <= u32_max;
  po_epoch : Completion.value (completion_epoch plan) <= u64_max;
  po_plan : Identity.well_sized (PlanSelection.plan_id plan) /\
            bytes_ok (Identity.bytes (PlanSelection.plan_id plan))
}.

Definition plan_record (plan : StepPlan) (tokens : list N) : CompactCompletionRecord :=
  canonical (PlanSelection.request plan) (completion_epoch plan) (PlanSelection.plan_id plan) tokens.

Lemma plan_record_encodable plan tokens :
  plan_ok plan -> 1 <= vlen tokens <= 17 -> Forall (fun t => t < QWEN3_VOCABULARY_SIZE) tokens ->
  encodable (plan_record plan tokens).
Proof.
  intros [Hs Hg He Hp] Hl Hv.
  split; cbn [plan_record canonical request epoch plan_id accepted_draft_tokens emitted_token_count];
    try done; try (unfold M1_MAX_COMPLETION_TOKENS; lia).
  split; [apply canonical_vlen; unfold M1_MAX_COMPLETION_TOKENS; lia|].
  cbn [plan_record canonical emitted_tokens]. apply Forall_app. split.
  - eapply Forall_impl; [exact Hv|]. intros t. unfold QWEN3_VOCABULARY_SIZE, u32_max. lia.
  - unfold vfill. by apply Forall_replicate.
Qed.

(** The one-token modes and the whole semantic case, as pure decisions. *)
Definition single_result (r : CompactCompletionRecord) (plan : StepPlan) (choice : option N)
    (made : N -> CheckedCompletionSemantics) :
    result CheckedCompletionSemantics CompletionWireError :=
  match authority_error r plan with
  | Err e => Err e
  | Ok _ =>
      match choice with
      | Some choice =>
          if first_token r =? choice then Ok (made (first_token r))
          else Err (DirectFinalRowMismatch choice (first_token r))
      | None => Ok (made (first_token r))
      end
  end.

Definition qualification_result (r : CompactCompletionRecord) (plan : StepPlan)
    (context : Qualification.M1ValidatedQualificationContextStepV1)
    (kind : Qualification.M1QualificationContextStepKind) (choice : option N)
    (made : N -> CheckedCompletionSemantics) :
    result CheckedCompletionSemantics CompletionWireError :=
  match validate_qualification_selection (selection plan) context with
  | Err e => Err e
  | Ok _ =>
      if decide (Qualification.kind (Qualification.step context) <> kind)
      then Err QualificationStepKindMismatch
      else single_result r plan choice made
  end.

Definition semantics_result (r : CompactCompletionRecord) (plan : StepPlan)
    (e : CompletionWireSemanticExpectation) (final_choice : option N) :
    result CheckedCompletionSemantics CompletionWireError :=
  match Graph.mode (selection plan), e with
  | (Graph.Prefill | Graph.Decode), ExpectDirectFinalRow choice =>
      single_result r plan (Some choice) DirectFinalRow
  | Graph.Decode, ExpectQualificationPromptCommit context =>
      qualification_result r plan context Qualification.TeacherForcedPromptContext None
        (fun t => QualificationPromptCommit t context)
  | Graph.Decode, ExpectQualificationFinalRow context =>
      match final_choice with
      | None => Err QualificationFinalRowRequiresLogitsEvidence
      | Some choice =>
          qualification_result r plan context Qualification.FinalObserved (Some choice)
            (fun t => QualificationFinalRow t context)
      end
  | Graph.Speculative, ExpectSpeculative draft choices =>
      match speculative_k (Graph.bucket (selection plan)) with
      | None => Err ModeSemanticsMismatch
      | Some k =>
          if negb (vlen draft =? k) then Err (SpeculativeLengthMismatch k (vlen draft))
          else
            match round_result r (PlanSelection.request plan) (completion_epoch plan)
                    (PlanSelection.plan_id plan) draft choices with
            | Err e => Err (SpeculativeError e)
            | Ok c => Ok (CheckedSpeculative (Speculation.accepted_draft_tokens c)
                            (Speculation.target_correction_or_bonus c))
            end
      end
  | _, _ => Err ModeSemanticsMismatch
  end.

Definition check_result (bytes : list N) (e : CompletionWireExpectation) (final_choice : option N) :
    result InertCheckedCompletionRecord CompletionWireError :=
  match decode_result bytes with
  | Err e => Err e
  | Ok r =>
      match Graph.validate (selection (plan e)) with
      | Err e => Err (Selection e)
      | Ok _ =>
          if negb (bool_decide (Graph.role (selection (plan e)) = Graph.Target8B)) then Err NonTargetRole
          else
            match semantics_result r (plan e) (expected_semantics e) final_choice with
            | Err e => Err e
            | Ok semantics => Ok (mkChecked r (selection (plan e)) semantics)
            end
      end
  end.

Lemma speculative_k_le b k : speculative_k b = Some k -> k <= 16.
Proof. destruct b; simpl; intros [= <-]; done. Qed.

Lemma round_result_accepted r req ep pid draft choices c :
  vlen draft <= 16 -> round_result r req ep pid draft choices = Ok c ->
  Speculation.accepted_draft_tokens c <= 16.
Proof.
  intros Hd. unfold round_result. rewrite (proj2 (N.ltb_ge _ _) Hd).
  destruct (compact_error _ _ _ _ _); [done|].
  repeat (case_match; try done). intros [= <-]. unfold greedy_commit.
  cbn [Speculation.accepted_draft_tokens]. pose proof (matched_le draft choices).
  unfold vlen in Hd. lia.
Qed.
Section checking.
Context {S : Type} (r : CompactCompletionRecord).
Hypothesis tokens_len : vlen (emitted_tokens r) = 17.

Lemma validate_single_wp plan (s : S) :
  wp (validate_single r plan) s (fun s' o => s' = s /\ o = authority_error r plan).
Proof.
  unfold validate_single, authority_error. wp_step.
  eapply wp_mono; [by apply validate_compact_completion_wp|]. intros s' o [-> ->].
  by destruct (compact_error _ _ _ _ _).
Qed.

Lemma first_token_wp (s : S) (Q : S -> N -> Prop) :
  Q s (first_token r) -> wp (slice_at (emitted_tokens r) 0) s Q.
Proof. intros HQ. eapply wp_slice_at; [apply (vget_nth 0); by rewrite tokens_len|done]. Qed.

Lemma single_wp plan choice made (s : S) :
  wp (let? _ := validate_single r plan in
      let! actual := slice_at (emitted_tokens r) 0 in
      if negb (actual =? choice) then ret (Err (DirectFinalRowMismatch choice actual))
      else ret (Ok (made actual))) s
    (fun s' o => s' = s /\ o = single_result r plan (Some choice) made).
Proof.
  unfold single_result. wp_step. eapply wp_mono; [apply validate_single_wp|]. intros s' o [-> ->].
  destruct (authority_error r plan) as [u|e]; [|done].
  wp_step. apply first_token_wp. destruct (first_token r =? choice); by apply wp_ret.
Qed.

Lemma prompt_wp plan made (s : S) :
  wp (let? _ := validate_single r plan in
      let! choice := slice_at (emitted_tokens r) 0 in ret (Ok (made choice))) s
    (fun s' o => s' = s /\ o = single_result r plan None made).
Proof.
  unfold single_result. wp_step. eapply wp_mono; [apply validate_single_wp|]. intros s' o [-> ->].
  destruct (authority_error r plan) as [u|e]; [|done].
  wp_step. apply first_token_wp. by apply wp_ret.
Qed.

End checking.

Lemma check_completion_record_wp {S : Type} bytes e final_choice (s : S) :
  wp (check_completion_record bytes e final_choice) s (fun s' o =>
    s' = s /\ o = check_result bytes e final_choice).
Proof.
  unfold check_completion_record, check_result. wp_step.
  eapply wp_mono; [apply decode_completion_record_wp|]. intros s' o [-> ->].
  destruct (decode_result bytes) as [r|err] eqn:Hdec; [|done].
  assert (Hlen : vlen (emitted_tokens r) = 17).
  { unfold decode_result in Hdec. repeat (case_match; try done). injection Hdec as <-.
    unfold vlen. cbn [fields emitted_tokens]. unfold tokens_at. by rewrite length_fmap, length_seq. }
  clear Hdec. destruct (Graph.validate _); [|by apply wp_ret].
  destruct (negb _); [by apply wp_ret|].
  wp_step. eapply wp_mono with (Q := fun s' o =>
    s' = s /\ o = semantics_result r (plan e) (expected_semantics e) final_choice).
  2:{ intros s' o [-> ->]. by destruct (semantics_result _ _ _ _). }
  unfold semantics_result, qualification_result.
  destruct (Graph.mode (selection (plan e))), (expected_semantics e) as [c|ctx|ctx|draft choices];
    try (by apply wp_ret).
  - by apply (single_wp r Hlen).
  - by apply (single_wp r Hlen).
  - destruct (validate_qualification_selection _ _); [|by apply wp_ret].
    destruct (decide _); [by apply wp_ret|]. by apply (prompt_wp r Hlen).
  - destruct final_choice as [c|]; [|by apply wp_ret].
    destruct (validate_qualification_selection _ _); [|by apply wp_ret].
    destruct (decide _); [by apply wp_ret|].
    by apply (single_wp r Hlen _ _ (fun t => QualificationFinalRow t ctx)).
  - destruct (speculative_k _) as [k|] eqn:Hk; [apply speculative_k_le in Hk|by apply wp_ret].
    destruct (N.eqb_spec (vlen draft) k) as [<-|]; [cbn [negb]|by apply wp_ret].
    wp_step. eapply wp_mono; [by apply verify_speculative_completion_wp|].
    intros s' o [-> ->]. destruct (round_result _ _ _ _ _ _) as [c|] eqn:Hc; [|done].
    apply round_result_accepted in Hc; [|done]. unfold checked_speculative_semantics.
    rewrite (proj2 (N.ltb_ge 255 _)) by lia. done.
Qed.

(** ** Acceptance, case by case *)
Definition live_tokens (tokens : list N) : Prop := Forall (fun t => t < QWEN3_VOCABULARY_SIZE) tokens.

Lemma greedy_commit_bounds draft choices :
  vlen draft <= 16 -> vlen choices = vlen draft + 1 ->
  1 <= vlen (Speculation.emitted_tokens (greedy_commit draft choices)) <= vlen draft + 1.
Proof.
  intros Hd Hl. rewrite greedy_commit_vlen by done. unfold greedy_commit.
  cbn [Speculation.accepted_draft_tokens]. pose proof (matched_le draft choices). unfold vlen. lia.
Qed.

Section acceptance.
Context (r : CompactCompletionRecord) (plan : StepPlan).
Hypothesis tokens_len : vlen (emitted_tokens r) = 17.
Hypothesis record_id : Identity.well_sized (plan_id r).
Hypothesis plan_id_sized : Identity.well_sized (PlanSelection.plan_id plan).

Lemma authority_ok t :
  authority_error r plan = Ok tt /\ first_token r = t <->
  Identity.is_present (PlanSelection.plan_id plan) = true /\ live_tokens [t] /\
  r = plan_record plan [t].
Proof.
  unfold authority_error. split.
  - destruct (compact_error _ _ _ _ _) eqn:He; [by intros [? _]|]. intros [_ <-].
    apply compact_error_None_inv in He as (Hp & _ & [Hl1 Hl2] & Hv & Hr); [|done..].
    assert (Hem : emitted r = [first_token r]).
    { destruct (emitted r) as [|x [|y l]] eqn:E; unfold vlen in Hl1, Hl2; simpl in Hl1, Hl2; try lia.
      f_equal. rewrite Hr. done. }
    rewrite Hem in Hv, Hr. done.
  - intros (Hp & Hv & ->). split; [|done].
    unfold plan_record. rewrite compact_error_canonical; done.
Qed.

Lemma single_result_ok choice made sem :
  single_result r plan choice made = Ok sem <->
  exists t, Identity.is_present (PlanSelection.plan_id plan) = true /\ live_tokens [t] /\
    r = plan_record plan [t] /\ sem = made t /\ (choice = None \/ choice = Some t).
Proof.
  unfold single_result. split.
  - destruct (authority_error r plan) as [[]|] eqn:He; [|done]. intros H.
    destruct (proj1 (authority_ok (first_token r)) (conj He eq_refl)) as (Hp & Hv & Hr).
    exists (first_token r). destruct choice as [c|]; [|injection H as <-; naive_solver].
    destruct (N.eqb_spec (first_token r) c) as [<-|]; [|done]. injection H as <-. naive_solver.
  - intros (t & Hp & Hv & Hr & -> & Hc).
    destruct (proj2 (authority_ok t) (conj Hp (conj Hv Hr))) as [-> ->].
    destruct Hc as [->| ->]; [done|]. by rewrite N.eqb_refl.
Qed.

Lemma qualification_result_ok context kind choice made sem :
  qualification_result r plan context kind choice made = Ok sem <->
  validate_qualification_selection (selection plan) context = Ok tt /\
  Qualification.kind (Qualification.step context) = kind /\
  single_result r plan choice made = Ok sem.
Proof.
  unfold qualification_result. destruct (validate_qualification_selection _ _) as [[]|]; [|naive_solver].
  case_decide; naive_solver.
Qed.

Lemma round_result_ok draft choices c :
  vlen draft <= 16 ->
  round_result r (PlanSelection.request plan) (completion_epoch plan) (PlanSelection.plan_id plan)
    draft choices = Ok c <->
  Identity.is_present (PlanSelection.plan_id plan) = true /\ vlen choices = vlen draft + 1 /\
  c = greedy_commit draft choices /\ live_tokens (Speculation.emitted_tokens c) /\
  r = plan_record plan (Speculation.emitted_tokens c).
Proof.
  intros Hd. unfold round_result. rewrite (proj2 (N.ltb_ge _ _) Hd). split.
  - destruct (compact_error _ _ _ _ _) eqn:He; [done|].
    apply compact_error_None_inv in He as (Hp & _ & _ & Hv & Hr); [|done..].
    destruct (N.eqb_spec (vlen choices) 0); [done|].
    destruct (N.eqb_spec (vlen choices) (vlen draft + 1)) as [Hl|]; cbn [negb]; [|done].
    destruct (negb _); [done|]. case_decide as Hem; [|done]. intros [= <-].
    rewrite Hem in Hv, Hr. done.
  - intros (Hp & Hl & -> & Hv & Hr).
    pose proof (greedy_commit_bounds draft choices Hd Hl) as Hb.
    assert (He : compact_error r (PlanSelection.request plan) (completion_epoch plan)
      (PlanSelection.plan_id plan) (vlen draft) = None).
    { rewrite Hr. apply compact_error_canonical; [done|lia|exact Hb|exact Hv]. }
    rewrite He, Hl. destruct (N.eqb_spec (vlen draft + 1) 0); [lia|].
    rewrite N.eqb_refl. cbn [negb].
    assert (Ha : accepted_draft_tokens r =
      Speculation.accepted_draft_tokens (greedy_commit draft choices)).
    { rewrite Hr. cbn [plan_record canonical accepted_draft_tokens].
      pose proof (greedy_commit_vlen draft choices Hl) as Hc.
      unfold Speculation.TokenId in *. lia. }
    rewrite Ha, N.eqb_refl. cbn [negb]. rewrite decide_True; [done|].
    rewrite Hr at 1. apply canonical_emitted.
Qed.

(** The semantic decision accepts exactly the canonical record of a payload. *)
Lemma semantics_result_ok e final_choice sem :
  semantics_result r plan e final_choice = Ok sem <->
  exists tokens, Identity.is_present (PlanSelection.plan_id plan) = true /\
    payload (selection plan) final_choice e tokens sem /\ live_tokens tokens /\
    r = plan_record plan tokens.
Proof.
  unfold semantics_result. split.
  - destruct (Graph.mode (selection plan)) eqn:Hm, e as [c|ctx|ctx|draft choices]; try done.
    + intros (t & Hp & Hv & Hr & -> & [|[= ->]])%single_result_ok; [done|].
      exists [t]. split_and!; [done|by constructor; rewrite Hm|done..].
    + intros (t & Hp & Hv & Hr & -> & [|[= ->]])%single_result_ok; [done|].
      exists [t]. split_and!; [done|by constructor; rewrite Hm|done..].
    + intros (Hq & Hk & (t & Hp & Hv & Hr & -> & _)%single_result_ok)%qualification_result_ok.
      exists [t]. split_and!; [done|by constructor|done..].
    + destruct final_choice as [c|]; [|done].
      intros (Hq & Hk & (t & Hp & Hv & Hr & -> & [|[= ->]])%single_result_ok)%qualification_result_ok;
        [done|]. exists [t]. split_and!; [done|by constructor|done..].
    + destruct (speculative_k _) as [k|] eqn:Hk; [|done].
      destruct (N.eqb_spec (vlen draft) k) as [<-|]; [cbn [negb]|done].
      destruct (round_result _ _ _ _ _ _) as [c|] eqn:Hc; [|done]. intros [= <-].
      apply round_result_ok in Hc as (Hp & Hl & -> & Hv & Hr); [|by eapply speculative_k_le].
      eexists. split_and!; [done|by constructor|done..].
  - intros (tokens & Hp & Hpay & Hv & Hr). destruct Hpay as
      [c Hm|ctx c Hm Hq Hk|ctx c Hm Hq Hk Hf|draft choices Hm Hk Hl].
    + destruct (Graph.mode _); [..|done]; apply single_result_ok; exists c; naive_solver.
    + rewrite Hm. apply qualification_result_ok. split_and!; [done..|].
      apply single_result_ok. exists c. naive_solver.
    + rewrite Hm, Hf. apply qualification_result_ok. split_and!; [done..|].
      apply single_result_ok. exists c. naive_solver.
    + rewrite Hm, Hk, N.eqb_refl. cbn [negb].
      rewrite (proj2 (round_result_ok draft choices (greedy_commit draft choices)
        (speculative_k_le _ _ Hk))); done.
Qed.
End acceptance.

Lemma payload_count s final_choice e tokens sem :
  payload s final_choice e tokens sem ->
  vlen tokens = raw_compact_count sem /\ 1 <= vlen tokens <= 17.
Proof.
  destruct 1 as [c|ctx c|ctx c|draft choices Hm Hk Hl]; [done..|].
  apply speculative_k_le in Hk. cbn [raw_compact_count].
  pose proof (greedy_commit_bounds draft choices Hk Hl).
  pose proof (greedy_commit_vlen draft choices Hl). unfold Speculation.TokenId in *. lia.
Qed.

Lemma payload_speculative_inv s final_choice draft choices tokens sem :
  payload s final_choice (ExpectSpeculative draft choices) tokens sem ->
  vlen draft <= 16 /\ vlen choices = vlen draft + 1 /\
  tokens = Speculation.emitted_tokens (greedy_commit draft choices) /\
  externally_published_count sem = raw_compact_count sem.
Proof. inversion 1; subst. split; [by eapply speculative_k_le|done]. Qed.

(** The records a step admits. *)
Definition admitted (plan : StepPlan) (e : CompletionWireSemanticExpectation)
    (final_choice : option N) (c : InertCheckedCompletionRecord) : Prop :=
  exists tokens,
    payload (selection plan) final_choice e tokens (checked_semantics c) /\ live_tokens tokens /\
    record c = plan_record plan tokens /\ checked_selection c = selection plan.

Definition publishable (plan : StepPlan) : Prop :=
  Graph.role (selection plan) = Graph.Target8B /\
  bucket_mode (Graph.bucket (selection plan)) = Graph.mode (selection plan) /\
  Identity.is_present (PlanSelection.plan_id plan) = true.

Lemma check_result_ok bytes plan e final_choice c :
  bytes_ok bytes -> plan_ok plan ->
  check_result bytes (mkExpectation plan e) final_choice = Ok c <->
  publishable plan /\ admitted plan e final_choice c /\ bytes = encode_record (record c).
Proof.
  intros Hok Hplan. unfold check_result, publishable, admitted. rewrite validate_spec.
  cbn [CompletionWire.plan expected_semantics]. split.
  - destruct (decode_result bytes) as [r|] eqn:Hdec; [|done].
    apply decode_result_spec in Hdec as [Henc ->]; [|done].
    destruct (decide (bucket_mode _ = _)); [|done].
    case_bool_decide as Hrole; [cbn [negb]|done].
    destruct (semantics_result _ _ _ _) as [sem|] eqn:Hsem; [|done]. intros [= <-].
    apply semantics_result_ok in Hsem as (tokens & Hp & Hpay & Hv & Hr);
      [|apply Henc|apply Henc|apply Hplan].
    split_and!; [done..| |done]. by exists tokens.
  - intros ((Hrole & Hmode & Hp) & (tokens & Hpay & Hv & Hr & Hs) & ->).
    pose proof (payload_count _ _ _ _ _ Hpay) as [_ Hcount].
    assert (Henc : encodable (record c)) by (rewrite Hr; by apply plan_record_encodable).
    rewrite (proj2 (decode_result_spec _ (record c) (encode_record_bytes_ok _ Henc))) by done.
    rewrite decide_True, bool_decide_true by done. cbn [negb].
    rewrite (proj2 (semantics_result_ok (record c) plan (proj1 (en_tokens _ Henc))
      (proj1 (en_plan _ Henc)) (proj1 (po_plan _ Hplan)) e final_choice (checked_semantics c))).
    + destruct c as [rc sel sem]. cbn in *. by subst.
    + by exists tokens.
Qed.

(** C31: checking a completion record never panics, and it accepts a byte string
    precisely when the plan is publishable (target role, a bucket of its mode,
    a present identity) and the bytes are the encoding of the canonical record
    of the step: the plan's own request, epoch and identity, the tokens the
    declared semantics admits (the final-row choice, any in-range choice while
    priming, or the greedy acceptance of the draft) and zeros after them. *)
Theorem wire_check_exact plan e final_choice bytes :
  plan_ok plan -> bytes_ok bytes ->
  exists result,
    check_completion_record bytes (mkExpectation plan e) final_choice tt = Done tt result /\
    forall c, result = Ok c <->
      publishable plan /\ admitted plan e final_choice c /\ bytes = encode_record (record c).
Proof.
  intros Hplan Hok.
  destruct (wp_done _ _ _ (check_completion_record_wp bytes (mkExpectation plan e) final_choice tt))
    as ([] & r & Hrun & _ & ->).
  eexists. split; [done|]. intros c. by apply check_result_ok.
Qed.

Definition demo_plan : StepPlan :=
  mkStepPlan demo_request demo_epoch demo_identity
    (Graph.mkSelection Graph.Target8B Graph.Speculative Graph.SpeculativeS1K4C8192).

Lemma demo_plan_ok : plan_ok demo_plan.
Proof. split; [by_decide|by_decide|by_decide|split; [done|by_decide]]. Qed.

Lemma wire_check_exact_witness :
  plan_ok demo_plan /\ bytes_ok (encode_record demo_record) /\
  exists c, check_completion_record (encode_record demo_record)
      (mkExpectation demo_plan (ExpectSpeculative [7; 11; 5; 5] [7; 11; 151935; 5; 5])) None tt
      = Done tt (Ok c) /\
    checked_semantics c = CheckedSpeculative 2 151935 /\
    admitted demo_plan (ExpectSpeculative [7; 11; 5; 5] [7; 11; 151935; 5; 5]) None c.
Proof.
  assert (Hok : bytes_ok (encode_record demo_record)) by by_decide.
  split; [exact demo_plan_ok|]. split; [exact Hok|].
  destruct (wire_check_exact demo_plan (ExpectSpeculative [7; 11; 5; 5] [7; 11; 151935; 5; 5])
    None _ demo_plan_ok Hok) as (r & Hrun & Hr).
  pose proof Hrun as Hrun'. vm_compute in Hrun'. injection Hrun' as Hrun'. rewrite <- Hrun' in *.
  eexists. split; [exact Hrun|]. split; [done|]. by apply Hr.
Defined.

(** A commit against one pass of the target emits what plain greedy decoding does. *)
Lemma greedy_commit_decodes target prefix draft :
  vlen draft < usize_max ->
  let c := greedy_commit draft (Speculation.target_pass target prefix draft) in
  Speculation.emitted_tokens c =
    Speculation.greedy_decode target prefix (S (N.to_nat (Speculation.accepted_draft_tokens c))).
Proof.
  intros Hmax. pose proof (SpeculationTheorems.round_emits target prefix draft tt Hmax) as H1.
  pose proof (verify_greedy_round_commit draft _ tt Hmax
    (SpeculationFacts.target_pass_length target prefix draft)) as H2.
  pose proof (wp_conj _ _ _ _ H1 H2) as H3.
  by apply wp_done in H3 as ([] & o & _ & (_ & c' & -> & _ & He & _) & _ & [= ->]).
Qed.

(** C32: what a checked speculative record publishes is what the target model
    decodes: if the declared choices are one pass of the target over the draft,
    every accepted record, whatever the drafter proposed, carries as its emitted
    tokens the first [externally_published_count] tokens plain greedy decoding
    emits, at least one and at most one more than the draft. *)
Theorem wire_speculation_lossless plan target prefix draft final_choice bytes :
  plan_ok plan -> bytes_ok bytes ->
  wp (check_completion_record bytes
        (mkExpectation plan (ExpectSpeculative draft (Speculation.target_pass target prefix draft)))
        final_choice) tt (fun _ r => forall c, r = Ok c ->
    1 <= externally_published_count (checked_semantics c) <= vlen draft + 1 /\
    emitted (record c) =
      Speculation.greedy_decode target prefix
        (N.to_nat (externally_published_count (checked_semantics c)))).
Proof.
  intros Hplan Hok. eapply wp_mono; [apply check_completion_record_wp|].
  intros [] o [_ ->] c Hc. apply check_result_ok in Hc as (_ & (tokens & Hpay & _ & Hr & _) & _);
    [|done..].
  pose proof (payload_count _ _ _ _ _ Hpay) as [Hcount _].
  apply payload_speculative_inv in Hpay as (Hle & Hl & -> & Hext).
  rewrite Hr. unfold plan_record. rewrite canonical_emitted.
  rewrite Hext, <- Hcount. split; [by apply greedy_commit_bounds|].
  - etransitivity; [apply greedy_commit_decodes; unfold usize_max, u64_max; lia|].
    pose proof (greedy_commit_vlen _ _ Hl) as Hv. f_equal. unfold Speculation.TokenId in *. lia.
Qed.

Lemma wire_speculation_lossless_witness :
  plan_ok demo_plan /\ bytes_ok (encode_record (plan_record demo_plan [2; 4; 8])) /\
  exists c, check_completion_record (encode_record (plan_record demo_plan [2; 4; 8]))
      (mkExpectation demo_plan (ExpectSpeculative [2; 4; 9; 9]
         (Speculation.target_pass SpeculationTheorems.toy_target [1] [2; 4; 9; 9]))) None tt
      = Done tt (Ok c) /\
    emitted (record c) = Speculation.greedy_decode SpeculationTheorems.toy_target [1] 3.
Proof.
  assert (Hok : bytes_ok (encode_record (plan_record demo_plan [2; 4; 8]))) by by_decide.
  split; [exact demo_plan_ok|]. split; [exact Hok|].
  pose proof (wire_speculation_lossless demo_plan SpeculationTheorems.toy_target [1] [2; 4; 9; 9]
    None _ demo_plan_ok Hok) as H.
  apply wp_done in H as ([] & r & Hrun & Hr).
  pose proof Hrun as Hrun'. vm_compute in Hrun'. injection Hrun' as Hrun'. rewrite <- Hrun' in *.
  eexists. split; [exact Hrun|]. destruct (Hr _ eq_refl) as [_ He]. exact He.
Defined.
