(* ===== verification/StepPublication.v ===== *)
(** [ferric-spec/src/step_plan_publication.rs]: a reserved state delta is
    validated against its step plan, directly or as a speculative round, and
    then published or discarded exactly once. *)
From S2P Require Import Prelude Spec PlanSelection M1Completion.
Local Open Scope prog_scope.

Record ReservedStateDelta := mkDelta {
  delta_request : RequestId;
  delta_completion_epoch : Completion.CompletionEpoch;
  delta_plan_id : Identity.Identity;
  delta_selection : Graph.Qwen3PlanSelection;
  accepted_token_count : N;
  delta_emitted_token_count : N;
  delta_emitted_tokens : list N
}.

Definition from_compact_completion (record : Compact.CompactCompletionRecord)
    (selection : Graph.Qwen3PlanSelection) : ReservedStateDelta :=
  mkDelta (Compact.request record) (Compact.epoch record) (Compact.plan_id record) selection
    (Compact.accepted_draft_tokens record) (Compact.emitted_token_count record)
    (Compact.emitted_tokens record).

Definition compact_completion (self : ReservedStateDelta) : Compact.CompactCompletionRecord :=
  Compact.mkCompact (delta_request self) (delta_completion_epoch self) (delta_plan_id self)
    (accepted_token_count self) (delta_emitted_token_count self) (delta_emitted_tokens self).

Inductive PublicationPhase := Unpublished | Validated | Published | Discarded.

Record StepPublication := mkPublication {
  plan : StepPlan;
  delta : ReservedStateDelta;
  phase : PublicationPhase
}.

Definition reserve (plan : StepPlan) (delta : ReservedStateDelta) : StepPublication :=
  mkPublication plan delta Unpublished.

Definition set_phase (phase : PublicationPhase) : M StepPublication unit :=
  modify (fun self => mkPublication (plan self) (delta self) phase).

Record SpeculativePublicationPermit := mkPermit {
  commit : Speculation.GreedyCommit;
  permit_accepted_draft_tokens : N
}.

Inductive StepPublicationError :=
| WrongPhase
| NonTargetPublication
| WrongValidationMode
| ExpectedPlanIdentityAbsent
| RequestMismatch
| CompletionEpochMismatch
| PlanIdentityMismatch
| Selection (error : Graph.Qwen3PlanError)
| DeltaAuthorityMismatch
| Completion (error : Compact.CompactCompletionError)
| Speculative (error : SpeculativeCompletion.SpeculativeCompletionError).

(** The authority a caller expects of a step. *)
Record Expected := mkExpected {
  expected_request : RequestId;
  expected_epoch : Spec.Completion.CompletionEpoch;
  expected_plan_id : Identity.Identity;
  expected_selection : Graph.Qwen3PlanSelection
}.

Definition is_target_publication_role (role : Graph.Qwen3ModelRole) : bool :=
  match role with Graph.Target8B => true | Graph.Draft06B => false end.

Definition is_direct_publication_mode (mode : Graph.Qwen3ExecutionMode) : bool :=
  match mode with Graph.Prefill | Graph.Decode => true | Graph.Speculative => false end.

Definition is_speculative_publication_mode (mode : Graph.Qwen3ExecutionMode) : bool :=
  match mode with Graph.Speculative => true | Graph.Prefill | Graph.Decode => false end.

Definition phase_matches (actual expected : PublicationPhase) : bool :=
  match actual, expected with
  | Unpublished, Unpublished | Validated, Validated
  | Published, Published | Discarded, Discarded => true
  | _, _ => false
  end.

Definition validate_step_plan (plan : StepPlan) (e : Expected) : result unit StepPublicationError :=
  if negb (Identity.is_present (expected_plan_id e)) then Err ExpectedPlanIdentityAbsent
  else if negb (slot (request plan) =? slot (expected_request e))
       || negb (generation (request plan) =? generation (expected_request e)) then
    Err RequestMismatch
  else if negb (Spec.Completion.value (completion_epoch plan)
                =? Spec.Completion.value (expected_epoch e)) then
    Err CompletionEpochMismatch
  else if negb (Identity.equals (plan_id plan) (expected_plan_id e)) then Err PlanIdentityMismatch
  else
    match Graph.validate (selection plan) with
    | Err error => Err (Selection error)
    | Ok _ =>
        match Graph.validate (expected_selection e) with
        | Err error => Err (Selection error)
        | Ok _ =>
            if negb (Graph.selection_matches (selection plan) (expected_selection e)) then
              Err (Selection Graph.SelectionMismatch)
            else if negb (is_target_publication_role (Graph.role (selection plan))) then
              Err NonTargetPublication
            else Ok tt
        end
    end.

Definition validate_delta_authority (delta : ReservedStateDelta) (plan : StepPlan) :
    result unit StepPublicationError :=
  if negb (slot (delta_request delta) =? slot (request plan))
     || negb (generation (delta_request delta) =? generation (request plan))
     || negb (Spec.Completion.value (delta_completion_epoch delta)
              =? Spec.Completion.value (completion_epoch plan))
     || negb (Identity.equals (delta_plan_id delta) (plan_id plan))
     || negb (Graph.selection_matches (delta_selection delta) (selection plan))
  then Err DeltaAuthorityMismatch else Ok tt.

Definition validate_direct_publication (e : Expected) :
    M StepPublication (result unit StepPublicationError) :=
  let! publication := gets id in
  if negb (phase_matches (phase publication) Unpublished) then ret (Err WrongPhase)
  else
    let? _ := ret (validate_step_plan (plan publication) e) in
    if negb (is_direct_publication_mode (Graph.mode (selection (plan publication)))) then
      ret (Err WrongValidationMode)
    else
      let? _ := ret (validate_delta_authority (delta publication) (plan publication)) in
      let record := compact_completion (delta publication) in
      let! completion_result :=
        Compact.validate_compact_completion record (request (plan publication))
          (completion_epoch (plan publication)) (plan_id (plan publication)) 0 in
      match completion_result with
      | Err error => ret (Err (Completion error))
      | Ok _ => set_phase Validated ;; ret (Ok tt)
      end.

Definition preflight_speculative_publication (e : Expected) (draft_tokens target_choices : list N) :
    M StepPublication (result SpeculativePublicationPermit StepPublicationError) :=
  let! publication := gets id in
  if negb (phase_matches (phase publication) Unpublished) then ret (Err WrongPhase)
  else
    let? _ := ret (validate_step_plan (plan publication) e) in
    if negb (is_speculative_publication_mode (Graph.mode (selection (plan publication)))) then
      ret (Err WrongValidationMode)
    else
      let? _ := ret (validate_delta_authority (delta publication) (plan publication)) in
      let record := compact_completion (delta publication) in
      let! r :=
        SpeculativeCompletion.verify_speculative_completion record (request (plan publication))
          (completion_epoch (plan publication)) (plan_id (plan publication))
          draft_tokens target_choices in
      match r with
      | Err error => ret (Err (Speculative error))
      | Ok commit => ret (Ok (mkPermit commit (Compact.accepted_draft_tokens record)))
      end.

Definition apply_preflighted_speculative_validation (permit : SpeculativePublicationPermit) :
    M StepPublication Speculation.GreedyCommit :=
  set_phase Validated ;; ret (commit permit).

Definition apply_preflighted_speculative_publication (permit : SpeculativePublicationPermit) :
    M StepPublication ReservedStateDelta :=
  set_phase Validated ;; (set_phase Published ;; gets delta).

Definition validate_speculative_publication (e : Expected) (draft_tokens target_choices : list N) :
    M StepPublication (result Speculation.GreedyCommit StepPublicationError) :=
  let? permit := preflight_speculative_publication e draft_tokens target_choices in
  let! commit := apply_preflighted_speculative_validation permit in
  ret (Ok commit).

Definition publish_reserved_delta : M StepPublication (result ReservedStateDelta StepPublicationError) :=
  let! publication := gets id in
  if negb (phase_matches (phase publication) Validated) then ret (Err WrongPhase)
  else
    set_phase Published ;; (let! d := gets delta in ret (Ok d)).

Definition discard_reserved_delta : M StepPublication (result ReservedStateDelta StepPublicationError) :=
  let! publication := gets id in
  let unpublished := phase_matches (phase publication) Unpublished in
  let validated := phase_matches (phase publication) Validated in
  if negb unpublished && negb validated then ret (Err WrongPhase)
  else
    set_phase Discarded ;; (let! d := gets delta in ret (Ok d)).
