(* ===== verification/PublicationTheorems.v ===== *)
(** Publication of a step: the operations on a reserved delta follow the
    protocol validate, then publish or discard, exactly once, and a record the
    wire checker accepted goes through it unchanged. *)
From S2P Require Import Prelude Spec Bytes PlanSelection M1Completion CompletionFacts.
From S2P Require Import CompletionWire WireFacts WireTheorems StepPublication.
Local Open Scope prog_scope.
Import CompactFacts SpeculativeFacts.

(** ** Operations and runs *)
Inductive PubOp :=
| ValidateDirect (e : Expected)
| ValidateSpeculative (e : Expected) (draft choices : list N)
| Publish
| Discard.

Inductive PubResult :=
| RUnit
| RCommit (c : Speculation.GreedyCommit)
| RDelta (d : ReservedStateDelta).

Definition run_pub_op (op : PubOp) : M StepPublication (result PubResult StepPublicationError) :=
  match op with
  | ValidateDirect e => let? _ := validate_direct_publication e in ret (Ok RUnit)
  | ValidateSpeculative e draft choices =>
      let? c := validate_speculative_publication e draft choices in ret (Ok (RCommit c))
  | Publish => let? d := publish_reserved_delta in ret (Ok (RDelta d))
  | Discard => let? d := discard_reserved_delta in ret (Ok (RDelta d))
  end.

Fixpoint run_pub_ops (ops : list PubOp) :
    M StepPublication (list (PubOp * result PubResult StepPublicationError)) :=
  match ops with
  | [] => ret []
  | op :: ops' =>
      let! r := run_pub_op op in
      let! rs := run_pub_ops ops' in
      ret ((op, r) :: rs)
  end.

Definition succeeded (rs : list (PubOp * result PubResult StepPublicationError)) : list PubOp :=
  omap (fun '(op, r) => match r with Ok _ => Some op | Err _ => None end) rs.

(** ** When an operation is enabled *)
Definition expected_of (plan : StepPlan) : Expected :=
  mkExpected (request plan) (completion_epoch plan) (plan_id plan) (selection plan).

Definition valid_for (plan : StepPlan) (delta : ReservedStateDelta) (op : PubOp) : Prop :=
  match op with
  | ValidateDirect e =>
      e = expected_of plan /\ publishable plan /\ Graph.mode (selection plan) <> Graph.Speculative /\
      delta_selection delta = selection plan /\
      exists t, live_tokens [t] /\ compact_completion delta = plan_record plan [t]
  | ValidateSpeculative e draft choices =>
      e = expected_of plan /\ publishable plan /\ Graph.mode (selection plan) = Graph.Speculative /\
      delta_selection delta = selection plan /\
      vlen draft <= 16 /\ vlen choices = vlen draft + 1 /\
      live_tokens (Speculation.emitted_tokens (greedy_commit draft choices)) /\
      compact_completion delta =
        plan_record plan (Speculation.emitted_tokens (greedy_commit draft choices))
  | _ => False
  end.

Definition enabled (p : StepPublication) (op : PubOp) : Prop :=
  match op with
  | Publish => phase p = Validated
  | Discard => phase p = Unpublished \/ phase p = Validated
  | _ => phase p = Unpublished /\ valid_for (StepPublication.plan p) (delta p) op
  end.

Definition phase_after (op : PubOp) : PublicationPhase :=
  match op with Publish => Published | Discard => Discarded | _ => Validated end.

Definition outcome_of (p : StepPublication) (op : PubOp) : PubResult :=
  match op with
  | ValidateDirect _ => RUnit
  | ValidateSpeculative _ draft choices => RCommit (greedy_commit draft choices)
  | Publish | Discard => RDelta (delta p)
  end.

(** One operation: refused without effect, or enabled and its phase set. *)
Definition pub_step (p : StepPublication) (op : PubOp) (p' : StepPublication)
    (r : result PubResult StepPublicationError) : Prop :=
  match r with
  | Ok v => enabled p op /\ v = outcome_of p op /\
            p' = mkPublication (StepPublication.plan p) (delta p) (phase_after op)
  | Err _ => ~ enabled p op /\ p' = p
  end.

(** Operands whose arrays have their Rust sizes. *)
Definition op_sized (op : PubOp) : Prop :=
  match op with
  | ValidateDirect e | ValidateSpeculative e _ _ => Identity.well_sized (expected_plan_id e)
  | _ => True
  end.

Definition sized (plan : StepPlan) (delta : ReservedStateDelta) : Prop :=
  vlen (delta_emitted_tokens delta) = 17 /\ Identity.well_sized (delta_plan_id delta) /\
  Identity.well_sized (plan_id plan).

(** ** The validators as decisions *)
Lemma request_eqb (a b : RequestId) :
  negb (slot a =? slot b) || negb (generation a =? generation b) = bool_decide (a <> b).
Proof.
  destruct a as [s g], b as [s' g']. simpl.
  destruct (N.eqb_spec s s'), (N.eqb_spec g g'); subst; simpl; symmetry;
    (apply bool_decide_eq_true; congruence) || (apply bool_decide_eq_false; naive_solver).
Qed.

Lemma identity_eq a b :
  Identity.well_sized a -> Identity.well_sized b -> Identity.equals a b = true <-> a = b.
Proof.
  unfold Identity.well_sized, Identity.equals. intros Ha Hb.
  rewrite IdentityFacts.equals_from_spec by congruence. destruct a, b. simpl. naive_solver.
Qed.

Lemma validate_step_plan_ok plan e :
  Identity.well_sized (plan_id plan) -> Identity.well_sized (expected_plan_id e) ->
  validate_step_plan plan e = Ok tt <-> e = expected_of plan /\ publishable plan.
Proof.
  intros Hp He. unfold validate_step_plan, publishable. rewrite request_eqb, !validate_spec. split.
  - destruct (Identity.is_present _) eqn:Hpres; [cbn [negb]|done].
    case_bool_decide as Hreq; [done|].
    destruct (N.eqb_spec (Completion.value (completion_epoch plan))
      (Completion.value (expected_epoch e))) as [Hep|]; [cbn [negb]|done].
    destruct (Identity.equals _ _) eqn:Hid; [cbn [negb]|done]. apply identity_eq in Hid; [|done..].
    destruct (decide (_ = Graph.mode (selection plan))); [|done].
    destruct (decide _); [|done].
    destruct (Graph.selection_matches _ _) eqn:Hsel; [cbn [negb]|done].
    apply selection_matches_spec in Hsel.
    destruct (Graph.role (selection plan)) eqn:Hrole; [|done]. intros _.
    destruct e as [er [ee] ei es], plan as [pr [pe] pi ps]. simpl in *. by subst.
  - intros (-> & Hrole & Hmode & Hpres). unfold expected_of. cbn.
    rewrite Hpres, bool_decide_eq_false_2, N.eqb_refl, decide_True by naive_solver.
    rewrite (proj2 (identity_eq _ _ Hp Hp) eq_refl), (proj2 (selection_matches_spec _ _) eq_refl).
    by rewrite Hrole.
Qed.

Lemma validate_delta_authority_ok plan delta :
  Identity.well_sized (plan_id plan) -> Identity.well_sized (delta_plan_id delta) ->
  validate_delta_authority delta plan = Ok tt <->
  delta_request delta = request plan /\ delta_completion_epoch delta = completion_epoch plan /\
  delta_plan_id delta = plan_id plan /\ delta_selection delta = selection plan.
Proof.
  intros Hp Hd. unfold validate_delta_authority. rewrite request_eqb. split.
  - case_bool_decide as Hreq; [done|]. cbn [orb].
    destruct (N.eqb_spec (Completion.value (delta_completion_epoch delta))
      (Completion.value (completion_epoch plan))) as [Hep|]; [cbn [negb orb]|done].
    destruct (Identity.equals _ _) eqn:Hid; [cbn [negb orb]|done].
    apply identity_eq in Hid; [|done..].
    destruct (Graph.selection_matches _ _) eqn:Hsel; [|done].
    apply selection_matches_spec in Hsel. intros _. split_and!; [done| |done..].
    destruct (delta_completion_epoch delta), (completion_epoch plan). simpl in Hep. by subst.
  - intros (Hr & He & Hi & Hs). rewrite Hr, He, Hi, Hs, bool_decide_eq_false_2, N.eqb_refl by naive_solver.
    rewrite (proj2 (identity_eq _ _ Hp Hp) eq_refl).
    by rewrite (proj2 (selection_matches_spec _ _) eq_refl).
Qed.

Lemma phase_unpublished ph : phase_matches ph Unpublished = true <-> ph = Unpublished.
Proof. by destruct ph. Qed.

Lemma plan_record_inj plan plan' t t' :
  plan_record plan [t] = plan_record plan' [t'] -> t = t'.
Proof. unfold plan_record, canonical. naive_solver. Qed.

(** A delta that carries a record of the plan carries the plan's authority. *)
Lemma compact_completion_authority plan delta tokens :
  compact_completion delta = plan_record plan tokens ->
  delta_request delta = request plan /\ delta_completion_epoch delta = completion_epoch plan /\
  delta_plan_id delta = plan_id plan.
Proof. destruct delta. unfold compact_completion, plan_record, canonical. simpl. naive_solver. Qed.

Section one_op.
Context (p : StepPublication).
Hypothesis p_sized : sized (StepPublication.plan p) (delta p).

Lemma validate_direct_wp e :
  Identity.well_sized (expected_plan_id e) ->
  wp (validate_direct_publication e) p (fun p' r =>
    match r with
    | Ok _ => enabled p (ValidateDirect e) /\
              p' = mkPublication (StepPublication.plan p) (delta p) Validated
    | Err _ => ~ enabled p (ValidateDirect e) /\ p' = p
    end).
Proof.
  intros He. destruct p_sized as (Htok & Hdid & Hpid). unfold validate_direct_publication.
  wp_step. apply wp_gets. unfold id.
  destruct (phase_matches (phase p) Unpublished) eqn:Hph; cbn [negb].
  2:{ apply wp_ret. split; [|done]. intros [Hu _]. by rewrite Hu in Hph. }
  apply phase_unpublished in Hph. wp_step. apply wp_ret.
  destruct (validate_step_plan _ e) as [[]|err] eqn:Hplan.
  2:{ split; [|done]. intros (_ & -> & Hpub & _).
      by rewrite (proj2 (validate_step_plan_ok _ _ Hpid He) (conj eq_refl Hpub)) in Hplan. }
  apply validate_step_plan_ok in Hplan as [-> Hpub]; [|done..].
  destruct (is_direct_publication_mode _) eqn:Hm; cbn [negb].
  2:{ apply wp_ret. split; [|done]. intros (_ & _ & _ & Hm' & _). by destruct (Graph.mode _). }
  wp_step. apply wp_ret.
  destruct (validate_delta_authority _ _) as [[]|err] eqn:Hauth.
  2:{ split; [|done]. intros (_ & _ & _ & _ & Hsel & t & _ & Hr).
      apply compact_completion_authority in Hr as (H1 & H2 & H3).
      by rewrite (proj2 (validate_delta_authority_ok _ _ Hpid Hdid) (conj H1 (conj H2 (conj H3 Hsel))))
        in Hauth. }
  apply validate_delta_authority_ok in Hauth as (_ & _ & _ & Hsel); [|done..].
  wp_step. eapply wp_mono; [by apply validate_compact_completion_wp|]. intros p' o [-> ->].
  pose proof (authority_ok (compact_completion (delta p)) (StepPublication.plan p) Htok Hdid Hpid) as Hok.
  unfold authority_error in Hok.
  destruct (compact_error _ _ _ _ _) as [err|]; simpl.
  - split; [|done]. intros (_ & _ & _ & _ & _ & t & Hv & Hr).
    destruct (proj2 (Hok t)) as [? _]; [|done]. destruct Hpub as (_ & _ & Hpres). done.
  - destruct (proj1 (Hok _) (conj eq_refl eq_refl)) as (_ & Hv & Hr).
    split; [|done]. split; [done|]. split_and!; [done..| |done|].
    + by destruct (Graph.mode _).
    + by eexists.
Qed.

Lemma preflight_speculative_wp e draft choices :
  Identity.well_sized (expected_plan_id e) ->
  wp (preflight_speculative_publication e draft choices) p (fun p' r => p' = p /\
    match r with
    | Ok permit => enabled p (ValidateSpeculative e draft choices) /\
                   commit permit = greedy_commit draft choices
    | Err _ => ~ enabled p (ValidateSpeculative e draft choices)
    end).
Proof.
  intros He. destruct p_sized as (Htok & Hdid & Hpid). unfold preflight_speculative_publication.
  wp_step. apply wp_gets. unfold id.
  destruct (phase_matches (phase p) Unpublished) eqn:Hph; cbn [negb].
  2:{ apply wp_ret. split; [done|]. intros [Hu _]. by rewrite Hu in Hph. }
  apply phase_unpublished in Hph. wp_step. apply wp_ret.
  destruct (validate_step_plan _ e) as [[]|err] eqn:Hplan.
  2:{ split; [done|]. intros (_ & -> & Hpub & _).
      by rewrite (proj2 (validate_step_plan_ok _ _ Hpid He) (conj eq_refl Hpub)) in Hplan. }
  apply validate_step_plan_ok in Hplan as [-> Hpub]; [|done..].
  destruct (is_speculative_publication_mode _) eqn:Hm; cbn [negb].
  2:{ apply wp_ret. split; [done|]. intros (_ & _ & _ & Hm' & _). by rewrite Hm' in Hm. }
  wp_step. apply wp_ret.
  destruct (validate_delta_authority _ _) as [[]|err] eqn:Hauth.
  2:{ split; [done|]. intros (_ & _ & _ & _ & Hsel & _ & _ & _ & Hr).
      apply compact_completion_authority in Hr as (H1 & H2 & H3).
      by rewrite (proj2 (validate_delta_authority_ok _ _ Hpid Hdid) (conj H1 (conj H2 (conj H3 Hsel))))
        in Hauth. }
  apply validate_delta_authority_ok in Hauth as (_ & _ & _ & Hsel); [|done..].
  wp_step. eapply wp_mono; [by apply verify_speculative_completion_wp|]. intros p' o [-> ->].
  pose proof (round_result_ok (compact_completion (delta p)) (StepPublication.plan p) Htok Hdid Hpid
    draft choices) as Hok.
  destruct (round_result _ _ _ _ _ _) as [c|err] eqn:Hr; simpl.
  - assert (Hd : vlen draft <= 16).
    { destruct (N.ltb_spec 16 (vlen draft)) as [Hgt|]; [|done].
      unfold round_result in Hr. by rewrite (proj2 (N.ltb_lt _ _) Hgt) in Hr. }
    destruct (proj1 (Hok c Hd) eq_refl) as (_ & Hl & -> & Hv & Hrec).
    split; [done|]. split; [|done]. split; [done|]. split_and!; try done.
    by destruct (Graph.mode _).
  - split; [done|]. intros (_ & _ & _ & _ & _ & Hd & Hl & Hv & Hrec).
    destruct Hpub as (_ & _ & Hpres).
    by pose proof (proj2 (Hok _ Hd) (conj Hpres (conj Hl (conj eq_refl (conj Hv Hrec))))).
Qed.

Lemma run_pub_op_wp op :
  op_sized op -> wp (run_pub_op op) p (fun p' r => pub_step p op p' r).
Proof.
  destruct op as [e|e draft choices| |]; intros Hop; cbn [run_pub_op].
  - wp_step. eapply wp_mono; [by apply validate_direct_wp|]. intros p' [[]|err]; [|done].
    intros [Hen ->]. by apply wp_ret.
  - unfold validate_speculative_publication. do 2 wp_step.
    eapply wp_mono; [by apply preflight_speculative_wp|]. intros p' [permit|err] [-> Hp]; [|done].
    destruct Hp as [Hen Hc]. unfold apply_preflighted_speculative_validation, set_phase.
    wp_steps. rewrite Hc. done.
  - unfold publish_reserved_delta. wp_step. wp_step. apply wp_gets. unfold id.
    destruct (phase p) eqn:Hph; cbn; try (split; [by rewrite Hph|done]).
  - unfold discard_reserved_delta. wp_step. wp_step. apply wp_gets. unfold id.
    destruct (phase p) eqn:Hph; cbn; split; auto; rewrite Hph; by intros [|].
Qed.
End one_op.

(** ** Runs *)

(** What can still succeed, in order, from a phase. *)
Definition protocol (plan : StepPlan) (delta : ReservedStateDelta) (ph : PublicationPhase)
    (ops : list PubOp) : Prop :=
  match ph with
  | Unpublished =>
      ops = [] \/ ops = [Discard] \/
      exists v, valid_for plan delta v /\ ops `prefix_of` [v; Publish] \/
                valid_for plan delta v /\ ops = [v; Discard]
  | Validated => ops = [] \/ ops = [Publish] \/ ops = [Discard]
  | Published | Discarded => ops = []
  end.

Definition released (rs : list (PubOp * result PubResult StepPublicationError)) :
    list ReservedStateDelta :=
  omap (fun '(_, r) => match r with Ok (RDelta d) => Some d | _ => None end) rs.

Lemma protocol_step plan delta ph op ops :
  enabled (mkPublication plan delta ph) op -> protocol plan delta (phase_after op) ops ->
  protocol plan delta ph (op :: ops).
Proof.
  destruct op as [e|e d c| |]; cbn [enabled phase StepPublication.plan StepPublication.delta phase_after].
  - intros [-> Hv] Hops. right. right. exists (ValidateDirect e).
    destruct Hops as [->|[->| ->]]; [left|left|by right]; split; try done; by repeat econstructor.
  - intros [-> Hv] Hops. right. right. exists (ValidateSpeculative e d c).
    destruct Hops as [->|[->| ->]]; [left|left|by right]; split; try done; by repeat econstructor.
  - intros -> ->. right. by left.
  - intros [-> | ->] ->; right; [by left|by right].
Qed.

Lemma protocol_nil plan delta ph : protocol plan delta ph [].
Proof. destruct ph; simpl; auto. Qed.

Lemma run_pub_ops_wp ops : forall p,
  sized (StepPublication.plan p) (delta p) -> Forall op_sized ops ->
  wp (run_pub_ops ops) p (fun p' rs =>
    StepPublication.plan p' = StepPublication.plan p /\ delta p' = delta p /\
    rs.*1 = ops /\ protocol (StepPublication.plan p) (delta p) (phase p) (succeeded rs) /\
    Forall (eq (delta p)) (released rs)).
Proof.
  induction ops as [|op ops IH]; intros p Hp Hops; cbn [run_pub_ops].
  { apply wp_ret. split_and!; auto using protocol_nil. }
  apply Forall_cons in Hops as [Hop Hops].
  wp_step. eapply wp_mono; [by apply run_pub_op_wp|]. intros p' [v|err]; cbn [pub_step].
  - intros (Hen & -> & ->). wp_step. eapply wp_mono; [by apply IH|].
    cbn [StepPublication.plan delta phase]. intros p' rs (Hpl & Hd & Hrs & Hprot & Hrel).
    apply wp_ret. split_and!; [done..|by rewrite fmap_cons, Hrs| |].
    + destruct p as [pl d ph]. by apply protocol_step.
    + unfold released in *. destruct op; cbn; try done; by constructor.
  - intros [_ ->]. wp_step. eapply wp_mono; [by apply IH|].
    intros p' rs (Hpl & Hd & Hrs & Hprot & Hrel). apply wp_ret.
    split_and!; [done..|by rewrite fmap_cons, Hrs|done|done].
Qed.

(** C33: a reserved delta is published at most once and never unchecked: whatever
    operations are applied to it, in any order, none panics, the plan and the
    delta never change, every delta handed out is the reserved one, and the
    operations that succeed are, in order, at most one validation for which the
    delta really carries the canonical record of the plan, followed by at most
    one publication or discard. *)
Theorem publication_protocol plan delta ops :
  sized plan delta -> Forall op_sized ops ->
  exists p rs, run_pub_ops ops (reserve plan delta) = Done p rs /\
    StepPublication.plan p = plan /\ StepPublication.delta p = delta /\ rs.*1 = ops /\
    protocol plan delta Unpublished (succeeded rs) /\ Forall (eq delta) (released rs).
Proof.
  intros Hp Hops. by apply wp_done, (run_pub_ops_wp ops (reserve plan delta)).
Qed.

Definition demo_delta : ReservedStateDelta :=
  from_compact_completion demo_record (selection demo_plan).

Definition demo_ops : list PubOp :=
  [Publish; ValidateDirect (expected_of demo_plan);
   ValidateSpeculative (expected_of demo_plan) [7; 11; 5; 5] [7; 11; 151935; 5; 5];
   Publish; Discard; Publish].

Lemma publication_protocol_witness :
  sized demo_plan demo_delta /\ Forall op_sized demo_ops /\
  exists p rs, run_pub_ops demo_ops (reserve demo_plan demo_delta) = Done p rs /\
    succeeded rs =
      [ValidateSpeculative (expected_of demo_plan) [7; 11; 5; 5] [7; 11; 151935; 5; 5]; Publish] /\
    protocol demo_plan demo_delta Unpublished (succeeded rs).
Proof.
  assert (Hp : sized demo_plan demo_delta) by done.
  assert (Hops : Forall op_sized demo_ops) by (repeat constructor).
  split; [exact Hp|]. split; [exact Hops|].
  destruct (publication_protocol demo_plan demo_delta demo_ops Hp Hops)
    as (p & rs & Hrun & _ & _ & _ & Hprot & _).
  pose proof Hrun as Hrun'. vm_compute in Hrun'. injection Hrun' as Hp' Hrs. rewrite <- Hrs in *.
  exists p. eexists. split; [exact Hrun|]. split; [done|exact Hprot].
Defined.

(** ** From the wire to publication *)
Definition validation_for (plan : StepPlan) (e : CompletionWireSemanticExpectation) : PubOp :=
  match e with
  | ExpectSpeculative draft choices => ValidateSpeculative (expected_of plan) draft choices
  | _ => ValidateDirect (expected_of plan)
  end.

Lemma admitted_valid plan e final_choice c :
  publishable plan -> admitted plan e final_choice c ->
  valid_for plan (from_compact_completion (record c) (checked_selection c)) (validation_for plan e).
Proof.
  intros Hpub (tokens & Hpay & Hv & Hr & Hs).
  assert (Hrec : compact_completion (from_compact_completion (record c) (checked_selection c)) =
    plan_record plan tokens) by (rewrite <- Hr; by destruct (record c)).
  destruct Hpay as [t Hm|ctx t Hm Hq Hk|ctx t Hm Hq Hk Hf|draft choices Hm Hk Hl];
    cbn [validation_for valid_for].
  - split_and!; [done..|by exists t].
  - split_and!; [done|done|by rewrite Hm|done|by exists t].
  - split_and!; [done|done|by rewrite Hm|done|by exists t].
  - split_and!; try done. by eapply speculative_k_le.
Qed.

(** C34: the wire checker and the publication agree: every record the checker
    accepts for a step goes through reservation, validation and publication of
    that same step without an error, and what is published is exactly the
    record the device wrote. *)
Theorem checked_record_publishes plan e final_choice bytes c :
  plan_ok plan -> bytes_ok bytes ->
  check_completion_record bytes (mkExpectation plan e) final_choice tt = Done tt (Ok c) ->
  exists p r delta,
    run_pub_ops [validation_for plan e; Publish]
      (reserve plan (from_compact_completion (record c) (checked_selection c))) =
    Done p [(validation_for plan e, Ok r); (Publish, Ok (RDelta delta))] /\
    compact_completion delta = record c /\ encode_record (compact_completion delta) = bytes.
Proof.
  intros Hplan Hok Hrun.
  pose proof (check_completion_record_wp bytes (mkExpectation plan e) final_choice tt) as Hwp.
  unfold wp in Hwp. rewrite Hrun in Hwp. destruct Hwp as [_ Hc]. symmetry in Hc.
  apply check_result_ok in Hc as (Hpub & Hadm & Hbytes); [|done..].
  pose proof (admitted_valid _ _ _ _ Hpub Hadm) as Hvalid.
  set (d := from_compact_completion (record c) (checked_selection c)) in *.
  assert (Hd : compact_completion d = record c) by (unfold d; by destruct (record c)).
  assert (Hsized : sized plan d).
  { destruct Hadm as (tokens & Hpay & _ & Hr & _). apply payload_count in Hpay as [_ Hl].
    unfold d. rewrite Hr. split; [by apply canonical_vlen; unfold M1_MAX_COMPLETION_TOKENS; lia|].
    split; apply Hplan. }
  assert (Hop : op_sized (validation_for plan e)) by (destruct e; apply Hplan).
  destruct (wp_done _ _ _ (run_pub_op_wp (reserve plan d) Hsized _ Hop)) as (p1 & r1 & H1 & Hs1).
  destruct r1 as [v1|]; [|destruct Hs1 as [[] _]; by destruct e]. destruct Hs1 as (_ & -> & ->).
  assert (Hph : phase_after (validation_for plan e) = Validated) by by destruct e.
  rewrite Hph in H1.
  destruct (wp_done _ _ _ (run_pub_op_wp (mkPublication plan d Validated) Hsized Publish I))
    as (p2 & r2 & H2 & Hs2).
  destruct r2 as [v2|]; [|by destruct Hs2 as [[] _]]. destruct Hs2 as (_ & -> & ->).
  eexists _, _, d. split_and!; [|done|by rewrite Hd].
  cbn [run_pub_ops]. unfold bind. rewrite H1. cbn [StepPublication.plan StepPublication.delta reserve].
  rewrite H2. done.
Qed.

Lemma checked_record_publishes_witness :
  exists c p r delta,
    run_pub_ops [ValidateSpeculative (expected_of demo_plan) [7; 11; 5; 5] [7; 11; 151935; 5; 5]; Publish]
      (reserve demo_plan (from_compact_completion (record c) (checked_selection c))) =
    Done p [(ValidateSpeculative (expected_of demo_plan) [7; 11; 5; 5] [7; 11; 151935; 5; 5], Ok r);
            (Publish, Ok (RDelta delta))] /\
    compact_completion delta = demo_record.
Proof.
  destruct (checked_record_publishes demo_plan (ExpectSpeculative [7; 11; 5; 5] [7; 11; 151935; 5; 5])
    None (encode_record demo_record)
    (mkChecked demo_record (selection demo_plan) (CheckedSpeculative 2 151935)))
    as (p & r & d & Hrun & Hd & _).
  - exact demo_plan_ok.
  - by_decide.
  - by vm_compute.
  - by eexists _, p, r, d.
Defined.
