(* ===== verification/ArgmaxTheorems.v ===== *)
(** The argmax scans of [m1_completion.rs]: the integer key orders BF16
    encodings as the numbers they denote, and the scan returns the lowest token
    of the largest number. *)
From S2P Require Import Prelude Bytes M1Completion.
Local Open Scope prog_scope.
Import Argmax.

(** ** The number a BF16 encoding denotes

    One sign bit, eight exponent bits, seven mantissa bits; the value is scaled
    by [2 ^ 133] so that subnormals are integers.  [None] is an infinity or a
    NaN. *)
Definition bf16_magnitude (m : N) : N :=
  let exponent := m / 128 in
  let mantissa := m mod 128 in
  if exponent =? 0 then mantissa else (128 + mantissa) * 2 ^ (exponent - 1).

Definition bf16_value (bits : N) : option Z :=
  let sign := bits / 32768 in
  let m := bits mod 32768 in
  if m / 128 =? 255 then None
  else if sign =? 0 then Some (Z.of_N (bf16_magnitude m))
  else Some (- Z.of_N (bf16_magnitude m))%Z.

Lemma bf16_magnitude_succ m : bf16_magnitude m < bf16_magnitude (m + 1).
Proof.
  unfold bf16_magnitude. pose proof (N.div_mod m 128 ltac:(lia)) as Hm.
  pose proof (N.mod_lt m 128 ltac:(lia)) as Hf.
  remember (m / 128) as e eqn:He. remember (m mod 128) as f eqn:Hfe. clear He Hfe.
  destruct (N.lt_ge_cases f 127) as [Hlt|Hge].
  - rewrite <- (N.div_unique (m + 1) 128 e (f + 1)), <- (N.mod_unique (m + 1) 128 e (f + 1)) by lia.
    destruct (e =? 0); [lia|]. apply N.mul_lt_mono_pos_r; [|lia].
    apply N.neq_0_lt_0, N.pow_nonzero. lia.
  - assert (f = 127) as -> by lia.
    rewrite <- (N.div_unique (m + 1) 128 (e + 1) 0), <- (N.mod_unique (m + 1) 128 (e + 1) 0) by lia.
    rewrite (proj2 (N.eqb_neq (e + 1) 0)) by lia. rewrite N.add_sub.
    destruct (N.eqb_spec e 0) as [->|He]; [done|].
    replace e with (N.succ (e - 1)) at 2 by lia. rewrite N.pow_succ_r by lia.
    assert (2 ^ (e - 1) <> 0) by (apply N.pow_nonzero; lia). lia.
Qed.

Lemma bf16_magnitude_lt m m' : m < m' -> bf16_magnitude m < bf16_magnitude m'.
Proof.
  intros H. replace m' with (m + 1 + (m' - m - 1)) by lia.
  induction (m' - m - 1) as [|k IH] using N.peano_ind.
  - rewrite N.add_0_r. apply bf16_magnitude_succ.
  - etransitivity; [exact IH|]. replace (m + 1 + N.succ k) with (m + 1 + k + 1) by lia.
    apply bf16_magnitude_succ.
Qed.

Lemma bf16_magnitude_compare m m' : (bf16_magnitude m ?= bf16_magnitude m') = (m ?= m').
Proof.
  destruct (N.compare_spec m m') as [->|H|H].
  - apply N.compare_refl.
  - by apply N.compare_lt_iff, bf16_magnitude_lt.
  - by apply N.compare_gt_iff, bf16_magnitude_lt.
Qed.

Lemma bf16_magnitude_0 : bf16_magnitude 0 = 0.
Proof. done. Qed.

(** The sign applied to a magnitude or to its rank is an order embedding. *)
Lemma signed_compare (s s' : bool) (f : N -> N) a b :
  f 0 = 0 -> (forall x y, (f x ?= f y) = (x ?= y)) ->
  ((if s then Z.of_N (f a) else - Z.of_N (f a)) < (if s' then Z.of_N (f b) else - Z.of_N (f b)))%Z <->
  ((if s then Z.of_N a else - Z.of_N a) < (if s' then Z.of_N b else - Z.of_N b))%Z.
Proof.
  intros H0 Hf.
  assert (Hlt : forall x y, f x < f y <-> x < y) by (intros x y; unfold N.lt; by rewrite Hf).
  pose proof (Hlt a b). pose proof (Hlt b a). pose proof (Hlt 0 a). pose proof (Hlt 0 b).
  rewrite H0 in *. destruct s, s'; lia.
Qed.

Lemma key_none bits : finite_bf16_order_key bits = None <-> bf16_value bits = None.
Proof.
  unfold finite_bf16_order_key, bf16_value.
  pose proof (N.mod_lt bits 32768 ltac:(lia)) as Hm.
  destruct (N.leb_spec 32640 (bits mod 32768)) as [Hge|Hlt].
  - rewrite <- (N.div_unique (bits mod 32768) 128 255 (bits mod 32768 - 32640)) by lia. done.
  - assert (bits mod 32768 / 128 < 255) by (apply N.Div0.div_lt_upper_bound; lia).
    rewrite (proj2 (N.eqb_neq _ 255)) by lia. by repeat case_match.
Qed.

(** The key decides the order of the denoted numbers. *)
Lemma key_order a b ka kb va vb :
  a < 65536 -> b < 65536 ->
  finite_bf16_order_key a = Some ka -> finite_bf16_order_key b = Some kb ->
  bf16_value a = Some va -> bf16_value b = Some vb ->
  (ka < kb <-> va < vb)%Z.
Proof.
  assert (Hsign : forall x, x < 65536 -> (x <? 32768) = (x / 32768 =? 0)).
  { intros x Hx. destruct (N.ltb_spec x 32768) as [H|H].
    - by rewrite N.div_small.
    - rewrite <- (N.div_unique x 32768 1 (x - 32768)) by lia. done. }
  intros Ha Hb. unfold finite_bf16_order_key, bf16_value.
  rewrite (Hsign a Ha), (Hsign b Hb).
  destruct (32640 <=? a mod 32768); [done|]. destruct (32640 <=? b mod 32768); [done|].
  destruct (a mod 32768 / 128 =? 255); [done|]. destruct (b mod 32768 / 128 =? 255); [done|].
  pose proof (signed_compare (a / 32768 =? 0) (b / 32768 =? 0) bf16_magnitude (a mod 32768) (b mod 32768)
    bf16_magnitude_0 bf16_magnitude_compare) as Hs.
  destruct (a / 32768 =? 0), (b / 32768 =? 0); intros [= <-] [= <-] [= <-] [= <-]; by rewrite Hs.
Qed.

(** ** The scan *)

(** Entry [i] of a row of little-endian BF16 encodings. *)
Definition row_bits (bytes : list N) (i : N) : N :=
  vnth 0 bytes (2 * i) + 256 * vnth 0 bytes (2 * i + 1).

(** [best] is the lowest index below [n] of a largest entry under [rank]. *)
Definition lowest_max (rank : N -> option Z) (n best : N) : Prop :=
  best < n /\ exists v, rank best = Some v /\
    forall i, i < n -> exists w, rank i = Some w /\ (w <= v)%Z /\ (i < best -> (w < v)%Z).

Lemma lowest_max_extend rank n best v w :
  lowest_max rank n best -> rank best = Some v -> rank n = Some w ->
  lowest_max rank (n + 1) (if (v <? w)%Z then n else best).
Proof.
  intros (Hb & v' & Hv & Hall) Hv' Hw. rewrite Hv in Hv'. injection Hv' as ->.
  destruct (Z.ltb_spec v w) as [Hlt|Hge].
  - split; [lia|]. exists w. split; [done|]. intros i Hi.
    destruct (decide (i = n)) as [->|Hne]; [exists w; split_and!; [done|lia|lia]|].
    destruct (Hall i ltac:(lia)) as (x & Hx & Hle & _). exists x. split_and!; [done|lia|lia].
  - split; [lia|]. exists v. split; [done|]. intros i Hi.
    destruct (decide (i = n)) as [->|Hne]; [exists w; split_and!; [done|lia|lia]|].
    exact (Hall i ltac:(lia)).
Qed.

Lemma lowest_max_first rank v : rank 0 = Some v -> lowest_max rank 1 0.
Proof.
  intros Hv. split; [lia|]. exists v. split; [done|]. intros i Hi.
  assert (i = 0) as -> by lia. exists v. split_and!; [done|lia|lia].
Qed.

Section scan.
Context (bytes : list N).
Hypothesis row_ok : bytes_ok bytes.
Hypothesis row_len : vlen bytes = 2 * QWEN3_VOCABULARY_SIZE.

Local Definition row_key (i : N) : option Z := finite_bf16_order_key (row_bits bytes i).

Lemma row_byte i : i < vlen bytes -> vnth 0 bytes i < 256.
Proof. intros Hi. exact (Forall_lookup_1 byte_ok _ _ _ row_ok (vget_nth 0 _ _ Hi)). Qed.

Lemma row_bits_lt i : i < QWEN3_VOCABULARY_SIZE -> row_bits bytes i < 65536.
Proof.
  intros Hi. unfold row_bits.
  pose proof (row_byte (2 * i) ltac:(lia)). pose proof (row_byte (2 * i + 1) ltac:(lia)). lia.
Qed.

Definition scan_spec (r : result N FiniteBf16ArgmaxError) : Prop :=
  match r with
  | Ok token => lowest_max row_key QWEN3_VOCABULARY_SIZE token
  | Err (NonFinite token) =>
      token < QWEN3_VOCABULARY_SIZE /\ row_key token = None /\ forall i, i < token -> row_key i <> None
  | Err RowExtent => False
  end.

Lemma bf16_scan_wp {S : Type} fuel : forall index best best_value (s : S),
  index <= QWEN3_VOCABULARY_SIZE -> QWEN3_VOCABULARY_SIZE - index <= N.of_nat fuel ->
  (index = 0 \/ lowest_max row_key index best /\ row_key best = Some best_value) ->
  wp (bf16_scan fuel bytes index best best_value) s (fun s' r => s' = s /\ scan_spec r).
Proof.
  assert (Hdone : forall index best bv, index = QWEN3_VOCABULARY_SIZE ->
    (index = 0 \/ lowest_max row_key index best /\ row_key best = Some bv) -> scan_spec (Ok best)).
  { intros index best bv -> [|[? _]]; done. }
  induction fuel as [|fuel IH]; intros index best bv s Hi Hf Hinv; cbn [bf16_scan].
  { apply wp_ret. split; [done|]. apply (Hdone index best bv); [lia|done]. }
  destruct (N.ltb_spec index QWEN3_VOCABULARY_SIZE) as [Hlt|Hge].
  2:{ apply wp_ret. split; [done|]. apply (Hdone index best bv); [lia|done]. }
  pose proof (row_byte (2 * index) ltac:(lia)) as Hb0.
  pose proof (row_byte (2 * index + 1) ltac:(lia)) as Hb1.
  pose proof row_len as Hlen.
  wp_step. apply wp_mul_w; [unfold usize_max, u64_max, QWEN3_VOCABULARY_SIZE in *; lia|].
  wp_step. eapply wp_slice_at; [apply (vget_nth 0); lia|].
  wp_step. apply wp_add_usize; [unfold usize_max, u64_max, QWEN3_VOCABULARY_SIZE in *; lia|].
  wp_step. eapply wp_slice_at; [apply (vget_nth 0); lia|].
  wp_step. apply wp_mul_w; [lia|]. wp_step. apply wp_add_w; [lia|].
  replace (vnth 0 bytes (2 * index) + vnth 0 bytes (2 * index + 1) * 256) with (row_bits bytes index)
    by (unfold row_bits; lia).
  fold (row_key index). destruct (row_key index) as [value|] eqn:Hkey.
  2:{ apply wp_ret. split; [done|]. split_and!; [done..|]. intros i Hlti.
      destruct Hinv as [->|[(_ & v & _ & Hall) _]]; [lia|].
      destruct (Hall i Hlti) as (w & Hw & _). congruence. }
  wp_step. apply wp_add32; [unfold u32_max, QWEN3_VOCABULARY_SIZE in *; lia|].
  destruct (N.eqb_spec index 0) as [->|Hne]; cbn [orb].
  { apply IH; [lia..|]. right. split; [by eapply lowest_max_first|done]. }
  destruct Hinv as [|[Hmax Hbest]]; [done|].
  pose proof (lowest_max_extend _ _ _ _ _ Hmax Hbest Hkey) as Hext.
  destruct (bv <? value)%Z; apply IH; (lia || by right).
Qed.
End scan.

(** The numbers of a row. *)
Definition row_value (bytes : list N) (i : N) : option Z := bf16_value (row_bits bytes i).

Lemma lowest_max_value bytes n best :
  bytes_ok bytes -> vlen bytes = 2 * QWEN3_VOCABULARY_SIZE -> n <= QWEN3_VOCABULARY_SIZE ->
  lowest_max (row_key bytes) n best -> lowest_max (row_value bytes) n best.
Proof.
  intros Hok Hl Hn (Hb & v & Hv & Hall). split; [done|].
  assert (Hval : forall i k, row_key bytes i = Some k -> exists x, row_value bytes i = Some x).
  { intros i k Hk. destruct (row_value bytes i) as [x|] eqn:E; [by exists x|].
    apply key_none in E. unfold row_key in Hk. congruence. }
  destruct (Hval _ _ Hv) as [x Hx]. exists x. split; [done|]. intros i Hi.
  destruct (Hall i Hi) as (w & Hw & Hle & Hlt). destruct (Hval _ _ Hw) as [y Hy]. exists y.
  pose proof (row_bits_lt bytes Hok Hl i ltac:(lia)) as Hbi.
  pose proof (row_bits_lt bytes Hok Hl best ltac:(lia)) as Hbb.
  pose proof (key_order _ _ _ _ _ _ Hbb Hbi Hv Hw Hx Hy) as H1.
  pose proof (key_order _ _ _ _ _ _ Hbi Hbb Hw Hv Hy Hx) as H2.
  split_and!; [done|lia|intros; apply H2; auto].
Qed.

(** C36: the BF16 argmax on every row: another extent than two bytes per
    vocabulary entry is refused, a row with an infinity or a NaN is refused at
    its first such token, and otherwise the result is the lowest token whose
    encoding denotes the largest number (the key the scan compares orders the
    encodings as the numbers they denote, both zeros equal). *)
Theorem bf16_argmax_exact bytes :
  bytes_ok bytes ->
  wp (select_lowest_finite_bf16_argmax bytes) tt (fun _ r =>
    match r with
    | Ok token =>
        vlen bytes = 2 * QWEN3_VOCABULARY_SIZE /\
        lowest_max (row_value bytes) QWEN3_VOCABULARY_SIZE token
    | Err (NonFinite token) =>
        vlen bytes = 2 * QWEN3_VOCABULARY_SIZE /\ token < QWEN3_VOCABULARY_SIZE /\
        row_value bytes token = None /\ forall i, i < token -> row_value bytes i <> None
    | Err RowExtent => vlen bytes <> 2 * QWEN3_VOCABULARY_SIZE
    end).
Proof.
  intros Hok. unfold select_lowest_finite_bf16_argmax. wp_step. apply wp_mul_w; [by vm_compute|].
  destruct (N.eqb_spec (vlen bytes) (2 * QWEN3_VOCABULARY_SIZE)) as [Hl|]; [cbn [negb]|by apply wp_ret].
  eapply wp_mono; [apply bf16_scan_wp; [done|done|lia|lia|by left]|].
  intros [] [token|[|token]] [_ Hr]; cbn [scan_spec] in Hr; [|done|].
  - split; [done|]. by apply lowest_max_value.
  - destruct Hr as (Hlt & Hnone & Hall). split_and!; [done..|by apply key_none|].
    intros i Hi Hv. apply key_none in Hv. by eapply Hall.
Qed.

(** A row of the given first bytes, zero elsewhere. *)
Definition row_of (first : list N) : list N :=
  first ++ vfill (2 * QWEN3_VOCABULARY_SIZE - vlen first) 0.

Lemma row_of_vlen first : vlen first <= 2 * QWEN3_VOCABULARY_SIZE ->
  vlen (row_of first) = 2 * QWEN3_VOCABULARY_SIZE.
Proof. intros. unfold row_of. rewrite vlen_app, vlen_vfill. lia. Qed.

Lemma row_of_ok first : bytes_ok first -> bytes_ok (row_of first).
Proof.
  intros. apply Forall_app. split; [done|]. unfold vfill. by apply Forall_replicate.
Qed.

Lemma row_of_nth first i : vnth 0 (row_of first) i = vnth 0 first i.
Proof.
  unfold row_of. generalize (2 * QWEN3_VOCABULARY_SIZE - vlen first) as n. intros n.
  unfold vnth, vget. destruct (first !! N.to_nat i) as [x|] eqn:E.
  - by rewrite (lookup_app_l_Some _ _ _ _ E).
  - apply lookup_ge_None in E. rewrite lookup_app_r by done.
    pose proof (vnth_vfill n 0 (N.of_nat (N.to_nat i - length first))) as Hf.
    unfold vnth, vget in Hf. by rewrite Nat2N.id in Hf.
Qed.

(** A row of zeros with one negative zero and one larger entry. *)
Lemma bf16_argmax_exact_witness :
  bytes_ok (row_of [0; 128; 0; 0; 128; 63]) /\
  exists r, select_lowest_finite_bf16_argmax (row_of [0; 128; 0; 0; 128; 63]) tt = Done tt r /\
    r <> Err RowExtent /\ forall token, r = Ok token -> token = 2.
Proof.
  assert (Hok : bytes_ok (row_of [0; 128; 0; 0; 128; 63])) by (apply row_of_ok; by_decide).
  assert (Hl : vlen (row_of [0; 128; 0; 0; 128; 63]) = 2 * QWEN3_VOCABULARY_SIZE)
    by (apply row_of_vlen; by vm_compute).
  split; [exact Hok|].
  pose proof (bf16_argmax_exact _ Hok) as H. apply wp_done in H as ([] & r & Hrun & Hr).
  exists r. split; [exact Hrun|]. split; [intros ->; exact (Hr Hl)|]. intros token ->.
  destruct Hr as (_ & _ & v & Hv & Hall).
  unfold row_value, row_bits in Hv, Hall. rewrite !row_of_nth in Hv.
  destruct (Hall 2 ltac:(by vm_compute)) as (w & Hw & Hle & _). rewrite !row_of_nth in Hw.
  clear Hrun Hall Hok Hl.
  destruct (decide (token < 3)) as [Hlt|Hge].
  - assert (Hcase : token = 0 \/ token = 1 \/ token = 2) by lia.
    destruct Hcase as [->|[->| ->]]; [..|done]; vm_compute in Hv, Hw;
      injection Hv as <-; injection Hw as <-; lia.
  - assert (Hzero : forall i, 6 <= i -> vnth 0 [0; 128; 0; 0; 128; 63] i = 0).
    { intros i Hi. unfold vnth, vget. rewrite lookup_ge_None_2; [done|]. simpl. lia. }
    rewrite !Hzero in Hv by lia. vm_compute in Hv, Hw.
    injection Hv as <-. injection Hw as <-. lia.
Defined.

(** The integer scan: the lowest token of the largest score. *)
Lemma score_scan_wp {S : Type} scores fuel : forall index best (s : S),
  vlen scores <= u32_max -> index <= vlen scores -> vlen scores - index <= N.of_nat fuel ->
  lowest_max (vget scores) index best ->
  wp (score_scan fuel scores index best) s (fun s' r =>
    s' = s /\ lowest_max (vget scores) (vlen scores) r).
Proof.
  induction fuel as [|fuel IH]; intros index best s Hmax Hi Hf Hinv; cbn [score_scan].
  { apply wp_ret. split; [done|]. by replace (vlen scores) with index by lia. }
  destruct (N.ltb_spec index (vlen scores)) as [Hlt|Hge].
  2:{ apply wp_ret. split; [done|]. by replace (vlen scores) with index by lia. }
  destruct (vget_lt scores index Hlt) as [x Hx]. pose proof Hinv as (Hb & v & Hv & _).
  wp_step. eapply wp_slice_at; [exact Hx|]. wp_step. eapply wp_slice_at; [exact Hv|].
  wp_step. apply wp_add32; [lia|]. apply IH; [done|lia|lia|].
  by apply lowest_max_extend.
Qed.

(** The integer argmax refuses another number of scores and otherwise returns
    the lowest token of the largest score. *)
Lemma select_lowest_argmax_wp scores :
  wp (select_lowest_argmax scores) tt (fun _ r =>
    r = Err Compact.ScoreCountMismatch /\ vlen scores <> QWEN3_VOCABULARY_SIZE \/
    exists token, r = Ok token /\ vlen scores = QWEN3_VOCABULARY_SIZE /\
      lowest_max (vget scores) (vlen scores) token).
Proof.
  unfold select_lowest_argmax.
  destruct (N.eqb_spec (vlen scores) QWEN3_VOCABULARY_SIZE) as [Hl|]; cbn [negb];
    [|by apply wp_ret; left].
  destruct (vget_lt scores 0) as [x Hx]; [rewrite Hl; done|].
  wp_step. eapply wp_mono; [apply score_scan_wp|].
  - rewrite Hl. by vm_compute.
  - rewrite Hl. by vm_compute.
  - unfold vlen. lia.
  - by eapply lowest_max_first.
  - intros [] token [_ Hm]. apply wp_ret. right. by exists token.
Qed.
