(* ===== verification/Radix.v ===== *)
(** [ferric-engine/src/radix_prefix.rs]: a fixed-capacity token trie in a node
    array with first-child and next-sibling links, a fixed array of source
    records, and the sharing of a live source's pages with an empty request
    through the engine.  Links are followed with a fuel of one step per node
    slot: a walk that would exceed it panics, so a theorem that an operation
    does not panic also states that its walks end. *)
From S2P Require Import Prelude Spec Engine.
Local Open Scope prog_scope.

Definition ROOT_NODE : N := 0.
Definition NO_PARENT : N := usize_max.
Definition M1_MAX_CONTEXT_TOKENS : N := 8192.

(** ** Limits *)
Inductive M1RadixPrefixLimitV1 := LimitNodes | LimitTokensPerSource | LimitSources | LimitStoredTokens.

Inductive M1RadixPrefixLimitsErrorV1 :=
| Zero (kind : M1RadixPrefixLimitV1)
| RootRequiresNode
| TokensExceedM1Context (maximum : N)
| StorageArithmeticOverflow.

Record M1RadixPrefixLimitsV1 := mkLimits {
  limit_nodes : N;
  limit_tokens_per_source : N;
  limit_sources : N;
  limit_stored_tokens : N
}.

Definition limits_new (node_limit tokens_per_source_limit source_limit stored_token_limit : N) :
    result M1RadixPrefixLimitsV1 M1RadixPrefixLimitsErrorV1 :=
  match
    list_find (fun '(_, value) => value = 0)
      [(LimitNodes, node_limit); (LimitTokensPerSource, tokens_per_source_limit);
       (LimitSources, source_limit); (LimitStoredTokens, stored_token_limit)]
  with
  | Some (_, (kind, _)) => Err (Zero kind)
  | None =>
      if node_limit <? 2 then Err RootRequiresNode
      else if M1_MAX_CONTEXT_TOKENS <? tokens_per_source_limit then
        Err (TokensExceedM1Context tokens_per_source_limit)
      else if usize_max <? tokens_per_source_limit * source_limit then Err StorageArithmeticOverflow
      else Ok (mkLimits node_limit tokens_per_source_limit source_limit stored_token_limit)
  end.

Inductive M1RadixPrefixIndexErrorV1 :=
| Allocation
| EmptySource
| ZeroSourceGeneration
| TokensPerSourceCapacity (limit requested : N)
| SourceCapacity (limit : N)
| StoredTokenCapacity (limit requested : N)
| NodeCapacity (limit requested : N)
| TicketExhausted
| InvariantViolation.

(** ** State *)
Record M1AuthenticatedRadixPrefixSourceV1 := mkAuthority { source : RequestId; tokens : list N }.

Record RadixNodeV1 := mkNode {
  token : N;
  parent : N;
  first_child : option N;
  next_sibling : option N;
  depth : N
}.

Definition ROOT : RadixNodeV1 := mkNode 0 NO_PARENT None None 0.

Record RadixSourceV1 := mkSource {
  request : RequestId;
  endpoint : N;
  token_count : N;
  ticket : N
}.

Record M1RadixPrefixMatchV1 := mkMatch { match_source : RequestId; match_token_count : N }.

Record M1RadixPrefixIndexV1 := mkIndex {
  limits : M1RadixPrefixLimitsV1;
  nodes : list (option RadixNodeV1);
  sources : list (option RadixSourceV1);
  node_count : N;
  source_count : N;
  stored_tokens : N;
  next_ticket : N
}.

Definition put_nodes v i := mkIndex (limits i) v (sources i) (node_count i) (source_count i) (stored_tokens i) (next_ticket i).
Definition put_sources v i := mkIndex (limits i) (nodes i) v (node_count i) (source_count i) (stored_tokens i) (next_ticket i).
Definition put_node_count v i := mkIndex (limits i) (nodes i) (sources i) v (source_count i) (stored_tokens i) (next_ticket i).
Definition put_source_count v i := mkIndex (limits i) (nodes i) (sources i) (node_count i) v (stored_tokens i) (next_ticket i).
Definition put_stored_tokens v i := mkIndex (limits i) (nodes i) (sources i) (node_count i) (source_count i) v (next_ticket i).
Definition put_next_ticket v i := mkIndex (limits i) (nodes i) (sources i) (node_count i) (source_count i) (stored_tokens i) v.


(** [new], when the two reservations of the allocator succeed. *)
Definition new (limits : M1RadixPrefixLimitsV1) : M1RadixPrefixIndexV1 :=
  mkIndex limits (vset (vfill (limit_nodes limits) None) ROOT_NODE (Some ROOT))
    (vfill (limit_sources limits) None) 1 0 0 1.

(** [nodes.get(i)] and [Option::as_ref]. *)
Definition node_at (self : M1RadixPrefixIndexV1) (i : N) : option RadixNodeV1 :=
  mjoin (vget (nodes self) i).

(** [iter().position(p)] *)
Definition position {A} (p : A -> bool) (l : list A) : option N :=
  (fun '(i, _) => N.of_nat i) <$> list_find (fun a => Is_true (p a)) l.

Definition is_some_and {A} (p : A -> bool) (o : option A) : bool :=
  match o with Some a => p a | None => false end.

Definition or_violation {A} (o : option A) : M M1RadixPrefixIndexV1 (result A M1RadixPrefixIndexErrorV1) :=
  match o with Some a => ret (Ok a) | None => ret (Err InvariantViolation) end.

(** [RequestId] derives its order: the slot, then the generation. *)
Definition request_leb (a b : RequestId) : bool :=
  (slot a <? slot b) || ((slot a =? slot b) && (generation a <=? generation b)).

(** [nodes[i].as_mut().ok_or(InvariantViolation)?] followed by an assignment. *)
Definition update_node (i : N) (f : RadixNodeV1 -> RadixNodeV1) :
    M M1RadixPrefixIndexV1 (result unit M1RadixPrefixIndexErrorV1) :=
  let! entry := read_at nodes i in
  match entry with
  | None => ret (Err InvariantViolation)
  | Some node => update_at nodes put_nodes i (fun _ => Some (f node)) ;; ret (Ok tt)
  end.

Definition set_first_child (c : option N) (n : RadixNodeV1) : RadixNodeV1 :=
  mkNode (token n) (parent n) c (next_sibling n) (depth n).
Definition set_next_sibling (c : option N) (n : RadixNodeV1) : RadixNodeV1 :=
  mkNode (token n) (parent n) (first_child n) c (depth n).

(** ** Walks *)

(** [while let Some(index) = child] of [find_child]. *)
Fixpoint find_child_loop (fuel : nat) (child : option N) (tok : N) : M M1RadixPrefixIndexV1 (option N) :=
  match child with
  | None => ret None
  | Some index =>
      match fuel with
      | O => panic
      | S fuel' =>
          let! node := gets (fun self => node_at self index) in
          match node with
          | None => ret None
          | Some node =>
              if token node =? tok then ret (Some index)
              else find_child_loop fuel' (next_sibling node) tok
          end
      end
  end.

Definition find_child (parent : N) (tok : N) : M M1RadixPrefixIndexV1 (option N) :=
  let! self := gets id in
  match node_at self parent with
  | None => ret None
  | Some node => find_child_loop (length (nodes self)) (first_child node) tok
  end.

(** [for &token in tokens] of [existing_prefix]. *)
Fixpoint existing_prefix_loop (toks : list N) (node depth : N) :
    M M1RadixPrefixIndexV1 (result (N * N) M1RadixPrefixIndexErrorV1) :=
  match toks with
  | [] => ret (Ok (node, depth))
  | tok :: toks' =>
      let! child := find_child node tok in
      match child with
      | None => ret (Ok (node, depth))
      | Some child =>
          let? depth' := or_violation (checked_add usize_max depth 1) in
          existing_prefix_loop toks' child depth'
      end
  end.

Definition existing_prefix (toks : list N) : M M1RadixPrefixIndexV1 (result (N * N) M1RadixPrefixIndexErrorV1) :=
  existing_prefix_loop toks ROOT_NODE 0.

(** [for &token in tokens.iter().rev()] of [source_tokens_equal]. *)
Fixpoint tokens_equal_loop (self : M1RadixPrefixIndexV1) (rev_toks : list N) (node : N) : bool :=
  match rev_toks with
  | [] => node =? ROOT_NODE
  | tok :: toks' =>
      match node_at self node with
      | None => false
      | Some entry =>
          if negb (token entry =? tok) then false else tokens_equal_loop self toks' (parent entry)
      end
  end.

Definition source_tokens_equal (self : M1RadixPrefixIndexV1) (s : RadixSourceV1) (toks : list N) : bool :=
  if negb (token_count s =? vlen toks) then false
  else tokens_equal_loop self (reverse toks) (endpoint s).

(** The [loop] of [node_is_ancestor]. *)
Fixpoint ancestor_loop (fuel : nat) (ancestor ancestor_depth node : N) : M M1RadixPrefixIndexV1 bool :=
  match fuel with
  | O => panic
  | S fuel' =>
      let! entry := gets (fun self => node_at self node) in
      match entry with
      | None => ret false
      | Some entry =>
          if depth entry <? ancestor_depth then ret false
          else if node =? ancestor then ret true
          else ancestor_loop fuel' ancestor ancestor_depth (parent entry)
      end
  end.

Definition node_is_ancestor (ancestor node : N) : M M1RadixPrefixIndexV1 bool :=
  let! self := gets id in
  match node_at self ancestor with
  | None => ret false
  | Some entry => ancestor_loop (S (length (nodes self))) ancestor (depth entry) node
  end.

(** The minimum of the requests whose endpoint lies below [ancestor]. *)
Fixpoint best_below_loop (l : list (option RadixSourceV1)) (ancestor : N) (best : option RequestId) :
    M M1RadixPrefixIndexV1 (option RequestId) :=
  match l with
  | [] => ret best
  | None :: l' => best_below_loop l' ancestor best
  | Some s :: l' =>
      let! below := node_is_ancestor ancestor (endpoint s) in
      if below then
        best_below_loop l' ancestor
          (Some (match best with
                 | None => request s
                 | Some b => if request_leb b (request s) then b else request s
                 end))
      else best_below_loop l' ancestor best
  end.

Definition best_source_below (ancestor : N) : M M1RadixPrefixIndexV1 (option RequestId) :=
  let! self := gets id in
  best_below_loop (sources self) ancestor None.

(** ** Lookup *)
Fixpoint match_loop (toks : list N) (page_tokens node : N) (best : option M1RadixPrefixMatchV1) :
    M M1RadixPrefixIndexV1 (option M1RadixPrefixMatchV1) :=
  match toks with
  | [] => ret best
  | tok :: toks' =>
      let! child := find_child node tok in
      match child with
      | None => ret best
      | Some child =>
          let! entry := read_at nodes child in
          match entry with
          | None => ret None
          | Some entry =>
              if depth entry mod page_tokens =? 0 then
                let! below := best_source_below child in
                match below with
                | Some s =>
                    if u32_max <? depth entry then ret None
                    else match_loop toks' page_tokens child (Some (mkMatch s (depth entry)))
                | None => match_loop toks' page_tokens child best
                end
              else match_loop toks' page_tokens child best
          end
      end
  end.

Definition longest_page_aligned_match (toks : list N) (logical_page_tokens : N) :
    M M1RadixPrefixIndexV1 (option M1RadixPrefixMatchV1) :=
  if logical_page_tokens =? 0 then ret None
  else match_loop toks logical_page_tokens ROOT_NODE None.

(** ** Mutation *)

(** The lowest free node slot above the root. *)
Definition free_slot (self : M1RadixPrefixIndexV1) : option N :=
  (fun i => i + 1) <$> position (fun n => negb (is_some_and (fun _ => true) n)) (drop 1 (nodes self)).

Definition insert_child (parent : N) (tok : N) : M M1RadixPrefixIndexV1 (result N M1RadixPrefixIndexErrorV1) :=
  let! self := gets id in
  let? slot := or_violation (free_slot self) in
  let? parent_node := or_violation (node_at self parent) in
  let? depth' := or_violation (checked_add usize_max (depth parent_node) 1) in
  update_at nodes put_nodes slot
    (fun _ => Some (mkNode tok parent None (first_child parent_node) depth')) ;;
  let? _ := update_node parent (set_first_child (Some slot)) in
  let! count := gets node_count in
  let? count' := or_violation (checked_add usize_max count 1) in
  modify (put_node_count count') ;;
  ret (Ok slot).

(** [while let Some(index) = sibling] of [unlink_child]. *)
Fixpoint unlink_loop (fuel : nat) (sibling : option N) (child : N) (replacement : option N) :
    M M1RadixPrefixIndexV1 (result unit M1RadixPrefixIndexErrorV1) :=
  match sibling with
  | None => ret (Err InvariantViolation)
  | Some index =>
      match fuel with
      | O => panic
      | S fuel' =>
          let! self := gets id in
          let? node := or_violation (node_at self index) in
          if decide (next_sibling node = Some child) then
            let? _ := update_node index (set_next_sibling replacement) in
            ret (Ok tt)
          else unlink_loop fuel' (next_sibling node) child replacement
      end
  end.

Definition unlink_child (parent child : N) : M M1RadixPrefixIndexV1 (result unit M1RadixPrefixIndexErrorV1) :=
  let! self := gets id in
  let? child_node := or_violation (node_at self child) in
  let replacement := next_sibling child_node in
  let? parent_node := or_violation (node_at self parent) in
  if decide (first_child parent_node = Some child) then
    let? _ := update_node parent (set_first_child replacement) in
    ret (Ok tt)
  else unlink_loop (length (nodes self)) (first_child parent_node) child replacement.

(** [while node != ROOT_NODE] of [prune_from]. *)
Fixpoint prune_loop (fuel : nat) (node : N) : M M1RadixPrefixIndexV1 (result unit M1RadixPrefixIndexErrorV1) :=
  if node =? ROOT_NODE then ret (Ok tt)
  else
    match fuel with
    | O => panic
    | S fuel' =>
        let! self := gets id in
        let? entry := or_violation (node_at self node) in
        if is_some_and (fun _ => true) (first_child entry)
           || existsb (is_some_and (fun s => endpoint s =? node)) (sources self)
        then ret (Ok tt)
        else
          let? _ := unlink_child (parent entry) node in
          update_at nodes put_nodes node (fun _ => None) ;;
          let! count := gets node_count in
          let? count' := or_violation (checked_sub count 1) in
          modify (put_node_count count') ;;
          prune_loop fuel' (parent entry)
    end.

Definition prune_from (node : N) : M M1RadixPrefixIndexV1 (result unit M1RadixPrefixIndexErrorV1) :=
  let! self := gets id in
  prune_loop (length (nodes self)) node.

(** [sources.get_mut(slot).and_then(Option::take)] *)
Definition take_source (slot : N) : M M1RadixPrefixIndexV1 (option RadixSourceV1) :=
  let! self := gets id in
  match mjoin (vget (sources self) slot) with
  | None => ret None
  | Some s => modify (put_sources (vset (sources self) slot None)) ;; ret (Some s)
  end.

Definition remove_source_slot (slot : N) : M M1RadixPrefixIndexV1 (result unit M1RadixPrefixIndexErrorV1) :=
  let! taken := take_source slot in
  let? s := or_violation taken in
  let! count := gets source_count in
  let? count' := or_violation (checked_sub count 1) in
  modify (put_source_count count') ;;
  let! stored := gets stored_tokens in
  let? stored' := or_violation (checked_sub stored (token_count s)) in
  modify (put_stored_tokens stored') ;;
  prune_from (endpoint s).

Definition invalidate_source (src : RequestId) : M M1RadixPrefixIndexV1 (result bool M1RadixPrefixIndexErrorV1) :=
  let! self := gets id in
  match position (is_some_and (fun s => bool_decide (request s = src))) (sources self) with
  | None => ret (Ok false)
  | Some slot =>
      let? _ := remove_source_slot slot in
      ret (Ok true)
  end.

(** [(ticket, request)] in lexicographic order. *)
Definition age_leb (a b : RadixSourceV1) : bool :=
  (ticket a <? ticket b) || ((ticket a =? ticket b) && request_leb (request a) (request b)).

(** The oldest record and its slot; on a tie of keys the first one. *)
Fixpoint oldest_from (l : list (option RadixSourceV1)) (index : N) : option (N * RadixSourceV1) :=
  match l with
  | [] => None
  | None :: l' => oldest_from l' (index + 1)
  | Some s :: l' =>
      match oldest_from l' (index + 1) with
      | None => Some (index, s)
      | Some (j, t) => if age_leb s t then Some (index, s) else Some (j, t)
      end
  end.

Definition evict_oldest : M M1RadixPrefixIndexV1 (result (option RequestId) M1RadixPrefixIndexErrorV1) :=
  let! self := gets id in
  match oldest_from (sources self) 0 with
  | None => if negb (source_count self =? 0) then ret (Err InvariantViolation) else ret (Ok None)
  | Some (slot, entry) =>
      let? _ := remove_source_slot slot in
      ret (Ok (Some (request entry)))
  end.

(** ** Registration *)

(** [for slot in victims.into_iter().flatten()] of the preflight. *)
Fixpoint count_victims (victims : list N) (victim_count victim_tokens : N) :
    M M1RadixPrefixIndexV1 (result (N * N) M1RadixPrefixIndexErrorV1) :=
  match victims with
  | [] => ret (Ok (victim_count, victim_tokens))
  | slot :: victims' =>
      let! entry := read_at sources slot in
      let? entry := or_violation entry in
      let? victim_count' := or_violation (checked_add usize_max victim_count 1) in
      let? victim_tokens' := or_violation (checked_add usize_max victim_tokens (token_count entry)) in
      count_victims victims' victim_count' victim_tokens'
  end.

(** [self.sources[slot].take().expect(..)] for every victim, collecting the
    endpoints. *)
Fixpoint take_victims (victims : list N) : M M1RadixPrefixIndexV1 (list N) :=
  match victims with
  | [] => ret []
  | slot :: victims' =>
      let! entry := read_at sources slot in
      match entry with
      | None => panic
      | Some s =>
          update_at sources put_sources slot (fun _ => None) ;;
          let! rest := take_victims victims' in
          ret (endpoint s :: rest)
      end
  end.

(** [for &token in &tokens[existing_depth..]] *)
Fixpoint insert_tokens (toks : list N) (node : N) : M M1RadixPrefixIndexV1 N :=
  match toks with
  | [] => ret node
  | tok :: toks' =>
      let! r := insert_child node tok in
      match r with
      | Err _ => panic
      | Ok child => insert_tokens toks' child
      end
  end.

(** [for endpoint in victim_endpoints.into_iter().flatten()] *)
Fixpoint prune_victims (endpoints : list N) : M M1RadixPrefixIndexV1 unit :=
  match endpoints with
  | [] => ret tt
  | node :: endpoints' =>
      let! r := prune_from node in
      match r with
      | Err _ => panic
      | Ok _ => prune_victims endpoints'
      end
  end.

(** The mutation after every check has passed. *)
Definition register_commit (src : RequestId) (toks : list N) (victims : list N)
    (retained_sources retained_tokens requested_tokens existing_parent existing_depth next_ticket' : N) :
    M M1RadixPrefixIndexV1 (result unit M1RadixPrefixIndexErrorV1) :=
  let! victim_endpoints := take_victims victims in
  modify (put_source_count retained_sources) ;;
  modify (put_stored_tokens retained_tokens) ;;
  let! endpoint := insert_tokens (drop (N.to_nat existing_depth) toks) existing_parent in
  let! self := gets id in
  match position (fun s => negb (is_some_and (fun _ => true) s)) (sources self) with
  | None => panic
  | Some source_slot =>
      update_at sources put_sources source_slot
        (fun _ => Some (mkSource src endpoint (vlen toks) (next_ticket self))) ;;
      let! count := add_usize retained_sources 1 in
      modify (put_source_count count) ;;
      modify (put_stored_tokens requested_tokens) ;;
      modify (put_next_ticket next_ticket') ;;
      prune_victims victim_endpoints ;;
      ret (Ok tt)
  end.

Definition register_authenticated_source (authority : M1AuthenticatedRadixPrefixSourceV1) :
    M M1RadixPrefixIndexV1 (result unit M1RadixPrefixIndexErrorV1) :=
  let src := source authority in
  let toks := tokens authority in
  let! self := gets id in
  if vlen toks =? 0 then ret (Err EmptySource)
  else if generation src =? 0 then ret (Err ZeroSourceGeneration)
  else if limit_tokens_per_source (limits self) <? vlen toks then
    ret (Err (TokensPerSourceCapacity (limit_tokens_per_source (limits self)) (vlen toks)))
  else
    match checked_add u64_max (next_ticket self) 1 with
    | None => ret (Err TicketExhausted)
    | Some next_ticket' =>
        let same_slot := position (is_some_and (fun s => slot (request s) =? slot src)) (sources self) in
        let duplicate_prefix :=
          position (is_some_and (fun s => source_tokens_equal self s toks)) (sources self) in
        let victims :=
          option_list same_slot ++
          (if decide (duplicate_prefix = same_slot) then [] else option_list duplicate_prefix) in
        let? counted := count_victims victims 0 0 in
        let '(victim_count, victim_tokens) := counted in
        let? retained_sources := or_violation (checked_sub (source_count self) victim_count) in
        if limit_sources (limits self) <=? retained_sources then
          ret (Err (SourceCapacity (limit_sources (limits self))))
        else
          let? retained_tokens := or_violation (checked_sub (stored_tokens self) victim_tokens) in
          match checked_add usize_max retained_tokens (vlen toks) with
          | None => ret (Err (StoredTokenCapacity (limit_stored_tokens (limits self)) usize_max))
          | Some requested_tokens =>
              if limit_stored_tokens (limits self) <? requested_tokens then
                ret (Err (StoredTokenCapacity (limit_stored_tokens (limits self)) requested_tokens))
              else
                let? existing := existing_prefix toks in
                let '(existing_parent, existing_depth) := existing in
                let! missing_nodes := sub_w (vlen toks) existing_depth in
                let! free_nodes := sub_w (limit_nodes (limits self)) (node_count self) in
                if free_nodes <? missing_nodes then
                  ret (Err (NodeCapacity (limit_nodes (limits self))
                              (N.min (node_count self + missing_nodes) usize_max)))
                else
                  register_commit src toks victims retained_sources retained_tokens
                    requested_tokens existing_parent existing_depth next_ticket'
          end
    end.

(** ** Sharing a live source's prefix *)
Inductive M1RadixPrefixShareOutcomeV1 :=
| NoMatch (invalidated_sources : N)
| Shared (source target : RequestId) (token_count invalidated_sources : N).

Inductive M1RadixPrefixShareErrorV1 :=
| TargetNotReady (target : RequestId) (state : option Lifecycle.RequestState)
| TargetNotEmpty (target : RequestId) (resident_tokens committed_tokens : option N)
| SourceEqualsTarget (request : RequestId)
| ShareIndex (error : M1RadixPrefixIndexErrorV1)
| ShareEngine (error : EngineError.EngineError).

Section share.
Context (C : N).
#[local] Existing Instance Lifecycle.RequestState_eq_dec.

(** The two mutable arguments. *)
Record Shared_state := mkShared { index : M1RadixPrefixIndexV1; engine : Engine }.
Definition on_index {A} (m : M M1RadixPrefixIndexV1 A) : M Shared_state A :=
  zoom index (fun i s => mkShared i (engine s)) m.
Definition on_engine {A} (m : M Engine A) : M Shared_state A :=
  zoom engine (fun e s => mkShared (index s) e) m.

Definition at_least (token_count : N) (o : option N) : bool :=
  match o with Some count => token_count <=? count | None => false end.

(** [source_has_range]; an error is the [return Err(..)] of the match arm. *)
Definition source_has_range (src : RequestId) (token_count : N) :
    M Shared_state (result bool M1RadixPrefixShareErrorV1) :=
  let! st := on_engine (Engine.state C src) in
  let! committed := on_engine (gets (fun e => Engine.committed_tokens e src)) in
  let! resident := on_engine (gets (fun e => Engine.resident_tokens e src)) in
  if bool_decide (st = Some Lifecycle.Ready) && at_least token_count committed
     && at_least token_count resident then
    let! read := on_engine (Engine.validate_read src 0 token_count) in
    match read with
    | Ok _ => ret (Ok true)
    | Err EngineError.Faulted => ret (Err (ShareEngine EngineError.Faulted))
    | Err _ => ret (Ok false)
    end
  else ret (Ok false).

(** [for _ in 0..maximum_attempts] *)
Fixpoint share_loop (attempts : nat) (target : RequestId) (toks : list N)
    (logical_page_tokens invalidated_sources : N) :
    M Shared_state (result M1RadixPrefixShareOutcomeV1 M1RadixPrefixShareErrorV1) :=
  match attempts with
  | O => ret (Ok (NoMatch invalidated_sources))
  | S attempts' =>
      let! prefix := on_index (longest_page_aligned_match toks logical_page_tokens) in
      match prefix with
      | None => ret (Ok (NoMatch invalidated_sources))
      | Some prefix =>
          let src := match_source prefix in
          if decide (src = target) then ret (Err (SourceEqualsTarget src))
          else
            let token_count := match_token_count prefix in
            let? has_range := source_has_range src token_count in
            if negb has_range then
              let! removed := on_index (invalidate_source src) in
              match removed with
              | Err error => ret (Err (ShareIndex error))
              | Ok false => ret (Err (ShareIndex InvariantViolation))
              | Ok true =>
                  match checked_add usize_max invalidated_sources 1 with
                  | None => ret (Err (ShareIndex InvariantViolation))
                  | Some invalidated' =>
                      share_loop attempts' target toks logical_page_tokens invalidated'
                  end
              end
            else
              let! shared := on_engine (Engine.share_committed_prefix C src target token_count) in
              match shared with
              | Err error => ret (Err (ShareEngine error))
              | Ok _ => ret (Ok (Shared src target token_count invalidated_sources))
              end
      end
  end.

Definition share_m1_radix_prefix_from_live_source_v1 (target : RequestId) (toks : list N) :
    M Shared_state (result M1RadixPrefixShareOutcomeV1 M1RadixPrefixShareErrorV1) :=
  let! faulted := on_engine (gets Engine.is_faulted) in
  if faulted then ret (Err (ShareEngine EngineError.Faulted))
  else
    let! logical_page_tokens := on_engine (gets Engine.page_tokens) in
    let! target_state := on_engine (Engine.state C target) in
    if negb (bool_decide (target_state = Some Lifecycle.Ready)) then
      ret (Err (TargetNotReady target target_state))
    else
      let! target_resident := on_engine (gets (fun e => Engine.resident_tokens e target)) in
      let! target_committed := on_engine (gets (fun e => Engine.committed_tokens e target)) in
      if negb (bool_decide (target_resident = Some 0)) || negb (bool_decide (target_committed = Some 0))
      then ret (Err (TargetNotEmpty target target_resident target_committed))
      else
        let! maximum_attempts := on_index (gets source_count) in
        share_loop (N.to_nat maximum_attempts) target toks logical_page_tokens 0.
End share.
