(* ===== verification/RadixSpec.v ===== *)
(** The prefix index as a specification: a fixed array of entries (request,
    tokens, ticket), whose node usage is the number of distinct prefixes of the
    entries' tokens. *)
From S2P Require Import Prelude Spec Radix.
From stdpp Require Import gmap.
Local Open Scope N_scope.

Lemma prefix_snoc {A} (p q : list A) t : p `prefix_of` q ++ [t] -> p `prefix_of` q \/ p = q ++ [t].
Proof.
  intros [k Hk]. destruct k as [|u k _] using rev_ind.
  - right. by rewrite app_nil_r in Hk.
  - left. rewrite app_assoc in Hk. apply app_inj_tail in Hk as [-> _]. by exists k.
Qed.

(** ** The prefixes of a family of token lists *)
Definition all_prefixes (l : list N) : list (list N) := (fun k => take k l) <$> seq 0 (S (length l)).

Definition trie (L : list (list N)) : gset (list N) := list_to_set ([] :: (L ≫= all_prefixes)).

Lemma elem_of_all_prefixes p l : p ∈ all_prefixes l <-> p `prefix_of` l.
Proof.
  unfold all_prefixes. rewrite list_elem_of_fmap. split.
  - intros (k & -> & _). apply prefix_take.
  - intros [k ->]. exists (length p). rewrite take_app_length. split; [done|].
    apply elem_of_seq. rewrite length_app. lia.
Qed.

Lemma elem_of_trie p L : p ∈ trie L <-> p = [] \/ exists l, l ∈ L /\ p `prefix_of` l.
Proof.
  unfold trie. rewrite elem_of_list_to_set, elem_of_cons, list_elem_of_bind.
  split; (intros [->|(l & H1 & H2)]; [by left|right; exists l]).
  - by rewrite <- elem_of_all_prefixes.
  - by rewrite elem_of_all_prefixes.
Qed.

Lemma trie_ext L L' : (forall l, l ∈ L <-> l ∈ L') -> trie L = trie L'.
Proof. intros H. apply set_eq. intros p. rewrite !elem_of_trie. setoid_rewrite H. done. Qed.

Lemma trie_prefix p q L : p `prefix_of` q -> q ∈ trie L -> p ∈ trie L.
Proof.
  rewrite !elem_of_trie. intros Hpq [->|(l & Hl & Hq)].
  - left. by apply prefix_nil_inv.
  - right. exists l. split; [done|]. by etrans.
Qed.

(** A member already present adds nothing. *)
Lemma trie_absorb p L : p ∈ trie L -> trie (p :: L) = trie L.
Proof.
  intros Hp. apply set_eq. intros q. rewrite (elem_of_trie q (p :: L)). split.
  - intros [->|(l & [->|Hl]%elem_of_cons & Hq)].
    + apply elem_of_trie. by left.
    + by eapply trie_prefix.
    + apply elem_of_trie. right. by exists l.
  - rewrite elem_of_trie. intros [->|(l & Hl & Hq)]; [by left|right].
    exists l. split; [by right|done].
Qed.

(** ** The abstract index *)
Record Entry := mkEntry { e_request : RequestId; e_tokens : list N; e_ticket : N }.

Record AIndex := mkAIndex {
  a_limits : M1RadixPrefixLimitsV1;
  a_slots : list (option Entry);
  a_next : N
}.

Definition entries (a : AIndex) : list Entry := omap id (a_slots a).
Definition token_lists (a : AIndex) : list (list N) := e_tokens <$> entries a.
Definition a_stored (l : list Entry) : N := foldr (fun e n => vlen (e_tokens e) + n) 0 l.
Definition a_nodes (a : AIndex) : N := N.of_nat (size (trie (token_lists a))).

Definition a_new (l : M1RadixPrefixLimitsV1) : AIndex := mkAIndex l (vfill (limit_sources l) None) 1.

(** Registration: the entries of the same slot or with the same tokens are
    replaced; the new one takes the first free place. *)
Definition replaced (src : RequestId) (toks : list N) (o : option Entry) : bool :=
  match o with
  | Some e => (slot (e_request e) =? slot src) || bool_decide (e_tokens e = toks)
  | None => false
  end.

Definition clear (f : option Entry -> bool) (l : list (option Entry)) : list (option Entry) :=
  (fun o => if f o then None else o) <$> l.

Definition place (e : Entry) (l : list (option Entry)) : list (option Entry) :=
  match position (fun o => negb (is_some_and (fun _ => true) o)) l with
  | Some i => vset l i (Some e)
  | None => l
  end.

(** The new nodes a token list needs. *)
Definition missing (toks : list N) (L : list (list N)) : N :=
  N.of_nat (length (filter (fun p => p ∉ trie L) (all_prefixes toks))).

Definition a_register (src : RequestId) (toks : list N) (a : AIndex) :
    AIndex * result unit M1RadixPrefixIndexErrorV1 :=
  let lim := a_limits a in
  let kept := clear (replaced src toks) (a_slots a) in
  let stored := a_stored (omap id kept) + vlen toks in
  if vlen toks =? 0 then (a, Err EmptySource)
  else if generation src =? 0 then (a, Err ZeroSourceGeneration)
  else if limit_tokens_per_source lim <? vlen toks then
    (a, Err (TokensPerSourceCapacity (limit_tokens_per_source lim) (vlen toks)))
  else if u64_max <=? a_next a then (a, Err TicketExhausted)
  else if limit_sources lim <=? vlen (omap id kept) then (a, Err (SourceCapacity (limit_sources lim)))
  else if limit_stored_tokens lim <? stored then
    (a, Err (StoredTokenCapacity (limit_stored_tokens lim) (N.min stored usize_max)))
  else if limit_nodes lim <? a_nodes a + missing toks (token_lists a) then
    (a, Err (NodeCapacity (limit_nodes lim) (N.min (a_nodes a + missing toks (token_lists a)) usize_max)))
  else (mkAIndex lim (place (mkEntry src toks (a_next a)) kept) (a_next a + 1), Ok tt).

Definition a_remove (f : Entry -> bool) (a : AIndex) : AIndex :=
  mkAIndex (a_limits a) (clear (is_some_and f) (a_slots a)) (a_next a).

Definition a_invalidate (src : RequestId) (a : AIndex) : AIndex * bool :=
  (a_remove (fun e => bool_decide (e_request e = src)) a,
   existsb (fun e => bool_decide (e_request e = src)) (entries a)).

(** The entry of the least ticket. *)
Fixpoint oldest (l : list Entry) : option Entry :=
  match l with
  | [] => None
  | e :: l' =>
      match oldest l' with
      | None => Some e
      | Some o => if e_ticket e <=? e_ticket o then Some e else Some o
      end
  end.

Definition a_evict (a : AIndex) : AIndex * option RequestId :=
  match oldest (entries a) with
  | None => (a, None)
  | Some o => (a_remove (fun e => e_ticket e =? e_ticket o) a, Some (e_request o))
  end.

(** A page-aligned match of [k] tokens. *)
Definition page_match (a : AIndex) (toks : list N) (page k : N) (e : Entry) : Prop :=
  e ∈ entries a /\ 0 < k <= vlen toks /\ k mod page = 0 /\
  take (N.to_nat k) toks `prefix_of` e_tokens e.

(** The longest page-aligned match, of the least request. *)
Definition lookup_spec (a : AIndex) (toks : list N) (page : N) (r : option M1RadixPrefixMatchV1) : Prop :=
  match r with
  | None => page = 0 \/ forall k e, ~ page_match a toks page k e
  | Some m =>
      page <> 0 /\
      exists e, page_match a toks page (match_token_count m) e /\ e_request e = match_source m /\
        forall k e', page_match a toks page k e' ->
          k <= match_token_count m /\
          (k = match_token_count m -> request_leb (match_source m) (e_request e') = true)
  end.

(** ** Well-formed indices *)
Record a_ok (a : AIndex) : Prop := {
  ao_limits : 2 <= limit_nodes (a_limits a) <= usize_max /\
    limit_tokens_per_source (a_limits a) <= M1_MAX_CONTEXT_TOKENS /\
    limit_sources (a_limits a) <= usize_max /\ limit_stored_tokens (a_limits a) <= usize_max;
  ao_len : vlen (a_slots a) = limit_sources (a_limits a);
  ao_entry e : e ∈ entries a ->
    e_tokens e <> [] /\ vlen (e_tokens e) <= limit_tokens_per_source (a_limits a) /\
    generation (e_request e) <> 0 /\ 0 < e_ticket e < a_next a;
  ao_slots : NoDup ((fun e => slot (e_request e)) <$> entries a);
  ao_tokens : NoDup (e_tokens <$> entries a);
  ao_tickets : NoDup (e_ticket <$> entries a);
  ao_stored : a_stored (entries a) <= limit_stored_tokens (a_limits a);
  ao_nodes : a_nodes a <= limit_nodes (a_limits a);
  ao_next : 0 < a_next a <= u64_max
}.
