(* ===== verification/RadixInv.v ===== *)
(** The trie of [Radix] as a tree of paths: every allocated node slot has a
    path of tokens, its parent the path without the last token, and its
    children form one sibling chain.  What the read-only walks compute, and
    that they end. *)
From S2P Require Import Prelude Spec Radix RadixSpec.
From S2P Require SchedInv.
From stdpp Require Import gmap.
Local Open Scope N_scope.
Local Open Scope prog_scope.

(** ** Node arrays *)
Definition node_in (ns : list (option RadixNodeV1)) (i : N) : option RadixNodeV1 := mjoin (vget ns i).

Lemma node_at_in idx i : node_at idx i = node_in (nodes idx) i.
Proof. done. Qed.

Lemma node_in_vget ns i n : node_in ns i = Some n <-> vget ns i = Some (Some n).
Proof. unfold node_in. destruct (vget ns i) as [[m|]|]; simpl; naive_solver. Qed.

Lemma node_in_lt ns i n : node_in ns i = Some n -> i < vlen ns.
Proof. rewrite node_in_vget. apply vget_Some_lt. Qed.

Lemma node_in_vset ns i x j :
  i < vlen ns -> node_in (vset ns i x) j = if decide (j = i) then x else node_in ns j.
Proof.
  intros Hi. unfold node_in. case_decide as E.
  - subst. by rewrite vget_vset_eq.
  - by rewrite vget_vset_ne.
Qed.

Fixpoint chain (ns : list (option RadixNodeV1)) (o : option N) (ch : list N) : Prop :=
  match ch with
  | [] => o = None
  | c :: ch' => o = Some c /\ exists n, node_in ns c = Some n /\ chain ns (next_sibling n) ch'
  end.

(** A chain depends only on the sibling links of its members. *)
Lemma chain_ext ns ns' o ch :
  (forall c n, c ∈ ch -> node_in ns c = Some n ->
     exists n', node_in ns' c = Some n' /\ next_sibling n' = next_sibling n) ->
  chain ns o ch -> chain ns' o ch.
Proof.
  revert o. induction ch as [|c ch IH]; intros o Hext; [done|]. intros [-> (n & Hn & Hch)].
  split; [done|]. destruct (Hext c n) as (n' & Hn' & Hs); [by left|done|].
  exists n'. split; [done|]. rewrite Hs. apply IH; [|done].
  intros c' m Hc'. apply Hext. by right.
Qed.

Lemma chain_member ns o ch c : chain ns o ch -> c ∈ ch -> is_Some (node_in ns c).
Proof.
  revert o. induction ch as [|d ch IH]; intros o; [by intros _ ?%elem_of_nil|].
  intros [_ (n & Hn & Hch)] [->|Hc]%elem_of_cons; [by exists n|by eapply IH].
Qed.

(** ** The tree *)
Record shape (ns : list (option RadixNodeV1)) (T : gmap N (list N)) (K : N -> list N) : Prop := {
  sh_dom i : is_Some (node_in ns i) <-> is_Some (T !! i);
  sh_root : T !! 0 = Some [];
  sh_step i p : T !! i = Some p -> i <> 0 ->
    exists n q, node_in ns i = Some n /\ p = q ++ [token n] /\ T !! parent n = Some q;
  sh_depth i n p : node_in ns i = Some n -> T !! i = Some p -> depth n = vlen p;
  sh_inj i j p : T !! i = Some p -> T !! j = Some p -> i = j;
  sh_kids i n : node_in ns i = Some n ->
    NoDup (K i) /\ chain ns (first_child n) (K i) /\
    forall j, j ∈ K i <-> j <> 0 /\ exists m, node_in ns j = Some m /\ parent m = i
}.

Section shape.
Context (ns : list (option RadixNodeV1)) (T : gmap N (list N)) (K : N -> list N).
Hypothesis sh : shape ns T K.

Lemma shape_node i p : T !! i = Some p -> exists n, node_in ns i = Some n /\ depth n = vlen p.
Proof.
  intros Hp. destruct (proj2 (sh_dom _ _ _ sh i)) as [n Hn]; [by exists p|].
  exists n. split; [done|]. by eapply sh_depth.
Qed.

Lemma shape_path i n : node_in ns i = Some n -> exists p, T !! i = Some p.
Proof. intros Hn. destruct (proj1 (sh_dom _ _ _ sh i)) as [p Hp]; [by exists n|]. by exists p. Qed.

Lemma shape_root_node : exists n, node_in ns 0 = Some n.
Proof. destruct (shape_node 0 [] (sh_root _ _ _ sh)) as (n & Hn & _). by exists n. Qed.

Lemma shape_lt i p : T !! i = Some p -> i < vlen ns.
Proof. intros (n & Hn & _)%shape_node. by eapply node_in_lt. Qed.

Lemma shape_nil i : T !! i = Some [] -> i = 0.
Proof. intros Hi. eapply sh_inj; [exact sh|done|apply sh]. Qed.

(** A child's path extends its parent's by its own token. *)
Lemma shape_child i j m p :
  T !! i = Some p -> j <> 0 -> node_in ns j = Some m -> parent m = i ->
  T !! j = Some (p ++ [token m]).
Proof.
  intros Hp Hj Hm <-. destruct (shape_path j m Hm) as [q Hq].
  destruct (sh_step _ _ _ sh j q Hq Hj) as (m' & q' & Hm' & -> & Hq').
  rewrite Hm in Hm'. injection Hm' as <-. rewrite Hp in Hq'. by injection Hq' as ->.
Qed.

Lemma shape_kid i p j :
  T !! i = Some p -> j ∈ K i <-> exists t, T !! j = Some (p ++ [t]).
Proof.
  intros Hp. destruct (shape_node i p Hp) as (n & Hn & _).
  destruct (sh_kids _ _ _ sh i n Hn) as (_ & _ & Hk). rewrite Hk. split.
  - intros (Hj & m & Hm & Hpar). exists (token m). by eapply shape_child.
  - intros [t Ht]. assert (Hj : j <> 0).
    { intros ->. rewrite (sh_root _ _ _ sh) in Ht. injection Ht as Ht. by destruct p. }
    split; [done|]. destruct (sh_step _ _ _ sh j _ Ht Hj) as (m & q & Hm & Happ & Hq).
    apply app_inj_tail in Happ as [<- _]. exists m. split; [done|]. by eapply sh_inj.
Qed.

(** The tree is closed under prefixes. *)
Lemma shape_prefix p : forall i k,
  T !! i = Some p -> (k <= length p)%nat -> exists j, T !! j = Some (take k p).
Proof.
  induction p as [|t p IH] using rev_ind; intros i k Hp Hk.
  { exists i. by rewrite take_nil. }
  rewrite length_app in Hk. simpl in Hk.
  destruct (decide (k = length p + 1)%nat) as [->|Hne].
  { exists i. rewrite take_ge; [done|]. rewrite length_app. simpl. lia. }
  assert (Hi : i <> 0).
  { intros ->. rewrite (sh_root _ _ _ sh) in Hp. injection Hp as Hp. by destruct p. }
  destruct (sh_step _ _ _ sh i _ Hp Hi) as (m & q & _ & Happ & Hq).
  apply app_inj_tail in Happ as [<- _].
  destruct (IH (parent m) k Hq) as [j Hj]; [lia|].
  exists j. by rewrite take_app_le by lia.
Qed.

(** Distinct allocated slots are at most the array's length. *)
Lemma shape_slots_bound (l : list N) : NoDup l -> (forall i, i ∈ l -> is_Some (T !! i)) -> vlen l <= vlen ns.
Proof.
  intros Hnd Hl. apply SchedInv.nodup_bound; [done|]. intros i Hi.
  destruct (Hl i Hi) as [p Hp]. by eapply shape_lt.
Qed.

Lemma shape_depth_lt i p : T !! i = Some p -> vlen p < vlen ns.
Proof.
  intros Hp.
  assert (Hl : forall k, (k <= length p)%nat -> exists l : list N, length l = S k /\ NoDup l /\
    forall j, j ∈ l -> exists n, (n <= k)%nat /\ T !! j = Some (take n p)).
  { induction k as [|k IH]; intros Hk.
    - exists [0]. split_and!; [done|apply NoDup_singleton|]. intros j ->%list_elem_of_singleton.
      exists 0%nat. split; [done|]. apply sh.
    - destruct IH as (l & Hlen & Hnd & Hl); [lia|].
      destruct (shape_prefix p i (S k) Hp Hk) as [j Hj]. exists (j :: l).
      split_and!; [simpl; lia| |].
      + constructor; [|done]. intros (n & Hn & Hjn)%Hl. rewrite Hj in Hjn. injection Hjn as Hjn.
        apply (f_equal length) in Hjn. rewrite !length_take in Hjn. lia.
      + intros j' [->|Hj']%elem_of_cons; [by exists (S k)|].
        destruct (Hl _ Hj') as (n & Hn & Hjn). exists n. split; [lia|done]. }
  destruct (Hl (length p) ltac:(lia)) as (l & Hlen & Hnd & Hl').
  assert (vlen l <= vlen ns).
  { apply shape_slots_bound; [done|]. intros j (n & _ & Hj)%Hl'. by eexists. }
  unfold vlen in *. lia.
Qed.

Lemma shape_kids_bound i n : node_in ns i = Some n -> vlen (K i) <= vlen ns.
Proof.
  intros Hn. destruct (sh_kids _ _ _ sh i n Hn) as (Hnd & _ & Hk).
  apply shape_slots_bound; [done|]. intros j (_ & m & Hm & _)%Hk.
  apply (sh_dom _ _ _ sh). by exists m.
Qed.
End shape.

(** ** Walks *)
Section walks.
Context (idx : M1RadixPrefixIndexV1) (T : gmap N (list N)) (K : N -> list N).
Hypothesis sh : shape (nodes idx) T K.

Lemma find_child_loop_wp fuel tok : forall ch o,
  chain (nodes idx) o ch -> (length ch <= fuel)%nat ->
  wp (find_child_loop fuel o tok) idx (fun idx' r => idx' = idx /\
    match r with
    | Some c => c ∈ ch /\ exists n, node_in (nodes idx) c = Some n /\ token n = tok
    | None => forall c n, c ∈ ch -> node_in (nodes idx) c = Some n -> token n <> tok
    end).
Proof.
  induction fuel as [|fuel IH]; intros [|c ch] o Hch Hf; simpl in Hf; try lia.
  - rewrite Hch. apply wp_ret. split; [done|]. by intros ? ? ?%elem_of_nil.
  - rewrite Hch. apply wp_ret. split; [done|]. by intros ? ? ?%elem_of_nil.
  - destruct Hch as [-> (n & Hn & Hch)]. cbn [find_child_loop].
    wp_step. apply wp_gets. rewrite node_at_in, Hn.
    destruct (N.eqb_spec (token n) tok) as [<-|Hne].
    + apply wp_ret. split; [done|]. split; [by left|]. by exists n.
    + eapply wp_mono; [apply (IH ch); [done|lia]|]. intros idx' [d|] [-> Hr]; split; try done.
      * destruct Hr as [Hd Hr]. split; [by right|done].
      * intros d m [->|Hd]%elem_of_cons Hm; [congruence|by eapply Hr].
Qed.

(** [find_child] finds the node of the extended path. *)
Lemma find_child_wp i p tok :
  T !! i = Some p ->
  wp (find_child i tok) idx (fun idx' r => idx' = idx /\
    match r with
    | Some c => T !! c = Some (p ++ [tok])
    | None => forall c, T !! c <> Some (p ++ [tok])
    end).
Proof.
  intros Hp. destruct (shape_node _ _ _ sh i p Hp) as (n & Hn & _).
  destruct (sh_kids _ _ _ sh i n Hn) as (Hnd & Hch & Hk).
  unfold find_child. wp_step. apply wp_gets. unfold id. rewrite node_at_in, Hn.
  eapply wp_mono; [eapply find_child_loop_wp; [exact Hch|]|].
  { pose proof (shape_kids_bound _ _ _ sh i n Hn) as Hb. unfold vlen in Hb. lia. }
  intros idx' [c|] [-> Hr]; split; try done.
  - destruct Hr as [Hc (m & Hm & <-)]. apply Hk in Hc as (Hc0 & m' & Hm' & Hpar).
    rewrite Hm in Hm'. injection Hm' as <-. by eapply shape_child.
  - intros c Hc. assert (HcK : c ∈ K i) by (eapply shape_kid; [done..|by exists tok]).
    apply Hk in HcK as HcK'. destruct HcK' as (Hc0 & m & Hm & Hpar).
    apply (Hr c m HcK Hm). pose proof (shape_child _ _ _ sh i c m p Hp Hc0 Hm Hpar) as Hc'.
    rewrite Hc in Hc'. injection Hc' as Hc'. by apply app_inj_tail in Hc' as [_ ->].
Qed.

(** The longest prefix of [toks] in the tree. *)
Lemma existing_prefix_loop_wp toks : forall i p,
  T !! i = Some p -> vlen p + vlen toks <= usize_max ->
  wp (existing_prefix_loop toks i (vlen p)) idx (fun idx' r => idx' = idx /\
    exists j k, r = Ok (j, vlen p + N.of_nat k) /\ (k <= length toks)%nat /\
      T !! j = Some (p ++ take k toks) /\
      (k < length toks -> forall c, T !! c <> Some (p ++ take (S k) toks))%nat).
Proof.
  induction toks as [|t toks IH]; intros i p Hp Hmax; cbn [existing_prefix_loop].
  { apply wp_ret. split; [done|]. exists i, 0%nat. rewrite app_nil_r, N.add_0_r.
    split_and!; [done|done|done|simpl; lia]. }
  rewrite vlen_cons in Hmax. wp_step. eapply wp_mono; [by apply find_child_wp|].
  intros idx' [c|] [-> Hc].
  - unfold or_violation, checked_add. rewrite (proj2 (N.leb_le _ _)) by lia.
    wp_step. apply wp_ret.
    replace (vlen p + 1) with (vlen (p ++ [t])) by (rewrite vlen_app; done).
    eapply wp_mono; [apply (IH c (p ++ [t]) Hc); rewrite vlen_app; unfold vlen in *; simpl; lia|].
    intros idx' r (-> & j & k & -> & Hk & Hj & Hmaxk). split; [done|].
    exists j, (S k). rewrite <- app_assoc in Hj, Hmaxk. split_and!.
    + do 2 f_equal. rewrite vlen_app. unfold vlen. simpl. lia.
    + simpl. lia.
    + done.
    + simpl. intros Hlt. apply Hmaxk. lia.
  - apply wp_ret. split; [done|]. exists i, 0%nat. rewrite app_nil_r, N.add_0_r.
    split_and!; [done|simpl; lia|done|done].
Qed.

Lemma existing_prefix_wp toks :
  vlen toks <= usize_max ->
  wp (existing_prefix toks) idx (fun idx' r => idx' = idx /\
    exists j k, r = Ok (j, N.of_nat k) /\ (k <= length toks)%nat /\ T !! j = Some (take k toks) /\
      (k < length toks -> forall c, T !! c <> Some (take (S k) toks))%nat).
Proof.
  intros Hmax. unfold existing_prefix. change 0 with (vlen (@nil N)) at 1.
  eapply wp_mono; [by apply existing_prefix_loop_wp; [apply sh|]|].
  intros idx' r (-> & j & k & -> & Hr). split; [done|]. exists j, k. done.
Qed.

(** Walking up from a node compares its path. *)
Lemma tokens_equal_loop_spec p : forall i toks,
  T !! i = Some p -> length toks = length p ->
  tokens_equal_loop idx (reverse toks) i = bool_decide (p = toks).
Proof.
  induction p as [|t p IH] using rev_ind; intros i toks Hp Hl.
  { destruct toks; [|done]. rewrite reverse_nil. cbn [tokens_equal_loop].
    rewrite (shape_nil _ _ _ sh i Hp). done. }
  destruct toks as [|u toks _] using rev_ind.
  { rewrite length_app in Hl. simpl in Hl. lia. }
  rewrite !length_app in Hl. simpl in Hl. rewrite reverse_snoc. cbn [tokens_equal_loop].
  assert (Hi : i <> 0).
  { intros ->. rewrite (sh_root _ _ _ sh) in Hp. injection Hp as Hp. by destruct p. }
  destruct (sh_step _ _ _ sh i _ Hp Hi) as (m & q & Hm & Happ & Hq).
  apply app_inj_tail in Happ as [<- ->]. rewrite node_at_in, Hm.
  destruct (N.eqb_spec (token m) u) as [<-|Hne]; cbn [negb].
  - rewrite (IH _ toks Hq) by lia. apply bool_decide_ext. split; [by intros ->|].
    by intros [-> _]%app_inj_tail.
  - symmetry. apply bool_decide_eq_false. intros [_ ?]%app_inj_tail. done.
Qed.

Lemma source_tokens_equal_spec s p toks :
  T !! endpoint s = Some p -> token_count s = vlen p ->
  source_tokens_equal idx s toks = bool_decide (p = toks).
Proof.
  intros Hp Hc. unfold source_tokens_equal. rewrite Hc.
  destruct (N.eqb_spec (vlen p) (vlen toks)) as [Hl|Hl]; cbn [negb].
  - apply tokens_equal_loop_spec; [done|]. unfold vlen in Hl. lia.
  - symmetry. apply bool_decide_eq_false. by intros ->.
Qed.

(** An ancestor is a node whose path is a prefix. *)
Lemma ancestor_loop_wp a pa : forall p fuel i,
  T !! a = Some pa -> T !! i = Some p -> (length p < fuel)%nat ->
  wp (ancestor_loop fuel a (vlen pa) i) idx (fun idx' r =>
    idx' = idx /\ r = bool_decide (pa `prefix_of` p)).
Proof.
  intros p. induction p as [|t p IH] using rev_ind; intros fuel i Ha Hp Hf;
    (destruct fuel as [|fuel]; [lia|]); cbn [ancestor_loop]; wp_step; apply wp_gets;
    destruct (shape_node _ _ _ sh i _ Hp) as (n & Hn & Hd); rewrite node_at_in, Hn, Hd.
  - destruct (N.ltb_spec (vlen (@nil N)) (vlen pa)) as [Hlt|Hge].
    { apply wp_ret. split; [done|]. symmetry. apply bool_decide_eq_false.
      intros H%prefix_length. unfold vlen in Hlt. simpl in *. lia. }
    assert (pa = []) as -> by (destruct pa; [done|rewrite vlen_cons, vlen_nil in Hge; lia]).
    rewrite (sh_inj _ _ _ sh i a [] Hp Ha), N.eqb_refl. apply wp_ret. split; [done|].
    symmetry. apply bool_decide_eq_true. apply prefix_nil.
  - rewrite length_app in Hf. simpl in Hf.
    destruct (N.ltb_spec (vlen (p ++ [t])) (vlen pa)) as [Hlt|Hge].
    { apply wp_ret. split; [done|]. symmetry. apply bool_decide_eq_false.
      intros H%prefix_length. unfold vlen in Hlt. lia. }
    destruct (N.eqb_spec i a) as [->|Hne].
    { rewrite Hp in Ha. injection Ha as <-. apply wp_ret. split; [done|].
      symmetry. by apply bool_decide_eq_true. }
    assert (Hi : i <> 0).
    { intros ->. rewrite (sh_root _ _ _ sh) in Hp. injection Hp as Hp. by destruct p. }
    destruct (sh_step _ _ _ sh i _ Hp Hi) as (m & q & Hm & Happ & Hq).
    apply app_inj_tail in Happ as [<- ->]. rewrite Hn in Hm. injection Hm as <-.
    eapply wp_mono; [apply IH; [done|done|lia]|]. intros idx' r [-> ->]. split; [done|].
    apply bool_decide_ext. split; [intros; by apply prefix_app_r|].
    intros [| ->]%prefix_snoc; [done|]. destruct Hne. by eapply sh_inj.
Qed.

Lemma node_is_ancestor_wp a pa i p :
  T !! a = Some pa -> T !! i = Some p ->
  wp (node_is_ancestor a i) idx (fun idx' r => idx' = idx /\ r = bool_decide (pa `prefix_of` p)).
Proof.
  intros Ha Hp. destruct (shape_node _ _ _ sh a pa Ha) as (n & Hn & Hd).
  unfold node_is_ancestor. wp_step. apply wp_gets. unfold id. rewrite node_at_in, Hn, Hd.
  apply ancestor_loop_wp; [done..|]. pose proof (shape_depth_lt _ _ _ sh i p Hp) as Hb.
  unfold vlen in Hb. lia.
Qed.
End walks.
