(* ===== verification/RadixOps.v ===== *)
(** The mutations of the trie: inserting a child adds one path, unlinking a
    leaf removes one, and pruning removes exactly the paths no live source
    needs. *)
From S2P Require Import Prelude Spec Radix RadixSpec RadixInv.
From stdpp Require Import gmap.
Local Open Scope N_scope.
Local Open Scope prog_scope.

(** ** The state of the trie *)
Record trie_inv (idx : M1RadixPrefixIndexV1) (T : gmap N (list N)) (K : N -> list N)
    (P : gset (list N)) : Prop := {
  ti_shape : shape (nodes idx) T K;
  ti_paths p : p ∈ P <-> exists i, T !! i = Some p;
  ti_count : node_count idx = N.of_nat (size P);
  ti_len : vlen (nodes idx) = limit_nodes (limits idx);
  ti_bound : node_count idx <= limit_nodes (limits idx) <= usize_max
}.

(** The other fields. *)
Definition frame (idx idx' : M1RadixPrefixIndexV1) : Prop :=
  limits idx' = limits idx /\ sources idx' = sources idx /\ source_count idx' = source_count idx /\
  stored_tokens idx' = stored_tokens idx /\ next_ticket idx' = next_ticket idx.

Lemma frame_refl idx : frame idx idx.
Proof. done. Qed.

Lemma frame_trans a b c : frame a b -> frame b c -> frame a c.
Proof. unfold frame. intros (-> & -> & -> & -> & ->) H. exact H. Qed.

Lemma update_node_wp idx i f n (Q : M1RadixPrefixIndexV1 -> result unit M1RadixPrefixIndexErrorV1 -> Prop) :
  node_in (nodes idx) i = Some n ->
  Q (put_nodes (vset (nodes idx) i (Some (f n))) idx) (Ok tt) ->
  wp (update_node i f) idx Q.
Proof.
  intros Hn HQ. pose proof (node_in_lt _ _ _ Hn) as Hi. apply node_in_vget in Hn.
  unfold update_node. wp_step. apply (wp_read_at _ None); [done|].
  rewrite (vnth_get _ _ _ _ Hn). wp_step. apply (wp_update_at _ _ None); [done|]. by apply wp_ret.
Qed.

(** ** Free slots *)
Lemma position_Some {A} (f : A -> bool) l i :
  position f l = Some i -> exists a, vget l i = Some a /\ f a = true.
Proof.
  unfold position. intros H. destruct (list_find _ l) as [[k a]|] eqn:E; [|done].
  simpl in H. injection H as <-. apply list_find_Some in E as (Hk & Hf & _).
  exists a. unfold vget. rewrite Nat2N.id. split; [done|by apply Is_true_true].
Qed.

Lemma position_None {A} (f : A -> bool) l i a :
  position f l = None -> vget l i = Some a -> f a = false.
Proof.
  unfold position. intros H Ha. destruct (list_find _ l) as [[k b]|] eqn:E; [done|].
  apply list_find_None in E. rewrite Forall_lookup in E. specialize (E _ _ Ha).
  destruct (f a); [by destruct E|done].
Qed.

Lemma free_slot_Some idx c :
  free_slot idx = Some c -> c <> 0 /\ c < vlen (nodes idx) /\ node_in (nodes idx) c = None.
Proof.
  unfold free_slot. intros H.
  destruct (position _ _) as [k|] eqn:E; [|done]. injection H as <-.
  apply position_Some in E as (a & Ha & Hf). unfold vget in Ha. rewrite lookup_drop in Ha.
  replace (1 + N.to_nat k)%nat with (N.to_nat (k + 1)) in Ha by lia. fold (vget (nodes idx) (k + 1)) in Ha.
  split; [lia|]. split; [by eapply vget_Some_lt|]. unfold node_in. rewrite Ha. by destruct a.
Qed.

Lemma free_slot_None idx T K :
  shape (nodes idx) T K -> free_slot idx = None -> forall i, i < vlen (nodes idx) -> is_Some (T !! i).
Proof.
  intros sh H i Hi. apply (sh_dom _ _ _ sh). destruct (decide (i = 0)) as [->|Hne].
  { destruct (shape_root_node _ _ _ sh) as [n Hn]. by exists n. }
  unfold free_slot in H. destruct (position _ _) as [k|] eqn:E; [done|].
  destruct (vget_lt _ _ Hi) as [a Ha].
  assert (Hd : vget (drop 1 (nodes idx)) (i - 1) = Some a).
  { unfold vget in *. rewrite lookup_drop. replace (1 + N.to_nat (i - 1))%nat with (N.to_nat i) by lia. done. }
  pose proof (position_None _ _ _ _ E Hd) as Hf. unfold node_in. rewrite Ha. by destruct a.
Qed.

(** Fewer paths than slots leave a free slot. *)
Lemma free_slot_exists idx T K P :
  trie_inv idx T K P -> node_count idx < limit_nodes (limits idx) -> exists c, free_slot idx = Some c.
Proof.
  intros [sh Hp Hc Hl _] Hlt. destruct (free_slot idx) as [c|] eqn:E; [by exists c|]. exfalso.
  pose proof (free_slot_None _ _ _ sh E) as Hall.
  assert (Hsub : forall n, (n <= length (nodes idx))%nat -> exists l : list (list N), length l = n /\ NoDup l /\
    forall p, p ∈ l -> exists i, i < N.of_nat n /\ T !! i = Some p).
  { induction n as [|n IH]; intros Hn.
    - exists []. split_and!; [done|constructor|by intros p ?%elem_of_nil].
    - destruct IH as (l & Hlen & Hnd & Hin); [lia|].
      destruct (Hall (N.of_nat n)) as [p Hpn]; [unfold vlen; lia|]. exists (p :: l).
      split_and!; [simpl; lia| |].
      + constructor; [|done]. intros (i & Hi & Hip)%Hin.
        rewrite (sh_inj _ _ _ sh _ _ _ Hip Hpn) in Hi. lia.
      + intros q [->|Hq]%elem_of_cons; [exists (N.of_nat n); split; [lia|done]|].
        destruct (Hin _ Hq) as (i & Hi & Hiq). exists i. split; [lia|done]. }
  destruct (Hsub (length (nodes idx)) ltac:(lia)) as (l & Hlen & Hnd & Hin).
  assert (Hle : (length l <= size P)%nat).
  { rewrite <- (size_list_to_set (C := gset (list N)) l Hnd). apply subseteq_size.
    intros p Hpl. apply elem_of_list_to_set in Hpl. apply Hp. destruct (Hin _ Hpl) as (i & _ & Hi). by exists i. }
  unfold vlen in Hl. lia.
Qed.

(** ** Inserting a child *)
Section insert.
Context (ns : list (option RadixNodeV1)) (T : gmap N (list N)) (K : N -> list N).
Hypothesis sh : shape ns T K.
Context (i c t : N) (p : list N) (n : RadixNodeV1).
Hypothesis path_i : T !! i = Some p.
Hypothesis node_i : node_in ns i = Some n.
Hypothesis new_path : forall j, T !! j <> Some (p ++ [t]).
Hypothesis free_c : c <> 0 /\ c < vlen ns /\ node_in ns c = None.

Local Definition child : RadixNodeV1 := mkNode t i None (first_child n) (vlen p + 1).
Local Definition ns' : list (option RadixNodeV1) :=
  vset (vset ns c (Some child)) i (Some (set_first_child (Some c) n)).
Local Definition K' (k : N) : list N := if decide (k = i) then c :: K i else if decide (k = c) then [] else K k.

Lemma insert_free : T !! c = None.
Proof.
  pose proof free_c as (_ & _ & Hc). apply eq_None_not_Some. intros Hs.
  apply (sh_dom _ _ _ sh) in Hs as [m Hm]. congruence.
Qed.

Lemma insert_ne : c <> i.
Proof. intros He. pose proof insert_free as Hf. rewrite He in Hf. congruence. Qed.

Lemma insert_node_in j :
  node_in ns' j = if decide (j = i) then Some (set_first_child (Some c) n)
                  else if decide (j = c) then Some child else node_in ns j.
Proof.
  pose proof free_c as (_ & Hc & _). pose proof (node_in_lt _ _ _ node_i).
  unfold ns'. rewrite !node_in_vset by (rewrite ?vlen_vset; done). done.
Qed.

(** Every old node keeps its token, parent, depth and sibling link. *)
Lemma insert_old j m :
  node_in ns j = Some m -> exists m', node_in ns' j = Some m' /\ token m' = token m /\
    parent m' = parent m /\ depth m' = depth m /\ next_sibling m' = next_sibling m /\
    (j <> i -> m' = m).
Proof.
  intros Hm. rewrite insert_node_in. case_decide as Hji.
  - subst. rewrite node_i in Hm. injection Hm as <-. eexists. split; [done|]. done.
  - rewrite decide_False; [by exists m|]. intros ->. pose proof free_c as (_ & _ & Hc). congruence.
Qed.

Lemma insert_chain o ch : chain ns o ch -> chain ns' o ch.
Proof.
  apply chain_ext. intros d m _ Hm. destruct (insert_old d m Hm) as (m' & Hm' & _ & _ & _ & Hs & _).
  by exists m'.
Qed.

(** The children of the enlarged tree. *)
Lemma insert_kids j m :
  node_in ns' j = Some m ->
  NoDup (K' j) /\ chain ns' (first_child m) (K' j) /\
  forall k, k ∈ K' j <-> k <> 0 /\ exists mk, node_in ns' k = Some mk /\ parent mk = j.
Proof.
  pose proof insert_free as Hfree. pose proof insert_ne as Hne. pose proof free_c as (Hc0 & Hclt & Hcn).
  intros Hm. unfold K'. rewrite insert_node_in in Hm.
  assert (Hcnotin : forall k, c ∈ K k -> is_Some (node_in ns k) -> False).
  { intros k Hck [mk Hmk]. destruct (sh_kids _ _ _ sh k mk Hmk) as (_ & _ & Hk).
    apply Hk in Hck as (_ & m' & Hm' & _). congruence. }
  destruct (decide (j = i)) as [->|Hji].
  + injection Hm as <-. destruct (sh_kids _ _ _ sh i n node_i) as (Hnd & Hch & Hk).
    split_and!.
    * constructor; [|done]. intros Hci. eapply Hcnotin; [exact Hci|by exists n].
    * split; [done|]. exists child. rewrite insert_node_in, decide_False, decide_True by done.
      split; [done|]. by apply insert_chain.
    * intros k. rewrite elem_of_cons, Hk. split.
      -- intros [->|(Hk0 & mk & Hmk & Hpar)].
         ++ split; [done|]. exists child. rewrite insert_node_in, decide_False, decide_True by done. done.
         ++ split; [done|]. destruct (insert_old k mk Hmk) as (m' & Hm' & _ & Hp & _).
            exists m'. rewrite Hp. done.
      -- intros (Hk0 & m' & Hm' & Hpar). rewrite insert_node_in in Hm'.
         repeat case_decide; try subst k; [|by left|right].
         ++ right. split; [done|]. injection Hm' as <-. by exists n.
         ++ split; [done|]. by exists m'.
  + destruct (decide (j = c)) as [->|Hjc].
    * injection Hm as <-. cbn. split_and!; [constructor|done|]. intros k. rewrite elem_of_nil.
      split; [done|]. intros (Hk0 & m' & Hm' & Hpar). rewrite insert_node_in in Hm'.
      repeat case_decide; try subst k.
      -- injection Hm' as <-. cbn in Hpar. destruct (sh_step _ _ _ sh i p path_i Hk0) as (mi & q & Hmi & _ & Hq).
         rewrite node_i in Hmi. injection Hmi as <-. rewrite Hpar in Hq. congruence.
      -- injection Hm' as <-. done.
      -- destruct (shape_path _ _ _ sh k m' Hm') as [pk Hpk].
         destruct (sh_step _ _ _ sh k pk Hpk Hk0) as (mk & q & Hmk & _ & Hq).
         rewrite Hm' in Hmk. injection Hmk as <-. rewrite Hpar in Hq. congruence.
    * destruct (sh_kids _ _ _ sh j m Hm) as (Hnd & Hch & Hk). split_and!; [done|by apply insert_chain|].
      intros k. rewrite Hk. split.
      -- intros (Hk0 & mk & Hmk & Hpar). split; [done|].
         destruct (insert_old k mk Hmk) as (m' & Hm' & _ & Hp & _). exists m'. by rewrite Hp.
      -- intros (Hk0 & m' & Hm' & Hpar). split; [done|]. rewrite insert_node_in in Hm'.
         repeat case_decide; try subst k.
         ++ injection Hm' as <-. by exists n.
         ++ injection Hm' as <-. done.
         ++ by exists m'.
Qed.

Lemma insert_shape : shape ns' (<[c := p ++ [t]]> T) K'.
Proof.
  pose proof insert_free as Hfree. pose proof insert_ne as Hne. pose proof free_c as (Hc0 & Hclt & Hcn).
  assert (Hi0 : forall j q, T !! j = Some q -> j <> c) by (intros j q Hj ->; congruence).
  split.
  - intros j. rewrite insert_node_in. repeat case_decide; subst.
    + rewrite lookup_insert_ne by done. rewrite path_i. split; by eexists.
    + rewrite lookup_insert_eq. split; by eexists.
    + rewrite lookup_insert_ne by done. apply sh.
  - rewrite lookup_insert_ne by done. apply sh.
  - intros j q Hq Hj. destruct (decide (j = c)) as [->|Hjc].
    + rewrite lookup_insert_eq in Hq. injection Hq as <-. exists child, p.
      rewrite insert_node_in, decide_False, decide_True, lookup_insert_ne by done. done.
    + rewrite lookup_insert_ne in Hq by done.
      destruct (sh_step _ _ _ sh j q Hq Hj) as (m & q' & Hm & -> & Hq').
      destruct (insert_old j m Hm) as (m' & Hm' & Ht & Hp & _). exists m', q'.
      rewrite Ht, Hp, lookup_insert_ne by (by apply not_eq_sym, (Hi0 _ _ Hq')). done.
  - intros j m q Hm Hq. rewrite insert_node_in in Hm. repeat case_decide; subst.
    + rewrite lookup_insert_ne in Hq by done. injection Hm as <-. rewrite path_i in Hq.
      injection Hq as <-. cbn. by eapply sh_depth.
    + rewrite lookup_insert_eq in Hq. injection Hm as <-. injection Hq as <-. cbn.
      rewrite vlen_app. done.
    + rewrite lookup_insert_ne in Hq by done. by eapply sh_depth.
  - intros j k q Hj Hk. destruct (decide (j = c)) as [->|Hjc], (decide (k = c)) as [->|Hkc];
      rewrite ?lookup_insert_eq, ?lookup_insert_ne in * by done; try done.
    + injection Hj as <-. by apply new_path in Hk.
    + injection Hk as <-. by apply new_path in Hj.
    + by eapply sh_inj.
  - intros j m Hm. by apply insert_kids.
Qed.
End insert.

Lemma insert_child_wp idx T K P i p t :
  trie_inv idx T K P -> T !! i = Some p -> p ++ [t] ∉ P ->
  node_count idx < limit_nodes (limits idx) -> vlen p + 1 <= usize_max ->
  wp (insert_child i t) idx (fun idx' r => exists c K',
    r = Ok c /\ T !! c = None /\ trie_inv idx' (<[c := p ++ [t]]> T) K' ({[p ++ [t]]} ∪ P) /\
    node_count idx' = node_count idx + 1 /\ frame idx idx').
Proof.
  intros Hinv Hi Hnew Hlt Hmax. destruct (free_slot_exists _ _ _ _ Hinv Hlt) as [c Hfree].
  pose proof Hinv as [sh Hp Hcount Hlen Hbound].
  pose proof (free_slot_Some _ _ Hfree) as Hc. pose proof Hc as (Hc0 & Hclt & Hcn).
  destruct (shape_node _ _ _ sh i p Hi) as (n & Hn & Hd).
  assert (Hnewp : forall j, T !! j <> Some (p ++ [t])).
  { intros j Hj. apply Hnew, Hp. by exists j. }
  unfold insert_child. wp_step. apply wp_gets. unfold id. rewrite Hfree, node_at_in, Hn.
  unfold or_violation, checked_add. wp_step. apply wp_ret. wp_step. apply wp_ret.
  rewrite Hd, (proj2 (N.leb_le _ _)) by done. wp_step. apply wp_ret.
  wp_step. apply (wp_update_at _ _ None); [done|]. wp_step.
  apply update_node_wp with (n := n).
  { cbn [nodes put_nodes]. rewrite node_in_vset by done. rewrite decide_False; [done|].
    intros ->. congruence. }
  wp_step. apply wp_gets. cbn [node_count put_nodes nodes].
  rewrite (proj2 (N.leb_le _ _)) by lia. wp_step. apply wp_ret. wp_step. apply wp_modify.
  apply wp_ret. exists c. eexists. split; [done|].
  assert (Hcf : T !! c = None) by exact (insert_free _ _ _ sh _ Hc).
  split; [done|]. split; [|done].
  split; cbn [nodes put_nodes put_node_count limits node_count].
  - by eapply insert_shape.
  - intros q. rewrite elem_of_union, elem_of_singleton, Hp. split.
    + intros [->|[j Hj]]; [exists c; by rewrite lookup_insert_eq|].
      exists j. rewrite lookup_insert_ne; [done|]. intros ->. congruence.
    + intros [j Hj]. destruct (decide (j = c)) as [->|Hne].
      * rewrite lookup_insert_eq in Hj. injection Hj as <-. by left.
      * rewrite lookup_insert_ne in Hj by done. right. by exists j.
  - rewrite size_union, size_singleton by set_solver. lia.
  - by rewrite !vlen_vset.
  - lia.
Qed.

Lemma insert_tokens_wp ts : forall idx T K P i p,
  trie_inv idx T K P -> T !! i = Some p ->
  (forall t ts', ts = t :: ts' -> p ++ [t] ∉ P) ->
  node_count idx + vlen ts <= limit_nodes (limits idx) -> vlen p + vlen ts <= usize_max ->
  wp (insert_tokens ts i) idx (fun idx' j => exists T' K' P',
    trie_inv idx' T' K' P' /\ T' !! j = Some (p ++ ts) /\
    (forall k q, T !! k = Some q -> T' !! k = Some q) /\
    (forall q, q ∈ P' <-> q ∈ P \/ exists k, (1 <= k <= length ts)%nat /\ q = p ++ take k ts) /\
    node_count idx' = node_count idx + vlen ts /\ frame idx idx').
Proof.
  induction ts as [|t ts IH]; intros idx T K P i p Hinv Hi Hnew Hcap Hmax; cbn [insert_tokens].
  { apply wp_ret. exists T, K, P. rewrite app_nil_r, vlen_nil, N.add_0_r.
    split_and!; try done. intros q. split; [by left|]. intros [|(k & [Hk1 Hk2] & _)]; [done|].
    simpl in Hk2. lia. }
  rewrite vlen_cons in Hcap, Hmax. wp_step.
  eapply wp_mono; [eapply insert_child_wp; [exact Hinv|exact Hi|by eapply Hnew|lia|lia]|].
  intros idx1 r (c & K1 & -> & Hc & Hinv1 & Hcount1 & Hframe1).
  pose proof Hinv as [sh Hp _ _ _]. pose proof Hframe1 as (Hlim & _).
  eapply wp_mono; [eapply (IH idx1 _ K1 _ c (p ++ [t]) Hinv1)|].
  - by rewrite lookup_insert_eq.
  - intros u ts' -> Hin. apply elem_of_union in Hin as [Hin|Hin].
    + apply elem_of_singleton in Hin. apply (f_equal length) in Hin.
      rewrite !length_app in Hin. simpl in Hin. lia.
    + apply Hp in Hin as [j Hj].
      destruct (shape_prefix _ _ _ sh _ j (length (p ++ [t])) Hj) as [j' Hj'];
        [rewrite !length_app; simpl; lia|].
      rewrite take_app_length in Hj'. apply (Hnew t (u :: ts') eq_refl), Hp. by exists j'.
  - rewrite Hlim. lia.
  - rewrite vlen_app, vlen_cons, vlen_nil. lia.
  - intros idx' j (T' & K' & P' & Hinv' & Hj & Hold & HP & Hcount & Hframe).
    exists T', K', P'. rewrite <- app_assoc in Hj. split_and!; [done|done| | | |].
    + intros k q Hk. apply Hold. rewrite lookup_insert_ne; [done|]. intros ->. congruence.
    + intros q. rewrite HP, elem_of_union, elem_of_singleton. split.
      * intros [[->|]|(k & Hk & ->)]; [|by left|].
        -- right. exists 1%nat. simpl. split; [lia|]. by rewrite take_0.
        -- right. exists (S k). simpl. split; [lia|]. by rewrite <- app_assoc.
      * intros [|(k & Hk & ->)]; [by left; right|]. destruct k as [|[|k]]; simpl in Hk; [lia|..].
        -- left. left. simpl. by rewrite take_0.
        -- right. exists (S k). split; [lia|]. rewrite <- app_assoc. done.
    + rewrite Hcount, Hcount1, vlen_cons. lia.
    + by eapply frame_trans.
Qed.

(** ** Unlinking a leaf *)
Lemma chain_unlink ns l1 prev i l2 n mprev : forall o,
  chain ns o (l1 ++ prev :: i :: l2) -> NoDup (l1 ++ prev :: i :: l2) ->
  node_in ns i = Some n -> node_in ns prev = Some mprev ->
  chain (vset ns prev (Some (set_next_sibling (next_sibling n) mprev))) o (l1 ++ prev :: l2).
Proof.
  induction l1 as [|x l1 IH]; intros o; cbn [app].
  - intros [-> (m & Hm & [_ (n' & Hn' & Hch)])] Hnd Hn Hmp. split; [done|].
    rewrite Hn in Hn'. injection Hn' as <-. rewrite Hmp in Hm. injection Hm as <-.
    pose proof (node_in_lt _ _ _ Hmp). eexists. rewrite node_in_vset, decide_True by done.
    split; [done|]. cbn [set_next_sibling next_sibling]. eapply chain_ext; [|exact Hch].
    intros c m Hc Hcm. exists m. rewrite node_in_vset by done. rewrite decide_False; [done|].
    intros ->. apply NoDup_cons in Hnd as [Hnin _]. set_solver.
  - intros [-> (m & Hm & Hch)] Hnd Hn Hmp. split; [done|]. exists m.
    pose proof (node_in_lt _ _ _ Hmp). apply NoDup_cons in Hnd as [Hnin Hnd].
    rewrite node_in_vset, decide_False by (done || set_solver). split; [done|]. by apply IH.
Qed.

Lemma unlink_loop_wp idx prev i n mprev l2 : forall l1 o fuel,
  chain (nodes idx) o (l1 ++ prev :: i :: l2) -> NoDup (l1 ++ prev :: i :: l2) ->
  node_in (nodes idx) prev = Some mprev -> node_in (nodes idx) i = Some n ->
  (length l1 < fuel)%nat ->
  wp (unlink_loop fuel o i (next_sibling n)) idx (fun idx' r => r = Ok tt /\
    idx' = put_nodes (vset (nodes idx) prev (Some (set_next_sibling (next_sibling n) mprev))) idx).
Proof.
  induction l1 as [|x l1 IH]; intros o fuel; cbn [app]; intros [-> (m & Hm & Hch)] Hnd Hmp Hn Hf;
    (destruct fuel as [|fuel]; [simpl in Hf; lia|]); cbn [unlink_loop];
    wp_step; apply wp_gets; unfold id; rewrite node_at_in, Hm; wp_step; apply wp_ret.
  - rewrite Hmp in Hm. injection Hm as <-. destruct Hch as [-> _]. rewrite decide_True by done.
    wp_step. eapply update_node_wp; [exact Hmp|]. by apply wp_ret.
  - rewrite decide_False.
    + apply NoDup_cons in Hnd as [_ Hnd]. apply IH; try done. simpl in Hf. lia.
    + intros Hs. apply NoDup_cons in Hnd as [_ Hnd]. rewrite Hs in Hch.
      destruct l1 as [|y l1]; cbn [app] in Hch; destruct Hch as [[= ->] _];
        cbn [app] in Hnd; apply NoDup_cons in Hnd as [Hnin _]; set_solver.
Qed.

Lemma filter_ne_absent (i : N) (l : list N) : i ∉ l -> filter (.≠ i) l = l.
Proof.
  induction l as [|x l IH]; [done|]. intros [Hx Hl]%not_elem_of_cons.
  rewrite filter_cons_True by done. f_equal. by apply IH.
Qed.

Section unlink.
Context (ns : list (option RadixNodeV1)) (T : gmap N (list N)) (K : N -> list N).
Hypothesis sh : shape ns T K.
Context (i : N) (p : list N) (n nj : RadixNodeV1).
Hypothesis path_i : T !! i = Some p.
Hypothesis i_ne : i <> 0.
Hypothesis node_i : node_in ns i = Some n.
Hypothesis node_j : node_in ns (parent n) = Some nj.

(** The node array after the unlink. *)
Definition unlinked (ns1 : list (option RadixNodeV1)) : Prop :=
  vlen ns1 = vlen ns /\
  (forall k, node_in ns k = None -> node_in ns1 k = None) /\
  (forall k m, node_in ns k = Some m -> exists m1, node_in ns1 k = Some m1 /\
     token m1 = token m /\ parent m1 = parent m /\ depth m1 = depth m /\
     (k <> parent n -> first_child m1 = first_child m) /\
     (k ∉ K (parent n) -> next_sibling m1 = next_sibling m)) /\
  (forall m1, node_in ns1 (parent n) = Some m1 ->
     chain ns1 (first_child m1) (filter (.≠ i) (K (parent n)))).

Lemma i_in_kids : i ∈ K (parent n).
Proof. apply (sh_kids _ _ _ sh _ _ node_j). split; [done|]. by exists n. Qed.

Lemma parent_not_kid : parent n ∉ K (parent n).
Proof.
  intros Hin. apply (sh_kids _ _ _ sh _ _ node_j) in Hin as (Hj0 & m & Hm & Hpar).
  rewrite node_j in Hm. injection Hm as <-. destruct (shape_path _ _ _ sh _ _ node_j) as [q Hq].
  destruct (sh_step _ _ _ sh _ _ Hq Hj0) as (m & q' & Hm & -> & Hq').
  rewrite node_j in Hm. injection Hm as <-. rewrite Hpar, Hq in Hq'. injection Hq' as Hq'.
  apply (f_equal length) in Hq'. rewrite length_app in Hq'. simpl in Hq'. lia.
Qed.

Lemma filter_ne_split l1 l2 : NoDup (l1 ++ i :: l2) -> filter (.≠ i) (l1 ++ i :: l2) = l1 ++ l2.
Proof.
  intros Hnd. rewrite NoDup_app in Hnd. destruct Hnd as (_ & Hl1 & Hnd).
  apply NoDup_cons in Hnd as [Hl2 _]. rewrite filter_app, filter_cons_False by (intros H; by apply H).
  f_equal; apply filter_ne_absent; [|done]. intros Hi. apply (Hl1 i Hi). by left.
Qed.

(** The leaf is the first child. *)
Lemma unlinked_first :
  first_child nj = Some i -> unlinked (vset ns (parent n) (Some (set_first_child (next_sibling n) nj))).
Proof.
  intros Hfirst. pose proof (node_in_lt _ _ _ node_j) as Hlt. pose proof parent_not_kid as Hpk.
  destruct (sh_kids _ _ _ sh _ _ node_j) as (Hnd & Hch & _).
  split; [by rewrite vlen_vset|]. split; [|split].
  - intros k Hk. rewrite node_in_vset by done. rewrite decide_False; [done|]. intros ->. congruence.
  - intros k m Hm. rewrite node_in_vset by done. case_decide as Hk; [|by exists m].
    subst k. rewrite node_j in Hm. injection Hm as <-. eexists. split; [done|]. done.
  - intros m1. rewrite node_in_vset, decide_True by done. intros [= <-].
    cbn [first_child set_first_child]. destruct (K (parent n)) as [|c ch]; simpl in Hch; [congruence|].
    destruct Hch as [Hc (m & Hm & Hch)]. rewrite Hfirst in Hc. injection Hc as <-.
    rewrite node_i in Hm. injection Hm as <-.
    pose proof (filter_ne_split [] ch Hnd) as Hf. cbn [app] in Hf. rewrite Hf.
    eapply chain_ext; [|exact Hch].
    intros c m Hc Hm. exists m. rewrite node_in_vset by done. rewrite decide_False; [done|].
    intros ->. apply Hpk. by right.
Qed.

(** The leaf has an elder sibling. *)
Lemma unlinked_later l1 prev l2 mprev :
  K (parent n) = l1 ++ prev :: i :: l2 -> node_in ns prev = Some mprev ->
  unlinked (vset ns prev (Some (set_next_sibling (next_sibling n) mprev))).
Proof.
  intros HK Hprev. pose proof (node_in_lt _ _ _ Hprev) as Hlt. pose proof parent_not_kid as Hpk.
  destruct (sh_kids _ _ _ sh _ _ node_j) as (Hnd & Hch & _).
  assert (Hpk' : parent n <> prev) by (rewrite HK in Hpk; set_solver).
  split; [by rewrite vlen_vset|]. split; [|split].
  - intros k Hk. rewrite node_in_vset by done. rewrite decide_False; [done|]. intros ->. congruence.
  - intros k m Hm. rewrite node_in_vset by done. case_decide as Hk; [|by exists m].
    subst k. rewrite Hprev in Hm. injection Hm as <-. eexists. split; [done|].
    split_and!; try done. intros Hnin. destruct Hnin. rewrite HK. set_solver.
  - intros m1. rewrite node_in_vset, decide_False, node_j by done. intros [= <-].
    rewrite HK in Hch, Hnd |- *.
    rewrite (cons_middle prev), app_assoc, filter_ne_split by (by rewrite <- app_assoc).
    rewrite <- app_assoc. by eapply chain_unlink.
Qed.

(** Two different parents have no common child. *)
Lemma kids_disjoint k mk c : node_in ns k = Some mk -> k <> parent n -> c ∈ K k -> c ∉ K (parent n).
Proof.
  intros Hk Hne Hc Hc'. apply (sh_kids _ _ _ sh _ _ Hk) in Hc as (_ & m & Hm & Hpar).
  apply (sh_kids _ _ _ sh _ _ node_j) in Hc' as (_ & m' & Hm' & Hpar'). congruence.
Qed.

Section removed.
Context (ns1 : list (option RadixNodeV1)).
Hypothesis unl : unlinked ns1.
Hypothesis leaf : K i = [].

Local Definition removed : list (option RadixNodeV1) := vset ns1 i None.
Definition K_removed (k : N) : list N := if decide (k = parent n) then filter (.≠ i) (K k) else K k.

Lemma removed_in k : node_in removed k = if decide (k = i) then None else node_in ns1 k.
Proof.
  unfold removed. apply node_in_vset. destruct unl as (Hl & _). rewrite Hl. by eapply node_in_lt.
Qed.

Lemma removed_chain o ch : i ∉ ch -> chain ns1 o ch -> chain removed o ch.
Proof.
  intros Hi. apply chain_ext. intros c m Hc Hm. exists m. rewrite removed_in, decide_False; [done|].
  by intros ->.
Qed.

(** A surviving node comes from an old node. *)
Lemma removed_old k m1 :
  node_in removed k = Some m1 -> k <> i /\ exists m, node_in ns k = Some m /\ token m1 = token m /\
    parent m1 = parent m /\ depth m1 = depth m /\ (k <> parent n -> first_child m1 = first_child m).
Proof.
  rewrite removed_in. case_decide as Hk; [done|]. intros Hm1. split; [done|].
  destruct unl as (_ & Hnone & Hsome & _). destruct (node_in ns k) as [m|] eqn:Hm.
  - destruct (Hsome k m Hm) as (m' & Hm' & Ht & Hp & Hd & Hf & _). rewrite Hm1 in Hm'.
    injection Hm' as <-. by exists m.
  - apply Hnone in Hm. congruence.
Qed.

Lemma removed_new k m :
  k <> i -> node_in ns k = Some m -> exists m1, node_in removed k = Some m1 /\ token m1 = token m /\
    parent m1 = parent m.
Proof.
  intros Hk Hm. destruct unl as (_ & _ & Hsome & _).
  destruct (Hsome k m Hm) as (m1 & Hm1 & Ht & Hp & _). exists m1.
  by rewrite removed_in, decide_False.
Qed.

Lemma removed_kids k m1 :
  node_in removed k = Some m1 ->
  NoDup (K_removed k) /\ chain removed (first_child m1) (K_removed k) /\
  forall j, j ∈ K_removed k <-> j <> 0 /\ exists m, node_in removed j = Some m /\ parent m = k.
Proof.
  intros Hm1. pose proof (removed_old k m1 Hm1) as (Hki & m & Hm & _ & _ & _ & Hfirst).
  destruct (sh_kids _ _ _ sh k m Hm) as (Hnd & Hch & Hk).
  assert (Hmem : forall j, j <> i /\ j ∈ K k <->
    j <> 0 /\ exists m, node_in removed j = Some m /\ parent m = k).
  { intros j. rewrite Hk. split.
    - intros (Hj & Hj0 & mj & Hmj & Hpar). split; [done|].
      destruct (removed_new j mj Hj Hmj) as (mj1 & Hmj1 & _ & Hp). exists mj1. by rewrite Hp.
    - intros (Hj0 & mj1 & Hmj1 & Hpar).
      destruct (removed_old j mj1 Hmj1) as (Hj & mj & Hmj & _ & Hp & _).
      split; [done|]. split; [done|]. exists mj. by rewrite <- Hp. }
  pose proof unl as (_ & _ & Hsome & Hpchain). unfold K_removed. case_decide as Hkp.
  - subst k. split; [by apply NoDup_filter|]. split.
    + apply removed_chain; [by intros [? _]%list_elem_of_filter|]. apply Hpchain.
      rewrite removed_in, decide_False in Hm1 by done. done.
    + intros j. rewrite list_elem_of_filter. apply Hmem.
  - assert (Hik : i ∉ K k).
    { intros Hik. by apply (kids_disjoint k m i Hm Hkp Hik), i_in_kids. }
    split; [done|]. split.
    + apply removed_chain; [done|]. rewrite (Hfirst Hkp). eapply chain_ext; [|exact Hch].
      intros c mc Hc Hmc. destruct (Hsome c mc Hmc) as (mc1 & Hmc1 & _ & _ & _ & _ & Hsib).
      exists mc1. split; [done|]. apply Hsib. exact (kids_disjoint k m c Hm Hkp Hc).
    + intros j. rewrite <- Hmem. split; [|tauto]. intros Hj. split; [|done]. by intros ->.
Qed.

Lemma removed_shape : shape removed (delete i T) K_removed.
Proof.
  split.
  - intros k. destruct (decide (k = i)) as [->|Hk].
    + rewrite removed_in, decide_True, lookup_delete_eq by done. done.
    + rewrite lookup_delete_ne, <- (sh_dom _ _ _ sh k) by done. split.
      * intros [m1 Hm1]. destruct (removed_old k m1 Hm1) as (_ & m & Hm & _). by exists m.
      * intros [m Hm]. destruct (removed_new k m Hk Hm) as (m1 & Hm1 & _). by exists m1.
  - rewrite lookup_delete_ne by done. apply sh.
  - intros k q Hq Hk0. apply lookup_delete_Some in Hq as [Hki Hq].
    destruct (sh_step _ _ _ sh k q Hq Hk0) as (m & q' & Hm & -> & Hq').
    destruct (removed_new k m) as (m1 & Hm1 & Ht & Hp); [done..|]. exists m1, q'.
    rewrite Ht, Hp, lookup_delete_ne; [done|]. intros Hpar.
    assert (Hin : k ∈ K i); [|rewrite leaf in Hin; by apply elem_of_nil in Hin].
    apply (sh_kids _ _ _ sh i n node_i). split; [done|]. by exists m.
  - intros k m1 q Hm1 Hq. apply lookup_delete_Some in Hq as [Hki Hq].
    destruct (removed_old k m1 Hm1) as (_ & m & Hm & _ & _ & -> & _). by eapply sh_depth.
  - intros k k' q [_ Hk]%lookup_delete_Some [_ Hk']%lookup_delete_Some. by eapply sh_inj.
  - apply removed_kids.
Qed.
End removed.
End unlink.

Lemma unlink_child_wp idx T K i p n :
  shape (nodes idx) T K -> T !! i = Some p -> i <> 0 -> node_in (nodes idx) i = Some n ->
  wp (unlink_child (parent n) i) idx (fun idx' r => exists ns1,
    r = Ok tt /\ idx' = put_nodes ns1 idx /\ unlinked (nodes idx) K i n ns1).
Proof.
  intros sh Hi Hi0 Hn. destruct (sh_step _ _ _ sh i p Hi Hi0) as (m & q & Hm & -> & Hq).
  rewrite Hn in Hm. injection Hm as <-. destruct (shape_node _ _ _ sh _ _ Hq) as (nj & Hnj & _).
  destruct (sh_kids _ _ _ sh _ _ Hnj) as (Hnd & Hch & Hk).
  assert (HiK : i ∈ K (parent n)) by (apply Hk; split; [done|by exists n]).
  unfold unlink_child. wp_step. apply wp_gets. unfold id. rewrite !node_at_in, Hn, Hnj.
  wp_step. apply wp_ret. wp_step. apply wp_ret. case_decide as Hfirst.
  - wp_step. eapply update_node_wp; [exact Hnj|]. apply wp_ret. eexists. split; [done|].
    split; [done|]. by eapply unlinked_first.
  - apply list_elem_of_split in HiK as (l1 & l2 & HK).
    destruct l1 as [|prev l1 _] using rev_ind.
    { rewrite HK in Hch. by destruct Hch as [Hc _]. }
    rewrite <- app_assoc in HK. cbn [app] in HK.
    assert (Hprev : exists mprev, node_in (nodes idx) prev = Some mprev).
    { assert (Hin : prev ∈ K (parent n)) by (rewrite HK; set_solver).
      apply Hk in Hin as (_ & mp & Hmp & _). by exists mp. }
    destruct Hprev as [mprev Hmp]. pose proof (shape_kids_bound _ _ _ sh _ _ Hnj) as Hb.
    rewrite HK in Hch, Hnd, Hb.
    eapply wp_mono; [eapply (unlink_loop_wp idx prev i n mprev l2 l1); try done|].
    { unfold vlen in Hb. rewrite length_app in Hb. simpl in Hb. lia. }
    intros idx' r [-> ->]. eexists. split; [done|]. split; [done|]. by eapply unlinked_later.
Qed.

(** ** Pruning *)

(** The paths of the source records' endpoints. *)
Definition endpoints (idx : M1RadixPrefixIndexV1) (T : gmap N (list N)) (L : list (list N)) : Prop :=
  forall l, l ∈ L <-> exists s, Some s ∈ sources idx /\ T !! endpoint s = Some l.

Lemma existsb_endpoint idx i :
  existsb (is_some_and (fun s => endpoint s =? i)) (sources idx) = true <->
  exists s, Some s ∈ sources idx /\ endpoint s = i.
Proof.
  rewrite existsb_exists. split.
  - intros ([s|] & Hin & Hs); [|done]. exists s. apply list_elem_of_In in Hin.
    by apply N.eqb_eq in Hs.
  - intros (s & Hin & <-). exists (Some s). split; [by apply list_elem_of_In|]. apply N.eqb_refl.
Qed.

(** A node with a child carries a live path. *)
Lemma child_live idx T K L i p c :
  trie_inv idx T K (trie (p :: L)) -> T !! i = Some p -> c ∈ K i -> p ∈ trie L.
Proof.
  intros [sh HP _ _ _] Hi Hc. apply (shape_kid _ _ _ sh i _ c Hi) in Hc as [u Hu].
  assert (Hin : p ++ [u] ∈ trie (p :: L)) by (apply HP; by exists c).
  apply elem_of_trie in Hin as [Hnil|(l & [->|Hl]%elem_of_cons & Hpre)].
  - by destruct p.
  - apply prefix_length in Hpre. rewrite (length_app _ [u]) in Hpre. simpl in Hpre. lia.
  - apply elem_of_trie. right. exists l. split; [done|]. etrans; [|exact Hpre]. by exists [u].
Qed.

(** A node that has a child or is an endpoint carries a live path; a node that
    has neither carries none. *)
Lemma prune_stop idx T K L i q t n :
  trie_inv idx T K (trie ((q ++ [t]) :: L)) -> endpoints idx T L ->
  T !! i = Some (q ++ [t]) -> node_in (nodes idx) i = Some n ->
  is_some_and (fun _ => true) (first_child n) ||
    existsb (is_some_and (fun s => endpoint s =? i)) (sources idx) = true <->
  q ++ [t] ∈ trie L.
Proof.
  intros Hinv Hends Hi Hn. pose proof Hinv as [sh _ _ _ _].
  destruct (sh_kids _ _ _ sh i n Hn) as (Hnd & Hch & Hk).
  rewrite orb_true_iff, existsb_endpoint. split.
  - intros [Hc|(s & Hs & He)].
    + destruct (K i) as [|c ch] eqn:HK; simpl in Hch; [by rewrite Hch in Hc|].
      eapply child_live; [done..|rewrite HK; by left].
    + apply elem_of_trie. right. exists (q ++ [t]). split; [|done]. apply Hends. exists s. by rewrite He.
  - intros [Hnil|(l & Hl & [k ->])]%elem_of_trie; [by destruct q|].
    apply Hends in Hl as Hl'. destruct Hl' as (s & Hs & He). destruct k as [|u k].
    + rewrite app_nil_r in He. right. exists s. split; [done|]. by eapply sh_inj.
    + left. destruct (shape_prefix _ _ _ sh _ _ (length (q ++ [t]) + 1) He) as [j Hj].
      { rewrite !length_app. simpl. lia. }
      rewrite take_app_add in Hj. simpl in Hj. rewrite take_0 in Hj.
      assert (Hjk : j ∈ K i) by (eapply shape_kid; [done..|by exists u]).
      destruct (K i) as [|c ch]; [by apply elem_of_nil in Hjk|]. simpl in Hch.
      by destruct Hch as [-> _].
Qed.

(** Removing the last token of a dead path removes one path. *)
Lemma trie_drop_last q t L :
  q ++ [t] ∉ trie L -> trie ((q ++ [t]) :: L) ∖ {[q ++ [t]]} = trie (q :: L).
Proof.
  intros Hdead. apply set_eq. intros p. rewrite elem_of_difference, elem_of_singleton, !elem_of_trie. split.
  - intros [[->|(l & [->|Hl]%elem_of_cons & Hp)] Hne]; [by left| |].
    + right. exists q. split; [by left|]. by apply prefix_snoc in Hp as [|].
    + right. exists l. split; [by right|done].
  - intros [->|(l & [->|Hl]%elem_of_cons & Hp)].
    + split; [by left|]. by destruct q.
    + split.
      * right. exists (q ++ [t]). split; [by left|]. by apply prefix_app_r.
      * intros ->. apply prefix_length in Hp. rewrite length_app in Hp. simpl in Hp. lia.
    + split.
      * right. exists l. split; [by right|done].
      * intros ->. apply Hdead, elem_of_trie. right. by exists l.
Qed.

Lemma trie_size_pos L : (0 < size (trie L))%nat.
Proof.
  destruct (size (trie L)) eqn:Hs; [|lia]. apply size_empty_inv in Hs.
  assert ([] ∈ trie L) by (apply elem_of_trie; by left). set_solver.
Qed.

Lemma trie_size_drop q t L :
  q ++ [t] ∉ trie L -> size (trie (q :: L)) = (size (trie ((q ++ [t]) :: L)) - 1)%nat.
Proof.
  intros Hdead. rewrite <- (trie_drop_last q t L Hdead), size_difference, size_singleton; [done|].
  apply singleton_subseteq_l, elem_of_trie. right. exists (q ++ [t]). split; [by left|done].
Qed.

(** Removing a dead leaf keeps the trie's invariant. *)
Lemma trie_inv_removed idx T K L i q t n nj ns1 :
  trie_inv idx T K (trie ((q ++ [t]) :: L)) -> q ++ [t] ∉ trie L ->
  T !! i = Some (q ++ [t]) -> i <> 0 -> node_in (nodes idx) i = Some n ->
  node_in (nodes idx) (parent n) = Some nj -> unlinked (nodes idx) K i n ns1 -> K i = [] ->
  trie_inv (put_node_count (node_count idx - 1) (put_nodes (vset ns1 i None) idx)) (delete i T)
    (K_removed K i n) (trie (q :: L)).
Proof.
  intros [sh HP Hcount Hlen Hbound] Hdead Hi Hi0 Hn Hnj Hunl HKi.
  split; cbn [nodes put_nodes put_node_count node_count limits].
  - by eapply removed_shape.
  - intros p. rewrite <- (trie_drop_last q t L Hdead), elem_of_difference, elem_of_singleton, HP.
    setoid_rewrite lookup_delete_Some. split.
    + intros [[k Hk] Hne]. exists k. split; [|done]. intros ->. congruence.
    + intros (k & Hk & Hp). split; [by exists k|]. intros ->. apply Hk. by eapply sh_inj.
  - rewrite (trie_size_drop q t L Hdead). lia.
  - by rewrite vlen_vset, (proj1 Hunl).
  - lia.
Qed.

(** The tree after pruning: the live part of the old one. *)
Definition pruned (T T' : gmap N (list N)) (L : list (list N)) : Prop :=
  forall k q, T' !! k = Some q <-> T !! k = Some q /\ q ∈ trie L.

Lemma prune_loop_wp p : forall fuel idx T K L i,
  trie_inv idx T K (trie (p :: L)) -> endpoints idx T L -> T !! i = Some p ->
  (length p <= fuel)%nat ->
  wp (prune_loop fuel i) idx (fun idx' r => r = Ok tt /\ exists T' K',
    trie_inv idx' T' K' (trie L) /\ pruned T T' L /\ frame idx idx').
Proof.
  induction p as [|t q IH] using rev_ind; intros fuel idx T K L i Hinv Hends Hi Hf.
  { pose proof Hinv as [sh HP _ _ _]. rewrite (shape_nil _ _ _ sh i Hi).
    assert (Hnil : trie ([] :: L) = trie L) by (apply trie_absorb, elem_of_trie; by left).
    rewrite Hnil in Hinv, HP. destruct fuel; (apply wp_ret; split; [done|]; exists T, K;
      split_and!; [done| |done]; intros k q; split; [|tauto]; intros Hk; split; [done|]; apply HP; by exists k). }
  pose proof Hinv as [sh HP Hcount Hlen Hbound].
  assert (Hi0 : i <> 0).
  { intros ->. rewrite (sh_root _ _ _ sh) in Hi. injection Hi as Hi. by destruct q. }
  destruct (sh_step _ _ _ sh i _ Hi Hi0) as (n & q' & Hn & Happ & Hq').
  apply app_inj_tail in Happ as [<- _].
  rewrite length_app in Hf. simpl in Hf. destruct fuel as [|fuel]; [lia|]. cbn [prune_loop].
  unfold ROOT_NODE. rewrite (proj2 (N.eqb_neq _ _) Hi0). wp_step. apply wp_gets. unfold id. rewrite node_at_in, Hn.
  wp_step. apply wp_ret. pose proof (prune_stop idx T K L i q t n Hinv Hends Hi Hn) as Hstop.
  destruct (is_some_and _ (first_child n) || _).
  { apply wp_ret. split; [done|]. exists T, K. assert (Hlive : q ++ [t] ∈ trie L) by by apply Hstop.
    rewrite (trie_absorb _ _ Hlive) in Hinv, HP. split_and!; [done| |done].
    intros k r. split; [|tauto]. intros Hk. split; [done|]. apply HP. by exists k. }
  assert (Hdead : q ++ [t] ∉ trie L) by (intros H; by apply Hstop in H).
  assert (HKi : K i = []).
  { destruct (K i) as [|c ch] eqn:HK; [done|]. destruct Hdead.
    eapply (child_live idx T K L i _ c); [done..|rewrite HK; by left]. }
  wp_step. eapply wp_mono; [eapply unlink_child_wp; [exact sh|exact Hi|done|done]|].
  intros idx1 r (ns1 & -> & -> & Hunl). destruct (shape_node _ _ _ sh _ _ Hq') as (nj & Hnj & _).
  wp_step. apply (wp_update_at _ _ None).
  { cbn [nodes put_nodes]. rewrite (proj1 Hunl). by eapply node_in_lt. }
  cbn [nodes put_nodes]. wp_step. apply wp_gets. cbn [node_count put_nodes].
  pose proof (trie_size_pos ((q ++ [t]) :: L)) as Hpos.
  unfold or_violation, checked_sub. rewrite (proj2 (N.leb_le _ _)) by lia.
  wp_step. apply wp_ret. wp_step. apply wp_modify.
  eapply wp_mono; [apply (IH fuel _ (delete i T) (K_removed K i n) L (parent n))|].
  - exact (trie_inv_removed idx T K L i q t n nj ns1 Hinv Hdead Hi Hi0 Hn Hnj Hunl HKi).
  - intros l. rewrite (Hends l). split; intros (s & Hs & He); exists s; (split; [exact Hs|]).
    + apply lookup_delete_Some. split; [|done]. intros ->. apply Hdead, elem_of_trie. right.
      exists (q ++ [t]). split; [|done]. apply Hends. exists s. split; [exact Hs|exact Hi].
    + by apply lookup_delete_Some in He as [_ He].
  - apply lookup_delete_Some. split; [|done]. intros Hpar. rewrite <- Hpar, Hi in Hq'.
    injection Hq' as Hq'. apply (f_equal length) in Hq'. rewrite length_app in Hq'. simpl in Hq'. lia.
  - lia.
  - intros idx' r (-> & T' & K' & Hinv' & Hpr & Hfr). split; [done|]. exists T', K'.
    split_and!; [done| |exact Hfr]. intros k p. rewrite (Hpr k p), lookup_delete_Some. split; [tauto|].
    intros [Hk Hp]. split_and!; try done. intros ->. rewrite Hi in Hk. by injection Hk as <-.
Qed.

Lemma prune_from_wp idx T K L i p :
  trie_inv idx T K (trie (p :: L)) -> endpoints idx T L -> T !! i = Some p ->
  wp (prune_from i) idx (fun idx' r => r = Ok tt /\ exists T' K',
    trie_inv idx' T' K' (trie L) /\ pruned T T' L /\ frame idx idx').
Proof.
  intros Hinv Hends Hi. unfold prune_from. wp_step. apply wp_gets. unfold id.
  eapply prune_loop_wp; [done..|]. pose proof (shape_depth_lt _ _ _ (ti_shape _ _ _ _ Hinv) i p Hi) as Hb.
  unfold vlen in Hb. lia.
Qed.
