(* ===== verification/RadixRep.v ===== *)
(** The index represents its specification: the sources array holds the
    entries, their endpoints the tokens, and the trie exactly the prefixes.
    Removing a source, invalidation, eviction and lookup refine the
    specification's operations. *)
From S2P Require Import Prelude Spec Radix RadixSpec RadixInv RadixOps.
From stdpp Require Import gmap.
Local Open Scope N_scope.
Local Open Scope prog_scope.

(** ** Lists *)
Lemma vget_split {B} (l : list B) i x :
  vget l i = Some x -> exists l1 l2, l = l1 ++ x :: l2 /\ vlen l1 = i.
Proof.
  unfold vget. intros H. exists (take (N.to_nat i) l), (drop (S (N.to_nat i)) l).
  split; [by rewrite take_drop_middle|]. unfold vlen. rewrite length_take.
  apply lookup_lt_Some in H. lia.
Qed.

Lemma vset_middle {B} (l1 : list B) x y l2 i : vlen l1 = i -> vset (l1 ++ x :: l2) i y = l1 ++ y :: l2.
Proof. intros <-. unfold vset, vlen. rewrite Nat2N.id, insert_app_r_alt, Nat.sub_diag by lia. done. Qed.

Lemma vget_0 {B} (x : B) l : vget (x :: l) 0 = Some x.
Proof. done. Qed.

Lemma vget_S {B} (x : B) l i : vget (x :: l) (i + 1) = vget l i.
Proof. unfold vget. by replace (N.to_nat (i + 1)) with (S (N.to_nat i)) by lia. Qed.

Lemma vset_S {B} (x y : B) l i : vset (x :: l) (i + 1) y = x :: vset l i y.
Proof. unfold vset. by replace (N.to_nat (i + 1)) with (S (N.to_nat i)) by lia. Qed.

(** ** Lists of optional entries *)
Section slots.
Context {A : Type}.
Implicit Types (l : list (option A)) (f : option A -> bool).

Definition live_slots l : list A := omap id l.

Lemma live_vacated l i e : vget l i = Some (Some e) -> live_slots l ≡ₚ e :: live_slots (vset l i None).
Proof.
  intros (l1 & l2 & -> & Hi)%vget_split. rewrite (vset_middle _ _ _ _ _ Hi). unfold live_slots.
  rewrite !omap_app. simpl. by rewrite <- Permutation_middle.
Qed.

Lemma live_occupied l i e : vget l i = Some None -> live_slots (vset l i (Some e)) ≡ₚ e :: live_slots l.
Proof.
  intros (l1 & l2 & -> & Hi)%vget_split. rewrite (vset_middle _ _ _ _ _ Hi). unfold live_slots.
  rewrite !omap_app. simpl. by rewrite <- Permutation_middle.
Qed.

Lemma elem_of_live l e : e ∈ live_slots l <-> exists i, vget l i = Some (Some e).
Proof.
  unfold live_slots. rewrite list_elem_of_omap. split.
  - intros (o & Ho & Hid). simpl in Hid. subst o. apply list_elem_of_lookup in Ho as [i Hi].
    exists (N.of_nat i). unfold vget. by rewrite Nat2N.id.
  - intros [i Hi]. exists (Some e). split; [|done]. unfold vget in Hi. by eapply list_elem_of_lookup_2.
Qed.

Lemma position_cons f o l :
  position f (o :: l) = if f o then Some 0 else (fun i => i + 1) <$> position f l.
Proof.
  unfold position. cbn [list_find]. destruct (decide (Is_true (f o))) as [H|H].
  - apply Is_true_true in H. by rewrite H.
  - destruct (f o); [by destruct H|]. destruct (list_find _ l) as [[k b]|]; simpl; [|done].
    f_equal. lia.
Qed.

Lemma clear_none f l : (forall i o, vget l i = Some o -> f o = false) -> 
  (fun o => if f o then None else o) <$> l = l.
Proof.
  intros Hf. induction l as [|o l IH]; [done|]. rewrite fmap_cons.
  rewrite (Hf 0 o (vget_0 _ _)). f_equal. apply IH. intros i o' Ho. apply (Hf (i + 1)). by rewrite vget_S.
Qed.

(** Clearing the unique slot a test accepts vacates the first it accepts. *)
Lemma clear_unique f l :
  f None = false ->
  (forall i j a b, vget l i = Some a -> vget l j = Some b -> f a = true -> f b = true -> i = j) ->
  (fun o => if f o then None else o) <$> l =
  match position f l with Some i => vset l i None | None => l end.
Proof.
  intros Hn. induction l as [|o l IH]; intros Hu; [done|]. rewrite fmap_cons, position_cons.
  destruct (f o) eqn:Ho.
  - change (vset (o :: l) 0 None) with (None :: l). f_equal. apply clear_none. intros i b Hb. destruct (f b) eqn:Hfb; [|done].
    assert (0 = i + 1); [|lia]. eapply Hu; [apply vget_0|by rewrite vget_S|done..].
  - rewrite IH.
    + destruct (position f l) as [i|]; simpl; [by rewrite vset_S|done].
    + intros i j a b Ha Hb Hfa Hfb. assert (i + 1 = j + 1); [|lia].
      eapply Hu; [by rewrite vget_S|by rewrite vget_S|done..].
Qed.

Lemma Forall2_vget {B} (R : A -> B -> Prop) (l : list A) (k : list B) i a :
  Forall2 R l k -> vget l i = Some a -> exists b, vget k i = Some b /\ R a b.
Proof. unfold vget. apply Forall2_lookup_l. Qed.

Lemma Forall2_vget_r {B} (R : A -> B -> Prop) (l : list A) (k : list B) i b :
  Forall2 R l k -> vget k i = Some b -> exists a, vget l i = Some a /\ R a b.
Proof. unfold vget. apply Forall2_lookup_r. Qed.

Lemma Forall2_vset {B} (R : A -> B -> Prop) (l : list A) (k : list B) i a b :
  Forall2 R l k -> R a b -> Forall2 R (vset l i a) (vset k i b).
Proof. unfold vset. apply Forall2_insert. Qed.
End slots.

Lemma position_Forall2 {A B} (R : option A -> option B -> Prop) f g l k :
  Forall2 R l k -> (forall a b, R a b -> f a = g b) -> position f l = position g k.
Proof.
  intros H Hfg. induction H as [|a b l k Hab _ IH]; [done|].
  rewrite !position_cons, (Hfg _ _ Hab), IH. done.
Qed.

(** ** The representation *)
Definition source_rep (T : gmap N (list N)) (o : option RadixSourceV1) (e : option Entry) : Prop :=
  match o, e with
  | None, None => True
  | Some s, Some e =>
      request s = e_request e /\ T !! endpoint s = Some (e_tokens e) /\
      token_count s = vlen (e_tokens e) /\ ticket s = e_ticket e
  | _, _ => False
  end.

(** Everything but the well-formedness of the abstract index. *)
Record rep (idx : M1RadixPrefixIndexV1) (T : gmap N (list N)) (K : N -> list N) (a : AIndex) : Prop := {
  rp_trie : trie_inv idx T K (trie (token_lists a));
  rp_limits : limits idx = a_limits a;
  rp_next : next_ticket idx = a_next a;
  rp_sources : Forall2 (source_rep T) (sources idx) (a_slots a);
  rp_count : source_count idx = vlen (entries a);
  rp_stored : stored_tokens idx = a_stored (entries a)
}.

Definition repr (idx : M1RadixPrefixIndexV1) (a : AIndex) : Prop :=
  a_ok a /\ exists T K, rep idx T K a.

Lemma entries_live a : entries a = live_slots (a_slots a).
Proof. done. Qed.

(** The endpoints of the sources are the entries' tokens. *)
Lemma sources_endpoints idx T slots L :
  Forall2 (source_rep T) (sources idx) slots ->
  (forall l, l ∈ L <-> l ∈ e_tokens <$> live_slots slots) -> endpoints idx T L.
Proof.
  intros HF HL l. rewrite HL, list_elem_of_fmap. split.
  - intros (e & -> & [i Hi]%elem_of_live).
    destruct (Forall2_vget_r _ _ _ _ _ HF Hi) as ([s|] & Hs & Hr); [|done].
    exists s. split; [|apply Hr]. unfold vget in Hs. by eapply list_elem_of_lookup_2.
  - intros (s & Hs & Hl). apply list_elem_of_lookup in Hs as [i Hi].
    assert (Hi' : vget (sources idx) (N.of_nat i) = Some (Some s)) by (unfold vget; by rewrite Nat2N.id).
    destruct (Forall2_vget _ _ _ _ _ HF Hi') as ([e|] & He & Hr); [|done].
    destruct Hr as (_ & Ht & _). rewrite Hl in Ht. injection Ht as ->.
    exists e. split; [done|]. apply elem_of_live. by eexists.
Qed.

(** A tree that keeps the live paths keeps the representation. *)
Lemma sources_pruned T T' L srcs slots :
  Forall2 (source_rep T) srcs slots -> pruned T T' L ->
  (forall l, l ∈ e_tokens <$> live_slots slots -> l ∈ L) -> Forall2 (source_rep T') srcs slots.
Proof.
  intros HF Hpr HL. apply Forall2_same_length_lookup_2; [by eapply Forall2_length|].
  intros i o e Ho He. pose proof (Forall2_lookup_lr _ _ _ _ _ _ HF Ho He) as Hr.
  destruct o as [s|], e as [e|]; try done. destruct Hr as (H1 & H2 & H3). split; [done|].
  split; [|done]. apply Hpr. split; [done|]. apply elem_of_trie. right. exists (e_tokens e).
  split; [|done]. apply HL, list_elem_of_fmap. exists e. split; [done|]. apply elem_of_live.
  exists (N.of_nat i). unfold vget. by rewrite Nat2N.id.
Qed.

(** ** Accounting *)
Lemma a_stored_perm l l' : l ≡ₚ l' -> a_stored l = a_stored l'.
Proof. induction 1; simpl; lia. Qed.

Lemma vlen_perm {A} (l l' : list A) : l ≡ₚ l' -> vlen l = vlen l'.
Proof. intros H. unfold vlen. by rewrite (Permutation_length H). Qed.

(** Fewer entries stay well-formed. *)
Lemma a_ok_fewer a slots es :
  a_ok a -> vlen slots = vlen (a_slots a) -> entries a ≡ₚ es ++ live_slots slots ->
  a_ok (mkAIndex (a_limits a) slots (a_next a)).
Proof.
  intros Hok Hlen Hperm. unfold entries in Hperm.
  assert (Hsub : forall e, e ∈ live_slots slots -> e ∈ entries a).
  { intros e He. unfold entries. rewrite Hperm. apply elem_of_app. by right. }
  destruct Hok as [Hlim Hl Hent Hs Ht Hti Hst Hn Hnx]. unfold entries in Hs, Ht, Hti, Hst.
  rewrite (a_stored_perm _ _ Hperm) in Hst. rewrite Hperm in Hs, Ht, Hti.
  rewrite fmap_app in Hs. rewrite fmap_app in Ht. rewrite fmap_app in Hti. apply NoDup_app in Hs as (_ & _ & Hs).
  apply NoDup_app in Ht as (_ & _ & Ht). apply NoDup_app in Hti as (_ & _ & Hti).
  split; cbn [a_limits a_slots a_next]; try done.
  - by rewrite Hlen.
  - intros e He. apply Hent. by apply Hsub.
  - etrans; [|exact Hst]. unfold entries. cbn [a_slots]. clear. induction es as [|e es IH]; simpl; [done|]. lia.
  - etrans; [|exact Hn]. unfold a_nodes. apply N.leb_le, N.leb_le.
    assert (size (trie (token_lists (mkAIndex (a_limits a) slots (a_next a)))) <= size (trie (token_lists a)))%nat; [|lia].
    apply subseteq_size. intros p. rewrite !elem_of_trie. intros [->|(l & Hl' & Hp)]; [by left|right].
    exists l. split; [|done]. unfold token_lists in *. apply list_elem_of_fmap in Hl' as (e & -> & He).
    apply list_elem_of_fmap. exists e. split; [done|]. by apply Hsub.
Qed.

(** ** Removing a source *)
Lemma take_source_wp idx i s (Q : M1RadixPrefixIndexV1 -> option RadixSourceV1 -> Prop) :
  vget (sources idx) i = Some (Some s) ->
  Q (put_sources (vset (sources idx) i None) idx) (Some s) -> wp (take_source i) idx Q.
Proof. intros Hs HQ. unfold take_source. wp_step. apply wp_gets. unfold id. rewrite Hs. done. Qed.

Lemma remove_source_slot_wp idx a i e :
  repr idx a -> vget (a_slots a) i = Some (Some e) ->
  wp (remove_source_slot i) idx (fun idx' r =>
    r = Ok tt /\ repr idx' (mkAIndex (a_limits a) (vset (a_slots a) i None) (a_next a))).
Proof.
  intros (Hok & T & K & [Hti Hlim Hnx HF Hc Hst]) He.
  destruct (Forall2_vget_r _ _ _ _ _ HF He) as ([s|] & Hs & Hrep); [|done].
  destruct Hrep as (_ & Hend & Htc & _).
  set (slots' := vset (a_slots a) i None).
  assert (Hperm : entries a ≡ₚ e :: live_slots slots') by exact (live_vacated _ _ _ He).
  unfold remove_source_slot. wp_step. eapply take_source_wp; [exact Hs|].
  unfold or_violation, checked_sub. wp_step. apply wp_ret. wp_step. apply wp_gets.
  cbn [source_count put_sources]. rewrite Hc, (vlen_perm _ _ Hperm), vlen_cons.
  rewrite (proj2 (N.leb_le _ _)) by lia. wp_step. apply wp_ret. wp_step. apply wp_modify.
  wp_step. apply wp_gets. cbn [stored_tokens put_sources put_source_count].
  rewrite Hst, (a_stored_perm _ _ Hperm), Htc. cbn [a_stored foldr].
  rewrite (proj2 (N.leb_le _ _)) by lia. wp_step. apply wp_ret. wp_step. apply wp_modify.
  eapply wp_mono; [eapply (prune_from_wp _ T K (e_tokens <$> live_slots slots') (endpoint s) (e_tokens e))|].
  - destruct Hti as [sh HP Hcnt Hlen Hb].
    assert (HPeq : trie (token_lists a) = trie (e_tokens e :: (e_tokens <$> live_slots slots'))).
    { apply trie_ext. intros l. unfold token_lists. rewrite Hperm. done. }
    rewrite HPeq in HP, Hcnt. split; done.
  - eapply (sources_endpoints _ T slots'); [|done]. cbn [sources put_sources put_source_count put_stored_tokens].
    by apply Forall2_vset.
  - exact Hend.
  - intros idx' r (-> & T' & K' & Hti' & Hpr & Hfr). split; [done|].
    destruct Hfr as (F1 & F2 & F3 & F4 & F5). cbn in F1, F2, F3, F4, F5. split.
    + apply (a_ok_fewer a slots' [e]); [done|apply vlen_vset|exact Hperm].
    + exists T', K'. split; cbn [a_limits a_slots a_next]; try done.
      * by rewrite F1.
      * by rewrite F5.
      * rewrite F2. eapply sources_pruned; [by apply Forall2_vset|exact Hpr|done].
      * rewrite F3. change (entries _) with (live_slots slots'). lia.
      * rewrite F4. change (entries _) with (live_slots slots'). unfold a_stored. lia.
Qed.

(** ** Invalidation and eviction *)

(** Two entries that agree on a field that is distinct over the entries occupy
    the same slot. *)
Lemma slot_unique {B} (g : Entry -> B) l i j e e' :
  NoDup (g <$> live_slots l) -> vget l i = Some (Some e) -> vget l j = Some (Some e') ->
  g e = g e' -> i = j.
Proof.
  intros Hnd Hi Hj Hg. destruct (decide (i = j)) as [|Hne]; [done|]. exfalso.
  pose proof (live_vacated _ _ _ Hi) as Hp. rewrite Hp, fmap_cons in Hnd.
  apply NoDup_cons in Hnd as [Hnin _]. apply Hnin. apply list_elem_of_fmap. exists e'.
  split; [done|]. apply elem_of_live. exists j. by rewrite vget_vset_ne.
Qed.

Lemma test_unique {B} (g : Entry -> B) (f : Entry -> bool) l :
  NoDup (g <$> live_slots l) -> (forall e e', f e = true -> f e' = true -> g e = g e') ->
  forall i j a b, vget l i = Some a -> vget l j = Some b ->
    is_some_and f a = true -> is_some_and f b = true -> i = j.
Proof.
  intros Hnd Hf i j [e|] [e'|] Hi Hj Ha Hb; try done. eapply slot_unique; [done..|]. by apply Hf.
Qed.

(** Clearing what a test accepts, when it accepts at most one entry. *)
Lemma a_remove_position {B} (g : Entry -> B) f a :
  NoDup (g <$> entries a) -> (forall e e', f e = true -> f e' = true -> g e = g e') ->
  a_remove f a = mkAIndex (a_limits a)
    (match position (is_some_and f) (a_slots a) with
     | Some i => vset (a_slots a) i None | None => a_slots a end) (a_next a).
Proof.
  intros Hnd Hf. unfold a_remove, clear. f_equal. apply clear_unique; [done|].
  by eapply test_unique.
Qed.

Lemma position_is_some_and f (l : list (option Entry)) i :
  position (is_some_and f) l = Some i -> exists e, vget l i = Some (Some e) /\ f e = true.
Proof. intros ([e|] & He & Hf)%position_Some; [by exists e|done]. Qed.

Lemma existsb_position f a :
  existsb f (entries a) = match position (is_some_and f) (a_slots a) with Some _ => true | None => false end.
Proof.
  change (entries a) with (live_slots (a_slots a)).
  induction (a_slots a) as [|o l IH]; [done|]. rewrite position_cons. destruct o as [e|]; cbn [is_some_and].
  - change (live_slots (Some e :: l)) with (e :: live_slots l). cbn [existsb].
    destruct (f e); [done|]. cbn [orb]. rewrite IH. by destruct (position _ l).
  - change (live_slots (None :: l)) with (live_slots l). rewrite IH. by destruct (position _ l).
Qed.

Lemma invalidate_source_wp idx a src :
  repr idx a ->
  wp (invalidate_source src) idx (fun idx' r =>
    r = Ok (a_invalidate src a).2 /\ repr idx' (a_invalidate src a).1).
Proof.
  intros Hr. pose proof Hr as (Hok & T & K & [_ _ _ HF _ _]).
  unfold invalidate_source, a_invalidate. cbn [fst snd]. wp_step. apply wp_gets. unfold id.
  assert (Hpos : position (is_some_and (fun s => bool_decide (request s = src))) (sources idx) =
                 position (is_some_and (fun e => bool_decide (e_request e = src))) (a_slots a)).
  { eapply position_Forall2; [exact HF|]. intros [s|] [e|]; try done.
    intros (E & _). cbn [is_some_and]. by rewrite E. }
  rewrite (a_remove_position (fun e => slot (e_request e))), existsb_position;
    [|apply (ao_slots _ Hok)|by intros e e' ->%bool_decide_eq_true ->%bool_decide_eq_true].
  rewrite Hpos. destruct (position _ (a_slots a)) as [i|] eqn:Hi.
  - apply position_is_some_and in Hi as (e & He & _).
    wp_step. eapply wp_mono; [by eapply remove_source_slot_wp|]. intros idx' r [-> Hr'].
    by apply wp_ret.
  - apply wp_ret. split; [done|]. by destruct a.
Qed.

Lemma oldest_from_spec l : forall k,
  match oldest_from l k with
  | None => live_slots l = []
  | Some (j, s) => k <= j /\ vget l (j - k) = Some (Some s) /\
      forall s', s' ∈ live_slots l -> ticket s <= ticket s'
  end.
Proof.
  induction l as [|o l IH]; intros k; cbn [oldest_from]; [done|].
  specialize (IH (k + 1)). assert (Hshift : forall j, k + 1 <= j -> vget (o :: l) (j - k) = vget l (j - (k + 1))).
  { intros j Hj. replace (j - k) with (j - (k + 1) + 1) by lia. apply vget_S. }
  destruct o as [s|].
  - destruct (oldest_from l (k + 1)) as [[j t]|].
    + destruct IH as (Hj & Ht & Hmin). unfold age_leb.
      destruct (N.ltb_spec (ticket s) (ticket t)); [|destruct (N.eqb_spec (ticket s) (ticket t))]; cbn [orb andb].
      * split_and!; [lia|by rewrite N.sub_diag|]. intros s' [->|Hs']%elem_of_cons; [lia|].
        specialize (Hmin _ Hs'). lia.
      * destruct (request_leb _ _).
        -- split_and!; [lia|by rewrite N.sub_diag|]. intros s' [->|Hs']%elem_of_cons; [lia|].
           specialize (Hmin _ Hs'). lia.
        -- split_and!; [lia|by rewrite Hshift|]. intros s' [->|Hs']%elem_of_cons; [lia|auto].
      * split_and!; [lia|by rewrite Hshift|]. intros s' [->|Hs']%elem_of_cons; [lia|auto].
    + split_and!; [lia|by rewrite N.sub_diag|]. change (live_slots (Some s :: l)) with (s :: live_slots l).
      rewrite IH. by intros s' ->%list_elem_of_singleton.
  - destruct (oldest_from l (k + 1)) as [[j t]|]; [|done].
    destruct IH as (Hj & Ht & Hmin). split_and!; [lia|by rewrite Hshift|done].
Qed.

Lemma oldest_spec l :
  match oldest l with
  | None => l = []
  | Some o => o ∈ l /\ forall e, e ∈ l -> e_ticket o <= e_ticket e
  end.
Proof.
  induction l as [|e l IH]; cbn [oldest]; [done|]. destruct (oldest l) as [o|].
  - destruct IH as [Ho Hmin]. destruct (N.leb_spec (e_ticket e) (e_ticket o)).
    + split; [by left|]. intros e' [->|He']%elem_of_cons; [lia|]. specialize (Hmin _ He'). lia.
    + split; [by right|]. intros e' [->|He']%elem_of_cons; [lia|auto].
  - subst. split; [by left|]. by intros e' ->%list_elem_of_singleton.
Qed.

Lemma evict_oldest_wp idx a :
  repr idx a ->
  wp evict_oldest idx (fun idx' r => r = Ok (a_evict a).2 /\ repr idx' (a_evict a).1).
Proof.
  intros Hr. pose proof Hr as (Hok & T & K & [_ _ _ HF Hcount _]).
  unfold evict_oldest, a_evict. wp_step. apply wp_gets. unfold id.
  pose proof (oldest_from_spec (sources idx) 0) as Hold. pose proof (oldest_spec (entries a)) as Hspec.
  destruct (oldest_from (sources idx) 0) as [[i s]|].
  - destruct Hold as (_ & Hs & Hmin). rewrite N.sub_0_r in Hs.
    destruct (Forall2_vget _ _ _ _ _ HF Hs) as ([e|] & He & Hrep); [|done].
    destruct Hrep as (Hreq & _ & _ & Htick).
    assert (Hein : e ∈ entries a) by (apply elem_of_live; by exists i).
    destruct (oldest (entries a)) as [o|]; [|by rewrite Hspec in Hein; apply elem_of_nil in Hein].
    destruct Hspec as [Ho Homin].
    assert (Hle : e_ticket e <= e_ticket o).
    { apply elem_of_live in Ho as [j Hj].
      destruct (Forall2_vget_r _ _ _ _ _ HF Hj) as ([s'|] & Hs' & Hrep'); [|done].
      destruct Hrep' as (_ & _ & _ & Ht'). rewrite <- Htick, <- Ht'. apply Hmin.
      apply elem_of_live. by exists j. }
    assert (Heq : e_ticket e = e_ticket o) by (specialize (Homin _ Hein); lia).
    apply elem_of_live in Ho as Hoj. destruct Hoj as [j Hj].
    pose proof (slot_unique e_ticket _ _ _ _ _ (ao_tickets _ Hok) He Hj Heq) as ->.
    rewrite He in Hj. injection Hj as <-. cbn [fst snd].
    rewrite (a_remove_position e_ticket); [|apply Hok|by intros x y ->%N.eqb_eq ->%N.eqb_eq].
    assert (Hpos : position (is_some_and (fun x => e_ticket x =? e_ticket e)) (a_slots a) = Some j).
    { destruct (position _ _) as [k|] eqn:Hk.
      - apply position_is_some_and in Hk as (x & Hx & Hxe). apply N.eqb_eq in Hxe.
        f_equal. by eapply (slot_unique e_ticket); [apply Hok|..].
      - pose proof (position_None _ _ _ _ Hk He) as Hf. cbn in Hf. by rewrite N.eqb_refl in Hf. }
    rewrite Hpos. wp_step. eapply wp_mono; [by eapply remove_source_slot_wp|].
    intros idx' r [-> Hr']. apply wp_ret. by rewrite Hreq.
  - assert (Hnil : entries a = []).
    { destruct (entries a) as [|e l] eqn:E; [done|]. assert (Hein : e ∈ entries a) by (rewrite E; by left).
      apply elem_of_live in Hein as [j Hj].
      destruct (Forall2_vget_r _ _ _ _ _ HF Hj) as ([s'|] & Hs' & Hrep'); [|done].
      assert (Hin : s' ∈ live_slots (sources idx)) by (apply elem_of_live; by exists j).
      rewrite Hold in Hin. by apply elem_of_nil in Hin. }
    rewrite Hnil in Hspec |- *. rewrite Hcount, Hnil. cbn. by apply wp_ret.
Qed.
