(* ===== verification/RadixLookup.v ===== *)
(** Lookup in the index: the walk down the trie keeps the best page-aligned
    match among the prefixes seen, and its result is the longest one, of the
    least request. *)
From S2P Require Import Prelude Spec Radix RadixSpec RadixInv RadixOps RadixRep.
From stdpp Require Import gmap.
Local Open Scope N_scope.
Local Open Scope prog_scope.

(** ** The order of requests *)
Lemma request_leb_spec x y :
  request_leb x y = true <-> slot x < slot y \/ slot x = slot y /\ generation x <= generation y.
Proof.
  unfold request_leb. rewrite orb_true_iff, andb_true_iff, N.ltb_lt, N.eqb_eq, N.leb_le. done.
Qed.

Lemma request_leb_refl x : request_leb x x = true.
Proof. apply request_leb_spec. lia. Qed.

Lemma request_leb_trans x y z :
  request_leb x y = true -> request_leb y z = true -> request_leb x z = true.
Proof. rewrite !request_leb_spec. lia. Qed.

Lemma request_leb_false x y : request_leb x y = false -> request_leb y x = true.
Proof. rewrite <- not_true_iff_false, !request_leb_spec. lia. Qed.

Definition below (o : option RequestId) (x : RequestId) : Prop :=
  exists r, o = Some r /\ request_leb r x = true.

Section lookup.
Context (idx : M1RadixPrefixIndexV1) (T : gmap N (list N)) (K : N -> list N) (a : AIndex).
Hypothesis Hrep : rep idx T K a.
Hypothesis Hok : a_ok a.

Let sh : shape (nodes idx) T K := ti_shape _ _ _ _ (rp_trie _ _ _ _ Hrep).

(** A path other than the root's is a prefix of an entry's tokens. *)
Lemma path_entry i p :
  T !! i = Some p -> p <> [] -> exists e, e ∈ entries a /\ p `prefix_of` e_tokens e.
Proof.
  intros Hi Hne. assert (Hp : p ∈ trie (token_lists a)).
  { apply (ti_paths _ _ _ _ (rp_trie _ _ _ _ Hrep)). by exists i. }
  apply elem_of_trie in Hp as [|(l & (e & -> & He)%list_elem_of_fmap & Hp)]; [done|]. by exists e.
Qed.

Lemma entry_path e p : e ∈ entries a -> p `prefix_of` e_tokens e -> exists i, T !! i = Some p.
Proof.
  intros He Hp. apply (ti_paths _ _ _ _ (rp_trie _ _ _ _ Hrep)), elem_of_trie. right.
  exists (e_tokens e). split; [|done]. apply list_elem_of_fmap. by exists e.
Qed.

Lemma path_bound i p : T !! i = Some p -> vlen p <= M1_MAX_CONTEXT_TOKENS.
Proof.
  intros Hi. destruct (decide (p = [])) as [->|Hne]; [done|].
  destruct (path_entry i p Hi Hne) as (e & He & Hp). apply prefix_length in Hp.
  destruct (ao_entry _ Hok e He) as (_ & Hlen & _). destruct (ao_limits _ Hok) as (_ & Hlim & _).
  unfold vlen in *. lia.
Qed.

(** ** The least request below a node *)
Lemma best_below_loop_wp anc p srcs slots : forall best,
  T !! anc = Some p -> Forall2 (source_rep T) srcs slots ->
  wp (best_below_loop srcs anc best) idx (fun idx' r => idx' = idx /\
    (r = best \/ exists e, e ∈ live_slots slots /\ p `prefix_of` e_tokens e /\ r = Some (e_request e)) /\
    (forall x, best = Some x -> below r x) /\
    (forall e, e ∈ live_slots slots -> p `prefix_of` e_tokens e -> below r (e_request e))).
Proof.
  intros best Hanc HF. revert best. induction HF as [|o eo srcs slots Ho HF IH]; intros best.
  { cbn [best_below_loop]. apply wp_ret. split_and!; [done|by left| |by intros e ?%elem_of_nil].
    intros x ->. exists x. split; [done|apply request_leb_refl]. }
  destruct o as [s|], eo as [e|]; try done; [|apply IH].
  destruct Ho as (Hreq & Hend & _). cbn [best_below_loop].
  change (live_slots (Some e :: slots)) with (e :: live_slots slots).
  wp_step. eapply wp_mono; [by eapply (node_is_ancestor_wp _ T K sh)|]. intros idx1 b [-> ->].
  destruct (bool_decide_reflect (p `prefix_of` e_tokens e)) as [Hp|Hp].
  - eapply wp_mono; [apply IH|]. intros idx1 r (-> & Hr & Hb & He). split; [done|].
    rewrite Hreq in Hr, Hb.
    set (x0 := match best with None => e_request e | Some b => if request_leb b (e_request e) then b else e_request e end) in *.
    assert (Hx0e : request_leb x0 (e_request e) = true).
    { unfold x0. destruct best as [b|]; [|apply request_leb_refl].
      destruct (request_leb b _) eqn:E; [done|apply request_leb_refl]. }
    assert (Hx0b : forall x, best = Some x -> request_leb x0 x = true).
    { intros x ->. unfold x0. destruct (request_leb x _) eqn:E; [apply request_leb_refl|].
      by apply request_leb_false. }
    destruct (Hb x0 eq_refl) as (y & Hy & Hyx0). split_and!.
    + destruct Hr as [->|(e' & He' & Hp' & ->)].
      * assert (Hcase : x0 = e_request e \/ best = Some x0).
        { unfold x0. destruct best as [b|]; [|by left]. destruct (request_leb b _); [by right|by left]. }
        destruct Hcase as [->|Hcase]; [right; exists e; split_and!; [by left|done..]|left; by rewrite Hcase].
      * right. exists e'. split_and!; [by right|done..].
    + intros x Hx. exists y. split; [done|]. eapply request_leb_trans; [exact Hyx0|by apply Hx0b].
    + intros e' [->|He']%elem_of_cons Hp'; [|by apply He]. exists y. split; [done|].
      by eapply request_leb_trans.
  - eapply wp_mono; [apply IH|]. intros idx1 r (-> & Hr & Hb & He). split_and!; [done| |done|].
    + destruct Hr as [->|(e' & He' & Hr)]; [by left|right]. exists e'. split; [by right|done].
    + intros e' [->|He']%elem_of_cons Hp'; [done|by apply He].
Qed.

Lemma best_source_below_wp anc p :
  T !! anc = Some p ->
  wp (best_source_below anc) idx (fun idx' r => idx' = idx /\
    match r with
    | None => forall e, e ∈ entries a -> ~ p `prefix_of` e_tokens e
    | Some x => (exists e, e ∈ entries a /\ p `prefix_of` e_tokens e /\ e_request e = x) /\
        forall e, e ∈ entries a -> p `prefix_of` e_tokens e -> request_leb x (e_request e) = true
    end).
Proof.
  intros Hanc. unfold best_source_below. wp_step. apply wp_gets. unfold id.
  eapply wp_mono; [eapply best_below_loop_wp; [exact Hanc|apply Hrep]|].
  intros idx' r (-> & Hr & _ & He). split; [done|]. destruct r as [x|].
  - split.
    + destruct Hr as [|(e & Hin & Hp & [= ->])]; [done|]. by exists e.
    + intros e Hin Hp. destruct (He e Hin Hp) as (y & [= <-] & Hy). done.
  - intros e Hin Hp. by destruct (He e Hin Hp) as (y & ? & _).
Qed.

(** ** The walk down *)

(** The best match of at most [d] tokens. *)
Definition best_upto (toks : list N) (page d : N) (best : option M1RadixPrefixMatchV1) : Prop :=
  match best with
  | None => forall k e, k <= d -> ~ page_match a toks page k e
  | Some m => exists e, page_match a toks page (match_token_count m) e /\ e_request e = match_source m /\
      match_token_count m <= d /\
      forall k e', k <= d -> page_match a toks page k e' ->
        k <= match_token_count m /\
        (k = match_token_count m -> request_leb (match_source m) (e_request e') = true)
  end.

(** One token further without a match there. *)
Lemma best_upto_skip toks page d best :
  (forall e, ~ page_match a toks page (d + 1) e) ->
  best_upto toks page d best -> best_upto toks page (d + 1) best.
Proof.
  intros Hno. assert (Hk : forall k e, k <= d + 1 -> page_match a toks page k e -> k <= d).
  { intros k e Hle Hm. destruct (decide (k = d + 1)) as [->|]; [by apply Hno in Hm|lia]. }
  destruct best as [m|].
  - intros (e & Hm & Hreq & Hle & Hall). exists e. split_and!; [done..|lia|]. intros k e' Hk' Hm'. apply Hall; [by eapply Hk|done].
  - intros Hall k e Hk' Hm. by eapply Hall; [eapply Hk|].
Qed.

(** One token further with a match there. *)
Lemma best_upto_take toks page d best e :
  page_match a toks page (d + 1) e ->
  (forall e', page_match a toks page (d + 1) e' -> request_leb (e_request e) (e_request e') = true) ->
  best_upto toks page d best -> best_upto toks page (d + 1) (Some (mkMatch (e_request e) (d + 1))).
Proof.
  intros Hm Hleast _. exists e. cbn [match_source match_token_count]. split_and!; [done|done|lia|].
  intros k e' Hk Hm'. split; [done|]. intros ->. by apply Hleast.
Qed.

(** No match is longer than the walk. *)
Lemma best_upto_all toks page d best :
  (forall k e, page_match a toks page k e -> k <= d) ->
  best_upto toks page d best -> lookup_spec a toks page best \/ page = 0.
Proof.
  intros Hk. destruct (decide (page = 0)) as [|Hp]; [by right|left]. destruct best as [m|]; cbn.
  - destruct H as (e & Hm & Hreq & _ & Hall). split; [done|]. exists e. split_and!; [done..|].
    intros k e' Hm'. apply Hall; [by eapply Hk|done].
  - right. intros k e Hm. by apply (H k e); [eapply Hk|].
Qed.

Lemma page_match_at toks page k e p rest :
  toks = p ++ rest -> vlen p = k -> 0 < k -> k mod page = 0 -> e ∈ entries a ->
  page_match a toks page k e <-> p `prefix_of` e_tokens e.
Proof.
  intros -> <- Hpos Hmod He. unfold page_match.
  assert (Ht : take (N.to_nat (vlen p)) (p ++ rest) = p).
  { unfold vlen. rewrite Nat2N.id. apply take_app_length. }
  rewrite Ht, vlen_app. split; [by intros (_ & _ & _ & ?)|]. intros Hp. split_and!; [done|lia|lia|done|done].
Qed.

Lemma match_loop_wp page rest : forall p node best,
  T !! node = Some p -> page <> 0 -> best_upto (p ++ rest) page (vlen p) best ->
  wp (match_loop rest page node best) idx (fun idx' r => idx' = idx /\ lookup_spec a (p ++ rest) page r).
Proof.
  induction rest as [|t rest IH]; intros p node best Hnode Hpage Hbest; cbn [match_loop].
  { apply wp_ret. split; [done|]. destruct (best_upto_all (p ++ []) page (vlen p) best); try done.
    intros k e (_ & Hk & _). rewrite app_nil_r in Hk. lia. }
  wp_step. eapply wp_mono; [by eapply (find_child_wp _ T K sh)|].
  intros idx1 [c|] [-> Hc].
  - destruct (shape_node _ _ _ sh c _ Hc) as (n & Hn & Hd).
    assert (Hlen : vlen (p ++ [t]) = vlen p + 1) by (rewrite vlen_app; done).
    wp_step. apply (wp_read_at _ None); [by eapply shape_lt|].
    apply node_in_vget in Hn as Hg. rewrite (vnth_get _ _ _ _ Hg).
    specialize (IH (p ++ [t]) c). rewrite <- app_assoc in IH. cbn [app] in IH.
    rewrite Hlen in IH. rewrite Hd, Hlen.
    destruct (N.eqb_spec ((vlen p + 1) mod page) 0) as [Hmod|Hmod].
    + assert (Hat : forall e, e ∈ entries a -> page_match a (p ++ t :: rest) page (vlen p + 1) e <-> (p ++ [t]) `prefix_of` e_tokens e).
      { intros e He. apply page_match_at with rest; [by rewrite <- app_assoc|done|lia|done|done]. }
      wp_step. eapply wp_mono; [by apply best_source_below_wp|]. intros idx1 [x|] [-> Hx].
      * destruct Hx as [(e & He & Hpe & <-) Hleast].
        pose proof (path_bound c _ Hc) as Hb. rewrite Hlen in Hb.
        destruct (N.ltb_spec u32_max (vlen p + 1)); [unfold u32_max, M1_MAX_CONTEXT_TOKENS in *; lia|].
        apply IH; [done|done|]. eapply best_upto_take; [by apply Hat| |exact Hbest].
        intros e' He'. pose proof He' as (Hin & _). apply Hleast; [done|by apply Hat].
      * apply IH; [done|done|]. apply best_upto_skip; [|done]. intros e He.
        pose proof He as (Hin & _). by apply (Hx e Hin), Hat.
    + apply IH; [done|done|]. apply best_upto_skip; [|done]. by intros e (_ & _ & Hm & _).
  - apply wp_ret. split; [done|]. destruct (best_upto_all (p ++ t :: rest) page (vlen p) best); try done.
    intros k e (He & Hk & _ & Hp). destruct (N.le_gt_cases k (vlen p)) as [|Hgt]; [done|exfalso].
    destruct (entry_path e (p ++ [t]) He) as [i Hi]; [|by eapply Hc].
    etrans; [|exact Hp]. exists (take (N.to_nat k - length p - 1) rest).
    rewrite <- app_assoc. cbn [app]. unfold vlen in Hgt.
    rewrite (take_app_ge p (t :: rest)) by lia. f_equal.
    replace (N.to_nat k - length p)%nat with (S (N.to_nat k - length p - 1)) by lia. cbn [take]. do 2 f_equal. lia.
Qed.

Lemma longest_page_aligned_match_wp toks page :
  wp (longest_page_aligned_match toks page) idx (fun idx' r => idx' = idx /\ lookup_spec a toks page r).
Proof.
  unfold longest_page_aligned_match. destruct (N.eqb_spec page 0) as [->|Hp].
  { apply wp_ret. split; [done|by left]. }
  apply (match_loop_wp page toks [] ROOT_NODE None); [apply sh|done|].
  intros k e Hk (_ & Hpos & _). rewrite vlen_nil in Hk. lia.
Qed.
End lookup.
