(* ===== verification/RadixRegister.v ===== *)
(** Registration: the checks decide as the specification does, on an unchanged
    index; the commit replaces the victims' records, inserts the missing
    nodes and prunes what only the victims needed. *)
From S2P Require Import Prelude Spec Radix RadixSpec RadixInv RadixOps RadixRep.
From stdpp Require Import gmap.
Local Open Scope N_scope.
Local Open Scope prog_scope.

(** ** Vacating several slots *)
Definition vacate {A} (vs : list N) (l : list (option A)) : list (option A) :=
  foldl (fun l i => vset l i None) l vs.

Lemma vacate_cons {A} i vs (l : list (option A)) : vacate (i :: vs) l = vacate vs (vset l i None).
Proof. done. Qed.

Lemma vlen_vacate {A} vs (l : list (option A)) : vlen (vacate vs l) = vlen l.
Proof. revert l. induction vs as [|i vs IH]; intros l; [done|]. rewrite vacate_cons, IH. apply vlen_vset. Qed.

Lemma vget_vacate {A} vs (l : list (option A)) i : 
  vget (vacate vs l) i = if decide (i ∈ vs) then (fun _ => None) <$> vget l i else vget l i.
Proof.
  revert l. induction vs as [|j vs IH]; intros l.
  { destruct (decide (i ∈ [])) as [H|]; [by apply elem_of_nil in H|done]. }
  rewrite vacate_cons, IH. destruct (decide (i = j)) as [->|Hne].
  - rewrite (decide_True (P := j ∈ j :: vs)) by by left.
    destruct (N.lt_ge_cases j (vlen l)) as [Hj|Hj].
    + rewrite vget_vset_eq by done. destruct (vget_lt l j Hj) as [x ->]. by case_decide.
    + assert (Hn : forall l' : list (option A), vlen l' = vlen l -> vget l' j = None).
      { intros l' Hl. unfold vget. apply lookup_ge_None. unfold vlen in *. lia. }
      rewrite !Hn by (try apply vlen_vset; done). by case_decide.
  - rewrite vget_vset_ne by done. destruct (decide (i ∈ vs)) as [H|H].
    + by rewrite decide_True by by right.
    + rewrite decide_False; [done|]. by intros [|]%elem_of_cons.
Qed.

Lemma vacate_rep T vs : forall srcs slots,
  Forall2 (source_rep T) srcs slots -> Forall2 (source_rep T) (vacate vs srcs) (vacate vs slots).
Proof.
  induction vs as [|i vs IH]; intros srcs slots H; [done|]. apply IH. by apply Forall2_vset.
Qed.

Definition occupied (slots : list (option Entry)) (vs : list N) (es : list Entry) : Prop :=
  Forall2 (fun i e => vget slots i = Some (Some e)) vs es.

Lemma occupied_vset slots i o vs es : i ∉ vs -> occupied slots vs es -> occupied (vset slots i o) vs es.
Proof.
  intros Hi H. induction H as [|j e vs es Hj _ IH]; [constructor|].
  apply not_elem_of_cons in Hi as [Hne Hi]. constructor; [by rewrite vget_vset_ne|by apply IH].
Qed.

Lemma vacate_account vs : forall slots es,
  NoDup vs -> occupied slots vs es -> live_slots slots ≡ₚ es ++ live_slots (vacate vs slots).
Proof.
  induction vs as [|i vs IH]; intros slots es Hnd H.
  { by apply Forall2_nil_inv_l in H as ->. }
  apply Forall2_cons_inv_l in H as (e & es' & He & H & ->). apply NoDup_cons in Hnd as [Hi Hnd].
  rewrite vacate_cons. cbn [app]. rewrite (live_vacated _ _ _ He). f_equiv. apply IH; [done|].
  by apply occupied_vset.
Qed.

(** A test that accepts at most one slot. *)
Lemma position_unique {A} (f : A -> bool) l i :
  (forall i j a b, vget l i = Some a -> vget l j = Some b -> f a = true -> f b = true -> i = j) ->
  position f l = Some i <-> exists a, vget l i = Some a /\ f a = true.
Proof.
  intros Hu. split; [apply position_Some|]. intros (a & Ha & Hf).
  destruct (position f l) as [j|] eqn:E.
  - apply position_Some in E as (b & Hb & Hfb). f_equal. by eapply Hu.
  - pose proof (position_None _ _ _ _ E Ha). congruence.
Qed.

(** ** The victims *)
Definition same_slot_of (src : RequestId) (slots : list (option Entry)) : option N :=
  position (is_some_and (fun e => slot (e_request e) =? slot src)) slots.
Definition duplicate_of (toks : list N) (slots : list (option Entry)) : option N :=
  position (is_some_and (fun e => bool_decide (e_tokens e = toks))) slots.
Definition victims_of (src : RequestId) (toks : list N) (slots : list (option Entry)) : list N :=
  option_list (same_slot_of src slots) ++
  (if decide (duplicate_of toks slots = same_slot_of src slots) then []
   else option_list (duplicate_of toks slots)).

Lemma option_list_elem {A} (o : option A) x : x ∈ option_list o <-> o = Some x.
Proof. destruct o as [y|]; simpl; rewrite ?elem_of_nil, ?list_elem_of_singleton; naive_solver. Qed.

Section victims.
Context (a : AIndex) (src : RequestId) (toks : list N).
Hypothesis Hok : a_ok a.
Let vs := victims_of src toks (a_slots a).

Lemma same_slot_iff i :
  same_slot_of src (a_slots a) = Some i <->
  exists e, vget (a_slots a) i = Some (Some e) /\ slot (e_request e) = slot src.
Proof.
  unfold same_slot_of. rewrite position_unique.
  - split; [intros ([e|] & He & Hf); [|done]; exists e; by apply N.eqb_eq in Hf|].
    intros (e & He & Hs). exists (Some e). split; [done|]. by apply N.eqb_eq.
  - eapply (test_unique (fun e => slot (e_request e))); [apply Hok|]. by intros e e' ->%N.eqb_eq ->%N.eqb_eq.
Qed.

Lemma duplicate_iff i :
  duplicate_of toks (a_slots a) = Some i <->
  exists e, vget (a_slots a) i = Some (Some e) /\ e_tokens e = toks.
Proof.
  unfold duplicate_of. rewrite position_unique.
  - split; [intros ([e|] & He & Hf); [|done]; exists e; by apply bool_decide_eq_true in Hf|].
    intros (e & He & Hs). exists (Some e). split; [done|]. by apply bool_decide_eq_true.
  - eapply (test_unique e_tokens); [apply Hok|]. by intros e e' ->%bool_decide_eq_true ->%bool_decide_eq_true.
Qed.

(** The victims are the replaced entries' slots. *)
Lemma victims_iff i :
  i ∈ vs <-> exists e, vget (a_slots a) i = Some (Some e) /\ replaced src toks (Some e) = true.
Proof.
  assert (Hin : i ∈ vs <-> same_slot_of src (a_slots a) = Some i \/ duplicate_of toks (a_slots a) = Some i).
  { unfold vs, victims_of. rewrite elem_of_app, option_list_elem.
    case_decide as E; [rewrite elem_of_nil, E; tauto|]. by rewrite option_list_elem. }
  rewrite Hin, same_slot_iff, duplicate_iff. cbn [replaced]. setoid_rewrite orb_true_iff.
  setoid_rewrite N.eqb_eq. setoid_rewrite bool_decide_eq_true. naive_solver.
Qed.

Lemma victims_nodup : NoDup vs.
Proof.
  unfold vs, victims_of. apply NoDup_app. split_and!.
  - destruct (same_slot_of _ _); simpl; [apply NoDup_singleton|constructor].
  - intros i Hi%option_list_elem. case_decide as E; [apply not_elem_of_nil|].
    rewrite option_list_elem. congruence.
  - case_decide; [constructor|]. destruct (duplicate_of _ _); simpl; [apply NoDup_singleton|constructor].
Qed.

(** At most two, the second of the same tokens. *)
Lemma victims_few : vlen vs <= 2.
Proof.
  unfold vs, victims_of. case_decide; destruct (same_slot_of _ _), (duplicate_of _ _); cbn; unfold vlen; simpl; lia.
Qed.

Lemma victims_occupied : exists es, occupied (a_slots a) vs es /\ Forall (fun e => e_tokens e = toks) (tail es).
Proof.
  unfold vs, victims_of. destruct (same_slot_of src (a_slots a)) as [i|] eqn:Hs.
  - destruct (proj1 (same_slot_iff i) Hs) as (e & He & _). case_decide as E.
    + exists [e]. split; [by repeat constructor|constructor].
    + destruct (duplicate_of toks (a_slots a)) as [j|] eqn:Hd.
      * destruct (proj1 (duplicate_iff j) Hd) as (e' & He' & Ht). exists [e; e']. split; repeat constructor; done.
      * exists [e]. split; [by repeat constructor|constructor].
  - destruct (duplicate_of toks (a_slots a)) as [j|] eqn:Hd.
    + destruct (proj1 (duplicate_iff j) Hd) as (e' & He' & Ht). rewrite decide_False by done.
      exists [e']. split; [by repeat constructor|constructor].
    + rewrite decide_True by done. exists []. split; constructor.
Qed.

Lemma kept_vacate : clear (replaced src toks) (a_slots a) = vacate vs (a_slots a).
Proof.
  apply list_eq. intros k. rewrite <- (Nat2N.id k). fold (vget (clear (replaced src toks) (a_slots a)) (N.of_nat k)).
  fold (vget (vacate vs (a_slots a)) (N.of_nat k)). rewrite vget_vacate.
  unfold clear, vget at 1. rewrite list_lookup_fmap. fold (vget (a_slots a) (N.of_nat k)).
  destruct (vget (a_slots a) (N.of_nat k)) as [o|] eqn:Ho; [|by case_decide].
  cbn [fmap option_fmap option_map]. case_decide as Hin.
  - apply victims_iff in Hin as (e & He & Hr). rewrite Ho in He. injection He as ->. by rewrite Hr.
  - destruct o as [e|]; [|done]. destruct (replaced src toks (Some e)) eqn:Hr; [|done].
    destruct Hin. apply victims_iff. by exists e.
Qed.

Lemma kept_entry e :
  e ∈ live_slots (vacate vs (a_slots a)) ->
  e ∈ entries a /\ slot (e_request e) <> slot src /\ e_tokens e <> toks.
Proof.
  rewrite <- kept_vacate. intros [i Hi]%elem_of_live. unfold clear, vget in Hi. rewrite list_lookup_fmap in Hi.
  fold (vget (a_slots a) i) in Hi. destruct (vget (a_slots a) i) as [o|] eqn:Ho; [|done].
  cbn [fmap option_fmap option_map] in Hi. destruct (replaced src toks o) eqn:Hr; [done|].
  injection Hi as ->. split; [apply elem_of_live; by exists i|].
  cbn [replaced] in Hr. apply orb_false_iff in Hr as [Hs Ht]. apply N.eqb_neq in Hs.
  by apply bool_decide_eq_false in Ht.
Qed.
End victims.
