(* ===== verification/RadixCommit.v ===== *)
(** The registration of a source refines the specification's: the checks read
    the index only, and the commit, which runs after all of them, cannot
    fail. *)
From S2P Require Import Prelude Spec Radix RadixSpec RadixInv RadixOps RadixRep RadixRegister.
From stdpp Require Import gmap.
Local Open Scope N_scope.
Local Open Scope prog_scope.

(** ** Missing nodes *)
Lemma filter_map_all {A B} (f : A -> B) (P : B -> Prop) {HP : forall b, Decision (P b)} (l : list A) :
  (forall x, x ∈ l -> P (f x)) -> filter P (f <$> l) = f <$> l.
Proof.
  intros H. induction l as [|x l IH]; [done|]. rewrite fmap_cons, filter_cons_True by (apply H; by left).
  f_equal. apply IH. intros y Hy. apply H. by right.
Qed.

Lemma filter_map_none {A B} (f : A -> B) (P : B -> Prop) {HP : forall b, Decision (P b)} (l : list A) :
  (forall x, x ∈ l -> ~ P (f x)) -> filter P (f <$> l) = [].
Proof.
  intros H. induction l as [|x l IH]; [done|]. rewrite fmap_cons, filter_cons_False by (apply H; by left).
  apply IH. intros y Hy. apply H. by right.
Qed.

Lemma missing_depth toks L k :
  (k <= length toks)%nat -> take k toks ∈ trie L ->
  (k < length toks -> take (S k) toks ∉ trie L)%nat -> missing toks L = vlen toks - N.of_nat k.
Proof.
  intros Hk Hin Hout. unfold missing, all_prefixes.
  replace (S (length toks)) with (S k + (length toks - k))%nat by lia.
  rewrite seq_app, fmap_app, filter_app, length_app. cbn [Nat.add].
  rewrite filter_map_none, filter_map_all; cycle 1.
  - intros j Hj%elem_of_seq Hp. apply Hout; [lia|]. eapply trie_prefix; [|exact Hp].
    exists (take (j - S k) (drop (S k) toks)). replace j with (S k + (j - S k))%nat at 1 by lia. 
    symmetry. apply take_take_drop.
  - intros j Hj%elem_of_seq. intros Hn. apply Hn. eapply trie_prefix; [|exact Hin].
    exists (take (k - j) (drop j toks)). replace k with (j + (k - j))%nat at 1 by lia.
    symmetry. apply take_take_drop.
  - rewrite length_fmap, length_seq. unfold vlen. simpl. lia.
Qed.

(** ** The victims' account *)
Lemma count_victims_wp idx T slots vs : forall es c t,
  Forall2 (source_rep T) (sources idx) slots -> occupied slots vs es ->
  c + vlen vs <= usize_max -> t + a_stored es <= usize_max ->
  wp (count_victims vs c t) idx (fun idx' r => idx' = idx /\ r = Ok (c + vlen vs, t + a_stored es)).
Proof.
  induction vs as [|i vs IH]; intros es c t HF H Hc Ht; cbn [count_victims].
  { apply Forall2_nil_inv_l in H as ->. apply wp_ret. cbn. by rewrite vlen_nil, !N.add_0_r. }
  apply Forall2_cons_inv_l in H as (e & es' & He & H & ->).
  destruct (Forall2_vget_r _ _ _ _ _ HF He) as ([s|] & Hs & Hrep); [|done].
  destruct Hrep as (_ & _ & Htc & _). rewrite vlen_cons in Hc. cbn [a_stored foldr] in Ht.
  change (foldr _ 0 es') with (a_stored es') in Ht.
  wp_step. apply (wp_read_at _ None); [by eapply vget_Some_lt|]. rewrite (vnth_get _ _ _ _ Hs).
  unfold or_violation, checked_add. wp_step. apply wp_ret. wp_step. rewrite (proj2 (N.leb_le _ _)) by lia.
  apply wp_ret. wp_step. rewrite Htc, (proj2 (N.leb_le _ _)) by lia. apply wp_ret.
  eapply wp_mono; [apply (IH es'); [done|done|lia|lia]|]. intros idx' r [-> ->]. split; [done|].
  cbn [a_stored foldr]. change (foldr _ 0 es') with (a_stored es'). rewrite vlen_cons. do 2 f_equal; lia.
Qed.

Definition paths (T : gmap N (list N)) (ends : list N) (es : list Entry) : Prop :=
  Forall2 (fun i e => T !! i = Some (e_tokens e)) ends es.

Lemma take_victims_wp vs : forall idx T slots es,
  Forall2 (source_rep T) (sources idx) slots -> occupied slots vs es -> NoDup vs ->
  wp (take_victims vs) idx (fun idx' ends =>
    idx' = put_sources (vacate vs (sources idx)) idx /\ paths T ends es).
Proof.
  induction vs as [|i vs IH]; intros idx T slots es HF H Hnd; cbn [take_victims].
  { apply Forall2_nil_inv_l in H as ->. apply wp_ret. split; [by destruct idx|constructor]. }
  apply Forall2_cons_inv_l in H as (e & es' & He & H & ->). apply NoDup_cons in Hnd as [Hi Hnd].
  destruct (Forall2_vget_r _ _ _ _ _ HF He) as ([s|] & Hs & Hrep); [|done].
  pose proof Hrep as (_ & Hend & _ & _). pose proof (vget_Some_lt _ _ _ Hs) as Hlt.
  wp_step. apply (wp_read_at _ None); [done|]. rewrite (vnth_get _ _ _ _ Hs).
  wp_step. apply (wp_update_at _ _ None); [done|]. wp_step.
  eapply wp_mono; [apply (IH _ T (vset slots i None) es')|].
  - cbn [sources put_sources]. by apply Forall2_vset.
  - by apply occupied_vset.
  - done.
  - intros idx' ends [-> Hends]. apply wp_ret. split; [done|]. by constructor.
Qed.

(** ** Pruning the victims' paths *)

(** Pruning one path keeps the live ones, so the other victims' endpoints. *)
Lemma prune_one_wp idx T K L i e ends es :
  trie_inv idx T K (trie (e_tokens e :: L)) -> endpoints idx T L -> T !! i = Some (e_tokens e) ->
  paths T ends es -> Forall (fun e => e_tokens e ∈ L) es ->
  wp (prune_from i) idx (fun idx1 r => r = Ok tt /\ exists T1 K1,
    trie_inv idx1 T1 K1 (trie L) /\ endpoints idx1 T1 L /\ paths T1 ends es /\ pruned T T1 L /\ frame idx idx1).
Proof.
  intros Hinv Hend Hi Hp HL. eapply wp_mono; [by eapply (prune_from_wp idx T K L i)|].
  intros idx1 r (-> & T1 & K1 & Hinv1 & Hpr1 & Hfr1). split; [done|]. exists T1, K1.
  assert (Hlive : forall l, l ∈ L -> l ∈ trie L) by (intros l Hl; apply elem_of_trie; right; by exists l).
  assert (Hsrc : sources idx1 = sources idx) by apply Hfr1. split_and!; [done| | |done|done].
  - intros l. rewrite (Hend l), Hsrc. split; intros (s & Hs & Hes); exists s; (split; [done|]).
    + apply Hpr1. split; [done|]. apply Hlive, Hend. by exists s.
    + by apply Hpr1 in Hes as [].
  - apply Forall2_same_length_lookup_2; [by eapply Forall2_length|]. intros n k e' Hk He'.
    apply Hpr1. split; [by apply (Forall2_lookup_lr _ _ _ _ _ _ Hp Hk He')|].
    apply Hlive. by apply (Forall_lookup_1 _ _ _ _ HL He').
Qed.

Lemma pruned_trans T T1 T2 L : pruned T T1 L -> pruned T1 T2 L -> pruned T T2 L.
Proof. intros H1 H2 k q. rewrite (H2 k q), (H1 k q). tauto. Qed.

Lemma prune_live_wp ends : forall idx T K L es,
  trie_inv idx T K (trie L) -> endpoints idx T L -> paths T ends es ->
  Forall (fun e => e_tokens e ∈ L) es ->
  wp (prune_victims ends) idx (fun idx' _ => exists T' K',
    trie_inv idx' T' K' (trie L) /\ pruned T T' L /\ frame idx idx').
Proof.
  induction ends as [|i ends IH]; intros idx T K L es Hinv Hend Hp HL; cbn [prune_victims].
  { apply wp_ret. exists T, K. split_and!; [done| |done]. intros k q. split; [|tauto].
    intros Hk. split; [done|]. apply (ti_paths _ _ _ _ Hinv). by exists k. }
  apply Forall2_cons_inv_l in Hp as (e & es' & He & Hp & ->). apply Forall_cons in HL as [HeL HL].
  wp_step. eapply wp_mono; [eapply (prune_one_wp idx T K L i e ends es'); [|done..]|].
  { rewrite trie_absorb; [done|]. apply elem_of_trie. right. by exists (e_tokens e). }
  intros idx1 r (-> & T1 & K1 & Hinv1 & Hend1 & Hp1 & Hpr1 & Hfr1).
  eapply wp_mono; [by apply (IH idx1 T1 K1 L es')|].
  intros idx' _ (T' & K' & Hinv' & Hpr' & Hfr'). exists T', K'.
  split_and!; [done|by eapply pruned_trans|by eapply frame_trans].
Qed.

(** Only the first victim's path may be needed by no one. *)
Lemma prune_victims_wp ends idx T K L es :
  trie_inv idx T K (trie ((e_tokens <$> es) ++ L)) -> endpoints idx T L -> paths T ends es ->
  Forall (fun e => e_tokens e ∈ L) (tail es) ->
  wp (prune_victims ends) idx (fun idx' _ => exists T' K',
    trie_inv idx' T' K' (trie L) /\ pruned T T' L /\ frame idx idx').
Proof.
  intros Hinv Hend Hp HL. destruct Hp as [|i e ends es He Hp].
  { apply (prune_live_wp [] idx T K L []); [done|done|constructor|constructor]. }
  cbn [tail] in HL. assert (HPeq : trie ((e_tokens <$> e :: es) ++ L) = trie (e_tokens e :: L)).
  { apply trie_ext. intros l. rewrite fmap_cons. cbn [app]. rewrite !elem_of_cons, elem_of_app. split; [|tauto].
    intros [|[(e' & -> & He')%list_elem_of_fmap|]]; [by left| |by right]. right.
    apply list_elem_of_lookup in He' as [n Hn]. by apply (Forall_lookup_1 _ _ _ _ HL Hn). }
  rewrite HPeq in Hinv. cbn [prune_victims]. wp_step.
  eapply wp_mono; [by eapply (prune_one_wp idx T K L i e ends es)|].
  intros idx1 r (-> & T1 & K1 & Hinv1 & Hend1 & Hp1 & Hpr1 & Hfr1).
  eapply wp_mono; [by apply (prune_live_wp ends idx1 T1 K1 L es)|].
  intros idx' _ (T' & K' & Hinv' & Hpr' & Hfr'). exists T', K'.
  split_and!; [done|by eapply pruned_trans|by eapply frame_trans].
Qed.

(** ** Placing the new entry *)
Lemma full_slots {A} (l : list (option A)) :
  position (fun o => negb (is_some_and (fun _ => true) o)) l = None -> vlen (live_slots l) = vlen l.
Proof.
  induction l as [|o l IH]; [done|]. rewrite position_cons. destruct o as [e|]; [|done]. cbn [negb is_some_and].
  destruct (position _ l); [done|]. intros _. change (live_slots (Some e :: l)) with (e :: live_slots l).
  rewrite !vlen_cons, IH; done.
Qed.

Lemma place_spec e l :
  vlen (live_slots l) < vlen l ->
  exists i, position (fun o => negb (is_some_and (fun _ => true) o)) l = Some i /\
    place e l = vset l i (Some e) /\ live_slots (place e l) ≡ₚ e :: live_slots l.
Proof.
  intros Hlt. unfold place. destruct (position _ l) as [i|] eqn:Hi.
  - exists i. split_and!; [done..|]. apply position_Some in Hi as ([x|] & Hx & Hf); [done|].
    by apply live_occupied.
  - apply full_slots in Hi. lia.
Qed.

Section registered.
Context (a : AIndex) (src : RequestId) (toks : list N).
Hypothesis Hok : a_ok a.
Hypothesis Htoks : toks <> [].
Hypothesis Hgen : generation src <> 0.
Hypothesis Hlen : vlen toks <= limit_tokens_per_source (a_limits a).
Hypothesis Hnext : a_next a < u64_max.
Let vs := victims_of src toks (a_slots a).
Let kept := vacate vs (a_slots a).
Hypothesis Hsources : vlen (live_slots kept) < limit_sources (a_limits a).
Hypothesis Hstored : a_stored (live_slots kept) + vlen toks <= limit_stored_tokens (a_limits a).

Definition new_entry : Entry := mkEntry src toks (a_next a).
Definition registered : AIndex := mkAIndex (a_limits a) (place new_entry kept) (a_next a + 1).

Lemma kept_room : vlen (live_slots kept) < vlen kept.
Proof. unfold kept. rewrite vlen_vacate, (ao_len _ Hok). exact Hsources. Qed.

Lemma registered_perm : entries registered ≡ₚ new_entry :: live_slots kept.
Proof. destruct (place_spec new_entry kept kept_room) as (i & _ & _ & H). exact H. Qed.

Lemma registered_ok : a_nodes registered <= limit_nodes (a_limits a) -> a_ok registered.
Proof.
  intros Hnodes. destruct (victims_occupied a src toks Hok) as (es & Hes & _).
  pose proof (vacate_account _ _ _ (victims_nodup a src toks) Hes) as Hacc. fold vs kept in Hacc.
  assert (Hk : a_ok (mkAIndex (a_limits a) kept (a_next a))).
  { apply (a_ok_fewer a kept es Hok); [apply vlen_vacate|exact Hacc]. }
  pose proof (kept_entry a src toks Hok) as Hke. fold vs kept in Hke.
  pose proof registered_perm as Hperm. destruct (place_spec new_entry kept kept_room) as (i & _ & Hplace & _).
  destruct Hk as [Hlim Hl Hent Hs Ht Hti Hst Hn Hnx]. cbn [a_limits a_slots a_next] in *.
  change (entries (mkAIndex (a_limits a) kept (a_next a))) with (live_slots kept) in *.
  split; rewrite ?Hperm; cbn [registered a_limits a_slots a_next fmap list_fmap new_entry e_request e_tokens e_ticket].
  - done.
  - rewrite Hplace, vlen_vset. done.
  - intros e He. rewrite Hperm in He. apply elem_of_cons in He as [->|He].
    + cbn. split_and!; try done; lia.
    + destruct (Hent e He) as (H1 & H2 & H3 & H4). split_and!; try done; lia.
  - apply NoDup_cons. split; [|done]. intros (e & He & Hin)%list_elem_of_fmap. by apply Hke in Hin as (_ & ? & _).
  - apply NoDup_cons. split; [|done]. intros (e & He & Hin)%list_elem_of_fmap. by apply Hke in Hin as (_ & _ & ?).
  - apply NoDup_cons. split; [|done]. intros (e & He & Hin)%list_elem_of_fmap. apply Hent in Hin as (_ & _ & _ & ?). lia.
  - rewrite (a_stored_perm _ _ Hperm). cbn. change (foldr _ 0 (live_slots kept)) with (a_stored (live_slots kept)). lia.
  - done.
  - lia.
Qed.

(** The prefixes of the old entries and the new one. *)
Lemma registered_paths es :
  occupied (a_slots a) vs es ->
  trie (toks :: token_lists a) = trie ((e_tokens <$> es) ++ token_lists registered).
Proof.
  intros Hes. pose proof (vacate_account _ _ _ (victims_nodup a src toks) Hes) as Hacc. fold vs kept in Hacc.
  apply trie_ext. intros l. unfold token_lists. rewrite registered_perm.
  change (entries a) with (live_slots (a_slots a)). rewrite Hacc, fmap_app, fmap_cons.
  rewrite elem_of_cons, !elem_of_app, elem_of_cons. cbn [new_entry e_tokens]. tauto.
Qed.
End registered.

(** ** The commit *)
Lemma inserted_paths P toks k L :
  (k <= length toks)%nat -> take k toks ∈ trie L ->
  (forall q, q ∈ P <-> q ∈ trie L \/
     exists i, (1 <= i <= length (drop k toks))%nat /\ q = take k toks ++ take i (drop k toks)) ->
  P = trie (toks :: L).
Proof.
  intros Hk Hin HP. apply set_eq. intros q. rewrite HP, (elem_of_trie q (toks :: L)). split.
  - intros [[->|(l & Hl & Hq)]%elem_of_trie|(i & Hi & ->)]; [by left| |].
    + right. exists l. split; [by right|done].
    + right. exists toks. split; [by left|]. rewrite take_take_drop. apply prefix_take.
  - intros [->|(l & [->|Hl]%elem_of_cons & Hq)].
    + left. apply elem_of_trie. by left.
    + apply elem_of_all_prefixes in Hq. apply list_elem_of_fmap in Hq as (n & -> & Hn%elem_of_seq).
      destruct (decide (n <= k)%nat) as [Hnk|Hnk].
      * left. eapply trie_prefix; [|exact Hin]. exists (take (k - n) (drop n toks)).
        rewrite take_take_drop. f_equal. lia.
      * right. exists (n - k)%nat. rewrite length_drop, take_take_drop. split; [lia|]. f_equal. lia.
    + left. apply elem_of_trie. right. by exists l.
Qed.

Lemma source_rep_mono T T' srcs slots :
  (forall i q, T !! i = Some q -> T' !! i = Some q) ->
  Forall2 (source_rep T) srcs slots -> Forall2 (source_rep T') srcs slots.
Proof.
  intros HT HF. eapply Forall2_impl; [exact HF|]. intros [s|] [e|]; try done.
  intros (H1 & H2 & H3). split_and!; [done|by apply HT|apply H3..].
Qed.

Lemma trie_inv_fields idx idx' T K P :
  nodes idx' = nodes idx -> node_count idx' = node_count idx -> limits idx' = limits idx ->
  trie_inv idx T K P -> trie_inv idx' T K P.
Proof. intros E1 E2 E3 [H1 H2 H3 H4 H5]. split; rewrite ?E1, ?E2, ?E3; done. Qed.

Section commit.
Context (idx : M1RadixPrefixIndexV1) (T : gmap N (list N)) (K : N -> list N) (a : AIndex).
Context (src : RequestId) (toks : list N).
Hypothesis Hrep : rep idx T K a.
Hypothesis Hok : a_ok a.
Hypothesis Htoks : toks <> [].
Hypothesis Hgen : generation src <> 0.
Hypothesis Hlen : vlen toks <= limit_tokens_per_source (a_limits a).
Hypothesis Hnext : a_next a < u64_max.
Let vs := victims_of src toks (a_slots a).
Let kept := vacate vs (a_slots a).
Hypothesis Hsources : vlen (live_slots kept) < limit_sources (a_limits a).
Hypothesis Hstored : a_stored (live_slots kept) + vlen toks <= limit_stored_tokens (a_limits a).

(** From the tree with the new path and the new record in place to the end. *)
Lemma prune_registered_wp idx3 T3 K3 ends es :
  trie_inv idx3 T3 K3 (trie (toks :: token_lists a)) ->
  occupied (a_slots a) vs es -> Forall (fun e => e_tokens e = toks) (tail es) -> paths T3 ends es ->
  Forall2 (source_rep T3) (sources idx3) (a_slots (registered a src toks)) ->
  limits idx3 = a_limits a -> source_count idx3 = vlen (live_slots kept) + 1 ->
  stored_tokens idx3 = a_stored (live_slots kept) + vlen toks -> next_ticket idx3 = a_next a + 1 ->
  wp (prune_victims ends) idx3 (fun idx' _ => repr idx' (registered a src toks)).
Proof.
  intros Hinv Hes Htail Hp HF Hlim Hc Hst Hn.
  pose proof (registered_perm a src toks Hok Hsources) as Hperm.
  rewrite (registered_paths a src toks Hok Hsources es Hes) in Hinv.
  eapply wp_mono; [apply (prune_victims_wp ends idx3 T3 K3 _ es Hinv)|].
  - by apply (sources_endpoints idx3 T3 _ _ HF).
  - done.
  - eapply Forall_impl; [exact Htail|]. intros e ->. unfold token_lists. rewrite Hperm. by left.
  - intros idx' _ (T' & K' & Hinv' & Hpr & (F1 & F2 & F3 & F4 & F5)). split.
    + apply registered_ok; try done. destruct Hinv' as [_ _ Hcount _ Hb]. unfold a_nodes.
      rewrite F1, Hlim in Hb. lia.
    + exists T', K'. split.
      * done.
      * by rewrite F1.
      * by rewrite F5.
      * rewrite F2. by eapply sources_pruned; [exact HF|exact Hpr|].
      * rewrite F3, Hc. rewrite (vlen_perm _ _ Hperm), vlen_cons. done.
      * rewrite F4, Hst, (a_stored_perm _ _ Hperm).
        change (a_stored (_ :: live_slots _)) with (vlen toks + a_stored (live_slots kept)). lia.
Qed.

Lemma register_commit_wp j k :
  (k <= length toks)%nat -> T !! j = Some (take k toks) ->
  (k < length toks -> forall c, T !! c <> Some (take (S k) toks))%nat ->
  node_count idx + (vlen toks - N.of_nat k) <= limit_nodes (limits idx) ->
  wp (register_commit src toks vs (vlen (live_slots kept)) (a_stored (live_slots kept))
        (a_stored (live_slots kept) + vlen toks) j (N.of_nat k) (a_next a + 1)) idx
    (fun idx' r => r = Ok tt /\ repr idx' (registered a src toks)).
Proof.
  intros Hk Hj Hmax Hroom. pose proof Hrep as [Hinv Hlim Hn HF Hc Hst].
  destruct (victims_occupied a src toks Hok) as (es & Hes & Htail). fold vs in Hes.
  pose proof (ao_limits _ Hok) as (_ & Hl1 & Hl2 & _).
  assert (Hin : take k toks ∈ trie (token_lists a)) by (apply (ti_paths _ _ _ _ Hinv); by exists j).
  unfold register_commit. wp_step.
  eapply wp_mono; [eapply (take_victims_wp vs idx T _ es HF Hes), victims_nodup|].
  intros idx1 ends [-> Hends]. wp_step. apply wp_modify. wp_step. apply wp_modify. wp_step.
  rewrite Nat2N.id. set (idx1 := put_stored_tokens _ _).
  eapply wp_mono; [apply (insert_tokens_wp _ idx1 T K (trie (token_lists a)) j (take k toks))|].
  - by eapply trie_inv_fields; [..|exact Hinv].
  - done.
  - intros t ts' Hd Hbad. apply (ti_paths _ _ _ _ Hinv) in Hbad as [c Hcc].
    assert (Ht : toks !! k = Some t) by (rewrite <- (Nat.add_0_r k), <- lookup_drop, Hd; done).
    assert (Hlt : (k < length toks)%nat) by by apply lookup_lt_Some in Ht.
    apply (Hmax Hlt c). by rewrite (take_S_r _ _ _ Ht).
  - cbn [idx1 node_count limits put_stored_tokens put_source_count put_sources].
    unfold vlen in *. rewrite length_drop. lia.
  - rewrite <- vlen_app, take_drop. unfold M1_MAX_CONTEXT_TOKENS, usize_max, u64_max in *. lia.
  - intros idx2 ep (T2 & K2 & P2 & Hinv2 & Hep & Hold & HP2 & _ & (F1 & F2 & _ & _ & F5)).
    rewrite take_drop in Hep. cbn [idx1 limits sources next_ticket put_stored_tokens put_source_count put_sources] in F1, F2, F5.
    rewrite (inserted_paths P2 toks k (token_lists a) Hk Hin HP2) in Hinv2.
    wp_step. apply wp_gets. unfold id.
    pose proof (vacate_rep T2 vs _ _ (source_rep_mono T T2 _ _ Hold HF)) as HF2. fold kept in HF2.
    destruct (place_spec (new_entry a src toks) kept (kept_room a src toks Hok Hsources)) as (i & Hi & Hplace & _).
    rewrite F2, (position_Forall2 _ _ (fun o => negb (is_some_and (fun _ => true) o)) _ _ HF2);
      [|by intros [s|] [e|]].
    rewrite Hi. apply position_Some in Hi as (x & Hx & _). apply vget_Some_lt in Hx as Hlt.
    wp_step. apply (wp_update_at _ _ None).
    { rewrite F2, vlen_vacate. rewrite <- (vlen_vacate vs) in Hlt.
      pose proof (Forall2_length _ _ _ HF2) as HlenF. unfold kept in Hlt.
      rewrite !vlen_vacate in Hlt. unfold vlen in *. pose proof (Forall2_length _ _ _ HF). lia. }
    wp_step. apply wp_add_usize; [lia|]. wp_step. apply wp_modify. wp_step. apply wp_modify.
    wp_step. apply wp_modify. wp_step. rewrite F2, F5, Hn.
    eapply wp_mono; [eapply (prune_registered_wp _ T2 K2 ends es)|].
    + by eapply trie_inv_fields; [..|exact Hinv2].
    + done.
    + done.
    + eapply Forall2_impl; [exact Hends|]. intros n e Hne. by apply Hold.
    + cbn [sources put_sources put_source_count put_stored_tokens put_next_ticket registered a_slots].
      change (vacate (victims_of src toks (a_slots a)) (a_slots a)) with kept. rewrite Hplace.
      apply Forall2_vset; [exact HF2|]. cbn. done.
    + cbn. by rewrite F1.
    + done.
    + done.
    + done.
    + intros idx' u Hr. by apply wp_ret.
Qed.
End commit.

(** ** Registration *)
Lemma kept_account a src toks (Hok : a_ok a) :
  let kept := vacate (victims_of src toks (a_slots a)) (a_slots a) in
  exists es, occupied (a_slots a) (victims_of src toks (a_slots a)) es /\
    vlen (entries a) = vlen (victims_of src toks (a_slots a)) + vlen (live_slots kept) /\
    a_stored (entries a) = a_stored es + a_stored (live_slots kept).
Proof.
  intros kept. destruct (victims_occupied a src toks Hok) as (es & Hes & _).
  pose proof (vacate_account _ _ _ (victims_nodup a src toks) Hes) as Hacc. exists es.
  split; [done|]. change (entries a) with (live_slots (a_slots a)).
  rewrite (vlen_perm _ _ Hacc), (a_stored_perm _ _ Hacc), vlen_app. split.
  - pose proof (Forall2_length _ _ _ Hes) as Hl. unfold vlen. rewrite Hl. done.
  - fold kept. clear. induction es as [|e es IH]; [done|]. cbn. 
    change (foldr _ 0 (es ++ live_slots kept)) with (a_stored (es ++ live_slots kept)).
    change (foldr _ 0 es) with (a_stored es). lia.
Qed.

(** The concrete searches find the abstract victims. *)
Lemma victims_found idx T K a src toks :
  rep idx T K a ->
  option_list (position (is_some_and (fun s => slot (request s) =? slot src)) (sources idx)) ++
  (if decide (position (is_some_and (fun s => source_tokens_equal idx s toks)) (sources idx) =
              position (is_some_and (fun s => slot (request s) =? slot src)) (sources idx)) then []
   else option_list (position (is_some_and (fun s => source_tokens_equal idx s toks)) (sources idx))) =
  victims_of src toks (a_slots a).
Proof.
  intros [Hinv _ _ HF _ _].
  assert (Hs : position (is_some_and (fun s => slot (request s) =? slot src)) (sources idx) = same_slot_of src (a_slots a)).
  { eapply position_Forall2; [exact HF|]. intros [s|] [e|]; try done. intros (E & _). cbn [is_some_and]. by rewrite E. }
  assert (Hd : position (is_some_and (fun s => source_tokens_equal idx s toks)) (sources idx) = duplicate_of toks (a_slots a)).
  { eapply position_Forall2; [exact HF|]. intros [s|] [e|]; try done. intros (_ & He & Hc & _). cbn [is_some_and].
    by apply (source_tokens_equal_spec _ T K (ti_shape _ _ _ _ Hinv)). }
  by rewrite Hs, Hd.
Qed.

Lemma register_authenticated_source_wp idx a src toks :
  repr idx a ->
  wp (register_authenticated_source (mkAuthority src toks)) idx (fun idx' r =>
    r = (a_register src toks a).2 /\ repr idx' (a_register src toks a).1 /\
    (forall e, r = Err e -> idx' = idx)).
Proof.
  intros Hr. pose proof Hr as (Hok & T & K & Hrep). pose proof Hrep as [Hinv Hlim Hn HF Hc Hst].
  assert (Hstay : forall e, (e : result unit M1RadixPrefixIndexErrorV1) = e /\ repr idx a /\ (forall e' : M1RadixPrefixIndexErrorV1, e = Err e' -> idx = idx)) by done.
  unfold register_authenticated_source, a_register. cbn [source tokens]. wp_step. apply wp_gets. unfold id.
  rewrite Hlim, Hn.
  destruct (N.eqb_spec (vlen toks) 0) as [|Hne]; [by apply wp_ret|].
  destruct (N.eqb_spec (generation src) 0) as [|Hgen]; [by apply wp_ret|].
  destruct (N.ltb_spec (limit_tokens_per_source (a_limits a)) (vlen toks)) as [|Hlen]; [by apply wp_ret|].
  unfold checked_add at 1. destruct (N.leb_spec u64_max (a_next a)) as [Hge|Hnext].
  { destruct (N.leb_spec (a_next a + 1) u64_max); [lia|]. by apply wp_ret. }
  rewrite (proj2 (N.leb_le _ _)) by lia. cbv zeta. rewrite (victims_found idx T K a src toks Hrep).
  destruct (kept_account a src toks Hok) as (es & Hes & Hcnt & Hsto).
  rewrite !(kept_vacate a src toks Hok). set (vs := victims_of src toks (a_slots a)) in *.
  set (kept := vacate vs (a_slots a)) in *. change (omap _ kept) with (live_slots kept).
  pose proof (victims_few a src toks) as Hfew. fold vs in Hfew.
  pose proof (ao_limits _ Hok) as (Hlim0 & Hlim1 & Hlim2 & Hlim3). pose proof (ao_stored _ Hok) as Hsto'.
  assert (Htoks : toks <> []) by (intros ->; done).
  wp_step. eapply wp_mono; [apply (count_victims_wp idx T _ vs es 0 0 HF Hes); unfold usize_max, u64_max in *; lia|].
  intros idx1 r [-> ->]. rewrite !N.add_0_l, Hc, Hcnt.
  unfold or_violation, checked_sub. rewrite (proj2 (N.leb_le _ _)) by lia. wp_step. apply wp_ret.
  replace (vlen vs + vlen (live_slots kept) - vlen vs) with (vlen (live_slots kept)) by lia.
  destruct (N.leb_spec (limit_sources (a_limits a)) (vlen (live_slots kept))) as [|Hsrcs]; [by apply wp_ret|].
  rewrite Hst, Hsto, (proj2 (N.leb_le _ _)) by lia. wp_step. apply wp_ret.
  replace (a_stored es + a_stored (live_slots kept) - a_stored es) with (a_stored (live_slots kept)) by lia.
  unfold checked_add. destruct (N.leb_spec (a_stored (live_slots kept) + vlen toks) usize_max) as [Hu|Hu]; cycle 1.
  { rewrite (proj2 (N.ltb_lt _ _)) by lia. rewrite N.min_r by lia. by apply wp_ret. }
  destruct (N.ltb_spec (limit_stored_tokens (a_limits a)) (a_stored (live_slots kept) + vlen toks)) as [|Hstored].
  { rewrite N.min_l by done. by apply wp_ret. }
  wp_step. eapply wp_mono; [apply (existing_prefix_wp idx T K (ti_shape _ _ _ _ Hinv))|].
  { unfold M1_MAX_CONTEXT_TOKENS, usize_max, u64_max in *. lia. }
  intros idx1 r (-> & j & k & -> & Hk & Hj & Hmax).
  pose proof (ti_bound _ _ _ _ Hinv) as Hb. rewrite Hlim in Hb.
  wp_step. apply wp_sub_w; [unfold vlen; lia|]. wp_step. apply wp_sub_w; [lia|].
  assert (Hmiss : missing toks (token_lists a) = vlen toks - N.of_nat k).
  { apply missing_depth; [done| |].
    - apply (ti_paths _ _ _ _ Hinv). by exists j.
    - intros Hlt [c Hcc]%(ti_paths _ _ _ _ Hinv). by apply (Hmax Hlt c). }
  assert (Hnc : node_count idx = a_nodes a) by apply (ti_count _ _ _ _ Hinv).
  rewrite Hmiss, Hnc. destruct (N.ltb_spec (limit_nodes (a_limits a) - a_nodes a) (vlen toks - N.of_nat k)) as [Hlt|Hge].
  { rewrite (proj2 (N.ltb_lt _ _)) by lia. by apply wp_ret. }
  destruct (N.ltb_spec (limit_nodes (a_limits a)) (a_nodes a + (vlen toks - N.of_nat k))); [lia|].
  eapply wp_mono; [apply (register_commit_wp idx T K a src toks Hrep Hok Htoks Hgen Hlen Hnext Hsrcs Hstored j k Hk Hj Hmax)|].
  - rewrite Hlim, Hnc. lia.
  - intros idx' r [-> Hr']. done.
Qed.
