(* ===== verification/RadixShare.v ===== *)
(** Sharing through the index and the engine: the loop drops the stale sources
    it meets, ends within one attempt per source, and shares the longest
    prefix a live source still serves. *)
From S2P Require Import Prelude Spec.
Import Spec.Completion Spec.Lifecycle.
From S2P Require Import KvPool KvInv KvPrim KvOps KvTheorems Ring Scheduler SchedSpec SchedInv SchedOps.
From S2P Require Import Engine EngineInv EngineOps.
From S2P Require Import Radix RadixSpec RadixInv RadixOps RadixRep RadixLookup.
Local Open Scope N_scope.
Local Open Scope prog_scope.

Lemma repr_lookup idx a toks page :
  repr idx a ->
  wp (longest_page_aligned_match toks page) idx (fun idx' r => idx' = idx /\ lookup_spec a toks page r).
Proof. intros (Hok & T & K & Hrep). by apply (longest_page_aligned_match_wp idx T K a Hrep Hok). Qed.

(** Invalidating an entry's request removes that entry. *)
Lemma a_invalidate_entry a en :
  a_ok a -> en ∈ entries a ->
  (a_invalidate (e_request en) a).2 = true /\ entries a ≡ₚ en :: entries (a_invalidate (e_request en) a).1.
Proof.
  intros Hok Hin. unfold a_invalidate. cbn [fst snd]. apply elem_of_live in Hin as Hi. destruct Hi as [i Hi].
  rewrite (a_remove_position (fun e => slot (e_request e))), existsb_position;
    [|apply Hok|by intros x y ->%bool_decide_eq_true ->%bool_decide_eq_true].
  assert (Hpos : position (is_some_and (fun e => bool_decide (e_request e = e_request en))) (a_slots a) = Some i).
  { destruct (position _ _) as [k|] eqn:Hk.
    - apply position_is_some_and in Hk as (x & Hx & Hxe%bool_decide_eq_true). f_equal.
      eapply (slot_unique (fun e => slot (e_request e))); [apply Hok|done..|by rewrite Hxe].
    - pose proof (position_None _ _ _ _ Hk Hi) as Hf. cbn in Hf. by apply bool_decide_eq_false in Hf. }
  rewrite Hpos. split; [done|]. exact (live_vacated _ _ _ Hi).
Qed.

Section share.
Context (C : N) (target : RequestId) (toks : list N).

(** A source the engine can still serve [k] tokens from. *)
Definition servable (e : Engine) (src : RequestId) (k : N) : Prop :=
  a_state C (abs C (scheduler e)) src = Some Ready /\
  k <= rs_committed_tokens (req_at (kv e) (slot src)) /\
  k <= rs_resident_tokens (req_at (kv e) (slot src)).

#[local] Instance servable_dec e src k : Decision (servable e src k).
Proof. unfold servable. apply _. Defined.

(** Reading the engine leaves the pair as it is. *)
Lemma wp_on_engine_read {A} (m : M Engine A) s (Q : Shared_state -> A -> Prop) :
  wp m (engine s) (fun e' x => e' = engine s /\ Q s x) -> wp (on_engine m) s Q.
Proof.
  intros H. apply wp_zoom. eapply wp_mono; [exact H|]. intros e' x [-> HQ]. by destruct s.
Qed.

Lemma wp_on_index {A} (m : M M1RadixPrefixIndexV1 A) s (Q : Shared_state -> A -> Prop) :
  wp m (index s) (fun i x => Q (mkShared i (engine s)) x) -> wp (on_index m) s Q.
Proof. intros H. apply wp_zoom. exact H. Qed.

Lemma source_has_range_wp s src k :
  engine_wf C (engine s) -> faulted (engine s) = false ->
  wp (source_has_range C src k) s (fun s' r =>
    s' = s /\ r = Ok (bool_decide (servable (engine s) src k))).
Proof.
  intros Hwf Hf. pose proof (ew_ok _ _ Hwf) as Hok. unfold source_has_range.
  wp_step. apply wp_on_engine_read. apply eng_state_wp; [done|]. split; [done|].
  wp_step. apply wp_on_engine_read. apply wp_gets. split; [done|].
  wp_step. apply wp_on_engine_read. apply wp_gets. split; [done|].
  set (st := a_state C (abs C (scheduler (engine s))) src).
  destruct (decide (st = Some Ready)) as [Hst|Hst]; cycle 1.
  { rewrite bool_decide_false by done. apply wp_ret. split; [done|]. f_equal. symmetry.
    apply bool_decide_eq_false. by intros [? _]. }
  rewrite bool_decide_true by done. cbn [andb].
  assert (Hlive : st <> None) by (by rewrite Hst).
  destruct (tokens_of C (abs C (scheduler (engine s))) (kv (engine s)) (engine_ok_inv C _ Hok) (eo_kv _ _ Hok) (eo_agree _ _ Hok) src Hlive) as [Hr Hc].
  unfold committed_tokens, resident_tokens. rewrite Hr, Hc. cbn [at_least].
  destruct (N.leb_spec k (rs_committed_tokens (req_at (kv (engine s)) (slot src)))) as [H1|H1]; cbn [andb]; cycle 1.
  { apply wp_ret. split; [done|]. f_equal. symmetry. apply bool_decide_eq_false. intros (_ & ? & _). lia. }
  destruct (N.leb_spec k (rs_resident_tokens (req_at (kv (engine s)) (slot src)))) as [H2|H2]; cycle 1.
  { apply wp_ret. split; [done|]. f_equal. symmetry. apply bool_decide_eq_false. intros (_ & _ & ?). lia. }
  wp_step. apply wp_on_engine_read. eapply wp_mono; [by apply (eng_read_wp C)|]. intros e' r [-> ->]. split; [done|].
  rewrite Hf. unfold read_decision.
  apply (live_decision_state C _ _ (engine_ok_inv C _ Hok) (eo_agree _ _ Hok)) in Hlive. rewrite Hlive.
  cbn [request_key rk_slot]. destruct (N.ltb_spec (rs_resident_tokens (req_at (kv (engine s)) (slot src))) (0 + k)); [lia|].
  apply wp_ret. split; [done|]. f_equal. symmetry. by apply bool_decide_eq_true.
Qed.

(** Only sources that matched and could not be served are gone. *)
Definition stale_removed (e : Engine) (a a' : AIndex) : Prop :=
  (forall en, en ∈ entries a' -> en ∈ entries a) /\
  forall en, en ∈ entries a -> en ∈ entries a' \/
    exists k, page_match a toks (page_tokens e) k en /\ ~ servable e (e_request en) k.

Lemma stale_removed_refl e a : stale_removed e a a.
Proof. split; [done|]. by left. Qed.

Lemma stale_removed_trans e a b c : stale_removed e a b -> stale_removed e b c -> stale_removed e a c.
Proof.
  intros [H1 H2] [H3 H4]. split; [auto|]. intros en Hen. destruct (H2 en Hen) as [Hb|]; [|by right].
  destruct (H4 en Hb) as [|(k & (Hm1 & Hm2) & Hs)]; [by left|right]. exists k. done.
Qed.

Definition share_post (e : Engine) (a : AIndex) (n : N) (s' : Shared_state)
    (r : result M1RadixPrefixShareOutcomeV1 M1RadixPrefixShareErrorV1) : Prop :=
  exists a', repr (index s') a' /\ stale_removed e a a' /\ engine_wf C (engine s') /\
  let page := page_tokens e in
  let dropped := n + (vlen (entries a) - vlen (entries a')) in
  match r with
  | Ok (NoMatch d) => engine s' = e /\ d = dropped /\ lookup_spec a' toks page None
  | Ok (Shared src tgt k d) => tgt = target /\ d = dropped /\ lookup_spec a' toks page (Some (mkMatch src k)) /\
      servable e src k /\ faulted (engine s') = false /\ scheduler (engine s') = scheduler e /\
      shared (kv e) (kv (engine s')) (slot src) (slot target) (k / page)
  | Err (SourceEqualsTarget src) => src = target /\ engine s' = e /\
      exists k, lookup_spec a' toks page (Some (mkMatch target k))
  | Err _ => False
  end.

Lemma match_bound a page k en : a_ok a -> page_match a toks page k en -> k <= u32_max.
Proof.
  intros Hok (Hin & Hk & _ & Hp). apply prefix_length in Hp.
  destruct (ao_entry _ Hok en Hin) as (_ & Hlen & _). destruct (ao_limits _ Hok) as (_ & Hl & _).
  rewrite length_take in Hp. unfold vlen, u32_max, M1_MAX_CONTEXT_TOKENS in *. lia.
Qed.

(** The engine serves what the checks established. *)
Lemma share_served_wp s src k :
  engine_wf C (engine s) -> faulted (engine s) = false -> servable (engine s) src k -> src <> target ->
  a_state C (abs C (scheduler (engine s))) target = Some Ready ->
  rs_resident_tokens (req_at (kv (engine s)) (slot target)) = 0 ->
  0 < k <= u32_max -> k mod page_tokens (engine s) = 0 ->
  wp (on_engine (share_committed_prefix C src target k)) s (fun s' r =>
    r = Ok tt /\ index s' = index s /\ engine_wf C (engine s') /\ faulted (engine s') = false /\
    scheduler (engine s') = scheduler (engine s) /\
    shared (kv (engine s)) (kv (engine s')) (slot src) (slot target) (k / page_tokens (engine s))).
Proof.
  intros Hwf Hf (Hst & Hcom & Hres) Hne Htgt Hempty Hk Hmod. pose proof (ew_ok _ _ Hwf) as Hok.
  apply wp_zoom. eapply wp_mono; [apply eng_share_wp; [done|apply Hk]|]. intros e' r [Hwf' H].
  rewrite Hf, decide_True in H by done. destruct H as (Hf' & Hs' & H).
  pose proof (live_decision_state C _ _ (engine_ok_inv C _ Hok) (eo_agree _ _ Hok)) as Hlive.
  assert (Hd : share_decision (kv (engine s)) (request_key src) (request_key target) k = None).
  { unfold share_decision. rewrite (proj2 (Hlive src)), (proj2 (Hlive target)) by congruence.
    cbn [request_key rk_slot]. destruct (N.eqb_spec (slot src) (slot target)) as [Hsl|Hsl].
    - exfalso. apply Hne. unfold a_state in Hst, Htgt. rewrite <- Hsl in Htgt.
      destruct (C <=? slot src); [done|].
      destruct (N.eqb_spec (sl_generation (a_slot (abs C (scheduler (engine s))) (slot src))) (generation src)) as [G1|]; [|done].
      destruct (N.eqb_spec (sl_generation (a_slot (abs C (scheduler (engine s))) (slot src))) (generation target)) as [G2|]; [|done].
      destruct src, target; cbn in *; congruence.
    - unfold page_tokens in Hmod. rewrite Hmod. destruct (N.eqb_spec k 0); [lia|]. cbn [orb negb].
      destruct (N.ltb_spec (rs_committed_tokens (req_at (kv (engine s)) (slot src))) k); [lia|].
      rewrite Hempty. done. }
  rewrite Hd in H. destruct H as [-> H]. done.
Qed.

#[local] Ltac share_post_split := split; [done|]; split; [|split; [done|]; cbn zeta; cbn iota].

Lemma radix_share_loop_wp attempts : forall s a n,
  repr (index s) a -> engine_wf C (engine s) -> faulted (engine s) = false ->
  a_state C (abs C (scheduler (engine s))) target = Some Ready ->
  rs_resident_tokens (req_at (kv (engine s)) (slot target)) = 0 ->
  vlen (entries a) <= N.of_nat attempts -> n + vlen (entries a) <= usize_max ->
  wp (share_loop C attempts target toks (page_tokens (engine s)) n) s (share_post (engine s) a n).
Proof.
  induction attempts as [|attempts IH]; intros s a n Hrep Hwf Hf Htgt Hempty Hatt Hn; cbn [share_loop].
  { apply wp_ret. exists a. share_post_split; [apply stale_removed_refl|].
    split_and!; [done|lia|]. right. intros k e (Hin & _). destruct (entries a) as [|x l]; [by apply elem_of_nil in Hin|].
    rewrite vlen_cons in Hatt. lia. }
  pose proof (proj1 Hrep) as Hok.
  wp_step. apply wp_on_index. eapply wp_mono; [by apply repr_lookup|]. intros idx' [m|] [-> Hl].
  2: { apply wp_ret. destruct s as [idx e]. exists a. cbn [index engine] in *.
       share_post_split; [apply stale_removed_refl|]. split_and!; [done|lia|done]. }
  replace (mkShared (index s) (engine s)) with s by by destruct s. destruct m as [src k]. cbn [match_source match_token_count].
  case_decide as Hst.
  { apply wp_ret. exists a. share_post_split; [apply stale_removed_refl|].
    split_and!; [done|done|]. exists k. by rewrite <- Hst. }
  pose proof Hl as (Hpage & en & Hm & Hreq & _). cbn [match_source match_token_count] in Hm, Hreq.
  wp_step. eapply wp_mono; [by apply source_has_range_wp|]. intros s1 r [-> ->]. cbv beta iota.
  destruct (bool_decide_reflect (servable (engine s) src k)) as [Hserv|Hserv]; cbn [negb].
  - wp_step. pose proof (match_bound a _ k en Hok Hm) as Hb. pose proof Hm as (_ & Hk & Hmod & _).
    eapply wp_mono; [apply (share_served_wp s src k); done || (split; [lia|done])|].
    intros s' r (-> & Hidx & Hwf' & Hf' & Hs' & Hsh). apply wp_ret. exists a. rewrite Hidx.
    share_post_split; [apply stale_removed_refl|].
    split; [done|]. split; [lia|]. split; [exact Hl|]. done.
  - wp_step. apply wp_on_index. eapply wp_mono; [by apply invalidate_source_wp|]. intros idx1 r [-> Hrep1].
    destruct (a_invalidate_entry a en Hok) as [Htrue Hperm]; [apply Hm|]. rewrite Hreq in Htrue, Hperm. rewrite Htrue.
    pose proof (vlen_perm _ _ Hperm) as Hlen. rewrite vlen_cons in Hlen.
    unfold checked_add. rewrite (proj2 (N.leb_le _ _)) by lia.
    eapply wp_mono; [apply (IH (mkShared idx1 (engine s)) (a_invalidate src a).1 (n + 1)); cbn [index engine]; try done; lia|].
    cbn [engine]. intros s' r (a' & Hrep' & Hstale & Hwf' & Hpost). exists a'.
    assert (Hstep : stale_removed (engine s) a (a_invalidate src a).1).
    { split.
      - intros x Hx. rewrite Hperm. by right.
      - intros x Hx. rewrite Hperm in Hx. apply elem_of_cons in Hx as [->|Hx]; [right|by left].
        exists k. split; [done|]. by rewrite Hreq. }
    share_post_split; [by eapply stale_removed_trans|]. cbn zeta in Hpost.
    assert (Hmono : vlen (entries a') <= vlen (entries (a_invalidate src a).1)).
    { destruct Hrep' as (Hok' & _). destruct Hstale as [Hsub _].
      assert (Hnd : NoDup (entries a')) by (eapply NoDup_fmap_1, (ao_tickets _ Hok')).
      unfold vlen. pose proof (submseteq_length _ _ (NoDup_submseteq _ _ Hnd Hsub)). lia. }
    assert (Hd : n + 1 + (vlen (entries (a_invalidate src a).1) - vlen (entries a')) =
                 n + (vlen (entries a) - vlen (entries a'))) by lia.
    rewrite Hd in Hpost. exact Hpost.
Qed.
End share.
