(* ===== verification/RadixTheorems.v ===== *)
(** The prefix index's theorems: every run refines the specification without
    a panic, registration is all or nothing and is found again by lookup, and
    sharing takes the longest prefix that a live source still serves. *)
From S2P Require Import Prelude Spec.
Import Spec.Completion Spec.Lifecycle.
From S2P Require Import KvPool KvInv KvOps KvTheorems Ring Scheduler SchedSpec SchedInv SchedOps.
From S2P Require Import Engine EngineInv EngineOps EngineTheorems Bytes.
From S2P Require Import Radix RadixSpec RadixInv RadixOps RadixRep RadixLookup RadixRegister RadixCommit RadixShare.
From stdpp Require Import gmap.
Local Open Scope N_scope.
Local Open Scope prog_scope.

(** ** The empty index *)
Lemma limits_new_ok n t s st l :
  limits_new n t s st = Ok l ->
  l = mkLimits n t s st /\ 2 <= n /\ 0 < t <= M1_MAX_CONTEXT_TOKENS /\ 0 < s /\ 0 < st.
Proof.
  unfold limits_new. destruct (list_find _ _) as [[i [kind v]]|] eqn:E; [done|].
  apply list_find_None in E. rewrite !Forall_cons in E. destruct E as (_ & Ht & Hs & Hst & _). cbn in Ht, Hs, Hst.
  destruct (N.ltb_spec n 2); [done|]. destruct (N.ltb_spec M1_MAX_CONTEXT_TOKENS t); [done|].
  destruct (N.ltb_spec usize_max (t * s)); [done|]. intros [= <-]. split_and!; try done; lia.
Qed.

Lemma entries_new l : entries (a_new l) = [].
Proof. unfold entries, a_new, vfill. cbn [a_slots]. induction (N.to_nat _) as [|k IH]; [done|exact IH]. Qed.

Lemma root_in (l : M1RadixPrefixLimitsV1) i :
  2 <= limit_nodes l -> node_in (nodes (new l)) i = if decide (i = 0) then Some ROOT else None.
Proof.
  intros Hl. unfold new. cbn [nodes]. rewrite node_in_vset by (rewrite vlen_vfill; unfold ROOT_NODE; lia).
  unfold ROOT_NODE. case_decide; [done|]. unfold node_in.
  destruct (N.lt_ge_cases i (limit_nodes l)) as [Hi|Hi]; [by rewrite vget_vfill|].
  unfold vget, vfill. rewrite lookup_ge_None_2; [done|]. rewrite length_replicate. lia.
Qed.

Lemma new_shape l : 2 <= limit_nodes l -> RadixInv.shape (nodes (new l)) {[0 := []]} (fun _ => []).
Proof.
  intros Hl. pose proof (fun i => root_in l i Hl) as Hin. split.
  - intros i. rewrite Hin, lookup_singleton. case_decide as E; [subst|]; by repeat case_decide.
  - by rewrite lookup_singleton_eq.
  - intros i p [<- <-]%lookup_singleton_Some. done.
  - intros i n p Hn [<- <-]%lookup_singleton_Some. rewrite Hin in Hn. by injection Hn as <-.
  - intros i j p [<- _]%lookup_singleton_Some [<- _]%lookup_singleton_Some. done.
  - intros i n Hn. rewrite Hin in Hn. case_decide; [|done]. injection Hn as <-. subst i.
    split_and!; [constructor|done|]. intros j. split; [by intros ?%elem_of_nil|].
    intros (Hj & m & Hm & _). rewrite Hin in Hm. by rewrite decide_False in Hm.
Qed.

Lemma new_repr n t s st l :
  limits_new n t s st = Ok l -> n <= usize_max -> s <= usize_max -> st <= usize_max -> repr (new l) (a_new l).
Proof.
  intros (-> & Hn & Ht & Hs & Hst)%limits_new_ok Hn' Hs' Hst'.
  set (l := mkLimits n t s st).
  assert (Htrie : trie (token_lists (a_new l)) = {[ [] ]}).
  { unfold token_lists. rewrite entries_new. apply set_eq. intros p. rewrite elem_of_trie, elem_of_singleton.
    split; [|by left]. intros [|(x & Hx & _)]; [done|]. by apply elem_of_nil in Hx. }
  assert (Hnodes : a_nodes (a_new l) = 1) by (unfold a_nodes; by rewrite Htrie, size_singleton).
  split.
  - split; rewrite ?entries_new, ?Hnodes; cbn [a_new a_limits a_slots a_next limit_nodes limit_tokens_per_source limit_sources limit_stored_tokens l];
      try by constructor.
    + split_and!; done || lia.
    + apply vlen_vfill.
    + intros e ?%elem_of_nil. done.
    + cbn. lia.
    + lia.
  - exists {[0 := []]}, (fun _ => []). split; cbn [new limits sources source_count stored_tokens next_ticket a_new a_limits a_slots a_next l];
      rewrite ?entries_new; try done.
    + rewrite Htrie. split.
      * by apply new_shape.
      * intros p. rewrite elem_of_singleton. setoid_rewrite lookup_singleton_Some. naive_solver.
      * by rewrite size_singleton.
      * unfold new. cbn [nodes]. by rewrite vlen_vset, vlen_vfill.
      * cbn. lia.
    + unfold vfill. induction (N.to_nat _); by constructor.
Qed.

(** ** Operations as data *)
Inductive ROp :=
| RRegister (source : RequestId) (tokens : list N)
| RInvalidate (source : RequestId)
| REvict
| RLookup (tokens : list N) (page : N).

Inductive RResult :=
| YRegister (r : result unit M1RadixPrefixIndexErrorV1)
| YInvalidate (r : result bool M1RadixPrefixIndexErrorV1)
| YEvict (r : result (option RequestId) M1RadixPrefixIndexErrorV1)
| YLookup (r : option M1RadixPrefixMatchV1).

Definition run_rop (op : ROp) : M M1RadixPrefixIndexV1 RResult :=
  match op with
  | RRegister src toks => let! r := register_authenticated_source (mkAuthority src toks) in ret (YRegister r)
  | RInvalidate src => let! r := invalidate_source src in ret (YInvalidate r)
  | REvict => let! r := evict_oldest in ret (YEvict r)
  | RLookup toks page => let! r := longest_page_aligned_match toks page in ret (YLookup r)
  end.

Fixpoint run_rops (ops : list ROp) : M M1RadixPrefixIndexV1 (list RResult) :=
  match ops with
  | [] => ret []
  | op :: ops' => let! r := run_rop op in let! rs := run_rops ops' in ret (r :: rs)
  end.

(** The specification's step. *)
Definition a_step (op : ROp) (a : AIndex) (r : RResult) (a' : AIndex) : Prop :=
  match op, r with
  | RRegister src toks, YRegister r => (a', r) = a_register src toks a
  | RInvalidate src, YInvalidate r => exists b, r = Ok b /\ (a', b) = a_invalidate src a
  | REvict, YEvict r => exists o, r = Ok o /\ (a', o) = a_evict a
  | RLookup toks page, YLookup r => a' = a /\ lookup_spec a toks page r
  | _, _ => False
  end.

Inductive a_run : list ROp -> AIndex -> list RResult -> AIndex -> Prop :=
| a_run_nil a : a_run [] a [] a
| a_run_cons op ops a r a1 rs a2 : a_step op a r a1 -> a_run ops a1 rs a2 -> a_run (op :: ops) a (r :: rs) a2.

Lemma run_rop_wp op idx a :
  repr idx a -> wp (run_rop op) idx (fun idx' r => exists a', a_step op a r a' /\ repr idx' a').
Proof.
  intros Hr. destruct op as [src toks|src| |toks page]; cbn [run_rop]; wp_step.
  - eapply wp_mono; [by apply register_authenticated_source_wp|]. intros idx' r (-> & Hr' & _). apply wp_ret.
    eexists. split; [|exact Hr']. cbn [a_step]. by destruct (a_register src toks a).
  - eapply wp_mono; [by apply invalidate_source_wp|]. intros idx' r [-> Hr']. apply wp_ret.
    eexists. split; [|exact Hr']. eexists. split; [done|]. by destruct (a_invalidate src a).
  - eapply wp_mono; [by apply evict_oldest_wp|]. intros idx' r [-> Hr']. apply wp_ret.
    eexists. split; [|exact Hr']. eexists. split; [done|]. by destruct (a_evict a).
  - eapply wp_mono; [by apply repr_lookup|]. intros idx' r [-> Hr']. apply wp_ret. by exists a.
Qed.

Lemma run_rops_wp ops : forall idx a,
  repr idx a -> wp (run_rops ops) idx (fun idx' rs => exists a', a_run ops a rs a' /\ repr idx' a').
Proof.
  induction ops as [|op ops IH]; intros idx a Hr; cbn [run_rops].
  { apply wp_ret. exists a. split; [constructor|done]. }
  wp_step. eapply wp_mono; [by apply run_rop_wp|]. intros idx1 r (a1 & Hs & Hr1).
  wp_step. eapply wp_mono; [by apply IH|]. intros idx2 rs (a2 & Hrun & Hr2). apply wp_ret.
  exists a2. split; [by econstructor|done].
Qed.

(** C19: from a fresh index every sequence of registrations, invalidations,
    evictions and lookups runs to its end without a panic, every walk of the
    trie terminates, and each answer, error or final state is the
    specification's: the trie holds exactly the prefixes of the registered
    token lists, so the internal [InvariantViolation] is never returned. *)
Theorem radix_refines_index n t s st l ops :
  limits_new n t s st = Ok l -> n <= usize_max -> s <= usize_max -> st <= usize_max ->
  wp (run_rops ops) (new l) (fun idx' rs =>
    exists a', a_run ops (a_new l) rs a' /\ repr idx' a' /\ a_ok a' /\
      node_count idx' = N.of_nat (size (trie (token_lists a')))).
Proof.
  intros Hl Hn Hs Hst. eapply wp_mono; [apply run_rops_wp; by eapply new_repr|].
  intros idx' rs (a' & Hrun & Hr). exists a'. split_all.
  pose proof Hr as (Hok & T & K & Hrep). split; [done|]. split; [done|]. split; [done|].
  exact (ti_count _ _ _ _ (rp_trie _ _ _ _ Hrep)).
Qed.

Definition demo_index_ops : list ROp :=
  [RRegister (mkRequestId 0 1) [1; 2; 3; 4]; RRegister (mkRequestId 1 1) [1; 2; 5];
   RLookup [1; 2; 3; 4; 9] 2; REvict; RLookup [1; 2; 3; 4; 9] 2; RInvalidate (mkRequestId 0 1)].

Lemma radix_refines_index_witness :
  limits_new 8 4 2 8 = Ok (mkLimits 8 4 2 8) /\
  exists idx', run_rops demo_index_ops (new (mkLimits 8 4 2 8)) = Done idx'
    [YRegister (Ok tt); YRegister (Ok tt); YLookup (Some (mkMatch (mkRequestId 0 1) 4));
     YEvict (Ok (Some (mkRequestId 0 1))); YLookup (Some (mkMatch (mkRequestId 1 1) 2));
     YInvalidate (Ok false)] /\ node_count idx' = 4 /\ exists a', repr idx' a'.
Proof.
  split; [reflexivity|].
  pose proof (radix_refines_index 8 4 2 8 (mkLimits 8 4 2 8) demo_index_ops eq_refl
    ltac:(by_decide) ltac:(by_decide) ltac:(by_decide)) as H.
  apply wp_done in H as (idx' & rs & Hrun & a' & _ & Hr & _).
  vm_compute in Hrun. injection Hrun as <- <-. eexists. split; [vm_compute; reflexivity|].
  split; [reflexivity|]. by exists a'.
Defined.

(** ** Registration *)

(** The specification's step never fails internally and places the entry. *)
Lemma a_register_ok src toks a a' :
  a_ok a -> a_register src toks a = (a', Ok tt) -> exists e, e ∈ entries a' /\ e_request e = src /\ e_tokens e = toks.
Proof.
  intros Hok. unfold a_register. destruct (vlen toks =? 0); [done|]. destruct (generation src =? 0); [done|].
  destruct (_ <? vlen toks); [done|]. destruct (u64_max <=? a_next a); [done|].
  rewrite (kept_vacate a src toks Hok). set (kept := vacate _ _).
  destruct (N.leb_spec (limit_sources (a_limits a)) (vlen (omap id kept))) as [|Hs]; [done|].
  destruct (_ <? _); [done|]. destruct (_ <? _); [done|]. intros [= <-].
  exists (mkEntry src toks (a_next a)). split; [|done]. unfold entries. cbn [a_slots].
  destruct (place_spec (mkEntry src toks (a_next a)) kept) as (i & _ & _ & Hperm).
  { unfold kept at 2. rewrite vlen_vacate, (ao_len _ Hok). exact Hs. }
  change (omap id (place ?e kept)) with (live_slots (place e kept)). rewrite Hperm. by left.
Qed.

Definition internal_index_error (e : M1RadixPrefixIndexErrorV1) : bool :=
  match e with InvariantViolation | Allocation => true | _ => false end.

Lemma a_register_external src toks a e :
  (a_register src toks a).2 = Err e -> internal_index_error e = false.
Proof.
  unfold a_register. cbv zeta.
  repeat lazymatch goal with |- (if ?b then _ else _).2 = _ -> _ => destruct b; [cbn; by intros [= <-]|] end. done.
Qed.

(** The longest match of the registered tokens themselves. *)
Lemma lookup_registered a toks page e r :
  e ∈ entries a -> e_tokens e = toks -> 0 < page <= vlen toks -> lookup_spec a toks page r ->
  exists m, r = Some m /\ match_token_count m = vlen toks / page * page /\
    (vlen toks / page * page = vlen toks -> request_leb (match_source m) (e_request e) = true).
Proof.
  intros Hin Ht Hpage. set (k := vlen toks / page * page).
  assert (Hk : 0 < k <= vlen toks /\ k mod page = 0 /\ forall j, j <= vlen toks -> j mod page = 0 -> j <= k).
  { unfold k.
    pose proof (N.div_le_lower_bound (vlen toks) page 1 ltac:(lia) ltac:(lia)) as H1.
    split_and!; [|rewrite N.mul_comm; apply N.Div0.mul_div_le|by apply N.Div0.mod_mul|].
    - apply N.mul_pos_pos; [|lia]. eapply N.lt_le_trans; [|exact H1]. done.
    - intros j Hj Hm. pose proof (N.div_mod j page ltac:(lia)) as Hdj. rewrite Hm, N.add_0_r in Hdj.
      rewrite Hdj, (N.mul_comm page). apply N.mul_le_mono_r. by apply N.Div0.div_le_mono. }
  destruct Hk as (Hk & Hmod & Hmax).
  assert (Hm : page_match a toks page k e).
  { split_and!; try done; try lia. rewrite Ht. apply prefix_take. }
  destruct r as [m|]; cbn [lookup_spec].
  - intros (_ & e' & (_ & Hk' & Hmod' & _) & _ & Hall). exists m. split; [done|].
    destruct (Hall k e Hm) as [Hle Hreq].
    assert (Heq : match_token_count m = k) by (specialize (Hmax _ (proj2 Hk') Hmod'); lia).
    split; [done|]. intros _. by apply Hreq.
  - intros [->|Hno]; [lia|]. by apply Hno in Hm.
Qed.

(** C21: registering a source is all or nothing.  A refusal is one of the
    specification's, never an internal one, and leaves the index exactly as it
    was; after an acceptance a lookup of the same tokens, for every page size
    that fits in them, finds every whole page of them, on the registered
    source or on one of a smaller identity. *)
Theorem radix_register_atomic idx a src toks :
  repr idx a ->
  wp (register_authenticated_source (mkAuthority src toks)) idx (fun idx' r =>
    r = (a_register src toks a).2 /\ repr idx' (a_register src toks a).1 /\
    match r with
    | Err e => idx' = idx /\ internal_index_error e = false
    | Ok _ => forall page, 0 < page <= vlen toks ->
        wp (longest_page_aligned_match toks page) idx' (fun _ r =>
          exists m, r = Some m /\ match_token_count m = vlen toks / page * page /\
            (vlen toks / page * page = vlen toks -> request_leb (match_source m) src = true))
    end).
Proof.
  intros Hr. eapply wp_mono; [by apply register_authenticated_source_wp|].
  intros idx' r (Hres & Hr' & Hsame). split; [done|]. split; [done|]. destruct r as [[]|e].
  - intros page Hpage. destruct (a_register src toks a) as [a' r] eqn:E. cbn [fst snd] in *. subst r.
    destruct (a_register_ok src toks a a' (proj1 Hr) E) as (e & Hin & Hsrc & Ht).
    eapply wp_mono; [by apply repr_lookup|]. intros idx2 m [-> Hl].
    destruct (lookup_registered a' toks page e m Hin Ht Hpage Hl) as (m' & H). rewrite <- Hsrc. by exists m'.
  - split; [by apply (Hsame e)|]. by eapply a_register_external.
Qed.

Definition demo_index : M1RadixPrefixIndexV1 :=
  match run_rops [RRegister (mkRequestId 0 1) [1; 2; 3; 4]] (new (mkLimits 6 4 2 8)) with
  | Done idx _ => idx
  | Panic => new (mkLimits 6 4 2 8)
  end.
Definition demo_aindex : AIndex := (a_register (mkRequestId 0 1) [1; 2; 3; 4] (a_new (mkLimits 6 4 2 8))).1.

Lemma demo_index_repr : repr demo_index demo_aindex.
Proof.
  pose proof (run_rops_wp [RRegister (mkRequestId 0 1) [1; 2; 3; 4]] _ _
    (new_repr 6 4 2 8 (mkLimits 6 4 2 8) eq_refl ltac:(by_decide) ltac:(by_decide) ltac:(by_decide))) as H.
  apply wp_done in H as (idx' & rs & Hrun & a' & Ha & Hr). unfold demo_index. rewrite Hrun.
  inversion Ha as [|? ? ? r a1 ? ? Hs Hnil]; subst. inversion Hnil; subst. destruct r; try done.
  cbn [a_step] in Hs. unfold demo_aindex. rewrite <- Hs. exact Hr.
Qed.

Lemma radix_register_atomic_witness :
  repr demo_index demo_aindex /\
  register_authenticated_source (mkAuthority (mkRequestId 1 1) [5; 6]) demo_index =
    Done demo_index (Err (NodeCapacity 6 7)) /\
  exists idx', register_authenticated_source (mkAuthority (mkRequestId 1 1) [1; 2; 5]) demo_index = Done idx' (Ok tt) /\
    wp (longest_page_aligned_match [1; 2; 5] 2) idx' (fun _ r =>
      exists m, r = Some m /\ match_token_count m = 2).
Proof.
  split; [exact demo_index_repr|]. split.
  - pose proof (radix_register_atomic demo_index demo_aindex (mkRequestId 1 1) [5; 6] demo_index_repr) as H.
    apply wp_done in H as (idx' & r & Hrun & Hr & _ & H). 
    assert (Hd : (a_register (mkRequestId 1 1) [5; 6] demo_aindex).2 = Err (NodeCapacity 6 7)) by (vm_compute; reflexivity).
    rewrite Hd in Hr. subst r. destruct H as [-> _]. exact Hrun.
  - pose proof (radix_register_atomic demo_index demo_aindex (mkRequestId 1 1) [1; 2; 5] demo_index_repr) as H.
    apply wp_done in H as (idx' & r & Hrun & Hr & _ & H).
    assert (Hd : (a_register (mkRequestId 1 1) [1; 2; 5] demo_aindex).2 = Ok tt) by (vm_compute; reflexivity).
    rewrite Hd in Hr. subst r. exists idx'. split; [exact Hrun|].
    eapply wp_mono; [apply (H 2); by_decide|]. intros i m (m' & -> & Hc & _). exists m'. split; [reflexivity|exact Hc].
Defined.

(** ** Sharing *)

Lemma live_slots_le {A} (l : list (option A)) : vlen (live_slots l) <= vlen l.
Proof.
  induction l as [|[x|] l IH]; [done|change (live_slots (Some x :: l)) with (x :: live_slots l)|
    change (live_slots (None :: l)) with (live_slots l)]; rewrite ?vlen_cons; lia.
Qed.

(** The decisions before the first attempt. *)
Definition share_refusal (C : N) (e : Engine) (target : RequestId) : option M1RadixPrefixShareErrorV1 :=
  let st := a_state C (abs C (scheduler e)) target in
  if faulted e then Some (ShareEngine EngineError.Faulted)
  else if negb (bool_decide (st = Some Ready)) then Some (TargetNotReady target st)
  else if negb (bool_decide (resident_tokens e target = Some 0)) || negb (bool_decide (committed_tokens e target = Some 0))
  then Some (TargetNotEmpty target (resident_tokens e target) (committed_tokens e target))
  else None.

(** C20: sharing decides exactly: a refusal of the target changes nothing;
    otherwise the loop ends, every index entry it dropped had matched a length
    its request could no longer serve, and it either shared the longest
    page-aligned prefix that remains, served by a live ready source with that
    many committed and resident tokens, page by page into the empty target; or
    found the target itself to be that source; or reports no match, when the
    index that remains has none.  No engine or index error is possible after
    the checks. *)
Theorem radix_share_exact C idx e a target toks :
  repr idx a -> engine_wf C e ->
  wp (share_m1_radix_prefix_from_live_source_v1 C target toks) (mkShared idx e) (fun s' r =>
    match share_refusal C e target with
    | Some x => r = Err x /\ s' = mkShared idx e
    | None => share_post C target toks e a 0 s' r
    end).
Proof.
  intros Hr Hwf. pose proof (ew_ok _ _ Hwf) as Hok. unfold share_m1_radix_prefix_from_live_source_v1, share_refusal.
  wp_step. apply wp_on_engine_read. apply wp_gets. split; [done|]. cbn [engine]. unfold is_faulted.
  destruct (faulted e) eqn:Hf; [by apply wp_ret|].
  wp_step. apply wp_on_engine_read. apply wp_gets. split; [done|]. cbn [engine].
  wp_step. apply wp_on_engine_read. apply eng_state_wp; [done|]. split; [done|]. cbn [engine].
  destruct (bool_decide_reflect (a_state C (abs C (scheduler e)) target = Some Ready)) as [Hst|Hst]; cbn [negb];
    [|by apply wp_ret].
  wp_step. apply wp_on_engine_read. apply wp_gets. split; [done|]. cbn [engine].
  wp_step. apply wp_on_engine_read. apply wp_gets. split; [done|]. cbn [engine].
  destruct (negb (bool_decide (resident_tokens e target = Some 0)) || _) eqn:Hempty; [by apply wp_ret|].
  apply orb_false_iff in Hempty as [Hres _]. apply negb_false_iff, bool_decide_eq_true in Hres.
  destruct (tokens_of C _ _ (engine_ok_inv C _ Hok) (eo_kv _ _ Hok) (eo_agree _ _ Hok) target) as [Hr0 _]; [congruence|].
  unfold resident_tokens in Hres. rewrite Hr0 in Hres. injection Hres as Hres.
  wp_step. apply wp_on_index. apply wp_gets. cbn [index engine].
  pose proof Hr as (Haok & T & K & Hrep). pose proof (rp_count _ _ _ _ Hrep) as Hcount.
  assert (Hlim : vlen (entries a) <= usize_max).
  { pose proof (ti_bound _ _ _ _ (rp_trie _ _ _ _ Hrep)) as _. destruct (ao_limits _ Haok) as (_ & _ & Hl & _).
    pose proof (ao_len _ Haok) as Hlen. pose proof (live_slots_le (a_slots a)) as Hle.
    change (live_slots (a_slots a)) with (entries a) in Hle. lia. }
  apply (radix_share_loop_wp C target toks (N.to_nat (source_count idx)) (mkShared idx e) a 0); cbn [index engine]; try done; lia.
Qed.

Definition demo_share_engine : Engine :=
  demo_engine 2 8 2 16 [EAdmit; EAppend r0 4; EDispatch [mkRequestId 0 0];
    EComplete (mkExactCompletion (mkEpoch 1)) [4]; EAdmit].
Definition demo_stale : RequestId := mkRequestId 7 1.
Definition demo_share_ops : list ROp := [RRegister r0 [1; 2; 3; 4]; RRegister demo_stale [1; 2; 3; 4; 5; 6]].
Definition demo_share_index : M1RadixPrefixIndexV1 :=
  match run_rops demo_share_ops (new (mkLimits 16 8 4 32)) with
  | Done idx _ => idx
  | Panic => new (mkLimits 16 8 4 32)
  end.

Lemma demo_share_repr : exists a, repr demo_share_index a.
Proof.
  pose proof (run_rops_wp demo_share_ops _ _
    (new_repr 16 8 4 32 (mkLimits 16 8 4 32) eq_refl ltac:(by_decide) ltac:(by_decide) ltac:(by_decide))) as H.
  apply wp_done in H as (idx' & rs & Hrun & a' & _ & Hr). exists a'. unfold demo_share_index. by rewrite Hrun.
Qed.

(** The stale source of the longer match is dropped and the live one serves. *)
Lemma radix_share_exact_witness :
  engine_wf 2 demo_share_engine /\ share_refusal 2 demo_share_engine r1 = None /\
  exists s' r, share_m1_radix_prefix_from_live_source_v1 2 r1 [1; 2; 3; 4; 5; 6]
      (mkShared demo_share_index demo_share_engine) = Done s' r /\
    r = Ok (Shared r0 r1 4 1) /\ servable 2 demo_share_engine r0 4 /\
    shared (kv demo_share_engine) (kv (engine s')) 0 1 2.
Proof.
  assert (Hwf : engine_wf 2 demo_share_engine).
  { apply demo_engine_wf; [by vm_compute|by vm_compute|by vm_compute|by repeat constructor]. }
  assert (Hd : share_refusal 2 demo_share_engine r1 = None) by by vm_compute.
  split; [exact Hwf|]. split; [exact Hd|]. destruct demo_share_repr as [a Hr].
  pose proof (radix_share_exact 2 demo_share_index demo_share_engine a r1 [1; 2; 3; 4; 5; 6] Hr Hwf) as H.
  rewrite Hd in H. apply wp_done in H as (s' & r & Hrun & a' & _ & _ & _ & H).
  exists s', r. split; [exact Hrun|].
  assert (Hres : match share_m1_radix_prefix_from_live_source_v1 2 r1 [1; 2; 3; 4; 5; 6]
      (mkShared demo_share_index demo_share_engine) with Done _ r => r = Ok (Shared r0 r1 4 1) | Panic => False end)
    by (vm_compute; reflexivity).
  rewrite Hrun in Hres. subst r. split; [reflexivity|].
  destruct H as (_ & _ & _ & Hs & _ & _ & Hsh). split; [exact Hs|]. exact Hsh.
Defined.
