(* ===== verification/Tokenizer.v ===== *)
(** [ferric-build/src/tokenizer_execution.rs]: the byte-level BPE tokenizer.
    The byte and code point bijection, the construction of the numeric program
    from the vocabulary and the ordered merges, the added-token search, the
    merge loop, encoding and decoding, each against one work budget.  A [&str]
    is its bytes; slicing it away from a character boundary panics.  Unicode
    normalization and the split expression are parameters. *)
From S2P Require Import Prelude Bytes.
From stdpp Require Import gmap.
From Stdlib Require Import String Ascii.
Local Open Scope N_scope.
Local Open Scope prog_scope.

Definition BASE_VOCABULARY_SIZE : N := 151643.
Definition ORDERED_LOOKUP_COMPARISONS : N := 128.
Definition MAX_TOKENIZER_INPUT_BYTES : N := 32 * 1024.
Definition MAX_TOKENIZER_OUTPUT_TOKENS : N := 8192.
Definition MAX_TOKENIZER_OUTPUT_BYTES : N := 128 * 1024.
Definition MAX_TOKENIZER_WORK : N := 16 * 1024 * 1024.
Definition MAX_TOKENIZER_NORMALIZED_BYTES : N := 128 * 1024.

(** The bytes of an ASCII literal. *)
Definition ascii_bytes (s : string) : list N := N_of_ascii <$> list_ascii_of_string s.

Definition QWEN3_SPLIT_REGEX : list N := ascii_bytes
  "(?i:'s|'t|'re|'ve|'m|'ll|'d)|[^\r\n\p{L}\p{N}]?\p{L}+|\p{N}| ?[^\s\p{L}\p{N}]+[\r\n]*|\s*[\r\n]+|\s+(?!\S)|\s+"%string.

Definition ADDED_TOKENS : list (list N * bool) :=
  (fun '(content, special) => (ascii_bytes content, special)) <$>
  [("<|endoftext|>", true); ("<|im_start|>", true); ("<|im_end|>", true);
   ("<|object_ref_start|>", true); ("<|object_ref_end|>", true); ("<|box_start|>", true);
   ("<|box_end|>", true); ("<|quad_start|>", true); ("<|quad_end|>", true);
   ("<|vision_start|>", true); ("<|vision_end|>", true); ("<|vision_pad|>", true);
   ("<|image_pad|>", true); ("<|video_pad|>", true); ("<tool_call>", false);
   ("</tool_call>", false); ("<|fim_prefix|>", false); ("<|fim_middle|>", false);
   ("<|fim_suffix|>", false); ("<|fim_pad|>", false); ("<|repo_name|>", false);
   ("<|file_sep|>", false); ("<tool_response>", false); ("</tool_response>", false);
   ("<think>", false); ("</think>", false)]%string.

(** ** Data *)
Record TokenizerExecutionLimits := mkLimits {
  limit_input_bytes : N;
  limit_tokens : N;
  limit_output_bytes : N;
  limit_work : N
}.

Record AddedTokenProgram := mkAdded { at_bytes : list N; at_special : bool; at_token_id : N }.
Record AddedTokenMatch := mkAddedMatch { am_start : N; am_offset : N; am_token_id : N }.
Record MergeSelection := mkSelection { ms_rank : N; ms_left : N; ms_right : N; ms_result_id : N }.

(** The [BTreeMap] of merges: a pair of ids to its rank and result. *)
Definition MergeRanks : Type := gmap (N * N) (N * N).

Record TokenizerExecutionProgram := mkProgram {
  byte_token_ids : list N;
  vocabulary_bytes : list (list N);
  merge_ranks : MergeRanks;
  added_tokens : list AddedTokenProgram
}.

Inductive SpecialTokenEncodePolicy := Reject | Allow.
Inductive SpecialTokenDecodePolicy := Preserve | Skip.

Inductive TokenizerExecutionError :=
| InvalidLimits
| InputTooLarge (limit actual : N)
| NormalizedInputTooLarge (limit actual : N)
| SpecialTokenForbidden (token_id : N)
| TokenLimit (limit actual : N)
| OutputByteLimit (limit : N)
| WorkLimit (limit : N)
| ArithmeticOverflow
| UnknownTokenId (token_id : N)
| UnsupportedVocabularySymbol (symbol : N)
| AllocationFailed.

Inductive TokenizerProgramConstructionError :=
| ConstructionOverflow
| ConstructionAllocationFailed
| InvalidVocabulary
| RegexConstruction.

Definition m1 : TokenizerExecutionLimits :=
  mkLimits MAX_TOKENIZER_INPUT_BYTES MAX_TOKENIZER_OUTPUT_TOKENS MAX_TOKENIZER_OUTPUT_BYTES MAX_TOKENIZER_WORK.

Definition validate (self : TokenizerExecutionLimits) : result unit TokenizerExecutionError :=
  if (limit_input_bytes self =? 0) || (MAX_TOKENIZER_INPUT_BYTES <? limit_input_bytes self)
     || (limit_tokens self =? 0) || (MAX_TOKENIZER_OUTPUT_TOKENS <? limit_tokens self)
     || (limit_output_bytes self =? 0) || (MAX_TOKENIZER_OUTPUT_BYTES <? limit_output_bytes self)
     || (limit_work self =? 0) || (MAX_TOKENIZER_WORK <? limit_work self)
  then Err InvalidLimits else Ok tt.

(** ** The byte-level alphabet *)
Definition byte_to_unicode_codepoint (byte : N) : N :=
  if ((33 <=? byte) && (byte <=? 126)) || ((161 <=? byte) && (byte <=? 172)) || (174 <=? byte) then byte
  else if byte <=? 32 then 256 + byte
  else if (127 <=? byte) && (byte <=? 160) then byte + 162
  else 323.

Definition unicode_codepoint_to_byte (codepoint : N) : option N :=
  if (codepoint <=? 255) &&
     (((33 <=? codepoint) && (codepoint <=? 126)) || ((161 <=? codepoint) && (codepoint <=? 172)) || (174 <=? codepoint))
  then Some codepoint
  else if (256 <=? codepoint) && (codepoint <=? 288) then Some (codepoint - 256)
  else if (289 <=? codepoint) && (codepoint <=? 322) then Some (codepoint - 162)
  else if codepoint =? 323 then Some 173
  else None.

(** [char::from_u32] *)
Definition char_from_u32 (c : N) : option N :=
  if (1114111 <? c) || ((55296 <=? c) && (c <=? 57343)) then None else Some c.
Definition byte_to_unicode (byte : N) : option N := char_from_u32 (byte_to_unicode_codepoint byte).
Definition unicode_to_byte (symbol : N) : option N := unicode_codepoint_to_byte symbol.

(** ** The work budget *)
Record WorkBudget := mkBudget { used : N; limit : N }.
Definition budget_new (limit : N) : WorkBudget := mkBudget 0 limit.

Definition charge (amount : N) : M WorkBudget (result unit TokenizerExecutionError) :=
  let! self := gets id in
  match checked_add usize_max (used self) amount with
  | None => ret (Err (WorkLimit (limit self)))
  | Some used' =>
      if limit self <? used' then ret (Err (WorkLimit (limit self)))
      else modify (fun b => mkBudget used' (limit b)) ;; ret (Ok tt)
  end.

Definition checked_mul (max a b : N) : option N := if a * b <=? max then Some (a * b) else None.

Definition charge_ordered_lookup (left_bytes right_bytes : N) : M WorkBudget (result unit TokenizerExecutionError) :=
  match checked_add usize_max left_bytes right_bytes with
  | None => ret (Err ArithmeticOverflow)
  | Some pair_bytes =>
      match checked_mul usize_max (N.max pair_bytes 1) ORDERED_LOOKUP_COMPARISONS with
      | None => ret (Err ArithmeticOverflow)
      | Some charged => charge charged
      end
  end.

(** An output vector is threaded: an error returns no vector, and every caller
    drops the one it passed. *)
Definition push_token (output : list N) (token limit : N) : result (list N) TokenizerExecutionError :=
  match checked_add usize_max (vlen output) 1 with
  | None => Err (TokenLimit limit usize_max)
  | Some actual => if limit <? actual then Err (TokenLimit limit actual) else Ok (output ++ [token])
  end.

Definition push_byte (output : list N) (byte limit : N) : result (list N) TokenizerExecutionError :=
  if limit <=? vlen output then Err (OutputByteLimit limit) else Ok (output ++ [byte]).

Definition emit_added_token (added : AddedTokenProgram) (policy : SpecialTokenEncodePolicy)
    (output : list N) (limit : N) : result (list N * N) TokenizerExecutionError :=
  let emit :=
    match push_token output (at_token_id added) limit with
    | Ok output' => Ok (output', vlen (at_bytes added))
    | Err error => Err error
    end in
  match policy with
  | Reject => if at_special added then Err (SpecialTokenForbidden (at_token_id added)) else emit
  | Allow => emit
  end.

(** ** Byte-pair merging *)
Definition selection_from_rule (key : N * N) (rule : option (N * N)) : option MergeSelection :=
  match rule with
  | None => None
  | Some (rank, result_id) => Some (mkSelection rank key.1 key.2 result_id)
  end.

(** [while index < symbols.len() - 1] of [select_merge], over the symbols from
    [index]. *)
Fixpoint select_loop (symbols : list N) (ranks : MergeRanks) (best : option MergeSelection) :
    M WorkBudget (result (option MergeSelection) TokenizerExecutionError) :=
  match symbols with
  | left_id :: (right_id :: _) as symbols' =>
      let? _ := charge_ordered_lookup 4 4 in
      let candidate := selection_from_rule (left_id, right_id) (ranks !! (left_id, right_id)) in
      let best' :=
        match best, candidate with
        | None, candidate => candidate
        | current, None => current
        | Some current, Some candidate =>
            if ms_rank candidate <? ms_rank current then Some candidate else Some current
        end in
      select_loop symbols' ranks best'
  | _ => ret (Ok best)
  end.

Definition select_merge (symbols : list N) (ranks : MergeRanks) :
    M WorkBudget (result (option MergeSelection) TokenizerExecutionError) :=
  if vlen symbols <=? 1 then ret (Ok None) else select_loop symbols ranks None.

(** [while index < symbols.len()] of [apply_merge], over the symbols from
    [index]. *)
Fixpoint apply_loop (symbols : list N) (selection : MergeSelection) (merged : list N) :
    M WorkBudget (result (list N) TokenizerExecutionError) :=
  match symbols with
  | [] => ret (Ok merged)
  | symbol :: symbols' =>
      let? _ := charge 1 in
      match symbols' with
      | next :: symbols'' =>
          if (symbol =? ms_left selection) && (next =? ms_right selection)
          then apply_loop symbols'' selection (merged ++ [ms_result_id selection])
          else apply_loop symbols' selection (merged ++ [symbol])
      | [] => apply_loop symbols' selection (merged ++ [symbol])
      end
  end.

Definition apply_merge (symbols : list N) (selection : MergeSelection) :
    M WorkBudget (result (list N) TokenizerExecutionError) :=
  apply_loop symbols selection [].

(** [while symbols.len() > 1] of [run_bpe]. *)
Fixpoint bpe_loop (fuel : nat) (symbols : list N) (ranks : MergeRanks) :
    M WorkBudget (result (list N) TokenizerExecutionError) :=
  if 1 <? vlen symbols then
    match fuel with
    | O => panic
    | S fuel' =>
        let? selection := select_merge symbols ranks in
        match selection with
        | None => ret (Ok symbols)
        | Some selection =>
            let? symbols' := apply_merge symbols selection in
            bpe_loop fuel' symbols' ranks
        end
    end
  else ret (Ok symbols).

Definition run_bpe (initial : list N) (ranks : MergeRanks) :
    M WorkBudget (result (list N) TokenizerExecutionError) :=
  bpe_loop (List.length initial) initial ranks.

(** ** Added tokens *)

(** [while index < pattern.len()] of [bytes_match_at]. *)
Fixpoint match_loop {S} (input pattern : list N) (position : N) : M S bool :=
  match pattern with
  | [] => ret true
  | expected :: pattern' =>
      let! byte := slice_at input position in
      if byte =? expected then match_loop input pattern' (position + 1) else ret false
  end.

Definition bytes_match_at {S} (input : list N) (start : N) (pattern : list N) : M S bool :=
  let! room := sub_w (vlen input) start in
  if room <? vlen pattern then ret false else match_loop input pattern start.

(** [while offset < added_tokens.len()] of [reject_forbidden_special]. *)
Fixpoint reject_tokens_loop (input : list N) (start : N) (added : list AddedTokenProgram) :
    M WorkBudget (result unit TokenizerExecutionError) :=
  match added with
  | [] => ret (Ok tt)
  | a :: added' =>
      if negb (at_special a) then reject_tokens_loop input start added'
      else
        let? _ := charge (vlen (at_bytes a)) in
        let! matches := bytes_match_at input start (at_bytes a) in
        if matches then ret (Err (SpecialTokenForbidden (at_token_id a)))
        else reject_tokens_loop input start added'
  end.

(** [while start < input.len()] of [reject_forbidden_special]. *)
Fixpoint reject_loop (fuel : nat) (input : list N) (start : N) (added : list AddedTokenProgram) :
    M WorkBudget (result unit TokenizerExecutionError) :=
  if start <? vlen input then
    match fuel with
    | O => panic
    | S fuel' =>
        let? _ := charge 1 in
        let! byte := slice_at input start in
        if negb (byte =? 60) then reject_loop fuel' input (start + 1) added
        else
          let? _ := reject_tokens_loop input start added in
          reject_loop fuel' input (start + 1) added
    end
  else ret (Ok tt).

Definition reject_forbidden_special (input : list N) (added : list AddedTokenProgram) :
    M WorkBudget (result unit TokenizerExecutionError) :=
  reject_loop (List.length input) input 0 added.

(** [while offset < added_tokens.len()] of [find_added_token]: the longest
    added token at [start], the first one on a tie. *)
Fixpoint best_added_loop (input : list N) (start offset : N) (all added : list AddedTokenProgram)
    (best : option AddedTokenMatch) : M WorkBudget (result (option AddedTokenMatch) TokenizerExecutionError) :=
  match added with
  | [] => ret (Ok best)
  | a :: added' =>
      let? _ := charge (vlen (at_bytes a)) in
      let! matches := bytes_match_at input start (at_bytes a) in
      if negb matches then best_added_loop input start (offset + 1) all added' best
      else
        let candidate := mkAddedMatch start offset (at_token_id a) in
        let! replace :=
          match best with
          | None => ret true
          | Some current =>
              let! other := slice_at all (am_offset current) in
              ret ((vlen (at_bytes other) <? vlen (at_bytes a)) ||
                   ((vlen (at_bytes a) =? vlen (at_bytes other)) && (offset <? am_offset current)))
          end in
        best_added_loop input start (offset + 1) all added' (if replace then Some candidate else best)
  end.

(** [while start < input.len()] of [find_added_token]. *)
Fixpoint find_loop (fuel : nat) (input : list N) (start : N) (added : list AddedTokenProgram) :
    M WorkBudget (result (option AddedTokenMatch) TokenizerExecutionError) :=
  if start <? vlen input then
    match fuel with
    | O => panic
    | S fuel' =>
        let? _ := charge 1 in
        let! byte := slice_at input start in
        if byte =? 60 then
          let? best := best_added_loop input start 0 added added None in
          match best with
          | Some _ => ret (Ok best)
          | None => find_loop fuel' input (start + 1) added
          end
        else find_loop fuel' input (start + 1) added
    end
  else ret (Ok None).

Definition find_added_token (input : list N) (cursor : N) (added : list AddedTokenProgram) :
    M WorkBudget (result (option AddedTokenMatch) TokenizerExecutionError) :=
  find_loop (List.length input) input cursor added.

(** ** Pieces *)
Section pieces.
Variable self : TokenizerExecutionProgram.

(** [while index < piece.len()] *)
Fixpoint piece_symbols (piece symbols : list N) : M WorkBudget (result (list N) TokenizerExecutionError) :=
  match piece with
  | [] => ret (Ok symbols)
  | byte :: piece' =>
      let? _ := charge 1 in
      let! token := slice_at (byte_token_ids self) byte in
      piece_symbols piece' (symbols ++ [token])
  end.

(** [while merged_index < merged.len()] *)
Fixpoint push_tokens (merged output : list N) (limit : N) : result (list N) TokenizerExecutionError :=
  match merged with
  | [] => Ok output
  | token :: merged' =>
      match push_token output token limit with
      | Ok output' => push_tokens merged' output' limit
      | Err error => Err error
      end
  end.

Definition encode_piece (piece : list N) (limits : TokenizerExecutionLimits) (output : list N) :
    M WorkBudget (result (list N) TokenizerExecutionError) :=
  let? symbols := piece_symbols piece [] in
  let? merged := run_bpe symbols (merge_ranks self) in
  ret (push_tokens merged output (limit_tokens limits)).

(** ** Decoding *)

(** [while index < bytes.len()] of [append_decoded_bytes]. *)
Fixpoint append_decoded_bytes (bytes output : list N) (limit : N) :
    M WorkBudget (result (list N) TokenizerExecutionError) :=
  match bytes with
  | [] => ret (Ok output)
  | byte :: bytes' =>
      let? _ := charge 1 in
      let? output' := ret (push_byte output byte limit) in
      append_decoded_bytes bytes' output' limit
  end.

(** [while token_index < token_ids.len()] of [decode_to_bytes]. *)
Fixpoint decode_loop (token_ids : list N) (limits : TokenizerExecutionLimits)
    (special_tokens : SpecialTokenDecodePolicy) (output : list N) :
    M WorkBudget (result (list N) TokenizerExecutionError) :=
  match token_ids with
  | [] => ret (Ok output)
  | token_id :: token_ids' =>
      let? _ := charge 1 in
      if token_id <? BASE_VOCABULARY_SIZE then
        match vget (vocabulary_bytes self) token_id with
        | None => ret (Err (UnknownTokenId token_id))
        | Some bytes =>
            let? output' := append_decoded_bytes bytes output (limit_output_bytes limits) in
            decode_loop token_ids' limits special_tokens output'
        end
      else
        match vget (added_tokens self) (token_id - BASE_VOCABULARY_SIZE) with
        | None => ret (Err (UnknownTokenId token_id))
        | Some added =>
            let skip := match special_tokens with Preserve => false | Skip => at_special added end in
            if skip then decode_loop token_ids' limits special_tokens output
            else
              let? output' := append_decoded_bytes (at_bytes added) output (limit_output_bytes limits) in
              decode_loop token_ids' limits special_tokens output'
        end
  end.

(** [decode_to_bytes] runs on a budget of its own. *)
Definition decode_to_bytes {S} (token_ids : list N) (limits : TokenizerExecutionLimits)
    (special_tokens : SpecialTokenDecodePolicy) : M S (result (list N) TokenizerExecutionError) :=
  match validate limits with
  | Err error => ret (Err error)
  | Ok _ =>
      if limit_tokens limits <? vlen token_ids then ret (Err (TokenLimit (limit_tokens limits) (vlen token_ids)))
      else
        zoom (fun _ => budget_new (limit_work limits)) (fun _ s => s)
          (decode_loop token_ids limits special_tokens [])
  end.
End pieces.

(** ** The program *)

(** [str::is_char_boundary]: a continuation byte is in 0x80..=0xBF. *)
Definition is_char_boundary (s : list N) (i : N) : bool :=
  (i =? 0) || (i =? vlen s) ||
  match vget s i with Some b => negb ((128 <=? b) && (b <=? 191)) | None => false end.

(** [&s[a..b]] on a [&str]. *)
Definition str_slice {S} (s : list N) (a b : N) : M S (list N) :=
  if is_char_boundary s a && is_char_boundary s b then slice_range s a b else panic.

Section program.
Context {Regex : Type}.
(** [Regex::new] and [find_iter] of the [onig] crate, and [nfc] of
    [unicode-normalization-alignments]: the UTF-8 bytes of each character of
    the normal form. *)
Variable Regex_new : list N -> option Regex.
Variable find_iter : Regex -> list N -> list (N * N).
Variable nfc : list N -> list (list N).

Record TokenizerProgram := mkTokenizer { execution : TokenizerExecutionProgram; split_regex : Regex }.

(** [char::len_utf8] and [String::len] of a string given by its characters. *)
Definition len_utf8 (c : N) : N :=
  if c <? 128 then 1 else if c <? 2048 then 2 else if c <? 65536 then 3 else 4.
Definition str_len (s : list N) : N := foldr (fun c n => len_utf8 c + n) 0 s.

(** The [BTreeMap] from the vocabulary's strings to their ids. *)
Fixpoint collect_ids (vocabulary : list (list N)) (id : N) (ids : gmap (list N) N) :
    result (gmap (list N) N) TokenizerProgramConstructionError :=
  match vocabulary with
  | [] => Ok ids
  | token :: vocabulary' =>
      if u32_max <? id then Err ConstructionOverflow
      else collect_ids vocabulary' (id + 1) (<[token := id]> ids)
  end.

(** [for byte in u8::MIN..=u8::MAX] *)
Fixpoint collect_bytes (bytes : list N) (ids : gmap (list N) N) :
    result (list N) TokenizerProgramConstructionError :=
  match bytes with
  | [] => Ok []
  | byte :: bytes' =>
      match byte_to_unicode byte with
      | None => Err InvalidVocabulary
      | Some symbol =>
          match ids !! [symbol] with
          | None => Err InvalidVocabulary
          | Some token =>
              match collect_bytes bytes' ids with
              | Ok tokens => Ok (token :: tokens)
              | Err error => Err error
              end
          end
      end
  end.

(** [for symbol in token.chars()] *)
Fixpoint token_bytes (token : list N) : result (list N) TokenizerProgramConstructionError :=
  match token with
  | [] => Ok []
  | symbol :: token' =>
      match unicode_to_byte symbol with
      | None => Err InvalidVocabulary
      | Some byte =>
          match token_bytes token' with
          | Ok bytes => Ok (byte :: bytes)
          | Err error => Err error
          end
      end
  end.

(** [for token in &vocabulary] *)
Fixpoint collect_vocabulary (vocabulary : list (list N)) :
    result (list (list N)) TokenizerProgramConstructionError :=
  match vocabulary with
  | [] => Ok []
  | token :: vocabulary' =>
      match token_bytes token with
      | Err error => Err error
      | Ok bytes =>
          match collect_vocabulary vocabulary' with
          | Ok rest => Ok (bytes :: rest)
          | Err error => Err error
          end
      end
  end.

(** [for (rank, (left, right)) in merges.into_iter().enumerate()] *)
Fixpoint collect_merges (merges : list (list N * list N)) (ids : gmap (list N) N) (rank : N) (ranks : MergeRanks) :
    result MergeRanks TokenizerProgramConstructionError :=
  match merges with
  | [] => Ok ranks
  | (lhs, rhs) :: merges' =>
      match ids !! lhs, ids !! rhs with
      | Some left_id, Some right_id =>
          match checked_add usize_max (str_len lhs) (str_len rhs) with
          | None => Err ConstructionOverflow
          | Some _ =>
              match ids !! (lhs ++ rhs) with
              | None => Err InvalidVocabulary
              | Some result_id => collect_merges merges' ids (rank + 1) (<[(left_id, right_id) := (rank, result_id)]> ranks)
              end
          end
      | _, _ => Err InvalidVocabulary
      end
  end.

(** [for (offset, (content, special)) in ADDED_TOKENS.iter().enumerate()] *)
Fixpoint collect_added (added : list (list N * bool)) (offset : N) :
    result (list AddedTokenProgram) TokenizerProgramConstructionError :=
  match added with
  | [] => Ok []
  | (content, special) :: added' =>
      match checked_add u32_max BASE_VOCABULARY_SIZE offset with
      | None => Err ConstructionOverflow
      | Some token_id =>
          match collect_added added' (offset + 1) with
          | Ok rest => Ok (mkAdded content special token_id :: rest)
          | Err error => Err error
          end
      end
  end.

Definition tokenizer_new (vocabulary : list (list N)) (merges : list (list N * list N)) :
    result TokenizerProgram TokenizerProgramConstructionError :=
  match collect_ids vocabulary 0 ∅ with
  | Err error => Err error
  | Ok token_ids =>
  match collect_bytes (N.of_nat <$> seq 0 256) token_ids with
  | Err error => Err error
  | Ok byte_ids =>
  match collect_vocabulary vocabulary with
  | Err error => Err error
  | Ok bytes =>
  match collect_merges merges token_ids 0 ∅ with
  | Err error => Err error
  | Ok ranks =>
  match collect_added ADDED_TOKENS 0 with
  | Err error => Err error
  | Ok added =>
  match Regex_new QWEN3_SPLIT_REGEX with
  | None => Err RegexConstruction
  | Some regex => Ok (mkTokenizer (mkProgram byte_ids bytes ranks added) regex)
  end end end end end end.

(** ** Encoding *)
Variable self : TokenizerProgram.

(** [for (symbol, _) in input.nfc()] *)
Fixpoint normalize_loop (symbols : list (list N)) (normalized : list N) :
    M WorkBudget (result (list N) TokenizerExecutionError) :=
  match symbols with
  | [] => ret (Ok normalized)
  | symbol :: symbols' =>
      let? _ := charge 1 in
      match checked_add usize_max (vlen normalized) (vlen symbol) with
      | None => ret (Err ArithmeticOverflow)
      | Some actual =>
          if MAX_TOKENIZER_NORMALIZED_BYTES <? actual then
            ret (Err (NormalizedInputTooLarge MAX_TOKENIZER_NORMALIZED_BYTES actual))
          else normalize_loop symbols' (normalized ++ symbol)
      end
  end.

Definition charge_to (end_ previous : N) : M WorkBudget (result unit TokenizerExecutionError) :=
  match checked_sub end_ previous with
  | None => ret (Err ArithmeticOverflow)
  | Some amount => charge amount
  end.

(** [for (start, end) in self.split_regex.find_iter(&normalized)]; the value is
    [previous] and the output. *)
Fixpoint split_loop (spans : list (N * N)) (normalized : list N) (limits : TokenizerExecutionLimits)
    (previous : N) (output : list N) : M WorkBudget (result (N * list N) TokenizerExecutionError) :=
  match spans with
  | [] => ret (Ok (previous, output))
  | (start, end_) :: spans' =>
      let? _ := charge_to end_ previous in
      let? output :=
        if negb (previous =? start) then
          let! piece := slice_range normalized previous start in
          encode_piece (execution self) piece limits output
        else ret (Ok output) in
      let! piece := slice_range normalized start end_ in
      let? output := encode_piece (execution self) piece limits output in
      split_loop spans' normalized limits end_ output
  end.

Definition encode_normal_text (input : list N) (limits : TokenizerExecutionLimits) (output : list N) :
    M WorkBudget (result (list N) TokenizerExecutionError) :=
  let? normalized := normalize_loop (nfc input) [] in
  let? split := split_loop (find_iter (split_regex self) normalized) normalized limits 0 output in
  let '(previous, output) := split in
  if negb (previous =? vlen normalized) then
    let? _ := charge_to (vlen normalized) previous in
    let! piece := slice_range normalized previous (vlen normalized) in
    encode_piece (execution self) piece limits output
  else ret (Ok output).

(** [while cursor < input.len()] of [encode]. *)
Fixpoint encode_loop (fuel : nat) (input : list N) (limits : TokenizerExecutionLimits)
    (special_tokens : SpecialTokenEncodePolicy) (cursor : N) (output : list N) :
    M WorkBudget (result (list N) TokenizerExecutionError) :=
  if cursor <? vlen input then
    match fuel with
    | O => panic
    | S fuel' =>
        let? next := find_added_token input cursor (added_tokens (execution self)) in
        let normal_end := match next with Some m => am_start m | None => vlen input end in
        let! text := str_slice input cursor normal_end in
        let? output := encode_normal_text text limits output in
        match next with
        | None => ret (Ok output)
        | Some m =>
            let! added := slice_at (added_tokens (execution self)) (am_offset m) in
            let? emitted := ret (emit_added_token added special_tokens output (limit_tokens limits)) in
            let '(output, added_len) := emitted in
            match checked_add usize_max (am_start m) added_len with
            | None => ret (Err ArithmeticOverflow)
            | Some cursor' => encode_loop fuel' input limits special_tokens cursor' output
            end
        end
    end
  else ret (Ok output).

Definition encode {S} (input : list N) (limits : TokenizerExecutionLimits)
    (special_tokens : SpecialTokenEncodePolicy) : M S (result (list N) TokenizerExecutionError) :=
  match validate limits with
  | Err error => ret (Err error)
  | Ok _ =>
      if limit_input_bytes limits <? vlen input then ret (Err (InputTooLarge (limit_input_bytes limits) (vlen input)))
      else
        zoom (fun _ => budget_new (limit_work limits)) (fun _ s => s)
          (let? _ := match special_tokens with
                     | Reject => reject_forbidden_special input (added_tokens (execution self))
                     | Allow => ret (Ok tt)
                     end in
           encode_loop (List.length input) input limits special_tokens 0 [])
  end.
End program.
