(* ===== verification/TokenizerBpe.v ===== *)
(** Byte-pair merging: the loop that replaces every occurrence of the selected
    pair at once computes the same tokens as merging the leftmost pair of the
    least rank one at a time, it ends, and a budget quadratic in the piece's
    length is enough. *)
From S2P Require Import Prelude Bytes Tokenizer.
From stdpp Require Import gmap relations.
Local Open Scope N_scope.
Local Open Scope prog_scope.

(** ** The budget *)
Definition budget_ok (b : WorkBudget) : Prop := used b <= limit b <= usize_max.

Lemma charge_wp amount b (Q : WorkBudget -> result unit TokenizerExecutionError -> Prop) :
  budget_ok b ->
  (used b + amount <= limit b -> Q (mkBudget (used b + amount) (limit b)) (Ok tt)) ->
  (limit b < used b + amount -> Q b (Err (WorkLimit (limit b)))) ->
  wp (charge amount) b Q.
Proof.
  intros [Hu Hl] Hok Herr. unfold charge, checked_add. wp_step. apply wp_gets. unfold id.
  destruct (N.leb_spec (used b + amount) usize_max); [|apply wp_ret, Herr; lia].
  destruct (N.ltb_spec (limit b) (used b + amount)); [by apply wp_ret, Herr|].
  wp_step. apply wp_modify. apply wp_ret. by apply Hok.
Qed.

(** [m] spends at most [cost] and otherwise reports the work limit. *)
Definition spends {A} (m : M WorkBudget (result A TokenizerExecutionError)) (b : WorkBudget) (cost : N)
    (P : A -> Prop) : Prop :=
  wp m b (fun b' r => budget_ok b' /\ limit b' = limit b /\ used b <= used b' /\
    match r with
    | Ok a => used b' <= used b + cost /\ P a
    | Err e => e = WorkLimit (limit b) /\ limit b < used b + cost
    end).

Lemma spends_ret {A} (a : A) b (P : A -> Prop) : budget_ok b -> P a -> spends (ret (Ok a)) b 0 P.
Proof. intros Hb HP. apply wp_ret. split_and?; [done|done|lia|lia|done]. Qed.

Lemma spends_charge amount b : budget_ok b -> spends (charge amount) b amount (fun _ => True).
Proof.
  intros Hb. apply charge_wp; [done| |]; intros H; destruct Hb; unfold budget_ok; cbn; split_and?; try done; lia.
Qed.

Lemma spends_bind {A B} (m : M WorkBudget (result A TokenizerExecutionError))
    (k : A -> M WorkBudget (result B TokenizerExecutionError)) b c1 c2 (P : A -> Prop) (Q : B -> Prop) :
  spends m b c1 P -> (forall b' a, budget_ok b' -> limit b' = limit b -> P a -> spends (k a) b' c2 Q) ->
  spends (try_bind m k) b (c1 + c2) Q.
Proof.
  intros Hm Hk. unfold spends. apply wp_try_bind. eapply wp_mono; [exact Hm|].
  intros b' [a|e] (Hb & Hl & Hu & H).
  - destruct H as [Hc HP]. eapply wp_mono; [by apply Hk|]. intros b2 [x|e] (Hb2 & Hl2 & Hu2 & H2).
    + destruct H2 as [H2 HQ]. split_and?; try done; (congruence || lia).
    + destruct H2 as [-> H2]. rewrite Hl in H2, Hl2 |- *. split_and?; try done; lia.
  - destruct H as [-> H]. split_and?; try done; lia.
Qed.

Lemma spends_weaken {A} (m : M WorkBudget (result A TokenizerExecutionError)) b c c' (P P' : A -> Prop) :
  spends m b c P -> c <= c' -> (forall a, P a -> P' a) -> spends m b c' P'.
Proof.
  intros H Hc HP. eapply wp_mono; [exact H|]. intros b' [a|e] (Hb & Hl & Hu & H').
  - destruct H' as [Hc' Ha]. split_and?; try done; (lia || by apply HP).
  - destruct H' as [-> H']. split_and?; try done; lia.
Qed.

Lemma spends_lookup b : budget_ok b -> spends (charge_ordered_lookup 4 4) b 1024 (fun _ => True).
Proof. intros Hb. exact (spends_charge 1024 b Hb). Qed.

(** ** Adjacent pairs *)
Definition adj (l : list N) (c d : N) : Prop := exists l1 l2, l = l1 ++ c :: d :: l2.

Lemma adj_nil c d : ~ adj [] c d.
Proof. intros (l1 & l2 & H). by destruct l1. Qed.

Lemma adj_single x c d : ~ adj [x] c d.
Proof. intros (l1 & l2 & H). apply (f_equal length) in H. rewrite length_app in H. simpl in H. lia. Qed.

Lemma adj_cons x y l c d : adj (x :: y :: l) c d <-> (x = c /\ y = d) \/ adj (y :: l) c d.
Proof.
  split.
  - intros ([|z l1] & l2 & H); simpl in H; injection H; [intros -> -> ->; by left|].
    intros H1 ->. right. by exists l1, l2.
  - intros [[-> ->]|(l1 & l2 & H)]; [by exists [], l|]. exists (x :: l1), l2. by rewrite H.
Qed.

Lemma adj_app l1 l2 x c d : adj (l1 ++ x :: l2) c d <-> adj (l1 ++ [x]) c d \/ adj (x :: l2) c d.
Proof.
  induction l1 as [|y l1 IH]; cbn [app].
  - split; [by right|]. intros [H|]; [by apply adj_single in H|done].
  - destruct l1 as [|z l1]; cbn [app] in *; rewrite !adj_cons.
    + split; [|].
      * intros [|]; [by left; left|by right].
      * intros [[|H]|]; [by left|by apply adj_single in H|by right].
    + rewrite IH. tauto.
Qed.

Lemma adj_snoc l x y c d : adj (l ++ [x; y]) c d <-> adj (l ++ [x]) c d \/ (x = c /\ y = d).
Proof.
  change (l ++ [x; y]) with (l ++ x :: [y]). rewrite adj_app, adj_cons.
  split; [intros [|[|H]]; [by left|by right|by apply adj_single in H]|tauto].
Qed.

(** ** The reference: one leftmost pair of the least rank at a time *)
Definition ref_step (ranks : MergeRanks) (l l' : list N) : Prop :=
  exists l1 a b l2 k x,
    l = l1 ++ a :: b :: l2 /\ ranks !! (a, b) = Some (k, x) /\ l' = l1 ++ x :: l2 /\
    (forall c d r y, adj l c d -> ranks !! (c, d) = Some (r, y) -> k <= r) /\
    (forall c d r y, adj (l1 ++ [a]) c d -> ranks !! (c, d) = Some (r, y) -> k < r).

Definition ref_normal (ranks : MergeRanks) (l : list N) : Prop :=
  forall c d, adj l c d -> ranks !! (c, d) = None.

(** Merges as training leaves them: one rank per pair, and a pair that uses a
    merge's result comes later. *)
Record trained (ranks : MergeRanks) : Prop := {
  tr_inj p q r x y : ranks !! p = Some (r, x) -> ranks !! q = Some (r, y) -> p = q;
  tr_later a b k x c d r y : ranks !! (a, b) = Some (k, x) -> ranks !! (c, d) = Some (r, y) ->
    c = x \/ d = x -> k < r
}.

(** The reference is deterministic. *)
Lemma ref_step_det ranks l l' l'' :
  ref_step ranks l l' -> ref_step ranks l l'' -> l' = l''.
Proof.
  intros (l1 & a & b & l2 & k & x & -> & Hab & -> & Hmin & Hleft)
    (m1 & c & d & m2 & r & y & Heq & Hcd & -> & Hmin' & Hleft').
  assert (Hk : k = r).
  { assert (k <= r) by (eapply Hmin; [rewrite Heq; by exists m1, m2|done]).
    assert (r <= k); [|lia]. eapply Hmin'; [by exists l1, l2|done]. }
  subst r. destruct (decide (length l1 < length m1)%nat) as [Hlt|Hge].
  { exfalso. assert (Hpre : adj (m1 ++ [c]) a b); [|specialize (Hleft' _ _ _ _ Hpre Hab); lia].
    exists l1. assert (Ht : take (length m1 + 1) (l1 ++ a :: b :: l2) = take (length m1 + 1) (m1 ++ c :: d :: m2)) by (by rewrite Heq).
    rewrite (take_app_add m1) in Ht. cbn [take] in Ht.
    rewrite take_app_ge in Ht by lia. replace (length m1 + 1 - length l1)%nat with (S (S (length m1 - length l1 - 1))) in Ht by lia.
    cbn [take] in Ht. by eexists. }
  destruct (decide (length m1 < length l1)%nat) as [Hlt|Hge'].
  { exfalso. assert (Hpre : adj (l1 ++ [a]) c d); [|specialize (Hleft _ _ _ _ Hpre Hcd); lia].
    exists m1. assert (Ht : take (length l1 + 1) (l1 ++ a :: b :: l2) = take (length l1 + 1) (m1 ++ c :: d :: m2)) by (by rewrite Heq).
    rewrite (take_app_add l1) in Ht. cbn [take] in Ht.
    rewrite (take_app_ge m1) in Ht by lia. replace (length l1 + 1 - length m1)%nat with (S (S (length l1 - length m1 - 1))) in Ht by lia.
    cbn [take] in Ht. by eexists. }
  apply app_inj_1 in Heq as [-> Heq]; [|lia]. injection Heq as -> -> ->. rewrite Hab in Hcd. by injection Hcd as ->.
Qed.

(** ** Replacing every occurrence *)
Fixpoint merge_all (s : MergeSelection) (l : list N) : list N :=
  match l with
  | [] => []
  | x :: l' =>
      match l' with
      | y :: l'' => if (x =? ms_left s) && (y =? ms_right s) then ms_result_id s :: merge_all s l''
                    else x :: merge_all s l'
      | [] => [x]
      end
  end.

Lemma merge_all_cons s x y l :
  merge_all s (x :: y :: l) =
  if (x =? ms_left s) && (y =? ms_right s) then ms_result_id s :: merge_all s l else x :: merge_all s (y :: l).
Proof. done. Qed.

(** Induction that skips a replaced pair. *)
Lemma pair_ind (P : list N -> Prop) :
  P [] -> (forall x, P [x]) -> (forall x y l, P l -> P (y :: l) -> P (x :: y :: l)) -> forall l, P l.
Proof.
  intros H0 H1 H2 l. assert (Hlen : forall n k, (length k <= n)%nat -> P k); [|by apply (Hlen (length l))].
  induction n as [|n IH]; intros k Hk; [by destruct k; [|simpl in Hk; lia]|].
  destruct k as [|x [|y k]]; [done|done|]. simpl in Hk. apply H2; apply IH; simpl; lia.
Qed.

Lemma merge_all_length s l : (length (merge_all s l) <= length l)%nat.
Proof.
  induction l as [|x|x y l IH1 IH2] using pair_ind; [done|done|]. rewrite merge_all_cons.
  destruct (_ && _); cbn [length] in *; lia.
Qed.

Lemma merge_all_shrinks s l : adj l (ms_left s) (ms_right s) -> (length (merge_all s l) < length l)%nat.
Proof.
  induction l as [|x|x y l IH1 IH2] using pair_ind; [by intros ?%adj_nil|by intros ?%adj_single|].
  intros H. rewrite merge_all_cons. destruct ((x =? ms_left s) && (y =? ms_right s)) eqn:E.
  - cbn [length]. pose proof (merge_all_length s l). lia.
  - apply adj_cons in H as [[-> ->]|H].
    + by rewrite !N.eqb_refl in E.
    + specialize (IH2 H). cbn [length] in *. lia.
Qed.

Section replace.
Context (ranks : MergeRanks) (a b k x : N).
Hypothesis Htr : trained ranks.
Hypothesis Hab : ranks !! (a, b) = Some (k, x).
Let s : MergeSelection := mkSelection k a b x.

Definition least (l : list N) : Prop := forall c d r y, adj l c d -> ranks !! (c, d) = Some (r, y) -> k <= r.

(** No pair of the result has the merged rank. *)
Lemma result_pair c d : c = x \/ d = x -> (c, d) <> (a, b).
Proof. intros H [= -> ->]. pose proof (tr_later _ Htr a b k x a b k x Hab Hab H). lia. Qed.

Lemma result_later c d r y : c = x \/ d = x -> ranks !! (c, d) = Some (r, y) -> k <= r.
Proof. intros H Hcd. pose proof (tr_later _ Htr a b k x c d r y Hab Hcd H). lia. Qed.

Lemma ref_merge p l :
  least (p ++ a :: b :: l) -> ~ adj (p ++ [a]) a b -> ref_step ranks (p ++ a :: b :: l) (p ++ x :: l).
Proof.
  intros Hleast Hfirst. exists p, a, b, l, k, x. split_and!; try done.
  intros c d r y Hcd Hr. assert (k <= r).
  { eapply Hleast; [|exact Hr]. apply (adj_app p (b :: l)). by left. }
  destruct (decide (r = k)) as [->|]; [|lia]. assert ((c, d) = (a, b)) as [= -> ->] by by eapply tr_inj. done.
Qed.

(** After the merge, the least rank and the absence to the left remain. *)
Lemma least_merge p l : least (p ++ a :: b :: l) -> least (p ++ x :: l).
Proof.
  intros Hl c d r y Hcd Hr. apply adj_app in Hcd as [Hcd|Hcd].
  - destruct p as [|z p _] using rev_ind; [by apply adj_single in Hcd|].
    rewrite <- app_assoc in Hcd. cbn [app] in Hcd. apply adj_snoc in Hcd as [Hcd|[_ <-]].
    + eapply Hl; [|exact Hr]. apply (adj_app (p ++ [z]) (b :: l)). left.
      rewrite <- app_assoc. cbn [app]. apply adj_snoc. by left.
    + eapply result_later; [by right|exact Hr].
  - destruct l as [|z l]; [by apply adj_single in Hcd|]. apply adj_cons in Hcd as [[<- _]|Hcd].
    + eapply result_later; [by left|exact Hr].
    + eapply Hl; [|exact Hr]. apply (adj_app p (b :: z :: l)). right. rewrite !adj_cons. by right; right.
Qed.

Lemma first_merge p l : ~ adj (p ++ [a]) a b -> ~ adj (p ++ [x] ++ take 1 l) a b.
Proof.
  intros Hf Hbad. assert (Hp : ~ adj (p ++ [x]) a b).
  { intros H. destruct p as [|z p _] using rev_ind; [by apply adj_single in H|].
    rewrite <- app_assoc in H. cbn [app] in H. apply adj_snoc in H as [H|[-> Hx]].
    - apply Hf. rewrite <- app_assoc. cbn [app]. apply adj_snoc. by left.
    - by apply (result_pair a b); [right|]. }
  destruct l as [|z l]; cbn [take] in Hbad; rewrite ?take_0 in Hbad; [by rewrite app_nil_r in Hbad|].
  cbn [app] in Hbad. apply adj_snoc in Hbad as [|[Hx _]]; [done|]. by apply (result_pair a b); [left|].
Qed.

Lemma merge_all_ref l : forall p,
  least (p ++ l) -> ~ adj (p ++ take 1 l) a b -> rtc (ref_step ranks) (p ++ l) (p ++ merge_all s l).
Proof.
  induction l as [|y|y z l IH1 IH2] using pair_ind; intros p Hleast Hfirst.
  { reflexivity. }
  { reflexivity. }
  cbn [take] in Hfirst. rewrite merge_all_cons. cbn [s ms_left ms_right ms_result_id].
  destruct (N.eqb_spec y a) as [->|Hy]; [destruct (N.eqb_spec z b) as [->|Hz]|]; cbn [andb].
  - eapply rtc_l; [by apply ref_merge|]. change (x :: merge_all _ l) with ([x] ++ merge_all s l).
    change (x :: l) with ([x] ++ l). rewrite !app_assoc. apply IH1.
    + rewrite <- app_assoc. by apply least_merge.
    + rewrite <- app_assoc. by apply first_merge.
  - change (a :: merge_all _ (z :: l)) with ([a] ++ merge_all s (z :: l)). change (a :: z :: l) with ([a] ++ z :: l).
    rewrite !app_assoc. apply IH2; [by rewrite <- app_assoc|]. rewrite <- app_assoc. cbn [app take].
    rewrite take_0. intros [|[_ ?]]%adj_snoc; done.
  - change (y :: merge_all _ (z :: l)) with ([y] ++ merge_all s (z :: l)). change (y :: z :: l) with ([y] ++ z :: l).
    rewrite !app_assoc. apply IH2; [by rewrite <- app_assoc|]. rewrite <- app_assoc. cbn [app take].
    rewrite take_0. intros [|[? _]]%adj_snoc; done.
Qed.
End replace.

(** ** Selection *)
Definition rule_of (ranks : MergeRanks) (sel : MergeSelection) : Prop :=
  ranks !! (ms_left sel, ms_right sel) = Some (ms_rank sel, ms_result_id sel).

Definition selected (ranks : MergeRanks) (l : list N) (best r : option MergeSelection) : Prop :=
  match r with
  | None => best = None /\ ref_normal ranks l
  | Some sel => (best = Some sel \/ (adj l (ms_left sel) (ms_right sel) /\ rule_of ranks sel)) /\
      (forall c d q y, adj l c d -> ranks !! (c, d) = Some (q, y) -> ms_rank sel <= q) /\
      (forall b, best = Some b -> ms_rank sel <= ms_rank b)
  end.

Lemma selected_none ranks l best : (forall c d, ~ adj l c d) -> selected ranks l best best.
Proof.
  intros Hno. destruct best as [b|]; cbn.
  - split; [by left|]. split; [|by intros b' [= <-]]. intros c d q y H. by apply Hno in H.
  - split; [done|]. intros c d H. by apply Hno in H.
Qed.

(** One more pair in front. *)
Lemma selected_cons ranks x y l best r :
  let candidate := selection_from_rule (x, y) (ranks !! (x, y)) in
  let best' := match best, candidate with
    | None, candidate => candidate
    | current, None => current
    | Some current, Some candidate => if ms_rank candidate <? ms_rank current then Some candidate else Some current
    end in
  selected ranks (y :: l) best' r -> selected ranks (x :: y :: l) best r.
Proof.
  cbv zeta. destruct (ranks !! (x, y)) as [[q0 z0]|] eqn:Hxy; cbn [selection_from_rule].
  - set (cand := mkSelection q0 (x, y).1 (x, y).2 z0). set (best' := match best with Some _ => _ | None => _ end).
    assert (Hb' : exists b', best' = Some b' /\ ms_rank b' <= q0 /\ (best = Some b' \/ b' = cand) /\ forall b, best = Some b -> ms_rank b' <= ms_rank b).
    { unfold best'. destruct best as [b|]; [destruct (N.ltb_spec (ms_rank cand) (ms_rank b))|]; eexists; (split; [done|]).
      - split; [done|]. split; [by right|]. intros b0 [= <-]. lia.
      - split; [done|]. split; [by left|]. by intros b0 [= <-].
      - split; [done|]. split; [by right|]. done. }
    destruct Hb' as (b' & Eb & Hq & Hsrc & Hle). destruct r as [sel|]; cbn; [|intros [H _]; congruence].
    intros (Hfrom & Hmin & Hbest). specialize (Hbest b' Eb). split; [|split].
    + destruct Hfrom as [Hfrom|[Hadj Hr]]; [|right; split; [apply adj_cons; by right|done]].
      rewrite Eb in Hfrom. injection Hfrom as <-. destruct Hsrc as [| ->]; [by left|right].
      split; [apply adj_cons; by left|exact Hxy].
    + intros c d q z [[<- <-]|H]%adj_cons Hcd; [rewrite Hxy in Hcd; injection Hcd as <- <-; lia|by eapply Hmin].
    + intros b Hb. specialize (Hle b Hb). lia.
  - set (best' := match best with Some _ => _ | None => _ end). assert (Hb' : best' = best) by (by destruct best).
    rewrite Hb'. destruct r as [sel|]; cbn.
    + intros (Hfrom & Hmin & Hbest). split; [|split; [|done]].
      * destruct Hfrom as [|[Hadj Hr]]; [by left|right; split; [apply adj_cons; by right|done]].
      * intros c d q z [[<- <-]|H]%adj_cons Hcd; [congruence|by eapply Hmin].
    + intros [-> Hn]. split; [done|]. intros c d [[<- <-]|H]%adj_cons; [done|by apply Hn].
Qed.

Lemma select_loop_spends ranks l : forall best b, budget_ok b ->
  spends (select_loop l ranks best) b (1024 * vlen l) (selected ranks l best).
Proof.
  induction l as [|x [|y l] IH]; intros best b Hb.
  - eapply spends_weaken; [by apply (spends_ret best b (selected ranks [] best)), selected_none, adj_nil|lia|done].
  - eapply spends_weaken; [by apply (spends_ret best b (selected ranks [x] best)), selected_none, adj_single|lia|done].
  - cbn [select_loop]. eapply spends_weaken; [eapply spends_bind; [by apply spends_lookup|]| |].
    + intros b' [] Hb' _ _. by apply IH.
    + rewrite !vlen_cons. lia.
    + intros r. apply selected_cons.
Qed.

Lemma select_merge_spends ranks l b : budget_ok b ->
  spends (select_merge l ranks) b (1024 * vlen l) (selected ranks l None).
Proof.
  intros Hb. unfold select_merge. destruct (N.leb_spec (vlen l) 1) as [H|H]; [|by apply select_loop_spends].
  eapply spends_weaken; [apply (spends_ret None b (selected ranks l None) Hb)|lia|done].
  apply selected_none. destruct l as [|x [|y l]]; [apply adj_nil|apply adj_single|rewrite !vlen_cons in H; lia].
Qed.

(** ** Application *)
Lemma apply_loop_spends s l : forall acc b, budget_ok b ->
  spends (apply_loop l s acc) b (vlen l) (fun r => r = acc ++ merge_all s l).
Proof.
  induction l as [|x|x y l IH1 IH2] using pair_ind; intros acc b Hb.
  - by apply spends_ret; [|rewrite app_nil_r].
  - cbn [apply_loop merge_all]. eapply (spends_bind _ _ b 1 0); [by apply spends_charge|].
    intros b' [] Hb' _ _. by apply spends_ret.
  - rewrite merge_all_cons. change (apply_loop (x :: y :: l) s acc) with
      (let? _ := charge 1 in if (x =? ms_left s) && (y =? ms_right s)
       then apply_loop l s (acc ++ [ms_result_id s]) else apply_loop (y :: l) s (acc ++ [x])).
    rewrite vlen_cons, N.add_comm. eapply spends_bind; [by apply spends_charge|]. intros b' [] Hb' _ _.
    destruct (_ && _).
    + eapply spends_weaken; [by apply IH1|rewrite vlen_cons; lia|]. intros r ->. by rewrite <- app_assoc.
    + eapply spends_weaken; [by apply IH2|lia|]. intros r ->. by rewrite <- app_assoc.
Qed.

(** ** The merge loop *)
Definition bpe_cost (n : N) : N := 1025 * n * n.

(** What every replacement of a selected pair keeps. *)
Definition kept_by_merges (ranks : MergeRanks) (I : list N -> Prop) : Prop :=
  forall l sel, I l -> rule_of ranks sel ->
    (forall c d q y, adj l c d -> ranks !! (c, d) = Some (q, y) -> ms_rank sel <= q) -> I (merge_all sel l).

Lemma bpe_loop_spends ranks I (HI : kept_by_merges ranks I) fuel : forall l b, I l -> budget_ok b -> (length l <= fuel)%nat ->
  spends (bpe_loop fuel l ranks) b (bpe_cost (vlen l)) (fun r => I r /\ ref_normal ranks r).
Proof.
  assert (Hstop : forall l b c, I l -> budget_ok b -> ref_normal ranks l ->
    spends (ret (Ok l)) b c (fun r => I r /\ ref_normal ranks r)).
  { intros l b c Hl Hb Hn. eapply spends_weaken; [by apply (spends_ret l b (fun r => I r /\ ref_normal ranks r))|lia|done]. }
  induction fuel as [|fuel IH]; intros l b Hl Hb Hf; cbn [bpe_loop].
  { destruct l; [|simpl in Hf; lia]. apply Hstop; [done..|]. by intros c d ?%adj_nil. }
  destruct (N.ltb_spec 1 (vlen l)) as [Hlen|Hlen]; cycle 1.
  { apply Hstop; [done..|]. intros c d H. exfalso.
    destruct l as [|x [|y l]]; [by apply adj_nil in H|by apply adj_single in H|]. rewrite !vlen_cons in Hlen. lia. }
  set (n := vlen l) in *. eapply (spends_weaken _ b (1024 * n + (n + bpe_cost (n - 1)))); [|unfold bpe_cost; nia|intros r Hr; exact Hr].
  eapply spends_bind; [by apply select_merge_spends|]. intros b1 [sel|] Hb1 _ Hsel; [|by apply Hstop; [..|apply Hsel]].
  destruct Hsel as ([|[Hadj Hrule]] & Hmin & _); [done|].
  eapply spends_bind; [by apply (apply_loop_spends sel l [])|]. intros b2 l' Hb2 _ ->. cbn [app].
  pose proof (merge_all_shrinks sel l Hadj) as Hshrink.
  eapply spends_weaken; [apply IH; [by apply HI|done|lia]| |done].
  unfold bpe_cost, vlen in *. apply N.mul_le_mono; [apply N.mul_le_mono_l|]; lia.
Qed.

Lemma run_bpe_spends ranks I l b : kept_by_merges ranks I -> I l -> budget_ok b ->
  spends (run_bpe l ranks) b (bpe_cost (vlen l)) (fun r => I r /\ ref_normal ranks r).
Proof. intros HI Hl Hb. by apply bpe_loop_spends. Qed.

(** With trained merges the loop follows the reference. *)
Lemma trained_kept ranks l0 : trained ranks -> kept_by_merges ranks (fun l => rtc (ref_step ranks) l0 l).
Proof.
  intros Htr l [k x y z] Hl Hrule Hmin. cbn [ms_rank] in Hmin. etrans; [exact Hl|].
  apply (merge_all_ref ranks x y k z Htr Hrule l []); [exact Hmin|].
  destruct l as [|u l]; [apply adj_nil|]. cbn [app take]. rewrite ?take_0. apply adj_single.
Qed.
