(* ===== verification/TokenizerProgram.v ===== *)
(** The constructed program is consistent: its byte tokens spell their bytes,
    every merge's result spells what its parts spell, ranks are in training
    order when the merges are, and the added tokens follow the vocabulary. *)
From S2P Require Import Prelude Bytes Tokenizer TokenizerBpe.
From stdpp Require Import gmap.
Local Open Scope N_scope.
Local Open Scope prog_scope.

(** ** The alphabet *)
(** A property of the integers below a bound, by evaluation. *)
Lemma below_by_evaluation (n : nat) (P : N -> Prop) {HP : forall i, Decision (P i)} :
  bool_decide (Forall P (N.of_nat <$> seq 0 n)) = true -> forall i, i < N.of_nat n -> P i.
Proof.
  intros H%bool_decide_eq_true i Hi. rewrite Forall_fmap, Forall_forall in H.
  specialize (H (N.to_nat i)). cbn in H. rewrite N2Nat.id in H. apply H, elem_of_seq. lia.
Qed.

Lemma byte_codepoint_roundtrip b :
  b < 256 -> unicode_codepoint_to_byte (byte_to_unicode_codepoint b) = Some b.
Proof.
  revert b. refine (below_by_evaluation 256 (fun b => unicode_codepoint_to_byte (byte_to_unicode_codepoint b) = Some b) _).
  vm_compute. reflexivity.
Qed.

Lemma codepoint_byte_bound c b : unicode_codepoint_to_byte c = Some b -> c < 324.
Proof.
  intros H. destruct (N.lt_ge_cases c 324) as [|Hc]; [done|]. unfold unicode_codepoint_to_byte in H.
  rewrite (proj2 (N.leb_gt c 255)), (proj2 (N.leb_gt c 288)), (proj2 (N.leb_gt c 322)), (proj2 (N.eqb_neq c 323)),
    !andb_false_r in H by lia. done.
Qed.

Lemma codepoint_byte_roundtrip c b :
  unicode_codepoint_to_byte c = Some b -> b < 256 /\ byte_to_unicode_codepoint b = c.
Proof.
  intros H. pose proof (codepoint_byte_bound c b H) as Hc. revert c Hc H.
  assert (Hall : forall c, c < 324 -> match unicode_codepoint_to_byte c with
      Some b => (b <? 256) && (byte_to_unicode_codepoint b =? c) | None => true end = true).
  { refine (below_by_evaluation 324 _ _). vm_compute. reflexivity. }
  intros c Hc H. specialize (Hall c Hc). rewrite H in Hall. apply andb_true_iff in Hall as [H1 H2].
  apply N.ltb_lt in H1. by apply N.eqb_eq in H2.
Qed.

Lemma byte_to_unicode_spec b : b < 256 -> byte_to_unicode b = Some (byte_to_unicode_codepoint b).
Proof.
  revert b. refine (below_by_evaluation 256 _ _). vm_compute. reflexivity.
Qed.

(** ** The id of a string is a position of it *)
Lemma collect_ids_spec voc : forall id ids r,
  collect_ids voc id ids = Ok r ->
  forall s i, r !! s = Some i -> ids !! s = Some i \/ (id <= i /\ vget voc (i - id) = Some s).
Proof.
  induction voc as [|t voc IH]; intros id ids r H s i Hs; cbn [collect_ids] in H.
  { injection H as <-. by left. }
  destruct (u32_max <? id); [done|]. destruct (IH _ _ _ H s i Hs) as [Hi|[Hi Hv]].
  - apply lookup_insert_Some in Hi as [[<- <-]|[_ Hi]]; [right|by left].
    split; [lia|]. by rewrite N.sub_diag.
  - right. split; [lia|]. replace (i - id) with (i - (id + 1) + 1) by lia.
    unfold vget in *. by replace (N.to_nat (i - (id + 1) + 1)) with (S (N.to_nat (i - (id + 1)))) by lia.
Qed.

Lemma collect_bytes_spec bytes ids : forall r,
  collect_bytes bytes ids = Ok r ->
  Forall2 (fun b t => exists c, byte_to_unicode b = Some c /\ ids !! [c] = Some t) bytes r.
Proof.
  induction bytes as [|b bytes IH]; intros r H; cbn [collect_bytes] in H; [injection H as <-; constructor|].
  destruct (byte_to_unicode b) as [c|] eqn:Hc; [|done]. destruct (ids !! [c]) as [t|] eqn:Ht; [|done].
  destruct (collect_bytes bytes ids) as [r'|]; [|done]. injection H as <-.
  constructor; [by exists c|by apply IH].
Qed.

Lemma token_bytes_spec s : forall r,
  token_bytes s = Ok r -> Forall2 (fun c b => unicode_to_byte c = Some b) s r.
Proof.
  induction s as [|c s IH]; intros r H; cbn [token_bytes] in H; [injection H as <-; constructor|].
  destruct (unicode_to_byte c) as [b|] eqn:Hc; [|done]. destruct (token_bytes s) as [r'|]; [|done].
  injection H as <-. constructor; [done|by apply IH].
Qed.

Lemma token_bytes_app s s' u u' : token_bytes s = Ok u -> token_bytes s' = Ok u' -> token_bytes (s ++ s') = Ok (u ++ u').
Proof.
  revert u. induction s as [|c s IH]; intros u H H'; cbn [token_bytes app] in *.
  { injection H as <-. done. }
  destruct (unicode_to_byte c); [|done]. destruct (token_bytes s) as [r|]; [|done].
  injection H as <-. by rewrite (IH r).
Qed.

Lemma collect_vocabulary_spec voc : forall r,
  collect_vocabulary voc = Ok r -> Forall2 (fun s u => token_bytes s = Ok u) voc r.
Proof.
  induction voc as [|s voc IH]; intros r H; cbn [collect_vocabulary] in H; [injection H as <-; constructor|].
  destruct (token_bytes s) as [u|] eqn:Hu; [|done]. destruct (collect_vocabulary voc) as [r'|]; [|done].
  injection H as <-. constructor; [done|by apply IH].
Qed.

(** ** Merges *)
Definition merge_origin (merges : list (list N * list N)) (ids : gmap (list N) N) (rank0 : N)
    (key rule : N * N) : Prop :=
  exists l r, rank0 <= rule.1 /\ vget merges (rule.1 - rank0) = Some (l, r) /\
    ids !! l = Some key.1 /\ ids !! r = Some key.2 /\ ids !! (l ++ r) = Some rule.2.

Lemma collect_merges_spec merges ids : forall rank ranks r,
  collect_merges merges ids rank ranks = Ok r ->
  forall key rule, r !! key = Some rule -> ranks !! key = Some rule \/ merge_origin merges ids rank key rule.
Proof.
  induction merges as [|[lhs rhs] merges IH]; intros rank ranks r H key rule Hr; cbn [collect_merges] in H.
  { injection H as <-. by left. }
  destruct (ids !! lhs) as [a|] eqn:Ha; [|done]. destruct (ids !! rhs) as [b|] eqn:Hb; [|done].
  destruct (checked_add _ _ _); [|done]. destruct (ids !! (lhs ++ rhs)) as [x|] eqn:Hx; [|done].
  destruct (IH _ _ _ H key rule Hr) as [Hi|(l & t & Hle & Hv & Hrest)].
  - apply lookup_insert_Some in Hi as [[<- <-]|[_ Hi]]; [right|by left].
    exists lhs, rhs. cbn [fst snd]. rewrite N.sub_diag. split_and?; try done; lia.
  - right. exists l, t. split; [lia|]. split; [|done]. replace (rule.1 - rank) with (rule.1 - (rank + 1) + 1) by lia.
    unfold vget in *. by replace (N.to_nat (rule.1 - (rank + 1) + 1)) with (S (N.to_nat (rule.1 - (rank + 1)))) by lia.
Qed.

(** A merge that uses another's result comes later in the list. *)
Definition training_order (merges : list (list N * list N)) : Prop :=
  forall i j l r l' r', vget merges i = Some (l, r) -> vget merges j = Some (l', r') ->
    l' = l ++ r \/ r' = l ++ r -> i < j.

(** ** Added tokens *)
Definition added_ok (added : list AddedTokenProgram) : Prop :=
  forall i a, vget added i = Some a ->
    at_token_id a = BASE_VOCABULARY_SIZE + i /\ (exists t, at_bytes a = 60 :: t) /\ Forall (fun b => b < 128) (at_bytes a).

Lemma collect_added_spec : exists added, collect_added ADDED_TOKENS 0 = Ok added /\ added_ok added /\ vlen added = 26.
Proof.
  eexists. split; [vm_compute; reflexivity|]. split; [|reflexivity].
  intros i a Ha. assert (Hi : i < 26) by (apply vget_Some_lt in Ha; exact Ha).
  assert (Hcase : exists k, i = N.of_nat k /\ (k < 26)%nat) by (exists (N.to_nat i); lia).
  destruct Hcase as (k & -> & Hk). unfold vget in Ha. rewrite Nat2N.id in Ha.
  do 26 (destruct k as [|k]; [cbn in Ha; injection Ha as <-; cbn [at_token_id at_bytes];
    split; [reflexivity|split; [by eexists|repeat constructor]]|]). lia.
Qed.

(** ** Consistency *)
Record consistent (p : TokenizerExecutionProgram) : Prop := {
  cs_byte b : b < 256 -> exists t, vget (byte_token_ids p) b = Some t /\ t < BASE_VOCABULARY_SIZE /\
    vget (vocabulary_bytes p) t = Some [b];
  cs_merge a b k x : merge_ranks p !! (a, b) = Some (k, x) ->
    x < BASE_VOCABULARY_SIZE /\ exists u v, vget (vocabulary_bytes p) a = Some u /\ vget (vocabulary_bytes p) b = Some v /\
      vget (vocabulary_bytes p) x = Some (u ++ v);
  cs_added : added_ok (added_tokens p)
}.

Section construction.
Context {Regex : Type} (Regex_new : list N -> option Regex) (voc : list (list N)) (merges : list (list N * list N)).
Context (tok : TokenizerProgram (Regex := Regex)).
Hypothesis Hnew : tokenizer_new Regex_new voc merges = Ok tok.

Lemma new_parts : exists ids added,
  collect_ids voc 0 ∅ = Ok ids /\
  collect_bytes (N.of_nat <$> seq 0 256) ids = Ok (byte_token_ids (execution tok)) /\
  collect_vocabulary voc = Ok (vocabulary_bytes (execution tok)) /\
  collect_merges merges ids 0 ∅ = Ok (merge_ranks (execution tok)) /\
  added_tokens (execution tok) = added /\ added_ok added /\ vlen added = 26.
Proof.
  destruct collect_added_spec as (added & Hadded & Hok & Hlen). unfold tokenizer_new in Hnew. rewrite Hadded in Hnew.
  destruct (collect_ids voc 0 ∅) as [ids|]; [|done]. destruct (collect_bytes _ ids) as [bt|] eqn:Hb; [|done].
  destruct (collect_vocabulary voc) as [vb|]; [|done]. destruct (collect_merges merges ids 0 ∅) as [mr|] eqn:Hm; [|done].
  destruct (Regex_new _); [|done]. injection Hnew as <-. cbn [execution]. exists ids, added. split_and?; try done; apply Hok.
Qed.

(** An id is in the vocabulary and its bytes are its string's. *)
Lemma id_spelling ids s i :
  collect_ids voc 0 ∅ = Ok ids -> collect_vocabulary voc = Ok (vocabulary_bytes (execution tok)) ->
  ids !! s = Some i -> i < vlen voc /\ exists u, token_bytes s = Ok u /\ vget (vocabulary_bytes (execution tok)) i = Some u.
Proof.
  intros Hids Hvoc Hs. destruct (collect_ids_spec _ _ _ _ Hids s i Hs) as [H|[_ H]]; [by rewrite lookup_empty in H|].
  rewrite N.sub_0_r in H. split; [by eapply vget_Some_lt|].
  pose proof (collect_vocabulary_spec _ _ Hvoc) as HF. unfold vget in H.
  destruct (Forall2_lookup_l _ _ _ _ _ HF H) as (u & Hu & Ht). by exists u.
Qed.

Lemma new_consistent : vlen voc <= BASE_VOCABULARY_SIZE -> consistent (execution tok).
Proof.
  intros Hlen. destruct new_parts as (ids & added & Hids & Hbytes & Hvoc & Hmerges & Hadded & Hok & _). split.
  - intros b Hb. pose proof (collect_bytes_spec _ _ _ Hbytes) as HF.
    assert (Hl : (N.of_nat <$> seq 0 256) !! N.to_nat b = Some b).
    { rewrite list_lookup_fmap, lookup_seq_lt by lia. cbn. f_equal. lia. }
    destruct (Forall2_lookup_l _ _ _ _ _ HF Hl) as (t & Ht & c & Hc & Hid).
    exists t. split; [exact Ht|]. destruct (id_spelling ids [c] t Hids Hvoc Hid) as (Htl & u & Hu & Hv).
    split; [lia|]. rewrite byte_to_unicode_spec in Hc by done. injection Hc as <-.
    cbn [token_bytes] in Hu. unfold unicode_to_byte in Hu. rewrite byte_codepoint_roundtrip in Hu by done.
    by injection Hu as <-.
  - intros a b k x Hr. destruct (collect_merges_spec _ _ _ _ _ Hmerges _ _ Hr) as [H|(l & r & _ & _ & Ha & Hb & Hx)];
      [discriminate H|]. cbn [fst snd] in *.
    destruct (id_spelling ids l a Hids Hvoc Ha) as (_ & u & Hu & Hua).
    destruct (id_spelling ids r b Hids Hvoc Hb) as (_ & v & Hv & Hvb).
    destruct (id_spelling ids (l ++ r) x Hids Hvoc Hx) as (Hxl & w & Hw & Hxw).
    rewrite (token_bytes_app _ _ _ _ Hu Hv) in Hw. injection Hw as <-.
    split; [lia|]. by exists u, v.
  - by rewrite Hadded.
Qed.

Lemma new_trained : training_order merges -> trained (merge_ranks (execution tok)).
Proof.
  intros Hord. destruct new_parts as (ids & added & Hids & _ & _ & Hmerges & _).
  assert (Horig : forall key rule, merge_ranks (execution tok) !! key = Some rule -> merge_origin merges ids 0 key rule).
  { intros key rule H. by destruct (collect_merges_spec _ _ _ _ _ Hmerges _ _ H) as [H'|]; [discriminate|]. }
  assert (Hinj : forall s s' i, ids !! s = Some i -> ids !! s' = Some i -> s = s').
  { intros s s' i Hs Hs'. destruct (collect_ids_spec _ _ _ _ Hids s i Hs) as [H|[_ H]]; [discriminate H|].
    destruct (collect_ids_spec _ _ _ _ Hids s' i Hs') as [H'|[_ H']]; [by rewrite lookup_empty in H'|]. congruence. }
  split.
  - intros p q r x y Hp Hq. destruct (Horig _ _ Hp) as (l & t & _ & Hv & H1 & H2 & _).
    destruct (Horig _ _ Hq) as (l' & t' & _ & Hv' & H1' & H2' & _). cbn [fst snd] in *.
    rewrite Hv in Hv'. injection Hv' as <- <-. destruct p, q; cbn in *; congruence.
  - intros a b k x c d r y Hab Hcd Huse. destruct (Horig _ _ Hab) as (l & t & _ & Hv & _ & _ & Hx).
    destruct (Horig _ _ Hcd) as (l' & t' & _ & Hv' & H1 & H2 & _). cbn [fst snd] in *. rewrite N.sub_0_r in Hv, Hv'.
    apply (Hord k r l t l' t' Hv Hv'). destruct Huse as [-> | ->]; [left|right]; by eapply Hinj.
Qed.
End construction.
