(* ===== verification/TokenizerText.v ===== *)
(** Encoding and decoding of whole texts: every byte of the input is spelled
    by the tokens, added tokens are found where they stand, and no slice is
    out of bounds or off a character boundary. *)
From S2P Require Import Prelude Bytes Tokenizer TokenizerBpe TokenizerProgram.
From stdpp Require Import gmap.
Local Open Scope N_scope.
Local Open Scope prog_scope.

(** ** UTF-8 *)

(** The bytes of a character. *)
Definition encode_utf8 (c : N) : list N :=
  if c <? 128 then [c]
  else if c <? 2048 then [192 + c / 64; 128 + c mod 64]
  else if c <? 65536 then [224 + c / 4096; 128 + (c / 64) mod 64; 128 + c mod 64]
  else [240 + c / 262144; 128 + (c / 4096) mod 64; 128 + (c / 64) mod 64; 128 + c mod 64].

Definition is_str (s : list N) : Prop := exists cs, Forall (fun c => c <= 1114111) cs /\ s = cs ≫= encode_utf8.

#[local] Ltac each_byte := repeat (apply Forall_cons; split; [lia|]); by apply Forall_nil.

(** The first byte of a character is no continuation byte, and an ASCII byte is
    a character. *)
Lemma encode_utf8_spec c : c <= 1114111 ->
  bytes_ok (encode_utf8 c) /\
  exists b t, encode_utf8 c = b :: t /\ ~ (128 <= b <= 191) /\ (b < 128 -> t = []) /\ Forall (fun x => 128 <= x) t.
Proof.
  intros Hc. unfold encode_utf8, bytes_ok, byte_ok.
  pose proof (N.mod_lt c 64 ltac:(lia)). pose proof (N.mod_lt (c / 64) 64 ltac:(lia)).
  pose proof (N.le_0_l (c / 64)). pose proof (N.le_0_l (c / 4096)). pose proof (N.le_0_l (c / 262144)).
  pose proof (N.le_0_l (c mod 64)). pose proof (N.le_0_l ((c / 64) mod 64)). pose proof (N.le_0_l ((c / 4096) mod 64)).
  pose proof (N.mod_lt (c / 4096) 64 ltac:(lia)).
  assert (c / 262144 < 5) by (apply N.Div0.div_lt_upper_bound; lia).
  destruct (N.ltb_spec c 128); [split; [each_byte|exists c, []; split_and?; [done|lia|done|constructor]]|].
  destruct (N.ltb_spec c 2048).
  { assert (c / 64 < 32) by (apply N.Div0.div_lt_upper_bound; lia).
    split; [each_byte|]. eexists _, _. split; [done|]. split_and?; [lia|intros; exfalso; lia|each_byte]. }
  destruct (N.ltb_spec c 65536).
  { assert (c / 4096 < 16) by (apply N.Div0.div_lt_upper_bound; lia).
    split; [each_byte|]. eexists _, _. split; [done|]. split_and?; [lia|intros; exfalso; lia|each_byte]. }
  split; [each_byte|]. eexists _, _. split; [done|]. split_and?; [lia|intros; exfalso; lia|each_byte].
Qed.

Lemma is_str_cases s : is_str s -> s = [] \/ exists b t s', s = b :: t ++ s' /\ is_str s' /\
  ~ (128 <= b <= 191) /\ (b < 128 -> t = []) /\ Forall (fun x => 128 <= x) t.
Proof.
  intros (cs & Hcs & ->). destruct Hcs as [|c cs Hc Hcs]; [by left|right].
  destruct (encode_utf8_spec c Hc) as (_ & b & t & Hb & H). exists b, t, (cs ≫= encode_utf8).
  cbn [mbind list_bind]. rewrite Hb. split; [done|]. split; [by exists cs|done].
Qed.

Lemma is_str_bytes s : is_str s -> bytes_ok s.
Proof.
  intros (cs & Hcs & ->). induction Hcs as [|c cs Hc _ IH]; [constructor|]. cbn [mbind list_bind].
  apply Forall_app. split; [by apply encode_utf8_spec|exact IH].
Qed.

(** Right after an ASCII byte a character starts. *)
Lemma ascii_then_boundary s i b c :
  is_str s -> s !! i = Some b -> b < 128 -> s !! S i = Some c -> ~ (128 <= c <= 191).
Proof.
  intros Hs. assert (Hlen : forall n s, (length s <= n)%nat -> is_str s -> forall i b c,
    s !! i = Some b -> b < 128 -> s !! S i = Some c -> ~ (128 <= c <= 191)); [|by eapply (Hlen (length s) s)].
  clear. induction n as [|n IH]; intros s Hn Hs i b c Hi Hb Hc; [by destruct s; [|simpl in Hn; lia]|].
  apply is_str_cases in Hs as [->|(x & t & s' & -> & Hs' & Hx & Hascii & Ht)]; [done|].
  destruct i as [|i].
  - injection Hi as ->. rewrite (Hascii Hb) in Hc. cbn in Hc.
    apply is_str_cases in Hs' as [->|(y & t' & s2 & -> & _ & Hy & _)]; [done|]. by injection Hc as ->.
  - change ((t ++ s') !! i = Some b) in Hi. change ((t ++ s') !! S i = Some c) in Hc.
    destruct (decide (i < length t)%nat) as [Hlt|Hge].
    { rewrite lookup_app_l in Hi by done. rewrite Forall_lookup in Ht. specialize (Ht _ _ Hi). cbn in Ht. lia. }
    rewrite lookup_app_r in Hi by lia.
    rewrite lookup_app_r in Hc by lia. replace (S i - length t)%nat with (S (i - length t)) in Hc by lia.
    apply (IH s' ltac:(cbn in Hn; rewrite length_app in Hn; lia) Hs' (i - length t)%nat b c Hi Hb Hc).
Qed.

(** ** Results *)
Definition resource_error (limits : TokenizerExecutionLimits) (e : TokenizerExecutionError) : Prop :=
  match e with
  | WorkLimit l => l = limit_work limits
  | TokenLimit l n => l = limit_tokens limits /\ l < n
  | NormalizedInputTooLarge l n => l = MAX_TOKENIZER_NORMALIZED_BYTES /\ l < n
  | _ => False
  end.

Section runs.
Context (limits : TokenizerExecutionLimits).

Definition runs {A} (m : M WorkBudget (result A TokenizerExecutionError)) (b : WorkBudget)
    (P : A -> Prop) (E : TokenizerExecutionError -> Prop) : Prop :=
  wp m b (fun b' r => budget_ok b' /\ limit b' = limit b /\
    match r with Ok a => P a | Err e => resource_error limits e \/ E e end).

Definition budget_for (b : WorkBudget) : Prop := budget_ok b /\ limit b = limit_work limits.

Lemma runs_ret {A} (r : result A TokenizerExecutionError) b (P : A -> Prop) E :
  budget_for b -> match r with Ok a => P a | Err e => resource_error limits e \/ E e end -> runs (ret r) b P E.
Proof. intros [Hb _] H. by apply wp_ret. Qed.

Lemma runs_spends {A} (m : M WorkBudget (result A TokenizerExecutionError)) b c (P : A -> Prop) E :
  budget_for b -> spends m b c P -> runs m b P E.
Proof.
  intros [Hb Hl] H. eapply wp_mono; [exact H|]. intros b' [a|e] (Hb' & Hl' & _ & H').
  - by destruct H'.
  - destruct H' as [-> _]. split; [done|]. split; [done|]. by left.
Qed.

Lemma runs_bind {A B} (m : M WorkBudget (result A TokenizerExecutionError))
    (k : A -> M WorkBudget (result B TokenizerExecutionError)) b (P : A -> Prop) (Q : B -> Prop) E :
  budget_for b -> runs m b P E -> (forall b' a, budget_for b' -> P a -> runs (k a) b' Q E) -> runs (try_bind m k) b Q E.
Proof.
  intros [Hb Hl] Hm Hk. apply wp_try_bind. eapply wp_mono; [exact Hm|]. intros b' [a|e] (Hb' & Hl' & H); [|done].
  eapply wp_mono; [apply Hk; [split; [done|congruence]|done]|]. intros b2 r (Hb2 & Hl2 & H2).
  split; [done|]. split; [congruence|done].
Qed.

Lemma runs_mono {A} (m : M WorkBudget (result A TokenizerExecutionError)) b (P P' : A -> Prop) (E E' : _ -> Prop) :
  runs m b P E -> (forall a, P a -> P' a) -> (forall e, E e -> E' e) -> runs m b P' E'.
Proof.
  intros H HP HE. eapply wp_mono; [exact H|]. intros b' [a|e] (Hb & Hl & H').
  - split_and?; auto.
  - split_and?; [done|done|]. destruct H'; auto.
Qed.

Lemma runs_charge amount b E : budget_for b -> runs (charge amount) b (fun _ => True) E.
Proof. intros Hb. eapply runs_spends; [done|]. apply spends_charge, Hb. Qed.

(** Charge, then go on. *)
Lemma runs_charged {B} amount (k : unit -> M WorkBudget (result B TokenizerExecutionError)) b (Q : B -> Prop) E :
  budget_for b -> (forall b', budget_for b' -> runs (k tt) b' Q E) -> runs (try_bind (charge amount) k) b Q E.
Proof. intros Hb Hk. eapply runs_bind; [done|by apply runs_charge|]. intros b' [] Hb' _. by apply Hk. Qed.

(** ** Pattern search *)
Definition occurs (input : list N) (start : N) (pattern : list N) : Prop :=
  pattern `prefix_of` drop (N.to_nat start) input.

#[export] Instance occurs_dec input start pattern : Decision (occurs input start pattern).
Proof. unfold occurs. apply _. Defined.

Lemma occurs_cons input p x y pattern :
  vget input p = Some y -> occurs input p (x :: pattern) <-> x = y /\ occurs input (p + 1) pattern.
Proof.
  intros Hy. unfold occurs, vget in *. rewrite (drop_S _ _ _ Hy).
  replace (N.to_nat (p + 1)) with (S (N.to_nat p)) by lia. split.
  - intros H. split; [by apply prefix_cons_inv_1 in H|by apply prefix_cons_inv_2 in H].
  - intros [-> H]. by apply prefix_cons.
Qed.

Lemma pattern_match_wp {S} input pattern : forall position (s : S),
  position + vlen pattern <= vlen input ->
  wp (match_loop input pattern position) s (fun s' r => s' = s /\ r = bool_decide (occurs input position pattern)).
Proof.
  induction pattern as [|x pattern IH]; intros position s Hlen; cbn [match_loop].
  { apply wp_ret. split; [done|]. symmetry. apply bool_decide_eq_true. apply prefix_nil. }
  rewrite vlen_cons in Hlen. destruct (vget_lt input position) as [y Hy]; [lia|].
  wp_step. eapply wp_slice_at; [exact Hy|].
  destruct (N.eqb_spec y x) as [->|Hne].
  - eapply wp_mono; [apply IH; lia|]. intros s' r [-> ->]. split; [done|].
    apply bool_decide_ext. rewrite (occurs_cons _ _ _ _ _ Hy). tauto.
  - apply wp_ret. split; [done|]. symmetry. apply bool_decide_eq_false. rewrite (occurs_cons _ _ _ _ _ Hy). naive_solver.
Qed.

Lemma bytes_match_at_wp {S} input start pattern (s : S) :
  start <= vlen input ->
  wp (bytes_match_at input start pattern) s (fun s' r => s' = s /\ r = bool_decide (occurs input start pattern)).
Proof.
  intros Hs. unfold bytes_match_at. wp_step. apply wp_sub_w; [done|].
  destruct (N.ltb_spec (vlen input - start) (vlen pattern)) as [H|H].
  - apply wp_ret. split; [done|]. symmetry. apply bool_decide_eq_false. intros Hp%prefix_length.
    rewrite length_drop in Hp. unfold vlen in *. lia.
  - apply pattern_match_wp. lia.
Qed.

(** Matching consumes no budget. *)
Lemma runs_match {B} input start pattern (k : bool -> M WorkBudget (result B TokenizerExecutionError)) b (Q : B -> Prop) E :
  start <= vlen input -> runs (k (bool_decide (occurs input start pattern))) b Q E ->
  runs (bind (bytes_match_at input start pattern) k) b Q E.
Proof. intros Hs Hk. apply wp_bind. eapply wp_mono; [by apply bytes_match_at_wp|]. by intros b' r [-> ->]. Qed.

Section added.
Context (input : list N) (added : list AddedTokenProgram).
Hypothesis Hadded : added_ok added.

Lemma added_at a : a ∈ added -> exists t, at_bytes a = 60 :: t.
Proof. intros [i Hi]%list_elem_of_lookup. apply (Hadded (N.of_nat i) a). unfold vget. by rewrite Nat2N.id. Qed.

Definition forbidden (e : TokenizerExecutionError) : Prop :=
  exists a start, a ∈ added /\ at_special a = true /\ occurs input start (at_bytes a) /\ e = SpecialTokenForbidden (at_token_id a).

Lemma reject_tokens_runs start l : forall b, budget_for b -> start <= vlen input -> (forall a, a ∈ l -> a ∈ added) ->
  runs (reject_tokens_loop input start l) b
    (fun _ => forall a, a ∈ l -> at_special a = true -> ~ occurs input start (at_bytes a)) forbidden.
Proof.
  induction l as [|a l IH]; intros b Hb Hs Hsub; cbn [reject_tokens_loop].
  { apply runs_ret; [done|]. by intros a ?%elem_of_nil. }
  assert (Hsub' : forall x, x ∈ l -> x ∈ added) by (intros x Hx; apply Hsub; by right).
  destruct (at_special a) eqn:Ha; cbn [negb].
  - apply runs_charged; [done|]. intros b1 Hb1. apply runs_match; [done|].
    destruct (bool_decide_reflect (occurs input start (at_bytes a))) as [Ho|Ho].
    + apply runs_ret; [done|]. right. exists a, start. split_and?; try done. apply Hsub. by left.
    + eapply runs_mono; [by apply IH| |done]. cbn. intros _ H x [->|Hx]%elem_of_cons; [done|by apply H].
  - eapply runs_mono; [by apply IH| |done]. cbn. intros _ H x [->|Hx]%elem_of_cons; [congruence|by apply H].
Qed.

Lemma no_occurrence_here start a y : vget input start = Some y -> y <> 60 -> a ∈ added -> ~ occurs input start (at_bytes a).
Proof.
  intros Hy Hne Ha Ho. destruct (added_at a Ha) as [t Ht]. rewrite Ht in Ho.
  apply (occurs_cons _ _ _ _ _ Hy) in Ho as [Ho _]. congruence.
Qed.

Lemma no_occurrence_beyond start a : vlen input <= start -> a ∈ added -> ~ occurs input start (at_bytes a).
Proof.
  intros Hs Ha Ho. destruct (added_at a Ha) as [t Ht]. unfold occurs in Ho. rewrite Ht in Ho.
  apply prefix_length in Ho. rewrite length_drop in Ho. unfold vlen in Hs. simpl in Ho. lia.
Qed.

Lemma reject_loop_runs fuel : forall start b, budget_for b -> (length input <= N.to_nat start + fuel)%nat ->
  runs (reject_loop fuel input start added) b
    (fun _ => forall a p, start <= p -> a ∈ added -> at_special a = true -> ~ occurs input p (at_bytes a)) forbidden.
Proof.
  assert (Hend : forall start b, budget_for b -> vlen input <= start ->
    runs (ret (Ok tt)) b (fun _ => forall a p, start <= p -> a ∈ added -> at_special a = true -> ~ occurs input p (at_bytes a)) forbidden).
  { intros start b Hb Hs. apply runs_ret; [done|]. intros a p Hp Ha _. apply no_occurrence_beyond; [lia|done]. }
  induction fuel as [|fuel IH]; intros start b Hb Hf; cbn [reject_loop];
    (destruct (N.ltb_spec start (vlen input)) as [Hlt|Hge]; [|by apply Hend]); [unfold vlen in Hlt; lia|].
  destruct (vget_lt input start Hlt) as [y Hy].
  assert (Hnext : forall b, budget_for b -> (forall a, a ∈ added -> at_special a = true -> ~ occurs input start (at_bytes a)) ->
    runs (reject_loop fuel input (start + 1) added) b
      (fun _ => forall a p, start <= p -> a ∈ added -> at_special a = true -> ~ occurs input p (at_bytes a)) forbidden).
  { intros b' Hb' Hhere. eapply runs_mono; [apply IH; [done|lia]| |done]. cbn. intros _ H a p Hp Ha Hsp.
    destruct (decide (p = start)) as [->|]; [by apply Hhere|apply H; [lia|done..]]. }
  apply runs_charged; [done|]. intros b1 Hb1. apply wp_bind. eapply wp_slice_at; [exact Hy|].
  destruct (N.eqb_spec y 60) as [->|Hne]; cbn [negb].
  - eapply runs_bind; [done|apply reject_tokens_runs; [done|lia|done]|]. intros b2 u Hb2 H. by apply Hnext.
  - apply Hnext; [done|]. intros a Ha _. by eapply no_occurrence_here.
Qed.

Lemma reject_runs b : budget_for b ->
  runs (reject_forbidden_special input added) b
    (fun _ => forall a p, a ∈ added -> at_special a = true -> ~ occurs input p (at_bytes a)) forbidden.
Proof.
  intros Hb. eapply runs_mono; [apply (reject_loop_runs (List.length input) 0 b Hb); lia| |done]. cbn. intros _ H a p. apply H. lia.
Qed.

(** ** The next added token *)
Definition found_at (m : AddedTokenMatch) : Prop :=
  exists a, vget added (am_offset m) = Some a /\ am_token_id m = at_token_id a /\ occurs input (am_start m) (at_bytes a) /\
    am_start m < vlen input.

Lemma best_added_runs start l : forall offset best pre b,
  budget_for b -> start < vlen input ->
  added = pre ++ l -> vlen pre = offset ->
  (forall m, best = Some m -> found_at m /\ am_start m = start /\ am_offset m < offset) ->
  runs (best_added_loop input start offset added l best) b
    (fun r => (r = None -> best = None /\ forall a, a ∈ l -> ~ occurs input start (at_bytes a)) /\
       forall m, r = Some m -> found_at m /\ am_start m = start) (fun _ => False).
Proof.
  induction l as [|a l IH]; intros offset best pre b Hb Hs Hsplit Hoff Hbest; cbn [best_added_loop].
  { apply runs_ret; [done|]. split; [intros ->; split; [done|by intros a ?%elem_of_nil]|]. intros m Hm. by destruct (Hbest m Hm) as (? & ? & _). }
  apply runs_charged; [done|]. intros b1 Hb1. apply runs_match; [lia|].
  assert (Hsplit' : added = (pre ++ [a]) ++ l) by (by rewrite <- app_assoc).
  assert (Hoff' : vlen (pre ++ [a]) = offset + 1) by (rewrite vlen_app, Hoff; done).
  destruct (bool_decide_reflect (occurs input start (at_bytes a))) as [Ho|Ho]; cbn [negb].
  - assert (Ha : vget added offset = Some a) by (rewrite Hsplit; by apply vget_mid).
    apply wp_bind. set (cand := mkAddedMatch start offset (at_token_id a)).
    assert (Hcand : found_at cand /\ am_start cand = start /\ am_offset cand < offset + 1).
    { split; [by exists a|]. cbn. split; [done|lia]. }
    assert (Hgo : forall (replace : bool), (best = None -> replace = true) ->
      runs (best_added_loop input start (offset + 1) added l (if replace then Some cand else best)) b1
        (fun r => (r = None -> best = None /\ forall a0, a0 ∈ a :: l -> ~ occurs input start (at_bytes a0)) /\
          forall m, r = Some m -> found_at m /\ am_start m = start) (fun _ => False)).
    { intros replace Hrep. eapply runs_mono; [apply (IH (offset + 1) _ (pre ++ [a]) b1 Hb1 Hs Hsplit' Hoff')| |done].
      - intros m Hm. destruct replace; [by injection Hm as <-|]. destruct (Hbest m Hm) as (? & ? & ?). split_and?; try done. lia.
      - cbn. intros r [HN HS]. split; [|done]. intros Hr. destruct (HN Hr) as [Hnone _].
        destruct replace; [done|]. by specialize (Hrep Hnone). }
    destruct best as [cur|].
    + destruct (Hbest cur eq_refl) as ((c & Hc & _) & _). apply wp_bind. eapply wp_slice_at; [exact Hc|]. apply wp_ret. by apply Hgo.
    + apply wp_ret. by apply (Hgo true).
  - eapply runs_mono; [apply (IH (offset + 1) best (pre ++ [a]) b1 Hb1 Hs Hsplit' Hoff')| |done].
    + intros m Hm. destruct (Hbest m Hm) as (? & ? & ?). split_and?; try done. lia.
    + cbn. intros r [HN HS]. split; [|done]. intros Hr. destruct (HN Hr) as [-> Hno]. split; [done|].
      intros x [->|Hx]%elem_of_cons; [done|by apply Hno].
Qed.

Lemma find_loop_runs fuel : forall start b, budget_for b -> (length input <= N.to_nat start + fuel)%nat ->
  runs (find_loop fuel input start added) b
    (fun r => (r = None -> forall a p, start <= p -> a ∈ added -> ~ occurs input p (at_bytes a)) /\
       forall m, r = Some m -> found_at m /\ start <= am_start m) (fun _ => False).
Proof.
  assert (Hend : forall start b, budget_for b -> vlen input <= start ->
    runs (ret (Ok (@None AddedTokenMatch))) b
    (fun r => (r = None -> forall a p, start <= p -> a ∈ added -> ~ occurs input p (at_bytes a)) /\
       forall m, r = Some m -> found_at m /\ start <= am_start m) (fun _ => False)).
  { intros start b Hb Hs. apply runs_ret; [done|]. split; [|done]. intros _ a p Hp Ha. apply no_occurrence_beyond; [lia|done]. }
  induction fuel as [|fuel IH]; intros start b Hb Hf; cbn [find_loop];
    (destruct (N.ltb_spec start (vlen input)) as [Hlt|Hge]; [|by apply Hend]); [unfold vlen in Hlt; lia|].
  destruct (vget_lt input start Hlt) as [y Hy].
  assert (Hnext : forall b, budget_for b -> (forall a, a ∈ added -> ~ occurs input start (at_bytes a)) ->
    runs (find_loop fuel input (start + 1) added) b
      (fun r => (r = None -> forall a p, start <= p -> a ∈ added -> ~ occurs input p (at_bytes a)) /\
       forall m, r = Some m -> found_at m /\ start <= am_start m) (fun _ => False)).
  { intros b' Hb' Hhere. eapply runs_mono; [apply IH; [done|lia]| |done]. cbn. intros r [HN HS]. split.
    - intros Hr a p Hp Ha. destruct (decide (p = start)) as [->|]; [by apply Hhere|apply HN; [done|lia|done]].
    - intros m Hm. destruct (HS m Hm). split; [done|lia]. }
  apply runs_charged; [done|]. intros b1 Hb1. apply wp_bind. eapply wp_slice_at; [exact Hy|].
  destruct (N.eqb_spec y 60) as [->|Hne].
  - eapply runs_bind; [done|apply (best_added_runs start added 0 None [] b1 Hb1 Hlt eq_refl eq_refl); done|].
    intros b2 r Hb2 [HN HS]. destruct r as [m|].
    + apply runs_ret; [done|]. split; [done|]. intros m' [= <-]. destruct (HS m eq_refl) as [? ->]. split; [done|lia].
    + apply Hnext; [done|]. by apply HN.
  - apply Hnext; [done|]. intros a Ha. by eapply no_occurrence_here.
Qed.
End added.
End runs.
