(* ===== verification/TokenizerSpell.v ===== *)
(** What tokens spell: merging and encoding keep the bytes, and decoding gives
    them back. *)
From S2P Require Import Prelude Bytes Tokenizer TokenizerBpe TokenizerProgram TokenizerText.
From stdpp Require Import gmap.
Local Open Scope N_scope.
Local Open Scope prog_scope.

Section spelling.
Context (p : TokenizerExecutionProgram).
Hypothesis Hp : consistent p.

(** The bytes of a token. *)
Definition token_word (id : N) : option (list N) :=
  if id <? BASE_VOCABULARY_SIZE then vget (vocabulary_bytes p) id
  else at_bytes <$> vget (added_tokens p) (id - BASE_VOCABULARY_SIZE).

Fixpoint spells (ids : list N) : option (list N) :=
  match ids with
  | [] => Some []
  | id :: ids' =>
      match token_word id, spells ids' with
      | Some w, Some u => Some (w ++ u)
      | _, _ => None
      end
  end.

Definition base_token (id : N) : Prop := id < BASE_VOCABULARY_SIZE.

Lemma spells_app l l' u u' : spells l = Some u -> spells l' = Some u' -> spells (l ++ l') = Some (u ++ u').
Proof.
  revert u. induction l as [|id l IH]; intros u H H'; cbn [spells app] in *; [injection H as <-; done|].
  destruct (token_word id) as [w|]; [|done]. destruct (spells l) as [v|]; [|done]. injection H as <-.
  by rewrite (IH v), app_assoc.
Qed.

Lemma base_word id : base_token id -> token_word id = vget (vocabulary_bytes p) id.
Proof. intros H. unfold token_word. by rewrite (proj2 (N.ltb_lt _ _)). Qed.

(** ** Merging *)
Lemma merge_all_spells sel l :
  rule_of (merge_ranks p) sel -> Forall base_token l ->
  Forall base_token (merge_all sel l) /\ spells (merge_all sel l) = spells l.
Proof.
  intros Hrule. unfold rule_of in Hrule. destruct (cs_merge p Hp _ _ _ _ Hrule) as (Hx & u & v & Hu & Hv & Hw).
  induction l as [|y|y z l IH1 IH2] using pair_ind; intros Hl; [done|done|].
  apply Forall_cons in Hl as [Hy Hl]. pose proof Hl as Hl'. apply Forall_cons in Hl as [Hz Hl].
  rewrite merge_all_cons. destruct (N.eqb_spec y (ms_left sel)) as [->|]; [destruct (N.eqb_spec z (ms_right sel)) as [->|]|]; cbn [andb].
  - destruct (IH1 Hl) as [H1 H2]. split; [by constructor|]. cbn [spells]. rewrite H2.
    rewrite !base_word by done. rewrite Hu, Hv, Hw. destruct (spells l); [by rewrite <- app_assoc|done].
  - destruct (IH2 Hl') as [H1 H2]. split; [by constructor|]. cbn [spells] in *. by rewrite H2.
  - destruct (IH2 Hl') as [H1 H2]. split; [by constructor|]. cbn [spells] in *. by rewrite H2.
Qed.

Lemma spelling_kept u : kept_by_merges (merge_ranks p) (fun l => Forall base_token l /\ spells l = Some u).
Proof. intros l sel [Hl Hu] Hrule _. destruct (merge_all_spells sel l Hrule Hl) as [H1 H2]. split; [done|congruence]. Qed.

Section encoding.
Context (limits : TokenizerExecutionLimits).

Lemma piece_symbols_runs piece : forall acc b,
  budget_for limits b -> bytes_ok piece ->
  runs limits (piece_symbols p piece acc) b (fun r => exists l, r = acc ++ l /\ Forall base_token l /\ spells l = Some piece) (fun _ => False).
Proof.
  induction piece as [|y piece IH]; intros acc b Hb Hok; cbn [piece_symbols].
  { apply runs_ret; [done|]. exists []. by rewrite app_nil_r. }
  apply Forall_cons in Hok as [Hy Hok]. apply runs_charged; [done|]. intros b1 Hb1.
  destruct (cs_byte p Hp y Hy) as (t & Ht & Hbase & Hv). apply wp_bind. eapply wp_slice_at; [exact Ht|].
  eapply runs_mono; [by apply IH| |done]. cbn. intros r (l & -> & Hl & Hs). exists (t :: l).
  rewrite <- app_assoc. split; [done|]. split; [by constructor|]. cbn [spells]. by rewrite base_word, Hv, Hs.
Qed.

(** Pushing stays within the token limit. *)
Lemma push_token_spec output token limit :
  vlen output <= limit -> limit < usize_max ->
  match push_token output token limit with
  | Ok output' => output' = output ++ [token] /\ vlen output' <= limit
  | Err e => exists n, e = TokenLimit limit n /\ limit < n
  end.
Proof.
  intros Ho Hl. unfold push_token, checked_add. destruct (N.leb_spec (vlen output + 1) usize_max).
  - destruct (N.ltb_spec limit (vlen output + 1)); [by eexists|]. split; [done|]. rewrite vlen_app, vlen_cons, vlen_nil. lia.
  - exists usize_max. split; [done|]. lia.
Qed.

Lemma push_tokens_spec merged : forall output,
  vlen output <= limit_tokens limits -> limit_tokens limits <= MAX_TOKENIZER_OUTPUT_TOKENS ->
  match push_tokens merged output (limit_tokens limits) with
  | Ok output' => output' = output ++ merged /\ vlen output' <= limit_tokens limits
  | Err e => resource_error limits e
  end.
Proof.
  induction merged as [|t merged IH]; intros output Ho Hl; cbn [push_tokens]; [by rewrite app_nil_r|].
  pose proof (push_token_spec output t (limit_tokens limits) Ho ltac:(unfold usize_max, u64_max, MAX_TOKENIZER_OUTPUT_TOKENS in *; lia)) as H.
  destruct (push_token _ _ _) as [o|e].
  - destruct H as [-> Hlen]. specialize (IH _ Hlen Hl). destruct (push_tokens _ _ _) as [o'|e]; [|done].
    destruct IH as [-> ?]. split; [by rewrite <- app_assoc|done].
  - destruct H as (n & -> & Hn). done.
Qed.

(** What encoding a text adds to the output. *)
Definition adds (output text output' : list N) : Prop :=
  exists l, output' = output ++ l /\ Forall base_token l /\ spells l = Some text /\ vlen output' <= limit_tokens limits.

Lemma adds_nil output : vlen output <= limit_tokens limits -> adds output [] output.
Proof. intros H. exists []. by rewrite app_nil_r. Qed.

Lemma adds_trans o1 o2 o3 t1 t2 : adds o1 t1 o2 -> adds o2 t2 o3 -> adds o1 (t1 ++ t2) o3.
Proof.
  intros (l1 & -> & H1 & S1 & _) (l2 & -> & H2 & S2 & L2). exists (l1 ++ l2). rewrite app_assoc. split; [done|].
  split; [by apply Forall_app|]. split; [by apply spells_app|]. done.
Qed.

Lemma encode_piece_runs piece output b :
  budget_for limits b -> bytes_ok piece -> vlen output <= limit_tokens limits -> limit_tokens limits <= MAX_TOKENIZER_OUTPUT_TOKENS ->
  runs limits (encode_piece p piece limits output) b (adds output piece) (fun _ => False).
Proof.
  intros Hb Hok Ho Hl. unfold encode_piece. eapply runs_bind; [done|by apply piece_symbols_runs|].
  intros b1 syms Hb1 (l & -> & Hbase & Hs). eapply runs_bind; [done| |].
  - eapply runs_spends; [done|]. apply (run_bpe_spends _ (fun l => Forall base_token l /\ spells l = Some piece));
      [apply spelling_kept|done|apply Hb1].
  - intros b2 merged Hb2 [[Hm1 Hm2] _]. apply runs_ret; [done|]. pose proof (push_tokens_spec merged output Ho Hl) as H.
    destruct (push_tokens _ _ _) as [o|e]; [|by left]. destruct H as [-> ?]. by exists merged.
Qed.
End encoding.

(** ** Decoding *)
Lemma push_byte_spec output byte limit :
  match push_byte output byte limit with
  | Ok output' => output' = output ++ [byte] /\ vlen output' <= limit
  | Err e => e = OutputByteLimit limit /\ limit < vlen output + 1
  end.
Proof.
  unfold push_byte. destruct (N.leb_spec limit (vlen output)); [split; [done|lia]|].
  split; [done|]. rewrite vlen_app, vlen_cons, vlen_nil. lia.
Qed.

(** With room for the bytes and the work, decoding goes through. *)
Lemma append_decoded_wp bytes : forall output limit b, budget_ok b ->
  vlen output + vlen bytes <= limit -> used b + vlen bytes <= Tokenizer.limit b ->
  wp (append_decoded_bytes bytes output limit) b (fun b' r => r = Ok (output ++ bytes) /\ budget_ok b' /\
    Tokenizer.limit b' = Tokenizer.limit b /\ used b' = used b + vlen bytes).
Proof.
  induction bytes as [|y bytes IH]; intros output limit b Hb Ho Hw; cbn [append_decoded_bytes].
  { apply wp_ret. rewrite app_nil_r, vlen_nil, N.add_0_r. done. }
  rewrite vlen_cons in Ho, Hw. wp_step. apply charge_wp; [done|intros H|intros H; lia].
  wp_step. apply wp_ret. pose proof (push_byte_spec output y limit) as Hp'. destruct (push_byte _ _ _) as [o|e].
  - destruct Hp' as [-> _]. destruct Hb. eapply wp_mono; [apply IH|].
    + unfold budget_ok. cbn. lia.
    + rewrite vlen_app, vlen_cons, vlen_nil. lia.
    + cbn. lia.
    + cbn. intros b' r (-> & Hb' & Hl & Hu). rewrite <- app_assoc. split_and?; try done. rewrite vlen_cons. lia.
  - destruct Hp' as [_ Hp']. lia.
Qed.

Lemma decode_loop_wp limits ids : forall output text b, budget_ok b ->
  spells ids = Some text -> vlen output + vlen text <= limit_output_bytes limits ->
  used b + vlen ids + vlen text <= Tokenizer.limit b ->
  wp (decode_loop p ids limits Preserve output) b (fun _ r => r = Ok (output ++ text)).
Proof.
  induction ids as [|id ids IH]; intros output text b Hb Hs Ho Hw; cbn [decode_loop spells] in *.
  { injection Hs as <-. apply wp_ret. by rewrite app_nil_r. }
  rewrite vlen_cons in Hw. destruct (token_word id) as [w|] eqn:Hword; [|done]. destruct (spells ids) as [u|] eqn:Hu; [|done].
  injection Hs as <-. rewrite vlen_app in Ho, Hw. unfold token_word in Hword.
  assert (Hgo : forall b1, budget_ok b1 -> used b1 = used b + 1 -> Tokenizer.limit b1 = Tokenizer.limit b ->
    wp (let? output' := append_decoded_bytes w output (limit_output_bytes limits) in decode_loop p ids limits Preserve output') b1
      (fun _ r => r = Ok (output ++ w ++ u))).
  { intros b1 Hb1 Hu1 Hl1. wp_step. eapply wp_mono; [apply append_decoded_wp; [done|lia|lia]|].
    intros b2 r (-> & Hb2 & Hl2 & Hu2). rewrite app_assoc. apply IH; [done|done|rewrite vlen_app; lia|lia]. }
  wp_step. apply charge_wp; [done|intros H|intros H; lia].
  assert (Hb1 : budget_ok (mkBudget (used b + 1) (Tokenizer.limit b))) by (destruct Hb; unfold budget_ok; cbn; lia).
  destruct (id <? BASE_VOCABULARY_SIZE).
  - rewrite Hword. by apply Hgo.
  - destruct (vget (added_tokens p) (id - BASE_VOCABULARY_SIZE)) as [a|]; [|done]. cbn in Hword. injection Hword as ->. by apply Hgo.
Qed.
End spelling.
