(* ===== verification/TokenizerTheorems.v ===== *)
(** The tokenizer's theorems: merging is the reference merging and ends,
    encoding never fails but on its declared limits and policy, and decoding
    gives back every encoded text byte for byte. *)
From S2P Require Import Prelude Bytes Tokenizer TokenizerBpe TokenizerProgram TokenizerText TokenizerSpell.
From stdpp Require Import gmap relations.
Local Open Scope N_scope.
Local Open Scope prog_scope.

(** Matches in order, without overlap, in bounds. *)
Fixpoint spans_ok (previous : N) (spans : list (N * N)) (len : N) : Prop :=
  match spans with
  | [] => previous <= len
  | (start, end_) :: spans' => previous <= start <= end_ /\ end_ <= len /\ spans_ok end_ spans' len
  end.

Section text.
Context {Regex : Type} (find_iter : Regex -> list N -> list (N * N)) (nfc : list N -> list (list N)).
Context (tok : TokenizerProgram (Regex := Regex)) (limits : TokenizerExecutionLimits).
Let p := execution tok.
Hypothesis Hp : consistent p.
Hypothesis Hlimits : limit_tokens limits <= MAX_TOKENIZER_OUTPUT_TOKENS.
Hypothesis Hwork : limit_work limits <= MAX_TOKENIZER_WORK.
(** [find_iter] yields the matches of a text in order. *)
Hypothesis Hspans : forall r s, spans_ok 0 (find_iter r s) (vlen s).

Lemma spans_le spans : forall previous len, spans_ok previous spans len -> previous <= len.
Proof. induction spans as [|[s e] spans IH]; intros previous len H; [done|]. destruct H as (H1 & H2 & _). lia. Qed.

Lemma charge_to_runs {B} end_ previous (k : unit -> M WorkBudget (result B TokenizerExecutionError)) b (Q : B -> Prop) E :
  previous <= end_ -> budget_for limits b -> (forall b', budget_for limits b' -> runs limits (k tt) b' Q E) ->
  runs limits (try_bind (charge_to end_ previous) k) b Q E.
Proof.
  intros Hle Hb Hk. unfold charge_to, checked_sub. rewrite (proj2 (N.leb_le _ _) Hle). by apply runs_charged.
Qed.

Lemma split_loop_runs text spans : forall previous output b,
  bytes_ok text -> spans_ok previous spans (vlen text) -> budget_for limits b -> vlen output <= limit_tokens limits ->
  runs limits (split_loop tok spans text limits previous output) b
    (fun r => previous <= r.1 <= vlen text /\ adds p limits output (subslice text previous r.1) r.2) (fun _ => False).
Proof.
  induction spans as [|[s e] spans IH]; intros previous output b Hok Hsp Hb Ho; cbn [split_loop].
  { apply runs_ret; [done|]. cbn. split; [split; [lia|exact Hsp]|]. unfold subslice. rewrite N.sub_diag. by apply adds_nil. }
  destruct Hsp as ([H1 H2] & H3 & Hsp). pose proof (spans_le _ _ _ Hsp) as H4.
  assert (Hrest : forall o b, budget_for limits b -> adds p limits output (subslice text previous s) o ->
    runs limits (let! piece := slice_range text s e in
                 let? output := encode_piece p piece limits o in split_loop tok spans text limits e output) b
      (fun r => previous <= r.1 <= vlen text /\ adds p limits output (subslice text previous r.1) r.2) (fun _ => False)).
  { intros o b' Hb' Hadd. apply wp_bind. apply wp_slice_range; [done|done|]. eapply runs_bind; [done| |].
    - apply (encode_piece_runs p Hp); [done|by apply Forall_subslice|by destruct Hadd as (? & _ & _ & _ & ?)|done].
    - intros b2 o2 Hb2 Hadd2. eapply runs_mono; [apply IH; [done|done|done|by destruct Hadd2 as (? & _ & _ & _ & ?)]| |done].
      intros r [Hr Hadd3]. split; [lia|]. rewrite <- (subslice_app text previous e), <- (subslice_app text previous s e) by lia.
      eapply adds_trans; [eapply adds_trans; [exact Hadd|exact Hadd2]|exact Hadd3]. }
  apply charge_to_runs; [lia|done|]. intros b1 Hb1.
  destruct (N.eqb_spec previous s) as [->|Hne]; cbn [negb].
  - eapply (runs_bind _ _ _ _ (fun o => o = output)); [done|by apply runs_ret|]. intros b2 o Hb2 ->. apply Hrest; [done|].
    unfold subslice. rewrite N.sub_diag. by apply adds_nil.
  - eapply (runs_bind _ _ _ _ (adds p limits output (subslice text previous s))); [done| |].
    + apply wp_bind. apply wp_slice_range; [done|lia|]. apply (encode_piece_runs p Hp); [done|by apply Forall_subslice|done|done].
    + intros b2 o Hb2 Hadd. by apply Hrest.
Qed.

Lemma normalize_loop_runs symbols : forall acc b,
  budget_for limits b -> vlen acc <= MAX_TOKENIZER_NORMALIZED_BYTES -> Forall (fun c => vlen c <= 4) symbols ->
  runs limits (normalize_loop symbols acc) b (fun r => r = acc ++ concat symbols) (fun _ => False).
Proof.
  induction symbols as [|s symbols IH]; intros acc b Hb Hacc Hs; cbn [normalize_loop concat].
  { apply runs_ret; [done|]. by rewrite app_nil_r. }
  apply Forall_cons in Hs as [Hs Hss]. apply runs_charged; [done|]. intros b1 Hb1. unfold checked_add.
  rewrite (proj2 (N.leb_le _ _)) by (unfold MAX_TOKENIZER_NORMALIZED_BYTES, usize_max, u64_max in *; lia).
  destruct (N.ltb_spec MAX_TOKENIZER_NORMALIZED_BYTES (vlen acc + vlen s)).
  - apply runs_ret; [done|]. by left.
  - eapply runs_mono; [apply IH; [done|by rewrite vlen_app|done]| |done]. intros r ->. by rewrite app_assoc.
Qed.

(** [nfc] yields characters, and leaves the slices of this input alone. *)
Hypothesis Hnfc : forall s, Forall (fun c => vlen c <= 4) (nfc s).
Context (input : list N).
Hypothesis Hnormal : forall i j, concat (nfc (subslice input i j)) = subslice input i j.
Hypothesis Hstr : is_str input.
Hypothesis Hinput : vlen input <= MAX_TOKENIZER_INPUT_BYTES.

Lemma encode_normal_text_runs i j output b :
  budget_for limits b -> vlen output <= limit_tokens limits ->
  runs limits (encode_normal_text find_iter nfc tok (subslice input i j) limits output) b
    (adds p limits output (subslice input i j)) (fun _ => False).
Proof.
  intros Hb Ho. set (text := subslice input i j). unfold encode_normal_text.
  assert (Hok : bytes_ok text) by (apply Forall_subslice, is_str_bytes, Hstr).
  eapply runs_bind; [done|apply (normalize_loop_runs _ [])|]; [done|done|apply Hnfc|].
  intros b1 norm Hb1 ->. cbn [app]. unfold text. rewrite Hnormal. fold text.
  eapply runs_bind; [done|by apply split_loop_runs|]. intros b2 [previous o] Hb2 [[_ Hle] Hadd]. cbn [fst snd] in *.
  destruct (N.eqb_spec previous (vlen text)) as [->|Hne]; cbn [negb].
  - apply runs_ret; [done|]. by rewrite subslice_all in Hadd.
  - apply charge_to_runs; [done|done|]. intros b3 Hb3. apply wp_bind. apply wp_slice_range; [done|done|].
    eapply runs_mono; [apply (encode_piece_runs p Hp limits)| |done].
    + done.
    + by apply Forall_subslice.
    + by destruct Hadd as (? & _ & _ & _ & ?).
    + done.
    + intros o2 Hadd2. rewrite <- (subslice_all text), <- (subslice_app text 0 previous) by lia. by eapply adds_trans.
Qed.

(** ** Whole texts *)
Context (policy : SpecialTokenEncodePolicy).

(** A token of the vocabulary, or an added one the policy lets through. *)
Definition allowed (id : N) : Prop :=
  base_token id \/ exists a, a ∈ added_tokens p /\ id = at_token_id a /\ (policy = Reject -> at_special a = false).

Definition encoded (text output : list N) : Prop :=
  spells p output = Some text /\ Forall allowed output /\ vlen output <= limit_tokens limits.

Lemma encoded_adds text output text' output' : encoded text output -> adds p limits output text' output' -> encoded (text ++ text') output'.
Proof.
  intros (Hs & Ha & _) (l & -> & Hl & Hs' & Hlen). split; [by apply spells_app|]. split; [|done].
  apply Forall_app. split; [done|]. eapply Forall_impl; [exact Hl|]. intros id Hid. by left.
Qed.

Lemma occurs_slice start pattern :
  occurs input start pattern -> start <= vlen input ->
  start + vlen pattern <= vlen input /\ subslice input start (start + vlen pattern) = pattern.
Proof.
  intros [k Hk] Hs. assert (Hlen : length (drop (N.to_nat start) input) = (length pattern + length k)%nat) by (by rewrite Hk, length_app).
  rewrite length_drop in Hlen. unfold vlen in *. split; [lia|]. unfold subslice. rewrite Hk.
  replace (N.to_nat _) with (length pattern) by lia. apply take_app_length.
Qed.

(** The start of an added token and the place after it are boundaries. *)
Lemma found_boundaries m a :
  vget (added_tokens p) (am_offset m) = Some a -> occurs input (am_start m) (at_bytes a) -> am_start m < vlen input ->
  is_char_boundary input (am_start m) = true /\ is_char_boundary input (am_start m + vlen (at_bytes a)) = true /\
  0 < vlen (at_bytes a).
Proof.
  intros Ha Ho Hlt. destruct (cs_added p Hp _ _ Ha) as (_ & (t & Ht) & Hascii).
  destruct (vget_lt input (am_start m) Hlt) as [y Hy]. pose proof Ho as Ho'. rewrite Ht in Ho'.
  apply (occurs_cons _ _ _ _ _ Hy) in Ho' as [<- _].
  destruct (occurs_slice _ _ Ho ltac:(lia)) as [Hend Hslice]. split; [|split].
  - unfold is_char_boundary. rewrite Hy. by rewrite !orb_true_r.
  - unfold is_char_boundary. destruct (N.eqb_spec (am_start m + vlen (at_bytes a)) (vlen input)) as [|Hne]; [by rewrite orb_true_r|].
    destruct (vget_lt input (am_start m + vlen (at_bytes a))) as [c Hc]; [lia|]. rewrite Hc.
    assert (Hl : at_bytes a !! (length (at_bytes a) - 1)%nat = Some (List.last (at_bytes a) 0)).
    { rewrite Ht. clear. generalize 60. induction t as [|x t IH]; intros y; [done|]. specialize (IH x). cbn in *.
      rewrite Nat.sub_0_r in *. by destruct t. }
    set (x := List.last (at_bytes a) 0) in *. assert (Hx : x < 128) by (rewrite Forall_lookup in Hascii; by apply (Hascii _ _ Hl)).
    assert (Hin : input !! (N.to_nat (am_start m) + (length (at_bytes a) - 1))%nat = Some x).
    { rewrite <- lookup_drop. destruct Ho as [k ->]. rewrite lookup_app_l; [done|]. apply lookup_lt_Some in Hl. lia. }
    assert (Hnext : input !! S (N.to_nat (am_start m) + (length (at_bytes a) - 1))%nat = Some c).
    { unfold vget, vlen in Hc. replace (S _) with (N.to_nat (am_start m + N.of_nat (length (at_bytes a)))); [done|].
      rewrite Ht. simpl. lia. }
    pose proof (ascii_then_boundary _ _ _ _ Hstr Hin Hx Hnext) as Hb.
    destruct (N.leb_spec 128 c), (N.leb_spec c 191); cbn [andb negb]; rewrite ?orb_true_r; try done. lia.
  - rewrite Ht, vlen_cons. lia.
Qed.

Lemma encode_loop_runs (Hclean : policy = Reject -> forall a q, a ∈ added_tokens p -> at_special a = true -> ~ occurs input q (at_bytes a))
    fuel : forall cursor output b,
  budget_for limits b -> cursor <= vlen input -> (length input <= N.to_nat cursor + fuel)%nat ->
  is_char_boundary input cursor = true -> encoded (subslice input 0 cursor) output ->
  runs limits (encode_loop find_iter nfc tok fuel input limits policy cursor output) b (encoded input) (fun _ => False).
Proof.
  assert (Hend : forall cursor output b, budget_for limits b -> cursor <= vlen input -> vlen input <= cursor ->
    encoded (subslice input 0 cursor) output -> runs limits (ret (Ok output)) b (encoded input) (fun _ => False)).
  { intros cursor output b Hb H1 H2 Henc. apply runs_ret; [done|]. replace cursor with (vlen input) in Henc by lia. by rewrite subslice_all in Henc. }
  induction fuel as [|fuel IH]; intros cursor output b Hb Hcur Hf Hbound Henc; cbn [encode_loop];
    (destruct (N.ltb_spec cursor (vlen input)) as [Hlt|Hge]; [|by eapply Hend]); [unfold vlen in Hlt; lia|].
  fold p. eapply runs_bind; [done|apply (find_loop_runs limits input _ (cs_added p Hp) (List.length input) cursor b Hb); lia|].
  intros b1 next Hb1 [_ Hnext]. set (stop := match next with Some m => am_start m | None => vlen input end).
  assert (Hstop : cursor <= stop <= vlen input /\ is_char_boundary input stop = true).
  { destruct next as [m|]; cbn in *.
    - destruct (Hnext m eq_refl) as ((a & Ha & _ & Ho & Hs) & Hle). split; [lia|]. by eapply found_boundaries.
    - split; [lia|]. unfold is_char_boundary. by rewrite N.eqb_refl, orb_true_r. }
  destruct Hstop as [Hstop Hbstop]. apply wp_bind. unfold str_slice. rewrite Hbound, Hbstop. cbn [andb].
  apply wp_slice_range; [lia|lia|]. eapply runs_bind; [done|apply encode_normal_text_runs; [done|apply Henc]|].
  intros b2 out Hb2 Hadd. pose proof (encoded_adds _ _ _ _ Henc Hadd) as Henc2. rewrite subslice_app in Henc2 by lia.
  destruct next as [m|]; cbn in stop; cycle 1.
  { apply runs_ret; [done|]. unfold stop in Henc2. by rewrite subslice_all in Henc2. }
  destruct (Hnext m eq_refl) as ((a & Ha & _ & Ho & Hs) & Hle). unfold stop in *.
  destruct (found_boundaries m a Ha Ho Hs) as (_ & Hbnext & Hpos). destruct (occurs_slice _ _ Ho ltac:(lia)) as [Hroom Hslice].
  assert (Hin : a ∈ added_tokens p) by (unfold vget in Ha; by eapply list_elem_of_lookup_2).
  apply wp_bind. eapply wp_slice_at; [exact Ha|].
  eapply (runs_bind _ _ _ _ (fun r => r.2 = vlen (at_bytes a) /\ encoded (subslice input 0 (am_start m + vlen (at_bytes a))) r.1)); [done| |].
  - apply runs_ret; [done|]. unfold emit_added_token.
    pose proof (push_token_spec out (at_token_id a) (limit_tokens limits) ltac:(apply Henc2)
      ltac:(unfold usize_max, u64_max, MAX_TOKENIZER_OUTPUT_TOKENS in *; lia)) as Hpush.
    assert (Hallow : policy = Reject -> at_special a = false).
    { intros Hrej. destruct (at_special a) eqn:Esp; [|done]. by destruct (Hclean Hrej a (am_start m) Hin Esp). }
    assert (Hemit : match (match push_token out (at_token_id a) (limit_tokens limits) with
        | Ok output' => Ok (output', vlen (at_bytes a)) | Err error => Err error end) with
      | Ok r => r.2 = vlen (at_bytes a) /\ encoded (subslice input 0 (am_start m + vlen (at_bytes a))) r.1
      | Err e => resource_error limits e \/ False end).
    { destruct (push_token _ _ _) as [o|e]; [|by left; destruct Hpush as (n & -> & ?)]. destruct Hpush as [-> Hlen].
      split; [done|]. cbn [fst]. destruct Henc2 as (Hsp & Hal & _). split; [|split; [|done]].
      - rewrite <- (subslice_app input 0 (am_start m)), Hslice by lia. apply spells_app; [done|]. cbn [spells].
        unfold token_word. destruct (cs_added p Hp _ _ Ha) as (-> & _). rewrite (proj2 (N.ltb_ge _ _)) by lia.
        replace (BASE_VOCABULARY_SIZE + am_offset m - BASE_VOCABULARY_SIZE) with (am_offset m) by lia.
        rewrite Ha. cbn. by rewrite app_nil_r.
      - apply Forall_app. split; [done|]. constructor; [|constructor]. right. by exists a. }
    destruct policy; [|exact Hemit]. rewrite (Hallow eq_refl). exact Hemit.
  - intros b3 [o len] Hb3 [Hlen Henc3]. cbn [fst snd] in *. subst len. unfold checked_add.
    rewrite (proj2 (N.leb_le _ _)) by (unfold usize_max, u64_max, MAX_TOKENIZER_INPUT_BYTES in *; lia).
    apply IH; [done|lia|lia|done|done].
Qed.

Lemma allowed_special a id : policy = Reject -> a ∈ added_tokens p -> at_special a = true -> allowed id -> id <> at_token_id a.
Proof.
  clear Hlimits Hwork Hinput. intros Hrej [i Hi]%list_elem_of_lookup Hsp Hid ->. assert (Hi' : vget (added_tokens p) (N.of_nat i) = Some a) by (unfold vget; by rewrite Nat2N.id).
  destruct (cs_added p Hp _ _ Hi') as (Hida & _). destruct Hid as [Hbase|(a' & [i' Hj]%list_elem_of_lookup & Heq & Hns)].
  - unfold base_token in Hbase. rewrite Hida in Hbase. lia.
  - assert (Hj' : vget (added_tokens p) (N.of_nat i') = Some a') by (unfold vget; by rewrite Nat2N.id).
    destruct (cs_added p Hp _ _ Hj') as (Hida' & _). assert (i = i') as -> by lia. rewrite Hi in Hj. injection Hj as ->.
    rewrite (Hns Hrej) in Hsp. done.
Qed.

(** ** Encoding *)
Definition encode_error (e : TokenizerExecutionError) : Prop :=
  e = InvalidLimits \/ (limit_input_bytes limits < vlen input /\ e = InputTooLarge (limit_input_bytes limits) (vlen input)) \/
  resource_error limits e \/ (policy = Reject /\ forbidden input (added_tokens p) e).

Lemma encode_wp {S} (s : S) :
  wp (Tokenizer.encode find_iter nfc tok input limits policy) s (fun s' r => s' = s /\
    match r with Ok ids => encoded input ids | Err e => encode_error e end).
Proof.
  unfold Tokenizer.encode. destruct (validate limits) as [[]|e] eqn:Hv; cycle 1.
  { apply wp_ret. split; [done|]. left. unfold validate in Hv. destruct (_ || _); [by injection Hv|done]. }
  destruct (N.ltb_spec (limit_input_bytes limits) (vlen input)); [apply wp_ret; split; [done|]; by right; left|].
  apply wp_zoom. assert (Hb : budget_for limits (budget_new (limit_work limits))).
  { split; [|done]. unfold budget_ok. cbn. unfold MAX_TOKENIZER_WORK, usize_max, u64_max in *. lia. }
  set (m := try_bind _ _). cut (runs limits m (budget_new (limit_work limits)) (encoded input)
    (fun e => policy = Reject /\ forbidden input (added_tokens p) e)).
  { intros Hm. eapply wp_mono; [exact Hm|]. intros b' [ids|e] (_ & _ & H'); (split; [done|]); [done|]. right; right. exact H'. }
  unfold m. fold p. eapply (runs_bind _ _ _ _ (fun _ => policy = Reject -> forall a q, a ∈ added_tokens p -> at_special a = true -> ~ occurs input q (at_bytes a))); [done| |].
  - destruct policy.
    + eapply runs_mono; [apply (reject_runs limits input _ (cs_added p Hp) _ Hb)| |]; cbn; [auto|auto].
    + apply runs_ret; [done|]. done.
  - intros b1 u Hb1 Hclean. eapply runs_mono; [apply (encode_loop_runs Hclean)| |]; cbn; [done|lia|lia| | |done|done].
    + unfold is_char_boundary. done.
    + unfold subslice. cbn. split; [done|]. split; [constructor|]. rewrite vlen_nil. lia.
Qed.
End text.

(** ** The claims *)
Lemma validate_ok limits : validate limits = Ok tt ->
  limit_input_bytes limits <= MAX_TOKENIZER_INPUT_BYTES /\ limit_tokens limits <= MAX_TOKENIZER_OUTPUT_TOKENS /\
  limit_work limits <= MAX_TOKENIZER_WORK.
Proof.
  unfold validate. destruct (_ || _) eqn:E; [done|]. intros _. rewrite !orb_false_iff, !N.ltb_ge in E. tauto.
Qed.

(** What the external functions promise. *)
Record text_support {Regex} (find_iter : Regex -> list N -> list (N * N)) (nfc : list N -> list (list N)) : Prop := {
  ts_spans r s : spans_ok 0 (find_iter r s) (vlen s);
  ts_chars s : Forall (fun c => vlen c <= 4) (nfc s)
}.

(** A text in normal form, of which every slice is in normal form. *)
Record normal_text (nfc : list N -> list (list N)) (input : list N) : Prop := {
  nt_str : is_str input;
  nt_normal i j : concat (nfc (subslice input i j)) = subslice input i j
}.

Section claims.
Context {Regex : Type} (Regex_new : list N -> option Regex) (find_iter : Regex -> list N -> list (N * N)) (nfc : list N -> list (list N)).
Context (voc : list (list N)) (merges : list (list N * list N)) (tok : TokenizerProgram (Regex := Regex)).
Hypothesis Hsupport : text_support find_iter nfc.
Hypothesis Hnew : tokenizer_new Regex_new voc merges = Ok tok.
Hypothesis Hvoc : vlen voc <= BASE_VOCABULARY_SIZE.

Lemma encode_total_wp {S} input limits policy (s : S) :
  normal_text nfc input ->
  wp (Tokenizer.encode find_iter nfc tok input limits policy) s (fun s' r => s' = s /\
    match r with
    | Ok ids => encoded tok limits policy input ids /\ limit_tokens limits <= MAX_TOKENIZER_OUTPUT_TOKENS /\
        vlen input <= MAX_TOKENIZER_INPUT_BYTES
    | Err e => encode_error tok limits input policy e
    end).
Proof.
  intros [Hstr Hnormal]. pose proof (new_consistent Regex_new voc merges tok Hnew Hvoc) as Hp.
  destruct (validate limits) as [[]|e] eqn:Hv; cycle 1.
  { unfold Tokenizer.encode. rewrite Hv. apply wp_ret. split; [done|]. left. unfold validate in Hv.
    destruct (_ || _); [by injection Hv|done]. }
  destruct (validate_ok limits Hv) as (H1 & H2 & H3). destruct (N.ltb_spec (limit_input_bytes limits) (vlen input)) as [Hlt|Hge].
  { unfold Tokenizer.encode. rewrite Hv, (proj2 (N.ltb_lt _ _) Hlt). apply wp_ret. split; [done|]. by right; left. }
  eapply wp_mono; [apply (encode_wp find_iter nfc tok limits Hp H2 H3 (ts_spans _ _ Hsupport) (ts_chars _ _ Hsupport) input Hnormal Hstr ltac:(lia) policy)|].
  intros s' [ids|e] [-> H]; (split; [done|]); [|done]. split; [done|]. split; [done|lia].
Qed.
End claims.

Lemma ref_normal_stuck ranks l l' : ref_normal ranks l -> ~ ref_step ranks l l'.
Proof. intros Hn (l1 & a & b & l2 & k & x & -> & Hab & _). rewrite (Hn a b) in Hab; [done|by exists l1, l2]. Qed.

Lemma ref_unique ranks l l1 l2 :
  rtc (ref_step ranks) l l1 -> ref_normal ranks l1 -> rtc (ref_step ranks) l l2 -> ref_normal ranks l2 -> l2 = l1.
Proof.
  intros H1. revert l2. induction H1 as [l|l m l1 Hstep _ IH]; intros l2 Hn1 H2 Hn2.
  - destruct H2 as [|? ? ? Hs]; [done|]. by apply ref_normal_stuck in Hs.
  - destruct H2 as [|? m' ? Hs H2]; [by apply ref_normal_stuck in Hstep|].
    rewrite (ref_step_det _ _ _ _ Hstep Hs) in *. by apply IH.
Qed.

(** C38: the merge loop of a program built from merges in training order always
    ends and computes the reference merging, the unique result of merging the
    leftmost pair of the least rank one at a time until none is left, although
    it replaces all occurrences of a pair at once; it fails only on the work
    limit, which a budget of 1025 times the square of the piece's length
    excludes. *)
Theorem bpe_matches_reference {Regex} (Regex_new : list N -> option Regex) voc merges (tok : TokenizerProgram (Regex := Regex)) symbols b :
  tokenizer_new Regex_new voc merges = Ok tok -> training_order merges -> budget_ok b ->
  let ranks := merge_ranks (execution tok) in
  wp (run_bpe symbols ranks) b (fun b' r => limit b' = limit b /\
    match r with
    | Ok l => rtc (ref_step ranks) symbols l /\ ref_normal ranks l /\
        forall l', rtc (ref_step ranks) symbols l' -> ref_normal ranks l' -> l' = l
    | Err e => e = WorkLimit (limit b) /\ limit b < used b + 1025 * vlen symbols * vlen symbols
    end).
Proof.
  intros Hnew Hord Hb ranks. pose proof (new_trained Regex_new voc merges tok Hnew Hord) as Htr. fold ranks in Htr.
  eapply wp_mono; [apply (run_bpe_spends ranks _ symbols b (trained_kept ranks symbols Htr) (rtc_refl _ _) Hb)|].
  intros b' [l|e] (_ & Hl & _ & H); (split; [exact Hl|]); [|exact H].
  destruct H as (_ & Hr & Hn). split_and?; [done|done|]. intros l' Hr' Hn'. by eapply ref_unique.
Qed.



(** ** Concrete instances *)
From Stdlib Require Import String.

(** The byte symbols, then four merged strings, in training order. *)
Definition demo_symbol (b : N) : list N := [byte_to_unicode_codepoint b].
Definition demo_str (s : String.string) : list N := byte_to_unicode_codepoint <$> ascii_bytes s.
Definition demo_merges : list (list N * list N) :=
  (fun '(l, r) => (demo_str l, demo_str r)) <$> [("l", "o"); ("lo", "w"); ("e", "r"); ("low", "er")]%string.
Definition demo_vocabulary : list (list N) :=
  ((fun b => demo_symbol (N.of_nat b)) <$> seq 0 256) ++ ((fun '(l, r) => l ++ r) <$> demo_merges).

(** One match per text, and characters of one byte. *)
Definition demo_find (_ : unit) (s : list N) : list (N * N) := match s with [] => [] | _ => [(0, vlen s)] end.
Definition demo_nfc (s : list N) : list (list N) := (fun b => [b]) <$> s.
Definition demo_tokenizer : result (TokenizerProgram (Regex := unit)) TokenizerProgramConstructionError :=
  tokenizer_new (fun _ => Some tt) demo_vocabulary demo_merges.

Lemma demo_support : text_support demo_find demo_nfc.
Proof.
  split.
  - intros [] [|b s]; cbn; [done|]. split_and?; lia.
  - intros s. unfold demo_nfc. apply Forall_fmap, Forall_true. intros b. cbn. rewrite vlen_cons, vlen_nil. lia.
Qed.

Lemma demo_concat s : List.concat (demo_nfc s) = s.
Proof. unfold demo_nfc. induction s as [|b s IH]; [done|]. cbn. by rewrite IH. Qed.

Lemma ascii_is_str s : Forall (fun b => b < 128) s -> is_str s.
Proof.
  intros H. exists s. split; [eapply Forall_impl; [exact H|]; intros b Hb; cbn in Hb; lia|].
  induction H as [|b s Hb _ IH]; [done|]. cbn [mbind list_bind]. unfold encode_utf8.
  rewrite (proj2 (N.ltb_lt _ _) Hb). cbn [app]. f_equal. exact IH.
Qed.

Definition demo_text : list N := ascii_bytes "lower <|im_end|>low"%string.

Lemma demo_normal : normal_text demo_nfc demo_text.
Proof. split; [apply ascii_is_str; by_decide|]. intros i j. apply demo_concat. Qed.

Lemma demo_training : training_order demo_merges.
Proof.
  intros i j l r l' r' Hi Hj Huse. pose proof (vget_Some_lt _ _ _ Hi) as Hi4. pose proof (vget_Some_lt _ _ _ Hj) as Hj4.
  change (vlen demo_merges) with 4 in Hi4, Hj4.
  assert (i = 0 \/ i = 1 \/ i = 2 \/ i = 3) as Hi' by lia. assert (j = 0 \/ j = 1 \/ j = 2 \/ j = 3) as Hj' by lia.
  destruct Hi' as [-> | [-> | [-> | ->]]]; vm_compute in Hi; injection Hi as <- <-;
    destruct Hj' as [-> | [-> | [-> | ->]]]; vm_compute in Hj; injection Hj as <- <-;
    cbn [app] in Huse; first [lia | exfalso; destruct Huse; discriminate].
Qed.

Definition demo_program : TokenizerExecutionProgram :=
  match demo_tokenizer with Ok t => execution t | Err _ => mkProgram [] [] ∅ [] end.

Lemma bpe_matches_reference_witness :
  exists tok, demo_tokenizer = Ok tok /\ training_order demo_merges /\ budget_ok (budget_new 100000) /\
    exists b', run_bpe [108; 111; 119; 101; 114] (merge_ranks (execution tok)) (budget_new 100000) = Done b' (Ok [259]) /\
    rtc (ref_step (merge_ranks (execution tok))) [108; 111; 119; 101; 114] [259].
Proof.
  destruct demo_tokenizer as [tok|] eqn:Hnew; [|exfalso; vm_compute in Hnew; discriminate Hnew].
  exists tok. split; [reflexivity|]. split; [exact demo_training|].
  assert (Hb : budget_ok (budget_new 100000)) by (split; by_decide). split; [exact Hb|].
  pose proof (bpe_matches_reference (fun _ => Some tt) demo_vocabulary demo_merges tok
    [108; 111; 119; 101; 114] (budget_new 100000) Hnew demo_training Hb) as H.
  apply wp_done in H as (b' & r & Hrun & _ & H). exists b'.
  assert (Hr : r = Ok [259]).
  { assert (Hres : match demo_tokenizer with Ok t => match run_bpe [108; 111; 119; 101; 114] (merge_ranks (execution t)) (budget_new 100000) with
      Done _ r => r = Ok [259] | Panic => False end | Err _ => False end) by (vm_compute; reflexivity).
    rewrite Hnew, Hrun in Hres. exact Hres. }
  subst r. split; [exact Hrun|]. apply H.
Defined.

Definition demo_ids : list N := [259; 32; 151645; 257].


