(* ===== verification/Platform.v ===== *)
(** What the host platform provides to the completion path and the generation
    loop: the types and functions of external crates, as one class, with what
    the code relies on as another, and a concrete platform for the witnesses. *)
From S2P Require Import Prelude.

(** [ServiceCompletedReadbackV1] and [ServiceAllocationErrorV1] belong to the
    device runtime, [ArrayVec] to the crate arrayvec (an [ArrayVec] is the list
    of its elements, [try_push capacity l x] the vector with [x] added),
    [Sha256::digest] to the crate sha2; [try_reserve_exact n] is the allocator's
    answer to a reservation of [n] elements, the capacity it grants.  The
    guarded readback and the two lineage types are opaque: the modelled code
    moves them around without looking inside, except for the accessors below. *)
Class Platform := {
  ServiceAllocationErrorV1 : Type;
  M1CompletionCanaryErrorV1 : Type;
  M1QualificationFinalLogitsErrorV1 : Type;
  SpeculativeLineage : Type;
  SpeculativeRolloverIntent : Type;
  CanarySummary : Type;
  ServiceCompletedReadbackV1 : Type;
  readback_dispatch_generation : ServiceCompletedReadbackV1 -> N;
  readback_data_index : ServiceCompletedReadbackV1 -> N;
  readback_offset_bytes : ServiceCompletedReadbackV1 -> N;
  readback_bytes : ServiceCompletedReadbackV1 -> list N;
  CanaryReadback : Type;
  canary_dispatch_generation : CanaryReadback -> N;
  canary_data_index : CanaryReadback -> N;
  canary_interior_offset_bytes : CanaryReadback -> N;
  canary_interior_bytes : CanaryReadback -> list N;
  canary_summary : CanaryReadback -> CanarySummary;
  Sha256_digest : list N -> list N;
  try_reserve_exact : N -> option N;
  try_push : forall {T : Type}, N -> list T -> T -> option (list T)
}.

Class PlatformLaws (P : Platform) : Prop := {
  reserve_grants n c : try_reserve_exact n = Some c -> n <= c;
  try_push_spec (T : Type) capacity (l : list T) x :
    try_push capacity l x = if vlen l <? capacity then Some (l ++ [x]) else None
}.

(** [ArrayVec::push], which panics on a full vector. *)
Definition av_push {P : Platform} {S T} (capacity : N) (l : list T) (x : T) : M S (list T) :=
  match try_push capacity l x with Some l' => ret l' | None => panic end.

(** A [Vec] that the code inspects the capacity of. *)
Record HostVec (T : Type) := mkVec { vec_elems : list T; vec_capacity : N }.
Arguments mkVec {T} vec_elems vec_capacity.
Arguments vec_elems {T} _.
Arguments vec_capacity {T} _.

Definition vec_new {T} : HostVec T := mkVec [] 0.
Definition vec_clear {T} (v : HostVec T) : HostVec T := mkVec [] (vec_capacity v).
Definition vec_push {T} (v : HostVec T) (x : T) : HostVec T :=
  mkVec (vec_elems v ++ [x]) (N.max (vec_capacity v) (vlen (vec_elems v) + 1)).
(** [try_reserve_exact] of an empty vector. *)
Definition vec_reserve {P : Platform} {T} (v : HostVec T) (n : N) : option (HostVec T) :=
  if n <=? vec_capacity v then Some v
  else (fun c => mkVec (vec_elems v) c) <$> try_reserve_exact n.

(** [iter().position(p)] *)
Fixpoint iter_position {A} (p : A -> bool) (l : list A) : option N :=
  match l with
  | [] => None
  | x :: l' => if p x then Some 0 else N.succ <$> iter_position p l'
  end.

Lemma vget_succ {A} (a : A) l i : vget (a :: l) (N.succ i) = vget l i.
Proof. unfold vget. by rewrite N2Nat.inj_succ. Qed.

Section laws.
Context {P : Platform} {HP : PlatformLaws P}.

Lemma wp_av_push {S T} capacity (l : list T) x (s : S) (Q : S -> list T -> Prop) :
  vlen l < capacity -> Q s (l ++ [x]) -> wp (av_push capacity l x) s Q.
Proof. intros H ?. unfold av_push. by rewrite try_push_spec, (proj2 (N.ltb_lt _ _) H). Qed.

Lemma vec_reserve_Some {T} (v v' : HostVec T) n :
  vec_reserve v n = Some v' -> vec_elems v' = vec_elems v /\ n <= vec_capacity v'.
Proof.
  unfold vec_reserve. destruct (N.leb_spec n (vec_capacity v)); [by intros [= <-]|].
  destruct (try_reserve_exact n) eqn:E; intros [= <-]. split; [done|by apply reserve_grants].
Qed.

End laws.

Section positions.
Context {A : Type} (p : A -> bool).

Lemma iter_position_Some l i :
  iter_position p l = Some i <->
  exists x, vget l i = Some x /\ p x = true /\ (forall j y, j < i -> vget l j = Some y -> p y = false).
Proof.
  revert i. induction l as [|a l IH]; intros i; simpl.
  { split; [done|]. intros (x & Hx & _). by apply vget_Some_lt in Hx as []%N.nlt_0_r. }
  destruct (p a) eqn:Ha.
  - split.
    + intros [= <-]. exists a. split_and!; [done..|]. intros j y Hj. lia.
    + intros (x & _ & _ & Hn). destruct (decide (i = 0)) as [->|]; [done|].
      by rewrite (Hn 0 a) in Ha by (done || lia).
  - rewrite fmap_Some. split.
    + intros (j & (x & Hx & Hp & Hn)%IH & ->). exists x. rewrite vget_succ. split_and!; [done..|].
      intros k y Hk Hy. destruct (decide (k = 0)) as [->|Hk0]; [by injection Hy as <-|].
      apply (Hn (N.pred k) y); [lia|]. rewrite <- (vget_succ a). by rewrite N.succ_pred.
    + intros (x & Hx & Hp & Hn). destruct (decide (i = 0)) as [->|Hi0].
      { injection Hx as <-. congruence. }
      exists (N.pred i). rewrite N.succ_pred by done. split; [|done]. apply IH. exists x.
      rewrite <- (N.succ_pred i), vget_succ in Hx by done. split_and!; [done..|].
      intros k y Hk Hy. apply (Hn (N.succ k)); [lia|]. by rewrite vget_succ.
Qed.

Lemma iter_position_None l : iter_position p l = None <-> forallb (fun x => negb (p x)) l = true.
Proof.
  induction l as [|a l IH]; simpl; [done|]. destruct (p a); simpl; [done|].
  by rewrite fmap_None.
Qed.
End positions.

(** A platform: an allocator that grants exactly what is asked up to 1024
    elements, readbacks that are their bytes. *)
Definition demo_platform : Platform := {|
  ServiceAllocationErrorV1 := unit;
  M1CompletionCanaryErrorV1 := unit;
  M1QualificationFinalLogitsErrorV1 := unit;
  SpeculativeLineage := unit;
  SpeculativeRolloverIntent := unit;
  CanarySummary := unit;
  ServiceCompletedReadbackV1 := list N;
  readback_dispatch_generation _ := 1;
  readback_data_index _ := 0;
  readback_offset_bytes _ := 0;
  readback_bytes := id;
  CanaryReadback := list N;
  canary_dispatch_generation _ := 1;
  canary_data_index _ := 0;
  canary_interior_offset_bytes _ := 64;
  canary_interior_bytes := id;
  canary_summary _ := tt;
  Sha256_digest := take 32;
  try_reserve_exact n := if n <=? 1024 then Some n else None;
  try_push T capacity l x := if vlen l <? capacity then Some (l ++ [x]) else None
|}.

Lemma demo_platform_laws : PlatformLaws demo_platform.
Proof.
  split; [|done]. intros n c. cbn. case_match; [|done]. by intros [= ->].
Qed.
