(* ===== verification/Readback.v ===== *)
(** The completed readback: the output geometry of
    [ferric-engine/src/completion_output.rs], the structural observation of a
    copied byte image ([observed_completion.rs]) and its join with the
    scheduler's roster and the declared semantics
    ([completed_readback_join.rs]). *)
From S2P Require Import Prelude Spec Bytes PlanSelection M1Completion CompletionWire Platform.
From S2P Require Scheduler.
Local Open Scope prog_scope.

#[global] Instance completion_epoch_eq_dec : EqDecision Completion.CompletionEpoch.
Proof. solve_decision. Defined.
#[global] Instance identity_eq_dec : EqDecision Identity.Identity.
Proof. solve_decision. Defined.
#[global] Instance M1QualificationTokenRange_eq_dec : EqDecision Qualification.M1QualificationTokenRange.
Proof. solve_decision. Defined.
#[global] Instance M1QualificationCompactChoiceDisposition_eq_dec :
  EqDecision Qualification.M1QualificationCompactChoiceDisposition.
Proof. solve_decision. Defined.
#[global] Instance M1QualificationNextInputPolicy_eq_dec :
  EqDecision Qualification.M1QualificationNextInputPolicy.
Proof. solve_decision. Defined.
#[global] Instance M1QualificationContextStep_eq_dec : EqDecision Qualification.M1QualificationContextStep.
Proof. solve_decision. Defined.

(** [u32::try_from(lane).unwrap_or(u32::MAX)] *)
Definition u32_saturating (n : N) : N := if n <=? u32_max then n else u32_max.

(** ** The output geometry *)
Record M1CompletionOutputShapeV1 := mkShape {
  os_selection : Graph.Qwen3PlanSelection;
  os_sequences : N;
  os_extent_bytes : N
}.

#[global] Instance M1CompletionOutputShapeV1_eq_dec : EqDecision M1CompletionOutputShapeV1.
Proof. solve_decision. Defined.

Section readback.
Context {P : Platform}.

Inductive M1CompletionOutputErrorV1 :=
| InvalidTargetSelection (selection : Graph.Qwen3PlanSelection)
| ExtentOverflow
| OutputSelectionDrift (expected actual : Graph.Qwen3PlanSelection)
| AllocationExtentDrift (expected actual : N)
| AllocationAlignmentDrift (required actual : N)
| DispatchRangeDrift
| DraftCatchupCustodyDrift
| ReadbackExtentDrift (expected actual : N)
| SequenceOutOfRange (sequences actual : N)
| Allocation (error : ServiceAllocationErrorV1)
| Canary (error : M1CompletionCanaryErrorV1).

Definition m1_completion_output_shape_v1 (selection : Graph.Qwen3PlanSelection) :
    result M1CompletionOutputShapeV1 M1CompletionOutputErrorV1 :=
  match Graph.dimensions (Graph.bucket selection) (Graph.role selection) (Graph.mode selection) with
  | Some dimensions =>
      if negb (bool_decide (Graph.role selection = Graph.Target8B)) then
        Err (InvalidTargetSelection selection)
      else
        if u64_max <? Graph.sequences dimensions * Layout.RECORD_BYTES_USIZE then Err ExtentOverflow
        else
          let extent_bytes := Graph.sequences dimensions * Layout.RECORD_BYTES_USIZE in
          if usize_max <? extent_bytes then Err ExtentOverflow
          else Ok (mkShape selection (Graph.sequences dimensions) extent_bytes)
  | None => Err (InvalidTargetSelection selection)
  end.

Definition revalidate_selection (self : M1CompletionOutputShapeV1)
    (selection : Graph.Qwen3PlanSelection) : result unit M1CompletionOutputErrorV1 :=
  match m1_completion_output_shape_v1 selection with
  | Err error => Err error
  | Ok actual =>
      if negb (bool_decide (actual = self)) then
        Err (OutputSelectionDrift (os_selection self) selection)
      else Ok tt
  end.

(** [bytes.get(start..end)] *)
Definition slice_get (bytes : list N) (start limit : N) : option (list N) :=
  if (start <=? limit) && (limit <=? vlen bytes) then Some (subslice bytes start limit) else None.

Definition record_bytes (self : M1CompletionOutputShapeV1) (bytes : list N) (sequence : N) :
    result (list N) M1CompletionOutputErrorV1 :=
  let actual := if vlen bytes <=? u64_max then vlen bytes else u64_max in
  if negb (actual =? os_extent_bytes self) then Err (ReadbackExtentDrift (os_extent_bytes self) actual)
  else if os_sequences self <=? sequence then Err (SequenceOutOfRange (os_sequences self) sequence)
  else
    let record_bytes := Layout.RECORD_BYTES_USIZE in
    if usize_max <? sequence * record_bytes then Err ExtentOverflow
    else
      let start := sequence * record_bytes in
      match checked_add usize_max start record_bytes with
      | None => Err ExtentOverflow
      | Some limit =>
          match slice_get bytes start limit with
          | None => Err ExtentOverflow
          | Some record => Ok record
          end
      end.

(** ** The scheduler's roster *)
Definition scheduled_epoch (self : Scheduler.M1ScheduledDispatchV1) : Completion.CompletionEpoch :=
  Scheduler.db_epoch (Scheduler.sd_batch self).
Definition scheduled_member_count (self : Scheduler.M1ScheduledDispatchV1) : N :=
  Scheduler.db_member_count (Scheduler.sd_batch self).
Definition scheduled_member {S} (self : Scheduler.M1ScheduledDispatchV1) (index : N) :
    M S (option RequestId) :=
  if index <? Scheduler.M1_MAX_ACTIVE_SEQUENCES then slice_at (Scheduler.sd_members self) index
  else ret None.

(** ** Structural observation *)
Inductive M1ObservedCompletionBackingV1 :=
| Physical (readback : ServiceCompletedReadbackV1)
| PhysicalCanary (readback : CanaryReadback)
| Resident (dispatch_generation data_index offset_bytes : N) (bytes : list N).

Definition backing_dispatch_generation (self : M1ObservedCompletionBackingV1) : N :=
  match self with
  | Physical readback => readback_dispatch_generation readback
  | PhysicalCanary readback => canary_dispatch_generation readback
  | Resident dispatch_generation _ _ _ => dispatch_generation
  end.

Definition backing_data_index (self : M1ObservedCompletionBackingV1) : N :=
  match self with
  | Physical readback => readback_data_index readback
  | PhysicalCanary readback => canary_data_index readback
  | Resident _ data_index _ _ => data_index
  end.

Definition backing_offset_bytes (self : M1ObservedCompletionBackingV1) : N :=
  match self with
  | Physical readback => readback_offset_bytes readback
  | PhysicalCanary readback => canary_interior_offset_bytes readback
  | Resident _ _ offset_bytes _ => offset_bytes
  end.

Definition backing_bytes (self : M1ObservedCompletionBackingV1) : list N :=
  match self with
  | Physical readback => readback_bytes readback
  | PhysicalCanary readback => canary_interior_bytes readback
  | Resident _ _ _ bytes => bytes
  end.

Definition backing_completion_canary (self : M1ObservedCompletionBackingV1) : option CanarySummary :=
  match self with
  | PhysicalCanary readback => Some (canary_summary readback)
  | Physical _ | Resident _ _ _ _ => None
  end.

Inductive M1ObservedCompletionImageErrorV1 :=
| ImageSelectionDrift (expected actual : Graph.Qwen3PlanSelection)
| SchedulerCapacity (members capacity : N)
| ImageOutput (error : M1CompletionOutputErrorV1)
| ImageLiveRecord (lane : N) (source : CompletionWireError)
| ImageInactiveRecordNonzero (lane record_offset : N).

Record M1ObservedCompletionImageV1 := mkImage {
  oi_shape : M1CompletionOutputShapeV1;
  oi_epoch : Completion.CompletionEpoch;
  oi_raw_sha256 : list N;
  oi_backing : M1ObservedCompletionBackingV1;
  oi_records : list Compact.CompactCompletionRecord
}.

(** [M1ObservedCompletionImageV1::raw_record_bytes] *)
Definition raw_record_bytes (self : M1ObservedCompletionImageV1) (lane : N) : option (list N) :=
  match record_bytes (oi_shape self) (backing_bytes (oi_backing self)) lane with
  | Ok record => Some record
  | Err _ => None
  end.

(** [for lane in 0..scheduled.member_count()]; an error gives the vector back
    with the records pushed so far. *)
Fixpoint observe_live_loop {S} (count : nat) (shape : M1CompletionOutputShapeV1) (bytes : list N)
    (lane : N) (records : HostVec Compact.CompactCompletionRecord) :
    M S (result (HostVec Compact.CompactCompletionRecord)
           (M1ObservedCompletionImageErrorV1 * HostVec Compact.CompactCompletionRecord)) :=
  match count with
  | O => ret (Ok records)
  | Datatypes.S count' =>
      match record_bytes shape bytes (u32_saturating lane) with
      | Err error => ret (Err (ImageOutput error, records))
      | Ok raw =>
          let! r := decode_completion_record raw in
          match r with
          | Err source => ret (Err (ImageLiveRecord lane source, records))
          | Ok record => observe_live_loop count' shape bytes (lane + 1) (vec_push records record)
          end
      end
  end.

(** [for lane in scheduled.member_count()..capacity] *)
Fixpoint observe_inactive_loop (count : nat) (shape : M1CompletionOutputShapeV1) (bytes : list N)
    (lane : N) (records : HostVec Compact.CompactCompletionRecord) :
    result (HostVec Compact.CompactCompletionRecord)
      (M1ObservedCompletionImageErrorV1 * HostVec Compact.CompactCompletionRecord) :=
  match count with
  | O => Ok records
  | Datatypes.S count' =>
      match record_bytes shape bytes (u32_saturating lane) with
      | Err error => Err (ImageOutput error, records)
      | Ok raw =>
          match iter_position (fun byte => negb (byte =? 0)) raw with
          | Some record_offset => Err (ImageInactiveRecordNonzero lane record_offset, records)
          | None => observe_inactive_loop count' shape bytes (lane + 1) records
          end
      end
  end.

Definition observe_records_with_storage {S} (shape : M1CompletionOutputShapeV1)
    (queue_selection : Graph.Qwen3PlanSelection) (scheduled : Scheduler.M1ScheduledDispatchV1)
    (bytes : list N) (records : HostVec Compact.CompactCompletionRecord) :
    M S (result (list N * list Compact.CompactCompletionRecord)
           (M1ObservedCompletionImageErrorV1 * HostVec Compact.CompactCompletionRecord)) :=
  if negb (bool_decide (os_selection shape = queue_selection)) then
    ret (Err (ImageSelectionDrift queue_selection (os_selection shape), records))
  else
    let capacity := os_sequences shape in
    let members := scheduled_member_count scheduled in
    if capacity <? members then ret (Err (SchedulerCapacity members capacity, records))
    else
      match vec_reserve (vec_clear records) members with
      | None => ret (Err (ImageOutput ExtentOverflow, vec_clear records))
      | Some records =>
          let? records := observe_live_loop (N.to_nat members) shape bytes 0 records in
          match observe_inactive_loop (N.to_nat (capacity - members)) shape bytes members records with
          | Err error => ret (Err error)
          | Ok records => ret (Ok (Sha256_digest bytes, vec_elems records))
          end
      end.

Definition observe_records {S} (shape : M1CompletionOutputShapeV1)
    (queue_selection : Graph.Qwen3PlanSelection) (scheduled : Scheduler.M1ScheduledDispatchV1)
    (bytes : list N) :
    M S (result (list N * list Compact.CompactCompletionRecord) M1ObservedCompletionImageErrorV1) :=
  let! r := observe_records_with_storage shape queue_selection scheduled bytes vec_new in
  ret match r with Ok x => Ok x | Err (error, _) => Err error end.

Definition observe_m1_completed_output_v1 {S} (shape : M1CompletionOutputShapeV1)
    (queue_selection : Graph.Qwen3PlanSelection) (scheduled : Scheduler.M1ScheduledDispatchV1)
    (readback : ServiceCompletedReadbackV1) :
    M S (result M1ObservedCompletionImageV1
           (M1ObservedCompletionImageErrorV1 * ServiceCompletedReadbackV1)) :=
  let! observed := observe_records shape queue_selection scheduled (readback_bytes readback) in
  ret match observed with
      | Err error => Err (error, readback)
      | Ok (raw_sha256, records) =>
          Ok (mkImage shape (scheduled_epoch scheduled) raw_sha256 (Physical readback) records)
      end.

Definition observe_m1_guarded_completed_output_v1 {S} (shape : M1CompletionOutputShapeV1)
    (queue_selection : Graph.Qwen3PlanSelection) (scheduled : Scheduler.M1ScheduledDispatchV1)
    (readback : CanaryReadback) :
    M S (result M1ObservedCompletionImageV1 (M1ObservedCompletionImageErrorV1 * CanaryReadback)) :=
  let! observed := observe_records shape queue_selection scheduled (canary_interior_bytes readback) in
  ret match observed with
      | Err error => Err (error, readback)
      | Ok (raw_sha256, records) =>
          Ok (mkImage shape (scheduled_epoch scheduled) raw_sha256 (PhysicalCanary readback) records)
      end.

Record M1ObservedCompletionHostStorageV1 := mkObservedStorage {
  st_bytes : option (list N);
  st_records : HostVec Compact.CompactCompletionRecord
}.

(** [M1ObservedCompletionHostStorageV1::try_new] *)
Definition observed_storage_try_new (shape : M1CompletionOutputShapeV1) (members : N) :
    option M1ObservedCompletionHostStorageV1 :=
  let extent := os_extent_bytes shape in
  if usize_max <? extent then None
  else
    match try_reserve_exact extent with
    | None => None
    | Some _ =>
        match try_reserve_exact members with
        | None => None
        | Some capacity => Some (mkObservedStorage (Some (vfill extent 0)) (mkVec [] capacity))
        end
    end.

Definition observe_m1_completed_output_with_storage_v1 {S} (shape : M1CompletionOutputShapeV1)
    (queue_selection : Graph.Qwen3PlanSelection) (scheduled : Scheduler.M1ScheduledDispatchV1)
    (dispatch_generation data_index offset_bytes : N) (storage : M1ObservedCompletionHostStorageV1) :
    M S (result M1ObservedCompletionImageV1
           (M1ObservedCompletionImageErrorV1 * M1ObservedCompletionHostStorageV1)) :=
  match st_bytes storage with
  | None => ret (Err (ImageOutput ExtentOverflow, storage))
  | Some bytes =>
      let! observed := observe_records_with_storage shape queue_selection scheduled bytes
                         (st_records storage) in
      ret match observed with
          | Err (error, records) => Err (error, mkObservedStorage (Some bytes) records)
          | Ok (raw_sha256, records) =>
              Ok (mkImage shape (scheduled_epoch scheduled) raw_sha256
                    (Resident dispatch_generation data_index offset_bytes bytes) records)
          end
  end.

(** ** The join with the roster and the expectations *)
Inductive M1CompletedOutputCheckErrorV1 :=
| SelectionDrift (expected actual : Graph.Qwen3PlanSelection)
| ObservationEpochDrift (expected actual : Completion.CompletionEpoch)
| ExpectationCount (expected actual : N)
| PlanSelectionDrift (lane : N) (expected actual : Graph.Qwen3PlanSelection)
| PlanEpochDrift (lane : N) (expected actual : Completion.CompletionEpoch)
| RequestOrderDrift (lane : N) (expected actual : RequestId)
| Output (error : M1CompletionOutputErrorV1)
| LiveRecord (lane : N) (source : CompletionWireError)
| QualificationFinalChoiceCount (expected actual : N)
| QualificationFinalLogits (error : M1QualificationFinalLogitsErrorV1)
| QualificationFinalObservationShape
| QualificationCaptureRequiresEvidence (lane : N)
| DirectDiagnosticCaptureRequiresEvidence
| SpeculativeDiagnosticCaptureRequiresEvidence
| QualificationPrefillSelection (actual : Graph.Qwen3PlanSelection)
| QualificationMemberCount (expected actual : N)
| QualificationContextDrift (lane : N)
| InactiveRecordNonzero (lane record_offset : N).

Record M1CheckedCompletionOutputV1 := mkCheckedOutput {
  co_selection : Graph.Qwen3PlanSelection;
  co_epoch : Completion.CompletionEpoch;
  co_dispatch_generation : N;
  co_data_index : N;
  co_offset_bytes : N;
  co_extent_bytes : N;
  co_raw_sha256 : list N;
  co_completion_canary : option CanarySummary;
  co_completion_canary_readback : option CanaryReadback;
  co_records : list InertCheckedCompletionRecord;
  co_speculative_lineage : option SpeculativeLineage;
  co_speculative_rollover_intent : option SpeculativeRolloverIntent
}.

(** [CompletionWireSemanticExpectation::qualification_context] *)
Definition qualification_context (self : CompletionWireSemanticExpectation) :
    option Qualification.M1ValidatedQualificationContextStepV1 :=
  match self with
  | ExpectQualificationPromptCommit context | ExpectQualificationFinalRow context => Some context
  | ExpectDirectFinalRow _ | ExpectSpeculative _ _ => None
  end.

(** [M1QualificationLaneGrouping::sequences] *)
Definition grouping_sequences (self : Qualification.M1QualificationLaneGrouping) : N :=
  match self with
  | Qualification.S1 => 1
  | Qualification.S8 => 8
  | Qualification.S32 => 32
  end.

(** [M1QualificationFinalRowChoicesV1], the tokens of its choices. *)
Record M1QualificationFinalRowChoicesV1 := mkFinalRows { fr_choices : list N }.

(** [for (lane, expectation) in expectations.iter().copied().enumerate()] of the
    qualification batch check. *)
Fixpoint context_loop (expectations : list CompletionWireExpectation) (lane : N)
    (first : Qualification.M1ValidatedQualificationContextStepV1) :
    result unit M1CompletedOutputCheckErrorV1 :=
  match expectations with
  | [] => Ok tt
  | expectation :: expectations' =>
      match qualification_context (expected_semantics expectation) with
      | None => Err (QualificationContextDrift lane)
      | Some context =>
          if negb (bool_decide (Qualification.policy_identity context = Qualification.policy_identity first))
             || negb (bool_decide (Qualification.grouping context = Qualification.grouping first))
             || negb (Qualification.ordinal context =? Qualification.ordinal first)
             || negb (bool_decide (Qualification.declared_workload_digest context
                                   = Qualification.declared_workload_digest first))
             || negb (bool_decide (Qualification.step context = Qualification.step first))
          then Err (QualificationContextDrift lane)
          else context_loop expectations' (lane + 1) first
      end
  end.

Definition check_contexts (scheduled : Scheduler.M1ScheduledDispatchV1)
    (expectations : list CompletionWireExpectation) : result unit M1CompletedOutputCheckErrorV1 :=
  match head expectations ≫= (fun e => qualification_context (expected_semantics e)) with
  | Some first =>
      let expected := grouping_sequences (Qualification.grouping first) in
      if negb (scheduled_member_count scheduled =? expected) then
        Err (QualificationMemberCount expected (scheduled_member_count scheduled))
      else context_loop expectations 0 first
  | None =>
      match iter_position (fun e => bool_decide (is_Some (qualification_context (expected_semantics e))))
              expectations with
      | Some lane => Err (QualificationContextDrift lane)
      | None => Ok tt
      end
  end.

Definition check_lane {S} (observed : M1ObservedCompletionImageV1)
    (queue_selection : Graph.Qwen3PlanSelection) (scheduled : Scheduler.M1ScheduledDispatchV1)
    (qualification_final_rows : option M1QualificationFinalRowChoicesV1) (lane : N)
    (expectation : CompletionWireExpectation) :
    M S (result InertCheckedCompletionRecord M1CompletedOutputCheckErrorV1) :=
  let plan := plan expectation in
  let drift :=
    match qualification_context (expected_semantics expectation) with
    | Some context =>
        let actual := Qualification.lane_ordinal (Qualification.lane context) in
        if negb (actual =? lane)
        then Some (QualificationLaneMismatch (u32_saturating lane) actual) else None
    | None => None
    end in
  match drift with
  | Some source => ret (Err (LiveRecord lane source))
  | None =>
  if negb (bool_decide (selection plan = queue_selection)) then
    ret (Err (PlanSelectionDrift lane queue_selection (selection plan)))
  else if negb (bool_decide (completion_epoch plan = scheduled_epoch scheduled)) then
    ret (Err (PlanEpochDrift lane (scheduled_epoch scheduled) (completion_epoch plan)))
  else
    let! member := scheduled_member scheduled lane in
    match member with
    | None => ret (Err (ExpectationCount (scheduled_member_count scheduled) lane))
    | Some expected_request =>
        if negb (bool_decide (request plan = expected_request)) then
          ret (Err (RequestOrderDrift lane expected_request (request plan)))
        else
          match raw_record_bytes observed (u32_saturating lane) with
          | None =>
              ret (Err (Output (SequenceOutOfRange (os_sequences (oi_shape observed)) (u32_saturating lane))))
          | Some record_bytes =>
              let? checked :=
                match expected_semantics expectation, qualification_final_rows with
                | ExpectQualificationFinalRow _, Some final_rows =>
                    match vget (fr_choices final_rows) lane with
                    | None =>
                        ret (Err (QualificationFinalChoiceCount (scheduled_member_count scheduled)
                                    (vlen (fr_choices final_rows))))
                    | Some choice =>
                        let! r := check_inert_qualification_final_completion_record record_bytes
                                    expectation choice in
                        ret match r with Ok c => Ok c | Err source => Err (LiveRecord lane source) end
                    end
                | _, _ =>
                    let! r := check_inert_completion_record record_bytes expectation in
                    ret match r with Ok c => Ok c | Err source => Err (LiveRecord lane source) end
                end in
              ret (Ok checked)
          end
    end
  end.

(** [for (lane, expectation) in expectations.iter().copied().enumerate()] *)
Fixpoint check_loop {S} (expectations : list CompletionWireExpectation) (lane : N)
    (observed : M1ObservedCompletionImageV1) (queue_selection : Graph.Qwen3PlanSelection)
    (scheduled : Scheduler.M1ScheduledDispatchV1)
    (qualification_final_rows : option M1QualificationFinalRowChoicesV1)
    (records : HostVec InertCheckedCompletionRecord) :
    M S (result (HostVec InertCheckedCompletionRecord) M1CompletedOutputCheckErrorV1) :=
  match expectations with
  | [] => ret (Ok records)
  | expectation :: expectations' =>
      let? checked := check_lane observed queue_selection scheduled qualification_final_rows lane
                        expectation in
      check_loop expectations' (lane + 1) observed queue_selection scheduled
        qualification_final_rows (vec_push records checked)
  end.

Definition check_m1_completed_output {S} (observed : M1ObservedCompletionImageV1)
    (queue_selection : Graph.Qwen3PlanSelection) (scheduled : Scheduler.M1ScheduledDispatchV1)
    (expectations : list CompletionWireExpectation)
    (qualification_final_rows : option M1QualificationFinalRowChoicesV1)
    (record_storage : option (HostVec InertCheckedCompletionRecord)) :
    M S (result M1CheckedCompletionOutputV1 M1CompletedOutputCheckErrorV1) :=
  let members := scheduled_member_count scheduled in
  if negb (bool_decide (os_selection (oi_shape observed) = queue_selection)) then
    ret (Err (SelectionDrift queue_selection (os_selection (oi_shape observed))))
  else if negb (bool_decide (oi_epoch observed = scheduled_epoch scheduled)) then
    ret (Err (ObservationEpochDrift (oi_epoch observed) (scheduled_epoch scheduled)))
  else if negb (vlen expectations =? members) then
    ret (Err (ExpectationCount members (vlen expectations)))
  else
    let choices := (fun rows => vlen (fr_choices rows)) <$> qualification_final_rows in
    match (match choices with
           | Some count => if negb (count =? members) then Some count else None
           | None => None
           end) with
    | Some actual => ret (Err (QualificationFinalChoiceCount members actual))
    | None =>
        match check_contexts scheduled expectations with
        | Err error => ret (Err error)
        | Ok _ =>
            match vec_reserve (vec_clear (default vec_new record_storage)) (vlen expectations) with
            | None => ret (Err (Output ExtentOverflow))
            | Some records =>
                let? records := check_loop expectations 0 observed queue_selection scheduled
                                  qualification_final_rows records in
                ret (Ok (mkCheckedOutput queue_selection (scheduled_epoch scheduled)
                           (backing_dispatch_generation (oi_backing observed))
                           (backing_data_index (oi_backing observed))
                           (backing_offset_bytes (oi_backing observed))
                           (os_extent_bytes (oi_shape observed)) (oi_raw_sha256 observed)
                           (backing_completion_canary (oi_backing observed)) None
                           (vec_elems records) None None))
            end
        end
    end.

Definition check_m1_completed_output_v1 {S} (observed : M1ObservedCompletionImageV1)
    (queue_selection : Graph.Qwen3PlanSelection) (scheduled : Scheduler.M1ScheduledDispatchV1)
    (expectations : list CompletionWireExpectation) :
    M S (result M1CheckedCompletionOutputV1 M1CompletedOutputCheckErrorV1) :=
  check_m1_completed_output observed queue_selection scheduled expectations None None.

Definition check_m1_completed_output_with_storage_v1 {S} (observed : M1ObservedCompletionImageV1)
    (queue_selection : Graph.Qwen3PlanSelection) (scheduled : Scheduler.M1ScheduledDispatchV1)
    (expectations : list CompletionWireExpectation) (storage : HostVec InertCheckedCompletionRecord) :
    M S (result M1CheckedCompletionOutputV1 M1CompletedOutputCheckErrorV1) :=
  check_m1_completed_output observed queue_selection scheduled expectations None (Some storage).

Definition check_m1_qualification_completed_output_v1 {S} (observed : M1ObservedCompletionImageV1)
    (queue_selection : Graph.Qwen3PlanSelection) (scheduled : Scheduler.M1ScheduledDispatchV1)
    (expectations : list CompletionWireExpectation) (final_rows : M1QualificationFinalRowChoicesV1) :
    M S (result M1CheckedCompletionOutputV1 M1CompletedOutputCheckErrorV1) :=
  match iter_position (fun e => match expected_semantics e with
                                | ExpectQualificationFinalRow _ => false
                                | _ => true
                                end) expectations with
  | Some lane => ret (Err (QualificationCaptureRequiresEvidence lane))
  | None => check_m1_completed_output observed queue_selection scheduled expectations (Some final_rows) None
  end.
End readback.
