(* ===== verification/ReadbackTheorems.v ===== *)
(** The completed readback is exact: an image is accepted precisely when it is
    the concatenation of the canonical records its roster's steps admit,
    followed by zeros. *)
From S2P Require Import Prelude Spec Bytes PlanSelection M1Completion CompletionFacts.
From S2P Require Import CompletionWire WireFacts WireTheorems Platform Readback.
From S2P Require Scheduler.
Local Open Scope prog_scope.

(** ** Rosters *)
Record roster (scheduled : Scheduler.M1ScheduledDispatchV1) (rs : list RequestId) : Prop := {
  ro_slots : vlen (Scheduler.sd_members scheduled) = Scheduler.M1_MAX_ACTIVE_SEQUENCES;
  ro_count : scheduled_member_count scheduled = vlen rs;
  ro_bound : vlen rs <= Scheduler.M1_MAX_ACTIVE_SEQUENCES;
  ro_members i r : vget rs i = Some r -> vget (Scheduler.sd_members scheduled) i = Some (Some r)
}.

Lemma scheduled_member_wp {S} scheduled rs lane r (s : S) (Q : S -> option RequestId -> Prop) :
  roster scheduled rs -> vget rs lane = Some r -> Q s (Some r) -> wp (scheduled_member scheduled lane) s Q.
Proof.
  intros Hro Hr HQ. pose proof (vget_Some_lt _ _ _ Hr) as Hlt. pose proof (ro_bound _ _ Hro).
  unfold scheduled_member. destruct (N.ltb_spec lane Scheduler.M1_MAX_ACTIVE_SEQUENCES); [|lia].
  eapply wp_slice_at; [by apply (ro_members _ _ Hro)|done].
Qed.

(** ** The rows of an image *)
Definition row (bytes : list N) (lane : N) : list N := subslice bytes (lane * 120) (lane * 120 + 120).

Definition shaped {P : Platform} (shape : M1CompletionOutputShapeV1) (bytes : list N) : Prop :=
  os_sequences shape <= 32 /\ os_extent_bytes shape = os_sequences shape * 120 /\
  vlen bytes = os_extent_bytes shape.

Lemma output_shape_ok {P : Platform} sel shape :
  m1_completion_output_shape_v1 sel = Ok shape ->
  os_selection shape = sel /\ 0 < os_sequences shape <= 32 /\ os_extent_bytes shape = os_sequences shape * 120.
Proof.
  destruct sel as [[] [] []]; vm_compute; try done; by intros [= <-].
Qed.

Section rows.
Context {P : Platform}.

Lemma record_bytes_row shape bytes lane :
  shaped shape bytes -> lane < os_sequences shape -> record_bytes shape bytes lane = Ok (row bytes lane).
Proof.
  intros (Hs & He & Hl) Hlane. unfold record_bytes, slice_get, checked_add, Layout.RECORD_BYTES_USIZE.
  assert (Hm : os_sequences shape * 120 <= 3840) by lia.
  rewrite (proj2 (N.leb_le (vlen bytes) u64_max)) by (unfold u64_max; lia).
  rewrite Hl, N.eqb_refl. cbn [negb]. rewrite (proj2 (N.leb_gt _ _) Hlane).
  rewrite (proj2 (N.ltb_ge usize_max (lane * 120))) by (unfold usize_max, u64_max; lia).
  rewrite (proj2 (N.leb_le (lane * 120 + 120) usize_max)) by (unfold usize_max, u64_max; lia).
  rewrite !(proj2 (N.leb_le _ _)) by lia. done.
Qed.

Lemma record_bytes_unshaped shape bytes lane :
  os_sequences shape <= 32 -> os_extent_bytes shape = os_sequences shape * 120 ->
  vlen bytes <> os_extent_bytes shape -> exists e, record_bytes shape bytes lane = Err e.
Proof.
  intros Hs He Hl. unfold record_bytes.
  assert (Hm : os_sequences shape * 120 <= 3840) by lia.
  destruct (N.leb_spec (vlen bytes) u64_max);
    (case_match eqn:E; [eauto|]); apply negb_false_iff, N.eqb_eq in E; [done|].
  unfold u64_max in *. lia.
Qed.

Lemma row_app bytes lane n :
  row bytes lane ++ subslice bytes ((lane + 1) * 120) ((lane + 1) * 120 + n * 120) =
  subslice bytes (lane * 120) (lane * 120 + (n + 1) * 120).
Proof.
  unfold row. replace (lane * 120 + 120) with ((lane + 1) * 120) by lia.
  rewrite subslice_app by lia. f_equal. lia.
Qed.

Lemma u32_saturating_small lane : lane <= 32 -> u32_saturating lane = lane.
Proof. intros. unfold u32_saturating. rewrite (proj2 (N.leb_le _ _)); [done|unfold u32_max; lia]. Qed.
End rows.

(** ** What is observed *)
Definition zero_row (bytes : list N) (lane : N) : Prop := row bytes lane = vfill 120 0.
Definition decodes (bytes : list N) (lane : N) : Prop := exists r, decode_result (row bytes lane) = Ok r.

Section observation.
Context {P : Platform} (shape : M1CompletionOutputShapeV1) (bytes : list N).
Hypothesis Hshaped : shaped shape bytes.

Lemma observe_live_loop_wp {S} count : forall lane records (s : S),
  lane + N.of_nat count <= os_sequences shape ->
  wp (observe_live_loop count shape bytes lane records) s (fun s' o => s' = s /\
    ((exists v, o = Ok v) <-> forall i, lane <= i < lane + N.of_nat count -> decodes bytes i)).
Proof using Hshaped.
  pose proof (proj1 Hshaped) as Hs.
  induction count as [|count IH]; intros lane records s Hle; cbn [observe_live_loop].
  { apply wp_ret. split; [done|]. split; [intros _ i Hi; lia|by eauto]. }
  rewrite u32_saturating_small, (record_bytes_row _ _ _ Hshaped) by lia.
  wp_step. eapply wp_mono; [apply decode_completion_record_wp|]. intros s' o [-> ->].
  destruct (decode_result (row bytes lane)) as [r|e] eqn:Hdec.
  - eapply wp_mono; [apply IH; lia|]. intros s' o [-> Ho]. split; [done|]. rewrite Ho. split.
    + intros H i Hi. destruct (decide (i = lane)) as [->|]; [by exists r|apply H; lia].
    + intros H i Hi. apply H. lia.
  - apply wp_ret. split; [done|]. split; [by intros [v Hv]|]. intros H.
    destruct (H lane) as [r Hr]; [lia|congruence].
Qed.

Lemma zero_row_position lane :
  lane < os_sequences shape ->
  iter_position (fun byte => negb (byte =? 0)) (row bytes lane) = None <-> zero_row bytes lane.
Proof using Hshaped.
  intros Hl. destruct Hshaped as (_ & He & Hv).
  rewrite iter_position_None. unfold zero_row, vfill.
  assert (Hlen : length (row bytes lane) = 120%nat).
  { unfold row. rewrite length_subslice by lia. lia. }
  split.
  - intros Hz. change (N.to_nat 120) with 120%nat. rewrite <- Hlen. apply CompactFacts.forallb_zero_replicate.
    rewrite <- Hz. clear. induction (row bytes lane) as [|x l IH]; [done|]. cbn [forallb].
    rewrite negb_involutive, N.eqb_sym. by f_equal.
  - intros ->. by vm_compute.
Qed.

Lemma observe_inactive_loop_ok count : forall lane records,
  lane + N.of_nat count <= os_sequences shape ->
  (exists v, observe_inactive_loop count shape bytes lane records = Ok v) <->
  forall i, lane <= i < lane + N.of_nat count -> zero_row bytes i.
Proof using Hshaped.
  pose proof (proj1 Hshaped) as Hs.
  induction count as [|count IH]; intros lane records Hle; cbn [observe_inactive_loop].
  { split; [intros _ i Hi; lia|by eauto]. }
  rewrite u32_saturating_small, (record_bytes_row _ _ _ Hshaped) by lia.
  pose proof (zero_row_position lane ltac:(lia)) as Hz.
  destruct (iter_position _ _) as [k|].
  - split; [by intros [v Hv]|]. intros H. by discriminate (proj2 Hz (H lane ltac:(lia))).
  - rewrite IH by lia. split.
    + intros H i Hi. destruct (decide (i = lane)) as [->|]; [by apply Hz|apply H; lia].
    + intros H i Hi. apply H. lia.
Qed.
End observation.

Definition reservable {P : Platform} (capacity n : N) : Prop :=
  n <= capacity \/ is_Some (try_reserve_exact n).

Lemma vec_reserve_ok {P : Platform} {T} (v : HostVec T) n :
  is_Some (vec_reserve v n) <-> reservable (vec_capacity v) n.
Proof.
  unfold vec_reserve, reservable. destruct (N.leb_spec n (vec_capacity v)).
  - split; [by left|by eauto].
  - rewrite fmap_is_Some. split; [by right|by intros [?|?]; [lia|]].
Qed.

(** An image is observed exactly when its shape, its live rows and its inactive
    rows are. *)
Lemma observe_wp {P : Platform} {S} shape sel scheduled bytes records (s : S) :
  m1_completion_output_shape_v1 (os_selection shape) = Ok shape ->
  wp (observe_records_with_storage shape sel scheduled bytes records) s (fun s' o => s' = s /\
    ((exists x, o = Ok x) <->
      os_selection shape = sel /\ scheduled_member_count scheduled <= os_sequences shape /\
      reservable (vec_capacity records) (scheduled_member_count scheduled) /\
      vlen bytes = os_extent_bytes shape /\
      (forall i, i < scheduled_member_count scheduled -> decodes bytes i) /\
      (forall i, scheduled_member_count scheduled <= i < os_sequences shape -> zero_row bytes i)) /\
    forall x, o = Ok x -> x.1 = Sha256_digest bytes).
Proof.
  intros (_ & [Hs0 Hs] & He)%output_shape_ok. unfold observe_records_with_storage.
  set (n := scheduled_member_count scheduled).
  case_bool_decide as Hsel; cbn [negb].
  2:{ apply wp_ret. split; [done|]. split; [|by intros x]. split; [by intros [x Hx]|]. by intros []. }
  destruct (N.ltb_spec (os_sequences shape) n) as [Hn|Hn].
  { apply wp_ret. split; [done|]. split; [|by intros x]. split; [by intros [x Hx]|]. intros (_ & ? & _). lia. }
  pose proof (vec_reserve_ok (vec_clear records) n) as Hres.
  destruct (vec_reserve (vec_clear records) n) as [v|].
  2:{ apply wp_ret. split; [done|]. split; [|by intros x]. split; [by intros [x Hx]|].
      intros (_ & _ & Hr & _). by apply Hres, is_Some_None in Hr. }
  assert (Hr : reservable (vec_capacity records) n) by by apply Hres.
  wp_step. destruct (decide (vlen bytes = os_extent_bytes shape)) as [Hl|Hl].
  - assert (Hsh : shaped shape bytes) by done.
    eapply wp_mono; [apply (observe_live_loop_wp shape bytes Hsh); lia|]. intros s' o [-> Ho].
    destruct o as [v'|e].
    + pose proof (observe_inactive_loop_ok shape bytes Hsh (N.to_nat (os_sequences shape - n)) n v' ltac:(lia)) as Hi.
      destruct (observe_inactive_loop _ _ _ _ _) as [v2|e2]; apply wp_ret; (split; [done|]).
      * split; [|by intros x [= <-]]. split; [|by eauto]. intros _. split_and?; [done..| |].
        -- intros i Hi'. apply Ho; [by eauto|lia].
        -- intros i Hi'. apply Hi; [by eauto|lia].
      * split; [|by intros x]. split; [by intros [x Hx]|]. intros (_ & _ & _ & _ & _ & Hz).
        destruct (proj2 Hi) as [? ?]; [|done]. intros i Hi'. apply Hz. lia.
    + split; [done|]. split; [|by intros x]. split; [by intros [x Hx]|]. intros (_ & _ & _ & _ & Hd & _).
      destruct (proj2 Ho) as [? ?]; [|done]. intros i Hi'. apply Hd. lia.
  - assert (Hbad : forall lane, exists e, record_bytes shape bytes lane = Err e)
      by (intros; by apply record_bytes_unshaped).
    assert (Hseq : os_sequences shape <> 0).
    { lia. }
    destruct (N.to_nat n) as [|k] eqn:Hk; cbn [observe_live_loop].
    + apply wp_ret. cbv beta match. replace (N.to_nat (os_sequences shape - n)) with (Datatypes.S (N.to_nat (os_sequences shape - n - 1))) by lia.
      cbn [observe_inactive_loop]. destruct (Hbad (u32_saturating n)) as [e ->].
      apply wp_ret. split; [done|]. split; [|by intros x]. split; [by intros [x Hx]|]. intros (_ & _ & _ & ? & _). done.
    + destruct (Hbad (u32_saturating 0)) as [e ->].
      apply wp_ret. split; [done|]. split; [|by intros x]. split; [by intros [x Hx]|]. intros (_ & _ & _ & ? & _). done.
Qed.

(** ** What the join admits *)
Section join.
Context {P : Platform} (shape : M1CompletionOutputShapeV1) (bytes : list N)
  (scheduled : Scheduler.M1ScheduledDispatchV1) (rs : list RequestId)
  (rows : option M1QualificationFinalRowChoicesV1).
Hypothesis Hshaped : shaped shape bytes.
Hypothesis Hroster : roster scheduled rs.
Hypothesis Hbytes : bytes_ok bytes.

(** The independently derived choice of a qualification final row. *)
Definition final_choice (lane : N) (e : CompletionWireSemanticExpectation) : option N :=
  match e, rows with
  | ExpectQualificationFinalRow _, Some final_rows => vget (fr_choices final_rows) lane
  | _, _ => None
  end.

Definition ordinal_ok (lane : N) (e : CompletionWireSemanticExpectation) : Prop :=
  forall context, qualification_context e = Some context ->
    Qualification.lane_ordinal (Qualification.lane context) = lane.

(** One lane: its step belongs to the batch, and the record is one the step
    admits. *)
Record lane_admits (lane : N) (e : CompletionWireExpectation) (c : InertCheckedCompletionRecord) : Prop := {
  la_ordinal : ordinal_ok lane (expected_semantics e);
  la_selection : selection (plan e) = os_selection shape;
  la_epoch : completion_epoch (plan e) = scheduled_epoch scheduled;
  la_request : vget rs lane = Some (request (plan e));
  la_publishable : publishable (plan e);
  la_admitted : admitted (plan e) (expected_semantics e) (final_choice lane (expected_semantics e)) c
}.

Fixpoint lanes_admit (lane : N) (es : list CompletionWireExpectation)
    (cs : list InertCheckedCompletionRecord) : Prop :=
  match es, cs with
  | [], [] => True
  | e :: es', c :: cs' => lane_admits lane e c /\ lanes_admit (lane + 1) es' cs'
  | _, _ => False
  end.

Lemma lanes_admit_length es : forall lane cs, lanes_admit lane es cs -> length cs = length es.
Proof.
  clear. induction es as [|e es IH]; intros lane [|c cs]; simpl; try done.
  intros [_ H]. f_equal. by eapply IH.
Qed.

Lemma check_record_wp {S} lane e (s : S) (Q : S -> result InertCheckedCompletionRecord M1CompletedOutputCheckErrorV1 -> Prop) :
  (forall fr, rows = Some fr -> lane < vlen (fr_choices fr)) ->
  (forall o, (forall c, o = Ok c <->
     check_result (row bytes lane) e (final_choice lane (expected_semantics e)) = Ok c) -> Q s o) ->
  wp (match expected_semantics e, rows with
      | ExpectQualificationFinalRow _, Some final_rows =>
          match vget (fr_choices final_rows) lane with
          | None =>
              ret (Err (QualificationFinalChoiceCount (scheduled_member_count scheduled)
                          (vlen (fr_choices final_rows))))
          | Some choice =>
              let! r := check_inert_qualification_final_completion_record (row bytes lane) e choice in
              ret match r with Ok c => Ok c | Err source => Err (LiveRecord lane source) end
          end
      | _, _ =>
          let! r := check_inert_completion_record (row bytes lane) e in
          ret match r with Ok c => Ok c | Err source => Err (LiveRecord lane source) end
      end) s Q.
Proof using Type.
  clear. intros Hrows HQ.
  assert (Hmain : forall choice,
    (forall o, (forall c, o = Ok c <-> check_result (row bytes lane) e choice = Ok c) -> Q s o) ->
    wp (let! r := check_completion_record (row bytes lane) e choice in
        ret match r with Ok c => Ok c | Err source => Err (LiveRecord lane source) end) s Q).
  { intros choice HQ'. wp_step. eapply wp_mono; [apply check_completion_record_wp|]. intros s' o [-> ->].
    apply wp_ret, HQ'. intros c. case_match; split; intros; by simplify_eq. }
  unfold final_choice in HQ. destruct (expected_semantics e); try by apply Hmain.
  destruct rows as [fr|]; [|by apply Hmain].
  destruct (vget_lt (fr_choices fr) lane) as [choice Hc]; [by apply Hrows|].
  rewrite Hc in *. by apply Hmain.
Qed.

Lemma row_bytes_ok lane : bytes_ok (row bytes lane).
Proof using Hbytes. by apply Forall_subslice. Qed.

Lemma check_lane_wp {S} observed lane e (s : S) :
  oi_shape observed = shape -> backing_bytes (oi_backing observed) = bytes ->
  lane < vlen rs -> vlen rs <= os_sequences shape -> plan_ok (plan e) ->
  (forall fr, rows = Some fr -> lane < vlen (fr_choices fr)) ->
  wp (check_lane observed (os_selection shape) scheduled rows lane e) s (fun s' o => s' = s /\
    forall c, o = Ok c <-> lane_admits lane e c /\ row bytes lane = encode_record (record c)).
Proof using Hshaped Hroster Hbytes.
  intros Hosh Hback Hlane Hseq Hplan Hfr. unfold check_lane, raw_record_bytes.
  rewrite Hosh, Hback. pose proof (ro_bound _ _ Hroster) as Hb. unfold Scheduler.M1_MAX_ACTIVE_SEQUENCES in Hb.
  destruct (vget_lt rs lane Hlane) as [r Hr].
  assert (Hord : forall d,
    (d = match qualification_context (expected_semantics e) with
         | Some context =>
             if negb (Qualification.lane_ordinal (Qualification.lane context) =? lane)
             then Some (QualificationLaneMismatch (u32_saturating lane)
                          (Qualification.lane_ordinal (Qualification.lane context))) else None
         | None => None
         end) -> d = None <-> ordinal_ok lane (expected_semantics e)).
  { intros d ->. unfold ordinal_ok. destruct (qualification_context _) as [ctx|].
    - destruct (N.eqb_spec (Qualification.lane_ordinal (Qualification.lane ctx)) lane) as [E|E]; cbn [negb].
      + split; [by intros _ ? [= <-]|done].
      + split; [done|]. intros H. destruct E. exact (H ctx eq_refl).
    - by split. }
  destruct (match qualification_context _ with Some _ => _ | None => None end) as [src|] eqn:Hd;
    pose proof (Hord _ eq_refl) as Ho; rewrite ?Hd in Ho; cbv beta iota zeta.
  { apply wp_ret. split; [done|]. intros c. split; [done|]. intros [[Hbad _ _ _ _ _] _]. by apply Ho in Hbad. }
  case_bool_decide as Hsel; cbn [negb].
  2:{ apply wp_ret. split; [done|]. intros c. split; [done|]. by intros [[] _]. }
  case_bool_decide as Hep; cbn [negb].
  2:{ apply wp_ret. split; [done|]. intros c. split; [done|]. by intros [[] _]. }
  wp_step. eapply scheduled_member_wp; [done|exact Hr|].
  case_bool_decide as Hreq; cbn [negb].
  2:{ apply wp_ret. split; [done|]. intros c. split; [done|]. intros [[] _]. congruence. }
  rewrite u32_saturating_small, (record_bytes_row _ _ _ Hshaped) by lia.
  wp_step. apply check_record_wp; [done|]. intros o Hok.
  assert (Hfin : forall c, o = Ok c <-> lane_admits lane e c /\ row bytes lane = encode_record (record c)).
  { intros c. rewrite Hok. destruct e as [pl sem]. cbn [plan expected_semantics] in *.
    rewrite check_result_ok by (done || apply row_bytes_ok).
    split.
    - intros (Hp & Ha & He). split; [|done]. split; try done; [by apply Ho|]. cbn. congruence.
    - by intros [[] ?]. }
  destruct o as [c0|err]; [apply wp_ret|]; done.
Qed.

Lemma lane_admits_length lane e c :
  plan_ok (plan e) -> lane_admits lane e c -> length (encode_record (record c)) = 120%nat.
Proof using Type.
  clear. intros Hplan [_ _ _ _ _ (tokens & Hpay & Hlive & Hr & _)].
  pose proof (payload_count _ _ _ _ _ Hpay) as [_ Hcount].
  assert (Henc : encodable (record c)) by (rewrite Hr; by apply plan_record_encodable).
  apply encode_record_length in Henc. unfold vlen in Henc. lia.
Qed.

Lemma lanes_admit_cons lane e es c l :
  lane < vlen rs -> lane + 1 + vlen es <= os_sequences shape -> plan_ok (plan e) ->
  lanes_admit lane (e :: es) (c :: l) /\
    subslice bytes (lane * 120) (lane * 120 + (vlen es + 1) * 120) =
      concat (encode_record ∘ record <$> c :: l) <->
  (lane_admits lane e c /\ row bytes lane = encode_record (record c)) /\
  lanes_admit (lane + 1) es l /\
    subslice bytes ((lane + 1) * 120) ((lane + 1) * 120 + vlen es * 120) =
      concat (encode_record ∘ record <$> l).
Proof using Hshaped.
  intros Hlane Hle Hplan. destruct Hshaped as (_ & He & Hv). cbn [lanes_admit fmap list_fmap concat].
  rewrite <- row_app. split.
  - intros [[Hadm Hl] Hb]. pose proof (lane_admits_length _ _ _ Hplan Hadm) as Hlen.
    apply app_inj_1 in Hb as [Hrow Hrest]; [done|].
    unfold row. rewrite length_subslice by lia. cbn [compose] in *. rewrite Hlen. lia.
  - intros ([Hadm ->] & Hl & ->). done.
Qed.

Lemma check_loop_wp {S} observed es : forall lane records (s : S),
  oi_shape observed = shape -> backing_bytes (oi_backing observed) = bytes ->
  lane + vlen es <= vlen rs -> vlen rs <= os_sequences shape ->
  Forall (fun e => plan_ok (plan e)) es ->
  (forall fr, rows = Some fr -> vlen rs <= vlen (fr_choices fr)) ->
  wp (check_loop es lane observed (os_selection shape) scheduled rows records) s (fun s' o => s' = s /\
    forall l', (exists v, o = Ok v /\ vec_elems v = l') <-> exists l, l' = vec_elems records ++ l /\
      lanes_admit lane es l /\
      subslice bytes (lane * 120) (lane * 120 + vlen es * 120) = concat (encode_record ∘ record <$> l)).
Proof using Hshaped Hroster Hbytes.
  induction es as [|e es IH]; intros lane records s Hosh Hback Hle Hseq Hplan Hfr; cbn [check_loop].
  { apply wp_ret. split; [done|]. intros l'. rewrite subslice_nil by (unfold vlen; simpl; lia). split.
    - intros (v & [= <-] & Hl). exists []. by rewrite app_nil_r.
    - intros ([|c l] & -> & Hl); [|by destruct Hl]. exists records. by rewrite app_nil_r. }
  apply Forall_cons in Hplan as [Hpe Hpes]. rewrite vlen_cons in *.
  apply wp_try_bind. eapply wp_mono; [apply check_lane_wp; try done; [lia|]|].
  { intros fr Hr. specialize (Hfr fr Hr). lia. }
  intros s' o [-> Ho]. destruct o as [c|err].
  - eapply wp_mono; [apply IH; (done || lia)|]. intros s' o [-> Hrest]. split; [done|]. intros l'.
    rewrite Hrest. cbn [vec_push vec_elems]. split.
    + intros (l & -> & Hl). exists (c :: l). split; [by rewrite <- app_assoc|].
      apply lanes_admit_cons; [lia..|done|]. split; [by apply Ho|done].
    + intros ([|c' l] & -> & Hl); [by destruct Hl|].
      apply lanes_admit_cons in Hl as [Hc Hl]; [|lia..|done]. apply Ho in Hc as [= <-].
      exists l. by rewrite <- app_assoc.
  - split; [done|]. intros l'. split; [by intros (v & [=] & _)|].
    intros ([|c l] & -> & Hl); [by destruct Hl|].
    apply lanes_admit_cons in Hl as [Hc _]; [|lia..|done]. by apply Ho in Hc.
Qed.

Lemma lanes_decode es : forall lane l,
  lane + vlen es <= vlen rs -> lane + vlen es <= os_sequences shape ->
  Forall (fun e => plan_ok (plan e)) es -> lanes_admit lane es l ->
  subslice bytes (lane * 120) (lane * 120 + vlen es * 120) = concat (encode_record ∘ record <$> l) ->
  forall i, lane <= i < lane + vlen es -> decodes bytes i.
Proof using Hshaped Hbytes.
  induction es as [|e es IH]; intros lane [|c l] Hle Hseq Hplan; try by intros [].
  { intros _ _ i Hi. unfold vlen in Hi. simpl in Hi. lia. }
  apply Forall_cons in Hplan as [Hpe Hpes]. rewrite vlen_cons in *. intros Hl Hb i Hi.
  destruct (proj1 (lanes_admit_cons lane e es c l ltac:(lia) ltac:(lia) Hpe) (conj Hl Hb))
    as ([[_ _ _ _ _ (tokens & Hpay & Hlive & Hr & _)] Hrow] & Hl' & Hb').
  destruct (decide (i = lane)) as [->|]; [|apply (IH (lane + 1) l); (done || lia)].
  pose proof (payload_count _ _ _ _ _ Hpay) as [_ Hcount].
  exists (record c). rewrite Hrow. apply decode_result_spec.
  - rewrite <- Hrow. apply row_bytes_ok.
  - split; [rewrite Hr; by apply plan_record_encodable|done].
Qed.

Lemma zero_rows k : forall a, a + N.of_nat k <= os_sequences shape ->
  (forall i, a <= i < a + N.of_nat k -> zero_row bytes i) <->
  subslice bytes (a * 120) (a * 120 + N.of_nat k * 120) = vfill (N.of_nat k * 120) 0.
Proof using Hshaped.
  destruct Hshaped as (_ & He & Hv). induction k as [|k IH]; intros a Hle.
  { rewrite subslice_nil by lia. split; [done|]. intros _ i Hi. lia. }
  replace (N.of_nat (S k)) with (N.of_nat k + 1) by lia. rewrite <- row_app.
  replace (vfill ((N.of_nat k + 1) * 120) 0) with (vfill 120 0 ++ vfill (N.of_nat k * 120) 0).
  2:{ unfold vfill. rewrite <- replicate_add. f_equal. lia. }
  split.
  - intros H. f_equal; [apply H; lia|]. apply IH; [lia|]. intros i Hi. apply H. lia.
  - intros H. apply app_inj_1 in H as [H0 H].
    2:{ unfold row. rewrite length_subslice by lia. unfold vfill. rewrite length_replicate. lia. }
    intros i Hi. destruct (decide (i = a)) as [->|]; [done|]. eapply IH; [| exact H |]; lia.
Qed.
End join.

(** ** Observation and join in sequence *)
Section complete.
Context {P : Platform}.

(** The two calls the physical lifecycle makes on a completed readback; an
    error of either ends the completion. *)
Definition complete_readback {S} (shape : M1CompletionOutputShapeV1) (sel : Graph.Qwen3PlanSelection)
    (scheduled : Scheduler.M1ScheduledDispatchV1) (readback : ServiceCompletedReadbackV1)
    (expectations : list CompletionWireExpectation) (rows : option M1QualificationFinalRowChoicesV1) :
    M S (option M1CheckedCompletionOutputV1) :=
  let! observed := observe_m1_completed_output_v1 shape sel scheduled readback in
  match observed with
  | Err _ => ret None
  | Ok image =>
      let! checked := check_m1_completed_output image sel scheduled expectations rows None in
      ret match checked with Ok output => Some output | Err _ => None end
  end.

Definition checked_output (shape : M1CompletionOutputShapeV1)
    (scheduled : Scheduler.M1ScheduledDispatchV1) (readback : ServiceCompletedReadbackV1)
    (records : list InertCheckedCompletionRecord) : M1CheckedCompletionOutputV1 :=
  mkCheckedOutput (os_selection shape) (scheduled_epoch scheduled)
    (readback_dispatch_generation readback) (readback_data_index readback)
    (readback_offset_bytes readback) (os_extent_bytes shape) (Sha256_digest (readback_bytes readback))
    None None records None None.

(** The images of a batch: the records its steps admit, lane by lane, and
    zeros. *)
Record accepted_image (shape : M1CompletionOutputShapeV1) (scheduled : Scheduler.M1ScheduledDispatchV1)
    (rs : list RequestId) (expectations : list CompletionWireExpectation)
    (rows : option M1QualificationFinalRowChoicesV1) (bytes : list N)
    (records : list InertCheckedCompletionRecord) : Prop := {
  ai_count : vlen expectations = vlen rs;
  ai_capacity : vlen rs <= os_sequences shape;
  ai_rows fr : rows = Some fr -> vlen (fr_choices fr) = vlen rs;
  ai_contexts : check_contexts scheduled expectations = Ok tt;
  ai_lanes : lanes_admit shape scheduled rs rows 0 expectations records;
  ai_bytes : bytes = concat (encode_record ∘ record <$> records)
                     ++ vfill ((os_sequences shape - vlen rs) * 120) 0
}.

Lemma accepted_rows shape scheduled rs expectations rows bytes records :
  Forall (fun e => plan_ok (plan e)) expectations ->
  0 < os_sequences shape <= 32 -> os_extent_bytes shape = os_sequences shape * 120 ->
  bytes_ok bytes -> vlen expectations = vlen rs -> vlen rs <= os_sequences shape ->
  lanes_admit shape scheduled rs rows 0 expectations records ->
  bytes = concat (encode_record ∘ record <$> records) ++ vfill ((os_sequences shape - vlen rs) * 120) 0 <->
  shaped shape bytes /\
    subslice bytes 0 (vlen rs * 120) = concat (encode_record ∘ record <$> records) /\
    (forall i, vlen rs <= i < os_sequences shape -> zero_row bytes i).
Proof.
  intros Hplan [H0 Hseq] Hext Hok Hcount Hcap Hadm.
  assert (Hlen : forall es l lane, Forall (fun e => plan_ok (plan e)) es ->
    lanes_admit shape scheduled rs rows lane es l ->
    vlen (concat (encode_record ∘ record <$> l)) = vlen es * 120).
  { clear. induction es as [|e es IH]; intros [|c l] lane; try by intros _ [].
    intros [Hp Hps]%Forall_cons [Hc Hl]. cbn [fmap list_fmap concat].
    rewrite vlen_app, vlen_cons, (IH _ _ Hps Hl). unfold vlen at 1. cbn [compose].
    rewrite (lane_admits_length _ _ _ _ _ _ _ Hp Hc). lia. }
  specialize (Hlen _ _ _ Hplan Hadm). rewrite Hcount in Hlen.
  assert (Hz : shaped shape bytes ->
    (forall i, vlen rs <= i < os_sequences shape -> zero_row bytes i) <->
    subslice bytes (vlen rs * 120) (os_sequences shape * 120) =
      vfill ((os_sequences shape - vlen rs) * 120) 0).
  { intros Hsh. pose proof (zero_rows shape bytes Hsh (N.to_nat (os_sequences shape - vlen rs)) (vlen rs) ltac:(lia)) as H.
    rewrite N2Nat.id in H.
    replace (vlen rs + (os_sequences shape - vlen rs)) with (os_sequences shape) in H by lia.
    by replace (vlen rs * 120 + (os_sequences shape - vlen rs) * 120) with (os_sequences shape * 120) in H by lia. }
  split.
  - intros ->.
    assert (Hsh : shaped shape (concat (encode_record ∘ record <$> records)
                                ++ vfill ((os_sequences shape - vlen rs) * 120) 0)).
    { split; [done|]. split; [done|]. rewrite vlen_app, vlen_vfill, Hlen. lia. }
    split; [done|]. split; [by apply subslice_first|]. apply (Hz Hsh).
    rewrite <- (app_nil_r (vfill _ _)) at 1. apply subslice_mid; [done|].
    rewrite vlen_vfill, Hlen. lia.
  - intros (Hsh & Hlive & Hzero%(Hz Hsh)). rewrite <- Hlive, <- Hzero.
    rewrite subslice_app by lia. destruct Hsh as (_ & _ & Hv). rewrite <- Hext, <- Hv.
    symmetry. apply subslice_all.
Qed.

Lemma observe_v1_wp {S} shape sel scheduled readback (s : S) :
  m1_completion_output_shape_v1 (os_selection shape) = Ok shape ->
  wp (observe_m1_completed_output_v1 shape sel scheduled readback) s (fun s' o => s' = s /\
    ((exists image, o = Ok image) <->
      os_selection shape = sel /\ scheduled_member_count scheduled <= os_sequences shape /\
      reservable 0 (scheduled_member_count scheduled) /\
      vlen (readback_bytes readback) = os_extent_bytes shape /\
      (forall i, i < scheduled_member_count scheduled -> decodes (readback_bytes readback) i) /\
      (forall i, scheduled_member_count scheduled <= i < os_sequences shape ->
         zero_row (readback_bytes readback) i)) /\
    forall image, o = Ok image -> exists records,
      image = mkImage shape (scheduled_epoch scheduled) (Sha256_digest (readback_bytes readback))
                (Physical readback) records).
Proof.
  intros Hshape. unfold observe_m1_completed_output_v1, observe_records. wp_step. wp_step.
  eapply wp_mono; [by apply observe_wp|]. intros s' o (-> & Hiff & Hsha). apply wp_ret.
  destruct o as [[sha records]|[err v]]; apply wp_ret; (split; [done|]).
  - split; [|].
    + split; [intros _; apply Hiff; by eauto|by eauto].
    + intros image [= <-]. exists records. f_equal. by apply (Hsha (sha, records)).
  - split; [|by intros ? [=]]. split; [by intros [? [=]]|]. intros [x Hx]%Hiff. done.
Qed.

Lemma check_output_wp {S} shape sel scheduled rs readback records expectations rows (s : S) :
  let bytes := readback_bytes readback in
  let image := mkImage shape (scheduled_epoch scheduled) (Sha256_digest bytes) (Physical readback) records in
  os_selection shape = sel -> shaped shape bytes -> roster scheduled rs -> bytes_ok bytes ->
  vlen rs <= os_sequences shape -> Forall (fun e => plan_ok (plan e)) expectations ->
  wp (check_m1_completed_output image sel scheduled expectations rows None) s (fun s' o => s' = s /\
    forall out, o = Ok out <->
      vlen expectations = vlen rs /\ (forall fr, rows = Some fr -> vlen (fr_choices fr) = vlen rs) /\
      check_contexts scheduled expectations = Ok tt /\ reservable 0 (vlen rs) /\
      exists cs, lanes_admit shape scheduled rs rows 0 expectations cs /\
        subslice bytes 0 (vlen rs * 120) = concat (encode_record ∘ record <$> cs) /\
        out = checked_output shape scheduled readback cs).
Proof.
  cbv zeta. intros <- Hsh Hro Hok Hcap Hplan. unfold check_m1_completed_output.
  cbn [oi_shape oi_epoch oi_backing oi_raw_sha256]. rewrite !bool_decide_true by done. cbn [negb].
  rewrite (ro_count _ _ Hro).
  destruct (N.eqb_spec (vlen expectations) (vlen rs)) as [Hc|Hc]; cbn [negb].
  2:{ apply wp_ret. split; [done|]. intros out. split; [done|]. by intros [? _]. }
  assert (Hfr : forall d, d = match (fun fr => vlen (fr_choices fr)) <$> rows with
      | Some count => if negb (count =? vlen rs) then Some count else None
      | None => None end ->
    d = None <-> forall fr, rows = Some fr -> vlen (fr_choices fr) = vlen rs).
  { intros d ->. destruct rows as [fr|]; simpl; [|by split].
    destruct (N.eqb_spec (vlen (fr_choices fr)) (vlen rs)) as [E|E]; simpl.
    - split; [by intros _ ? [= <-]|done].
    - split; [done|]. intros H. by destruct (E (H fr eq_refl)). }
  specialize (Hfr _ eq_refl). destruct (match _ with Some _ => _ | None => None end) as [k|].
  { apply wp_ret. split; [done|]. intros out. split; [done|]. intros (_ & H & _). by apply Hfr in H. }
  pose proof (proj1 Hfr eq_refl) as Hrows.
  destruct (check_contexts scheduled expectations) as [[]|err] eqn:Hctx.
  2:{ apply wp_ret. split; [done|]. intros out. split; [done|]. by intros (_ & _ & ? & _). }
  pose proof (vec_reserve_ok (vec_clear (default vec_new (@None (HostVec InertCheckedCompletionRecord))))
    (vlen expectations)) as Hres. cbn [vec_clear vec_capacity default vec_new] in Hres.
  rewrite Hc in *.
  destruct (vec_reserve _ _) as [v|] eqn:Hv.
  2:{ apply wp_ret. split; [done|]. intros out. split; [done|]. intros (_ & _ & _ & H & _).
      apply Hres in H. by apply is_Some_None in H. }
  assert (He : vec_elems v = []).
  { revert Hv. unfold vec_reserve. case_match; [by intros [= <-]|].
    intros (? & _ & ->)%fmap_Some. done. }
  wp_step. eapply wp_mono; [apply (check_loop_wp shape (readback_bytes readback) scheduled rs rows Hsh Hro Hok);
    try done; [lia|]|].
  { intros fr Hf. by rewrite (Hrows fr Hf). }
  intros s' o [-> Ho]. rewrite Hc, He in Ho. change (0 * 120) with 0 in Ho. rewrite N.add_0_l in Ho.
  destruct o as [v'|err]; cbv beta.
  - apply wp_ret. split; [done|]. intros out. split.
    + intros [= <-]. split_and!; [done..|by apply Hres; eauto|].
      destruct (proj1 (Ho (vec_elems v')) (ex_intro _ v' (conj eq_refl eq_refl))) as (l & -> & Hl & Hb).
      by exists l.
    + intros (_ & _ & _ & _ & cs & Hl & Hb & ->).
      destruct (proj2 (Ho cs)) as (v2 & [= ->] & Hv2); [by exists cs|]. by rewrite <- Hv2.
  - split; [done|]. intros out. split; [done|]. intros (_ & _ & _ & _ & cs & Hl & Hb & _).
    destruct (proj2 (Ho cs)) as (v2 & [=] & _). by exists cs.
Qed.

Lemma complete_readback_wp shape sel scheduled rs readback expectations rows :
  m1_completion_output_shape_v1 sel = Ok shape -> roster scheduled rs ->
  bytes_ok (readback_bytes readback) -> Forall (fun e => plan_ok (plan e)) expectations ->
  wp (complete_readback shape sel scheduled readback expectations rows) tt (fun _ o =>
    forall out, o = Some out <-> reservable 0 (vlen rs) /\
      exists records, accepted_image shape scheduled rs expectations rows (readback_bytes readback) records /\
        out = checked_output shape scheduled readback records).
Proof.
  intros Hshape Hro Hok Hplan. destruct (output_shape_ok _ _ Hshape) as (<- & Hseq & Hext).
  unfold complete_readback. wp_step. eapply wp_mono; [by apply observe_v1_wp|].
  intros [] o (_ & Hobs & Himg). rewrite (ro_count _ _ Hro) in Hobs.
  pose proof (fun cs => accepted_rows shape scheduled rs expectations rows _ cs Hplan Hseq Hext Hok) as Hrows.
  destruct o as [image|err].
  - destruct (proj1 Hobs ltac:(by eauto)) as (_ & Hcap & Hres & Hlen & _ & Hzero).
    assert (Hsh : shaped shape (readback_bytes readback)) by (split_and!; lia).
    destruct (Himg _ eq_refl) as [records ->]. wp_step.
    eapply wp_mono; [apply (check_output_wp shape _ scheduled rs); done|].
    intros [] o (_ & Hchk). apply wp_ret. intros out.
    transitivity (o = Ok out); [destruct o; split; congruence|]. rewrite Hchk. split.
    + intros (Hc & Hfr & Hctx & Hr & cs & Hl & Hb & ->). split; [done|]. exists cs. split; [|done].
      split; try done. by apply Hrows.
    + intros (Hr & cs & [Hc _ Hfr Hctx Hl Hb] & ->). apply Hrows in Hb as (_ & Hb & _); [|done..].
      split_and!; [done..|]. by exists cs.
  - apply wp_ret. intros out. split; [done|]. intros (Hr & cs & [Hc Hcap Hfr Hctx Hl Hb] & ->).
    apply Hrows in Hb as (Hsh & Hb & Hz); [|done..].
    destruct (proj2 Hobs) as [? ?]; [|done]. split_and!; try done; [apply Hsh|].
    intros i Hi. eapply (lanes_decode shape _ scheduled rs rows Hsh Hok expectations 0 cs); try done.
    + rewrite Hc. lia.
    + rewrite Hc. lia.
    + rewrite Hc. by rewrite N.add_0_l.
    + lia.
Qed.

(** C6: a completed readback is accepted exactly when its bytes are the image of
    its batch: one record per live lane, in the roster's order, each the
    encoding of the canonical record its declared step admits, and zeros in
    every inactive lane; the checked output then carries precisely those
    records, and no input makes the two calls panic. *)
Theorem readback_exact shape sel scheduled rs readback expectations rows :
  m1_completion_output_shape_v1 sel = Ok shape -> roster scheduled rs ->
  bytes_ok (readback_bytes readback) -> Forall (fun e => plan_ok (plan e)) expectations ->
  wp (complete_readback shape sel scheduled readback expectations rows) tt (fun _ o =>
    forall out, o = Some out <-> reservable 0 (vlen rs) /\
      exists records, accepted_image shape scheduled rs expectations rows (readback_bytes readback) records /\
        out = checked_output shape scheduled readback records).
Proof. apply complete_readback_wp. Qed.
End complete.

(** A batch of two steps on an eight-lane target. *)
Definition demo_selection : Graph.Qwen3PlanSelection :=
  Graph.mkSelection Graph.Target8B Graph.Speculative Graph.SpeculativeS8K4C8192.
Definition demo_shape : M1CompletionOutputShapeV1 := mkShape demo_selection 8 960.
Definition demo_requests : list RequestId := [mkRequestId 3 9; mkRequestId 4 1].
Definition demo_plan_of (r : RequestId) : StepPlan := mkStepPlan r demo_epoch demo_identity demo_selection.
Definition demo_expectations : list CompletionWireExpectation :=
  [mkExpectation (demo_plan_of (mkRequestId 3 9)) (ExpectSpeculative [7; 11; 5; 5] [7; 11; 151935; 5; 5]);
   mkExpectation (demo_plan_of (mkRequestId 4 1)) (ExpectSpeculative [1; 2; 3; 4] [1; 2; 3; 4; 5])].
Definition demo_scheduled : Scheduler.M1ScheduledDispatchV1 :=
  Scheduler.mkScheduledDispatch (Scheduler.mkDispatchBatch demo_epoch 2)
    ((Some <$> demo_requests) ++ vfill 30 None).
Definition demo_image : list N :=
  encode_record (plan_record (demo_plan_of (mkRequestId 3 9)) [7; 11; 151935])
  ++ encode_record (plan_record (demo_plan_of (mkRequestId 4 1)) [1; 2; 3; 4; 5]) ++ vfill 720 0.

Lemma demo_roster : roster demo_scheduled demo_requests.
Proof.
  split; [done..|]. intros i r Hr. pose proof (vget_Some_lt _ _ _ Hr) as Hi.
  assert (i = 0 \/ i = 1) as [-> | ->] by (unfold vlen in Hi; simpl in Hi; lia);
    vm_compute in Hr; by injection Hr as <-.
Qed.

Lemma demo_plans_ok : Forall (fun e => plan_ok (plan e)) demo_expectations.
Proof. repeat constructor; by_decide. Qed.

Lemma readback_exact_witness :
  m1_completion_output_shape_v1 (P := demo_platform) demo_selection = Ok demo_shape /\
  roster demo_scheduled demo_requests /\ bytes_ok demo_image /\
  Forall (fun e => plan_ok (plan e)) demo_expectations /\
  exists out records,
    complete_readback (P := demo_platform) demo_shape demo_selection demo_scheduled demo_image
      demo_expectations None tt = Done tt (Some out) /\
    out = checked_output (P := demo_platform) demo_shape demo_scheduled demo_image records /\
    accepted_image (P := demo_platform) demo_shape demo_scheduled demo_requests demo_expectations None
      demo_image records.
Proof.
  assert (Hs : m1_completion_output_shape_v1 (P := demo_platform) demo_selection = Ok demo_shape)
    by (by vm_compute).
  assert (Hb : bytes_ok demo_image) by by_decide.
  pose proof demo_roster as Hr. pose proof demo_plans_ok as Hp. split_and?; [done..|].
  pose proof (readback_exact (P := demo_platform) demo_shape demo_selection demo_scheduled demo_requests
    demo_image demo_expectations None Hs Hr Hb Hp) as H.
  apply wp_done in H as ([] & o & Hrun & Ho).
  destruct o as [out|]; [|exfalso; vm_compute in Hrun; discriminate].
  destruct (proj1 (Ho out) eq_refl) as (_ & records & Hacc & Hout).
  exists out, records. exact (conj Hrun (conj Hout Hacc)).
Defined.
