(* ===== verification/SpecLoop.v ===== *)
(** The repeated speculative rounds of
    [ferric-engine/src/speculative_generation_loop.rs]: the coordinator of a
    roster of members, the binding of a round, the preflight of a checked
    completion, its commit, and the draft catch-up.  A [&self] method takes the
    coordinator as an argument, a [&mut self] method runs in its state. *)
From S2P Require Import Prelude Spec Bytes PlanSelection M1Completion CompletionWire Platform Readback.
From S2P Require Scheduler.
Local Open Scope prog_scope.

Definition M1_SPECULATIVE_STOP_TOKEN_CAPACITY_V1 : N := 2.
Definition M1_SPECULATIVE_INLINE_ROSTER_CAPACITY_V1 : N := Scheduler.M1_MAX_ACTIVE_SEQUENCES.
Definition M1_MAX_CONTEXT_TOKENS : N := 8192.
Definition QWEN3_END_OF_TEXT_TOKEN : N := 151643.
Definition QWEN3_IM_END_TOKEN : N := 151645.

(** ** Shapes, policies, members *)
Record M1SpeculativePhysicalShapeV1 := mkPhysicalShape {
  ps_selection : Graph.Qwen3PlanSelection;
  ps_sequences : N;
  ps_draft_tokens : N
}.

Record M1SpeculativeGenerationPolicyV1 := mkPolicy {
  max_output_tokens : N;
  stop_array : list N;
  stop_token_count : N
}.

Inductive M1SpeculativeTerminalReasonV1 := StopToken (token : N) | OutputLimit.
Inductive M1SpeculativeCancellationReasonV1 := Client | Deadline | ServerShutdown.
Inductive M1SpeculativeMemberStatusV1 :=
| Active
| Completed (reason : M1SpeculativeTerminalReasonV1)
| Cancelled (reason : M1SpeculativeCancellationReasonV1).

Record M1SpeculativeMemberSeedV1 := mkSeed {
  seed_request : RequestId;
  seed_round_anchor : N;
  seed_target_committed : N;
  seed_draft_committed : N;
  seed_policy : M1SpeculativeGenerationPolicyV1
}.

Record M1SpeculativeMemberStateV1 := mkMember {
  mb_request : RequestId;
  mb_policy : M1SpeculativeGenerationPolicyV1;
  mb_status : M1SpeculativeMemberStatusV1;
  mb_next_anchor : N;
  mb_target_committed : N;
  mb_draft_committed : N;
  mb_generated : N
}.

Record M1SpeculativeMemberSnapshotV1 := mkSnapshot {
  sn_request : RequestId;
  sn_status : M1SpeculativeMemberStatusV1;
  sn_next_anchor : N;
  sn_target_committed : N;
  sn_draft_committed : N;
  sn_generated : N
}.

#[global] Instance M1SpeculativePhysicalShapeV1_eq_dec : EqDecision M1SpeculativePhysicalShapeV1.
Proof. solve_decision. Defined.
#[global] Instance M1SpeculativeGenerationPolicyV1_eq_dec : EqDecision M1SpeculativeGenerationPolicyV1.
Proof. solve_decision. Defined.
#[global] Instance M1SpeculativeTerminalReasonV1_eq_dec : EqDecision M1SpeculativeTerminalReasonV1.
Proof. solve_decision. Defined.
#[global] Instance M1SpeculativeCancellationReasonV1_eq_dec : EqDecision M1SpeculativeCancellationReasonV1.
Proof. solve_decision. Defined.
#[global] Instance M1SpeculativeMemberStatusV1_eq_dec : EqDecision M1SpeculativeMemberStatusV1.
Proof. solve_decision. Defined.

Inductive M1SpeculativeGenerationLoopErrorV1 :=
| UnsupportedSelection (actual : Graph.Qwen3PlanSelection)
| InvalidOutputLimit (actual : N)
| TooManyStopTokens (maximum actual : N)
| DuplicateStopToken (token : N)
| LoopTokenOutOfRange (token : N)
| EmptyRoster
| RosterCapacity (maximum actual : N)
| InvalidRequest (lane : N) (request : RequestId)
| DuplicateRequest (first_lane lane : N)
| ContextExceeded (lane : N) (role : Graph.Qwen3ModelRole)
| NoActiveMembers
| RoundDrift (expected actual : N)
| RoundExhausted
| ZeroEpoch
| EpochSequence (expected actual : N)
| RosterCount (expected actual : N)
| RosterOrder (lane : N) (expected actual : RequestId)
| BindingMemberState (lane : N) (request : RequestId)
| LoopSelectionDrift (expected actual : Graph.Qwen3PlanSelection)
| EpochDrift (expected actual : Completion.CompletionEpoch)
| CompletionCount (expected actual : N)
| CompletionRequest (lane : N) (expected actual : RequestId)
| CompletionSemantics (lane : N)
| AcceptedCount (lane maximum actual : N)
| EmittedCount (lane expected actual : N)
| CorrectionOrBonus (lane expected actual : N)
| ControlCount (expected actual : N)
| ControlRequest (lane : N) (expected actual : RequestId)
| HostAllocation
| CoordinatorIdentityExhausted
| CoordinatorIdentityMismatch
| DraftCatchupState.

Definition LoopResult (A : Type) : Type := result A M1SpeculativeGenerationLoopErrorV1.

Definition from_selection (selection : Graph.Qwen3PlanSelection) :
    LoopResult M1SpeculativePhysicalShapeV1 :=
  if negb (bool_decide (Graph.role selection = Graph.Target8B))
     || negb (bool_decide (Graph.mode selection = Graph.Speculative))
  then Err (UnsupportedSelection selection)
  else
    match Graph.bucket selection with
    | Graph.SpeculativeS1K4C8192 => Ok (mkPhysicalShape selection 1 4)
    | Graph.SpeculativeS8K4C8192 => Ok (mkPhysicalShape selection 8 4)
    | Graph.SpeculativeS1K8C8192 => Ok (mkPhysicalShape selection 1 8)
    | Graph.SpeculativeS1K16C8192 => Ok (mkPhysicalShape selection 1 16)
    | _ => Err (UnsupportedSelection selection)
    end.

(** [for (index, token) in stop_tokens.iter().copied().enumerate()] *)
Fixpoint stop_loop {S} (stop_tokens : list N) (index : N) (bounded : list N) :
    M S (LoopResult (list N)) :=
  match stop_tokens with
  | [] => ret (Ok bounded)
  | token :: stop_tokens' =>
      if QWEN3_VOCABULARY_SIZE <=? token then ret (Err (LoopTokenOutOfRange token))
      else
        let! prior := slice_range bounded 0 index in
        if existsb (N.eqb token) prior then ret (Err (DuplicateStopToken token))
        else
          let! bounded := slice_set bounded index token in
          stop_loop stop_tokens' (index + 1) bounded
  end.

(** [M1SpeculativeGenerationPolicyV1::new] *)
Definition policy_new {S} (max_output_tokens : N) (stop_tokens : list N) :
    M S (LoopResult M1SpeculativeGenerationPolicyV1) :=
  if (max_output_tokens =? 0) || (M1_MAX_CONTEXT_TOKENS <? max_output_tokens) then
    ret (Err (InvalidOutputLimit max_output_tokens))
  else if M1_SPECULATIVE_STOP_TOKEN_CAPACITY_V1 <? vlen stop_tokens then
    ret (Err (TooManyStopTokens M1_SPECULATIVE_STOP_TOKEN_CAPACITY_V1 (vlen stop_tokens)))
  else
    let? bounded := stop_loop stop_tokens 0 (vfill M1_SPECULATIVE_STOP_TOKEN_CAPACITY_V1 0) in
    if 255 <? vlen stop_tokens then
      ret (Err (TooManyStopTokens M1_SPECULATIVE_STOP_TOKEN_CAPACITY_V1 (vlen stop_tokens)))
    else ret (Ok (mkPolicy max_output_tokens bounded (vlen stop_tokens))).

Definition policy_qwen3 {S} (max_output_tokens : N) : M S (LoopResult M1SpeculativeGenerationPolicyV1) :=
  policy_new max_output_tokens [QWEN3_END_OF_TEXT_TOKEN; QWEN3_IM_END_TOKEN].

Definition stop_tokens {S} (self : M1SpeculativeGenerationPolicyV1) : M S (list N) :=
  slice_range (stop_array self) 0 (stop_token_count self).

Definition is_stop {S} (self : M1SpeculativeGenerationPolicyV1) (token : N) : M S bool :=
  let! tokens := stop_tokens self in
  ret (existsb (N.eqb token) tokens).

Definition permits_fresh_anchor {S} (self : M1SpeculativeGenerationPolicyV1) (token : N) : M S bool :=
  if max_output_tokens self =? 0 then ret false
  else
    let! stop := is_stop self token in
    ret (negb stop).

Definition snapshot (self : M1SpeculativeMemberStateV1) : M1SpeculativeMemberSnapshotV1 :=
  mkSnapshot (mb_request self) (mb_status self) (mb_next_anchor self) (mb_target_committed self)
    (mb_draft_committed self) (mb_generated self).

(** ** Token blocks and round results *)
Record M1SpeculativeTokenBlockV1 := mkBlock { tb_tokens : list N; tb_count : N }.

Definition block_empty : M1SpeculativeTokenBlockV1 := mkBlock (vfill M1_MAX_COMPLETION_TOKENS 0) 0.

(** [M1SpeculativeTokenBlockV1::from_slice]; [copy_from_slice] overwrites the
    first [tokens.len()] elements. *)
Definition from_slice (tokens : list N) : LoopResult M1SpeculativeTokenBlockV1 :=
  if M1_MAX_COMPLETION_TOKENS <? vlen tokens then
    Err (EmittedCount 0 M1_MAX_COMPLETION_TOKENS (vlen tokens))
  else if 255 <? vlen tokens then Err (EmittedCount 0 M1_MAX_COMPLETION_TOKENS (vlen tokens))
  else Ok (mkBlock (tokens ++ drop (length tokens) (tb_tokens block_empty)) (vlen tokens)).

Definition block_tokens {S} (self : M1SpeculativeTokenBlockV1) : M S (list N) :=
  slice_range (tb_tokens self) 0 (tb_count self).

Inductive M1SpeculativeVerificationChoiceV1 := Correction (token : N) | Bonus (token : N).

Definition choice_token (self : M1SpeculativeVerificationChoiceV1) : N :=
  match self with Correction token | Bonus token => token end.

Record M1SpeculativeKvRoleSettlementV1 := mkSettlement {
  se_role : Graph.Qwen3ModelRole;
  se_pre_committed : N;
  se_tentative_end : N;
  se_commit_end : N;
  se_rollback_tokens : N
}.

Inductive M1DeviceKvCompletionDispositionV1 := DispositionContinue | DispositionRetire.
Inductive M1SpeculativeMemberControlActionV1 :=
| Continue
| Cancel (reason : M1SpeculativeCancellationReasonV1).

Record M1SpeculativeMemberControlV1 := mkControl {
  ct_request : RequestId;
  ct_action : M1SpeculativeMemberControlActionV1
}.

Record M1SpeculativeMemberRoundOutcomeV1 := mkMemberOutcome {
  mo_request : RequestId;
  mo_accepted_draft_tokens : N;
  mo_raw_emitted : M1SpeculativeTokenBlockV1;
  mo_published : M1SpeculativeTokenBlockV1;
  mo_verification_choice : M1SpeculativeVerificationChoiceV1;
  mo_target_settlement : M1SpeculativeKvRoleSettlementV1;
  mo_draft_settlement : M1SpeculativeKvRoleSettlementV1;
  mo_status : M1SpeculativeMemberStatusV1;
  mo_physical_disposition : M1DeviceKvCompletionDispositionV1;
  mo_next_draft_anchor : option N
}.

Record M1SpeculativeRoundMemberInputV1 := mkInput {
  in_request : RequestId;
  in_round_anchor : N;
  in_target_pre_committed : N;
  in_draft_pre_committed : N
}.

Record M1SpeculativeRoundBindingV1 := mkBinding {
  rb_coordinator_identity : N;
  rb_shape : M1SpeculativePhysicalShapeV1;
  rb_round : N;
  rb_epoch : Completion.CompletionEpoch;
  rb_members : list M1SpeculativeRoundMemberInputV1
}.

Record M1SpeculativePreparedMemberUpdateV1 := mkUpdate { up_member_index : N; up_generated_tokens : N }.

Record M1SpeculativePreflightedRoundV1 := mkPreflighted {
  pf_binding : M1SpeculativeRoundBindingV1;
  pf_updates : list M1SpeculativePreparedMemberUpdateV1;
  pf_outcomes : list M1SpeculativeMemberRoundOutcomeV1;
  pf_next_active_roster : list RequestId
}.

Record M1SpeculativeRoundOutcomeV1 := mkRoundOutcome {
  ro_coordinator_identity : N;
  ro_selection : Graph.Qwen3PlanSelection;
  ro_completed_round : N;
  ro_completed_epoch : Completion.CompletionEpoch;
  ro_members : list M1SpeculativeMemberRoundOutcomeV1;
  ro_next_active_roster : list RequestId
}.

Record CheckedMemberObservationV1 := mkObservation {
  ob_request : RequestId;
  ob_semantics : CheckedCompletionSemantics;
  ob_emitted : M1SpeculativeTokenBlockV1
}.

Record PreparedMemberV1 := mkPrepared {
  pm_member_index : N;
  pm_generated_tokens : N;
  pm_outcome : M1SpeculativeMemberRoundOutcomeV1
}.

(** ** The coordinator *)
Record M1SpeculativeGenerationLoopV1 := mkLoop {
  lp_identity : N;
  lp_shape : M1SpeculativePhysicalShapeV1;
  lp_members : list M1SpeculativeMemberStateV1;
  lp_next_round : N;
  lp_last_epoch : option Completion.CompletionEpoch
}.

Definition put_members (v : list M1SpeculativeMemberStateV1) (s : M1SpeculativeGenerationLoopV1) :=
  mkLoop (lp_identity s) (lp_shape s) v (lp_next_round s) (lp_last_epoch s).
Definition put_next_round (v : N) (s : M1SpeculativeGenerationLoopV1) :=
  mkLoop (lp_identity s) (lp_shape s) (lp_members s) v (lp_last_epoch s).
Definition put_last_epoch (v : option Completion.CompletionEpoch) (s : M1SpeculativeGenerationLoopV1) :=
  mkLoop (lp_identity s) (lp_shape s) (lp_members s) (lp_next_round s) v.

Definition is_active (member : M1SpeculativeMemberStateV1) : bool :=
  bool_decide (mb_status member = Active).

Definition validate_context {S} (shape : M1SpeculativePhysicalShapeV1) (lane : N)
    (member : M1SpeculativeMemberStateV1) : M S (LoopResult unit) :=
  let draft_width := ps_draft_tokens shape in
  let! target_width := add32 draft_width 1 in
  let! target_limit := sub_w M1_MAX_CONTEXT_TOKENS target_width in
  if target_limit <? mb_target_committed member then ret (Err (ContextExceeded lane Graph.Target8B))
  else
    let! draft_limit := sub_w M1_MAX_CONTEXT_TOKENS draft_width in
    if draft_limit <? mb_draft_committed member then ret (Err (ContextExceeded lane Graph.Draft06B))
    else ret (Ok tt).

Definition seed_state (seed : M1SpeculativeMemberSeedV1) : M1SpeculativeMemberStateV1 :=
  mkMember (seed_request seed) (seed_policy seed) Active (seed_round_anchor seed)
    (seed_target_committed seed) (seed_draft_committed seed) 0.

Definition validate_seed {S} (shape : M1SpeculativePhysicalShapeV1)
    (seeds : list M1SpeculativeMemberSeedV1) (lane : N) (seed : M1SpeculativeMemberSeedV1) :
    M S (LoopResult unit) :=
  if (generation (seed_request seed) =? 0)
     || (Scheduler.M1_MAX_ACTIVE_SEQUENCES <=? slot (seed_request seed))
  then ret (Err (InvalidRequest lane (seed_request seed)))
  else
    let! prior := slice_range seeds 0 lane in
    match iter_position (fun p => bool_decide (seed_request p = seed_request seed)) prior with
    | Some first_lane => ret (Err (DuplicateRequest first_lane lane))
    | None =>
        if QWEN3_VOCABULARY_SIZE <=? seed_round_anchor seed then
          ret (Err (LoopTokenOutOfRange (seed_round_anchor seed)))
        else validate_context shape lane (seed_state seed)
    end.

(** [for (lane, seed) in seeds.iter().copied().enumerate()] *)
Fixpoint seed_loop {S} (rest : list M1SpeculativeMemberSeedV1) (shape : M1SpeculativePhysicalShapeV1)
    (seeds : list M1SpeculativeMemberSeedV1) (lane : N) (members : HostVec M1SpeculativeMemberStateV1) :
    M S (LoopResult (HostVec M1SpeculativeMemberStateV1)) :=
  match rest with
  | [] => ret (Ok members)
  | seed :: rest' =>
      let? _ := validate_seed shape seeds lane seed in
      seed_loop rest' shape seeds (lane + 1) (vec_push members (seed_state seed))
  end.

(** [M1SpeculativeCoordinatorIdentityV1::fresh], on the process-wide counter. *)
Definition fresh : M N (LoopResult N) :=
  let! current := gets id in
  match checked_add u64_max current 1 with
  | None => ret (Err CoordinatorIdentityExhausted)
  | Some next => modify (fun _ => next) ;; ret (Ok current)
  end.

(** The storage is the preallocated vector of members. *)
Definition new_with_storage (selection : Graph.Qwen3PlanSelection)
    (seeds : list M1SpeculativeMemberSeedV1) (storage : HostVec M1SpeculativeMemberStateV1) :
    M N (LoopResult M1SpeculativeGenerationLoopV1) :=
  match from_selection selection with
  | Err error => ret (Err error)
  | Ok shape =>
      let? identity := fresh in
      if vlen seeds =? 0 then ret (Err EmptyRoster)
      else
        let capacity := ps_sequences shape in
        if capacity <? vlen seeds then ret (Err (RosterCapacity capacity (vlen seeds)))
        else
          let members := vec_clear storage in
          if vec_capacity members <? vlen seeds then ret (Err HostAllocation)
          else
            let? members := seed_loop seeds shape seeds 0 members in
            ret (Ok (mkLoop identity shape (vec_elems members) 0 None))
  end.

Section platform.
Context {P : Platform}.

(** [M1SpeculativeGenerationLoopStorageV1::try_new] *)
Definition loop_storage_try_new (capacity : N) : option (HostVec M1SpeculativeMemberStateV1) :=
  vec_reserve vec_new capacity.

(** [M1SpeculativeGenerationLoopV1::new] *)
Definition loop_new (selection : Graph.Qwen3PlanSelection) (seeds : list M1SpeculativeMemberSeedV1) :
    M N (LoopResult M1SpeculativeGenerationLoopV1) :=
  match loop_storage_try_new (vlen seeds) with
  | None => ret (Err HostAllocation)
  | Some storage => new_with_storage selection seeds storage
  end.

(** ** Reading *)
Definition member (self : M1SpeculativeGenerationLoopV1) (request : RequestId) :
    option M1SpeculativeMemberSnapshotV1 :=
  snapshot <$> head (filter (fun m => mb_request m = request) (lp_members self)).

Fixpoint push_requests {S} (members : list M1SpeculativeMemberStateV1) (roster : list RequestId) :
    M S (list RequestId) :=
  match members with
  | [] => ret roster
  | m :: members' =>
      let! roster := av_push M1_SPECULATIVE_INLINE_ROSTER_CAPACITY_V1 roster (mb_request m) in
      push_requests members' roster
  end.

Definition active_members (self : M1SpeculativeGenerationLoopV1) : list M1SpeculativeMemberStateV1 :=
  filter (fun m => is_active m = true) (lp_members self).

Definition active_roster {S} (self : M1SpeculativeGenerationLoopV1) : M S (list RequestId) :=
  push_requests (active_members self) [].

Definition active_count (self : M1SpeculativeGenerationLoopV1) : N := vlen (active_members self).

(** ** Binding a round *)

(** [for (lane, (member, actual)) in active.zip(roster.iter().copied()).enumerate()] *)
Fixpoint bind_loop {S} (active : list M1SpeculativeMemberStateV1) (roster : list RequestId)
    (shape : M1SpeculativePhysicalShapeV1) (active_count lane : N)
    (inputs : list M1SpeculativeRoundMemberInputV1) :
    M S (LoopResult (list M1SpeculativeRoundMemberInputV1)) :=
  match active, roster with
  | m :: active', actual :: roster' =>
      if negb (bool_decide (mb_request m = actual)) then
        ret (Err (RosterOrder lane (mb_request m) actual))
      else
        let? _ := validate_context shape lane m in
        match try_push M1_SPECULATIVE_INLINE_ROSTER_CAPACITY_V1 inputs
                (mkInput (mb_request m) (mb_next_anchor m) (mb_target_committed m)
                   (mb_draft_committed m)) with
        | None => ret (Err (RosterCapacity M1_SPECULATIVE_INLINE_ROSTER_CAPACITY_V1 active_count))
        | Some inputs => bind_loop active' roster' shape active_count (lane + 1) inputs
        end
  | _, _ => ret (Ok inputs)
  end.

(** [if let Some(last) = self.last_epoch { .. }] *)
Definition check_epoch (last_epoch : option Completion.CompletionEpoch)
    (epoch : Completion.CompletionEpoch) : LoopResult unit :=
  match last_epoch with
  | None => Ok tt
  | Some last =>
      match checked_add u64_max (Completion.value last) 1 with
      | None => Err RoundExhausted
      | Some expected =>
          if negb (Completion.value epoch =? expected) then
            Err (EpochSequence expected (Completion.value epoch))
          else Ok tt
      end
  end.

Definition bind_round {S} (self : M1SpeculativeGenerationLoopV1) (round : N)
    (epoch : Completion.CompletionEpoch) (roster : list RequestId) :
    M S (LoopResult M1SpeculativeRoundBindingV1) :=
  if negb (round =? lp_next_round self) then ret (Err (RoundDrift (lp_next_round self) round))
  else if lp_next_round self =? u64_max then ret (Err RoundExhausted)
  else if Completion.value epoch =? 0 then ret (Err ZeroEpoch)
  else
    match check_epoch (lp_last_epoch self) epoch with
    | Err error => ret (Err error)
    | Ok _ =>
        let active := active_members self in
        let active_count := vlen active in
        if active_count =? 0 then ret (Err NoActiveMembers)
        else if negb (vlen roster =? active_count) then
          ret (Err (RosterCount active_count (vlen roster)))
        else
          let? inputs := bind_loop active roster (lp_shape self) active_count 0 [] in
          ret (Ok (mkBinding (lp_identity self) (lp_shape self) round epoch inputs))
    end.

(** [for (lane, (member, input)) in active.zip(binding.members.iter()).enumerate()] *)
Fixpoint validate_members (active : list M1SpeculativeMemberStateV1)
    (inputs : list M1SpeculativeRoundMemberInputV1) (lane : N) : LoopResult unit :=
  match active, inputs with
  | m :: active', input :: inputs' =>
      if negb (bool_decide (mb_request m = in_request input)) then
        Err (RosterOrder lane (mb_request m) (in_request input))
      else if negb (mb_next_anchor m =? in_round_anchor input)
              || negb (mb_target_committed m =? in_target_pre_committed input)
              || negb (mb_draft_committed m =? in_draft_pre_committed input)
      then Err (BindingMemberState lane (mb_request m))
      else validate_members active' inputs' (lane + 1)
  | _, _ => Ok tt
  end.

Definition validate_binding (coordinator : M1SpeculativeGenerationLoopV1)
    (binding : M1SpeculativeRoundBindingV1) : LoopResult unit :=
  if negb (rb_coordinator_identity binding =? lp_identity coordinator) then
    Err CoordinatorIdentityMismatch
  else if negb (bool_decide (rb_shape binding = lp_shape coordinator)) then
    Err (LoopSelectionDrift (ps_selection (lp_shape coordinator)) (ps_selection (rb_shape binding)))
  else if negb (rb_round binding =? lp_next_round coordinator) then
    Err (RoundDrift (lp_next_round coordinator) (rb_round binding))
  else
    let active := active_members coordinator in
    let active_count := vlen active in
    if negb (vlen (rb_members binding) =? active_count) then
      Err (RosterCount active_count (vlen (rb_members binding)))
    else validate_members active (rb_members binding) 0.

(** ** Preflight *)

(** [for token in raw.tokens().iter().copied()] of [apply_member_policy]. *)
Fixpoint policy_loop {S} (tokens : list N) (policy : M1SpeculativeGenerationPolicyV1)
    (published : M1SpeculativeTokenBlockV1) (generated_tokens : N) :
    M S (M1SpeculativeTokenBlockV1 * M1SpeculativeMemberStatusV1 * N) :=
  match tokens with
  | [] => ret (published, Active, generated_tokens)
  | token :: tokens' =>
      if generated_tokens =? max_output_tokens policy then
        ret (published, Completed OutputLimit, generated_tokens)
      else
        let! block := slice_set (tb_tokens published) (tb_count published) token in
        let! count := add_w 255 (tb_count published) 1 in
        let published := mkBlock block count in
        let! generated_tokens := add32 generated_tokens 1 in
        let! stop := is_stop policy token in
        if stop then ret (published, Completed (StopToken token), generated_tokens)
        else if generated_tokens =? max_output_tokens policy then
          ret (published, Completed OutputLimit, generated_tokens)
        else policy_loop tokens' policy published generated_tokens
  end.

Definition apply_member_policy {S} (member : M1SpeculativeMemberStateV1)
    (raw : M1SpeculativeTokenBlockV1) (control : M1SpeculativeMemberControlActionV1) :
    M S (M1SpeculativeTokenBlockV1 * M1SpeculativeMemberStatusV1 * N) :=
  match control with
  | Cancel reason => ret (block_empty, Cancelled reason, mb_generated member)
  | Continue =>
      let! tokens := block_tokens raw in
      policy_loop tokens (mb_policy member) block_empty (mb_generated member)
  end.

Definition prepare_member {S} (shape : M1SpeculativePhysicalShapeV1) (lane member_index : N)
    (member : M1SpeculativeMemberStateV1) (observation : CheckedMemberObservationV1)
    (control : M1SpeculativeMemberControlActionV1) : M S (LoopResult PreparedMemberV1) :=
  match ob_semantics observation with
  | CheckedSpeculative accepted_draft_tokens correction_or_bonus =>
      let width := ps_draft_tokens shape in
      if width <? accepted_draft_tokens then
        ret (Err (AcceptedCount lane width accepted_draft_tokens))
      else
        let! expected_emitted := add_usize accepted_draft_tokens 1 in
        let! emitted := block_tokens (ob_emitted observation) in
        if negb (vlen emitted =? expected_emitted) then
          ret (Err (EmittedCount lane expected_emitted (vlen emitted)))
        else
          let! actual_correction := slice_at emitted accepted_draft_tokens in
          if negb (actual_correction =? correction_or_bonus) then
            ret (Err (CorrectionOrBonus lane correction_or_bonus actual_correction))
          else
            let! target_accepted := add32 accepted_draft_tokens 1 in
            let! draft_accepted :=
              if accepted_draft_tokens <? width then add32 accepted_draft_tokens 1 else ret width in
            let! target_end := add32 (mb_target_committed member) width in
            let! target_tentative_end := add32 target_end 1 in
            let! draft_tentative_end := add32 (mb_draft_committed member) width in
            let! target_commit_end := add32 (mb_target_committed member) target_accepted in
            let! draft_commit_end := add32 (mb_draft_committed member) draft_accepted in
            let! target_rollback := sub_w width accepted_draft_tokens in
            let! draft_rollback :=
              if accepted_draft_tokens <? width then
                let! rejected := sub_w width accepted_draft_tokens in sub_w rejected 1
              else ret 0 in
            let target_settlement :=
              mkSettlement Graph.Target8B (mb_target_committed member) target_tentative_end
                target_commit_end target_rollback in
            let draft_settlement :=
              mkSettlement Graph.Draft06B (mb_draft_committed member) draft_tentative_end
                draft_commit_end draft_rollback in
            let verification_choice :=
              if accepted_draft_tokens =? width then Bonus correction_or_bonus
              else Correction correction_or_bonus in
            let! applied := apply_member_policy member (ob_emitted observation) control in
            let '(published, status, generated_tokens) := applied in
            let active := bool_decide (status = Active) in
            let outcome :=
              mkMemberOutcome (mb_request member) accepted_draft_tokens (ob_emitted observation)
                published verification_choice target_settlement draft_settlement status
                (if active then DispositionContinue else DispositionRetire)
                (if active then Some correction_or_bonus else None) in
            ret (Ok (mkPrepared member_index generated_tokens outcome))
  | _ => ret (Err (CompletionSemantics lane))
  end.

(** [for lane in 0..binding.members.len()] *)
Fixpoint prepare_loop {S} (count : nat) (self : M1SpeculativeGenerationLoopV1)
    (inputs : list M1SpeculativeRoundMemberInputV1) (observations : list CheckedMemberObservationV1)
    (controls : list M1SpeculativeMemberControlV1) (lane : N) (prepared : list PreparedMemberV1) :
    M S (LoopResult (list PreparedMemberV1)) :=
  match count with
  | O => ret (Ok prepared)
  | Datatypes.S count' =>
      let! input := slice_at inputs lane in
      let! observation := slice_at observations lane in
      let! control := slice_at controls lane in
      if negb (bool_decide (ob_request observation = in_request input)) then
        ret (Err (CompletionRequest lane (in_request input) (ob_request observation)))
      else if negb (bool_decide (ct_request control = in_request input)) then
        ret (Err (ControlRequest lane (in_request input) (ct_request control)))
      else
        match iter_position (fun m => bool_decide (mb_request m = in_request input)) (lp_members self) with
        | None => ret (Err (BindingMemberState lane (in_request input)))
        | Some member_index =>
            let! member := slice_at (lp_members self) member_index in
            let? p := prepare_member (lp_shape self) lane member_index member observation
                        (ct_action control) in
            match try_push M1_SPECULATIVE_INLINE_ROSTER_CAPACITY_V1 prepared p with
            | None => ret (Err (RosterCapacity M1_SPECULATIVE_INLINE_ROSTER_CAPACITY_V1 (vlen inputs)))
            | Some prepared => prepare_loop count' self inputs observations controls (lane + 1) prepared
            end
        end
  end.

(** [for prepared_member in prepared] *)
Fixpoint split_loop {S} (prepared : list PreparedMemberV1)
    (updates : list M1SpeculativePreparedMemberUpdateV1)
    (outcomes : list M1SpeculativeMemberRoundOutcomeV1) :
    M S (list M1SpeculativePreparedMemberUpdateV1 * list M1SpeculativeMemberRoundOutcomeV1) :=
  match prepared with
  | [] => ret (updates, outcomes)
  | p :: prepared' =>
      let! updates := av_push M1_SPECULATIVE_INLINE_ROSTER_CAPACITY_V1 updates
                        (mkUpdate (pm_member_index p) (pm_generated_tokens p)) in
      let! outcomes := av_push M1_SPECULATIVE_INLINE_ROSTER_CAPACITY_V1 outcomes (pm_outcome p) in
      split_loop prepared' updates outcomes
  end.

(** [for outcome in &outcomes] *)
Fixpoint roster_loop {S} (outcomes : list M1SpeculativeMemberRoundOutcomeV1) (roster : list RequestId) :
    M S (list RequestId) :=
  match outcomes with
  | [] => ret roster
  | outcome :: outcomes' =>
      if bool_decide (mo_status outcome = Active) then
        let! roster := av_push M1_SPECULATIVE_INLINE_ROSTER_CAPACITY_V1 roster (mo_request outcome) in
        roster_loop outcomes' roster
      else roster_loop outcomes' roster
  end.

Definition preflight_observed_round {S} (self : M1SpeculativeGenerationLoopV1)
    (binding : M1SpeculativeRoundBindingV1) (selection : Graph.Qwen3PlanSelection)
    (epoch : Completion.CompletionEpoch) (observations : list CheckedMemberObservationV1)
    (controls : list M1SpeculativeMemberControlV1) : M S (LoopResult M1SpeculativePreflightedRoundV1) :=
  match validate_binding self binding with
  | Err error => ret (Err error)
  | Ok _ =>
      let count := vlen (rb_members binding) in
      if negb (bool_decide (selection = ps_selection (lp_shape self))) then
        ret (Err (LoopSelectionDrift (ps_selection (lp_shape self)) selection))
      else if negb (bool_decide (epoch = rb_epoch binding)) then
        ret (Err (EpochDrift (rb_epoch binding) epoch))
      else if negb (vlen observations =? count) then
        ret (Err (CompletionCount count (vlen observations)))
      else if negb (vlen controls =? count) then ret (Err (ControlCount count (vlen controls)))
      else
        let? prepared := prepare_loop (length (rb_members binding)) self (rb_members binding)
                           observations controls 0 [] in
        let! (updates, outcomes) := split_loop prepared [] [] in
        let! next_active_roster := roster_loop outcomes [] in
        ret (Ok (mkPreflighted binding updates outcomes next_active_roster))
  end.

Definition with_emitted_lane (error : M1SpeculativeGenerationLoopErrorV1) (lane : N) :
    M1SpeculativeGenerationLoopErrorV1 :=
  match error with
  | EmittedCount _ expected actual => EmittedCount lane expected actual
  | other => other
  end.

(** [for (lane, checked_record) in checked.records().iter().enumerate()] *)
Fixpoint observation_loop {S} (records : list InertCheckedCompletionRecord) (count lane : N)
    (observations : list CheckedMemberObservationV1) :
    M S (LoopResult (list CheckedMemberObservationV1)) :=
  match records with
  | [] => ret (Ok observations)
  | checked_record :: records' =>
      let r := record checked_record in
      let emitted_count := Compact.emitted_token_count r in
      match slice_get (Compact.emitted_tokens r) 0 emitted_count with
      | None => ret (Err (EmittedCount lane M1_MAX_COMPLETION_TOKENS emitted_count))
      | Some tokens =>
          match from_slice tokens with
          | Err error => ret (Err (with_emitted_lane error lane))
          | Ok emitted =>
              match try_push M1_SPECULATIVE_INLINE_ROSTER_CAPACITY_V1 observations
                      (mkObservation (Compact.request r) (checked_semantics checked_record) emitted) with
              | None => ret (Err (RosterCapacity M1_SPECULATIVE_INLINE_ROSTER_CAPACITY_V1 count))
              | Some observations => observation_loop records' count (lane + 1) observations
              end
          end
      end
  end.

Definition preflight_checked_round {S} (self : M1SpeculativeGenerationLoopV1)
    (binding : M1SpeculativeRoundBindingV1) (checked : M1CheckedCompletionOutputV1)
    (controls : list M1SpeculativeMemberControlV1) : M S (LoopResult M1SpeculativePreflightedRoundV1) :=
  let? observations := observation_loop (co_records checked) (vlen (co_records checked)) 0 [] in
  preflight_observed_round self binding (co_selection checked) (co_epoch checked) observations controls.

(** ** Commit *)
Definition apply_update (update : M1SpeculativePreparedMemberUpdateV1)
    (outcome : M1SpeculativeMemberRoundOutcomeV1) (m : M1SpeculativeMemberStateV1) :
    M1SpeculativeMemberStateV1 :=
  mkMember (mb_request m) (mb_policy m) (mo_status outcome)
    (choice_token (mo_verification_choice outcome))
    (se_commit_end (mo_target_settlement outcome)) (se_commit_end (mo_draft_settlement outcome))
    (up_generated_tokens update).

(** [for (update, outcome) in updates.iter().zip(outcomes.iter())] *)
Fixpoint commit_loop (updates : list M1SpeculativePreparedMemberUpdateV1)
    (outcomes : list M1SpeculativeMemberRoundOutcomeV1) : M M1SpeculativeGenerationLoopV1 unit :=
  match updates, outcomes with
  | update :: updates', outcome :: outcomes' =>
      update_at lp_members put_members (up_member_index update) (apply_update update outcome) ;;
      commit_loop updates' outcomes'
  | _, _ => ret tt
  end.

Definition commit_preflighted_round (preflighted : M1SpeculativePreflightedRoundV1) :
    M M1SpeculativeGenerationLoopV1
      (result M1SpeculativeRoundOutcomeV1
         (M1SpeculativeGenerationLoopErrorV1 * M1SpeculativePreflightedRoundV1)) :=
  let! self := gets id in
  match validate_binding self (pf_binding preflighted) with
  | Err error => ret (Err (error, preflighted))
  | Ok _ =>
      commit_loop (pf_updates preflighted) (pf_outcomes preflighted) ;;
      let! completed_round := gets lp_next_round in
      let! next := add_w u64_max completed_round 1 in
      modify (put_next_round next) ;;
      modify (put_last_epoch (Some (rb_epoch (pf_binding preflighted)))) ;;
      let! self := gets id in
      ret (Ok (mkRoundOutcome (lp_identity self) (ps_selection (lp_shape self)) completed_round
                 (rb_epoch (pf_binding preflighted)) (pf_outcomes preflighted)
                 (pf_next_active_roster preflighted)))
  end.

Definition preflight_prepared_round_commit (self : M1SpeculativeGenerationLoopV1)
    (preflighted : M1SpeculativePreflightedRoundV1) : LoopResult unit :=
  validate_binding self (pf_binding preflighted).

Definition complete_checked_round (binding : M1SpeculativeRoundBindingV1)
    (checked : M1CheckedCompletionOutputV1) (controls : list M1SpeculativeMemberControlV1) :
    M M1SpeculativeGenerationLoopV1 (LoopResult M1SpeculativeRoundOutcomeV1) :=
  let! self := gets id in
  let? preflighted := preflight_checked_round self binding checked controls in
  let! r := commit_preflighted_round preflighted in
  ret match r with Ok outcome => Ok outcome | Err (error, _) => Err error end.
End platform.

(** ** Draft catch-up *)
Record M1DraftCatchupCoordinatorTransitionV1 := mkTransition {
  tr_coordinator_identity : N;
  tr_parent : Graph.Qwen3PlanSelection;
  tr_request : RequestId;
  tr_completed_round : N;
  tr_prior_epoch : Completion.CompletionEpoch;
  tr_epoch : Completion.CompletionEpoch;
  tr_draft_committed : N;
  tr_target_committed : N;
  tr_token : N;
  tr_prior_dispatch_generation : N;
  tr_dispatch_generation : N
}.

Definition opt_is (o : option N) (v : N) : bool :=
  match o with Some w => w =? v | None => false end.

Definition commit_draft_catchup_transition (transition : M1DraftCatchupCoordinatorTransitionV1) :
    M M1SpeculativeGenerationLoopV1 (LoopResult unit) :=
  let! self := gets id in
  if negb (tr_coordinator_identity transition =? lp_identity self) then
    ret (Err CoordinatorIdentityMismatch)
  else if negb (Graph.selection_matches (tr_parent transition) (ps_selection (lp_shape self))) then
    ret (Err (LoopSelectionDrift (ps_selection (lp_shape self)) (tr_parent transition)))
  else if negb (vlen (lp_members self) =? 1) then ret (Err DraftCatchupState)
  else
    let! m := slice_at (lp_members self) 0 in
    if negb (ps_sequences (lp_shape self) =? 1)
       || negb (opt_is (checked_add u64_max (tr_completed_round transition) 1) (lp_next_round self))
       || (Completion.value (tr_prior_epoch transition) =? 0)
       || match lp_last_epoch self with
          | Some epoch => negb (Completion.value epoch =? Completion.value (tr_prior_epoch transition))
          | None => true
          end
       || negb (opt_is (checked_add u64_max (Completion.value (tr_prior_epoch transition)) 1)
                  (Completion.value (tr_epoch transition)))
       || (tr_prior_dispatch_generation transition =? 0)
       || negb (opt_is (checked_add u64_max (tr_prior_dispatch_generation transition) 1)
                  (tr_dispatch_generation transition))
       || negb (slot (mb_request m) =? slot (tr_request transition))
       || negb (generation (mb_request m) =? generation (tr_request transition))
       || negb (is_active m)
       || negb (mb_draft_committed m =? tr_draft_committed transition)
       || negb (mb_target_committed m =? tr_target_committed transition)
       || negb (opt_is (checked_add u32_max (tr_draft_committed transition) 1)
                  (tr_target_committed transition))
       || (M1_MAX_CONTEXT_TOKENS <? tr_target_committed transition)
       || (QWEN3_VOCABULARY_SIZE <=? tr_token transition)
    then ret (Err DraftCatchupState)
    else
      update_at lp_members put_members 0 (fun m =>
        mkMember (mb_request m) (mb_policy m) (mb_status m) (mb_next_anchor m) (mb_target_committed m)
          (tr_target_committed transition) (mb_generated m)) ;;
      modify (put_last_epoch (Some (tr_epoch transition))) ;;
      ret (Ok tt).

(** ** Seed snapshots *)

(** [for (lane, member) in self.members.iter().enumerate()] *)
Fixpoint snapshot_loop (members : list M1SpeculativeMemberStateV1) (lane : N)
    (seeds : HostVec M1SpeculativeMemberSeedV1) :
    HostVec M1SpeculativeMemberSeedV1 * LoopResult unit :=
  match members with
  | [] => (seeds, Ok tt)
  | m :: members' =>
      if negb (is_active m) || negb (mb_generated m =? 0) then
        (seeds, Err (BindingMemberState lane (mb_request m)))
      else
        snapshot_loop members' (lane + 1)
          (vec_push seeds (mkSeed (mb_request m) (mb_next_anchor m) (mb_target_committed m)
                             (mb_draft_committed m) (mb_policy m)))
  end.

(** Returns the vector it writes into and the result. *)
Definition write_bootstrap_seed_snapshot (self : M1SpeculativeGenerationLoopV1)
    (seeds : HostVec M1SpeculativeMemberSeedV1) :
    HostVec M1SpeculativeMemberSeedV1 * LoopResult unit :=
  if negb (lp_next_round self =? 0) || bool_decide (is_Some (lp_last_epoch self)) then
    (seeds, Err (RoundDrift 0 (lp_next_round self)))
  else
    let seeds := vec_clear seeds in
    if vec_capacity seeds <? vlen (lp_members self) then (seeds, Err HostAllocation)
    else snapshot_loop (lp_members self) 0 seeds.

Definition bootstrap_seed_snapshot {P : Platform} (self : M1SpeculativeGenerationLoopV1) :
    LoopResult (list M1SpeculativeMemberSeedV1) :=
  match vec_reserve vec_new (vlen (lp_members self)) with
  | None => Err HostAllocation
  | Some seeds =>
      match write_bootstrap_seed_snapshot self seeds with
      | (seeds, Ok _) => Ok (vec_elems seeds)
      | (_, Err error) => Err error
      end
  end.

Fixpoint all2 {A B} (f : A -> B -> bool) (l : list A) (k : list B) : bool :=
  match l, k with
  | a :: l', b :: k' => f a b && all2 f l' k'
  | _, _ => true
  end.

Definition matches_bootstrap_seeds (self : M1SpeculativeGenerationLoopV1)
    (selection : Graph.Qwen3PlanSelection) (seeds : list M1SpeculativeMemberSeedV1) : bool :=
  (lp_next_round self =? 0)
  && bool_decide (lp_last_epoch self = None)
  && bool_decide (ps_selection (lp_shape self) = selection)
  && (vlen (lp_members self) =? vlen seeds)
  && all2 (fun m seed =>
       bool_decide (mb_request m = seed_request seed) && is_active m
       && (mb_next_anchor m =? seed_round_anchor seed)
       && (mb_target_committed m =? seed_target_committed seed)
       && (mb_draft_committed m =? seed_draft_committed seed)
       && (mb_generated m =? 0) && bool_decide (mb_policy m = seed_policy seed))
       (lp_members self) seeds.

Definition matches_causal_lineage (self : M1SpeculativeGenerationLoopV1)
    (selection : Graph.Qwen3PlanSelection) (initial : list M1SpeculativeMemberSeedV1)
    (generated : list (RequestId * N)) (rounds : N) (last_epoch : option Completion.CompletionEpoch) :
    bool :=
  bool_decide (ps_selection (lp_shape self) = selection)
  && (lp_next_round self =? rounds)
  && bool_decide (lp_last_epoch self = last_epoch)
  && (vlen (lp_members self) =? vlen initial)
  && (vlen (lp_members self) =? vlen generated)
  && all2 (fun p g =>
       let '(m, seed) := p in let '(request, generated_tokens) := g in
       bool_decide (mb_request m = seed_request seed)
       && bool_decide (mb_policy m = seed_policy seed)
       && bool_decide (mb_request m = request)
       && (mb_generated m =? generated_tokens))
       (zip (lp_members self) initial) generated.
