(* ===== verification/SpecLoopFacts.v ===== *)
(** What the operations of the generation loop compute: the policy as a cut of
    the emitted tokens, the settlement of a lane, and the exact condition and
    result of a preflight. *)
From S2P Require Import Prelude Spec Bytes PlanSelection M1Completion CompletionFacts.
From S2P Require Import CompletionWire Platform Readback SpecLoop.
From S2P Require Scheduler.
Local Open Scope prog_scope.

(** ** Token blocks *)

(** The block that holds [l]; blocks are only made by [from_slice] and by
    pushing onto the empty one. *)
Definition block (l : list N) : M1SpeculativeTokenBlockV1 :=
  mkBlock (l ++ vfill (M1_MAX_COMPLETION_TOKENS - vlen l) 0) (vlen l).

Lemma drop_vfill (n k x : N) : drop (N.to_nat k) (vfill n x) = vfill (n - k) x.
Proof. unfold vfill. rewrite drop_replicate. f_equal. lia. Qed.

Lemma from_slice_spec l :
  from_slice l = if 17 <? vlen l then Err (EmittedCount 0 17 (vlen l)) else Ok (block l).
Proof.
  unfold from_slice, M1_MAX_COMPLETION_TOKENS. destruct (N.ltb_spec 17 (vlen l)); [done|].
  rewrite (proj2 (N.ltb_ge 255 (vlen l))) by lia.
  replace (length l) with (N.to_nat (vlen l)) by (unfold vlen; lia).
  cbn [block_empty tb_tokens]. rewrite drop_vfill. done.
Qed.

Lemma block_empty_nil : block_empty = block [].
Proof. done. Qed.

Lemma block_tokens_wp {S} l (s : S) (Q : S -> list N -> Prop) :
  vlen l <= 17 -> Q s l -> wp (block_tokens (block l)) s Q.
Proof.
  intros Hl HQ. unfold block_tokens. apply wp_slice_range; [lia| |].
  - cbn [block tb_tokens tb_count]. rewrite vlen_app, vlen_vfill. unfold M1_MAX_COMPLETION_TOKENS. lia.
  - cbn [block tb_tokens tb_count]. by rewrite (subslice_first l).
Qed.

Lemma vlen_snoc {A} (l : list A) x : vlen (l ++ [x]) = vlen l + 1.
Proof. by rewrite vlen_app. Qed.

Lemma vlen_one {A} (x : A) : vlen [x] = 1.
Proof. done. Qed.

Lemma block_push l t :
  vlen l < 17 -> vset (tb_tokens (block l)) (vlen l) t = tb_tokens (block (l ++ [t])).
Proof.
  intros Hl. cbn [block tb_tokens]. unfold vset, M1_MAX_COMPLETION_TOKENS.
  rewrite vlen_snoc.
  replace (vfill (17 - vlen l) 0) with (0 :: vfill (17 - (vlen l + 1)) 0).
  2:{ unfold vfill. replace (N.to_nat (17 - vlen l)) with (S (N.to_nat (17 - (vlen l + 1)))) by lia. done. }
  replace (N.to_nat (vlen l)) with (length l + 0)%nat by (unfold vlen; lia).
  rewrite insert_app_r. by rewrite <- app_assoc.
Qed.

Lemma block_inj l l' : block l = block l' -> l = l'.
Proof.
  intros [= Hl Hv]. apply (f_equal (take (length l))) in Hl.
  rewrite take_app_length in Hl. unfold vlen in Hv. apply Nat2N.inj in Hv.
  by rewrite Hv, take_app_length in Hl.
Qed.

(** ** Policies *)
Record policy_ok (p : M1SpeculativeGenerationPolicyV1) : Prop := {
  pk_limit : 0 < max_output_tokens p <= M1_MAX_CONTEXT_TOKENS;
  pk_array : vlen (stop_array p) = M1_SPECULATIVE_STOP_TOKEN_CAPACITY_V1;
  pk_count : stop_token_count p <= M1_SPECULATIVE_STOP_TOKEN_CAPACITY_V1
}.

Definition stops (p : M1SpeculativeGenerationPolicyV1) : list N := subslice (stop_array p) 0 (stop_token_count p).
Definition stopb (p : M1SpeculativeGenerationPolicyV1) (t : N) : bool := existsb (N.eqb t) (stops p).

Lemma is_stop_wp {S} p t (s : S) (Q : S -> bool -> Prop) :
  policy_ok p -> Q s (stopb p t) -> wp (is_stop p t) s Q.
Proof.
  intros [_ Ha Hc] HQ. unfold is_stop, stop_tokens. wp_step. apply wp_slice_range; [lia|by rewrite Ha|].
  by apply wp_ret.
Qed.

(** What a policy publishes of the emitted tokens, after [g] earlier ones: up
    to and including the first stop token, and no more than the limit. *)
Fixpoint cut (p : M1SpeculativeGenerationPolicyV1) (g : N) (ts : list N) :
    list N * M1SpeculativeMemberStatusV1 :=
  match ts with
  | [] => ([], Active)
  | t :: ts' =>
      if g =? max_output_tokens p then ([], Completed OutputLimit)
      else if stopb p t then ([t], Completed (StopToken t))
      else if g + 1 =? max_output_tokens p then ([t], Completed OutputLimit)
      else let '(l, status) := cut p (g + 1) ts' in (t :: l, status)
  end.

Lemma cut_length p ts : forall g, vlen (cut p g ts).1 <= vlen ts.
Proof.
  induction ts as [|t ts IH]; intros g; cbn [cut]; [done|]. rewrite vlen_cons.
  specialize (IH (g + 1)). repeat case_match; simplify_eq/=; rewrite ?vlen_cons; change (vlen (@nil N)) with 0; lia.
Qed.

Lemma cut_limit p ts : forall g, g <= max_output_tokens p ->
  g + vlen (cut p g ts).1 <= max_output_tokens p.
Proof.
  induction ts as [|t ts IH]; intros g Hg; cbn [cut fst]; [change (vlen (@nil N)) with 0; lia|].
  destruct (N.eqb_spec g (max_output_tokens p)); simpl; [change (vlen (@nil N)) with 0; lia|].
  destruct (stopb p t); simpl; [rewrite vlen_one; lia|].
  destruct (N.eqb_spec (g + 1) (max_output_tokens p)); simpl; [rewrite vlen_one; lia|].
  specialize (IH (g + 1) ltac:(lia)). destruct (cut p (g + 1) ts). simpl in *. rewrite vlen_cons. lia.
Qed.

(** An active member published everything and stays below its limit. *)
Lemma cut_active p ts : forall g, g < max_output_tokens p ->
  (cut p g ts).2 = Active -> (cut p g ts).1 = ts /\ g + vlen ts < max_output_tokens p.
Proof.
  induction ts as [|t ts IH]; intros g Hg; cbn [cut fst snd]; [change (vlen (@nil N)) with 0; split; [done|lia]|].
  destruct (N.eqb_spec g (max_output_tokens p)); simpl; [done|].
  destruct (stopb p t); simpl; [done|].
  destruct (N.eqb_spec (g + 1) (max_output_tokens p)); simpl; [done|].
  specialize (IH (g + 1) ltac:(lia)). destruct (cut p (g + 1) ts). simpl in *. rewrite vlen_cons.
  intros Hs. destruct (IH Hs) as [-> ?]. split; [done|lia].
Qed.

Lemma policy_loop_wp {S} p (Hp : policy_ok p) ts : forall l g (s : S),
  vlen l + vlen ts <= 17 -> g <= max_output_tokens p ->
  wp (policy_loop ts p (block l) g) s (fun s' r => s' = s /\
    r = (block (l ++ (cut p g ts).1), (cut p g ts).2, g + vlen (cut p g ts).1)).
Proof.
  pose proof (pk_limit p Hp) as Hlim. unfold M1_MAX_CONTEXT_TOKENS in Hlim.
  induction ts as [|t ts IH]; intros l g s Hl Hg; cbn [policy_loop cut].
  { apply wp_ret. simpl. change (vlen (@nil N)) with 0. by rewrite app_nil_r, N.add_0_r. }
  rewrite vlen_cons in Hl.
  destruct (N.eqb_spec g (max_output_tokens p)) as [Hm|Hm].
  { apply wp_ret. simpl. change (vlen (@nil N)) with 0. by rewrite app_nil_r, N.add_0_r. }
  wp_step. apply wp_slice_set.
  { cbn [block tb_tokens tb_count]. rewrite vlen_app, vlen_vfill. unfold M1_MAX_COMPLETION_TOKENS. lia. }
  change (tb_count (block l)) with (vlen l). rewrite block_push by lia.
  wp_step. apply wp_add_w; [lia|].
  wp_step. apply wp_add32; [unfold u32_max; lia|].
  replace (mkBlock (tb_tokens (block (l ++ [t]))) (vlen l + 1)) with (block (l ++ [t])).
  2:{ unfold block at 1. cbn [block tb_tokens]. f_equal. by rewrite vlen_snoc. }
  wp_step. apply is_stop_wp; [done|].
  destruct (stopb p t); [apply wp_ret; simpl; by rewrite vlen_one|].
  destruct (N.eqb_spec (g + 1) (max_output_tokens p)) as [Hm'|Hm'].
  { apply wp_ret. simpl. by rewrite vlen_one. }
  eapply wp_mono; [apply IH; [rewrite vlen_snoc; lia|lia]|].
  intros s' r [-> ->]. split; [done|]. destruct (cut p (g + 1) ts) as [k st]. simpl.
  rewrite <- app_assoc, vlen_cons. simpl. f_equal. lia.
Qed.

(** ** One lane *)
Definition shape_ok (sh : M1SpeculativePhysicalShapeV1) : Prop := from_selection (ps_selection sh) = Ok sh.

Lemma from_selection_ok sel sh :
  from_selection sel = Ok sh -> ps_selection sh = sel /\ shape_ok sh /\
    4 <= ps_draft_tokens sh <= 16 /\ 1 <= ps_sequences sh <= 8.
Proof.
  unfold shape_ok. destruct sel as [[] [] []]; vm_compute; try done; by intros [= <-].
Qed.

Lemma shape_ok_bounds sh : shape_ok sh -> 4 <= ps_draft_tokens sh <= 16 /\ 1 <= ps_sequences sh <= 8.
Proof. by intros (_ & _ & ? & ?)%from_selection_ok. Qed.

(** Room for a whole round in both contexts. *)
Definition room (sh : M1SpeculativePhysicalShapeV1) (target draft : N) : Prop :=
  target + ps_draft_tokens sh + 1 <= M1_MAX_CONTEXT_TOKENS /\
  draft + ps_draft_tokens sh <= M1_MAX_CONTEXT_TOKENS.

Lemma validate_context_wp {S} sh lane m (s : S) :
  shape_ok sh -> wp (validate_context sh lane m) s (fun s' o => s' = s /\
    (o = Ok tt <-> room sh (mb_target_committed m) (mb_draft_committed m)) /\
    forall e, o = Err e -> exists role, e = ContextExceeded lane role).
Proof.
  intros [Hd _]%shape_ok_bounds. unfold validate_context, room, M1_MAX_CONTEXT_TOKENS.
  wp_step. apply wp_add32; [unfold u32_max; lia|]. wp_step. apply wp_sub_w; [lia|].
  assert (Herr : forall role, ~ (mb_target_committed m + ps_draft_tokens sh + 1 <= 8192 /\
      mb_draft_committed m + ps_draft_tokens sh <= 8192) ->
    wp (ret (Err (ContextExceeded lane role))) s (fun s' o => s' = s /\
      (o = Ok tt <-> mb_target_committed m + ps_draft_tokens sh + 1 <= 8192 /\
        mb_draft_committed m + ps_draft_tokens sh <= 8192) /\
      forall e, o = Err e -> exists role, e = ContextExceeded lane role)).
  { intros role H. apply wp_ret. split; [done|]. split; [by split|]. intros ? [= <-]. eauto. }
  case_bool; [apply Herr; lia|]. wp_step. apply wp_sub_w; [lia|].
  case_bool; [apply Herr; lia|]. apply wp_ret. split; [done|]. split; [|done]. split; [lia|done].
Qed.

Definition control_cut (m : M1SpeculativeMemberStateV1) (l : list N)
    (control : M1SpeculativeMemberControlActionV1) : list N * M1SpeculativeMemberStatusV1 :=
  match control with
  | Cancel reason => ([], Cancelled reason)
  | Continue => cut (mb_policy m) (mb_generated m) l
  end.

Lemma apply_member_policy_wp {S} m l control (s : S) :
  policy_ok (mb_policy m) -> mb_generated m <= max_output_tokens (mb_policy m) -> vlen l <= 17 ->
  wp (apply_member_policy m (block l) control) s (fun s' r => s' = s /\
    r = (block (control_cut m l control).1, (control_cut m l control).2,
         mb_generated m + vlen (control_cut m l control).1)).
Proof.
  intros Hp Hg Hl. unfold apply_member_policy, control_cut. destruct control as [|reason].
  - wp_step. apply block_tokens_wp; [done|]. rewrite block_empty_nil.
    eapply wp_mono; [by apply policy_loop_wp|]. by intros s' r [-> ->].
  - apply wp_ret. cbn [fst snd]. change (vlen (@nil N)) with 0. by rewrite N.add_0_r.
Qed.

(** The settlement of [k] accepted draft tokens out of [width]: the target
    keeps the accepted tokens and its own, the draft what it wrote of them. *)
Definition target_settled (width pre k : N) : M1SpeculativeKvRoleSettlementV1 :=
  mkSettlement Graph.Target8B pre (pre + width + 1) (pre + k + 1) (width - k).
Definition draft_settled (width pre k : N) : M1SpeculativeKvRoleSettlementV1 :=
  mkSettlement Graph.Draft06B pre (pre + width) (pre + N.min (k + 1) width) (width - N.min (k + 1) width).

Definition member_outcome (sh : M1SpeculativePhysicalShapeV1) (m : M1SpeculativeMemberStateV1)
    (k t : N) (l : list N) (control : M1SpeculativeMemberControlActionV1) :
    M1SpeculativeMemberRoundOutcomeV1 :=
  let width := ps_draft_tokens sh in
  let '(published, status) := control_cut m l control in
  mkMemberOutcome (mb_request m) k (block l) (block published)
    (if k =? width then Bonus t else Correction t)
    (target_settled width (mb_target_committed m) k) (draft_settled width (mb_draft_committed m) k)
    status
    (if bool_decide (status = Active) then DispositionContinue else DispositionRetire)
    (if bool_decide (status = Active) then Some t else None).

Definition prepared_member (sh : M1SpeculativePhysicalShapeV1) (index : N)
    (m : M1SpeculativeMemberStateV1) (k t : N) (l : list N)
    (control : M1SpeculativeMemberControlActionV1) : PreparedMemberV1 :=
  mkPrepared index (mb_generated m + vlen (control_cut m l control).1) (member_outcome sh m k t l control).

(** The observations a lane accepts: the speculative semantics of at most the
    width, whose tokens end in its correction or bonus. *)
Definition lane_round (sh : M1SpeculativePhysicalShapeV1) (m : M1SpeculativeMemberStateV1)
    (o : CheckedMemberObservationV1) (k t : N) (l : list N) : Prop :=
  o = mkObservation (mb_request m) (CheckedSpeculative k t) (block l) /\
  k <= ps_draft_tokens sh /\ vlen l = k + 1 /\ vget l k = Some t.

Definition observation_wf (o : CheckedMemberObservationV1) : Prop :=
  exists l, vlen l <= 17 /\ ob_emitted o = block l.

Lemma prepare_member_wp {S} sh lane index m o control (s : S) :
  shape_ok sh -> policy_ok (mb_policy m) -> mb_generated m <= max_output_tokens (mb_policy m) ->
  room sh (mb_target_committed m) (mb_draft_committed m) ->
  observation_wf o -> ob_request o = mb_request m ->
  wp (prepare_member sh lane index m o control) s (fun s' r => s' = s /\
    forall p, r = Ok p <-> exists k t l, lane_round sh m o k t l /\
      p = prepared_member sh index m k t l control).
Proof.
  intros [Hd _]%shape_ok_bounds Hp Hg [Ht Hdr] (l & Hl & Hb) Hreq. unfold prepare_member, lane_round.
  unfold M1_MAX_CONTEXT_TOKENS in *. destruct o as [req sem b]. cbn [ob_semantics ob_emitted ob_request] in *.
  subst b req.
  destruct sem as [tok|choice ctx|tok ctx|k t];
    try (apply wp_ret; split; [done|]; intros p; split; [done|]; by intros (? & ? & ? & ([= ] & _) & _)).
  assert (Hbad : forall e, ~ (k <= ps_draft_tokens sh /\ vlen l = k + 1 /\ vget l k = Some t) ->
    wp (ret (Err e : LoopResult PreparedMemberV1)) s (fun s' r => s' = s /\ forall p, r = Ok p <->
      exists k' t' l', (mkObservation (mb_request m) (CheckedSpeculative k t) (block l) =
        mkObservation (mb_request m) (CheckedSpeculative k' t') (block l') /\
        k' <= ps_draft_tokens sh /\ vlen l' = k' + 1 /\ vget l' k' = Some t') /\
        p = prepared_member sh index m k' t' l' control)).
  { intros e H. apply wp_ret. split; [done|]. intros p. split; [done|].
    intros (k' & t' & l' & (Heq & Hk) & _). injection Heq as <- <- Hbl Hvl. destruct H.
    assert (l = l') as <- by (apply block_inj; unfold block; congruence). done. }
  case_bool; [apply Hbad; lia|].
  wp_step. apply wp_add_usize; [unfold usize_max, u64_max; lia|].
  wp_step. apply block_tokens_wp; [done|].
  destruct (N.eqb_spec (vlen l) (k + 1)) as [Hlk|Hlk]; cbn [negb]; [|apply Hbad; lia].
  destruct (vget_lt l k) as [x Hx]; [lia|].
  wp_step. eapply wp_slice_at; [exact Hx|].
  destruct (N.eqb_spec x t) as [->|Hxt]; cbn [negb]; [|apply Hbad; intros (_ & _ & ?); congruence].
  do 2 (wp_step; try (apply wp_add32; [unfold u32_max; lia|])).
  eapply (wp_mono _ _ (fun s' d => s' = s /\ d = N.min (k + 1) (ps_draft_tokens sh))).
  { case_bool; [apply wp_add32; [unfold u32_max; lia|]; split; [done|lia]|].
    apply wp_ret. split; [done|lia]. }
  intros s' d [-> ->].
  do 5 (wp_step; apply wp_add32; [unfold u32_max; lia|]).
  wp_step. apply wp_sub_w; [lia|].
  wp_step. eapply (wp_mono _ _ (fun s' d => s' = s /\ d = ps_draft_tokens sh - N.min (k + 1) (ps_draft_tokens sh))).
  { case_bool.
    - wp_step. apply wp_sub_w; [lia|]. apply wp_sub_w; [lia|]. split; [done|lia].
    - apply wp_ret. split; [done|lia]. }
  intros s' d [-> ->].
  wp_step. eapply wp_mono; [by apply apply_member_policy_wp|]. intros s' r [-> ->].
  apply wp_ret. split; [done|].
  set (p0 := Ok _).
  assert (Hp0 : p0 = Ok (prepared_member sh index m k t l control)).
  { unfold p0, prepared_member, member_outcome, target_settled, draft_settled.
    rewrite N.add_assoc. by destruct (control_cut m l control) as [pub st]. }
  clearbody p0. subst p0. intros p. split.
  - intros [= <-]. by exists k, t, l.
  - intros (k' & t' & l' & (Heq & _) & ->). injection Heq as <- <- Hbl Hvl.
    assert (l = l') as <- by (apply block_inj; unfold block; congruence). done.
Qed.
