(* ===== verification/SpecLoopRounds.v ===== *)
(** A whole round: the invariant of the coordinator, what binding, preflight
    and commit compute on a well-formed coordinator, and that they keep it. *)
From S2P Require Import Prelude Spec Bytes PlanSelection M1Completion CompletionFacts.
From S2P Require Import CompletionWire Platform Readback SpecLoop SpecLoopFacts.
From S2P Require Scheduler.
Local Open Scope prog_scope.

(** ** The invariant *)
Record member_ok (m : M1SpeculativeMemberStateV1) : Prop := {
  mk_request : generation (mb_request m) <> 0 /\ slot (mb_request m) < Scheduler.M1_MAX_ACTIVE_SEQUENCES;
  mk_policy : policy_ok (mb_policy m);
  mk_target : mb_target_committed m <= M1_MAX_CONTEXT_TOKENS;
  mk_draft : mb_draft_committed m <= M1_MAX_CONTEXT_TOKENS;
  mk_generated : mb_generated m <= max_output_tokens (mb_policy m);
  mk_active : is_active m = true -> mb_generated m < max_output_tokens (mb_policy m)
}.

(** [lo_progress]: an active member has generated at least a token per round;
    [lo_rounds]: so the rounds are fewer than some member's limit. *)
Record loop_ok (l : M1SpeculativeGenerationLoopV1) : Prop := {
  lo_shape : shape_ok (lp_shape l);
  lo_count : 1 <= vlen (lp_members l) <= ps_sequences (lp_shape l);
  lo_requests : NoDup (mb_request <$> lp_members l);
  lo_members : Forall member_ok (lp_members l);
  lo_progress : Forall (fun m => is_active m = true -> lp_next_round l <= mb_generated m) (lp_members l);
  lo_rounds : Exists (fun m => lp_next_round l <= max_output_tokens (mb_policy m)) (lp_members l)
}.

Lemma loop_count_32 l : loop_ok l -> vlen (lp_members l) <= 8.
Proof. intros [Hs [_ Hc] _ _ _ _]. pose proof (proj2 (shape_ok_bounds _ Hs)). lia. Qed.

Lemma active_members_le l : vlen (active_members l) <= vlen (lp_members l).
Proof. unfold vlen, active_members. pose proof (length_filter (fun m => is_active m = true) (lp_members l)). lia. Qed.

Lemma active_cons_true m ms : is_active m = true -> filter (fun m => is_active m = true) (m :: ms) = m :: filter (fun m => is_active m = true) ms.
Proof. intros H. by rewrite filter_cons_True. Qed.
Lemma active_cons_false m ms : is_active m = false -> filter (fun m => is_active m = true) (m :: ms) = filter (fun m => is_active m = true) ms.
Proof. intros H. rewrite filter_cons_False; [done|congruence]. Qed.

(** ** Bindings *)
Definition input_of (m : M1SpeculativeMemberStateV1) : M1SpeculativeRoundMemberInputV1 :=
  mkInput (mb_request m) (mb_next_anchor m) (mb_target_committed m) (mb_draft_committed m).

(** The binding of the current state for its next round. *)
Definition binding_of (l : M1SpeculativeGenerationLoopV1) (epoch : Completion.CompletionEpoch) :
    M1SpeculativeRoundBindingV1 :=
  mkBinding (lp_identity l) (lp_shape l) (lp_next_round l) epoch (input_of <$> active_members l).

Lemma validate_members_spec active : forall inputs lane,
  vlen inputs = vlen active ->
  validate_members active inputs lane = Ok tt <-> inputs = input_of <$> active.
Proof.
  induction active as [|m active IH]; intros [|i inputs] lane Hl; try (unfold vlen in Hl; simpl in Hl; lia).
  { by split. }
  rewrite !vlen_cons in Hl. cbn [validate_members fmap list_fmap].
  destruct i as [req anchor t d]. cbn [in_request in_round_anchor in_target_pre_committed in_draft_pre_committed].
  case_bool_decide as Hreq; cbn [negb].
  2:{ split; [done|]. intros [= -> _ _ _ _]. by destruct Hreq. }
  destruct (N.eqb_spec (mb_next_anchor m) anchor) as [Ha|Ha]; cbn [negb orb].
  2:{ split; [done|]. intros [= _ -> _ _ _]. by destruct Ha. }
  destruct (N.eqb_spec (mb_target_committed m) t) as [Ht|Ht]; cbn [negb orb].
  2:{ split; [done|]. intros [= _ _ -> _ _]. by destruct Ht. }
  destruct (N.eqb_spec (mb_draft_committed m) d) as [Hd|Hd]; cbn [negb orb].
  2:{ split; [done|]. intros [= _ _ _ -> _]. by destruct Hd. }
  rewrite IH by lia. subst. unfold input_of at 2. split; [by intros ->|by intros [= ->]].
Qed.

(** A binding is valid exactly when it is that of the current state. *)
Lemma validate_binding_spec l b : validate_binding l b = Ok tt <-> b = binding_of l (rb_epoch b).
Proof.
  unfold validate_binding, binding_of. destruct b as [id sh round ep inputs].
  cbn [rb_coordinator_identity rb_shape rb_round rb_members rb_epoch].
  destruct (N.eqb_spec id (lp_identity l)) as [->|Hi]; cbn [negb]; [|split; congruence].
  case_bool_decide as Hs; cbn [negb]; [subst sh|split; congruence].
  destruct (N.eqb_spec round (lp_next_round l)) as [->|Hr]; cbn [negb]; [|split; congruence].
  destruct (N.eqb_spec (vlen inputs) (vlen (active_members l))) as [Hc|Hc]; cbn [negb].
  - rewrite validate_members_spec by done. split; [by intros ->|by intros [= ->]].
  - split; [done|]. intros [= ->]. destruct Hc. unfold vlen. by rewrite length_fmap.
Qed.

Definition active_room (l : M1SpeculativeGenerationLoopV1) : Prop :=
  Forall (fun m => room (lp_shape l) (mb_target_committed m) (mb_draft_committed m)) (active_members l).

Definition next_epoch_ok (last : option Completion.CompletionEpoch) (epoch : Completion.CompletionEpoch) : Prop :=
  Completion.value epoch <> 0 /\
  forall e, last = Some e -> Completion.value e + 1 <= u64_max /\ Completion.value epoch = Completion.value e + 1.

Lemma check_epoch_spec last epoch :
  Completion.value epoch <> 0 -> check_epoch last epoch = Ok tt <-> next_epoch_ok last epoch.
Proof.
  intros H0. unfold check_epoch, next_epoch_ok, checked_add. destruct last as [e|].
  - destruct (N.leb_spec (Completion.value e + 1) u64_max).
    + destruct (N.eqb_spec (Completion.value epoch) (Completion.value e + 1)); cbn [negb].
      * split; [|done]. intros _. split; [done|]. by intros ? [= <-].
      * split; [done|]. intros [_ Hn]. by destruct (Hn e eq_refl).
    + split; [done|]. intros [_ Hn]. destruct (Hn e eq_refl). lia.
  - by split.
Qed.

Section bind.
Context {P : Platform} {HP : PlatformLaws P}.

Lemma bind_loop_wp {S} sh count active : forall roster lane inputs (s : S),
  shape_ok sh -> vlen roster = vlen active -> vlen inputs + vlen active <= 32 ->
  wp (bind_loop active roster sh count lane inputs) s (fun s' o => s' = s /\
    forall r, o = Ok r <-> roster = mb_request <$> active /\
      Forall (fun m => room sh (mb_target_committed m) (mb_draft_committed m)) active /\
      r = inputs ++ (input_of <$> active)).
Proof using HP.
  induction active as [|m active IH]; intros [|a roster] lane inputs s Hsh Hl Hcap;
    try (unfold vlen in Hl; simpl in Hl; lia); cbn [bind_loop].
  { apply wp_ret. split; [done|]. intros r. rewrite app_nil_r. split; [by intros [= <-]|by intros (_ & _ & ->)]. }
  rewrite !vlen_cons in *. cbn [fmap list_fmap].
  case_bool_decide as Hreq; cbn [negb].
  2:{ apply wp_ret. split; [done|]. intros r. split; [done|]. intros ([= -> _] & _). by destruct Hreq. }
  wp_step. eapply wp_mono; [by apply validate_context_wp|]. intros s' o (-> & Ho & _).
  destruct o as [[]|e].
  2:{ split; [done|]. intros r. split; [done|]. intros (_ & [Hroom _]%Forall_cons & _). by apply Ho in Hroom. }
  rewrite try_push_spec. rewrite (proj2 (N.ltb_lt _ _)).
  2:{ change M1_SPECULATIVE_INLINE_ROSTER_CAPACITY_V1 with 32. lia. }
  eapply wp_mono; [apply IH; [done|lia|rewrite vlen_snoc; lia]|].
  intros s' o [-> Ho']. split; [done|]. intros r. rewrite Ho', <- app_assoc. cbn [app]. subst a.
  pose proof (proj1 Ho eq_refl). split.
  - intros (-> & Hf & ->). split_and!; [done|by constructor|done].
  - intros ([= ->] & [_ Hf]%Forall_cons & ->). done.
Qed.

(** A round is bound exactly as the next one, with the successor epoch, the
    active members in order, and room for a full round in every context. *)
Lemma bind_round_wp {S} l round epoch roster (s : S) :
  loop_ok l -> wp (bind_round l round epoch roster) s (fun s' o => s' = s /\
    forall b, o = Ok b <->
      (round = lp_next_round l /\ round <> u64_max /\ next_epoch_ok (lp_last_epoch l) epoch /\
       active_members l <> [] /\ roster = mb_request <$> active_members l /\ active_room l) /\
      b = binding_of l epoch).
Proof using HP.
  intros Hok. pose proof (loop_count_32 l Hok) as H8. pose proof (active_members_le l) as Hle.
  unfold bind_round, active_room.
  destruct (N.eqb_spec round (lp_next_round l)) as [->|Hr]; cbn [negb].
  2:{ apply wp_ret. split; [done|]. intros b. split; [done|]. by intros [(? & _) _]. }
  destruct (N.eqb_spec (lp_next_round l) u64_max) as [Hm|Hm].
  { apply wp_ret. split; [done|]. intros b. split; [done|]. by intros [(_ & ? & _) _]. }
  destruct (N.eqb_spec (Completion.value epoch) 0) as [H0|H0].
  { apply wp_ret. split; [done|]. intros b. split; [done|]. by intros [(_ & _ & [? _] & _) _]. }
  pose proof (check_epoch_spec (lp_last_epoch l) epoch H0) as Hce.
  destruct (check_epoch _ _) as [[]|e].
  2:{ apply wp_ret. split; [done|]. intros b. split; [done|]. intros [(_ & _ & H & _) _]. by apply Hce in H. }
  destruct (N.eqb_spec (vlen (active_members l)) 0) as [Ha|Ha].
  { apply wp_ret. split; [done|]. intros b. split; [done|]. intros [(_ & _ & _ & H & _) _].
    destruct H. unfold vlen in Ha. apply nil_length_inv. lia. }
  assert (Hne : active_members l <> []) by (intros E; by rewrite E in Ha).
  destruct (N.eqb_spec (vlen roster) (vlen (active_members l))) as [Hc|Hc]; cbn [negb].
  2:{ apply wp_ret. split; [done|]. intros b. split; [done|]. intros [(_ & _ & _ & _ & -> & _) _].
      destruct Hc. unfold vlen. by rewrite length_fmap. }
  wp_step. eapply wp_mono; [apply bind_loop_wp; [apply Hok|done|change (vlen (@nil M1SpeculativeRoundMemberInputV1)) with 0; lia]|].
  intros s' o [-> Ho]. destruct o as [inputs|e].
  - apply wp_ret. split; [done|]. intros b. destruct (proj1 (Ho inputs) eq_refl) as (-> & Hroom & ->).
    cbn [app]. unfold binding_of. split.
    + intros [= <-]. split; [|done]. split_and?; try done. by apply Hce.
    + by intros [_ ->].
  - split; [done|]. intros b. split; [done|]. intros [(_ & _ & _ & _ & -> & Hroom) _].
    discriminate (proj2 (Ho (input_of <$> active_members l)) (conj eq_refl (conj Hroom eq_refl))).
Qed.
End bind.

(** ** Preflight *)

(** The lanes of a round: the active members in order, each with its
    observation, its control and what is prepared for it. *)
Definition lane_prepared (sh : M1SpeculativePhysicalShapeV1) (index : N) (m : M1SpeculativeMemberStateV1)
    (o : CheckedMemberObservationV1) (c : M1SpeculativeMemberControlV1) (p : PreparedMemberV1) : Prop :=
  ct_request c = mb_request m /\
  exists k t l, lane_round sh m o k t l /\ p = prepared_member sh index m k t l (ct_action c).

Fixpoint lanes_prepared (sh : M1SpeculativePhysicalShapeV1) (ms : list M1SpeculativeMemberStateV1)
    (index : N) (os : list CheckedMemberObservationV1) (cs : list M1SpeculativeMemberControlV1)
    (ps : list PreparedMemberV1) : Prop :=
  match ms with
  | [] => os = [] /\ cs = [] /\ ps = []
  | m :: ms' =>
      if is_active m then
        match os, cs, ps with
        | o :: os', c :: cs', p :: ps' =>
            lane_prepared sh index m o c p /\ lanes_prepared sh ms' (index + 1) os' cs' ps'
        | _, _, _ => False
        end
      else lanes_prepared sh ms' (index + 1) os cs ps
  end.

Lemma lanes_prepared_lengths sh ms : forall index os cs ps,
  lanes_prepared sh ms index os cs ps ->
  length os = length (filter (fun m => is_active m = true) ms) /\
  length cs = length (filter (fun m => is_active m = true) ms) /\
  length ps = length (filter (fun m => is_active m = true) ms).
Proof.
  induction ms as [|m ms IH]; intros index os cs ps; cbn [lanes_prepared]; [by intros (-> & -> & ->)|].
  destruct (is_active m) eqn:Ha.
  - rewrite active_cons_true by done. destruct os as [|o os], cs as [|c cs], ps as [|p ps]; try done.
    intros [_ (? & ? & ?)%IH]. simpl. lia.
  - rewrite active_cons_false by done. apply IH.
Qed.

Lemma iter_position_request pre m ms :
  NoDup (mb_request <$> pre ++ m :: ms) ->
  iter_position (fun x => bool_decide (mb_request x = mb_request m)) (pre ++ m :: ms) = Some (vlen pre).
Proof.
  intros Hnd. apply iter_position_Some. exists m. split; [by apply vget_mid|].
  split; [by apply bool_decide_eq_true|]. intros j y Hj Hy. apply bool_decide_eq_false. intros E.
  unfold vget, vlen in *. rewrite lookup_app_l in Hy by lia.
  rewrite fmap_app in Hnd. cbn [fmap list_fmap] in Hnd.
  apply NoDup_app in Hnd as (_ & Hn & _).
  apply (Hn (mb_request y)); [|rewrite E; by left].
  apply list_elem_of_fmap. exists y. split; [done|]. by eapply list_elem_of_lookup_2.
Qed.

Section preflight.
Context {P : Platform} {HP : PlatformLaws P}.
Context (l : M1SpeculativeGenerationLoopV1) (Hok : loop_ok l).

Lemma prepare_loop_wp {S} ms : forall pre ipre opre cpre os cs prepared (s : S),
  lp_members l = pre ++ ms ->
  let ins := input_of <$> filter (fun m => is_active m = true) ms in
  length os = length ins -> length cs = length ins ->
  length opre = length ipre -> length cpre = length ipre ->
  Forall (fun m => room (lp_shape l) (mb_target_committed m) (mb_draft_committed m))
    (filter (fun m => is_active m = true) ms) ->
  Forall observation_wf os -> vlen prepared + vlen ins <= 32 ->
  wp (prepare_loop (length ins) l (ipre ++ ins) (opre ++ os) (cpre ++ cs) (vlen ipre) prepared) s
    (fun s' o => s' = s /\ forall r, o = Ok r <->
      exists ps, r = prepared ++ ps /\ lanes_prepared (lp_shape l) ms (vlen pre) os cs ps).
Proof using HP Hok.
  induction ms as [|m ms IH]; intros pre ipre opre cpre os cs prepared s Hms; cbv zeta.
  { cbn [filter list_filter fmap list_fmap length prepare_loop]. intros Ho Hc _ _ _ _ _.
    apply nil_length_inv in Ho as ->. apply nil_length_inv in Hc as ->. apply wp_ret. split; [done|].
    intros r. cbn [lanes_prepared]. split.
    - intros [= <-]. exists []. by rewrite app_nil_r.
    - intros (ps & -> & _ & _ & ->). by rewrite app_nil_r. }
  cbn [lanes_prepared]. destruct (is_active m) eqn:Ha.
  2:{ rewrite !active_cons_false by done. intros Ho Hc Hop Hcp Hroom Hwf Hcap.
      replace (vlen pre + 1) with (vlen (pre ++ [m])) by apply vlen_snoc.
      apply IH; try done. by rewrite <- app_assoc. }
  rewrite !active_cons_true by done. cbn [fmap list_fmap length prepare_loop].
  intros Ho Hc Hop Hcp Hroom Hwf Hcap. destruct os as [|o os]; [done|]. destruct cs as [|c cs]; [done|].
  apply Forall_cons in Hroom as [Hr0 Hroom]. apply Forall_cons in Hwf as [Hw0 Hwf].
  rewrite vlen_cons in Hcap.
  wp_step. eapply wp_slice_at; [by apply vget_mid|].
  wp_step. eapply wp_slice_at; [apply vget_mid; unfold vlen; by rewrite Hop|].
  wp_step. eapply wp_slice_at; [apply vget_mid; unfold vlen; by rewrite Hcp|].
  cbn [input_of in_request].
  case_bool_decide as Hreq; cbn [negb].
  2:{ apply wp_ret. split; [done|]. intros r. split; [done|].
      intros ([|p ps] & -> & Hl); [done|]. destruct Hl as [(_ & k & t & b & (-> & _) & _) _]. by destruct Hreq. }
  case_bool_decide as Hctl; cbn [negb].
  2:{ apply wp_ret. split; [done|]. intros r. split; [done|].
      intros ([|p ps] & -> & Hl); [done|]. by destruct Hl as [(? & _) _]. }
  rewrite Hms, iter_position_request by (rewrite <- Hms; apply Hok).
  wp_step. eapply wp_slice_at; [by apply vget_mid|].
  assert (Hm : member_ok m).
  { pose proof (lo_members _ Hok) as Hf. rewrite Hms in Hf. apply Forall_app in Hf as [_ Hf].
    by apply Forall_cons in Hf as [? _]. }
  wp_step. eapply wp_mono; [apply prepare_member_wp; try done; [apply Hok|apply Hm|apply Hm]|].
  intros s' r [-> Hp]. destruct r as [p|e].
  - rewrite try_push_spec, (proj2 (N.ltb_lt _ _)).
    2:{ change M1_SPECULATIVE_INLINE_ROSTER_CAPACITY_V1 with 32. lia. }
    rewrite (cons_middle (input_of m)), (cons_middle o), (cons_middle c), !app_assoc.
    replace (vlen ipre + 1) with (vlen (ipre ++ [input_of m])) by apply vlen_snoc.
    simpl in Ho, Hc. injection Ho as Ho. injection Hc as Hc.
    eapply wp_mono; [apply (IH (pre ++ [m])); try done;
      [by rewrite <- app_assoc|rewrite !length_app; simpl; lia..|rewrite vlen_snoc; lia]|].
    intros s' r [-> Hrest]. split; [done|]. intros r'. rewrite Hrest, vlen_snoc. split.
    + intros (ps & -> & Hl). exists (p :: ps). split; [by rewrite <- app_assoc|]. split; [|done].
      split; [done|]. by apply Hp.
    + intros ([|p' ps] & -> & Hl); [done|]. destruct Hl as [[_ Hl] Hl']. apply Hp in Hl as [= <-].
      exists ps. by rewrite <- app_assoc.
  - split; [done|]. intros r. split; [done|]. intros ([|p ps] & -> & Hl); [done|].
    destruct Hl as [[_ Hl] _]. by apply Hp in Hl.
Qed.

Lemma split_loop_wp {S} ps : forall us os (s : S),
  vlen us = vlen os -> vlen us + vlen ps <= 32 ->
  wp (split_loop ps us os) s (fun s' r => s' = s /\
    r = (us ++ ((fun p => mkUpdate (pm_member_index p) (pm_generated_tokens p)) <$> ps),
         os ++ (pm_outcome <$> ps))).
Proof using HP.
  clear Hok l. induction ps as [|p ps IH]; intros us os s Hl Hc; cbn [split_loop].
  { apply wp_ret. by rewrite !app_nil_r. }
  rewrite vlen_cons in Hc. change M1_SPECULATIVE_INLINE_ROSTER_CAPACITY_V1 with 32.
  wp_step. apply wp_av_push; [lia|]. wp_step. apply wp_av_push; [lia|].
  eapply wp_mono; [apply IH; rewrite !vlen_snoc; lia|]. intros s' r [-> ->]. split; [done|].
  cbn [fmap list_fmap]. by rewrite <- !app_assoc.
Qed.

Definition still_active (os : list M1SpeculativeMemberRoundOutcomeV1) : list RequestId :=
  mo_request <$> filter (fun o => mo_status o = Active) os.

Lemma roster_loop_wp {S} os : forall roster (s : S),
  vlen roster + vlen os <= 32 ->
  wp (roster_loop os roster) s (fun s' r => s' = s /\ r = roster ++ still_active os).
Proof using HP.
  clear Hok l. unfold still_active. induction os as [|o os IH]; intros roster s Hc; cbn [roster_loop].
  { apply wp_ret. by rewrite app_nil_r. }
  rewrite vlen_cons in Hc. case_bool_decide as Ha.
  - change M1_SPECULATIVE_INLINE_ROSTER_CAPACITY_V1 with 32. wp_step. apply wp_av_push; [lia|].
    eapply wp_mono; [apply IH; rewrite vlen_snoc; lia|]. intros s' r [-> ->]. split; [done|].
    rewrite filter_cons_True by done. cbn [fmap list_fmap]. by rewrite <- app_assoc.
  - rewrite filter_cons_False by done. apply IH. lia.
Qed.

(** The permit of a binding and its prepared lanes. *)
Definition permit_of (b : M1SpeculativeRoundBindingV1) (ps : list PreparedMemberV1) :
    M1SpeculativePreflightedRoundV1 :=
  mkPreflighted b ((fun p => mkUpdate (pm_member_index p) (pm_generated_tokens p)) <$> ps)
    (pm_outcome <$> ps) (still_active (pm_outcome <$> ps)).

(** A preflight succeeds exactly on the current binding, for its own selection
    and epoch, with one accepted observation and control per active member. *)
Lemma preflight_round_wp {S} b sel ep os cs (s : S) :
  Forall observation_wf os -> (b = binding_of l (rb_epoch b) -> active_room l) ->
  wp (preflight_observed_round l b sel ep os cs) s (fun s' o => s' = s /\
    forall p, o = Ok p <->
      b = binding_of l (rb_epoch b) /\ sel = ps_selection (lp_shape l) /\ ep = rb_epoch b /\
      exists ps, lanes_prepared (lp_shape l) (lp_members l) 0 os cs ps /\ p = permit_of b ps).
Proof using HP Hok.
  intros Hwf Hroom. unfold preflight_observed_round.
  pose proof (validate_binding_spec l b) as Hvb.
  destruct (validate_binding l b) as [[]|e].
  2:{ apply wp_ret. split; [done|]. intros p. split; [done|]. intros [Hb _]. by apply Hvb in Hb. }
  pose proof (proj1 Hvb eq_refl) as Hb. specialize (Hroom Hb).
  case_bool_decide as Hsel; cbn [negb].
  2:{ apply wp_ret. split; [done|]. intros p. split; [done|]. by intros (_ & ? & _). }
  case_bool_decide as Hep; cbn [negb].
  2:{ apply wp_ret. split; [done|]. intros p. split; [done|]. by intros (_ & _ & ? & _). }
  assert (Hins : rb_members b = input_of <$> active_members l) by (by rewrite Hb).
  assert (Hcount : length (rb_members b) = length (active_members l)) by (by rewrite Hins, length_fmap).
  assert (H8 : vlen (active_members l) <= 8).
  { pose proof (loop_count_32 l Hok). pose proof (active_members_le l). lia. }
  destruct (N.eqb_spec (vlen os) (vlen (rb_members b))) as [Ho|Ho]; cbn [negb].
  2:{ apply wp_ret. split; [done|]. intros p. split; [done|]. intros (_ & _ & _ & ps & Hl & _).
      apply lanes_prepared_lengths in Hl as (Hl & _). destruct Ho. unfold vlen.
      unfold active_members in Hcount. lia. }
  destruct (N.eqb_spec (vlen cs) (vlen (rb_members b))) as [Hc|Hc]; cbn [negb].
  2:{ apply wp_ret. split; [done|]. intros p. split; [done|]. intros (_ & _ & _ & ps & Hl & _).
      apply lanes_prepared_lengths in Hl as (_ & Hl & _). destruct Hc. unfold vlen.
      unfold active_members in Hcount. lia. }
  unfold vlen in Ho, Hc, H8. wp_step. rewrite Hins.
  eapply wp_mono; [apply (prepare_loop_wp (lp_members l) [] [] [] [] os cs []); try done;
    rewrite ?length_fmap; try (unfold active_members in *; lia)|].
  { unfold vlen. rewrite length_fmap. unfold active_members in *. simpl. lia. }
  intros s' o [-> Hps]. destruct o as [ps|e].
  - destruct (proj1 (Hps ps) eq_refl) as (ps' & -> & Hl). cbn [app] in *.
    change (vlen (@nil M1SpeculativeMemberStateV1)) with 0 in *.
    destruct (lanes_prepared_lengths _ _ _ _ _ _ Hl) as (_ & _ & Hlen).
    assert (Hv : vlen ps' <= 8) by (unfold vlen, active_members in *; lia).
    wp_step. eapply wp_mono; [apply split_loop_wp; [done|change (vlen (@nil M1SpeculativePreparedMemberUpdateV1)) with 0; lia]|].
    intros s' r [-> ->]. cbn [app].
    wp_step. eapply wp_mono; [apply roster_loop_wp|].
    { unfold vlen. rewrite length_fmap. unfold vlen in Hv. simpl. lia. }
    intros s' r [-> ->]. apply wp_ret. split; [done|]. intros p. split.
    + intros [= <-]. split_and?; try done. by exists ps'.
    + intros (_ & _ & _ & ps & Hl2 & ->).
      by pose proof (proj2 (Hps ps) (ex_intro _ ps (conj eq_refl Hl2))) as [= ->].
  - split; [done|]. intros p. split; [done|]. intros (_ & _ & _ & ps & Hl & _).
    discriminate (proj2 (Hps ps) (ex_intro _ ps (conj eq_refl Hl))).
Qed.
End preflight.

(** ** Commit *)

(** The members after a round: every active one takes its lane's outcome. *)
Definition settled (m : M1SpeculativeMemberStateV1) (p : PreparedMemberV1) : M1SpeculativeMemberStateV1 :=
  apply_update (mkUpdate (pm_member_index p) (pm_generated_tokens p)) (pm_outcome p) m.

Fixpoint settle (ms : list M1SpeculativeMemberStateV1) (ps : list PreparedMemberV1) :
    list M1SpeculativeMemberStateV1 :=
  match ms with
  | [] => []
  | m :: ms' =>
      if is_active m then
        match ps with
        | p :: ps' => settled m p :: settle ms' ps'
        | [] => m :: ms'
        end
      else m :: settle ms' ps
  end.

Lemma commit_loop_wp ms : forall pre os cs ps l,
  lp_members l = pre ++ ms -> lanes_prepared (lp_shape l) ms (vlen pre) os cs ps ->
  wp (commit_loop ((fun p => mkUpdate (pm_member_index p) (pm_generated_tokens p)) <$> ps)
        (pm_outcome <$> ps)) l (fun l' _ => l' = put_members (pre ++ settle ms ps) l).
Proof.
  induction ms as [|m ms IH]; intros pre os cs ps l Hms; cbn [lanes_prepared settle].
  { intros (_ & _ & ->). apply wp_ret. rewrite <- Hms. by destruct l. }
  destruct (is_active m) eqn:Ha.
  2:{ intros Hl. pose proof (IH (pre ++ [m]) os cs ps l) as H. rewrite <- !app_assoc in H. cbn [app] in H.
      apply H; [done|]. by rewrite vlen_snoc. }
  destruct os as [|o os], cs as [|c cs], ps as [|p ps]; try done.
  intros [(_ & k & t & b & _ & ->) Hl]. cbn [fmap list_fmap commit_loop].
  wp_step. cbn [up_member_index pm_member_index prepared_member].
  apply (wp_update_at lp_members put_members m).
  { rewrite Hms, vlen_app, vlen_cons. lia. }
  rewrite Hms. rewrite (vnth_get m (pre ++ m :: ms) (vlen pre) m) by by apply vget_mid.
  assert (Hset : forall x, vset (pre ++ m :: ms) (vlen pre) x = pre ++ x :: ms).
  { intros x. unfold vset, vlen. rewrite Nat2N.id.
    rewrite <- (Nat.add_0_r (length pre)) at 1. by rewrite insert_app_r. }
  rewrite Hset.
  match goal with |- context [put_members (pre ++ ?x :: ms) l] => set (m' := x) end.
  pose proof (IH (pre ++ [m']) os cs ps (put_members (pre ++ m' :: ms) l)) as H.
  rewrite <- !app_assoc in H. cbn [app] in H.
  eapply wp_mono; [apply H; [done|]|].
  - by rewrite vlen_snoc.
  - intros l' _ ->. done.
Qed.

(** Committing a current permit settles every lane and advances the round. *)
Lemma commit_wp {P : Platform} l b os cs ps :
  b = binding_of l (rb_epoch b) -> lp_next_round l < u64_max ->
  lanes_prepared (lp_shape l) (lp_members l) 0 os cs ps ->
  wp (commit_preflighted_round (permit_of b ps)) l (fun l' r =>
    l' = mkLoop (lp_identity l) (lp_shape l) (settle (lp_members l) ps) (lp_next_round l + 1)
           (Some (rb_epoch b)) /\
    r = Ok (mkRoundOutcome (lp_identity l) (ps_selection (lp_shape l)) (lp_next_round l) (rb_epoch b)
              (pm_outcome <$> ps) (still_active (pm_outcome <$> ps)))).
Proof.
  intros Hb Hround Hl. unfold commit_preflighted_round. wp_step. wp_step.
  cbn [permit_of pf_binding pf_updates pf_outcomes pf_next_active_roster].
  change (id l) with l. rewrite (proj2 (validate_binding_spec l b) Hb).
  wp_step. eapply wp_mono; [by apply (commit_loop_wp (lp_members l) [] os cs ps l)|]. intros l' u ->.
  wp_step. wp_step. wp_step. cbn [put_members lp_next_round].
  apply wp_add_w; [lia|]. wp_steps. done.
Qed.

(** A stale permit comes back unchanged. *)
Lemma commit_stale_wp {P : Platform} l p :
  pf_binding p <> binding_of l (rb_epoch (pf_binding p)) ->
  wp (commit_preflighted_round p) l (fun l' r => l' = l /\ exists e, r = Err (e, p)).
Proof.
  intros Hb. unfold commit_preflighted_round. wp_step. wp_step. change (id l) with l.
  pose proof (validate_binding_spec l (pf_binding p)) as Hv.
  destruct (validate_binding l (pf_binding p)) as [[]|e]; [exfalso; apply Hb; by apply Hv|].
  apply wp_ret. eauto.
Qed.

(** ** The invariant is kept *)

(** What a round does to one member. *)
Definition round_step (sh : M1SpeculativePhysicalShapeV1) (m m' : M1SpeculativeMemberStateV1) : Prop :=
  (is_active m = false /\ m' = m) \/
  (is_active m = true /\ exists index o k t l control,
     lane_round sh m o k t l /\ m' = settled m (prepared_member sh index m k t l control)).

Lemma settle_steps sh ms : forall index os cs ps,
  lanes_prepared sh ms index os cs ps -> Forall2 (round_step sh) ms (settle ms ps).
Proof.
  induction ms as [|m ms IH]; intros index os cs ps; cbn [lanes_prepared settle]; [by constructor|].
  destruct (is_active m) eqn:Ha.
  - destruct os as [|o os], cs as [|c cs], ps as [|p ps]; try done.
    intros [(_ & k & t & l & Hr & ->) Hl]. constructor; [|by eapply IH]. right. split; [done|].
    by exists index, o, k, t, l, (ct_action c).
  - intros Hl. constructor; [by left|by eapply IH].
Qed.

Lemma settled_fields sh index m k t l control :
  settled m (prepared_member sh index m k t l control) =
  mkMember (mb_request m) (mb_policy m) (control_cut m l control).2 t
    (mb_target_committed m + k + 1) (mb_draft_committed m + N.min (k + 1) (ps_draft_tokens sh))
    (mb_generated m + vlen (control_cut m l control).1).
Proof.
  unfold settled, apply_update, prepared_member, member_outcome.
  destruct (control_cut m l control) as [pub st]. cbn. by destruct (k =? ps_draft_tokens sh).
Qed.

Lemma control_cut_limit m l control :
  mb_generated m <= max_output_tokens (mb_policy m) ->
  mb_generated m + vlen (control_cut m l control).1 <= max_output_tokens (mb_policy m).
Proof.
  intros H. destruct control; simpl; [by apply cut_limit|]. change (vlen (@nil N)) with 0. lia.
Qed.

Lemma control_cut_active m l control :
  mb_generated m < max_output_tokens (mb_policy m) -> (control_cut m l control).2 = Active ->
  control = Continue /\ (control_cut m l control).1 = l /\
  mb_generated m + vlen l < max_output_tokens (mb_policy m).
Proof. intros H. destruct control; simpl; [|done]. intros Hc. split; [done|]. by apply cut_active. Qed.

Lemma round_step_ok sh m m' :
  member_ok m -> (is_active m = true -> room sh (mb_target_committed m) (mb_draft_committed m)) ->
  round_step sh m m' -> member_ok m' /\ mb_request m' = mb_request m /\ mb_policy m' = mb_policy m /\
    (is_active m' = true -> is_active m = true /\ mb_generated m + 1 <= mb_generated m').
Proof.
  intros [Hq Hp Ht Hd Hg Hact] Hroom [[Ha ->]|[Ha (i & o & k & t & l & c & (_ & Hk & Hl & _) & ->)]].
  { split; [by split|]. by rewrite Ha. }
  rewrite settled_fields. cbn [mb_request mb_policy mb_generated]. destruct (Hroom Ha) as [Hr1 Hr2].
  specialize (Hact Ha). pose proof (control_cut_limit m l c Hg) as Hlim.
  pose proof (control_cut_active m l c Hact) as Hcut.
  unfold is_active. cbn [mb_status mb_generated].
  split.
  - split; cbn; try done; [lia|lia|].
    unfold is_active. cbn. intros H%bool_decide_eq_true. destruct (Hcut H) as (_ & -> & ?). done.
  - split_and!; try done.
    intros H%bool_decide_eq_true. destruct (Hcut H) as (_ & -> & ?). split; [|lia]. exact Ha.
Qed.

Lemma active_room_spec l :
  active_room l <-> Forall (fun m => is_active m = true ->
    room (lp_shape l) (mb_target_committed m) (mb_draft_committed m)) (lp_members l).
Proof.
  unfold active_room, active_members. rewrite !Forall_forall. split.
  - intros H m Hm Ha. apply H. by apply list_elem_of_filter.
  - intros H m [Ha Hm]%list_elem_of_filter. by apply H.
Qed.

Lemma active_members_exists l : active_members l <> [] -> Exists (fun m => is_active m = true) (lp_members l).
Proof.
  unfold active_members. intros H. apply Exists_exists.
  destruct (filter _ (lp_members l)) as [|m ms] eqn:E; [done|]. exists m.
  assert (Hm : m ∈ filter (fun m => is_active m = true) (lp_members l)) by (rewrite E; by left).
  apply list_elem_of_filter in Hm as [? ?]. done.
Qed.

Lemma settle_loop_ok l os cs ps epoch :
  loop_ok l -> active_room l -> active_members l <> [] ->
  lanes_prepared (lp_shape l) (lp_members l) 0 os cs ps ->
  loop_ok (mkLoop (lp_identity l) (lp_shape l) (settle (lp_members l) ps) (lp_next_round l + 1) epoch).
Proof.
  intros [Hs Hc Hnd Hm Hprog _] Hroom%active_room_spec Hact%active_members_exists Hl.
  pose proof (settle_steps _ _ _ _ _ _ Hl) as Hst.
  assert (Hall : Forall2 (fun m m' => member_ok m' /\ mb_request m' = mb_request m /\
      mb_policy m' = mb_policy m /\ (is_active m' = true -> lp_next_round l + 1 <= mb_generated m'))
      (lp_members l) (settle (lp_members l) ps)).
  { revert Hst Hm Hroom Hprog. clear. generalize (settle (lp_members l) ps).
    generalize (lp_members l) (lp_shape l) (lp_next_round l). intros ms sh r ms' Hst.
    induction Hst as [|m m' ms ms' Hst _ IH]; [by constructor|].
    intros [? ?]%Forall_cons [? ?]%Forall_cons [Hp ?]%Forall_cons. constructor; [|by apply IH].
    destruct (round_step_ok sh m m') as (? & ? & ? & Hg); [done..|]. split_and!; try done.
    intros [Ha ?]%Hg. specialize (Hp Ha). lia. }
  split; cbn [lp_shape lp_members lp_next_round]; try done.
  - unfold vlen in *. by rewrite <- (Forall2_length _ _ _ Hst).
  - replace (mb_request <$> settle (lp_members l) ps) with (mb_request <$> lp_members l); [done|].
    clear - Hall. induction Hall as [|m m' ms ms' (_ & E & _) _ IH]; [done|]. cbn [fmap list_fmap].
    by rewrite E, IH.
  - clear - Hall. induction Hall as [|m m' ms ms' (? & _) _ IH]; by constructor.
  - clear - Hall. induction Hall as [|m m' ms ms' (_ & _ & _ & ?) _ IH]; by constructor.
  - clear - Hall Hact Hm Hprog. induction Hall as [|m m' ms ms' (_ & _ & E & _) _ IH];
      [by apply Exists_nil in Hact|].
    apply Forall_cons in Hm as [Hm0 Hm]. apply Forall_cons in Hprog as [Hp0 Hprog].
    apply Exists_cons in Hact as [Ha|Ha]; [left|right; by apply IH].
    rewrite E. specialize (Hp0 Ha). pose proof (mk_active _ Hm0 Ha). lia.
Qed.

(** ** Draft catch-up *)
Record catchup_enabled (l : M1SpeculativeGenerationLoopV1) (tr : M1DraftCatchupCoordinatorTransitionV1)
    (m : M1SpeculativeMemberStateV1) : Prop := {
  ce_identity : tr_coordinator_identity tr = lp_identity l;
  ce_parent : tr_parent tr = ps_selection (lp_shape l);
  ce_member : lp_members l = [m] /\ ps_sequences (lp_shape l) = 1 /\ mb_request m = tr_request tr /\
              is_active m = true;
  ce_round : tr_completed_round tr + 1 = lp_next_round l /\ lp_next_round l <= u64_max;
  ce_epoch : 0 < Completion.value (tr_prior_epoch tr) < u64_max /\
             lp_last_epoch l = Some (tr_prior_epoch tr) /\
             Completion.value (tr_epoch tr) = Completion.value (tr_prior_epoch tr) + 1;
  ce_dispatch : 0 < tr_prior_dispatch_generation tr < u64_max /\
                tr_dispatch_generation tr = tr_prior_dispatch_generation tr + 1;
  ce_gap : mb_draft_committed m = tr_draft_committed tr /\
           mb_target_committed m = tr_target_committed tr /\
           tr_target_committed tr = tr_draft_committed tr + 1 /\
           tr_target_committed tr <= M1_MAX_CONTEXT_TOKENS;
  ce_token : tr_token tr < QWEN3_VOCABULARY_SIZE
}.

Definition caught_up (l : M1SpeculativeGenerationLoopV1) (tr : M1DraftCatchupCoordinatorTransitionV1)
    (m : M1SpeculativeMemberStateV1) : M1SpeculativeGenerationLoopV1 :=
  mkLoop (lp_identity l) (lp_shape l)
    [mkMember (mb_request m) (mb_policy m) (mb_status m) (mb_next_anchor m) (mb_target_committed m)
       (tr_target_committed tr) (mb_generated m)]
    (lp_next_round l) (Some (tr_epoch tr)).

Lemma opt_is_checked max a b : opt_is (checked_add max a 1) b = true <-> b = a + 1 /\ b <= max.
Proof.
  unfold checked_add. destruct (N.leb_spec (a + 1) max); cbn [opt_is]; [|split; [done|lia]].
  rewrite N.eqb_eq. lia.
Qed.

(** The catch-up happens exactly when it is enabled, and moves only the draft
    cursor and the epoch. *)
Lemma catchup_wp l tr :
  wp (commit_draft_catchup_transition tr) l (fun l' r =>
    match r with
    | Ok _ => exists m, catchup_enabled l tr m /\ l' = caught_up l tr m
    | Err e => l' = l /\ (forall m, ~ catchup_enabled l tr m) /\
        e = (if negb (tr_coordinator_identity tr =? lp_identity l) then CoordinatorIdentityMismatch
             else if bool_decide (tr_parent tr = ps_selection (lp_shape l)) then DraftCatchupState
             else LoopSelectionDrift (ps_selection (lp_shape l)) (tr_parent tr))
    end).
Proof.
  unfold commit_draft_catchup_transition. wp_step. wp_step. change (id l) with l.
  destruct (N.eqb_spec (tr_coordinator_identity tr) (lp_identity l)) as [Hid|Hid]; cbn [negb].
  2:{ apply wp_ret. split; [done|]. split; [|done]. by intros m []. }
  pose proof (selection_matches_spec (tr_parent tr) (ps_selection (lp_shape l))) as Hsel.
  destruct (Graph.selection_matches _ _); cbn [negb].
  2:{ apply wp_ret. split; [done|]. rewrite bool_decide_false.
      2:{ intros E. by apply Hsel in E. }
      split; [|done]. intros m [_ E]. by apply Hsel in E. }
  pose proof (proj1 Hsel eq_refl) as Hpar. rewrite bool_decide_true by done.
  destruct (N.eqb_spec (vlen (lp_members l)) 1) as [H1|H1]; cbn [negb].
  2:{ apply wp_ret. split; [done|]. split; [|done]. intros m [_ _ (E & _)]. by rewrite E in H1. }
  destruct (lp_members l) as [|m [|? ?]] eqn:Hms; try (unfold vlen in H1; simpl in H1; lia).
  wp_step. eapply wp_slice_at; [done|].
  match goal with |- wp (if ?b then _ else _) _ _ => destruct b eqn:Hb end.
  - apply wp_ret. split; [done|]. split; [|done]. intros m' Hen.
    apply not_false_iff_true in Hb. apply Hb. clear Hb.
    destruct Hen as [_ _ (E & Hseq & Hreq & Hact) (Hr & Hrm) (Hp & Hlast & He) (Hg & Hgd) (Hd & Ht & Hgap & Hctx) Htok].
    rewrite Hms in E. injection E as <-. rewrite Hlast, Hreq, Hact, Hseq.
    rewrite !(proj2 (opt_is_checked _ _ _)) by (unfold u64_max, u32_max, M1_MAX_CONTEXT_TOKENS in *; lia).
    rewrite !N.eqb_refl, Hd, Ht, !N.eqb_refl.
    rewrite (proj2 (N.eqb_neq (Completion.value (tr_prior_epoch tr)) 0)) by lia.
    rewrite (proj2 (N.eqb_neq (tr_prior_dispatch_generation tr) 0)) by lia.
    rewrite (proj2 (N.ltb_ge _ _)) by lia. rewrite (proj2 (N.leb_gt _ _)) by lia. done.
  - rewrite !orb_false_iff, !negb_false_iff, !opt_is_checked, !N.eqb_eq, !N.eqb_neq, N.ltb_ge, N.leb_gt in Hb.
    destruct Hb as ((((((((((((((Hseq & Hr) & Hp0) & Hlast) & He) & Hg0) & Hg) & Hsl) & Hgn) & Hact) & Hd) & Ht) & Hgap) & Hctx) & Htok).
    destruct (lp_last_epoch l) as [ep|] eqn:Hl; [|done].
    apply negb_false_iff, N.eqb_eq in Hlast.
    wp_step. apply (wp_update_at lp_members put_members m); [by rewrite Hms|].
    rewrite Hms. wp_steps. exists m. split; [|done].
    split; try done.
    + split_and!; try done. destruct (mb_request m), (tr_request tr). simpl in *. congruence.
    + lia.
    + split; [lia|]. split; [|lia]. rewrite Hl. destruct ep as [v], (tr_prior_epoch tr). simpl in *. congruence.
    + lia.
    + lia.
Qed.

Lemma caught_up_ok l tr m : loop_ok l -> catchup_enabled l tr m -> loop_ok (caught_up l tr m).
Proof.
  intros [Hs Hc Hnd Hm Hprog Hr] [_ _ (E & _ & _ & Hact) _ _ _ (Hd & Ht & Hgap & Hctx) _].
  rewrite E in *. apply Forall_cons in Hm as [[Hq Hp Htm Hdm Hg Ha] _]. apply Forall_cons in Hprog as [Hprog _].
  apply Exists_cons in Hr as [Hr|Hr]; [|by apply Exists_nil in Hr].
  split; cbn [caught_up lp_shape lp_members lp_next_round]; try done.
  - apply Forall_singleton. by split; cbn; try lia.
  - apply Forall_singleton. exact Hprog.
  - left. exact Hr.
Qed.
