(* ===== verification/SpecLoopWorld.v ===== *)
(** Runs of the generation loop: one coordinator, the bindings and permits
    handed out and not yet consumed, and the text published so far, as a step
    relation over the operations.  Its invariant: the coordinator stays
    well-formed, and a permit can only be committed in the state it was
    preflighted in. *)
From S2P Require Import Prelude Spec Bytes PlanSelection M1Completion CompletionFacts.
From S2P Require Import CompletionWire Platform Readback SpecLoop SpecLoopFacts SpecLoopRounds.
From S2P Require Scheduler.
Local Open Scope prog_scope.

(** ** Construction *)
Record seed_ok (sh : M1SpeculativePhysicalShapeV1) (sd : M1SpeculativeMemberSeedV1) : Prop := {
  sk_request : generation (seed_request sd) <> 0 /\ slot (seed_request sd) < Scheduler.M1_MAX_ACTIVE_SEQUENCES;
  sk_anchor : seed_round_anchor sd < QWEN3_VOCABULARY_SIZE;
  sk_room : room sh (seed_target_committed sd) (seed_draft_committed sd)
}.

Definition seeds_ok (sh : M1SpeculativePhysicalShapeV1) (seeds : list M1SpeculativeMemberSeedV1) : Prop :=
  1 <= vlen seeds <= ps_sequences sh /\ Forall (seed_ok sh) seeds /\ NoDup (seed_request <$> seeds).

Lemma validate_seed_wp {S} sh pre sd rest (s : S) :
  shape_ok sh ->
  wp (validate_seed sh (pre ++ sd :: rest) (vlen pre) sd) s (fun s' o => s' = s /\
    (o = Ok tt <-> seed_ok sh sd /\ seed_request sd ∉ (seed_request <$> pre))).
Proof.
  intros Hsh. unfold validate_seed.
  destruct (N.eqb_spec (generation (seed_request sd)) 0) as [Hg|Hg]; cbn [orb].
  { apply wp_ret. split; [done|]. split; [done|]. by intros [[[? _] _ _] _]. }
  destruct (N.leb_spec Scheduler.M1_MAX_ACTIVE_SEQUENCES (slot (seed_request sd))) as [Hs|Hs].
  { apply wp_ret. split; [done|]. split; [done|]. intros [[[_ ?] _ _] _]. lia. }
  wp_step. apply wp_slice_range; [lia|rewrite vlen_app; lia|]. rewrite (subslice_first pre) by done.
  destruct (iter_position _ _) as [i|] eqn:Hi.
  { apply wp_ret. split; [done|]. split; [done|]. intros [_ Hn]. destruct Hn.
    apply iter_position_Some in Hi as (x & Hx & Hp & _). apply bool_decide_eq_true in Hp.
    apply list_elem_of_fmap. exists x. split; [done|]. by eapply list_elem_of_lookup_2. }
  assert (Hfresh : seed_request sd ∉ (seed_request <$> pre)).
  { apply iter_position_None in Hi. intros (x & Hx & Hin)%list_elem_of_fmap.
    apply Is_true_true, forallb_True in Hi. rewrite Forall_forall in Hi.
    specialize (Hi _ Hin). apply Is_true_true, negb_true_iff in Hi.
    by apply bool_decide_eq_false in Hi. }
  destruct (N.leb_spec QWEN3_VOCABULARY_SIZE (seed_round_anchor sd)) as [Ha|Ha].
  { apply wp_ret. split; [done|]. split; [done|]. intros [[_ ? _] _]. lia. }
  eapply wp_mono; [by apply validate_context_wp|]. intros s' o (-> & -> & _). split; [done|].
  cbn [seed_state mb_target_committed mb_draft_committed]. split; [by intros; split; [split|]|by intros [[_ _ ?] _]].
Qed.

Lemma seed_loop_wp {S} sh rest : forall pre v (s : S),
  shape_ok sh -> NoDup (seed_request <$> pre) ->
  wp (seed_loop rest sh (pre ++ rest) (vlen pre) v) s (fun s' o => s' = s /\
    forall ms, (exists v', o = Ok v' /\ vec_elems v' = ms) <->
      Forall (seed_ok sh) rest /\ NoDup (seed_request <$> pre ++ rest) /\
      ms = vec_elems v ++ (seed_state <$> rest)).
Proof.
  induction rest as [|sd rest IH]; intros pre v s Hsh Hnd; cbn [seed_loop].
  { apply wp_ret. split; [done|]. intros ms. rewrite !app_nil_r. split.
    - by intros (v' & [= <-] & <-).
    - intros (_ & _ & ->). by exists v. }
  wp_step. eapply wp_mono; [by apply validate_seed_wp|]. intros s' o [-> Ho].
  destruct o as [[]|e].
  - destruct (proj1 Ho eq_refl) as [Hok Hfresh].
    rewrite (cons_middle sd pre rest), app_assoc.
    replace (vlen pre + 1) with (vlen (pre ++ [sd])) by apply vlen_snoc.
    eapply wp_mono; [apply IH; [done|]|].
    { rewrite fmap_app. apply NoDup_app. split; [done|]. split; [|apply NoDup_singleton].
      intros r Hr ->%list_elem_of_singleton. done. }
    intros s' o [-> Hrest]. split; [done|]. intros ms. rewrite Hrest. cbn [vec_push vec_elems fmap list_fmap].
    rewrite <- !app_assoc, Forall_cons. cbn [app]. split; [by intros (? & ? & ?)|by intros ([_ ?] & ? & ?)].
  - split; [done|]. intros ms. split; [by intros (? & [=] & _)|].
    intros ([Hs _]%Forall_cons & Hn & _). exfalso. enough (Err e = Ok tt) by done. apply Ho.
    split; [done|]. rewrite fmap_app in Hn. apply NoDup_app in Hn as (_ & Hn & _).
    intros Hin. apply (Hn _ Hin). by left.
Qed.

(** The loop is built exactly from well-formed seeds; it starts with every
    member active, in the seeds' order, at round 0. *)
Lemma new_with_storage_wp sel seeds storage counter :
  wp (new_with_storage sel seeds storage) counter (fun counter' r =>
    forall l, r = Ok l <-> exists sh, from_selection sel = Ok sh /\ counter < u64_max /\
      vlen seeds <= vec_capacity storage /\ seeds_ok sh seeds /\
      counter' = counter + 1 /\ l = mkLoop counter sh (seed_state <$> seeds) 0 None).
Proof.
  unfold new_with_storage, seeds_ok. destruct (from_selection sel) as [sh|e] eqn:Hsel.
  2:{ apply wp_ret. intros l. split; [done|]. by intros (? & ? & _). }
  destruct (from_selection_ok _ _ Hsel) as (_ & Hsh & _).
  assert (Hbad : forall (s : N) e, ~ (counter < u64_max /\ vlen seeds <= vec_capacity storage /\
      (1 <= vlen seeds <= ps_sequences sh /\ Forall (seed_ok sh) seeds /\ NoDup (seed_request <$> seeds))) ->
    forall l, (Err e : LoopResult M1SpeculativeGenerationLoopV1) = Ok l <-> exists sh', (Ok sh : LoopResult _) = Ok sh' /\ counter < u64_max /\
      vlen seeds <= vec_capacity storage /\
      (1 <= vlen seeds <= ps_sequences sh' /\ Forall (seed_ok sh') seeds /\ NoDup (seed_request <$> seeds)) /\
      s = counter + 1 /\ l = mkLoop counter sh' (seed_state <$> seeds) 0 None).
  { intros s e H l. split; [done|]. intros (sh' & [= <-] & ? & ? & ? & _). by destruct H. }
  unfold fresh. wp_step. wp_step. wp_step. unfold checked_add. change (id counter) with counter.
  destruct (N.leb_spec (counter + 1) u64_max) as [Hc|Hc].
  2:{ apply wp_ret, wp_ret. cbv beta iota. apply Hbad. lia. }
  wp_step. wp_step. apply wp_ret. cbv beta iota.
  destruct (N.eqb_spec (vlen seeds) 0) as [H0|H0]; [apply wp_ret, Hbad; lia|].
  destruct (N.ltb_spec (ps_sequences sh) (vlen seeds)) as [H1|H1]; [apply wp_ret, Hbad; lia|].
  cbn [vec_clear vec_capacity].
  destruct (N.ltb_spec (vec_capacity storage) (vlen seeds)) as [H2|H2]; [apply wp_ret, Hbad; lia|].
  wp_step. eapply wp_mono; [apply (seed_loop_wp sh seeds []); [done|constructor]|].
  intros s' o [-> Ho]. cbn [app vec_elems vec_clear] in Ho. destruct o as [v|e].
  - destruct (proj1 (Ho (vec_elems v)) (ex_intro _ v (conj eq_refl eq_refl))) as (Hs & Hn & Hv).
    apply wp_ret. intros l. rewrite Hv. split.
    + intros [= <-]. exists sh. split_and!; try done; lia.
    + by intros (sh' & [= <-] & _ & _ & _ & _ & ->).
  - apply wp_ret. cbv beta iota. apply Hbad. intros (_ & _ & _ & Hs & Hn).
    by destruct (proj2 (Ho (seed_state <$> seeds))) as (v' & [=] & _).
Qed.

Lemma seeded_loop_ok counter sh seeds :
  shape_ok sh -> seeds_ok sh seeds -> Forall (fun sd => policy_ok (seed_policy sd)) seeds ->
  loop_ok (mkLoop counter sh (seed_state <$> seeds) 0 None).
Proof.
  intros Hsh (Hc & Hs & Hn) Hp. destruct (shape_ok_bounds _ Hsh) as [Hd _].
  assert (Hms : Forall member_ok (seed_state <$> seeds)).
  { apply Forall_fmap. rewrite Forall_forall in Hs, Hp |- *. intros sd Hin.
    destruct (Hs _ Hin) as [Hr Ha [Ht Hdr]]. pose proof (pk_limit _ (Hp _ Hin)).
    split; cbn [seed_state mb_request mb_policy mb_target_committed mb_draft_committed mb_generated];
      try done; try lia. by apply Hp. }
  split; cbn [lp_shape lp_members lp_next_round]; try done.
  - unfold vlen in *. by rewrite length_fmap.
  - by rewrite <- list_fmap_compose.
  - apply Forall_fmap, Forall_forall. intros sd _ _. cbn. lia.
  - destruct seeds as [|sd seeds]; [unfold vlen in Hc; simpl in Hc; lia|]. left. cbn. lia.
Qed.

(** ** Checked reports *)
Definition observed_of (c : InertCheckedCompletionRecord) : CheckedMemberObservationV1 :=
  mkObservation (Compact.request (record c)) (checked_semantics c) (block (CompactFacts.emitted (record c))).

(** A record the coordinator can observe: its count stays inside its array. *)
Definition observable (c : InertCheckedCompletionRecord) : Prop :=
  Compact.emitted_token_count (record c) <= 17 /\
  Compact.emitted_token_count (record c) <= vlen (Compact.emitted_tokens (record c)).

Lemma observed_wf c : observable c -> observation_wf (observed_of c).
Proof.
  intros [H1 H2]. exists (CompactFacts.emitted (record c)). split; [|done].
  unfold CompactFacts.emitted, vlen in *. rewrite length_take. lia.
Qed.

Section reports.
Context {P : Platform} {HP : PlatformLaws P}.

Lemma observation_loop_wp {S} records : forall count lane pre (s : S),
  vlen pre <= 32 ->
  wp (observation_loop records count lane pre) s (fun s' o => s' = s /\ forall os,
    o = Ok os <-> Forall observable records /\ vlen pre + vlen records <= 32 /\
      os = pre ++ (observed_of <$> records)).
Proof using HP.
  induction records as [|c records IH]; intros count lane pre s Hpre; cbn [observation_loop].
  { apply wp_ret. split; [done|]. intros os. rewrite app_nil_r. change (vlen (@nil InertCheckedCompletionRecord)) with 0.
    split; [intros [= <-]; split_and!; [done|lia|done]|by intros (_ & _ & ->)]. }
  rewrite vlen_cons.
  assert (Hbad : forall e, ~ (observable c /\ vlen pre + 1 <= 32) ->
    wp (ret (Err e : LoopResult (list CheckedMemberObservationV1))) s (fun s' o => s' = s /\ forall os,
      o = Ok os <-> Forall observable (c :: records) /\ vlen pre + (vlen records + 1) <= 32 /\
        os = pre ++ (observed_of <$> c :: records))).
  { intros e H. apply wp_ret. split; [done|]. intros os. split; [done|].
    intros ([Hc _]%Forall_cons & Hn & _). destruct H. split; [done|lia]. }
  unfold slice_get. destruct (N.leb_spec (Compact.emitted_token_count (record c))
    (vlen (Compact.emitted_tokens (record c)))) as [Hv|Hv].
  2:{ rewrite andb_false_r. apply Hbad. unfold observable. lia. }
  rewrite (proj2 (N.leb_le 0 _)) by lia. cbn [andb]. rewrite subslice_take. fold (CompactFacts.emitted (record c)).
  assert (He : vlen (CompactFacts.emitted (record c)) = Compact.emitted_token_count (record c)).
  { unfold CompactFacts.emitted, vlen in *. rewrite length_take. lia. }
  rewrite from_slice_spec, He. destruct (N.ltb_spec 17 (Compact.emitted_token_count (record c))) as [H17|H17].
  { apply Hbad. unfold observable. lia. }
  rewrite try_push_spec. change M1_SPECULATIVE_INLINE_ROSTER_CAPACITY_V1 with 32.
  destruct (N.ltb_spec (vlen pre) 32) as [Hp|Hp]; [|apply Hbad; unfold observable; lia].
  eapply wp_mono; [apply IH; rewrite vlen_snoc; lia|]. intros s' o [-> Ho]. split; [done|]. intros os.
  rewrite Ho, vlen_snoc, Forall_cons, <- app_assoc. unfold observable at 2. cbn [fmap list_fmap app]. fold (observed_of c).
  split; [intros (? & ? & ?); split_and!; try done; lia|intros ([_ ?] & ? & ?); split_and!; try done; lia].
Qed.

(** A checked report is preflighted as the observations of its records. *)
Lemma preflight_checked_wp {S} l b checked cs (s : S) :
  loop_ok l -> (b = binding_of l (rb_epoch b) -> active_room l) ->
  wp (preflight_checked_round l b checked cs) s (fun s' o => s' = s /\
    forall p, o = Ok p <->
      Forall observable (co_records checked) /\
      b = binding_of l (rb_epoch b) /\ co_selection checked = ps_selection (lp_shape l) /\
      co_epoch checked = rb_epoch b /\
      exists ps, lanes_prepared (lp_shape l) (lp_members l) 0 (observed_of <$> co_records checked) cs ps /\
        p = permit_of b ps).
Proof using HP.
  intros Hok Hroom. unfold preflight_checked_round. apply wp_try_bind.
  eapply wp_mono; [apply observation_loop_wp; done|]. intros s' o [-> Ho]. cbn [app] in Ho.
  destruct o as [os|e].
  - destruct (proj1 (Ho os) eq_refl) as (Hobs & _ & ->).
    eapply wp_mono; [apply preflight_round_wp; [done| |done]|].
    { apply Forall_fmap. eapply Forall_impl; [exact Hobs|]. intros c. apply observed_wf. }
    intros s' r [-> Hr]. split; [done|]. intros p. rewrite Hr. split; [by intros H|by intros [_ H]].
  - split; [done|]. intros p. split; [done|]. intros (Hobs & _ & _ & _ & ps & Hl & _).
    apply lanes_prepared_lengths in Hl as (Hl & _ & _). rewrite length_fmap in Hl.
    discriminate (proj2 (Ho (observed_of <$> co_records checked))). split_and!; try done.
    pose proof (active_members_le l) as Ha. pose proof (loop_count_32 l Hok). unfold active_members, vlen in *.
    change (length (@nil CheckedMemberObservationV1)) with 0%nat. lia.
Qed.
End reports.

(** ** Runs *)
Definition Text : Type := RequestId -> list N.

Definition published_tokens (o : M1SpeculativeMemberRoundOutcomeV1) : list N :=
  subslice (tb_tokens (mo_published o)) 0 (tb_count (mo_published o)).

(** What a round publishes for a request. *)
Definition published_for (r : RequestId) (os : list M1SpeculativeMemberRoundOutcomeV1) : list N :=
  concat (published_tokens <$> filter (fun o => mo_request o = r) os).

Definition publish (os : list M1SpeculativeMemberRoundOutcomeV1) (text : Text) : Text :=
  fun r => text r ++ published_for r os.

(** The coordinator, the text of every request, the bindings not yet
    preflighted, and the permits not yet committed, each with the coordinator
    and the text it was preflighted at. *)
Record World := mkWorld {
  w_loop : M1SpeculativeGenerationLoopV1;
  w_text : Text;
  w_bindings : list M1SpeculativeRoundBindingV1;
  w_permits : list (M1SpeculativePreflightedRoundV1 * (M1SpeculativeGenerationLoopV1 * Text))
}.

Definition start (l : M1SpeculativeGenerationLoopV1) : World := mkWorld l (fun _ => []) [] [].

Section world.
Context {P : Platform} {HP : PlatformLaws P}.

(** What the device may report at a coordinator and a text. *)
Context (device : M1SpeculativeGenerationLoopV1 -> Text -> M1CheckedCompletionOutputV1 -> Prop).

Inductive step : World -> World -> Prop :=
| step_bind l text bs ps round epoch roster b :
    bind_round l round epoch roster tt = Done tt (Ok b) ->
    step (mkWorld l text bs ps) (mkWorld l text (b :: bs) ps)
| step_preflight l text bs1 b bs2 ps checked cs r :
    device l text checked -> preflight_checked_round l b checked cs tt = Done tt r ->
    step (mkWorld l text (bs1 ++ b :: bs2) ps)
      (mkWorld l text (bs1 ++ bs2) (match r with Ok p => (p, (l, text)) :: ps | Err _ => ps end))
| step_commit l text bs ps1 p at_ ps2 l' outcome :
    commit_preflighted_round p l = Done l' (Ok outcome) ->
    step (mkWorld l text bs (ps1 ++ (p, at_) :: ps2))
      (mkWorld l' (publish (ro_members outcome) text) bs (ps1 ++ ps2))
| step_commit_refused l text bs ps1 p at_ ps2 l' e p' :
    commit_preflighted_round p l = Done l' (Err (e, p')) ->
    step (mkWorld l text bs (ps1 ++ (p, at_) :: ps2)) (mkWorld l' text bs (ps1 ++ (p', at_) :: ps2))
| step_catchup l text bs ps tr l' r :
    commit_draft_catchup_transition tr l = Done l' r ->
    step (mkWorld l text bs ps) (mkWorld l' text bs ps).

(** A coordinator as seen later in a run. *)
Definition catchup_of (a b : M1SpeculativeGenerationLoopV1) : Prop :=
  exists m m', lp_members a = [m] /\ lp_members b = [m'] /\ is_active m = true /\ is_active m' = true /\
    mb_draft_committed m < mb_draft_committed m'.

Definition later (a b : M1SpeculativeGenerationLoopV1 * Text) : Prop :=
  a = b \/ lp_next_round a.1 < lp_next_round b.1 \/
  (lp_next_round a.1 = lp_next_round b.1 /\ catchup_of a.1 b.1).

Definition binding_ok (b : M1SpeculativeRoundBindingV1) : Prop :=
  rb_round b < u64_max /\ rb_members b <> [] /\
  Forall (fun i => room (rb_shape b) (in_target_pre_committed i) (in_draft_pre_committed i)) (rb_members b).

Record permit_ok (w : World)
    (p : M1SpeculativePreflightedRoundV1 * (M1SpeculativeGenerationLoopV1 * Text)) : Prop := {
  po_loop : loop_ok p.2.1;
  po_later : later p.2 (w_loop w, w_text w);
  po_binding : binding_ok (pf_binding p.1) /\ pf_binding p.1 = binding_of p.2.1 (rb_epoch (pf_binding p.1));
  po_round : exists checked cs ps, device p.2.1 p.2.2 checked /\
    lanes_prepared (lp_shape p.2.1) (lp_members p.2.1) 0 (observed_of <$> co_records checked) cs ps /\
    p.1 = permit_of (pf_binding p.1) ps
}.

Record world_ok (w : World) : Prop := {
  wo_loop : loop_ok (w_loop w);
  wo_bindings : Forall binding_ok (w_bindings w);
  wo_permits : Forall (permit_ok w) (w_permits w)
}.

(** A binding of the current state gives every active member room. *)
Lemma binding_room l b : binding_ok b -> b = binding_of l (rb_epoch b) ->
  active_room l /\ active_members l <> [] /\ lp_next_round l < u64_max.
Proof.
  clear. intros (Hr & Hne & Hroom) Hb. rewrite Hb in Hr, Hne, Hroom. cbn in Hr, Hne, Hroom.
  split; [by apply Forall_fmap in Hroom|]. split; [|done]. intros E. by rewrite E in Hne.
Qed.

(** A permit is valid in a later state only if nothing has changed. *)
Lemma later_current a b bd :
  later a b -> bd = binding_of a.1 (rb_epoch bd) -> bd = binding_of b.1 (rb_epoch bd) -> a = b.
Proof.
  clear. intros [->|[Hlt|[_ (m & m' & Ha & Hb & Hm & Hm' & Hd)]]] H1 H2; [done| |].
  - rewrite H1 in H2. injection H2 as _ _ Hr _. lia.
  - rewrite H1 in H2. injection H2 as _ _ _ Hi. unfold active_members in Hi. rewrite Ha, Hb in Hi.
    rewrite !filter_cons_True in Hi by done. injection Hi as _ _ _ Hdr. lia.
Qed.

Lemma later_round a l text l' text' :
  later a (l, text) -> lp_next_round l' = lp_next_round l + 1 -> later a (l', text').
Proof.
  clear. intros [->|[H|[H _]]] Hr; right; left; simpl in *; lia.
Qed.

Lemma later_catchup a l text l' :
  later a (l, text) -> lp_next_round l' = lp_next_round l -> catchup_of l l' -> later a (l', text).
Proof.
  clear. intros [->|[H|[H (m & m' & Ha & Hb & Hm & Hm' & Hd)]]] Hr Hc; right; simpl in *.
  - right. split; [lia|done].
  - left. lia.
  - right. split; [lia|]. destruct Hc as (n & n' & Hn & Hn' & Hna & Hna' & Hnd).
    rewrite Hb in Hn. injection Hn as <-. exists m, n'. split_and!; try done. lia.
Qed.

Lemma permit_ok_mono w w' p :
  (forall a, later a (w_loop w, w_text w) -> later a (w_loop w', w_text w')) ->
  permit_ok w p -> permit_ok w' p.
Proof. clear. intros H [? ? ? ?]. split; auto. Qed.

Lemma permits_mono w w' ps :
  (forall a, later a (w_loop w, w_text w) -> later a (w_loop w', w_text w')) ->
  Forall (permit_ok w) ps -> Forall (permit_ok w') ps.
Proof. intros H Hps. eapply Forall_impl; [exact Hps|]. intros q. by apply permit_ok_mono. Qed.

Lemma run_Done {S A} (m : M S A) s s' a (Q : S -> A -> Prop) : wp m s Q -> m s = Done s' a -> Q s' a.
Proof. clear. unfold wp. intros H E. by rewrite E in H. Qed.

Lemma loop_round_bound l : loop_ok l -> lp_next_round l <= M1_MAX_CONTEXT_TOKENS.
Proof.
  clear. intros [_ _ _ Hm _ (m & Hin & Hr)%Exists_exists]. rewrite Forall_forall in Hm.
  pose proof (pk_limit _ (mk_policy _ (Hm _ Hin))). lia.
Qed.

(** A commit that succeeds happens in the very state its permit was
    preflighted in, and settles that preflight's lanes. *)
Lemma commit_current w p l_ text_ l' out :
  permit_ok w (p, (l_, text_)) -> commit_preflighted_round p (w_loop w) = Done l' (Ok out) ->
  exists checked cs ps, device (w_loop w) (w_text w) checked /\
    lanes_prepared (lp_shape (w_loop w)) (lp_members (w_loop w)) 0 (observed_of <$> co_records checked) cs ps /\
    pf_binding p = binding_of (w_loop w) (rb_epoch (pf_binding p)) /\
    l' = mkLoop (lp_identity (w_loop w)) (lp_shape (w_loop w)) (settle (lp_members (w_loop w)) ps)
           (lp_next_round (w_loop w) + 1) (Some (rb_epoch (pf_binding p))) /\
    ro_members out = pm_outcome <$> ps /\ (l_, text_) = (w_loop w, w_text w).
Proof.
  intros [Hl Hlat [Hb Hbd] (checked & cs & ps & Hdev & Hlanes & Hp)] Hrun. cbn [fst snd] in *.
  pose proof (validate_binding_spec (w_loop w) (pf_binding p)) as Hv.
  destruct (validate_binding (w_loop w) (pf_binding p)) as [[]|e].
  2:{ eapply run_Done in Hrun; [|apply commit_stale_wp; intros E; by apply Hv in E].
      by destruct Hrun as [_ [e' ?]]. }
  pose proof (proj1 Hv eq_refl) as Hcur.
  pose proof (later_current _ _ _ Hlat Hbd Hcur) as E. injection E as -> ->.
  destruct (binding_room _ _ Hb Hcur) as (_ & _ & Hround). rewrite Hp in Hrun.
  eapply run_Done in Hrun; [|by apply (commit_wp _ _ (observed_of <$> co_records checked) cs)]. destruct Hrun as [-> [= ->]].
  by exists checked, cs, ps.
Qed.

Lemma commit_refused p l l' e p' :
  commit_preflighted_round p l = Done l' (Err (e, p')) -> l' = l /\ p' = p.
Proof.
  unfold commit_preflighted_round, bind at 1, gets at 1. change (id l) with l.
  destruct (validate_binding l (pf_binding p)) as [u|e0]; [|by intros [= -> _ ->]].
  unfold bind, gets, modify, ret. repeat (case_match; try done).
Qed.

Lemma step_ok w w' : world_ok w -> step w w' -> world_ok w'.
Proof using HP.
  intros [Hl Hbs Hps] Hstep.
  destruct Hstep as [l text bs ps round epoch roster b Hrun|l text bs1 b bs2 ps checked cs r Hdev Hrun
    |l text bs ps1 p at_ ps2 l' out Hrun|l text bs ps1 p at_ ps2 l' e p' Hrun|l text bs ps tr l' r Hrun];
    cbn [w_loop w_bindings w_permits] in *.
  - eapply run_Done in Hrun; [|by apply bind_round_wp]. destruct Hrun as [_ H].
    destruct (proj1 (H b) eq_refl) as [(-> & Hr & _ & Hne & _ & Hroom) ->].
    split; cbn [w_loop w_bindings w_permits]; [done| |by eapply permits_mono; [|exact Hps]].
    constructor; [|done]. split; [|split].
    + cbn. apply loop_round_bound in Hl. unfold u64_max, M1_MAX_CONTEXT_TOKENS in *. lia.
    + cbn. intros E. apply Hne. by destruct (active_members l).
    + cbn. by apply Forall_fmap.
  - apply Forall_app in Hbs as [Hb1 [Hb Hb2]%Forall_cons].
    eapply run_Done in Hrun; [|apply preflight_checked_wp; [done..|intros E; by apply (binding_room l b)]].
    destruct Hrun as [_ Hr]. split; cbn [w_loop w_bindings w_permits]; [done|by apply Forall_app|].
    destruct r as [p|e]; [|by eapply permits_mono; [|exact Hps]].
    destruct (proj1 (Hr p) eq_refl) as (_ & Hbd & _ & _ & pl & Hlanes & ->). constructor.
    + split; cbn [fst snd]; try done; [by left|]. by exists checked, cs, pl.
    + by eapply permits_mono; [|exact Hps].
  - apply Forall_app in Hps as [Hp1 [Hp Hp2]%Forall_cons].
    destruct at_ as [l_ text_]. destruct (commit_current _ _ _ _ _ _ Hp Hrun) as (checked & cs & pl & _ & Hlanes & Hbd & -> & _).
    destruct (binding_room l _ (proj1 (po_binding _ _ Hp)) Hbd) as (Hroom & Hne & _).
    split; cbn [w_loop w_bindings w_permits]; [by eapply settle_loop_ok|done|].
    apply Forall_app. split; (eapply permits_mono; [|done]); intros a Ha; by eapply later_round.
  - apply Forall_app in Hps as [Hp1 [Hp Hp2]%Forall_cons].
    destruct (commit_refused _ _ _ _ _ Hrun) as [-> ->].
    split; cbn [w_loop w_bindings w_permits]; [done..|].
    apply Forall_app. split; [|constructor]; try (by eapply permits_mono; [|done]).
    by eapply permit_ok_mono; [|done].
  - eapply run_Done in Hrun; [|apply catchup_wp]. destruct r as [u|e].
    + destruct Hrun as (m & Hen & ->). split; cbn [w_loop w_bindings w_permits];
        [by apply caught_up_ok|done|].
      eapply permits_mono; [|exact Hps]. cbn [w_loop w_text]. intros a Ha. eapply later_catchup; [exact Ha|done|].
      destruct Hen as [_ _ (E & _ & _ & Hact) _ _ _ (Hd & Ht & Hgap & _) _].
      eexists m, _. split_and!; [done..|]. cbn. lia.
    + destruct Hrun as [-> _]. split; cbn [w_loop w_bindings w_permits]; [done..|].
      by eapply permits_mono; [|exact Hps].
Qed.
End world.
