(* ===== verification/SpecLoopText.v ===== *)
(** What the generation loop publishes: the reference generation of a request
    (greedy decoding of the target until a stop token or the output limit), the
    text a settled round adds to each request, and the relation between a
    member and its text that every round keeps when the device reports target
    passes. *)
From stdpp Require Import relations.
From S2P Require Import Prelude Spec Bytes PlanSelection M1Completion CompletionFacts SpecTheorems.
From S2P Require Import CompletionWire WireTheorems Platform Readback ReadbackTheorems.
From S2P Require Import SpecLoop SpecLoopFacts SpecLoopRounds SpecLoopWorld.
From S2P Require Scheduler.
Import Spec.Speculation.
Local Open Scope prog_scope.

(** ** The reference *)

(** One token at a time: the target's next token, up to and including the first
    stop token, and at most [fuel] tokens. *)
Fixpoint generate (target : list N -> N) (p : M1SpeculativeGenerationPolicyV1) (prefix : list N)
    (fuel : nat) : list N :=
  match fuel with
  | O => []
  | S fuel' =>
      let t := target prefix in
      t :: (if stopb p t then [] else generate target p (prefix ++ [t]) fuel')
  end.

Definition whole_text (target : list N -> N) (p : M1SpeculativeGenerationPolicyV1) (prompt : list N) :
    list N :=
  generate target p prompt (N.to_nat (max_output_tokens p)).

Lemma greedy_decode_length target n : forall prefix, length (greedy_decode target prefix n) = n.
Proof. induction n as [|n IH]; intros prefix; [done|]. cbn [greedy_decode length]. by rewrite IH. Qed.

(** Cutting a run of greedy decoding is a part of the generation. *)
Lemma cut_generate target p n : forall fuel prefix g,
  g + N.of_nat fuel = max_output_tokens p -> (0 < fuel)%nat ->
  match cut p g (greedy_decode target prefix n) with
  | (ts, Active) => ts = greedy_decode target prefix n /\ exists fuel', fuel = (n + fuel')%nat /\
      (0 < fuel')%nat /\ generate target p prefix fuel = ts ++ generate target p (prefix ++ ts) fuel'
  | (ts, Completed _) => ts = generate target p prefix fuel
  | (_, Cancelled _) => False
  end.
Proof.
  induction n as [|n IH]; intros fuel prefix g Hg Hf; cbn [greedy_decode cut].
  { split; [done|]. exists fuel. by rewrite app_nil_r. }
  destruct fuel as [|fuel]; [lia|]. cbn [generate].
  destruct (N.eqb_spec g (max_output_tokens p)); [lia|].
  destruct (stopb p (target prefix)); [done|].
  destruct (N.eqb_spec (g + 1) (max_output_tokens p)).
  { by replace fuel with 0%nat by lia. }
  specialize (IH fuel (prefix ++ [target prefix]) (g + 1) ltac:(lia) ltac:(lia)).
  destruct (cut p (g + 1) _) as [ts [|reason|reason]]; [|by f_equal|done].
  destruct IH as (-> & fuel' & -> & Hf' & IH). split; [done|]. exists fuel'. split; [lia|]. split; [done|].
  unfold TokenId in *. cbn [app]. f_equal. by rewrite IH, <- app_assoc.
Qed.

(** Why a member stopped. *)
Definition stopped_for (p : M1SpeculativeGenerationPolicyV1) (ts : list N)
    (reason : M1SpeculativeTerminalReasonV1) : Prop :=
  match reason with
  | StopToken t => last ts = Some t /\ stopb p t = true
  | OutputLimit => vlen ts = max_output_tokens p
  end.

Lemma cut_reason p ts : forall g before reason, g < max_output_tokens p -> vlen before = g ->
  (cut p g ts).2 = Completed reason -> stopped_for p (before ++ (cut p g ts).1) reason.
Proof.
  induction ts as [|t ts IH]; intros g before reason Hg Hb; cbn [cut]; [done|].
  destruct (N.eqb_spec g (max_output_tokens p)); [lia|].
  destruct (stopb p t) eqn:Hs.
  { intros [= <-]. cbn [fst]. split; [by rewrite last_snoc|done]. }
  destruct (N.eqb_spec (g + 1) (max_output_tokens p)).
  { intros [= <-]. cbn [fst]. unfold stopped_for. rewrite vlen_snoc. lia. }
  specialize (IH (g + 1) (before ++ [t]) reason ltac:(lia) ltac:(rewrite vlen_snoc; lia)).
  destruct (cut p (g + 1) ts). cbn [fst snd] in *. by rewrite <- app_assoc in IH.
Qed.

(** ** The text of a round *)
Lemma published_for_cons r o os :
  published_for r (o :: os) = (if decide (mo_request o = r) then published_tokens o else []) ++ published_for r os.
Proof. unfold published_for. rewrite filter_cons. by destruct (decide _). Qed.

Lemma published_for_other r os : r ∉ (mo_request <$> os) -> published_for r os = [].
Proof.
  induction os as [|o os IH]; [done|]. rewrite published_for_cons. cbn [fmap list_fmap].
  intros [Hr Hn]%not_elem_of_cons. rewrite decide_False by congruence. by apply IH.
Qed.

Lemma outcome_request sh m k t l control : mo_request (member_outcome sh m k t l control) = mb_request m.
Proof. unfold member_outcome. by destruct (control_cut m l control). Qed.

Lemma outcome_tokens sh m k t l control :
  published_tokens (member_outcome sh m k t l control) = (control_cut m l control).1.
Proof.
  unfold member_outcome, published_tokens. destruct (control_cut m l control) as [ts st].
  cbn [mo_published block tb_tokens tb_count fst]. by apply subslice_first.
Qed.

Lemma lanes_requests sh ms : forall index os cs ps, lanes_prepared sh ms index os cs ps ->
  mo_request <$> (pm_outcome <$> ps) = mb_request <$> filter (fun m => is_active m = true) ms.
Proof.
  induction ms as [|m ms IH]; intros index os cs ps; cbn [lanes_prepared]; [by intros (_ & _ & ->)|].
  destruct (is_active m) eqn:Ha; [|rewrite active_cons_false by done; apply IH].
  rewrite active_cons_true by done. destruct os as [|o os], cs as [|c cs], ps as [|p ps]; try done.
  intros [(_ & k & t & l & _ & ->) Hl]. cbn [fmap list_fmap pm_outcome prepared_member].
  rewrite outcome_request. f_equal. by eapply IH.
Qed.

(** What a settled round does to a member and its text. *)
Definition text_step (sh : M1SpeculativePhysicalShapeV1) (os : list CheckedMemberObservationV1)
    (outs : list M1SpeculativeMemberRoundOutcomeV1) (m m' : M1SpeculativeMemberStateV1) : Prop :=
  (is_active m = false /\ m' = m /\ published_for (mb_request m) outs = []) \/
  (is_active m = true /\ exists index o k t l control, o ∈ os /\ lane_round sh m o k t l /\
     m' = settled m (prepared_member sh index m k t l control) /\
     published_for (mb_request m) outs = (control_cut m l control).1).

Lemma text_step_skip sh o os out outs m m' :
  mo_request out <> mb_request m -> text_step sh os outs m m' -> text_step sh (o :: os) (out :: outs) m m'.
Proof.
  intros Hne H. unfold text_step in *. rewrite published_for_cons, decide_False by done. cbn [app].
  destruct H as [H|(Ha & i & o' & k & t & l & c & Ho & H)]; [by left|].
  right. split; [done|]. exists i, o', k, t, l, c. split; [by right|done].
Qed.

Lemma lanes_text sh ms : forall index os cs ps, lanes_prepared sh ms index os cs ps ->
  NoDup (mb_request <$> ms) -> Forall2 (text_step sh os (pm_outcome <$> ps)) ms (settle ms ps).
Proof.
  induction ms as [|m ms IH]; intros index os cs ps; cbn [lanes_prepared settle]; [by constructor|].
  intros Hl [Hn Hnd]%NoDup_cons. destruct (is_active m) eqn:Ha.
  - destruct os as [|o os], cs as [|c cs], ps as [|p ps]; try done.
    destruct Hl as [(_ & k & t & l & Hr & ->) Hl]. cbn [fmap list_fmap pm_outcome prepared_member].
    constructor.
    + right. split; [done|]. exists index, o, k, t, l, (ct_action c). split; [by left|]. split; [done|].
      split; [done|]. rewrite published_for_cons, outcome_request, decide_True, outcome_tokens by done.
      rewrite published_for_other, app_nil_r; [done|]. rewrite (lanes_requests _ _ _ _ _ _ Hl).
      intros (m' & Hm & [_ Hin]%list_elem_of_filter)%list_elem_of_fmap. apply Hn. rewrite Hm.
      by apply list_elem_of_fmap_2.
    + specialize (IH _ _ _ _ Hl Hnd). apply Forall2_same_length_lookup_2.
      { by apply Forall2_length in IH. }
      intros i x y Hx Hy. apply text_step_skip.
      { rewrite outcome_request. intros E. apply Hn. rewrite E. apply list_elem_of_fmap_2.
        by eapply list_elem_of_lookup_2. }
      by eapply Forall2_lookup_lr.
  - constructor; [|by eapply IH]. left. split; [done|]. split; [done|]. apply published_for_other.
    rewrite (lanes_requests _ _ _ _ _ _ Hl).
    intros (m' & Hm & [_ Hin]%list_elem_of_filter)%list_elem_of_fmap. apply Hn. rewrite Hm.
    by apply list_elem_of_fmap_2.
Qed.

(** ** A member and its text *)

(** The text of a member is what the reference generates: all of it once the
    member has completed, a beginning of it that the remaining budget completes
    while it is active, a beginning if it was cancelled. *)
Definition written (target : list N -> N) (prompt : list N) (m : M1SpeculativeMemberStateV1)
    (text : list N) : Prop :=
  let p := mb_policy m in
  vlen text = mb_generated m /\
  match mb_status m with
  | Active =>
      last (prompt ++ text) = Some (mb_next_anchor m) /\
      whole_text target p prompt =
        text ++ generate target p (prompt ++ text) (N.to_nat (max_output_tokens p - mb_generated m))
  | Completed reason => text = whole_text target p prompt /\ stopped_for p text reason
  | Cancelled _ => text `prefix_of` whole_text target p prompt
  end.

Lemma last_vget {A} (l : list A) k x : vlen l = k + 1 -> vget l k = Some x -> last l = Some x.
Proof. unfold vlen, vget. intros Hl Hx. rewrite last_lookup, <- Hx. f_equal. lia. Qed.

Lemma last_suffix {A} (l k : list A) x : last k = Some x -> last (l ++ k) = Some x.
Proof. intros H. by rewrite last_app, H. Qed.

Lemma round_written sh target prompt m text index o k t l control n :
  member_ok m -> is_active m = true -> written target prompt m text ->
  lane_round sh m o k t l -> l = greedy_decode target (prompt ++ text) n ->
  written target prompt (settled m (prepared_member sh index m k t l control))
    (text ++ (control_cut m l control).1).
Proof.
  intros Hm Ha [Hv Hw] (_ & _ & Hl & Ht) Hgreedy. pose proof (mk_active _ Hm Ha) as Hg.
  unfold is_active in Ha. apply bool_decide_eq_true in Ha. rewrite Ha in Hw. destruct Hw as [_ Hw].
  rewrite settled_fields. unfold written. cbn [mb_policy mb_generated mb_status mb_next_anchor].
  rewrite vlen_app, Hv. split; [done|]. destruct control as [|reason]; cbn [control_cut fst snd].
  2:{ rewrite app_nil_r, Hw. by apply prefix_app_r. }
  pose proof (cut_generate target (mb_policy m) n (N.to_nat (max_output_tokens (mb_policy m) - mb_generated m))
    (prompt ++ text) (mb_generated m) ltac:(lia) ltac:(lia)) as Hcut.
  rewrite <- Hgreedy in Hcut.
  pose proof (cut_reason (mb_policy m) l (mb_generated m) text) as Hreason.
  destruct (cut (mb_policy m) (mb_generated m) l) as [ts [|reason|reason]]; cbn [fst snd] in *; [| |done].
  - destruct Hcut as (-> & fuel' & Hfuel & Hf' & Hgen). split.
    { rewrite app_assoc. apply last_suffix. by eapply last_vget. }
    rewrite Hw, Hgen, <- !app_assoc. do 3 f_equal. apply (f_equal length) in Hgreedy.
    rewrite greedy_decode_length in Hgreedy. unfold vlen. lia.
  - rewrite Hcut, <- Hw in *. split; [done|]. by apply Hreason.
Qed.

(** ** Reports of target passes *)
Section reports.
Context {P : Platform} {HP : PlatformLaws P} (target : list N -> N) (prompt : RequestId -> list N).

(** The step of a lane expects one pass of the target over some draft, after
    the request's prompt and text. *)
Definition target_step (text : Text) (e : CompletionWireExpectation) : Prop :=
  exists draft, let r := request (CompletionWire.plan e) in
    expected_semantics e = ExpectSpeculative draft (target_pass target (prompt r ++ text r) draft).

(** The completions the device side can report: readbacks of any bytes that the
    completion code accepts for steps that are passes of the target. *)
Definition target_reports (l : M1SpeculativeGenerationLoopV1) (text : Text)
    (checked : M1CheckedCompletionOutputV1) : Prop :=
  exists shape sel scheduled rs readback expectations rows,
    m1_completion_output_shape_v1 sel = Ok shape /\ roster scheduled rs /\
    bytes_ok (readback_bytes readback) /\ Forall (fun e => plan_ok (CompletionWire.plan e)) expectations /\
    Forall (target_step text) expectations /\
    complete_readback shape sel scheduled readback expectations rows tt = Done tt (Some checked).

(** A record that carries a run of greedy decoding. *)
Definition decoded (text : Text) (c : InertCheckedCompletionRecord) : Prop :=
  let r := Compact.request (record c) in exists n,
    CompactFacts.emitted (record c) = greedy_decode target (prompt r ++ text r) n.

Lemma target_step_decoded text e final_choice c :
  target_step text e -> admitted (CompletionWire.plan e) (expected_semantics e) final_choice c -> decoded text c.
Proof.
  intros [draft Hd] (tokens & Hpay & _ & Hr & _). cbv zeta in Hd. rewrite Hd in Hpay.
  apply payload_speculative_inv in Hpay as (Hle & Hl & -> & _).
  unfold decoded. cbv zeta. rewrite Hr. unfold plan_record. rewrite CompactFacts.canonical_emitted.
  cbn [CompactFacts.canonical Compact.request].
  eexists. apply greedy_commit_decodes. unfold usize_max, u64_max. lia.
Qed.

Lemma lanes_decoded text shape scheduled rs rows es : forall lane cs,
  Forall (target_step text) es -> lanes_admit shape scheduled rs rows lane es cs -> Forall (decoded text) cs.
Proof.
  induction es as [|e es IH]; intros lane [|c cs] Hes; cbn [lanes_admit]; try done.
  apply Forall_cons in Hes as [He Hes]. intros [Hc Hcs]. constructor; [|by eapply IH].
  by eapply target_step_decoded, la_admitted.
Qed.

Lemma target_reports_decoded l text checked :
  target_reports l text checked -> Forall (decoded text) (co_records checked).
Proof using HP.
  intros (shape & sel & scheduled & rs & readback & es & rows & Hsh & Hro & Hok & Hp & Hes & Hrun).
  eapply run_Done in Hrun; [|by apply (complete_readback_wp shape sel scheduled rs)].
  destruct (proj1 (Hrun _) eq_refl) as (_ & records & Hi & ->). eapply lanes_decoded, ai_lanes; done.
Qed.

(** ** Every step keeps the texts *)
Definition texts_ok (w : World) : Prop :=
  Forall (fun m => written target (prompt (mb_request m)) m (w_text w (mb_request m))) (lp_members (w_loop w)).

Definition decoded_report (text : Text) (o : CheckedMemberObservationV1) : Prop :=
  exists n, ob_emitted o = block (greedy_decode target (prompt (ob_request o) ++ text (ob_request o)) n).

Lemma text_step_written sh os outs text m m' :
  member_ok m -> Forall (decoded_report text) os ->
  written target (prompt (mb_request m)) m (text (mb_request m)) -> text_step sh os outs m m' ->
  written target (prompt (mb_request m')) m' (publish outs text (mb_request m')).
Proof.
  intros Hm Hos Hw Hstep. unfold publish.
  destruct Hstep as [(_ & -> & ->)|(Ha & i & o & k & t & l & c & Ho & Hr & -> & Hp)].
  { by rewrite app_nil_r. }
  rewrite Forall_forall in Hos. destruct (Hos _ Ho) as [n Hn]. destruct Hr as (-> & Hr).
  cbn [ob_emitted ob_request] in Hn. apply block_inj in Hn.
  replace (mb_request (settled m (prepared_member sh i m k t l c))) with (mb_request m) by by rewrite settled_fields.
  rewrite Hp. by eapply round_written.
Qed.

Lemma step_texts w w' :
  world_ok target_reports w -> texts_ok w -> step target_reports w w' -> texts_ok w'.
Proof using HP.
  intros [Hl _ Hps] Ht Hstep. unfold texts_ok in *.
  destruct Hstep as [| |l text bs ps1 p [l_ text_] ps2 l' out Hrun|l text bs ps1 p at_ ps2 l' e p' Hrun|l text bs ps tr l' r Hrun];
    cbn [w_loop w_text w_permits] in *; [done..| | |].
  - apply Forall_app in Hps as [_ [Hp _]%Forall_cons].
    destruct (commit_current _ _ _ _ _ _ _ Hp Hrun) as (checked & cs & pl & Hdev & Hlanes & _ & -> & -> & _).
    cbn [w_loop w_text lp_members lp_shape] in *.
    assert (Hos : Forall (decoded_report text) (observed_of <$> co_records checked)).
    { apply Forall_fmap. eapply Forall_impl; [by eapply target_reports_decoded|].
      intros c [n Hn]. exists n. cbn [compose observed_of ob_emitted ob_request]. by rewrite Hn. }
    pose proof (lanes_text _ _ _ _ _ _ Hlanes (lo_requests _ Hl)) as Hst.
    rewrite Forall_forall. intros m' [i Hi]%list_elem_of_lookup.
    destruct (Forall2_lookup_r _ _ _ _ _ Hst Hi) as (m & Hm & Hs).
    eapply text_step_written; [..|exact Hs]; [|exact Hos|].
    + by eapply (Forall_lookup_1 _ _ _ _ (lo_members _ Hl)).
    + by eapply (Forall_lookup_1 _ _ _ _ Ht).
  - by destruct (commit_refused _ _ _ _ _ Hrun) as [-> ->].
  - eapply run_Done in Hrun; [|apply catchup_wp]. destruct r as [u|e]; [|by destruct Hrun as [-> _]].
    destruct Hrun as (m & [_ _ (E & _) _ _ _ _ _] & ->). rewrite E in Ht.
    rewrite Forall_singleton in Ht. apply Forall_singleton. exact Ht.
Qed.

(** At the start nothing is published. *)
Lemma start_texts counter sh seeds :
  Forall (fun sd => policy_ok (seed_policy sd)) seeds ->
  Forall (fun sd => last (prompt (seed_request sd)) = Some (seed_round_anchor sd)) seeds ->
  texts_ok (start (mkLoop counter sh (seed_state <$> seeds) 0 None)).
Proof.
  intros Hp Hs. unfold texts_ok. cbn [start w_loop w_text lp_members]. apply Forall_fmap.
  eapply Forall_impl; [exact Hs|]. intros sd Hsd. cbn. split; [done|]. split; [by rewrite app_nil_r|].
  by rewrite app_nil_r, N.sub_0_r.
Qed.

Lemma run_texts w w' :
  world_ok target_reports w -> texts_ok w -> rtc (step target_reports) w w' ->
  world_ok target_reports w' /\ texts_ok w'.
Proof using HP.
  intros Hw Ht Hrun. induction Hrun as [|w w1 w2 Hstep _ IH]; [done|].
  apply IH; [by eapply step_ok|by eapply step_texts].
Qed.
End reports.
