(* ===== verification/SpecLoopTheorems.v ===== *)
(** The theorems of the speculative generation loop: no run panics and every run
    keeps the coordinator well-formed, a commit happens only in the state it was
    preflighted in, the text published is the target's own generation, rounds
    are bounded and always possible, a round and a draft catch-up are accepted
    exactly when enabled, and the bootstrap snapshot gives the seeds back. *)
From stdpp Require Import relations.
From S2P Require Import Prelude Spec Bytes PlanSelection M1Completion CompletionFacts SpecTheorems.
From S2P Require Import CompletionWire WireTheorems Platform Readback ReadbackTheorems.
From S2P Require Import SpecLoop SpecLoopFacts SpecLoopRounds SpecLoopWorld SpecLoopText.
From S2P Require Scheduler.
Import Spec.Speculation.
Local Open Scope prog_scope.

(** ** Policies *)

(** The array of the constructor holds the distinct stop tokens, in order. *)
Lemma stop_loop_wp {S} ts : forall pre (s : S),
  vlen pre + vlen ts <= 2 ->
  wp (stop_loop ts (vlen pre) (pre ++ vfill (2 - vlen pre) 0)) s (fun s' o => s' = s /\ forall arr,
    o = Ok arr <-> Forall (fun t => t < QWEN3_VOCABULARY_SIZE) ts /\ NoDup ts /\
      Forall (fun t => t ∉ pre) ts /\ arr = (pre ++ ts) ++ vfill (2 - vlen (pre ++ ts)) 0).
Proof.
  induction ts as [|t ts IH]; intros pre s Hl; cbn [stop_loop].
  { apply wp_ret. split; [done|]. intros arr. rewrite !app_nil_r.
    split; [intros [= <-]|by intros (_ & _ & _ & ->)].
    split; [constructor|]. split; [constructor|]. by split; [constructor|]. }
  rewrite vlen_cons in Hl. destruct (N.leb_spec QWEN3_VOCABULARY_SIZE t) as [Ht|Ht].
  { apply wp_ret. split; [done|]. intros arr. split; [done|]. intros ([? _]%Forall_cons & _). lia. }
  wp_step. apply wp_slice_range; [lia|rewrite vlen_app; lia|]. rewrite (subslice_first pre) by done.
  destruct (existsb (N.eqb t) pre) eqn:Hex.
  { apply existsb_exists in Hex as (x & Hx & ->%N.eqb_eq). apply list_elem_of_In in Hx.
    apply wp_ret. split; [done|]. intros arr. split; [done|]. by intros (_ & _ & [? _]%Forall_cons & _). }
  assert (Hfresh : t ∉ pre).
  { intros Hin. apply list_elem_of_In in Hin. assert (existsb (N.eqb t) pre = true); [|congruence].
    apply existsb_exists. exists t. split; [done|apply N.eqb_refl]. }
  wp_step. apply wp_slice_set; [rewrite vlen_app, vlen_vfill; lia|].
  replace (vset (pre ++ vfill (2 - vlen pre) 0) (vlen pre) t)
    with ((pre ++ [t]) ++ vfill (2 - vlen (pre ++ [t])) 0).
  2:{ rewrite vlen_snoc. unfold vset, vfill.
      replace (N.to_nat (2 - vlen pre)) with (Datatypes.S (N.to_nat (2 - (vlen pre + 1)))) by lia.
      replace (N.to_nat (vlen pre)) with (length pre + 0)%nat by (unfold vlen; lia).
      rewrite insert_app_r. by rewrite <- app_assoc. }
  rewrite <- vlen_snoc with (x := t). eapply wp_mono; [apply IH; rewrite vlen_snoc; lia|].
  intros s' o [-> Ho]. split; [done|]. intros arr. rewrite Ho, !Forall_cons, NoDup_cons.
  replace ((pre ++ [t]) ++ ts) with (pre ++ t :: ts) by by rewrite <- app_assoc. split.
  - intros (Hv & Hnd & Hf & ->). rewrite Forall_forall in Hf. split; [done|]. split; [split; [|done]|].
    { intros Hin. apply (Hf _ Hin). set_solver. }
    split; [|done]. split; [done|]. apply Forall_forall. intros x Hx Hin. apply (Hf _ Hx). set_solver.
  - intros ([_ Hv] & [Hn Hnd] & [_ Hf] & ->).
    split; [done|]. split; [done|]. split; [|done].
    rewrite Forall_forall in Hf |- *. intros x Hx [Hin|Hin]%elem_of_app; [by apply (Hf x)|].
    apply list_elem_of_singleton in Hin as ->. done.
Qed.

Lemma policy_new_wp {S} limit ts (s : S) :
  wp (policy_new limit ts) s (fun s' o => s' = s /\ forall p,
    o = Ok p <-> 0 < limit <= M1_MAX_CONTEXT_TOKENS /\ vlen ts <= 2 /\
      Forall (fun t => t < QWEN3_VOCABULARY_SIZE) ts /\ NoDup ts /\
      p = mkPolicy limit (ts ++ vfill (2 - vlen ts) 0) (vlen ts)).
Proof.
  unfold policy_new. change M1_SPECULATIVE_STOP_TOKEN_CAPACITY_V1 with 2.
  destruct ((limit =? 0) || (M1_MAX_CONTEXT_TOKENS <? limit)) eqn:Hlim.
  { apply wp_ret. split; [done|]. intros p. split; [done|]. intros (H & _).
    apply orb_true_iff in Hlim as [H0%N.eqb_eq|H0%N.ltb_lt]; lia. }
  apply orb_false_iff in Hlim as [H0%N.eqb_neq H1%N.ltb_ge].
  destruct (N.ltb_spec 2 (vlen ts)) as [H2|H2].
  { apply wp_ret. split; [done|]. intros p. split; [done|]. intros (_ & H & _). lia. }
  apply wp_try_bind. eapply wp_mono; [by apply (stop_loop_wp ts [])|]. intros s' o [-> Ho].
  destruct o as [arr|e]; cbv beta iota.
  - destruct (proj1 (Ho arr) eq_refl) as (Hv & Hnd & _ & ->). cbn [app].
    rewrite (proj2 (N.ltb_ge 255 (vlen ts))) by lia. apply wp_ret. split; [done|]. intros p.
    split; [intros [= <-]; split_and!; try done; lia|by intros (_ & _ & _ & _ & ->)].
  - split; [done|]. intros p. split; [done|]. intros (_ & _ & Hv & Hnd & _).
    discriminate (proj2 (Ho (ts ++ vfill (2 - vlen ts) 0))). split_and!; try done.
    apply Forall_forall. set_solver.
Qed.

Lemma policy_new_ok limit ts p :
  policy_new limit ts tt = Done tt (Ok p) -> policy_ok p /\ stops p = ts /\ max_output_tokens p = limit.
Proof.
  intros Hrun. eapply run_Done in Hrun; [|apply policy_new_wp]. destruct Hrun as [_ H].
  destruct (proj1 (H p) eq_refl) as (Hl & Ht & _ & _ & ->). split; [|split; [|done]].
  - split; cbn; [lia|rewrite vlen_app, vlen_vfill; change M1_SPECULATIVE_STOP_TOKEN_CAPACITY_V1 with 2; lia|
      change M1_SPECULATIVE_STOP_TOKEN_CAPACITY_V1 with 2; lia].
  - unfold stops. cbn. by apply subslice_first.
Qed.

(** ** The start of a run *)
Section start.
Context {P : Platform} {HP : PlatformLaws P}.

(** A run of the loop from its seeds. *)
Definition run_from (device : M1SpeculativeGenerationLoopV1 -> Text -> M1CheckedCompletionOutputV1 -> Prop)
    (sel : Graph.Qwen3PlanSelection) (seeds : list M1SpeculativeMemberSeedV1) (counter : N) (w : World) : Prop :=
  exists counter' l, loop_new sel seeds counter = Done counter' (Ok l) /\ rtc (step device) (start l) w.

(** Seeds whose policies come from the policy constructor. *)
Definition policies_built (seeds : list M1SpeculativeMemberSeedV1) : Prop :=
  Forall (fun sd => exists limit ts, policy_new limit ts tt = Done tt (Ok (seed_policy sd))) seeds.

Lemma policies_built_ok seeds : policies_built seeds -> Forall (fun sd => policy_ok (seed_policy sd)) seeds.
Proof. intros H. eapply Forall_impl; [exact H|]. intros sd (limit & ts & Hp). by apply policy_new_ok in Hp as [? _]. Qed.

Lemma loop_new_seeded sel seeds counter counter' l :
  loop_new sel seeds counter = Done counter' (Ok l) -> exists sh, from_selection sel = Ok sh /\
    seeds_ok sh seeds /\ l = mkLoop counter sh (seed_state <$> seeds) 0 None.
Proof.
  unfold loop_new. destruct (loop_storage_try_new _) as [storage|]; [|by intros [=]]. intros Hrun.
  eapply run_Done in Hrun; [|apply new_with_storage_wp].
  destruct (proj1 (Hrun l) eq_refl) as (sh & Hsel & _ & _ & Hs & _ & ->). by exists sh.
Qed.

Lemma start_ok device l : loop_ok l -> world_ok device (start l).
Proof. intros H. split; [done|constructor|constructor]. Qed.

Lemma run_ok device sel seeds counter w :
  policies_built seeds -> run_from device sel seeds counter w -> world_ok device w.
Proof using HP.
  intros Hp%policies_built_ok (counter' & l & Hnew & Hrun).
  destruct (loop_new_seeded _ _ _ _ _ Hnew) as (sh & Hsel & Hs & ->).
  assert (Hw : world_ok device (start (mkLoop counter sh (seed_state <$> seeds) 0 None))).
  { apply start_ok, seeded_loop_ok; try done. by destruct (from_selection_ok _ _ Hsel) as (_ & ? & _). }
  clear Hnew. induction Hrun as [|w w1 w2 Hstep _ IH]; [done|]. apply IH. by eapply step_ok.
Qed.
End start.


(** ** Safety of runs *)

(** An operation that does not panic. *)
Definition safe {S A} (m : M S A) (s : S) : Prop := wp m s (fun _ _ => True).

Lemma wp_safe {S A} (m : M S A) s Q : wp m s Q -> safe m s.
Proof. intros H. by eapply wp_mono. Qed.

Section safety.
Context {P : Platform} {HP : PlatformLaws P}
  (device : M1SpeculativeGenerationLoopV1 -> Text -> M1CheckedCompletionOutputV1 -> Prop).

Lemma commit_safe w p :
  world_ok device w -> p ∈ w_permits w -> safe (commit_preflighted_round p.1) (w_loop w).
Proof.
  intros [Hl _ Hps] Hp. rewrite Forall_forall in Hps. destruct (Hps _ Hp) as [_ Hlat [Hb Hbd] (checked & cs & ps & _ & Hlanes & E)].
  destruct p as [p [l0 t0]]. cbn [fst snd] in *.
  destruct (validate_binding (w_loop w) (pf_binding p)) as [[]|e] eqn:Hv; pose proof (validate_binding_spec (w_loop w) (pf_binding p)) as Hs.
  - rewrite Hv in Hs. pose proof (proj1 Hs eq_refl) as Hcur.
    pose proof (later_current _ _ _ Hlat Hbd Hcur) as E2. injection E2 as -> ->.
    rewrite E. eapply wp_safe, commit_wp; [done| |exact Hlanes]. by destruct (binding_room _ _ Hb Hcur) as (_ & _ & ?).
  - eapply wp_safe, commit_stale_wp. rewrite Hv in Hs. intros H. by apply Hs in H.
Qed.

(** C5: in every run of the generation loop from seeds it accepted, whatever
    bindings, permits, reports, cancellations and catch-ups interleave and
    whatever the device reports, the coordinator stays well-formed (shape,
    distinct requests, context cursors, budgets, round counter) and none of its
    operations panics. *)
Theorem generation_loop_safe sel seeds counter w :
  policies_built seeds -> run_from device sel seeds counter w ->
  loop_ok (w_loop w) /\
  (forall round epoch roster, safe (bind_round (w_loop w) round epoch roster) tt) /\
  (forall b checked controls, b ∈ w_bindings w ->
     safe (preflight_checked_round (w_loop w) b checked controls) tt) /\
  (forall p, p ∈ w_permits w -> safe (commit_preflighted_round p.1) (w_loop w)) /\
  (forall tr, safe (commit_draft_catchup_transition tr) (w_loop w)).
Proof.
  intros Hp Hrun. pose proof (run_ok _ _ _ _ _ Hp Hrun) as Hw. pose proof Hw as [Hl Hbs _].
  split; [done|]. split; [|split; [|split]].
  - intros round epoch roster. by eapply wp_safe, bind_round_wp.
  - intros b checked cs Hb. eapply wp_safe, preflight_checked_wp; [done|].
    rewrite Forall_forall in Hbs. intros E. by apply (binding_room _ _ (Hbs _ Hb) E).
  - intros p. by apply commit_safe.
  - intros tr. eapply wp_safe, catchup_wp.
Qed.

(** C4: a round is committed only in the state it was preflighted in: when the
    commit of a permit succeeds, the coordinator and the published text are
    those of its preflight, the round counter advances by one, and every permit
    handed out so far, this one included, is from then on refused unchanged. *)
Theorem commit_only_preflighted_state sel seeds counter w p l_ text_ l' out :
  policies_built seeds -> run_from device sel seeds counter w -> (p, (l_, text_)) ∈ w_permits w ->
  commit_preflighted_round p (w_loop w) = Done l' (Ok out) ->
  l_ = w_loop w /\ text_ = w_text w /\ lp_next_round l' = lp_next_round (w_loop w) + 1 /\
  forall q at_, (q, at_) ∈ w_permits w ->
    exists e, commit_preflighted_round q l' = Done l' (Err (e, q)).
Proof.
  intros Hp Hrun Hin Hc. pose proof (run_ok _ _ _ _ _ Hp Hrun) as [_ _ Hps]. rewrite Forall_forall in Hps.
  destruct (commit_current _ _ _ _ _ _ _ (Hps _ Hin) Hc) as (_ & _ & ps & _ & _ & _ & Hl' & _ & [= -> ->]).
  assert (Hr : lp_next_round l' = lp_next_round (w_loop w) + 1) by by rewrite Hl'.
  split; [done|]. split; [done|]. split; [done|]. intros q [lq tq] Hq.
  destruct (Hps _ Hq) as [_ Hlat [_ Hbd] _]. cbn [fst snd] in *.
  assert (Hle : lp_next_round lq <= lp_next_round (w_loop w)).
  { destruct Hlat as [[= -> _]|[H|[H _]]]; cbn [fst snd] in *; lia. }
  pose proof (commit_stale_wp l' q) as Hst. eapply wp_done in Hst.
  - destruct Hst as (s & r & Hrun' & -> & e & ->). eauto.
  - intros E. rewrite E in Hbd. injection Hbd as _ _ Hround _. cbn [binding_of rb_round] in Hround. lia.
Qed.
End safety.

(** ** The text of a run *)
Section text.
Context {P : Platform} {HP : PlatformLaws P}.

(** C3: speculative serving is lossless end to end: when the device completes
    rounds with readbacks that the completion code accepts for passes of the
    target over drafts of any content, then in every run, whatever the
    interleaving, the text published for a request is the one its target model
    generates one token at a time under its policy: all of it, ended by the
    stop token or by the limit as reported, once completed; so far, with the
    anchor of the next round as its last token, while active; a prefix of it if
    cancelled. *)
Theorem generation_matches_target target prompt sel seeds counter w :
  policies_built seeds ->
  Forall (fun sd => last (prompt (seed_request sd)) = Some (seed_round_anchor sd)) seeds ->
  run_from (target_reports target prompt) sel seeds counter w ->
  Forall (fun m => written target (prompt (mb_request m)) m (w_text w (mb_request m))) (lp_members (w_loop w)).
Proof.
  intros Hp%policies_built_ok Ha (counter' & l & Hnew & Hrun).
  destruct (loop_new_seeded _ _ _ _ _ Hnew) as (sh & Hsel & Hs & ->).
  destruct (from_selection_ok _ _ Hsel) as (_ & Hsh & _).
  eapply run_texts; [|by apply start_texts|exact Hrun]. by apply start_ok, seeded_loop_ok.
Qed.
End text.

(** ** Rounds, one by one *)

Section rounds.
Context {P : Platform} {HP : PlatformLaws P}.

(** A completion and controls a coordinator accepts for a binding, with what
    they prepare lane by lane. *)
Record acceptable (l : M1SpeculativeGenerationLoopV1) (b : M1SpeculativeRoundBindingV1)
    (checked : M1CheckedCompletionOutputV1) (controls : list M1SpeculativeMemberControlV1)
    (ps : list PreparedMemberV1) : Prop := {
  ac_observable : Forall observable (co_records checked);
  ac_binding : b = binding_of l (rb_epoch b);
  ac_selection : co_selection checked = ps_selection (lp_shape l);
  ac_epoch : co_epoch checked = rb_epoch b;
  ac_lanes : lanes_prepared (lp_shape l) (lp_members l) 0 (observed_of <$> co_records checked) controls ps
}.

(** The state after a round that settles [ps]. *)
Definition after_round (l : M1SpeculativeGenerationLoopV1) (epoch : Completion.CompletionEpoch)
    (ps : list PreparedMemberV1) : M1SpeculativeGenerationLoopV1 :=
  mkLoop (lp_identity l) (lp_shape l) (settle (lp_members l) ps) (lp_next_round l + 1) (Some epoch).

Definition round_result (l : M1SpeculativeGenerationLoopV1) (epoch : Completion.CompletionEpoch)
    (ps : list PreparedMemberV1) : M1SpeculativeRoundOutcomeV1 :=
  mkRoundOutcome (lp_identity l) (ps_selection (lp_shape l)) (lp_next_round l) epoch
    (pm_outcome <$> ps) (still_active (pm_outcome <$> ps)).

Lemma round_wp l b checked controls :
  loop_ok l -> (b = binding_of l (rb_epoch b) -> active_room l) ->
  wp (complete_checked_round b checked controls) l (fun l' r =>
    match r with
    | Ok out => exists ps, acceptable l b checked controls ps /\
        out = round_result l (rb_epoch b) ps /\ l' = after_round l (rb_epoch b) ps
    | Err _ => l' = l /\ forall ps, ~ acceptable l b checked controls ps
    end).
Proof.
  intros Hok Hroom. unfold complete_checked_round. wp_step. wp_step. change (id l) with l.
  eapply wp_mono; [by apply preflight_checked_wp|]. intros l' o [-> Ho]. destruct o as [p|e].
  - destruct (proj1 (Ho p) eq_refl) as (Hobs & Hb & Hsel & Hep & ps & Hlanes & ->).
    assert (Hround : lp_next_round l < u64_max).
    { pose proof (loop_round_bound _ Hok). unfold u64_max, M1_MAX_CONTEXT_TOKENS in *. lia. }
    wp_step. eapply wp_mono; [by eapply commit_wp|]. intros l' r [-> ->]. apply wp_ret. by exists ps.
  - split; [done|]. intros ps [Hobs Hb Hsel Hep Hlanes].
    discriminate (proj2 (Ho (permit_of b ps))). do 4 (split; [done|]). by exists ps.
Qed.

(** C7: a round completes exactly on the binding of the current state, with a
    completion of its selection and epoch, one control per active member in
    order and, lane by lane, a speculative record of its request with as many
    tokens as accepted drafts plus one; its result and the new state are then
    those of the lanes' settlement, and a refused round changes nothing. *)
Theorem complete_round_exact l b checked controls :
  loop_ok l -> (b = binding_of l (rb_epoch b) -> active_room l) ->
  wp (complete_checked_round b checked controls) l (fun l' r =>
    match r with
    | Ok out => exists ps, acceptable l b checked controls ps /\
        out = round_result l (rb_epoch b) ps /\ l' = after_round l (rb_epoch b) ps
    | Err _ => l' = l /\ forall ps, ~ acceptable l b checked controls ps
    end).
Proof. apply round_wp. Qed.
(** One served round: bound, reported, committed. *)
Definition one_round (l l' : M1SpeculativeGenerationLoopV1) : Prop :=
  exists round epoch roster b checked controls out,
    bind_round l round epoch roster tt = Done tt (Ok b) /\
    complete_checked_round b checked controls l = Done l' (Ok out).

Lemma one_round_spec l l' : loop_ok l -> one_round l l' ->
  loop_ok l' /\ lp_next_round l' = lp_next_round l + 1.
Proof.
  intros Hok (round & epoch & roster & b & checked & cs & out & Hb & Hc).
  eapply run_Done in Hb; [|by apply bind_round_wp]. destruct Hb as [_ Hb].
  destruct (proj1 (Hb b) eq_refl) as [(_ & _ & _ & Hne & _ & Hroom) ->].
  eapply run_Done in Hc; [|by apply round_wp].
  destruct Hc as (ps & [_ _ _ _ Hlanes] & _ & ->).
  split; [|done]. by eapply settle_loop_ok.
Qed.

(** A report that accepts no draft token and emits token 0 for every member. *)
Definition minimal_record (l : M1SpeculativeGenerationLoopV1) (epoch : Completion.CompletionEpoch)
    (m : M1SpeculativeMemberStateV1) : InertCheckedCompletionRecord :=
  mkChecked (CompactFacts.canonical (mb_request m) epoch (Identity.mkIdentity []) [0])
    (ps_selection (lp_shape l)) (CheckedSpeculative 0 0).

Definition minimal_report (l : M1SpeculativeGenerationLoopV1) (epoch : Completion.CompletionEpoch) :
    M1CheckedCompletionOutputV1 :=
  mkCheckedOutput (ps_selection (lp_shape l)) epoch 0 0 0 0 [] None None
    (minimal_record l epoch <$> active_members l) None None.

Lemma minimal_lanes l epoch ms : forall index, exists ps,
  lanes_prepared (lp_shape l) ms index
    (observed_of <$> (minimal_record l epoch <$> filter (fun m => is_active m = true) ms))
    ((fun m => mkControl (mb_request m) Continue) <$> filter (fun m => is_active m = true) ms) ps.
Proof.
  induction ms as [|m ms IH]; intros index; cbn [lanes_prepared]; [by exists []|].
  destruct (IH (index + 1)) as [ps Hps]. destruct (is_active m) eqn:Ha.
  - rewrite active_cons_true by done. exists (prepared_member (lp_shape l) index m 0 0 [0] Continue :: ps).
    split; [|done]. split; [done|]. exists 0, 0, [0]. split; [|done]. split; [done|]. split; [lia|done].
  - rewrite active_cons_false by done. by exists ps.
Qed.

Lemma one_round_enabled l epoch : loop_ok l -> active_members l <> [] -> active_room l ->
  next_epoch_ok (lp_last_epoch l) epoch -> exists l', one_round l l'.
Proof.
  intros Hok Hne Hroom Hep. pose proof (loop_round_bound _ Hok) as Hr.
  assert (Hb : bind_round l (lp_next_round l) epoch (mb_request <$> active_members l) tt =
    Done tt (Ok (binding_of l epoch))).
  { pose proof (bind_round_wp l (lp_next_round l) epoch (mb_request <$> active_members l) tt Hok) as H.
    apply wp_done in H as ([] & o & -> & _ & Ho). f_equal. apply Ho. split; [|done].
    do 2 (split; [unfold u64_max, M1_MAX_CONTEXT_TOKENS in *; lia|]). done. }
  destruct (minimal_lanes l epoch (lp_members l) 0) as [ps Hps].
  pose proof (round_wp l (binding_of l epoch) (minimal_report l epoch)
    ((fun m => mkControl (mb_request m) Continue) <$> active_members l) Hok (fun _ => Hroom)) as H.
  apply wp_done in H as (l' & [out|e] & Hrun & Ho).
  - exists l'. by eexists _, epoch, _, _, _, _, out.
  - destruct Ho as [_ Ho]. destruct (Ho ps). split; [|done..|exact Hps].
    apply Forall_fmap, Forall_forall. intros m _. split; [done|]. by vm_compute.
Qed.


(** A draft catch-up is taken exactly when it is enabled (same coordinator
    and plan, the only member active, successors of the completed round, epoch
    and dispatch, the draft one token behind the target), it then moves only the
    draft cursor and the epoch, and a refused one changes nothing and reports
    identity, plan and state drift in that order. *)
Theorem draft_catchup_exact l tr :
  wp (commit_draft_catchup_transition tr) l (fun l' r =>
    match r with
    | Ok _ => exists m, catchup_enabled l tr m /\ l' = caught_up l tr m
    | Err e => l' = l /\ (forall m, ~ catchup_enabled l tr m) /\
        e = (if negb (tr_coordinator_identity tr =? lp_identity l) then CoordinatorIdentityMismatch
             else if bool_decide (tr_parent tr = ps_selection (lp_shape l)) then DraftCatchupState
             else LoopSelectionDrift (ps_selection (lp_shape l)) (tr_parent tr))
    end).
Proof. apply catchup_wp. Qed.
End rounds.

(** ** Bounds *)

(** A role's settlement: the committed prefix grows by what is kept of the
    tentative tokens, the rest is rolled back, and all stays in the context. *)
Record settlement_bounded (s : M1SpeculativeKvRoleSettlementV1) : Prop := {
  sb_order : se_pre_committed s <= se_commit_end s <= se_tentative_end s;
  sb_context : se_tentative_end s <= M1_MAX_CONTEXT_TOKENS;
  sb_rollback : se_commit_end s + se_rollback_tokens s = se_tentative_end s
}.

Record outcome_bounded (o : M1SpeculativeMemberRoundOutcomeV1) : Prop := {
  ob_target : settlement_bounded (mo_target_settlement o);
  ob_draft : settlement_bounded (mo_draft_settlement o);
  ob_counts : tb_count (mo_published o) <= tb_count (mo_raw_emitted o) <= M1_MAX_COMPLETION_TOKENS;
  ob_accepted : tb_count (mo_raw_emitted o) = mo_accepted_draft_tokens o + 1
}.

Lemma outcome_bounds sh index m o k t l control :
  shape_ok sh -> room sh (mb_target_committed m) (mb_draft_committed m) -> lane_round sh m o k t l ->
  outcome_bounded (pm_outcome (prepared_member sh index m k t l control)).
Proof.
  intros [Hd _]%shape_ok_bounds [Ht Hdr] (_ & Hk & Hl & _). cbn [prepared_member pm_outcome].
  unfold member_outcome.
  assert (Hcut : vlen (control_cut m l control).1 <= vlen l).
  { destruct control; [apply cut_length|]. cbn. change (vlen (@nil N)) with 0. lia. }
  destruct (control_cut m l control) as [ts st]. cbn [fst] in Hcut. unfold M1_MAX_CONTEXT_TOKENS in *.
  split; cbn [mo_target_settlement mo_draft_settlement mo_published mo_raw_emitted mo_accepted_draft_tokens
    block tb_count]; [| |unfold M1_MAX_COMPLETION_TOKENS; lia|lia];
    split; cbn; unfold M1_MAX_CONTEXT_TOKENS; lia.
Qed.

Lemma lanes_bounds sh ms : forall index os cs ps, shape_ok sh ->
  Forall (fun m => room sh (mb_target_committed m) (mb_draft_committed m)) (filter (fun m => is_active m = true) ms) ->
  lanes_prepared sh ms index os cs ps -> Forall outcome_bounded (pm_outcome <$> ps).
Proof.
  induction ms as [|m ms IH]; intros index os cs ps Hsh; cbn [lanes_prepared]; [by intros _ (_ & _ & ->)|].
  destruct (is_active m) eqn:Ha; [|rewrite active_cons_false by done; by apply IH].
  rewrite active_cons_true by done. destruct os as [|o os], cs as [|c cs], ps as [|p ps]; try done.
  intros [Hm Hms]%Forall_cons [(_ & k & t & l & Hr & ->) Hl]. constructor; [by eapply outcome_bounds|by eapply IH].
Qed.

(** C9: every quantity of a run stays in its range: the round counter, both
    context cursors and the generated count of each member stay within the
    context and the output limit, and each outcome awaiting its commit settles
    both caches inside the context, commits a prefix of the tentative tokens,
    rolls back exactly the others and publishes at most what was emitted. *)
Theorem generation_bounds {P : Platform} {HP : PlatformLaws P} device sel seeds counter w :
  policies_built seeds -> run_from device sel seeds counter w ->
  lp_next_round (w_loop w) <= M1_MAX_CONTEXT_TOKENS /\
  Forall (fun m => mb_target_committed m <= M1_MAX_CONTEXT_TOKENS /\
    mb_draft_committed m <= M1_MAX_CONTEXT_TOKENS /\
    mb_generated m <= max_output_tokens (mb_policy m) <= M1_MAX_CONTEXT_TOKENS) (lp_members (w_loop w)) /\
  Forall (fun p => Forall outcome_bounded (pf_outcomes p.1)) (w_permits w).
Proof.
  intros Hp Hrun. pose proof (run_ok _ _ _ _ _ Hp Hrun) as [Hl _ Hps].
  split; [by apply loop_round_bound|]. split.
  - eapply Forall_impl; [apply Hl|]. intros m [_ Hpol Ht Hd Hg _]. pose proof (pk_limit _ Hpol). lia.
  - eapply Forall_impl; [exact Hps|]. intros [p [l text]] [Hl' _ [Hb Hbd] (checked & cs & ps & _ & Hlanes & E)].
    cbn [fst snd] in *. rewrite E. cbn [permit_of pf_outcomes].
    destruct (binding_room _ _ Hb Hbd) as (Hroom & _). eapply lanes_bounds; [by apply Hl'|exact Hroom|exact Hlanes].
Qed.

(** ** Snapshots *)
Lemma snapshot_loop_seeds seeds : forall lane v, exists c,
  snapshot_loop (seed_state <$> seeds) lane v = (mkVec (vec_elems v ++ seeds) c, Ok tt).
Proof.
  induction seeds as [|sd seeds IH]; intros lane v; cbn [fmap list_fmap snapshot_loop].
  { exists (vec_capacity v). rewrite app_nil_r. by destruct v. }
  change (is_active (seed_state sd)) with true. change (mb_generated (seed_state sd) =? 0) with true.
  cbn [negb orb]. edestruct IH as [c ->]. exists c. destruct sd. cbn. by rewrite <- app_assoc.
Qed.

Lemma all2_spec {A B} (f : A -> B -> bool) (g : B -> A) l k :
  (forall a b, f a b = true <-> a = g b) -> length l = length k -> all2 f l k = true <-> l = g <$> k.
Proof.
  intros Hf. revert k. induction l as [|a l IH]; intros [|b k] Hl; try done.
  cbn [all2 fmap list_fmap]. rewrite andb_true_iff, Hf, IH by (simpl in Hl; lia). split.
  - by intros [-> ->].
  - by intros [= -> ->].
Qed.

Lemma matches_seeds_spec l sel seeds :
  matches_bootstrap_seeds l sel seeds = true <->
  lp_next_round l = 0 /\ lp_last_epoch l = None /\ ps_selection (lp_shape l) = sel /\
  lp_members l = seed_state <$> seeds.
Proof.
  unfold matches_bootstrap_seeds. rewrite !andb_true_iff, !N.eqb_eq, !bool_decide_eq_true. split.
  - intros [[[[-> ->] ->] Hc] Ha]. do 3 (split; [done|]). revert Ha. apply all2_spec; [|unfold vlen in Hc; lia].
    intros m sd. rewrite !andb_true_iff, !N.eqb_eq, !bool_decide_eq_true. unfold is_active, seed_state.
    rewrite bool_decide_eq_true. destruct m, sd; cbn. split; [by intros [[[[[[-> ->] ->] ->] ->] ->] ->]|by intros [= -> -> -> -> -> -> ->]].
  - intros (-> & -> & -> & ->). split; [split; [done|]|].
    + unfold vlen. by rewrite length_fmap.
    + eapply all2_spec; [|by rewrite length_fmap|reflexivity].
      intros m sd. rewrite !andb_true_iff, !N.eqb_eq, !bool_decide_eq_true. unfold is_active, seed_state.
      rewrite bool_decide_eq_true. destruct m, sd; cbn. split; [by intros [[[[[[-> ->] ->] ->] ->] ->] ->]|by intros [= -> -> -> -> -> -> ->]].
Qed.

(** The bootstrap snapshot is the inverse of construction: a fresh loop gives
    back exactly the seeds it was built from whenever the allocator grants the
    vector, and a loop matches a selection and seeds precisely when it is the
    loop they build, before its first round. *)
Theorem bootstrap_roundtrip {P : Platform} {HP : PlatformLaws P} sel seeds counter counter' l :
  loop_new sel seeds counter = Done counter' (Ok l) ->
  (is_Some (vec_reserve (P := P) (T := M1SpeculativeMemberSeedV1) vec_new (vlen seeds)) ->
     bootstrap_seed_snapshot l = Ok seeds) /\
  (forall sel' seeds', matches_bootstrap_seeds l sel' seeds' = true <-> sel' = sel /\ seeds' = seeds).
Proof.
  intros Hnew. destruct (loop_new_seeded _ _ _ _ _ Hnew) as (sh & Hsel & _ & ->).
  destruct (from_selection_ok _ _ Hsel) as (Hps & _). split.
  - unfold bootstrap_seed_snapshot. cbn [lp_members].
    replace (vlen (seed_state <$> seeds)) with (vlen seeds) by (unfold vlen; by rewrite length_fmap).
    destruct (vec_reserve vec_new (vlen seeds)) as [v|] eqn:Hv; [|by intros []]. intros _.
    apply vec_reserve_Some in Hv as [He Hc]. unfold write_bootstrap_seed_snapshot.
    cbn [lp_next_round lp_last_epoch lp_members N.eqb negb]. rewrite bool_decide_false by (by intros []). cbn [orb].
    replace (vlen (seed_state <$> seeds)) with (vlen seeds) by (unfold vlen; by rewrite length_fmap).
    cbn [vec_clear vec_capacity]. rewrite (proj2 (N.ltb_ge _ _) Hc). by edestruct snapshot_loop_seeds as [c ->].
  - intros sel' seeds'. rewrite matches_seeds_spec. cbn [lp_next_round lp_last_epoch lp_shape lp_members]. rewrite Hps.
    split; [|by intros [-> ->]]. intros (_ & _ & -> & H). split; [done|].
    revert H. generalize seeds. clear. intros seeds.
    revert seeds'. induction seeds as [|[] seeds IH]; intros [|[] seeds']; try done.
    intros [= -> -> -> -> -> H]. f_equal. by apply IH.
Qed.

(** ** A run *)

(** Two requests of the sum-plus-one target: the first has its third draft token
    corrected, the second has its whole draft accepted and reaches its limit. *)
Definition demo_policy (limit : N) : M1SpeculativeGenerationPolicyV1 := mkPolicy limit [64; 0] 1.
Definition demo_seeds : list M1SpeculativeMemberSeedV1 :=
  [mkSeed (mkRequestId 3 9) 1 0 0 (demo_policy 6); mkSeed (mkRequestId 4 1) 0 10 10 (demo_policy 3)].
Definition demo_prompt (r : RequestId) : list N := if slot r =? 3 then [1] else [0].
Definition demo_loop : M1SpeculativeGenerationLoopV1 :=
  mkLoop 7 (mkPhysicalShape demo_selection 8 4) (seed_state <$> demo_seeds) 0 None.
Definition demo_binding : M1SpeculativeRoundBindingV1 := binding_of demo_loop demo_epoch.
Definition demo_controls : list M1SpeculativeMemberControlV1 :=
  [mkControl (mkRequestId 3 9) Continue; mkControl (mkRequestId 4 1) Continue].

Definition demo_steps : list CompletionWireExpectation :=
  [mkExpectation (demo_plan_of (mkRequestId 3 9))
     (ExpectSpeculative [2; 4; 9; 9] (target_pass SpeculationTheorems.toy_target [1] [2; 4; 9; 9]));
   mkExpectation (demo_plan_of (mkRequestId 4 1))
     (ExpectSpeculative [1; 2; 4; 8] (target_pass SpeculationTheorems.toy_target [0] [1; 2; 4; 8]))].
Definition demo_bytes : list N :=
  encode_record (plan_record (demo_plan_of (mkRequestId 3 9)) [2; 4; 8])
  ++ encode_record (plan_record (demo_plan_of (mkRequestId 4 1)) [1; 2; 4; 8; 16]) ++ vfill 720 0.
Definition demo_checked : M1CheckedCompletionOutputV1 (P := demo_platform) :=
  checked_output (P := demo_platform) demo_shape demo_scheduled demo_bytes
    [mkChecked (plan_record (demo_plan_of (mkRequestId 3 9)) [2; 4; 8]) demo_selection (CheckedSpeculative 2 8);
     mkChecked (plan_record (demo_plan_of (mkRequestId 4 1)) [1; 2; 4; 8; 16]) demo_selection
       (CheckedSpeculative 4 16)].
Definition demo_permit : M1SpeculativePreflightedRoundV1 :=
  match preflight_checked_round (P := demo_platform) demo_loop demo_binding demo_checked demo_controls tt with
  | Done _ (Ok p) => p
  | _ => mkPreflighted demo_binding [] [] []
  end.
Definition demo_committed : M1SpeculativeGenerationLoopV1 * list M1SpeculativeMemberRoundOutcomeV1 :=
  match commit_preflighted_round demo_permit demo_loop with
  | Done l (Ok out) => (l, ro_members out)
  | _ => (demo_loop, [])
  end.

Definition demo_preflighted : World :=
  mkWorld demo_loop (fun _ => []) [] [(demo_permit, (demo_loop, fun _ => []))].
Definition demo_final : World :=
  mkWorld demo_committed.1 (publish demo_committed.2 (fun _ => [])) [] [].

Lemma demo_policies : policies_built demo_seeds.
Proof. constructor; [|constructor; [|constructor]]; [exists 6, [64]|exists 3, [64]]; by vm_compute. Qed.

Lemma demo_report :
  target_reports (P := demo_platform) SpeculationTheorems.toy_target demo_prompt demo_loop (fun _ => [])
    demo_checked.
Proof.
  exists demo_shape, demo_selection, demo_scheduled, demo_requests, demo_bytes, demo_steps, None.
  split; [by vm_compute|]. split; [exact demo_roster|]. split; [by_decide|].
  split; [repeat constructor; by_decide|]. split; [|by vm_compute].
  constructor; [|constructor; [|constructor]]; [by exists [2; 4; 9; 9]|by exists [1; 2; 4; 8]].
Qed.

Lemma demo_run_preflighted :
  run_from (P := demo_platform) (target_reports SpeculationTheorems.toy_target demo_prompt)
    demo_selection demo_seeds 7 demo_preflighted.
Proof.
  exists 8, demo_loop. split; [by vm_compute|].
  eapply rtc_l; [apply (step_bind _ _ _ _ _ 0 demo_epoch demo_requests demo_binding); by vm_compute|].
  apply rtc_once. apply (step_preflight _ _ _ [] demo_binding [] [] demo_checked demo_controls (Ok demo_permit)).
  - exact demo_report.
  - by vm_compute.
Qed.

Lemma demo_run_final :
  run_from (P := demo_platform) (target_reports SpeculationTheorems.toy_target demo_prompt)
    demo_selection demo_seeds 7 demo_final.
Proof.
  destruct demo_run_preflighted as (c & l & Hnew & Hrun). exists c, l. split; [done|].
  eapply rtc_r; [exact Hrun|].
  apply (step_commit _ demo_loop (fun _ => []) [] [] demo_permit (demo_loop, fun _ => []) [] demo_committed.1
    (mkRoundOutcome 7 demo_selection 0 demo_epoch demo_committed.2 [mkRequestId 3 9])).
  by vm_compute.
Qed.

Lemma generation_loop_safe_witness :
  policies_built demo_seeds /\
  loop_ok (w_loop demo_preflighted) /\
  safe (commit_preflighted_round demo_permit) (w_loop demo_preflighted).
Proof.
  split; [exact demo_policies|].
  destruct (generation_loop_safe (HP := demo_platform_laws) _ _ _ _ _ demo_policies demo_run_preflighted)
    as (Hl & _ & _ & Hc & _).
  split; [exact Hl|]. apply (Hc (demo_permit, (demo_loop, fun _ => []))). by left.
Defined.

Lemma commit_only_preflighted_state_witness :
  policies_built demo_seeds /\
  lp_next_round demo_committed.1 = 1 /\
  exists e, commit_preflighted_round demo_permit demo_committed.1 = Done demo_committed.1 (Err (e, demo_permit)).
Proof.
  split; [exact demo_policies|].
  destruct (commit_only_preflighted_state (HP := demo_platform_laws) _ _ _ _ _ demo_permit demo_loop (fun _ => [])
    demo_committed.1 (mkRoundOutcome 7 demo_selection 0 demo_epoch demo_committed.2 [mkRequestId 3 9])
    demo_policies demo_run_preflighted) as (_ & _ & Hr & Hs).
  - by left.
  - by vm_compute.
  - split; [exact Hr|]. apply (Hs _ (demo_loop, fun _ => [])). by left.
Defined.

Lemma generation_matches_target_witness :
  policies_built demo_seeds /\
  Forall (fun sd => last (demo_prompt (seed_request sd)) = Some (seed_round_anchor sd)) demo_seeds /\
  Forall (fun m => written SpeculationTheorems.toy_target (demo_prompt (mb_request m)) m
    (w_text demo_final (mb_request m))) (lp_members (w_loop demo_final)) /\
  w_text demo_final (mkRequestId 3 9) = [2; 4; 8] /\
  w_text demo_final (mkRequestId 4 1) = [1; 2; 4] /\
  mb_status <$> lp_members (w_loop demo_final) = [Active; Completed OutputLimit].
Proof.
  split; [exact demo_policies|].
  assert (Ha : Forall (fun sd => last (demo_prompt (seed_request sd)) = Some (seed_round_anchor sd)) demo_seeds)
    by (repeat constructor).
  split; [exact Ha|]. split; [|by vm_compute].
  exact (generation_matches_target (HP := demo_platform_laws) _ _ _ _ _ _ demo_policies Ha demo_run_final).
Defined.

Lemma demo_loop_ok : loop_ok demo_loop.
Proof. exact (wo_loop _ _ (run_ok (HP := demo_platform_laws) _ _ _ _ _ demo_policies demo_run_preflighted)). Qed.

Lemma complete_round_exact_witness :
  loop_ok demo_loop /\ active_room demo_loop /\
  exists l' out ps, complete_checked_round (P := demo_platform) demo_binding demo_checked demo_controls demo_loop
      = Done l' (Ok out) /\
    out = round_result demo_loop demo_epoch ps /\ l' = after_round demo_loop demo_epoch ps.
Proof.
  assert (Hroom : active_room demo_loop) by (repeat constructor; by vm_compute).
  split; [exact demo_loop_ok|]. split; [exact Hroom|].
  pose proof (complete_round_exact (HP := demo_platform_laws) demo_loop demo_binding demo_checked demo_controls
    demo_loop_ok (fun _ => Hroom)) as H.
  apply wp_done in H as (l' & r & Hrun & H). destruct r as [out|e]; [|exfalso; vm_compute in Hrun; discriminate].
  destruct H as (ps & _ & Ho & Hl). exists l', out, ps. exact (conj Hrun (conj Ho Hl)).
Defined.

Lemma demo_round : one_round (P := demo_platform) demo_loop demo_committed.1.
Proof.
  exists 0, demo_epoch, demo_requests, demo_binding, demo_checked, demo_controls,
    (mkRoundOutcome 7 demo_selection 0 demo_epoch demo_committed.2 [mkRequestId 3 9]).
  by vm_compute.
Qed.


Lemma generation_bounds_witness :
  policies_built demo_seeds /\ Forall outcome_bounded (pf_outcomes demo_permit) /\
  vlen (pf_outcomes demo_permit) = 2.
Proof.
  split; [exact demo_policies|]. split; [|by vm_compute].
  destruct (generation_bounds (HP := demo_platform_laws) _ _ _ _ _ demo_policies demo_run_preflighted)
    as (_ & _ & Hb).
  exact (Forall_inv Hb).
Defined.

Lemma bootstrap_roundtrip_witness :
  loop_new (P := demo_platform) demo_selection demo_seeds 7 = Done 8 (Ok demo_loop) /\
  bootstrap_seed_snapshot (P := demo_platform) demo_loop = Ok demo_seeds.
Proof.
  assert (H : loop_new (P := demo_platform) demo_selection demo_seeds 7 = Done 8 (Ok demo_loop)) by by vm_compute.
  split; [exact H|].
  apply (bootstrap_roundtrip (HP := demo_platform_laws) _ _ _ _ _ H). by eexists.
Defined.
