(* ===== verification/Registry.v ===== *)
(** The serving registry of [ferric-engine/src/m1_serving_registry.rs]: the
    roster of requests, each with its paired plan and phase, the physical queue
    it is bound to, the one publication reservation, the one batch in flight and
    the draft catch-up obligation.  A [&self] method takes the registry as an
    argument, a [&mut self] method runs in its state; the const generic [C] is
    an argument. *)
From S2P Require Import Prelude Spec PlanSelection Platform.
From S2P Require Scheduler SpecLoop M1Completion.
Local Open Scope prog_scope.

Definition M1_SERVING_INLINE_ROSTER_CAPACITY_V1 : N := Scheduler.M1_MAX_ACTIVE_SEQUENCES.

(** ** Plans *)

(** [physical_fixed_batch.rs] *)
Inductive M1PhysicalFixedBatchShapeV1 :=
| TargetOnly | DraftCatchup | PairedPrefill | SpeculativeK4 | SpeculativeK8 | SpeculativeK16.

#[export] Instance M1PhysicalFixedBatchShapeV1_eq_dec : EqDecision M1PhysicalFixedBatchShapeV1.
Proof. solve_decision. Defined.

Inductive M1ServingRegistryErrorV1 :=
| ZeroCapacity
| CapacityExceedsM1
| OutOfSlots
| DuplicateRequest
| UnknownRequest
| InvalidRequest
| InvalidPlanPair
| AdmissionRequiresPrefill
| RequestNotReady
| RequestNotInFlight
| CancellationAlreadyRequested
| RequestAlreadyRetired
| TransitionRequiresQuiescence
| PrefillMustAdvance
| ReversePrefillTransition
| BatchAlreadyInFlight
| NoBatchInFlight
| CompletionEpochMismatch
| CompletionRosterMismatch (lane : N)
| CompletionDispositionCount
| QueuePlanMismatch
| QueueTransitionUnsupported
| ReadyWorkRequiresQueue
| PublicationReservationActive
| PublicationReservationRequired
| PublicationReservationMismatch
| PublicationReservationExhausted
| NewWindowPredecessorRequired
| NewWindowPredecessorNotCompleted (index : N)
| NewWindowPredecessorPlanMismatch (index : N)
| NewWindowPredecessorEpochMismatch (index : N)
| NewWindowRosterEmpty
| NewWindowRosterExceedsPlan
| NewWindowRosterCountMismatch
| NewWindowRequestSlotMismatch (index : N)
| NewWindowRequestGenerationMismatch (index : N)
| HostAllocation
| RegistryIdentityExhausted
| RegistryIdentityMismatch
| DraftCatchupWitnessRequired
| DraftCatchupPhaseMismatch.

Definition RegistryResult (A : Type) : Type := result A M1ServingRegistryErrorV1.

Record M1ServingPlanV1 := mkServingPlan {
  sp_target : Graph.Qwen3PlanSelection;
  sp_draft : Graph.Qwen3PlanSelection;
  sp_shape : M1PhysicalFixedBatchShapeV1;
  sp_sequence_capacity : N
}.

#[export] Instance M1ServingPlanV1_eq_dec : EqDecision M1ServingPlanV1.
Proof. solve_decision. Defined.

(** The shape, draft mode and draft bucket of an admitted target. *)
Definition draft_of_target (target : Graph.Qwen3PlanSelection) :
    option (M1PhysicalFixedBatchShapeV1 * Graph.Qwen3ExecutionMode * Graph.Qwen3PlanBucket) :=
  match Graph.mode target, Graph.bucket target with
  | Graph.Prefill, (Graph.PrefillS1T128 | Graph.PrefillS8T128 | Graph.PrefillS1T512
                   | Graph.PrefillS1T2048) =>
      Some (PairedPrefill, Graph.Prefill, Graph.bucket target)
  | Graph.Decode, (Graph.DecodeS1C8192 | Graph.DecodeS8C8192 | Graph.DecodeS32C8192) =>
      Some (TargetOnly, Graph.Decode, Graph.bucket target)
  | Graph.Speculative, Graph.SpeculativeS1K4C8192 =>
      Some (SpeculativeK4, Graph.Decode, Graph.DecodeS1C8192)
  | Graph.Speculative, Graph.SpeculativeS8K4C8192 =>
      Some (SpeculativeK4, Graph.Decode, Graph.DecodeS8C8192)
  | Graph.Speculative, Graph.SpeculativeS1K8C8192 =>
      Some (SpeculativeK8, Graph.Decode, Graph.DecodeS1C8192)
  | Graph.Speculative, Graph.SpeculativeS1K16C8192 =>
      Some (SpeculativeK16, Graph.Decode, Graph.DecodeS1C8192)
  | _, _ => None
  end.

Definition is_err {A E} (r : result A E) : bool := match r with Ok _ => false | Err _ => true end.

(** [M1ServingPlanV1::new] *)
Definition plan_new (target draft : Graph.Qwen3PlanSelection) : RegistryResult M1ServingPlanV1 :=
  if negb (bool_decide (Graph.role target = Graph.Target8B))
     || negb (bool_decide (Graph.role draft = Graph.Draft06B))
     || is_err (Graph.validate target) || is_err (Graph.validate draft)
  then Err InvalidPlanPair
  else
    match draft_of_target target with
    | None => Err InvalidPlanPair
    | Some (shape, draft_mode, draft_bucket) =>
        if negb (bool_decide (Graph.mode draft = draft_mode))
           || negb (bool_decide (Graph.bucket draft = draft_bucket))
        then Err InvalidPlanPair
        else
          match Graph.dimensions (Graph.bucket target) (Graph.role target) (Graph.mode target) with
          | None => Err InvalidPlanPair
          | Some dimensions =>
              let sequence_capacity := Graph.sequences dimensions in
              if (sequence_capacity =? 0) || (Scheduler.M1_MAX_ACTIVE_SEQUENCES <? sequence_capacity)
              then Err InvalidPlanPair
              else Ok (mkServingPlan target draft shape sequence_capacity)
          end
    end.

Definition draft_cache_selection (self : M1ServingPlanV1) : Graph.Qwen3PlanSelection :=
  match Graph.mode (sp_target self) with
  | Graph.Speculative =>
      Graph.mkSelection Graph.Draft06B (Graph.mode (sp_target self)) (Graph.bucket (sp_target self))
  | _ => sp_draft self
  end.

Definition plan_mode (self : M1ServingPlanV1) : Graph.Qwen3ExecutionMode := Graph.mode (sp_target self).

Definition plan_priority (plan : M1ServingPlanV1) : N :=
  match plan_mode plan with Graph.Prefill => 0 | Graph.Decode => 1 | Graph.Speculative => 2 end.

Definition validate_plan_transition (current next : M1ServingPlanV1) : RegistryResult unit :=
  match plan_mode current, plan_mode next with
  | Graph.Prefill, Graph.Prefill => Err PrefillMustAdvance
  | _, Graph.Prefill => Err ReversePrefillTransition
  | _, _ => Ok tt
  end.

(** ** Queue actions *)
Inductive M1ServingRolloverReasonV1 := ReasonMode | ReasonShape | ReasonBucket.

Inductive M1ServingQueueActionV1 :=
| FreshLaunch
| SameShapeRearm
| QuiescentDraftCatchup (parent : M1ServingPlanV1)
| QuiescentDraftCatchupRestore (parent : M1ServingPlanV1)
| QuiescentRollover (prior next : M1ServingPlanV1) (reason : M1ServingRolloverReasonV1)
| QuiescentNewWindow (prior next : M1ServingPlanV1).

#[export] Instance M1ServingRolloverReasonV1_eq_dec : EqDecision M1ServingRolloverReasonV1.
Proof. solve_decision. Defined.
#[export] Instance M1ServingQueueActionV1_eq_dec : EqDecision M1ServingQueueActionV1.
Proof. solve_decision. Defined.

Inductive M1ServingQuiescentQueueActionV1 :=
| NoQueue
| RetainForReadyWork (bound : M1ServingPlanV1)
| RetireQueue (bound : M1ServingPlanV1).

Record M1ServingProductionRolloverTransitionV1 := mkRollover {
  rt_prior : M1ServingPlanV1;
  rt_next : M1ServingPlanV1;
  rt_reason : M1ServingRolloverReasonV1
}.

Definition admit_m1_target_decode_rollover_transition_v1 (prior next : M1ServingPlanV1) :
    option M1ServingProductionRolloverTransitionV1 :=
  if bool_decide (plan_mode prior = Graph.Prefill)
     && bool_decide (sp_shape prior = PairedPrefill)
     && bool_decide (Graph.bucket (sp_target prior) = Graph.PrefillS1T128)
     && (sp_sequence_capacity prior =? 1)
     && bool_decide (plan_mode next = Graph.Decode)
     && bool_decide (sp_shape next = TargetOnly)
     && bool_decide (Graph.bucket (sp_target next) = Graph.DecodeS1C8192)
     && bool_decide (Graph.bucket (sp_draft next) = Graph.DecodeS1C8192)
     && (sp_sequence_capacity next =? 1)
  then Some (mkRollover prior next ReasonMode) else None.

Definition admit_m1_production_rollover_transition_v1 (prior next : M1ServingPlanV1) :
    option M1ServingProductionRolloverTransitionV1 :=
  match admit_m1_target_decode_rollover_transition_v1 prior next with
  | Some transition => Some transition
  | None =>
      if match Graph.bucket (sp_target prior), Graph.bucket (sp_target next) with
         | Graph.PrefillS1T128, (Graph.SpeculativeS1K4C8192 | Graph.SpeculativeS1K8C8192
                                | Graph.SpeculativeS1K16C8192) => true
         | Graph.PrefillS8T128, Graph.SpeculativeS8K4C8192 => true
         | _, _ => false
         end
         && bool_decide (plan_mode prior = Graph.Prefill)
         && bool_decide (sp_shape prior = PairedPrefill)
         && bool_decide (plan_mode next = Graph.Speculative)
      then Some (mkRollover prior next ReasonMode) else None
  end.

Definition classify_queue_action (prior : option M1ServingPlanV1) (next : M1ServingPlanV1) :
    RegistryResult M1ServingQueueActionV1 :=
  match prior with
  | None => Ok FreshLaunch
  | Some prior =>
      if decide (prior = next) then Ok SameShapeRearm
      else
        match admit_m1_production_rollover_transition_v1 prior next with
        | None => Err QueueTransitionUnsupported
        | Some t => Ok (QuiescentRollover (rt_prior t) (rt_next t) (rt_reason t))
        end
  end.

(** ** Members *)
Inductive M1ServingQuiescenceV1 := NeverSubmitted | CompletedAt (epoch : Completion.CompletionEpoch).

Inductive M1ServingRequestPhaseV1 :=
| PhaseReady
| PhaseInFlight (epoch : Completion.CompletionEpoch)
| PhaseCancellationPending (epoch : Completion.CompletionEpoch)
| PhaseRetired (quiescence : M1ServingQuiescenceV1).

#[export] Instance M1ServingQuiescenceV1_eq_dec : EqDecision M1ServingQuiescenceV1.
Proof. solve_decision. Defined.
#[export] Instance M1ServingRequestPhaseV1_eq_dec : EqDecision M1ServingRequestPhaseV1.
Proof. solve_decision. Defined.

Record M1ServingEntryV1 := mkEntry {
  en_request : RequestId;
  en_plan : M1ServingPlanV1;
  en_phase : M1ServingRequestPhaseV1;
  en_last_quiescence : option Completion.CompletionEpoch
}.

Definition set_phase (phase : M1ServingRequestPhaseV1) (e : M1ServingEntryV1) : M1ServingEntryV1 :=
  mkEntry (en_request e) (en_plan e) phase (en_last_quiescence e).

Inductive M1ServingCompletionDispositionV1 := Continue (next : M1ServingPlanV1) | Retire.

(** ** Batches, reservations *)
Record M1ServingBatchPlanV1 := mkBatch {
  bp_plan : M1ServingPlanV1;
  bp_requests : list RequestId;
  bp_epoch : Completion.CompletionEpoch;
  bp_action : M1ServingQueueActionV1
}.

Record M1ServingPublicationReservationV1 := mkReservation {
  pr_registry_identity : N;
  pr_id : N;
  pr_batch : M1ServingBatchPlanV1
}.

Record M1ServingNewWindowPublicationReservationV1 := mkNewWindow {
  nw_prior : M1ServingPlanV1;
  nw_predecessors : list M1ServingEntryV1;
  nw_requests : list RequestId;
  nw_publication : M1ServingPublicationReservationV1
}.

Record M1ServingCompletedWindowMemberV1 := mkWindowMember {
  wm_request : RequestId;
  wm_plan : M1ServingPlanV1;
  wm_completion_epoch : Completion.CompletionEpoch
}.

Record M1ServingInFlightBatchV1 := mkInFlight {
  if_plan : M1ServingPlanV1;
  if_requests : list RequestId;
  if_epoch : Completion.CompletionEpoch
}.

Record M1ServingDraftCatchupKeyV1 := mkKey {
  key_coordinator : N;
  key_parent : Graph.Qwen3PlanSelection;
  key_request : RequestId;
  key_completed_round : N;
  key_prior_epoch : Completion.CompletionEpoch;
  key_epoch : Completion.CompletionEpoch;
  key_draft_committed : N;
  key_target_committed : N;
  key_token : N;
  key_prior_dispatch_generation : N
}.

#[export] Instance M1ServingDraftCatchupKeyV1_eq_dec : EqDecision M1ServingDraftCatchupKeyV1.
Proof. solve_decision. Defined.

Record M1ServingReservedBatchV1 := mkReserved {
  rv_id : N;
  rv_plan : M1ServingPlanV1;
  rv_epoch : Completion.CompletionEpoch;
  rv_action : M1ServingQueueActionV1;
  rv_draft_catchup : option M1ServingDraftCatchupKeyV1
}.

Definition successor_is (max : N) (a : N) (b : N) : bool :=
  bool_decide (checked_add max a 1 = Some b).
Definition has_successor (max : N) (a : N) : bool := bool_decide (is_Some (checked_add max a 1)).

Definition valid_for (self : M1ServingDraftCatchupKeyV1) (plan : M1ServingPlanV1) : bool :=
  bool_decide (key_parent self = sp_target plan)
  && bool_decide (plan_mode plan = Graph.Speculative)
  && (sp_sequence_capacity plan =? 1)
  && negb (generation (key_request self) =? 0)
  && has_successor u64_max (key_completed_round self)
  && negb (Completion.value (key_prior_epoch self) =? 0)
  && successor_is u64_max (Completion.value (key_prior_epoch self)) (Completion.value (key_epoch self))
  && negb (key_prior_dispatch_generation self =? 0)
  && has_successor u64_max (key_prior_dispatch_generation self)
  && successor_is u32_max (key_draft_committed self) (key_target_committed self)
  && (key_target_committed self <=? SpecLoop.M1_MAX_CONTEXT_TOKENS)
  && (key_token self <? M1Completion.QWEN3_VOCABULARY_SIZE).

Inductive M1ServingDraftCatchupPhaseV1 :=
| CatchupPending (key : M1ServingDraftCatchupKeyV1)
| CatchupInFlight (key : M1ServingDraftCatchupKeyV1)
| CatchupCompleted (key : M1ServingDraftCatchupKeyV1) (dispatch_generation : N).

#[export] Instance M1ServingDraftCatchupPhaseV1_eq_dec : EqDecision M1ServingDraftCatchupPhaseV1.
Proof. solve_decision. Defined.

Definition catchup_key (self : M1ServingDraftCatchupPhaseV1) : M1ServingDraftCatchupKeyV1 :=
  match self with CatchupPending key | CatchupInFlight key | CatchupCompleted key _ => key end.

(** ** The registry *)
Record M1ServingRegistryV1 := mkRegistry {
  rg_identity : N;
  rg_entries : list M1ServingEntryV1;
  rg_bound_plan : option M1ServingPlanV1;
  rg_reservation : option M1ServingReservedBatchV1;
  rg_in_flight : option M1ServingInFlightBatchV1;
  rg_draft_catchup : option M1ServingDraftCatchupPhaseV1;
  rg_next_reservation_id : N;
  rg_submitted_epoch : N;
  rg_completed_epoch : N
}.

Definition put_entries v (s : M1ServingRegistryV1) := mkRegistry (rg_identity s) v (rg_bound_plan s)
  (rg_reservation s) (rg_in_flight s) (rg_draft_catchup s) (rg_next_reservation_id s)
  (rg_submitted_epoch s) (rg_completed_epoch s).
Definition put_bound_plan v (s : M1ServingRegistryV1) := mkRegistry (rg_identity s) (rg_entries s) v
  (rg_reservation s) (rg_in_flight s) (rg_draft_catchup s) (rg_next_reservation_id s)
  (rg_submitted_epoch s) (rg_completed_epoch s).
Definition put_reservation v (s : M1ServingRegistryV1) := mkRegistry (rg_identity s) (rg_entries s)
  (rg_bound_plan s) v (rg_in_flight s) (rg_draft_catchup s) (rg_next_reservation_id s)
  (rg_submitted_epoch s) (rg_completed_epoch s).
Definition put_in_flight v (s : M1ServingRegistryV1) := mkRegistry (rg_identity s) (rg_entries s)
  (rg_bound_plan s) (rg_reservation s) v (rg_draft_catchup s) (rg_next_reservation_id s)
  (rg_submitted_epoch s) (rg_completed_epoch s).
Definition put_draft_catchup v (s : M1ServingRegistryV1) := mkRegistry (rg_identity s) (rg_entries s)
  (rg_bound_plan s) (rg_reservation s) (rg_in_flight s) v (rg_next_reservation_id s)
  (rg_submitted_epoch s) (rg_completed_epoch s).
Definition put_next_reservation_id v (s : M1ServingRegistryV1) := mkRegistry (rg_identity s)
  (rg_entries s) (rg_bound_plan s) (rg_reservation s) (rg_in_flight s) (rg_draft_catchup s) v
  (rg_submitted_epoch s) (rg_completed_epoch s).
Definition put_submitted_epoch v (s : M1ServingRegistryV1) := mkRegistry (rg_identity s)
  (rg_entries s) (rg_bound_plan s) (rg_reservation s) (rg_in_flight s) (rg_draft_catchup s)
  (rg_next_reservation_id s) v (rg_completed_epoch s).
Definition put_completed_epoch v (s : M1ServingRegistryV1) := mkRegistry (rg_identity s)
  (rg_entries s) (rg_bound_plan s) (rg_reservation s) (rg_in_flight s) (rg_draft_catchup s)
  (rg_next_reservation_id s) (rg_submitted_epoch s) v.

(** The identity counter of the process is the state of [fresh] and [new]. *)
Definition fresh : M N (RegistryResult N) :=
  let! current := gets id in
  match checked_add u64_max current 1 with
  | None => ret (Err RegistryIdentityExhausted)
  | Some next => modify (fun _ => next) ;; ret (Ok current)
  end.

Definition new (C : N) : M N (RegistryResult M1ServingRegistryV1) :=
  if C =? 0 then ret (Err ZeroCapacity)
  else if Scheduler.M1_MAX_ACTIVE_SEQUENCES <? C then ret (Err CapacityExceedsM1)
  else
    let? identity := fresh in
    ret (Ok (mkRegistry identity [] None None None None 1 0 0)).

(** ** Reading *)

(** [self.entries.iter().find(|entry| entry.request == request)], with its index. *)
Definition find_entry (self : M1ServingRegistryV1) (request : RequestId) : option (nat * M1ServingEntryV1) :=
  list_find (fun e => en_request e = request) (rg_entries self).

Definition entry (self : M1ServingRegistryV1) (request : RequestId) : option M1ServingEntryV1 :=
  snd <$> find_entry self request.

Definition phase (self : M1ServingRegistryV1) (request : RequestId) : option M1ServingRequestPhaseV1 :=
  en_phase <$> entry self request.
Definition plan (self : M1ServingRegistryV1) (request : RequestId) : option M1ServingPlanV1 :=
  en_plan <$> entry self request.

Definition bound_shape (self : M1ServingRegistryV1) : option M1PhysicalFixedBatchShapeV1 :=
  match rg_draft_catchup self with
  | Some (CatchupInFlight _) | Some (CatchupCompleted _ _) => Some DraftCatchup
  | _ => sp_shape <$> rg_bound_plan self
  end.

Definition reject_live_reservation (self : M1ServingRegistryV1) : RegistryResult unit :=
  match rg_reservation self with Some _ => Err PublicationReservationActive | None => Ok tt end.

Definition is_ready (e : M1ServingEntryV1) : bool := bool_decide (en_phase e = PhaseReady).

(** [min_by_key]: the first of the least elements. *)
Fixpoint min_by_key {A} (key : A -> N) (l : list A) : option A :=
  match l with
  | [] => None
  | x :: l' =>
      match min_by_key key l' with
      | None => Some x
      | Some y => if key x <=? key y then Some x else Some y
      end
  end.

(** The entry [find] gives, if it is ready and satisfies [p]. *)
Definition ready_entry (self : M1ServingRegistryV1) (request : RequestId)
    (p : M1ServingEntryV1 -> bool) : option M1ServingEntryV1 :=
  match entry self request with
  | Some e => if is_ready e && p e then Some e else None
  | None => None
  end.

Definition is_some {A} (o : option A) : bool := match o with Some _ => true | None => false end.

Definition next_ready_plan (self : M1ServingRegistryV1) : option M1ServingPlanV1 :=
  let best := en_plan <$> min_by_key (fun e => plan_priority (en_plan e)) (List.filter is_ready (rg_entries self)) in
  match rg_draft_catchup self with
  | Some phase =>
      let key := catchup_key phase in
      match ready_entry self (key_request key) (fun e => bool_decide (sp_target (en_plan e) = key_parent key)) with
      | Some e => Some (en_plan e)
      | None => best
      end
  | None => best
  end.

(** The catch-up member is ready under [plan]. *)
Definition catchup_ready (self : M1ServingRegistryV1) (key : M1ServingDraftCatchupKeyV1)
    (plan : M1ServingPlanV1) : bool :=
  is_some (ready_entry self (key_request key) (fun e => bool_decide (en_plan e = plan))).

Definition ready_work_needs_bound_queue (self : M1ServingRegistryV1) (bound : M1ServingPlanV1) : bool :=
  match rg_draft_catchup self with
  | Some phase =>
      let key := catchup_key phase in
      bool_decide (key_parent key = sp_target bound) && catchup_ready self key bound
  | None =>
      match next_ready_plan self with
      | None => false
      | Some next => bool_decide (next = bound) || is_some (admit_m1_production_rollover_transition_v1 bound next)
      end
  end.

Definition classify_next_queue_action (self : M1ServingRegistryV1) (selected_plan : M1ServingPlanV1) :
    RegistryResult M1ServingQueueActionV1 :=
  let enabled key :=
    bool_decide (rg_bound_plan self = Some selected_plan)
    && bool_decide (key_parent key = sp_target selected_plan)
    && catchup_ready self key selected_plan in
  match rg_draft_catchup self with
  | None => classify_queue_action (rg_bound_plan self) selected_plan
  | Some (CatchupPending key) =>
      if enabled key then Ok (QuiescentDraftCatchup selected_plan) else Err DraftCatchupPhaseMismatch
  | Some (CatchupCompleted key _) =>
      if enabled key then Ok (QuiescentDraftCatchupRestore selected_plan)
      else Err DraftCatchupPhaseMismatch
  | Some (CatchupInFlight _) => Err DraftCatchupPhaseMismatch
  end.

Definition quiescent_queue_action (self : M1ServingRegistryV1) :
    RegistryResult M1ServingQuiescentQueueActionV1 :=
  match reject_live_reservation self with
  | Err error => Err error
  | Ok _ =>
      if is_some (rg_in_flight self) then Err BatchAlreadyInFlight
      else
        match rg_bound_plan self with
        | None => Ok NoQueue
        | Some bound =>
            if ready_work_needs_bound_queue self bound then Ok (RetainForReadyWork bound)
            else Ok (RetireQueue bound)
        end
  end.

(** ** Planning *)

(** [.filter(|entry| entry.phase == Ready && entry.plan == plan).take(limit)] *)
Definition ready_of_plan (self : M1ServingRegistryV1) (plan : M1ServingPlanV1) (limit : N) :
    list M1ServingEntryV1 :=
  take (N.to_nat limit) (List.filter (fun e => is_ready e && bool_decide (en_plan e = plan)) (rg_entries self)).

Section registry.
Context {P : Platform} (C : N).

Fixpoint push_ready (members : list M1ServingEntryV1) (requests : list RequestId) :
    RegistryResult (list RequestId) :=
  match members with
  | [] => Ok requests
  | e :: members' =>
      match try_push M1_SERVING_INLINE_ROSTER_CAPACITY_V1 requests (en_request e) with
      | None => Err CapacityExceedsM1
      | Some requests => push_ready members' requests
      end
  end.

Definition plan_roster (self : M1ServingRegistryV1) (selected_plan : M1ServingPlanV1) :
    RegistryResult (list RequestId) :=
  match rg_draft_catchup self with
  | Some phase =>
      let key := catchup_key phase in
      if negb (catchup_ready self key selected_plan) then Err DraftCatchupPhaseMismatch
      else
        match try_push M1_SERVING_INLINE_ROSTER_CAPACITY_V1 [] (key_request key) with
        | None => Err CapacityExceedsM1
        | Some requests => Ok requests
        end
  | None =>
      push_ready (ready_of_plan self selected_plan (N.min C (sp_sequence_capacity selected_plan))) []
  end.

Definition plan_next (self : M1ServingRegistryV1) : RegistryResult (option M1ServingBatchPlanV1) :=
  match reject_live_reservation self with
  | Err error => Err error
  | Ok _ =>
      if is_some (rg_in_flight self) then Err BatchAlreadyInFlight
      else
        match next_ready_plan self with
        | None => Ok None
        | Some selected_plan =>
            match plan_roster self selected_plan with
            | Err error => Err error
            | Ok requests =>
                match checked_add u64_max (rg_submitted_epoch self) 1 with
                | None => Err CompletionEpochMismatch
                | Some next_epoch =>
                    match classify_next_queue_action self selected_plan with
                    | Err error => Err error
                    | Ok action =>
                        Ok (Some (mkBatch selected_plan requests (Completion.mkEpoch next_epoch) action))
                    end
                end
            end
        end
  end.

(** [for entry in .. { if batch.requests.get(expected_count) != Some(&entry.request) { .. } }] *)
Fixpoint check_ready (members : list M1ServingEntryV1) (requests : list RequestId) (expected_count : N) :
    RegistryResult N :=
  match members with
  | [] => Ok expected_count
  | e :: members' =>
      if negb (bool_decide (vget requests expected_count = Some (en_request e))) then
        Err PublicationReservationMismatch
      else check_ready members' requests (expected_count + 1)
  end.

Definition validate_ready_roster (self : M1ServingRegistryV1) (batch : M1ServingBatchPlanV1) :
    RegistryResult unit :=
  match rg_draft_catchup self with
  | Some phase =>
      let key := catchup_key phase in
      if negb (bool_decide (bp_requests batch = [key_request key]))
         || negb (catchup_ready self key (bp_plan batch))
      then Err PublicationReservationMismatch else Ok tt
  | None =>
      let limit := N.min C (sp_sequence_capacity (bp_plan batch)) in
      match check_ready (ready_of_plan self (bp_plan batch) limit) (bp_requests batch) 0 with
      | Err error => Err error
      | Ok expected_count =>
          if expected_count =? 0 then Err RequestNotReady
          else if negb (vlen (bp_requests batch) =? expected_count) then Err PublicationReservationMismatch
          else Ok tt
      end
  end.

Definition validate_next_batch (self : M1ServingRegistryV1) (batch : M1ServingBatchPlanV1) :
    RegistryResult unit :=
  match next_ready_plan self with
  | None => Err RequestNotReady
  | Some selected_plan =>
      match checked_add u64_max (rg_submitted_epoch self) 1 with
      | None => Err CompletionEpochMismatch
      | Some next_epoch =>
          match classify_next_queue_action self selected_plan with
          | Err error => Err error
          | Ok action =>
              if negb (bool_decide (bp_plan batch = selected_plan))
                 || negb (bool_decide (bp_epoch batch = Completion.mkEpoch next_epoch))
                 || negb (bool_decide (bp_action batch = action))
              then Err PublicationReservationMismatch
              else validate_ready_roster self batch
          end
      end
  end.

Definition validate_draft_catchup_ready_key (self : M1ServingRegistryV1) (parent : M1ServingPlanV1)
    (key : M1ServingDraftCatchupKeyV1) : RegistryResult unit :=
  if negb (valid_for key parent)
     || negb (bool_decide (rg_bound_plan self = Some parent))
     || negb (rg_submitted_epoch self =? Completion.value (key_prior_epoch key))
     || negb (rg_completed_epoch self =? Completion.value (key_prior_epoch key))
     || negb (is_some (ready_entry self (key_request key) (fun e =>
          bool_decide (en_plan e = parent)
          && bool_decide (en_last_quiescence e = Some (key_prior_epoch key)))))
  then Err DraftCatchupPhaseMismatch else Ok tt.

Definition validate_draft_catchup_start (self : M1ServingRegistryV1) (batch : M1ServingBatchPlanV1)
    (key : M1ServingDraftCatchupKeyV1) : RegistryResult unit :=
  if negb (bool_decide (rg_draft_catchup self = Some (CatchupPending key)))
     || negb (bool_decide (bp_action batch = QuiescentDraftCatchup (bp_plan batch)))
     || negb (bool_decide (bp_requests batch = [key_request key]))
     || negb (bool_decide (bp_epoch batch = key_epoch key))
  then Err DraftCatchupPhaseMismatch
  else validate_draft_catchup_ready_key self (bp_plan batch) key.

Definition saturating_succ (max a : N) : N := N.min (a + 1) max.

(** The last match of [validate_reservation]. *)
Definition validate_reserved_action (self : M1ServingRegistryV1) (live : M1ServingReservedBatchV1)
    (batch : M1ServingBatchPlanV1) : RegistryResult unit :=
  match bp_action batch with
  | QuiescentDraftCatchup parent =>
      match rv_draft_catchup live with
      | None => Err DraftCatchupWitnessRequired
      | Some key =>
          if negb (bool_decide (parent = bp_plan batch)) then Err DraftCatchupPhaseMismatch
          else validate_draft_catchup_start self batch key
      end
  | QuiescentDraftCatchupRestore parent =>
      match rg_draft_catchup self with
      | Some (CatchupCompleted key _) =>
          if is_some (rv_draft_catchup live)
             || negb (bool_decide (parent = bp_plan batch))
             || negb (bool_decide (bp_requests batch = [key_request key]))
          then Err DraftCatchupPhaseMismatch
          else validate_next_batch self batch
      | _ => Err DraftCatchupPhaseMismatch
      end
  | _ =>
      if is_some (rv_draft_catchup live) || is_some (rg_draft_catchup self)
      then Err DraftCatchupPhaseMismatch else Ok tt
  end.

Definition validate_reservation (self : M1ServingRegistryV1)
    (reservation : M1ServingPublicationReservationV1) : RegistryResult unit :=
  let batch := pr_batch reservation in
  if negb (pr_registry_identity reservation =? rg_identity self) then Err RegistryIdentityMismatch
  else if is_some (rg_in_flight self) then Err BatchAlreadyInFlight
  else
    match rg_reservation self with
    | None => Err PublicationReservationRequired
    | Some live =>
        if negb (rv_id live =? pr_id reservation)
           || negb (bool_decide (rv_plan live = bp_plan batch))
           || negb (bool_decide (rv_epoch live = bp_epoch batch))
           || negb (bool_decide (rv_action live = bp_action batch))
        then Err PublicationReservationMismatch
        else if negb (Completion.value (bp_epoch batch) =? saturating_succ u64_max (rg_submitted_epoch self))
        then Err CompletionEpochMismatch
        else
          match validate_reserved_action self live batch with
          | Err error => Err error
          | Ok _ => validate_ready_roster self batch
          end
    end.

(** ** Admission and cancellation *)
Definition R (A : Type) : Type := M M1ServingRegistryV1 (RegistryResult A).

Definition admit_request (request : RequestId) (prefill : M1ServingPlanV1) : R unit :=
  let? _ := gets reject_live_reservation in
  let! self := gets id in
  if generation request =? 0 then ret (Err InvalidRequest)
  else if negb (bool_decide (plan_mode prefill = Graph.Prefill)) then ret (Err AdmissionRequiresPrefill)
  else if is_some (find_entry self request) then ret (Err DuplicateRequest)
  else if vlen (rg_entries self) =? C then ret (Err OutOfSlots)
  else
    modify (put_entries (rg_entries self ++ [mkEntry request prefill PhaseReady None])) ;;
    ret (Ok tt).

(** Writing through the reference [entry_mut] returned. *)
Definition put_entry (index : nat) (e : M1ServingEntryV1) : M M1ServingRegistryV1 unit :=
  modify (fun s => put_entries (<[index := e]> (rg_entries s)) s).

Definition record_quiescent_queue_retirement (bound : M1ServingPlanV1) : R unit :=
  let? _ := gets reject_live_reservation in
  let! self := gets id in
  if is_some (rg_in_flight self) then ret (Err BatchAlreadyInFlight)
  else if negb (bool_decide (rg_bound_plan self = Some bound)) then ret (Err QueuePlanMismatch)
  else if ready_work_needs_bound_queue self bound then ret (Err ReadyWorkRequiresQueue)
  else
    modify (put_bound_plan None) ;;
    modify (put_draft_catchup None) ;;
    ret (Ok tt).

Definition transition (request : RequestId) (next : M1ServingPlanV1) : R unit :=
  let? _ := gets reject_live_reservation in
  let! self := gets id in
  if is_some (rg_draft_catchup self) then ret (Err DraftCatchupPhaseMismatch)
  else
    match find_entry self request with
    | None => ret (Err UnknownRequest)
    | Some (index, e) =>
        if negb (is_ready e) || negb (is_some (en_last_quiescence e)) then
          ret (Err TransitionRequiresQuiescence)
        else
          match validate_plan_transition (en_plan e) next with
          | Err error => ret (Err error)
          | Ok _ =>
              put_entry index (mkEntry (en_request e) next (en_phase e) (en_last_quiescence e)) ;;
              ret (Ok tt)
          end
    end.

Definition quiescence_of (last : option Completion.CompletionEpoch) : M1ServingQuiescenceV1 :=
  match last with Some epoch => CompletedAt epoch | None => NeverSubmitted end.

Definition cancel (request : RequestId) : R M1ServingRequestPhaseV1 :=
  let? _ := gets reject_live_reservation in
  let! self := gets id in
  match find_entry self request with
  | None => ret (Err UnknownRequest)
  | Some (index, e) =>
      match en_phase e with
      | PhaseReady =>
          let phase := PhaseRetired (quiescence_of (en_last_quiescence e)) in
          put_entry index (set_phase phase e) ;; ret (Ok phase)
      | PhaseInFlight epoch =>
          put_entry index (set_phase (PhaseCancellationPending epoch) e) ;;
          ret (Ok (PhaseCancellationPending epoch))
      | PhaseCancellationPending _ => ret (Err CancellationAlreadyRequested)
      | PhaseRetired _ => ret (Err RequestAlreadyRetired)
      end
  end.

Definition remove_retired (request : RequestId) : R M1ServingQuiescenceV1 :=
  let? _ := gets reject_live_reservation in
  let! self := gets id in
  match find_entry self request with
  | None => ret (Err UnknownRequest)
  | Some (index, e) =>
      match en_phase e with
      | PhaseRetired quiescence =>
          modify (put_entries (delete index (rg_entries self))) ;; ret (Ok quiescence)
      | _ => ret (Err RequestNotReady)
      end
  end.

(** ** Reservations *)
Definition reserve_validated_batch (batch : M1ServingBatchPlanV1)
    (draft_catchup : option M1ServingDraftCatchupKeyV1) : R M1ServingPublicationReservationV1 :=
  let! self := gets id in
  match checked_add u64_max (rg_next_reservation_id self) 1 with
  | None => ret (Err PublicationReservationExhausted)
  | Some following_id =>
      let id := rg_next_reservation_id self in
      modify (put_reservation (Some
        (mkReserved id (bp_plan batch) (bp_epoch batch) (bp_action batch) draft_catchup))) ;;
      modify (put_next_reservation_id following_id) ;;
      ret (Ok (mkReservation (rg_identity self) id batch))
  end.

Definition lift {A} (r : RegistryResult A) : R A := ret r.

Definition reserve_publication (batch : M1ServingBatchPlanV1) : R M1ServingPublicationReservationV1 :=
  let? _ := gets reject_live_reservation in
  let! self := gets id in
  if is_some (rg_in_flight self) then ret (Err BatchAlreadyInFlight)
  else
    match bp_action batch with
    | QuiescentDraftCatchup _ | QuiescentDraftCatchupRestore _ => ret (Err DraftCatchupWitnessRequired)
    | _ =>
        let? _ := lift (validate_next_batch self batch) in
        reserve_validated_batch batch None
    end.

Definition register_draft_catchup_key (key : M1ServingDraftCatchupKeyV1) : R unit :=
  let? _ := gets reject_live_reservation in
  let! self := gets id in
  if is_some (rg_in_flight self) then ret (Err BatchAlreadyInFlight)
  else if is_some (rg_draft_catchup self) then ret (Err DraftCatchupPhaseMismatch)
  else
    match rg_bound_plan self with
    | None => ret (Err QueuePlanMismatch)
    | Some parent =>
        let? _ := lift (validate_draft_catchup_ready_key self parent key) in
        modify (put_draft_catchup (Some (CatchupPending key))) ;; ret (Ok tt)
    end.

Definition reserve_draft_catchup_key (batch : M1ServingBatchPlanV1) (key : M1ServingDraftCatchupKeyV1) :
    R M1ServingPublicationReservationV1 :=
  let? _ := gets reject_live_reservation in
  let! self := gets id in
  if is_some (rg_in_flight self) then ret (Err BatchAlreadyInFlight)
  else
    let? _ := lift (validate_next_batch self batch) in
    let? _ := lift (validate_draft_catchup_start self batch key) in
    reserve_validated_batch batch (Some key).

Definition reserve_draft_catchup_restore_key (batch : M1ServingBatchPlanV1)
    (key : M1ServingDraftCatchupKeyV1) (dispatch_generation : N) : R M1ServingPublicationReservationV1 :=
  let? _ := gets reject_live_reservation in
  let! self := gets id in
  if is_some (rg_in_flight self) then ret (Err BatchAlreadyInFlight)
  else if negb (bool_decide (rg_draft_catchup self = Some (CatchupCompleted key dispatch_generation)))
          || negb (bool_decide (bp_requests batch = [key_request key]))
          || negb (bool_decide (sp_target (bp_plan batch) = key_parent key))
  then ret (Err DraftCatchupPhaseMismatch)
  else
    let? _ := lift (validate_next_batch self batch) in
    reserve_validated_batch batch None.

(** ** Publication

    A failure of one of these operations gives its token back. *)
Definition abort_publication (reservation : M1ServingPublicationReservationV1) :
    M M1ServingRegistryV1
      (result unit (M1ServingRegistryErrorV1 * M1ServingPublicationReservationV1)) :=
  let! self := gets id in
  match validate_reservation self reservation with
  | Err error => ret (Err (error, reservation))
  | Ok _ => modify (put_reservation None) ;; ret (Ok tt)
  end.

Definition preflight_publication (self : M1ServingRegistryV1)
    (reservation : M1ServingPublicationReservationV1) : RegistryResult unit :=
  validate_reservation self reservation.

(** [for entry in &mut self.entries { if batch.requests.contains(..) { .. } }] *)
Definition launch (requests : list RequestId) (epoch : Completion.CompletionEpoch)
    (e : M1ServingEntryV1) : M1ServingEntryV1 :=
  if existsb (fun r => bool_decide (r = en_request e)) requests then set_phase (PhaseInFlight epoch) e else e.

(** The last four statements of [record_publication]. *)
Definition bind_batch (batch : M1ServingBatchPlanV1) : M M1ServingRegistryV1 unit :=
  modify (put_reservation None) ;;
  modify (put_submitted_epoch (Completion.value (bp_epoch batch))) ;;
  modify (put_bound_plan (Some (bp_plan batch))) ;;
  modify (put_in_flight (Some (mkInFlight (bp_plan batch) (bp_requests batch) (bp_epoch batch)))).

Definition record_publication (reservation : M1ServingPublicationReservationV1) :
    M M1ServingRegistryV1
      (result unit (M1ServingRegistryErrorV1 * M1ServingPublicationReservationV1)) :=
  let! self := gets id in
  match validate_reservation self reservation with
  | Err error => ret (Err (error, reservation))
  | Ok _ =>
      let maintenance_key := match rg_reservation self with Some live => rv_draft_catchup live | None => None end in
      let batch := pr_batch reservation in
      match bp_action batch with
      | QuiescentDraftCatchup _ =>
          match maintenance_key with
          | Some key => modify (put_draft_catchup (Some (CatchupInFlight key)))
          | None => panic
          end
      | QuiescentDraftCatchupRestore _ => modify (put_draft_catchup None)
      | _ => ret tt
      end ;;
      modify (put_entries (launch (bp_requests batch) (bp_epoch batch) <$> rg_entries self)) ;;
      bind_batch batch ;;
      ret (Ok tt)
  end.

(** ** Completion *)

(** One roster member of [apply_validated_completion]. *)
Definition settle_entry (epoch : Completion.CompletionEpoch) (disposition : M1ServingCompletionDispositionV1)
    (e : M1ServingEntryV1) : M1ServingEntryV1 :=
  match disposition with
  | Continue next => mkEntry (en_request e) next PhaseReady (Some epoch)
  | Retire => mkEntry (en_request e) (en_plan e) (PhaseRetired (CompletedAt epoch)) (Some epoch)
  end.

(** [for (request, disposition) in in_flight.requests.iter().copied().zip(dispositions)] *)
Fixpoint settle_loop (requests : list RequestId) (dispositions : list M1ServingCompletionDispositionV1)
    (epoch : Completion.CompletionEpoch) : M M1ServingRegistryV1 unit :=
  match requests, dispositions with
  | request :: requests', disposition :: dispositions' =>
      let! self := gets id in
      match find_entry self request with
      | None => panic
      | Some (index, e) =>
          put_entry index (settle_entry epoch disposition e) ;;
          settle_loop requests' dispositions' epoch
      end
  | _, _ => ret tt
  end.

Definition apply_validated_completion (epoch : Completion.CompletionEpoch)
    (dispositions : list M1ServingCompletionDispositionV1) : M M1ServingRegistryV1 unit :=
  let! self := gets id in
  modify (put_in_flight None) ;;
  match rg_in_flight self with
  | None => panic
  | Some in_flight =>
      settle_loop (if_requests in_flight) dispositions epoch ;;
      modify (put_completed_epoch (Completion.value epoch))
  end.

Definition phase_at (epoch : Completion.CompletionEpoch) (e : M1ServingEntryV1) : bool :=
  match en_phase e with
  | PhaseInFlight active | PhaseCancellationPending active => bool_decide (active = epoch)
  | _ => false
  end.

(** [for (lane, (request, disposition)) in .. zip .. enumerate()] *)
Fixpoint completion_loop (self : M1ServingRegistryV1) (in_flight : M1ServingInFlightBatchV1)
    (epoch : Completion.CompletionEpoch) (requests : list RequestId)
    (dispositions : list M1ServingCompletionDispositionV1) (lane : N) : RegistryResult unit :=
  match requests, dispositions with
  | request :: requests', disposition :: dispositions' =>
      match entry self request with
      | None => Err (CompletionRosterMismatch lane)
      | Some e =>
          if negb (phase_at epoch e) || negb (bool_decide (en_plan e = if_plan in_flight)) then
            Err (CompletionRosterMismatch lane)
          else
            match
              match en_phase e, disposition with
              | PhaseCancellationPending _, Continue _ => Err CancellationAlreadyRequested
              | _, Continue next => validate_plan_transition (en_plan e) next
              | _, Retire => Ok tt
              end
            with
            | Err error => Err error
            | Ok _ => completion_loop self in_flight epoch requests' dispositions' (lane + 1)
            end
      end
  | _, _ => Ok tt
  end.

Definition validate_completion_exact (self : M1ServingRegistryV1) (epoch : Completion.CompletionEpoch)
    (dispositions : list M1ServingCompletionDispositionV1) : RegistryResult unit :=
  match reject_live_reservation self with
  | Err error => Err error
  | Ok _ =>
      if is_some (rg_draft_catchup self) then Err DraftCatchupWitnessRequired
      else
        match rg_in_flight self with
        | None => Err NoBatchInFlight
        | Some in_flight =>
            if negb (bool_decide (if_epoch in_flight = epoch))
               || negb (Completion.value epoch =? saturating_succ u64_max (rg_completed_epoch self))
               || negb (Completion.value epoch =? rg_submitted_epoch self)
            then Err CompletionEpochMismatch
            else if negb (vlen dispositions =? vlen (if_requests in_flight)) then
              Err CompletionDispositionCount
            else completion_loop self in_flight epoch (if_requests in_flight) dispositions 0
        end
  end.

Definition preflight_completion_exact_for (self : M1ServingRegistryV1) (identity : N)
    (epoch : Completion.CompletionEpoch) (dispositions : list M1ServingCompletionDispositionV1) :
    RegistryResult unit :=
  if negb (identity =? rg_identity self) then Err RegistryIdentityMismatch
  else validate_completion_exact self epoch dispositions.

Definition apply_preflighted_completion (epoch : Completion.CompletionEpoch)
    (dispositions : list M1ServingCompletionDispositionV1) : M M1ServingRegistryV1 unit :=
  apply_validated_completion epoch dispositions.

Definition validate_draft_catchup_completion (self : M1ServingRegistryV1)
    (key : M1ServingDraftCatchupKeyV1) (dispatch_generation : N) :
    RegistryResult M1ServingCompletionDispositionV1 :=
  match reject_live_reservation self with
  | Err error => Err error
  | Ok _ =>
      match rg_in_flight self with
      | None => Err NoBatchInFlight
      | Some in_flight =>
          if negb (bool_decide (rg_draft_catchup self = Some (CatchupInFlight key)))
             || negb (valid_for key (if_plan in_flight))
             || negb (successor_is u64_max (key_prior_dispatch_generation key) dispatch_generation)
             || negb (bool_decide (if_requests in_flight = [key_request key]))
             || negb (bool_decide (if_epoch in_flight = key_epoch key))
             || negb (bool_decide (rg_bound_plan self = Some (if_plan in_flight)))
             || negb (rg_submitted_epoch self =? Completion.value (key_epoch key))
             || negb (rg_completed_epoch self =? Completion.value (key_prior_epoch key))
          then Err DraftCatchupPhaseMismatch
          else
            match entry self (key_request key) with
            | None => Err UnknownRequest
            | Some e =>
                if negb (bool_decide (en_plan e = if_plan in_flight))
                   || negb (bool_decide (en_last_quiescence e = Some (key_prior_epoch key)))
                then Err DraftCatchupPhaseMismatch
                else
                  match en_phase e with
                  | PhaseInFlight epoch =>
                      if bool_decide (epoch = key_epoch key) then Ok (Continue (en_plan e))
                      else Err DraftCatchupPhaseMismatch
                  | PhaseCancellationPending epoch =>
                      if bool_decide (epoch = key_epoch key) then Ok Retire
                      else Err DraftCatchupPhaseMismatch
                  | _ => Err DraftCatchupPhaseMismatch
                  end
            end
      end
  end.

Definition complete_draft_catchup_key (key : M1ServingDraftCatchupKeyV1) (dispatch_generation : N) :
    R unit :=
  let! self := gets id in
  let? disposition := lift (validate_draft_catchup_completion self key dispatch_generation) in
  apply_validated_completion (key_epoch key) [disposition] ;;
  modify (put_draft_catchup (Some (CatchupCompleted key dispatch_generation))) ;;
  ret (Ok tt).

(** ** Window replacement *)
Definition validate_completed_window_predecessor (e : M1ServingEntryV1) (prior : M1ServingPlanV1)
    (completed_epoch index : N) : RegistryResult unit :=
  if negb (bool_decide (en_plan e = prior)) then Err (NewWindowPredecessorPlanMismatch index)
  else
    match en_phase e with
    | PhaseRetired (CompletedAt epoch) =>
        if (Completion.value epoch =? 0) || (completed_epoch <? Completion.value epoch)
           || negb (bool_decide (en_last_quiescence e = Some epoch))
        then Err (NewWindowPredecessorEpochMismatch index) else Ok tt
    | _ => Err (NewWindowPredecessorNotCompleted index)
    end.

Fixpoint predecessors_loop (entries : list M1ServingEntryV1) (prior : M1ServingPlanV1)
    (completed_epoch index : N) : RegistryResult unit :=
  match entries with
  | [] => Ok tt
  | e :: entries' =>
      match validate_completed_window_predecessor e prior completed_epoch index with
      | Err error => Err error
      | Ok _ => predecessors_loop entries' prior completed_epoch (index + 1)
      end
  end.

(** [for (index, (request, predecessor)) in requests .. zip(self.entries.iter())] *)
Fixpoint successors_loop (requests : list RequestId) (entries : list M1ServingEntryV1) (index : N) :
    RegistryResult unit :=
  match requests, entries with
  | request :: requests', predecessor :: entries' =>
      if generation request =? 0 then Err InvalidRequest
      else if negb (slot request =? slot (en_request predecessor)) then
        Err (NewWindowRequestSlotMismatch index)
      else if negb (successor_is u32_max (generation (en_request predecessor)) (generation request)) then
        Err (NewWindowRequestGenerationMismatch index)
      else successors_loop requests' entries' (index + 1)
  | _, _ => Ok tt
  end.

Definition fresh_entry (plan : M1ServingPlanV1) (request : RequestId) : M1ServingEntryV1 :=
  mkEntry request plan PhaseReady None.

Fixpoint push_requests (requests : list RequestId) (inline : list RequestId) : option (list RequestId) :=
  match requests with
  | [] => Some inline
  | request :: requests' =>
      match try_push M1_SERVING_INLINE_ROSTER_CAPACITY_V1 inline request with
      | None => None
      | Some inline => push_requests requests' inline
      end
  end.

(** The checks of [reserve_completed_window_replacement_with_storage], in order:
    the bound plan, the next epoch and the following reservation identity. *)
Definition window_checks (self : M1ServingRegistryV1) (plan : M1ServingPlanV1)
    (requests : list RequestId) : RegistryResult (M1ServingPlanV1 * N * N) :=
  match reject_live_reservation self with
  | Err error => Err error
  | Ok _ =>
  if is_some (rg_in_flight self) then Err BatchAlreadyInFlight
  else if is_some (rg_draft_catchup self) then Err DraftCatchupPhaseMismatch
  else
  match rg_bound_plan self with
  | None => Err QueuePlanMismatch
  | Some prior =>
  if vlen (rg_entries self) =? 0 then Err NewWindowPredecessorRequired
  else
  match predecessors_loop (rg_entries self) prior (rg_completed_epoch self) 0 with
  | Err error => Err error
  | Ok _ =>
  if negb (bool_decide (plan_mode plan = Graph.Prefill)) then Err AdmissionRequiresPrefill
  else if vlen requests =? 0 then Err NewWindowRosterEmpty
  else if (C <? vlen requests) || (sp_sequence_capacity plan <? vlen requests) then
    Err NewWindowRosterExceedsPlan
  else if negb (vlen requests =? vlen (rg_entries self)) then Err NewWindowRosterCountMismatch
  else
  match successors_loop requests (rg_entries self) 0 with
  | Err error => Err error
  | Ok _ =>
  if negb (rg_submitted_epoch self =? rg_completed_epoch self) then Err CompletionEpochMismatch
  else
  match checked_add u64_max (rg_submitted_epoch self) 1 with
  | None => Err CompletionEpochMismatch
  | Some next_epoch =>
  match checked_add u64_max (rg_next_reservation_id self) 1 with
  | None => Err PublicationReservationExhausted
  | Some following_id => Ok (prior, next_epoch, following_id)
  end end end end end end.

(** A failure gives the error and the plan and roster it was called with. *)
Definition WindowResult (A : Type) : Type :=
  result A (M1ServingRegistryErrorV1 * M1ServingPlanV1 * list RequestId).

Definition reserve_completed_window_replacement_with_storage (plan : M1ServingPlanV1)
    (requests : list RequestId) (storage : HostVec M1ServingEntryV1) :
    M M1ServingRegistryV1 (WindowResult M1ServingNewWindowPublicationReservationV1) :=
  let! self := gets id in
  match window_checks self plan requests with
  | Err error => ret (Err (error, plan, requests))
  | Ok (prior, next_epoch, following_id) =>
      let next_entries := vec_clear storage in
      if vec_capacity next_entries <? vlen requests then ret (Err (HostAllocation, plan, requests))
      else
        match push_requests requests [] with
        | None => ret (Err (NewWindowRosterExceedsPlan, plan, requests))
        | Some inline_requests =>
            let id := rg_next_reservation_id self in
            let action := QuiescentNewWindow prior plan in
            let epoch := Completion.mkEpoch next_epoch in
            modify (put_reservation (Some (mkReserved id plan epoch action None))) ;;
            modify (put_next_reservation_id following_id) ;;
            modify (put_entries (fresh_entry plan <$> requests)) ;;
            ret (Ok (mkNewWindow prior (rg_entries self) requests
              (mkReservation (rg_identity self) id (mkBatch plan inline_requests epoch action))))
        end
  end.

Definition reserve_completed_window_replacement (plan : M1ServingPlanV1) (requests : list RequestId) :
    M M1ServingRegistryV1 (WindowResult M1ServingNewWindowPublicationReservationV1) :=
  match vec_reserve vec_new (vlen requests) with
  | None => ret (Err (HostAllocation, plan, requests))
  | Some storage => reserve_completed_window_replacement_with_storage plan requests storage
  end.

(** [for (lane, (entry, request)) in self.entries.iter().zip(..).enumerate()]:
    the predecessors are indexed by the lane. *)
Fixpoint window_loop {S} (entries : list M1ServingEntryV1) (requests : list RequestId)
    (plan : M1ServingPlanV1) (predecessors : list M1ServingEntryV1) (lane : N) :
    M S (RegistryResult unit) :=
  match entries, requests with
  | e :: entries', request :: requests' =>
      if negb (bool_decide (en_request e = request)) || negb (bool_decide (en_plan e = plan))
         || negb (is_ready e) || is_some (en_last_quiescence e)
      then ret (Err (CompletionRosterMismatch lane))
      else if generation request =? 0 then ret (Err InvalidRequest)
      else
        let! predecessor := slice_at predecessors lane in
        if negb (slot request =? slot (en_request predecessor)) then
          ret (Err (NewWindowRequestSlotMismatch lane))
        else if negb (successor_is u32_max (generation (en_request predecessor)) (generation request)) then
          ret (Err (NewWindowRequestGenerationMismatch lane))
        else window_loop entries' requests' plan predecessors (lane + 1)
  | _, _ => ret (Ok tt)
  end.

Definition validate_new_window_reservation {S} (self : M1ServingRegistryV1)
    (reservation : M1ServingNewWindowPublicationReservationV1) : M S (RegistryResult unit) :=
  match validate_reservation self (nw_publication reservation) with
  | Err error => ret (Err error)
  | Ok _ =>
      let batch := pr_batch (nw_publication reservation) in
      let plan := bp_plan batch in
      let count := vlen (rg_entries self) in
      if negb (bool_decide (rg_bound_plan self = Some (nw_prior reservation)))
         || negb (bool_decide (bp_action batch = QuiescentNewWindow (nw_prior reservation) plan))
         || (vlen (nw_predecessors reservation) =? 0)
         || negb (vlen (nw_predecessors reservation) =? count)
         || negb (count =? vlen (bp_requests batch))
         || negb (bool_decide (nw_requests reservation = bp_requests batch))
         || (count =? 0) || (C <? count) || (sp_sequence_capacity plan <? count)
         || negb (bool_decide (plan_mode plan = Graph.Prefill))
      then ret (Err PublicationReservationMismatch)
      else
        match predecessors_loop (nw_predecessors reservation) (nw_prior reservation)
                (rg_completed_epoch self) 0 with
        | Err error => ret (Err error)
        | Ok _ => window_loop (rg_entries self) (bp_requests batch) plan (nw_predecessors reservation) 0
        end
  end.

Definition preflight_new_window_publication {S} (self : M1ServingRegistryV1)
    (reservation : M1ServingNewWindowPublicationReservationV1) : M S (RegistryResult unit) :=
  validate_new_window_reservation self reservation.

(** The restored window is its plan and roster. *)
Definition restore_completed_window_replacement (reservation : M1ServingNewWindowPublicationReservationV1) :
    M M1ServingRegistryV1
      (result (M1ServingPlanV1 * list RequestId)
        (M1ServingRegistryErrorV1 * M1ServingNewWindowPublicationReservationV1)) :=
  let! self := gets id in
  let! r := validate_new_window_reservation self reservation in
  match r with
  | Err error => ret (Err (error, reservation))
  | Ok _ =>
      modify (put_reservation None) ;;
      modify (put_entries (nw_predecessors reservation)) ;;
      ret (Ok (bp_plan (pr_batch (nw_publication reservation)), nw_requests reservation))
  end.

Definition record_new_window_publication (reservation : M1ServingNewWindowPublicationReservationV1) :
    M M1ServingRegistryV1
      (result unit (M1ServingRegistryErrorV1 * M1ServingNewWindowPublicationReservationV1)) :=
  let! self := gets id in
  let! r := validate_new_window_reservation self reservation in
  match r with
  | Err error => ret (Err (error, reservation))
  | Ok _ =>
      let batch := pr_batch (nw_publication reservation) in
      modify (put_entries (set_phase (PhaseInFlight (bp_epoch batch)) <$> rg_entries self)) ;;
      bind_batch batch ;;
      ret (Ok tt)
  end.

(** The evidence of one removed member; a debug assertion guards its phase. *)
Definition predecessor {S} (self : M1ServingNewWindowPublicationReservationV1) (index : N) :
    M S (option M1ServingCompletedWindowMemberV1) :=
  match vget (nw_predecessors self) index with
  | None => ret None
  | Some e =>
      match en_phase e with
      | PhaseRetired (CompletedAt epoch) => ret (Some (mkWindowMember (en_request e) (en_plan e) epoch))
      | _ => panic
      end
  end.
End registry.

(** ** Reconciliation of a completed prefill *)
Record M1AuthenticatedPrefillRegistryReconciliationV1 := mkReconciliation {
  rc_request : RequestId;
  rc_epoch : Completion.CompletionEpoch;
  rc_prefill : M1ServingPlanV1;
  rc_successor : M1ServingPlanV1
}.

Definition is_fresh_for_authenticated_prefill_reconciliation (self : M1ServingRegistryV1) : bool :=
  (vlen (rg_entries self) =? 0)
  && negb (is_some (rg_bound_plan self)) && negb (is_some (rg_reservation self))
  && negb (is_some (rg_in_flight self)) && negb (is_some (rg_draft_catchup self))
  && (rg_next_reservation_id self =? 1)
  && (rg_submitted_epoch self =? 0) && (rg_completed_epoch self =? 0).

Inductive M1AuthenticatedPrefillRegistryReconciliationErrorV1 :=
| RegistryNotFresh | ProfileMismatch | IntentMismatch | QueueMismatch
| CompletionMismatch | RequestMismatch | CacheMismatch | EngineMismatch.

Definition install_authenticated_prefill_reconciliation
    (reconciliation : M1AuthenticatedPrefillRegistryReconciliationV1) :
    M M1ServingRegistryV1 (result unit M1AuthenticatedPrefillRegistryReconciliationErrorV1) :=
  let! self := gets id in
  if negb (is_fresh_for_authenticated_prefill_reconciliation self) then ret (Err RegistryNotFresh)
  else
    modify (put_entries [mkEntry (rc_request reconciliation) (rc_successor reconciliation) PhaseReady
                           (Some (rc_epoch reconciliation))]) ;;
    modify (put_bound_plan (Some (rc_prefill reconciliation))) ;;
    modify (put_next_reservation_id 2) ;;
    modify (put_submitted_epoch (Completion.value (rc_epoch reconciliation))) ;;
    modify (put_completed_epoch (Completion.value (rc_epoch reconciliation))) ;;
    ret (Ok tt).
