(* ===== verification/RegistryFacts.v ===== *)
(** Facts on the pure parts of the serving registry: plans and their rollovers,
    the entry of a request, the next plan and its roster, and the checks of a
    batch and of a reservation. *)
From S2P Require Import Prelude Spec PlanSelection Platform Registry.
From S2P Require Scheduler SpecLoop M1Completion.
Local Open Scope prog_scope.

(** ** Plans *)
Definition plan_ok (p : M1ServingPlanV1) : Prop := exists target draft, plan_new target draft = Ok p.

Lemma plan_new_spec target draft p :
  plan_new target draft = Ok p <->
  Graph.role target = Graph.Target8B /\ Graph.role draft = Graph.Draft06B /\
  bucket_mode (Graph.bucket target) = Graph.mode target /\
  exists shape mode bucket, draft_of_target target = Some (shape, mode, bucket) /\
    draft = Graph.mkSelection Graph.Draft06B mode bucket /\
    exists d, Graph.dimensions (Graph.bucket target) Graph.Target8B (Graph.mode target) = Some d /\
      p = mkServingPlan target draft shape (Graph.sequences d).
Proof.
  destruct target as [[] [] []], draft as [[] [] []]; vm_compute;
    (split; [intros [= <-]; eauto 20|intros (? & ? & ? & shape & mode & bucket & E & E' & d & E2 & ->)]; simplify_eq; done).
Qed.

(** A plan is determined by its target. *)
Lemma plan_ok_target p q : plan_ok p -> plan_ok q -> sp_target p = sp_target q -> p = q.
Proof.
  intros (t & d & Hp) (t' & d' & Hq). apply plan_new_spec in Hp as (Ht & Hd & _ & sh & m & b & E & -> & dim & Ed & ->).
  apply plan_new_spec in Hq as (Ht' & Hd' & _ & sh' & m' & b' & E' & -> & dim' & Ed' & ->).
  cbn [sp_target]. intros <-. congruence.
Qed.

Lemma plan_ok_capacity p : plan_ok p -> 1 <= sp_sequence_capacity p <= 32.
Proof.
  intros (t & d & Hp). apply plan_new_spec in Hp as (_ & _ & _ & sh & m & b & _ & _ & dim & Ed & ->).
  cbn [sp_sequence_capacity]. destruct t as [r [] []]; simpl in Ed; try done; injection Ed as <-; simpl; lia.
Qed.

Lemma is_some_spec {A} (o : option A) : is_some o = true <-> is_Some o.
Proof. destruct o; split; try done; by intros []. Qed.

Lemma successor_is_spec max a b : successor_is max a b = true <-> b = a + 1 /\ b <= max.
Proof.
  unfold successor_is, checked_add. rewrite bool_decide_eq_true. destruct (N.leb_spec (a + 1) max).
  - split; [intros [= <-]; lia|]. intros [-> ?]. done.
  - split; [done|lia].
Qed.

(** ** The entry of a request *)
Lemma find_entry_Some self r i e :
  find_entry self r = Some (i, e) -> rg_entries self !! i = Some e /\ en_request e = r.
Proof. unfold find_entry. intros (? & ? & _)%list_find_Some. done. Qed.

Lemma find_entry_None self r : find_entry self r = None <-> r ∉ (en_request <$> rg_entries self).
Proof.
  unfold find_entry. rewrite list_find_None, Forall_forall. split.
  - intros H (e & -> & Hin)%list_elem_of_fmap. by apply (H e).
  - intros H e Hin <-. apply H. by apply list_elem_of_fmap_2.
Qed.

(** With distinct requests, the entry found is the only one. *)
Lemma find_entry_lookup self i e :
  NoDup (en_request <$> rg_entries self) -> rg_entries self !! i = Some e ->
  find_entry self (en_request e) = Some (i, e).
Proof.
  intros Hnd Hi. unfold find_entry. apply list_find_Some. split; [done|]. split; [done|].
  intros j y Hj Hlt E. apply (NoDup_lookup _ i j (en_request e)) in Hnd; [lia|by rewrite list_lookup_fmap, Hi|].
  by rewrite list_lookup_fmap, Hj, <- E.
Qed.

Lemma entry_Some self r e :
  NoDup (en_request <$> rg_entries self) ->
  entry self r = Some e <-> e ∈ rg_entries self /\ en_request e = r.
Proof.
  intros Hnd. unfold entry. split.
  - intros H. destruct (find_entry self r) as [[i e']|] eqn:E; [|done]. injection H as <-.
    apply find_entry_Some in E as [E1 E2]. split; [by eapply list_elem_of_lookup_2|done].
  - intros [[i Hi]%list_elem_of_lookup <-]. by rewrite (find_entry_lookup _ _ _ Hnd Hi).
Qed.

Lemma ready_entry_Some self r p e :
  NoDup (en_request <$> rg_entries self) ->
  ready_entry self r p = Some e <->
  e ∈ rg_entries self /\ en_request e = r /\ en_phase e = PhaseReady /\ p e = true.
Proof.
  intros Hnd. unfold ready_entry. split.
  - destruct (entry self r) as [e'|] eqn:E; [|done]. apply entry_Some in E as [E1 E2]; [|done].
    unfold is_ready. case_bool_decide; [|done]. destruct (p e') eqn:Hp; [|done]. by intros [= <-].
  - intros (Hin & Hr & Hph & Hp). rewrite (proj2 (entry_Some self r e Hnd)) by done.
    unfold is_ready. by rewrite bool_decide_true, Hp.
Qed.

Lemma is_some_ready_entry self r p :
  NoDup (en_request <$> rg_entries self) ->
  is_some (ready_entry self r p) = true <->
  exists e, e ∈ rg_entries self /\ en_request e = r /\ en_phase e = PhaseReady /\ p e = true.
Proof.
  intros Hnd. rewrite is_some_spec. unfold is_Some. split.
  - intros [e He]. exists e. by apply ready_entry_Some.
  - intros [e He]. exists e. by apply ready_entry_Some.
Qed.

(** ** The next plan and its roster *)
Lemma min_by_key_spec {A} (key : A -> N) l x :
  min_by_key key l = Some x ->
  exists l1 l2, l = l1 ++ x :: l2 /\ Forall (fun y => key x < key y) l1 /\ Forall (fun y => key x <= key y) l2.
Proof.
  revert x. induction l as [|y l IH]; intros x; cbn [min_by_key]; [done|].
  destruct (min_by_key key l) as [z|] eqn:E.
  - specialize (IH z eq_refl) as (l1 & l2 & -> & H1 & H2).
    destruct (N.leb_spec (key y) (key z)); intros [= <-].
    + exists [], (l1 ++ z :: l2). split; [done|]. split; [done|]. apply Forall_app. split; [|constructor; [lia|]].
      * eapply Forall_impl; [exact H1|]. cbn. lia.
      * eapply Forall_impl; [exact H2|]. cbn. lia.
    + exists (y :: l1), l2. split; [done|]. split; [by constructor|done].
  - intros [= <-]. exists [], l. split; [done|]. split; [done|].
    destruct l as [|z l]; [done|]. cbn [min_by_key] in E. destruct (min_by_key key l); [|done]. by case_match.
Qed.

Lemma min_by_key_None {A} (key : A -> N) l : min_by_key key l = None <-> l = [].
Proof.
  destruct l as [|x l]; [done|]. cbn [min_by_key]. split; [|done].
  destruct (min_by_key key l); [|done]. by case_match.
Qed.

Lemma filter_In {A} (p : A -> bool) l x : x ∈ List.filter p l <-> x ∈ l /\ p x = true.
Proof. rewrite !list_elem_of_In. apply List.filter_In. Qed.

Lemma ready_of_plan_In self p n e :
  e ∈ ready_of_plan self p n -> e ∈ rg_entries self /\ en_phase e = PhaseReady /\ en_plan e = p.
Proof.
  unfold ready_of_plan. intros H%(subseteq_take _ _). apply filter_In in H as [Hin H].
  apply andb_true_iff in H as [H1%bool_decide_eq_true H2%bool_decide_eq_true]. done.
Qed.

Lemma check_ready_spec members requests : forall c n,
  check_ready members requests c = Ok n <->
  n = c + vlen members /\
  forall i e, members !! i = Some e -> vget requests (c + N.of_nat i) = Some (en_request e).
Proof.
  induction members as [|e members IH]; intros c n; cbn [check_ready].
  { change (vlen (@nil M1ServingEntryV1)) with 0. rewrite N.add_0_r. split; [by intros [= <-]|by intros [-> _]]. }
  rewrite vlen_cons. case_bool_decide as He; cbn [negb].
  - rewrite IH. split.
    + intros [-> H]. split; [lia|]. intros [|i] y; cbn; [intros [= <-]; by rewrite N.add_0_r|].
      intros Hy. specialize (H i y Hy). replace (c + N.of_nat (S i)) with (c + 1 + N.of_nat i) by lia. done.
    + intros [-> H]. split; [lia|]. intros i y Hy. specialize (H (S i) y Hy).
      by replace (c + 1 + N.of_nat i) with (c + N.of_nat (S i)) by lia.
  - split; [done|]. intros [_ H]. destruct He. specialize (H 0%nat e eq_refl). by rewrite N.add_0_r in H.
Qed.

Lemma check_ready_all members requests :
  check_ready members requests 0 = Ok (vlen requests) <-> requests = en_request <$> members.
Proof.
  rewrite check_ready_spec. split.
  - intros [Hl H]. apply list_eq_same_length with (n := length members).
    + by rewrite length_fmap.
    + unfold vlen in Hl. lia.
    + intros i x y Hi Hx Hy. rewrite list_lookup_fmap in Hy. destruct (members !! i) as [e|] eqn:E; [|done].
      specialize (H i e E). unfold vget in H. rewrite N.add_0_l, Nat2N.id in H. simpl in Hy. congruence.
  - intros ->. split; [unfold vlen; by rewrite length_fmap|]. intros i e He. unfold vget.
    by rewrite N.add_0_l, Nat2N.id, list_lookup_fmap, He.
Qed.

Section roster.
Context {P : Platform} {HP : PlatformLaws P} (C : N).

(** The members of the next batch of a plan, in admission order; while a draft
    catch-up is due, its only member. *)
Definition due_roster (self : M1ServingRegistryV1) (plan : M1ServingPlanV1) : list RequestId :=
  match rg_draft_catchup self with
  | Some phase => [key_request (catchup_key phase)]
  | None => en_request <$> ready_of_plan self plan (N.min C (sp_sequence_capacity plan))
  end.

Definition due_ready (self : M1ServingRegistryV1) (plan : M1ServingPlanV1) : Prop :=
  match rg_draft_catchup self with
  | Some phase => catchup_ready self (catchup_key phase) plan = true
  | None => due_roster self plan <> []
  end.

Lemma validate_ready_roster_spec self batch :
  validate_ready_roster C self batch = Ok tt <->
  bp_requests batch = due_roster self (bp_plan batch) /\ due_ready self (bp_plan batch).
Proof.
  unfold validate_ready_roster, due_ready, due_roster. destruct (rg_draft_catchup self) as [phase|].
  - destruct (decide (bp_requests batch = [key_request (catchup_key phase)])) as [H|H].
    + rewrite (bool_decide_true _ H). cbn [negb orb]. destruct (catchup_ready _ _ _); cbn [negb]; naive_solver.
    + rewrite (bool_decide_false _ H). cbn [negb orb]. naive_solver.
  - set (l := ready_of_plan _ _ _). destruct (check_ready l (bp_requests batch) 0) as [n|e] eqn:E.
    + pose proof (proj1 (check_ready_spec _ _ _ _) E) as [Hn _].
      assert (Hl : vlen (en_request <$> l) = vlen l) by (unfold vlen; by rewrite length_fmap).
      destruct (N.eqb_spec n 0) as [H0|H0].
      { split; [done|]. intros [_ Hne]. destruct Hne. destruct l as [|x l']; [done|]. rewrite vlen_cons in Hn. lia. }
      destruct (N.eqb_spec (vlen (bp_requests batch)) n) as [Hc|Hc]; cbn [negb].
      * rewrite <- Hc in E. apply check_ready_all in E. split; [|done]. intros _. split; [done|].
        intros Hnil. rewrite Hnil in Hl. change (vlen (@nil RequestId)) with 0 in Hl. lia.
      * split; [done|]. intros [Hb _]. rewrite Hb, Hl in Hc. lia.
    + split; [done|]. intros [Hb _]. exfalso. apply check_ready_all in Hb. congruence.
Qed.

Lemma push_ready_spec members : forall pre, vlen pre + vlen members <= 32 ->
  push_ready members pre = Ok (pre ++ (en_request <$> members)).
Proof using HP.
  induction members as [|e members IH]; intros pre Hl; cbn [push_ready fmap list_fmap]; [by rewrite app_nil_r|].
  rewrite vlen_cons in Hl. rewrite try_push_spec. change M1_SERVING_INLINE_ROSTER_CAPACITY_V1 with 32.
  rewrite (proj2 (N.ltb_lt _ _)) by lia. rewrite IH; [by rewrite <- app_assoc|].
  rewrite vlen_app. change (vlen [en_request e]) with 1. lia.
Qed.

Lemma ready_of_plan_length self p n : vlen (ready_of_plan self p n) <= n.
Proof. unfold ready_of_plan, vlen. rewrite length_take. lia. Qed.

Lemma plan_roster_spec self p requests : C <= 32 ->
  plan_roster C self p = Ok requests <->
  requests = due_roster self p /\
  match rg_draft_catchup self with Some phase => catchup_ready self (catchup_key phase) p = true | None => True end.
Proof using HP.
  intros HC. unfold plan_roster, due_roster. destruct (rg_draft_catchup self) as [phase|].
  - destruct (catchup_ready _ _ _); cbn [negb]; [|naive_solver].
    rewrite try_push_spec. change (vlen (@nil RequestId) <? M1_SERVING_INLINE_ROSTER_CAPACITY_V1) with true.
    cbn [app]. naive_solver.
  - rewrite push_ready_spec; [naive_solver|]. change (vlen (@nil RequestId)) with 0.
    pose proof (ready_of_plan_length self p (N.min C (sp_sequence_capacity p))). lia.
Qed.

(** The next plan is ready: its first member heads the roster. *)
Lemma next_ready_plan_Some self p :
  next_ready_plan self = Some p -> exists e, e ∈ rg_entries self /\ en_phase e = PhaseReady /\ en_plan e = p.
Proof.
  assert (Hbest : forall p, en_plan <$> min_by_key (fun e => plan_priority (en_plan e))
      (List.filter is_ready (rg_entries self)) = Some p ->
    exists e, e ∈ rg_entries self /\ en_phase e = PhaseReady /\ en_plan e = p).
  { intros q. destruct (min_by_key _ _) as [e|] eqn:E; [|done]. intros [= <-]. exists e.
    apply min_by_key_spec in E as (l1 & l2 & E & _). assert (Hin : e ∈ List.filter is_ready (rg_entries self)).
    { rewrite E. set_solver. }
    apply filter_In in Hin as [Hin H%bool_decide_eq_true]. done. }
  unfold next_ready_plan. destruct (rg_draft_catchup self) as [phase|]; [|by apply Hbest].
  destruct (ready_entry _ _ _) as [e|] eqn:E; [|by apply Hbest]. intros [= <-]. exists e.
  unfold ready_entry, entry in E. destruct (find_entry self _) as [[i e']|] eqn:Ef; [|done]. simpl in E.
  destruct (is_ready e') eqn:Hr; [|done]. simpl in E. case_bool_decide; [|done]. injection E as ->.
  apply find_entry_Some in Ef as [Hi _]. split; [by eapply list_elem_of_lookup_2|].
  split; [by apply bool_decide_eq_true in Hr|done].
Qed.

Lemma due_roster_nonempty self p :
  0 < C -> 0 < sp_sequence_capacity p -> rg_draft_catchup self = None ->
  (exists e, e ∈ rg_entries self /\ en_phase e = PhaseReady /\ en_plan e = p) -> due_roster self p <> [].
Proof.
  intros HC Hp Hd (e & Hin & Hph & He). unfold due_roster, ready_of_plan. rewrite Hd.
  assert (Hf : e ∈ List.filter (fun e => is_ready e && bool_decide (en_plan e = p)) (rg_entries self)).
  { apply filter_In. split; [done|]. unfold is_ready. by rewrite !bool_decide_true. }
  destruct (List.filter _ _) as [|x l]; [by apply not_elem_of_nil in Hf|].
  replace (N.to_nat (N.min C (sp_sequence_capacity p)))
    with (S (N.to_nat (N.min C (sp_sequence_capacity p) - 1))) by lia. done.
Qed.

(** Planning and validating agree: the batch a quiescent registry plans is the
    only one it reserves. *)
Lemma validate_next_batch_spec self batch :
  0 < C <= 32 -> Forall (fun e => plan_ok (en_plan e)) (rg_entries self) ->
  reject_live_reservation self = Ok tt -> rg_in_flight self = None ->
  validate_next_batch C self batch = Ok tt <-> plan_next C self = Ok (Some batch).
Proof using HP.
  intros HC Hp Hr Hf. unfold validate_next_batch, plan_next. rewrite Hr, Hf. cbn [is_some].
  destruct (next_ready_plan self) as [p|] eqn:En; [|done].
  pose proof (next_ready_plan_Some _ _ En) as Hready.
  assert (Hcap : 1 <= sp_sequence_capacity p).
  { destruct Hready as (e & Hin & _ & <-). rewrite Forall_forall in Hp. pose proof (plan_ok_capacity _ (Hp _ Hin)). lia. }
  destruct (checked_add u64_max (rg_submitted_epoch self) 1) as [ep|].
  2:{ split; [done|]. by destruct (plan_roster C self p). }
  destruct (classify_next_queue_action self p) as [act|err].
  2:{ split; [done|]. by destruct (plan_roster C self p). }
  destruct batch as [bp br be ba]. cbn [bp_plan bp_requests bp_epoch bp_action].
  pose proof (validate_ready_roster_spec self (mkBatch bp br be ba)) as Hv. cbn [bp_plan bp_requests] in Hv.
  destruct (decide (bp = p)) as [->|Hbp].
  2:{ rewrite (bool_decide_false _ Hbp). cbn [negb orb]. destruct (plan_roster C self p); [|done].
      split; [done|]. intros E. by simplify_eq. }
  destruct (decide (be = Completion.mkEpoch ep)) as [->|Hbe].
  2:{ rewrite (bool_decide_false _ Hbe). rewrite orb_true_r. cbn [orb]. destruct (plan_roster C self p); [|done].
      split; [done|]. intros E. by simplify_eq. }
  destruct (decide (ba = act)) as [->|Hba].
  2:{ rewrite (bool_decide_false _ Hba). rewrite orb_true_r. destruct (plan_roster C self p); [|done].
      split; [done|]. intros E. by simplify_eq. }
  rewrite !bool_decide_true by done. cbn [negb orb]. rewrite Hv.
  destruct (plan_roster C self p) as [rs|err] eqn:Ero.
  - apply plan_roster_spec in Ero as [-> Hc]; [|lia]. split; [by intros [-> _]|]. intros [= ->]. split; [done|].
    unfold due_ready. destruct (rg_draft_catchup self) eqn:Ed; [done|]. by apply due_roster_nonempty; [lia..|done|].
  - split; [|done]. intros [-> Hd]. exfalso. enough (plan_roster C self p = Ok (due_roster self p)) by congruence.
    apply plan_roster_spec; [lia|]. split; [done|]. unfold due_ready in Hd. by destruct (rg_draft_catchup self).
Qed.
End roster.
