(* ===== verification/RegistryInv.v ===== *)
(** The invariant of the serving registry, and what each operation does on
    every branch: a refused operation leaves the registry as it was. *)
From S2P Require Import Prelude Spec PlanSelection Platform Registry RegistryFacts.
From S2P Require Scheduler SpecLoop M1Completion.
Local Open Scope prog_scope.

(** ** The invariant *)
Record entry_ok (completed : N) (e : M1ServingEntryV1) : Prop := {
  eo_generation : generation (en_request e) <> 0;
  eo_plan : plan_ok (en_plan e);
  eo_quiescence ep : en_last_quiescence e = Some ep -> 1 <= Completion.value ep <= completed;
  eo_retired q : en_phase e = PhaseRetired q -> q = quiescence_of (en_last_quiescence e)
}.

Definition flying (e : M1ServingEntryV1) : bool :=
  match en_phase e with PhaseInFlight _ | PhaseCancellationPending _ => true | _ => false end.

Record flight_ok (C : N) (r : M1ServingRegistryV1) (b : M1ServingInFlightBatchV1) : Prop := {
  fo_nodup : NoDup (if_requests b);
  fo_count : 1 <= vlen (if_requests b) <= N.min C (sp_sequence_capacity (if_plan b));
  fo_epoch : Completion.value (if_epoch b) = rg_submitted_epoch r;
  fo_members q : q ∈ if_requests b -> exists e, e ∈ rg_entries r /\ en_request e = q /\
    phase_at (if_epoch b) e = true /\ en_plan e = if_plan b;
  fo_bound : rg_bound_plan r = Some (if_plan b)
}.

(** The catch-up member, when it is ready under the parent's target, has last
    been quiescent at [ep]. *)
Definition due_at (r : M1ServingRegistryV1) (key : M1ServingDraftCatchupKeyV1)
    (ep : Completion.CompletionEpoch) : Prop :=
  forall e, e ∈ rg_entries r -> en_request e = key_request key -> en_phase e = PhaseReady ->
    sp_target (en_plan e) = key_parent key -> en_last_quiescence e = Some ep.

Definition idle_catchup (r : M1ServingRegistryV1) (key : M1ServingDraftCatchupKeyV1)
    (ep : Completion.CompletionEpoch) : Prop :=
  rg_in_flight r = None /\ rg_completed_epoch r = Completion.value ep /\ due_at r key ep /\
  exists parent, rg_bound_plan r = Some parent /\ valid_for key parent = true.

Definition catchup_ok (r : M1ServingRegistryV1) : Prop :=
  match rg_draft_catchup r with
  | None => True
  | Some (CatchupPending key) => idle_catchup r key (key_prior_epoch key)
  | Some (CatchupCompleted key _) => idle_catchup r key (key_epoch key)
  | Some (CatchupInFlight key) => exists b, rg_in_flight r = Some b /\
      if_requests b = [key_request key] /\ if_epoch b = key_epoch key /\
      valid_for key (if_plan b) = true /\ rg_completed_epoch r = Completion.value (key_prior_epoch key) /\
      forall e, e ∈ rg_entries r -> en_request e = key_request key ->
        en_last_quiescence e = Some (key_prior_epoch key)
  end.

Record registry_ok (C : N) (r : M1ServingRegistryV1) : Prop := {
  ro_capacity : 0 < C <= 32;
  ro_count : vlen (rg_entries r) <= C;
  ro_requests : NoDup (en_request <$> rg_entries r);
  ro_entries : Forall (entry_ok (rg_completed_epoch r)) (rg_entries r);
  ro_bound p : rg_bound_plan r = Some p -> plan_ok p;
  ro_epochs : rg_submitted_epoch r = rg_completed_epoch r + (if is_some (rg_in_flight r) then 1 else 0) /\
    rg_submitted_epoch r <= u64_max;
  ro_flight b : rg_in_flight r = Some b -> rg_reservation r = None /\ flight_ok C r b;
  ro_grounded e : e ∈ rg_entries r -> flying e = true ->
    exists b, rg_in_flight r = Some b /\ en_request e ∈ if_requests b;
  ro_reserved live : rg_reservation r = Some live -> rv_id live < rg_next_reservation_id r /\
    Completion.value (rv_epoch live) = rg_submitted_epoch r + 1 /\ rg_submitted_epoch r < u64_max /\
    plan_ok (rv_plan live);
  ro_catchup : catchup_ok r
}.

Lemma entries_plan_ok C r : registry_ok C r -> Forall (fun e => plan_ok (en_plan e)) (rg_entries r).
Proof. intros H. eapply Forall_impl; [apply H|]. by intros e [_ ? _ _]. Qed.

Lemma entry_in C r e : registry_ok C r -> e ∈ rg_entries r -> entry_ok (rg_completed_epoch r) e.
Proof. intros H. pose proof (ro_entries _ _ H) as Hf. rewrite Forall_forall in Hf. apply Hf. Qed.

Lemma entry_ok_mono n n' e : n <= n' -> entry_ok n e -> entry_ok n' e.
Proof. intros Hn [? ? Hq ?]. split; try done. intros ep H. specialize (Hq ep H). lia. Qed.

(** Two entries of one request are the same. *)
Lemma same_entry C r e e' :
  registry_ok C r -> e ∈ rg_entries r -> e' ∈ rg_entries r -> en_request e = en_request e' -> e = e'.
Proof.
  intros H Hin Hin' E. pose proof (proj2 (entry_Some r _ e (ro_requests _ _ H)) (conj Hin eq_refl)) as H1.
  pose proof (proj2 (entry_Some r _ e' (ro_requests _ _ H)) (conj Hin' eq_refl)) as H2. rewrite E in H1. congruence.
Qed.

(** A fresh registry. *)
Lemma new_ok C counter counter' r :
  new C counter = Done counter' (Ok r) -> registry_ok C r.
Proof.
  unfold new. destruct (N.eqb_spec C 0); [done|]. destruct (N.ltb_spec Scheduler.M1_MAX_ACTIVE_SEQUENCES C); [done|].
  unfold fresh, try_bind, bind, gets, modify, ret. destruct (checked_add u64_max (id counter) 1); intros [= <- <-].
  change Scheduler.M1_MAX_ACTIVE_SEQUENCES with 32 in *. split; cbn; try done; try lia.
  - change (vlen (@nil M1ServingEntryV1)) with 0. lia.
  - constructor.
  - by intros e Hin%not_elem_of_nil.
Qed.

(** ** The guards *)
Section rules.
Context {A : Type}.

Lemma wp_live (k : R A) r (Q : M1ServingRegistryV1 -> RegistryResult A -> Prop) :
  (rg_reservation r <> None -> Q r (Err PublicationReservationActive)) ->
  (rg_reservation r = None -> wp k r Q) ->
  wp (let? _ := gets reject_live_reservation in k) r Q.
Proof.
  intros H1 H2. apply wp_try_bind, wp_gets. unfold reject_live_reservation.
  destruct (rg_reservation r); [by apply H1|by apply H2].
Qed.

Lemma wp_lift {B} (x : RegistryResult B) (k : B -> R A) r (Q : M1ServingRegistryV1 -> RegistryResult A -> Prop) :
  (forall e, x = Err e -> Q r (Err e)) -> (forall b, x = Ok b -> wp (k b) r Q) ->
  wp (let? b := lift x in k b) r Q.
Proof.
  intros H1 H2. apply wp_try_bind, wp_ret. destruct x; [by apply H2|by apply H1].
Qed.
End rules.

(** The next epoch of an idle registry. *)
Lemma idle_epochs C r : registry_ok C r -> rg_in_flight r = None -> rg_submitted_epoch r = rg_completed_epoch r.
Proof. intros H Hf. pose proof (ro_epochs _ _ H) as [E _]. rewrite Hf in E. cbn in E. lia. Qed.

Lemma idle_grounded C r e : registry_ok C r -> rg_in_flight r = None -> e ∈ rg_entries r -> flying e = false.
Proof.
  intros H Hf He. destruct (flying e) eqn:E; [|done].
  destruct (ro_grounded _ _ H e He E) as (b & Hb & _). congruence.
Qed.

(** ** Updating one entry *)
Section update.
Context (C : N) (r : M1ServingRegistryV1) (i : nat) (e : M1ServingEntryV1).
Hypothesis Hok : registry_ok C r.
Hypothesis Hi : rg_entries r !! i = Some e.

Lemma updated_in : e ∈ rg_entries r.
Proof using Hi. by eapply list_elem_of_lookup_2. Qed.

Lemma request_lookup j x : rg_entries r !! j = Some x -> en_request x = en_request e -> j = i.
Proof using Hok Hi.
  intros Hj E. apply (NoDup_lookup _ j i (en_request e) (ro_requests _ _ Hok)).
  - by rewrite list_lookup_fmap, Hj, <- E.
  - by rewrite list_lookup_fmap, Hi.
Qed.

Lemma update_requests e' : en_request e' = en_request e ->
  en_request <$> <[i := e']> (rg_entries r) = en_request <$> rg_entries r.
Proof using Hi.
  intros E. rewrite list_fmap_insert. apply list_insert_id. by rewrite list_lookup_fmap, Hi, E.
Qed.

Lemma update_In e' x : en_request e' = en_request e ->
  x ∈ <[i := e']> (rg_entries r) <-> x = e' \/ (x ∈ rg_entries r /\ en_request x <> en_request e).
Proof using Hok Hi.
  intros E. rewrite !list_elem_of_lookup. split.
  - intros [j Hj]. destruct (decide (j = i)) as [->|Hne].
    + left. rewrite list_lookup_insert_eq in Hj by (by eapply lookup_lt_Some). congruence.
    + right. rewrite list_lookup_insert_ne in Hj by done. split; [by exists j|]. intros Ex. by apply Hne, (request_lookup j x).
  - intros [->|[[j Hj] Hx]].
    + exists i. apply list_lookup_insert_eq. by eapply lookup_lt_Some.
    + exists j. rewrite list_lookup_insert_ne; [done|]. intros ->. congruence.
Qed.

Lemma delete_In x : x ∈ delete i (rg_entries r) <-> x ∈ rg_entries r /\ en_request x <> en_request e.
Proof using Hok Hi.
  rewrite !list_elem_of_lookup. split.
  - intros [j Hj]. rewrite list_lookup_delete in Hj. case_decide as Hlt.
    + split; [by exists j|]. intros E. apply (request_lookup j x) in E; [lia|done].
    + split; [by exists (S j)|]. intros E. apply (request_lookup (S j) x) in E; [lia|done].
  - intros [[j Hj] Hx]. assert (j <> i) by (intros ->; congruence). destruct (decide (j < i)%nat) as [Hlt|Hge].
    + exists j. by rewrite list_lookup_delete, decide_True.
    + exists (j - 1)%nat. rewrite list_lookup_delete, decide_False by lia. by replace (S (j - 1)) with j by lia.
Qed.

(** A change of phase or plan that keeps the entry in or out of flight. *)
Lemma update_ok e' :
  en_request e' = en_request e -> entry_ok (rg_completed_epoch r) e' ->
  en_last_quiescence e' = en_last_quiescence e -> flying e' = flying e ->
  (forall ep, phase_at ep e = true -> phase_at ep e' = true) -> (flying e = true -> en_plan e' = en_plan e) ->
  (rg_draft_catchup r = None \/ en_phase e' <> PhaseReady) ->
  registry_ok C (put_entries (<[i := e']> (rg_entries r)) r).
Proof using Hok Hi.
  intros E He Hlast Hfly Hph Hplan Hc. pose proof Hok as [Hcap Hn Hnd Hes Hb Hep Hfl Hgr Hres Hcat].
  split; cbn [put_entries rg_entries rg_completed_epoch rg_submitted_epoch rg_in_flight rg_bound_plan
    rg_reservation rg_next_reservation_id]; try done.
  - unfold vlen in *. by rewrite length_insert.
  - by rewrite update_requests.
  - apply Forall_insert; [done|exact He].
  - intros b Hfb. destruct (Hfl b Hfb) as [Hr [F1 F2 F3 F4 F5]]. split; [done|]. split; try done.
    cbn [put_entries rg_entries]. intros q Hq. destruct (F4 q Hq) as (x & Hx & Hxq & Hxp & Hxpl).
    destruct (decide (en_request x = en_request e)) as [Ex|Ex].
    + assert (x = e) as -> by (eapply same_entry; [done|done|apply updated_in|done]).
      exists e'. split; [by apply update_In; [|left]|]. split; [congruence|]. split; [by apply Hph|].
      rewrite Hplan; [done|]. unfold phase_at in Hxp. unfold flying. by destruct (en_phase e).
    + exists x. split; [|done]. apply update_In; [done|]. by right.
  - intros x [->|[Hx _]]%update_In Hf; [|by apply Hgr|done]. rewrite E. apply Hgr; [apply updated_in|congruence].
  - unfold catchup_ok in *. cbn [put_entries rg_draft_catchup].
    destruct (rg_draft_catchup r) as [[key|key|key dg]|] eqn:Ed; [| | |done];
      (destruct Hc as [Hc|Hc]; [done|]).
    1, 3: destruct Hcat as (H1 & H2 & H3 & H4); split; [done|]; split; [done|]; split; [|done];
      intros x [->|[Hx _]]%update_In Hq Hr; [done| |done]; by apply H3.
    destruct Hcat as (b & H1 & H2 & H3 & H4 & H5 & H6). exists b. do 5 (split; [done|]).
    intros x [->|[Hx _]]%update_In Hq; [|by apply H6|done]. rewrite Hlast. apply H6; [apply updated_in|congruence].
Qed.

(** Removing a retired entry. *)
Lemma delete_ok : flying e = false -> registry_ok C (put_entries (delete i (rg_entries r)) r).
Proof using Hok Hi.
  intros Hfly. pose proof Hok as [Hcap Hn Hnd Hes Hb Hep Hfl Hgr Hres Hcat].
  split; cbn [put_entries rg_entries rg_completed_epoch rg_submitted_epoch rg_in_flight rg_bound_plan
    rg_reservation rg_next_reservation_id]; try done.
  - unfold vlen in *. pose proof (length_delete (rg_entries r) i ltac:(by eexists)). lia.
  - rewrite list_fmap_delete. eapply sublist_NoDup; [exact Hnd|apply sublist_delete].
  - by apply Forall_delete.
  - intros b Hfb. destruct (Hfl b Hfb) as [Hr [F1 F2 F3 F4 F5]]. split; [done|]. split; try done.
    cbn [put_entries rg_entries]. intros q Hq. destruct (F4 q Hq) as (x & Hx & Hxq & Hxp & Hxpl).
    exists x. split; [|done]. apply delete_In. split; [done|]. intros Ex.
    assert (x = e) as -> by (eapply same_entry; [done|done|apply updated_in|done]).
    unfold phase_at in Hxp. unfold flying in Hfly. by destruct (en_phase e).
  - intros x [Hx _]%delete_In Hf. by apply Hgr.
  - unfold catchup_ok in *. cbn [put_entries rg_draft_catchup].
    destruct (rg_draft_catchup r) as [[key|key|key dg]|] eqn:Ed; [| | |done].
    1, 3: destruct Hcat as (H1 & H2 & H3 & H4); split; [done|]; split; [done|]; split; [|done];
      intros x [Hx _]%delete_In; by apply H3.
    destruct Hcat as (b & H1 & H2 & H3 & H4 & H5 & H6). exists b. do 5 (split; [done|]).
    intros x [Hx _]%delete_In. by apply H6.
Qed.
End update.
