(* ===== verification/RegistryOps.v ===== *)
(** The operations of the serving registry, one by one: the state and value of
    each on success, nothing changed on an error, no panic, and the invariant
    kept. *)
From S2P Require Import Prelude Spec PlanSelection Platform Registry RegistryFacts RegistryInv.
From S2P Require Scheduler SpecLoop M1Completion.
Local Open Scope prog_scope.

(** ** Roster changes *)
Section roster.
Context (C : N) (r : M1ServingRegistryV1).
Hypothesis Hok : registry_ok C r.

Lemma admit_request_wp q p :
  wp (admit_request C q p) r (fun r' o => match o with
    | Ok _ => rg_reservation r = None /\ generation q <> 0 /\ plan_mode p = Graph.Prefill /\
        (q ∉ (en_request <$> rg_entries r)) /\ vlen (rg_entries r) < C /\
        r' = put_entries (rg_entries r ++ [fresh_entry p q]) r
    | Err _ => r' = r /\ ~ (rg_reservation r = None /\ generation q <> 0 /\ plan_mode p = Graph.Prefill /\
        (q ∉ (en_request <$> rg_entries r)) /\ vlen (rg_entries r) < C)
    end).
Proof using Hok.
  unfold admit_request. apply wp_live; [naive_solver|]. intros Hr. wp_step. wp_step. change (id r) with r.
  destruct (N.eqb_spec (generation q) 0) as [Hg|Hg]; [apply wp_ret; naive_solver|].
  case_bool_decide as Hp; cbn [negb]; [|apply wp_ret; naive_solver].
  destruct (find_entry r q) as [x|] eqn:Hf; cbn [is_some].
  { apply wp_ret. split; [done|]. intros (_ & _ & _ & Hn%find_entry_None & _). congruence. }
  destruct (N.eqb_spec (vlen (rg_entries r)) C) as [Hc|Hc].
  { apply wp_ret. split; [done|]. intros (_ & _ & _ & _ & ?). lia. }
  wp_step. apply wp_ret. apply find_entry_None in Hf. pose proof (ro_count _ _ Hok). split_and?; try done. lia.
Qed.

(** A method that needs the entry of [q]: none, or the one there is. *)
Lemma find_entry_cases q :
  (find_entry r q = None /\ forall i e, rg_entries r !! i = Some e -> en_request e <> q) \/
  exists i e, find_entry r q = Some (i, e) /\ rg_entries r !! i = Some e /\ en_request e = q /\
    forall i' e', rg_entries r !! i' = Some e' -> en_request e' = q -> e' = e.
Proof using Hok.
  destruct (find_entry r q) as [[i e]|] eqn:Hf; [right|left].
  - destruct (find_entry_Some _ _ _ _ Hf) as [Hi Hq]. exists i, e. do 3 (split; [done|]). intros i' e' Hi' <-.
    pose proof (find_entry_lookup r i' e' (ro_requests _ _ Hok) Hi'). congruence.
  - split; [done|]. intros i e Hi <-. apply find_entry_None in Hf. apply Hf. apply list_elem_of_fmap_2.
    by eapply list_elem_of_lookup_2.
Qed.

Lemma admit_ok q p :
  rg_reservation r = None -> generation q <> 0 -> plan_ok p -> plan_mode p = Graph.Prefill ->
  (q ∉ (en_request <$> rg_entries r)) -> vlen (rg_entries r) < C ->
  registry_ok C (put_entries (rg_entries r ++ [fresh_entry p q]) r).
Proof using Hok.
  intros Hr Hg Hp Hm Hq Hc. pose proof Hok as [Hcap Hn Hnd Hes Hb Hep Hfl Hgr Hres Hcat].
  assert (Hin : forall x, x ∈ rg_entries r ++ [fresh_entry p q] -> x ∈ rg_entries r \/ x = fresh_entry p q).
  { intros x [Hx|Hx]%elem_of_app; [by left|right]. by apply list_elem_of_singleton in Hx. }
  split; cbn [put_entries rg_entries rg_completed_epoch rg_submitted_epoch rg_in_flight rg_bound_plan
    rg_reservation rg_next_reservation_id]; try done.
  - rewrite vlen_app. change (vlen [fresh_entry p q]) with 1. lia.
  - rewrite fmap_app. apply NoDup_app. split; [done|]. split; [|apply NoDup_singleton].
    intros x Hx Hx'. apply list_elem_of_singleton in Hx' as ->. done.
  - apply Forall_app. split; [done|]. apply Forall_singleton. by split.
  - intros b Hfb. destruct (Hfl b Hfb) as [Hrb [F1 F2 F3 F4 F5]]. split; [done|]. split; try done.
    cbn [put_entries rg_entries]. intros y Hy. destruct (F4 y Hy) as (x & Hx & ?). exists x. split; [|done].
    apply elem_of_app. by left.
  - intros x [Hx| ->]%Hin Hf; [by apply Hgr|done].
  - assert (Hnew : forall key parent, rg_bound_plan r = Some parent -> valid_for key parent = true ->
      sp_target p <> key_parent key).
    { intros key parent _ Hv E. unfold valid_for in Hv. rewrite !andb_true_iff, !bool_decide_eq_true in Hv.
      destruct Hv as [[[[[[[[[[[H1 H2] _] _] _] _] _] _] _] _] _] _]. unfold plan_mode in *. congruence. }
    unfold catchup_ok in *. cbn [put_entries rg_draft_catchup].
    destruct (rg_draft_catchup r) as [[key|key|key dg]|] eqn:Ed; [| | |done].
    1, 3: destruct Hcat as (H1 & H2 & H3 & parent & H4 & H5); split; [done|]; split; [done|];
      split; [|by exists parent]; intros x [Hx| ->]%Hin Hxq Hxr Hxt; [by apply H3|]; by destruct (Hnew _ _ H4 H5).
    destruct Hcat as (b & H1 & H2 & H3 & H4 & H5 & H6). exists b. do 5 (split; [done|]).
    intros x [Hx| ->]%Hin Hxq; [by apply H6|]. exfalso. apply Hq.
    destruct (Hfl _ H1) as [_ Hfo]. destruct (fo_members _ _ _ Hfo (key_request key)) as (y & Hy & Hyq & _).
    { rewrite H2. by left. }
    cbn in Hxq. rewrite Hxq, <- Hyq. by apply list_elem_of_fmap_2.
Qed.

Definition cancelled_phase (e : M1ServingEntryV1) : M1ServingRequestPhaseV1 :=
  match en_phase e with
  | PhaseInFlight ep => PhaseCancellationPending ep
  | _ => PhaseRetired (quiescence_of (en_last_quiescence e))
  end.

Lemma cancel_wp q :
  wp (cancel q) r (fun r' o => match o with
    | Ok ph => rg_reservation r = None /\ exists i e, rg_entries r !! i = Some e /\ en_request e = q /\
        (en_phase e = PhaseReady \/ exists ep, en_phase e = PhaseInFlight ep) /\
        ph = cancelled_phase e /\
        r' = put_entries (<[i := set_phase (cancelled_phase e) e]> (rg_entries r)) r
    | Err _ => r' = r /\ (rg_reservation r = None -> forall i e, rg_entries r !! i = Some e -> en_request e = q ->
        ~ (en_phase e = PhaseReady \/ exists ep, en_phase e = PhaseInFlight ep))
    end).
Proof using Hok.
  unfold cancel. apply wp_live; [naive_solver|]. intros Hr. wp_step. wp_step. change (id r) with r.
  destruct (find_entry_cases q) as [[-> Hno]|(i & e & -> & Hi & Hq & Hone)]; [apply wp_ret; naive_solver|].
  unfold cancelled_phase.
  destruct (en_phase e) as [|ep|ep|qu] eqn:Hph;
    [| |apply wp_ret; (split; [done|]; intros _ i' e' Hi' Hq'; rewrite (Hone i' e' Hi' Hq'), Hph; naive_solver)..].
  - unfold put_entry. wp_step. wp_step. apply wp_ret. split; [done|]. exists i, e. rewrite Hph. eauto 10.
  - unfold put_entry. wp_step. wp_step. apply wp_ret. split; [done|]. exists i, e. rewrite Hph. eauto 10.
Qed.

Lemma cancel_ok i e :
  rg_entries r !! i = Some e -> en_phase e = PhaseReady \/ (exists ep, en_phase e = PhaseInFlight ep) ->
  registry_ok C (put_entries (<[i := set_phase (cancelled_phase e) e]> (rg_entries r)) r).
Proof using Hok.
  intros Hi Hph. pose proof (entry_in _ _ _ Hok (updated_in _ _ _ Hi)) as [He1 He2 He3 He4].
  apply (update_ok C r i e Hok Hi); try done.
  - split; try done. cbn [set_phase en_phase en_last_quiescence]. unfold cancelled_phase. intros qu.
    destruct Hph as [->|[ep ->]]; [by intros [= <-]|done].
  - unfold flying, cancelled_phase. cbn [set_phase en_phase]. by destruct Hph as [->|[ep ->]].
  - intros ep. unfold phase_at, cancelled_phase. cbn [set_phase en_phase]. by destruct Hph as [->|[ep' ->]].
  - right. unfold cancelled_phase. cbn [set_phase en_phase]. by destruct Hph as [->|[ep ->]].
Qed.

Lemma transition_wp q next :
  wp (transition q next) r (fun r' o => match o with
    | Ok _ => rg_reservation r = None /\ rg_draft_catchup r = None /\ exists i e, rg_entries r !! i = Some e /\
        en_request e = q /\ en_phase e = PhaseReady /\ is_Some (en_last_quiescence e) /\
        validate_plan_transition (en_plan e) next = Ok tt /\
        r' = put_entries (<[i := mkEntry q next PhaseReady (en_last_quiescence e)]> (rg_entries r)) r
    | Err _ => r' = r /\ (rg_reservation r = None -> rg_draft_catchup r = None -> forall i e,
        rg_entries r !! i = Some e -> en_request e = q -> en_phase e = PhaseReady ->
        is_Some (en_last_quiescence e) -> validate_plan_transition (en_plan e) next <> Ok tt)
    end).
Proof using Hok.
  unfold transition. apply wp_live; [naive_solver|]. intros Hr. wp_step. wp_step. change (id r) with r.
  destruct (rg_draft_catchup r) as [ph|] eqn:Hd; cbn [is_some]; [apply wp_ret; naive_solver|].
  destruct (find_entry_cases q) as [[-> Hno]|(i & e & -> & Hi & Hq & Hone)]; [apply wp_ret; naive_solver|].
  destruct (is_ready e) eqn:Hrd; cbn [negb orb].
  2:{ apply wp_ret. split; [done|]. intros _ _ i' e' Hi' Hq' Hph. rewrite (Hone i' e' Hi' Hq') in *.
      apply bool_decide_eq_false in Hrd. done. }
  apply bool_decide_eq_true in Hrd.
  destruct (en_last_quiescence e) as [ep|] eqn:Hl; cbn [is_some negb].
  2:{ apply wp_ret. split; [done|]. intros _ _ i' e' Hi' Hq' _ [x Hx]. rewrite (Hone i' e' Hi' Hq') in *. congruence. }
  destruct (validate_plan_transition (en_plan e) next) as [[]|err] eqn:Ht.
  2:{ apply wp_ret. split; [done|]. intros _ _ i' e' Hi' Hq' _ _. rewrite (Hone i' e' Hi' Hq') in *. congruence. }
  unfold put_entry. wp_step. wp_step. apply wp_ret. split; [done|]. split; [done|]. exists i, e.
  rewrite Hq, Hrd, Hl. eauto 10.
Qed.

Lemma transition_ok i e next :
  rg_entries r !! i = Some e -> en_phase e = PhaseReady -> rg_draft_catchup r = None -> plan_ok next ->
  registry_ok C (put_entries (<[i := mkEntry (en_request e) next PhaseReady (en_last_quiescence e)]> (rg_entries r)) r).
Proof using Hok.
  intros Hi Hph Hd Hp. pose proof (entry_in _ _ _ Hok (updated_in _ _ _ Hi)) as [He1 He2 He3 He4].
  apply (update_ok C r i e Hok Hi); try done.
  - unfold flying. by rewrite Hph.
  - intros ep. unfold phase_at. by rewrite Hph.
  - unfold flying. by rewrite Hph.
  - by left.
Qed.

Lemma remove_wp q :
  wp (remove_retired q) r (fun r' o => match o with
    | Ok qu => rg_reservation r = None /\ exists i e, rg_entries r !! i = Some e /\ en_request e = q /\
        en_phase e = PhaseRetired qu /\ r' = put_entries (delete i (rg_entries r)) r
    | Err _ => r' = r /\ (rg_reservation r = None -> forall i e qu, rg_entries r !! i = Some e ->
        en_request e = q -> en_phase e <> PhaseRetired qu)
    end).
Proof using Hok.
  unfold remove_retired. apply wp_live; [naive_solver|]. intros Hr. wp_step. wp_step. change (id r) with r.
  destruct (find_entry_cases q) as [[-> Hno]|(i & e & -> & Hi & Hq & Hone)]; [apply wp_ret; naive_solver|].
  destruct (en_phase e) as [|ep|ep|qu] eqn:Hph;
    [apply wp_ret; (split; [done|]; intros _ i' e' qu' Hi' Hq'; by rewrite (Hone i' e' Hi' Hq'), Hph)..|].
  wp_step. wp_step. apply wp_ret. split; [done|]. exists i, e. done.
Qed.

Lemma remove_ok i e qu :
  rg_entries r !! i = Some e -> en_phase e = PhaseRetired qu ->
  registry_ok C (put_entries (delete i (rg_entries r)) r).
Proof using Hok. intros Hi Hph. eapply delete_ok; [done|done|]. unfold flying. by rewrite Hph. Qed.

Lemma retirement_wp bound :
  wp (record_quiescent_queue_retirement bound) r (fun r' o => match o with
    | Ok _ => rg_reservation r = None /\ rg_in_flight r = None /\ rg_bound_plan r = Some bound /\
        ready_work_needs_bound_queue r bound = false /\ r' = put_draft_catchup None (put_bound_plan None r)
    | Err _ => r' = r /\ ~ (rg_reservation r = None /\ rg_in_flight r = None /\ rg_bound_plan r = Some bound /\
        ready_work_needs_bound_queue r bound = false)
    end).
Proof.
  unfold record_quiescent_queue_retirement. apply wp_live; [naive_solver|]. intros Hr. wp_step. wp_step. change (id r) with r.
  destruct (rg_in_flight r) as [b|] eqn:Hf; cbn [is_some]; [apply wp_ret; naive_solver|].
  case_bool_decide as Hb; cbn [negb]; [|apply wp_ret; naive_solver].
  destruct (ready_work_needs_bound_queue r bound) eqn:Hn; [apply wp_ret; naive_solver|].
  wp_step. wp_step. wp_step. wp_step. apply wp_ret. done.
Qed.

Lemma retirement_ok : rg_in_flight r = None -> registry_ok C (put_draft_catchup None (put_bound_plan None r)).
Proof using Hok.
  intros Hf. pose proof Hok as [Hcap Hn Hnd Hes Hb Hep Hfl Hgr Hres Hcat].
  split; cbn [put_draft_catchup put_bound_plan rg_entries rg_completed_epoch rg_submitted_epoch rg_in_flight
    rg_bound_plan rg_reservation rg_next_reservation_id]; try done.
  intros b Hfb. congruence.
Qed.
End roster.

(** ** Reservations *)

(** The registry with a batch reserved under its next identity. *)
Definition reserved (r : M1ServingRegistryV1) (batch : M1ServingBatchPlanV1)
    (key : option M1ServingDraftCatchupKeyV1) : M1ServingRegistryV1 :=
  put_next_reservation_id (rg_next_reservation_id r + 1)
    (put_reservation (Some (mkReserved (rg_next_reservation_id r) (bp_plan batch) (bp_epoch batch)
       (bp_action batch) key)) r).

Definition token_of (r : M1ServingRegistryV1) (batch : M1ServingBatchPlanV1) : M1ServingPublicationReservationV1 :=
  mkReservation (rg_identity r) (rg_next_reservation_id r) batch.

Definition ordinary (action : M1ServingQueueActionV1) : bool :=
  match action with QuiescentDraftCatchup _ | QuiescentDraftCatchupRestore _ => false | _ => true end.

Section reserve.
Context {P : Platform} {HP : PlatformLaws P} (C : N) (r : M1ServingRegistryV1).
Hypothesis Hok : registry_ok C r.

Lemma reserve_validated_wp batch key :
  wp (reserve_validated_batch batch key) r (fun r' o => match o with
    | Ok token => rg_next_reservation_id r < u64_max /\ token = token_of r batch /\ r' = reserved r batch key
    | Err e => r' = r /\ e = PublicationReservationExhausted /\ u64_max <= rg_next_reservation_id r
    end).
Proof.
  unfold reserve_validated_batch. wp_step. wp_step. change (id r) with r. unfold checked_add.
  destruct (N.leb_spec (rg_next_reservation_id r + 1) u64_max) as [H|H].
  - wp_step. wp_step. wp_step. wp_step. apply wp_ret. split; [lia|done].
  - apply wp_ret. split; [done|]. split; [done|lia].
Qed.

(** The batch that a quiescent registry plans. *)
Definition planned (batch : M1ServingBatchPlanV1) : Prop := plan_next C r = Ok (Some batch).

Lemma planned_fields batch : planned batch ->
  rg_reservation r = None /\ rg_in_flight r = None /\ next_ready_plan r = Some (bp_plan batch) /\
  bp_requests batch = due_roster C r (bp_plan batch) /\ due_ready C r (bp_plan batch) /\
  bp_epoch batch = Completion.mkEpoch (rg_submitted_epoch r + 1) /\ rg_submitted_epoch r < u64_max /\
  classify_next_queue_action r (bp_plan batch) = Ok (bp_action batch) /\ plan_ok (bp_plan batch).
Proof using HP Hok.
  unfold planned. intros Hpl. pose proof Hpl as Hpl'. pose proof (entries_plan_ok _ _ Hok) as Hplans.
  unfold plan_next in Hpl'. unfold reject_live_reservation in Hpl'.
  destruct (rg_reservation r) eqn:Hr; [done|]. destruct (rg_in_flight r) eqn:Hf; cbn [is_some] in Hpl'; [done|].
  apply (validate_next_batch_spec C r batch (ro_capacity _ _ Hok) Hplans) in Hpl;
    [|by unfold reject_live_reservation; rewrite Hr|done].
  unfold validate_next_batch in Hpl. destruct (next_ready_plan r) as [p|] eqn:Hn; [|done].
  unfold checked_add in Hpl. destruct (N.leb_spec (rg_submitted_epoch r + 1) u64_max); [|done].
  destruct (classify_next_queue_action r p) as [act|] eqn:Hact; [|done].
  destruct (decide (bp_plan batch = p)) as [Ep|Ep]; [|by rewrite (bool_decide_false _ Ep) in Hpl].
  destruct (decide (bp_epoch batch = Completion.mkEpoch (rg_submitted_epoch r + 1))) as [Ee|Ee];
    [|rewrite (bool_decide_false _ Ee), orb_true_r in Hpl; done].
  destruct (decide (bp_action batch = act)) as [Ea|Ea]; [|rewrite (bool_decide_false _ Ea), orb_true_r in Hpl; done].
  rewrite !bool_decide_true in Hpl by done. cbn [negb orb] in Hpl. apply validate_ready_roster_spec in Hpl as [H1 H2].
  apply next_ready_plan_Some in Hn as (e & Hin & _ & He). rewrite Forall_forall in Hplans.
  split_and?; try done; [congruence|lia|congruence|]. rewrite Ep, <- He. by apply Hplans.
Qed.

Lemma reserve_wp batch :
  wp (reserve_publication C batch) r (fun r' o => match o with
    | Ok token => planned batch /\ ordinary (bp_action batch) = true /\
        rg_next_reservation_id r < u64_max /\ token = token_of r batch /\ r' = reserved r batch None
    | Err e => r' = r /\ (planned batch -> ordinary (bp_action batch) = true ->
        rg_next_reservation_id r < u64_max -> False)
    end).
Proof using HP Hok.
  unfold reserve_publication. apply wp_live.
  { intros Hr. split; [done|]. intros [Hr' _]%planned_fields. done. }
  intros Hr. wp_step. wp_step. change (id r) with r.
  destruct (rg_in_flight r) as [b|] eqn:Hf; cbn [is_some].
  { apply wp_ret. split; [done|]. intros (_ & Hf' & _)%planned_fields. congruence. }
  assert (Hmain : ordinary (bp_action batch) = true ->
    wp (let? _ := lift (validate_next_batch C r batch) in reserve_validated_batch batch None) r
      (fun r' o => match o with
        | Ok token => planned batch /\ ordinary (bp_action batch) = true /\
            rg_next_reservation_id r < u64_max /\ token = token_of r batch /\ r' = reserved r batch None
        | Err e => r' = r /\ (planned batch -> ordinary (bp_action batch) = true ->
            rg_next_reservation_id r < u64_max -> False)
        end)).
  { intros Ho. pose proof (validate_next_batch_spec C r batch (ro_capacity _ _ Hok) (entries_plan_ok _ _ Hok)
      ltac:(by unfold reject_live_reservation; rewrite Hr) Hf) as Hv.
    apply wp_lift.
    - intros e He. split; [done|]. intros Hpl _ _. apply Hv in Hpl. congruence.
    - intros [] Hu. eapply wp_mono; [apply reserve_validated_wp|]. intros r' [token|e].
      + intros (? & -> & ->). by apply Hv in Hu.
      + intros (-> & _ & ?). split; [done|]. intros _ _ ?. lia. }
  destruct (bp_action batch) eqn:Hact; try (by apply Hmain); apply wp_ret; (split; [done|]; by intros _ [=]).
Qed.

Lemma reserved_ok batch key :
  rg_in_flight r = None -> plan_ok (bp_plan batch) ->
  bp_epoch batch = Completion.mkEpoch (rg_submitted_epoch r + 1) -> rg_submitted_epoch r < u64_max ->
  registry_ok C (reserved r batch key).
Proof using Hok.
  intros Hf Hp He Hs. pose proof Hok as [Hcap Hn Hnd Hes Hb Hep Hfl Hgr Hres Hcat].
  split; cbn [reserved put_next_reservation_id put_reservation rg_entries rg_completed_epoch rg_submitted_epoch
    rg_in_flight rg_bound_plan rg_reservation rg_next_reservation_id]; try done.
  - intros b Hfb. congruence.
  - intros live [= <-]. cbn. rewrite He. cbn. split_and!; [lia|done|done|done].
Qed.

Lemma planned_reserved_ok batch key : planned batch -> registry_ok C (reserved r batch key).
Proof using HP Hok. intros (_ & Hf & _ & _ & _ & He & Hs & _ & Hp)%planned_fields. by apply reserved_ok. Qed.

Lemma register_wp key :
  wp (register_draft_catchup_key key) r (fun r' o => match o with
    | Ok _ => rg_reservation r = None /\ rg_in_flight r = None /\ rg_draft_catchup r = None /\
        (exists parent, rg_bound_plan r = Some parent /\
           validate_draft_catchup_ready_key r parent key = Ok tt) /\
        r' = put_draft_catchup (Some (CatchupPending key)) r
    | Err _ => r' = r /\ ~ (rg_reservation r = None /\ rg_in_flight r = None /\ rg_draft_catchup r = None /\
        exists parent, rg_bound_plan r = Some parent /\ validate_draft_catchup_ready_key r parent key = Ok tt)
    end).
Proof.
  unfold register_draft_catchup_key. apply wp_live; [naive_solver|]. intros Hr. wp_step. wp_step. change (id r) with r.
  destruct (rg_in_flight r) as [b|] eqn:Hf; cbn [is_some]; [apply wp_ret; naive_solver|].
  destruct (rg_draft_catchup r) as [ph|] eqn:Hd; cbn [is_some]; [apply wp_ret; naive_solver|].
  destruct (rg_bound_plan r) as [parent|] eqn:Hb; [|apply wp_ret; naive_solver].
  apply wp_lift; [intros e He; split; [done|]; intros (_ & _ & _ & p & [= <-] & ?); congruence|]. intros [] Hv. wp_step. wp_step. apply wp_ret. split_and?; try done. by exists parent.
Qed.

Lemma ready_key_fields parent key :
  validate_draft_catchup_ready_key r parent key = Ok tt <->
  valid_for key parent = true /\ rg_bound_plan r = Some parent /\
  rg_submitted_epoch r = Completion.value (key_prior_epoch key) /\
  rg_completed_epoch r = Completion.value (key_prior_epoch key) /\
  exists e, e ∈ rg_entries r /\ en_request e = key_request key /\ en_phase e = PhaseReady /\
    en_plan e = parent /\ en_last_quiescence e = Some (key_prior_epoch key).
Proof using Hok.
  unfold validate_draft_catchup_ready_key. set (b := is_some _).
  assert (Hb : b = true <-> exists e, e ∈ rg_entries r /\ en_request e = key_request key /\
    en_phase e = PhaseReady /\ en_plan e = parent /\ en_last_quiescence e = Some (key_prior_epoch key)).
  { subst b. rewrite is_some_ready_entry by apply Hok. setoid_rewrite andb_true_iff.
    by setoid_rewrite bool_decide_eq_true. }
  rewrite <- Hb. clear Hb. destruct (valid_for key parent); cbn [negb orb]; [|naive_solver].
  case_bool_decide; cbn [negb orb]; [|naive_solver].
  destruct (N.eqb_spec (rg_submitted_epoch r) (Completion.value (key_prior_epoch key))); cbn [negb orb]; [|naive_solver].
  destruct (N.eqb_spec (rg_completed_epoch r) (Completion.value (key_prior_epoch key))); cbn [negb orb]; [|naive_solver].
  destruct b; cbn [negb]; naive_solver.
Qed.

Lemma register_ok key :
  rg_in_flight r = None ->
  (exists parent, rg_bound_plan r = Some parent /\ validate_draft_catchup_ready_key r parent key = Ok tt) ->
  registry_ok C (put_draft_catchup (Some (CatchupPending key)) r).
Proof using Hok.
  intros Hf (parent & Hb & (Hv & _ & Hs & Hc & e & Hin & Hq & _ & _ & Hl)%ready_key_fields).
  pose proof Hok as [? ? ? ? ? ? ? ? ? _]. split; try done.
  { intros b Hfb. cbn in Hfb. congruence. }
  unfold catchup_ok. cbn [put_draft_catchup rg_draft_catchup]. split; [done|]. split; [done|]. split; [|by exists parent].
  intros x Hx Hxq _ _. by rewrite (same_entry C r x e) by (done || congruence).
Qed.
End reserve.

(** ** Draft catch-up reservations *)
Section catchup.
Context {P : Platform} {HP : PlatformLaws P} (C : N) (r : M1ServingRegistryV1).
Hypothesis Hok : registry_ok C r.

Lemma start_fields batch key :
  validate_draft_catchup_start r batch key = Ok tt <->
  rg_draft_catchup r = Some (CatchupPending key) /\
  bp_action batch = QuiescentDraftCatchup (bp_plan batch) /\ bp_requests batch = [key_request key] /\
  bp_epoch batch = key_epoch key /\ validate_draft_catchup_ready_key r (bp_plan batch) key = Ok tt.
Proof.
  unfold validate_draft_catchup_start.
  repeat (case_bool_decide; cbn [negb orb]; [|naive_solver]). naive_solver.
Qed.

Lemma reserve_catchup_wp batch key :
  wp (reserve_draft_catchup_key C batch key) r (fun r' o => match o with
    | Ok token => planned C r batch /\ validate_draft_catchup_start r batch key = Ok tt /\
        rg_next_reservation_id r < u64_max /\ token = token_of r batch /\ r' = reserved r batch (Some key)
    | Err _ => r' = r /\ ~ (planned C r batch /\ validate_draft_catchup_start r batch key = Ok tt /\
        rg_next_reservation_id r < u64_max)
    end).
Proof using HP Hok.
  unfold reserve_draft_catchup_key. apply wp_live.
  { intros Hr. split; [done|]. intros [(? & _)%(planned_fields C r Hok) _]. done. }
  intros Hr. wp_step. wp_step. change (id r) with r.
  destruct (rg_in_flight r) as [b|] eqn:Hf; cbn [is_some].
  { apply wp_ret. split; [done|]. intros [(_ & ? & _)%(planned_fields C r Hok) _]. congruence. }
  pose proof (validate_next_batch_spec C r batch (ro_capacity _ _ Hok) (entries_plan_ok _ _ Hok)
      ltac:(by unfold reject_live_reservation; rewrite Hr) Hf) as Hv.
  apply wp_lift; [intros e He; split; [done|]; intros [Hp _]; apply Hv in Hp; congruence|].
  intros [] Hu. apply wp_lift; [intros e He; split; [done|]; intros (_ & Hp & _); congruence|]. intros [] Hs.
  eapply wp_mono; [apply reserve_validated_wp|]. intros r' [token|e].
  - intros (? & -> & ->). by apply Hv in Hu.
  - intros (-> & _ & ?). split; [done|]. intros (_ & _ & ?). lia.
Qed.

Lemma reserve_restore_wp batch key dg :
  wp (reserve_draft_catchup_restore_key C batch key dg) r (fun r' o => match o with
    | Ok token => planned C r batch /\ rg_draft_catchup r = Some (CatchupCompleted key dg) /\
        bp_requests batch = [key_request key] /\ sp_target (bp_plan batch) = key_parent key /\
        rg_next_reservation_id r < u64_max /\ token = token_of r batch /\ r' = reserved r batch None
    | Err _ => r' = r /\ ~ (planned C r batch /\ rg_draft_catchup r = Some (CatchupCompleted key dg) /\
        bp_requests batch = [key_request key] /\ sp_target (bp_plan batch) = key_parent key /\
        rg_next_reservation_id r < u64_max)
    end).
Proof using HP Hok.
  unfold reserve_draft_catchup_restore_key. apply wp_live.
  { intros Hr. split; [done|]. intros [(? & _)%(planned_fields C r Hok) _]. done. }
  intros Hr. wp_step. wp_step. change (id r) with r.
  destruct (rg_in_flight r) as [b|] eqn:Hf; cbn [is_some].
  { apply wp_ret. split; [done|]. intros [(_ & ? & _)%(planned_fields C r Hok) _]. congruence. }
  case_bool_decide as H1; cbn [negb orb]; [|apply wp_ret; naive_solver].
  case_bool_decide as H2; cbn [negb orb]; [|apply wp_ret; naive_solver].
  case_bool_decide as H3; cbn [negb orb]; [|apply wp_ret; naive_solver].
  pose proof (validate_next_batch_spec C r batch (ro_capacity _ _ Hok) (entries_plan_ok _ _ Hok)
      ltac:(by unfold reject_live_reservation; rewrite Hr) Hf) as Hv.
  apply wp_lift; [intros e He; split; [done|]; intros [Hp _]; apply Hv in Hp; congruence|]. intros [] Hu.
  eapply wp_mono; [apply reserve_validated_wp|]. intros r' [token|e].
  - intros (? & -> & ->). apply Hv in Hu. done.
  - intros (-> & _ & ?). split; [done|]. intros (_ & _ & _ & _ & ?). lia.
Qed.
End catchup.

(** ** Publication *)
Section publication.
Context {P : Platform} {HP : PlatformLaws P} (C : N) (r : M1ServingRegistryV1).
Hypothesis Hok : registry_ok C r.

Lemma due_member p q :
  due_ready C r p -> q ∈ due_roster C r p ->
  exists e, e ∈ rg_entries r /\ en_request e = q /\ en_phase e = PhaseReady /\ en_plan e = p.
Proof using Hok.
  unfold due_ready, due_roster. destruct (rg_draft_catchup r) as [ph|].
  - intros Hr ->%list_elem_of_singleton. unfold catchup_ready in Hr.
    apply is_some_ready_entry in Hr as (e & ? & ? & ? & H%bool_decide_eq_true); [|apply Hok]. by exists e.
  - intros _ (e & -> & (? & ? & ?)%ready_of_plan_In)%list_elem_of_fmap. by exists e.
Qed.

Lemma filter_sublist {A} (f : A -> bool) l : List.filter f l `sublist_of` l.
Proof. induction l as [|x l IH]; [done|]. cbn. destruct (f x); by constructor. Qed.

Lemma due_roster_ok p :
  due_ready C r p -> 1 <= sp_sequence_capacity p ->
  NoDup (due_roster C r p) /\ 1 <= vlen (due_roster C r p) <= N.min C (sp_sequence_capacity p).
Proof using Hok.
  intros Hd Hp. pose proof (ro_capacity _ _ Hok). pose proof (ro_requests _ _ Hok) as Hnd.
  revert Hd. unfold due_ready, due_roster. destruct (rg_draft_catchup r) as [ph|].
  - intros _. split; [apply NoDup_singleton|]. change (vlen [key_request (catchup_key ph)]) with 1. lia.
  - intros Hne. split.
    + eapply sublist_NoDup; [exact Hnd|]. apply fmap_sublist. unfold ready_of_plan.
      etransitivity; [apply sublist_take|apply filter_sublist].
    + pose proof (ready_of_plan_length r p (N.min C (sp_sequence_capacity p))) as Hl.
      destruct (ready_of_plan r p _) as [|e l]; [done|]. unfold vlen in *. rewrite length_fmap.
      cbn [length] in *. lia.
Qed.

Record live_token (token : M1ServingPublicationReservationV1) (live : M1ServingReservedBatchV1) : Prop := {
  lt_identity : pr_registry_identity token = rg_identity r;
  lt_in_flight : rg_in_flight r = None;
  lt_live : rg_reservation r = Some live;
  lt_id : rv_id live = pr_id token;
  lt_plan : rv_plan live = bp_plan (pr_batch token);
  lt_epoch : rv_epoch live = bp_epoch (pr_batch token);
  lt_action : rv_action live = bp_action (pr_batch token);
  lt_reserved : validate_reserved_action C r live (pr_batch token) = Ok tt;
  lt_requests : bp_requests (pr_batch token) = due_roster C r (bp_plan (pr_batch token));
  lt_ready : due_ready C r (bp_plan (pr_batch token))
}.

Lemma validate_reservation_spec token :
  validate_reservation C r token = Ok tt <-> exists live, live_token token live.
Proof using Hok.
  unfold validate_reservation. split.
  - destruct (N.eqb_spec (pr_registry_identity token) (rg_identity r)); cbn [negb]; [|done].
    destruct (rg_in_flight r) eqn:Hf; cbn [is_some]; [done|].
    destruct (rg_reservation r) as [live|] eqn:Hr; [|done].
    destruct (N.eqb_spec (rv_id live) (pr_id token)); cbn [negb orb]; [|done].
    repeat (case_bool_decide; cbn [negb orb]; [|done]).
    destruct (N.eqb_spec (Completion.value (bp_epoch (pr_batch token))) (saturating_succ u64_max (rg_submitted_epoch r)));
      cbn [negb]; [|done].
    destruct (validate_reserved_action C r live (pr_batch token)) as [[]|] eqn:Ha; [|done].
    intros [Hrq Hrd]%validate_ready_roster_spec. exists live. by split.
  - intros [live [H1 H2 H3 H4 H5 H6 H7 H8 H9 H10]]. rewrite H1, N.eqb_refl, H2, H3, H4, N.eqb_refl.
    cbn [is_some negb orb]. rewrite !bool_decide_true by done. cbn [negb orb].
    destruct (ro_reserved _ _ Hok _ H3) as (_ & He & Hs & _). rewrite H6 in He.
    unfold saturating_succ. rewrite He, N.min_l by lia. rewrite N.eqb_refl. cbn [negb]. rewrite H8.
    by apply validate_ready_roster_spec.
Qed.

(** The registry after a publication. *)
Definition recorded (batch : M1ServingBatchPlanV1) (catchup : option M1ServingDraftCatchupPhaseV1) :
    M1ServingRegistryV1 :=
  mkRegistry (rg_identity r) (launch (bp_requests batch) (bp_epoch batch) <$> rg_entries r)
    (Some (bp_plan batch)) None (Some (mkInFlight (bp_plan batch) (bp_requests batch) (bp_epoch batch)))
    catchup (rg_next_reservation_id r) (Completion.value (bp_epoch batch)) (rg_completed_epoch r).

Definition next_catchup (live : M1ServingReservedBatchV1) : option M1ServingDraftCatchupPhaseV1 :=
  match rv_action live with
  | QuiescentDraftCatchup _ => CatchupInFlight <$> rv_draft_catchup live
  | _ => None
  end.

Lemma abort_wp token :
  wp (abort_publication C token) r (fun r' o => match o with
    | Ok _ => (exists live, live_token token live) /\ r' = put_reservation None r
    | Err (e, token') => r' = r /\ token' = token /\ (forall live, ~ live_token token live)
    end).
Proof using Hok.
  unfold abort_publication. wp_step. wp_step. change (id r) with r.
  pose proof (validate_reservation_spec token) as Hv.
  destruct (validate_reservation C r token) as [[]|e].
  - wp_step. wp_step. apply wp_ret. split; [by apply Hv|done].
  - apply wp_ret. split; [done|]. split; [done|]. intros live Hl.
    discriminate (proj2 Hv (ex_intro _ live Hl)).
Qed.

Lemma record_wp token :
  wp (record_publication C token) r (fun r' o => match o with
    | Ok _ => exists live, live_token token live /\ r' = recorded (pr_batch token) (next_catchup live)
    | Err (e, token') => r' = r /\ token' = token /\ (forall live, ~ live_token token live)
    end).
Proof using Hok.
  unfold record_publication. wp_step. wp_step. change (id r) with r.
  pose proof (validate_reservation_spec token) as Hv.
  destruct (validate_reservation C r token) as [[]|e].
  2:{ apply wp_ret. split; [done|]. split; [done|]. intros live Hl. discriminate (proj2 Hv (ex_intro _ live Hl)). }
  destruct (proj1 Hv eq_refl) as [live Hl]. pose proof Hl as [_ _ Hres _ _ _ Hact Hra _ _]. rewrite Hres.
  unfold validate_reserved_action in Hra. unfold bind_batch.
  destruct (bp_action (pr_batch token)) as [| |parent|parent|prior next reason|prior next] eqn:Ea;
    try (destruct (is_some (rv_draft_catchup live)); cbn [orb] in Hra; [done|];
      destruct (rg_draft_catchup r) eqn:Hd; cbn [is_some] in Hra; [done|];
      wp_steps; exists live; split; [done|]; unfold next_catchup, recorded; rewrite Hact; by rewrite <- Hd).
  - destruct (rv_draft_catchup live) as [key|] eqn:Hk; [|done]. wp_steps. exists live.
    split; [done|]. unfold next_catchup. by rewrite Hact, Hk.
  - wp_steps. exists live. split; [done|]. unfold next_catchup. by rewrite Hact.
Qed.
End publication.
