(* ===== verification/RegistryRounds.v ===== *)
(** Publication and completion of the serving registry: what an accepted batch
    leaves, that the invariant holds after it, and the completion of the one
    batch in flight. *)
From S2P Require Import Prelude Spec PlanSelection Platform Registry RegistryFacts RegistryInv RegistryOps.
From S2P Require Scheduler SpecLoop M1Completion.
Local Open Scope prog_scope.

(** ** Publication *)
Lemma launch_request requests ep e : en_request (launch requests ep e) = en_request e.
Proof. unfold launch. by destruct (existsb _ _). Qed.
Lemma launch_plan requests ep e : en_plan (launch requests ep e) = en_plan e.
Proof. unfold launch. by destruct (existsb _ _). Qed.
Lemma launch_last requests ep e : en_last_quiescence (launch requests ep e) = en_last_quiescence e.
Proof. unfold launch. by destruct (existsb _ _). Qed.

Lemma existsb_In (l : list RequestId) q : existsb (fun r => bool_decide (r = q)) l = true <-> q ∈ l.
Proof.
  rewrite existsb_exists. setoid_rewrite <- list_elem_of_In. setoid_rewrite bool_decide_eq_true.
  split; [by intros (x & ? & ->)|by exists q].
Qed.

Lemma launch_phase requests ep e :
  en_phase (launch requests ep e) = if decide (en_request e ∈ requests) then PhaseInFlight ep else en_phase e.
Proof.
  unfold launch. destruct (existsb _ _) eqn:E; case_decide as Hd; try done.
  - by apply existsb_In in E.
  - apply existsb_In in Hd. congruence.
Qed.

Section recorded.
Context {P : Platform} {HP : PlatformLaws P} (C : N) (r : M1ServingRegistryV1).
Context (token : M1ServingPublicationReservationV1) (live : M1ServingReservedBatchV1).
Hypothesis Hok : registry_ok C r.
Hypothesis Hl : live_token C r token live.

Lemma token_plan_ok : plan_ok (bp_plan (pr_batch token)).
Proof using Hok Hl.
  destruct Hl as [_ _ Hlive _ Hp _ _ _ _ _]. rewrite <- Hp. by apply (ro_reserved _ _ Hok).
Qed.

Lemma token_epoch : Completion.value (bp_epoch (pr_batch token)) = rg_submitted_epoch r + 1 /\ rg_submitted_epoch r < u64_max.
Proof using Hok Hl.
  destruct Hl as [_ _ Hlive _ _ He _ _ _ _]. destruct (ro_reserved _ _ Hok _ Hlive) as (_ & H1 & H2 & _).
  by rewrite <- He.
Qed.

(** The start of a catch-up has its key; nothing else does. *)
Lemma token_start key :
  next_catchup live = Some (CatchupInFlight key) -> validate_draft_catchup_start r (pr_batch token) key = Ok tt.
Proof using Hok Hl.
  destruct Hl as [_ _ _ _ _ _ Ha Hv _ _]. unfold next_catchup, validate_reserved_action in *. rewrite Ha.
  destruct (bp_action (pr_batch token)); try done. destruct (rv_draft_catchup live) as [k|]; [|done]. intros [= ->].
  by case_bool_decide.
Qed.

Lemma next_catchup_start ph : next_catchup live = Some ph -> exists key, ph = CatchupInFlight key.
Proof. unfold next_catchup. destruct (rv_action live); try done. destruct (rv_draft_catchup live); [|done]. intros [= <-]. by eexists. Qed.

Lemma recorded_entry e :
  e ∈ rg_entries (recorded r (pr_batch token) (next_catchup live)) <->
  exists x, x ∈ rg_entries r /\ e = launch (bp_requests (pr_batch token)) (bp_epoch (pr_batch token)) x.
Proof. cbn. rewrite list_elem_of_fmap. naive_solver. Qed.

Lemma recorded_flight_ok :
  flight_ok C (recorded r (pr_batch token) (next_catchup live))
    (mkInFlight (bp_plan (pr_batch token)) (bp_requests (pr_batch token)) (bp_epoch (pr_batch token))).
Proof using Hok Hl.
  destruct Hl as [_ Hf _ _ _ _ _ _ Hreq Hrdy].
  destruct (due_roster_ok C r Hok _ Hrdy (proj1 (plan_ok_capacity _ token_plan_ok))) as [Hnd Hc].
  rewrite <- Hreq in *. split; cbn [if_plan if_requests if_epoch]; try done.
  intros q Hq. rewrite Hreq in Hq. destruct (due_member C r Hok _ _ Hrdy Hq) as (e & He & Hq' & _ & Hp).
  exists (launch (bp_requests (pr_batch token)) (bp_epoch (pr_batch token)) e). split; [apply recorded_entry; by exists e|].
  rewrite launch_request, launch_plan. split; [done|]. split; [|done]. unfold phase_at. rewrite launch_phase.
  rewrite decide_True by (rewrite Hreq, Hq'; done). by rewrite bool_decide_true.
Qed.

Lemma recorded_catchup_ok : catchup_ok (recorded r (pr_batch token) (next_catchup live)).
Proof using Hok Hl.
  unfold catchup_ok. cbn [recorded rg_draft_catchup]. destruct (next_catchup live) as [ph|] eqn:Hn; [|done].
  destruct (next_catchup_start _ Hn) as [key ->]. apply token_start in Hn.
  apply start_fields in Hn as (Hd & Hact & Hreq & He & (Hv & Hb & Hs & Hc & e & Hin & Hq & Hph & Hpl & Hla)%(ready_key_fields C r Hok)).
  eexists. split; [done|]. cbn [if_plan if_requests if_epoch recorded rg_completed_epoch]. do 4 (split; [done|]).
  intros x Hx Hxq. apply list_elem_of_fmap in Hx as (y & -> & Hy). rewrite launch_request in Hxq.
  rewrite launch_last. by rewrite (same_entry C r y e) by (done || congruence).
Qed.

Lemma recorded_ok : registry_ok C (recorded r (pr_batch token) (next_catchup live)).
Proof using Hok Hl.
  pose proof recorded_flight_ok as Hfl'. pose proof recorded_catchup_ok as Hcat'.
  pose proof token_plan_ok as Hp. pose proof token_epoch as [He Hs].
  destruct Hl as [_ Hf _ _ _ _ _ _ _ _]. pose proof (idle_epochs _ _ Hok Hf) as Hidle.
  pose proof Hok as [Hcap Hn Hnd Hes Hb Hep Hfl Hgr Hres Hcat].
  split; cbn [recorded rg_entries rg_completed_epoch rg_submitted_epoch rg_in_flight rg_bound_plan
    rg_reservation rg_next_reservation_id is_some]; try done.
  - unfold vlen in *. by rewrite length_fmap.
  - rewrite <- list_fmap_compose. erewrite list_fmap_ext; [exact Hnd|]. intros i x _. apply launch_request.
  - apply Forall_fmap. rewrite Forall_forall in Hes. apply Forall_forall. intros x Hx.
    destruct (Hes x Hx) as [H1 H2 H3 H4]. cbn. split; rewrite ?launch_request, ?launch_plan, ?launch_last; try done.
    intros q. rewrite launch_phase. case_decide; [done|]. apply H4.
  - by intros p [= <-].
  - lia.
  - by intros b [= <-].
  - intros x Hx Hfly. eexists. split; [done|]. cbn [if_requests]. apply list_elem_of_fmap in Hx as (y & -> & Hy).
    rewrite launch_request. unfold flying in Hfly. rewrite launch_phase in Hfly. case_decide; [done|].
    pose proof (idle_grounded _ _ y Hok Hf Hy) as Hg. unfold flying in Hg. congruence.
Qed.

Lemma aborted_ok : registry_ok C (put_reservation None r).
Proof using Hok.
  pose proof Hok as [Hcap Hn Hnd Hes Hb Hep Hfl Hgr Hres Hcat]. split; try done.
  intros b Hfb. cbn in Hfb. destruct (Hfl b Hfb) as [_ [? ? ? ? ?]]. split; [done|]. by split.
Qed.
End recorded.

(** ** Completion *)
Fixpoint disposition_of (requests : list RequestId) (dispositions : list M1ServingCompletionDispositionV1)
    (q : RequestId) : option M1ServingCompletionDispositionV1 :=
  match requests, dispositions with
  | r :: requests', d :: dispositions' => if decide (r = q) then Some d else disposition_of requests' dispositions' q
  | _, _ => None
  end.

(** A member after the completion of a batch at [ep]. *)
Definition settled (requests : list RequestId) (dispositions : list M1ServingCompletionDispositionV1)
    (ep : Completion.CompletionEpoch) (e : M1ServingEntryV1) : M1ServingEntryV1 :=
  match disposition_of requests dispositions (en_request e) with
  | Some d => settle_entry ep d e
  | None => e
  end.

Lemma disposition_of_In requests dispositions q d :
  disposition_of requests dispositions q = Some d -> q ∈ requests /\ d ∈ dispositions.
Proof.
  revert dispositions. induction requests as [|r requests IH]; intros [|x dispositions]; cbn; try done.
  case_decide as E; [intros [= <-]|intros [? ?]%IH]; set_solver.
Qed.

Lemma disposition_of_Some requests dispositions q :
  length dispositions = length requests -> q ∈ requests -> exists d, disposition_of requests dispositions q = Some d.
Proof.
  revert dispositions. induction requests as [|r requests IH]; intros [|x dispositions] Hl Hq; cbn; try done;
    [by apply not_elem_of_nil in Hq|].
  case_decide as E; [by eexists|]. apply IH; [by injection Hl|]. set_solver.
Qed.

Lemma settle_entry_request ep d e : en_request (settle_entry ep d e) = en_request e.
Proof. by destruct d. Qed.
Lemma settled_request requests dispositions ep e : en_request (settled requests dispositions ep e) = en_request e.
Proof. unfold settled. destruct (disposition_of _ _ _); [apply settle_entry_request|done]. Qed.

Lemma settled_cons q requests d dispositions ep i e l :
  q ∉ requests -> NoDup (en_request <$> l) -> l !! i = Some e -> en_request e = q ->
  settled requests dispositions ep <$> <[i := settle_entry ep d e]> l =
  settled (q :: requests) (d :: dispositions) ep <$> l.
Proof.
  intros Hq Hnd Hi He. apply list_eq. intros j. rewrite !list_lookup_fmap. destruct (decide (j = i)) as [->|Hne].
  - rewrite list_lookup_insert_eq by (by eapply lookup_lt_Some). rewrite Hi. cbn. f_equal. unfold settled.
    rewrite settle_entry_request, He. cbn. rewrite decide_True by done.
    destruct (disposition_of requests dispositions q) eqn:E; [|done]. by apply disposition_of_In in E as [].
  - rewrite list_lookup_insert_ne by done. destruct (l !! j) as [x|] eqn:Hj; [|done]. cbn. f_equal. unfold settled.
    cbn. rewrite decide_False; [done|]. intros Hx. apply Hne.
    eapply (NoDup_lookup _ j i q Hnd); rewrite list_lookup_fmap; [by rewrite Hj, Hx|by rewrite Hi, <- He].
Qed.

Lemma settled_nil (l : list M1ServingEntryV1) ep dispositions : settled [] dispositions ep <$> l = l.
Proof. rewrite <- (list_fmap_id l) at 2. apply list_fmap_ext. done. Qed.

Lemma settle_loop_wp requests ep : forall dispositions r,
  NoDup (en_request <$> rg_entries r) -> NoDup requests -> length dispositions = length requests ->
  (forall q, q ∈ requests -> q ∈ en_request <$> rg_entries r) ->
  wp (settle_loop requests dispositions ep) r (fun r' _ =>
    r' = put_entries (settled requests dispositions ep <$> rg_entries r) r).
Proof.
  induction requests as [|q requests IH]; intros [|d dispositions] r Hnd Hr Hl Hin; cbn [settle_loop]; try done;
    try (apply wp_ret; rewrite settled_nil; by destruct r).
  wp_step. wp_step. change (id r) with r. apply NoDup_cons in Hr as [Hq Hr].
  destruct (find_entry r q) as [[i e]|] eqn:Hf.
  2:{ apply find_entry_None in Hf. destruct Hf. apply Hin. set_solver. }
  apply find_entry_Some in Hf as [Hi He]. wp_step. unfold put_entry. wp_step.
  assert (Hreq : en_request <$> <[i := settle_entry ep d e]> (rg_entries r) = en_request <$> rg_entries r).
  { rewrite list_fmap_insert. apply list_insert_id. by rewrite list_lookup_fmap, Hi, settle_entry_request. }
  eapply wp_mono; [apply IH; cbn [put_entries rg_entries]; rewrite ?Hreq; try done|].
  - by injection Hl.
  - intros x Hx. apply Hin. set_solver.
  - intros r' _ ->. cbn [put_entries rg_entries]. by rewrite (settled_cons q) by done.
Qed.

Definition next_plan_ok (d : M1ServingCompletionDispositionV1) : Prop :=
  match d with Continue p => plan_ok p | Retire => True end.

(** The registry after the batch [b] in flight completed. *)
Definition completed (r : M1ServingRegistryV1) (b : M1ServingInFlightBatchV1)
    (dispositions : list M1ServingCompletionDispositionV1) : M1ServingRegistryV1 :=
  mkRegistry (rg_identity r) (settled (if_requests b) dispositions (if_epoch b) <$> rg_entries r)
    (rg_bound_plan r) (rg_reservation r) None (rg_draft_catchup r) (rg_next_reservation_id r)
    (rg_submitted_epoch r) (Completion.value (if_epoch b)).

Section completion.
Context (C : N) (r : M1ServingRegistryV1) (b : M1ServingInFlightBatchV1).
Hypothesis Hok : registry_ok C r.
Hypothesis Hb : rg_in_flight r = Some b.

Lemma flight : rg_reservation r = None /\ flight_ok C r b.
Proof using Hok Hb. by apply (ro_flight _ _ Hok). Qed.

Lemma completed_epoch : Completion.value (if_epoch b) = rg_completed_epoch r + 1 /\
  rg_submitted_epoch r = rg_completed_epoch r + 1.
Proof using Hok Hb.
  destruct flight as [_ [_ _ He _ _]]. pose proof (ro_epochs _ _ Hok) as [Hs _]. rewrite Hb in Hs. cbn in Hs. lia.
Qed.

Context (dispositions : list M1ServingCompletionDispositionV1).
Hypothesis Hlen : length dispositions = length (if_requests b).

Lemma apply_completion_wp :
  wp (apply_validated_completion (if_epoch b) dispositions) r (fun r' _ => r' = completed r b dispositions).
Proof using Hok Hb Hlen.
  destruct flight as [_ [Hnd _ _ Hm _]]. unfold apply_validated_completion. wp_step. wp_step. change (id r) with r.
  wp_step. wp_step. rewrite Hb. wp_step.
  eapply wp_mono; [apply settle_loop_wp; try done; [apply Hok|]|].
  - intros q Hq. destruct (Hm q Hq) as (e & He & <- & _). by apply list_elem_of_fmap_2.
  - intros r' _ ->. apply wp_modify. done.
Qed.

Lemma settled_quiet e : e ∈ rg_entries r -> flying (settled (if_requests b) dispositions (if_epoch b) e) = false.
Proof using Hok Hb Hlen.
  intros He. unfold settled. destruct (disposition_of _ _ _) as [[]|] eqn:E; [done|done|].
  destruct (flying e) eqn:Hfly; [|done]. destruct (ro_grounded _ _ Hok e He Hfly) as (b' & Hb' & Hin).
  assert (b' = b) as -> by congruence. destruct (disposition_of_Some _ dispositions _ Hlen Hin). congruence.
Qed.

Lemma settled_entry_ok e :
  Forall next_plan_ok dispositions -> entry_ok (rg_completed_epoch r) e ->
  entry_ok (Completion.value (if_epoch b)) (settled (if_requests b) dispositions (if_epoch b) e).
Proof using Hok Hb Hlen.
  intros Hd He. destruct completed_epoch as [Hep _]. unfold settled.
  destruct (disposition_of _ _ _) as [d|] eqn:E; [|eapply entry_ok_mono; [|done]; lia].
  apply disposition_of_In in E as [_ Hin]. rewrite Forall_forall in Hd. specialize (Hd d Hin).
  destruct He as [H1 H2 _ _]. destruct d as [p|]; (split; cbn; [done|done| |]); try done; try (intros ? [= <-]; lia).
  by intros q [= <-].
Qed.

Lemma completed_ok :
  Forall next_plan_ok dispositions -> rg_draft_catchup r = None -> registry_ok C (completed r b dispositions).
Proof using Hok Hb Hlen.
  intros Hd Hc. destruct completed_epoch as [He Hs]. destruct flight as [Hr _].
  pose proof Hok as [Hcap Hn Hnd Hes Hbd Hep Hfl Hgr Hres Hcat].
  split; cbn [completed rg_entries rg_completed_epoch rg_submitted_epoch rg_in_flight rg_bound_plan
    rg_reservation rg_next_reservation_id is_some]; try done.
  - unfold vlen in *. by rewrite length_fmap.
  - rewrite <- list_fmap_compose. erewrite list_fmap_ext; [exact Hnd|]. intros i x _. apply settled_request.
  - apply Forall_fmap. rewrite Forall_forall in Hes. apply Forall_forall. intros x Hx. by apply settled_entry_ok, Hes.
  - lia.
  - intros x Hx Hfly. apply list_elem_of_fmap in Hx as (y & -> & Hy). by rewrite settled_quiet in Hfly.
  - unfold catchup_ok. cbn. by rewrite Hc.
Qed.
End completion.

(** ** The accepted dispositions *)
Definition disposition_ok (r : M1ServingRegistryV1) (b : M1ServingInFlightBatchV1) (q : RequestId)
    (d : M1ServingCompletionDispositionV1) : Prop :=
  exists e, e ∈ rg_entries r /\ en_request e = q /\ phase_at (if_epoch b) e = true /\ en_plan e = if_plan b /\
    match d with
    | Continue next => en_phase e = PhaseInFlight (if_epoch b) /\ plan_mode next <> Graph.Prefill
    | Retire => True
    end.

Lemma plan_transition_spec current next :
  validate_plan_transition current next = Ok tt <-> plan_mode next <> Graph.Prefill.
Proof. unfold validate_plan_transition. by destruct (plan_mode current), (plan_mode next). Qed.

Lemma completion_loop_spec r b : NoDup (en_request <$> rg_entries r) -> forall requests dispositions lane,
  length dispositions = length requests ->
  completion_loop r b (if_epoch b) requests dispositions lane = Ok tt <->
  Forall2 (disposition_ok r b) requests dispositions.
Proof.
  intros Hnd. induction requests as [|q requests IH]; intros [|d dispositions] lane Hl; cbn [completion_loop]; try done.
  rewrite Forall2_cons, <- (IH dispositions (lane + 1)) by (by injection Hl). destruct (entry r q) as [e|] eqn:He.
  2:{ split; [done|]. intros [(e & Hin & Hq & _) _]. pose proof (proj2 (entry_Some r q e Hnd) (conj Hin Hq)). congruence. }
  apply (entry_Some _ _ _ Hnd) in He as [Hin Hq].
  assert (Hd : disposition_ok r b q d <-> phase_at (if_epoch b) e = true /\ en_plan e = if_plan b /\
    match d with Continue next => en_phase e = PhaseInFlight (if_epoch b) /\ plan_mode next <> Graph.Prefill
    | Retire => True end).
  { split; [|intros H; by exists e]. intros (x & Hx & Hxq & H).
    pose proof (proj2 (entry_Some r q x Hnd) (conj Hx Hxq)).
    pose proof (proj2 (entry_Some r q e Hnd) (conj Hin Hq)). assert (x = e) as -> by congruence. done. }
  rewrite Hd. clear Hd. destruct (phase_at (if_epoch b) e) eqn:Hph; cbn [negb orb]; [|naive_solver].
  case_bool_decide as Hpl; cbn [negb]; [|naive_solver]. unfold phase_at in Hph.
  destruct d as [next|].
  - pose proof (plan_transition_spec (en_plan e) next) as Ht.
    destruct (en_phase e) as [|ep|ep|qu]; try done; apply bool_decide_eq_true in Hph as ->.
    + destruct (validate_plan_transition (en_plan e) next) as [[]|]; naive_solver.
    + naive_solver.
  - destruct (en_phase e); naive_solver.
Qed.

Lemma Forall2_vlen {A B} (R : A -> B -> Prop) l k : Forall2 R l k -> vlen l = vlen k.
Proof. intros H%Forall2_length. unfold vlen. lia. Qed.

Section exact.
Context (C : N) (r : M1ServingRegistryV1).
Hypothesis Hok : registry_ok C r.

(** The completion a registry accepts. *)
Definition completes (ep : Completion.CompletionEpoch)
    (dispositions : list M1ServingCompletionDispositionV1) (b : M1ServingInFlightBatchV1) : Prop :=
  rg_in_flight r = Some b /\ rg_draft_catchup r = None /\ ep = if_epoch b /\
  Forall2 (disposition_ok r b) (if_requests b) dispositions.

Lemma validate_completion_spec ep dispositions :
  validate_completion_exact r ep dispositions = Ok tt <-> exists b, completes ep dispositions b.
Proof using Hok.
  unfold validate_completion_exact, reject_live_reservation, completes. split.
  - destruct (rg_reservation r); [done|]. destruct (rg_draft_catchup r); cbn [is_some]; [done|].
    destruct (rg_in_flight r) as [b|] eqn:Hb; [|done].
    case_bool_decide as He; cbn [negb orb]; [subst ep|done].
    destruct (N.eqb_spec (Completion.value (if_epoch b)) (saturating_succ u64_max (rg_completed_epoch r)));
      cbn [negb orb]; [|done].
    destruct (N.eqb_spec (Completion.value (if_epoch b)) (rg_submitted_epoch r)); cbn [negb]; [|done].
    destruct (N.eqb_spec (vlen dispositions) (vlen (if_requests b))) as [Hl|]; cbn [negb]; [|done].
    intros Hd%completion_loop_spec; [by exists b|apply Hok|unfold vlen in Hl; lia].
  - intros (b & Hb & Hc & -> & Hd). destruct (flight C r b Hok Hb) as [-> [_ _ He _ _]]. rewrite Hc, Hb. cbn [is_some].
    destruct (completed_epoch C r b Hok Hb) as [He' _]. pose proof (ro_epochs _ _ Hok) as [_ Hmax].
    rewrite bool_decide_true by done. cbn [negb orb]. unfold saturating_succ.
    rewrite N.min_l by lia. rewrite He', N.eqb_refl. cbn [negb orb]. rewrite <- He', He, N.eqb_refl. cbn [negb].
    rewrite <- (Forall2_vlen _ _ _ Hd), N.eqb_refl. cbn [negb].
    apply completion_loop_spec; [apply Hok|by rewrite (Forall2_length _ _ _ Hd)|done].
Qed.

(** The completion of a catch-up: its member goes on under the same plan, or
    retires when its cancellation is pending. *)
Record catchup_completes (key : M1ServingDraftCatchupKeyV1) (dg : N)
    (d : M1ServingCompletionDispositionV1) (b : M1ServingInFlightBatchV1) : Prop := {
  cc_flight : rg_in_flight r = Some b;
  cc_phase : rg_draft_catchup r = Some (CatchupInFlight key);
  cc_generation : successor_is u64_max (key_prior_dispatch_generation key) dg = true;
  cc_requests : if_requests b = [key_request key];
  cc_epoch : if_epoch b = key_epoch key;
  cc_bound : rg_bound_plan r = Some (if_plan b);
  cc_valid : valid_for key (if_plan b) = true;
  cc_disposition : exists e, e ∈ rg_entries r /\ en_request e = key_request key /\ en_plan e = if_plan b /\
    (en_phase e = PhaseInFlight (key_epoch key) /\ d = Continue (if_plan b) \/
     en_phase e = PhaseCancellationPending (key_epoch key) /\ d = Retire)
}.

Lemma validate_catchup_completion_spec key dg d :
  validate_draft_catchup_completion r key dg = Ok d <-> exists b, catchup_completes key dg d b.
Proof using Hok.
  split.
  2:{ intros [b [Hb Hph Hdg Hreq Hep Hbd Hv (e & Hin & Hq & Hpl & Hd)]].
      destruct (flight C r b Hok Hb) as [Hres [_ _ Hs _ _]]. pose proof (ro_catchup _ _ Hok) as Hc.
      unfold catchup_ok in Hc. rewrite Hph in Hc. destruct Hc as (b' & Hb' & _ & _ & _ & Hce & Hlast).
      unfold validate_draft_catchup_completion, reject_live_reservation.
      rewrite Hres, Hb, Hv, Hdg, Hreq, Hep, !bool_decide_true by (done || congruence). cbn [negb orb].
      rewrite <- Hs, Hep, Hce, !N.eqb_refl. cbn [negb orb].
      rewrite (proj2 (entry_Some r (key_request key) e (ro_requests _ _ Hok))) by done.
      rewrite !bool_decide_true by auto. cbn [negb orb].
      destruct Hd as [[-> ->]|[-> ->]]; rewrite bool_decide_true by done; congruence. }
  unfold validate_draft_catchup_completion, reject_live_reservation. destruct (rg_reservation r); [done|].
  destruct (rg_in_flight r) as [b|] eqn:Hb; [|done].
  case_bool_decide as H1; cbn [negb orb]; [|done]. destruct (valid_for key (if_plan b)) eqn:H2; cbn [negb orb]; [|done].
  destruct (successor_is _ _ dg) eqn:H3; cbn [negb orb]; [|done]. case_bool_decide as H4; cbn [negb orb]; [|done].
  case_bool_decide as H5; cbn [negb orb]; [|done]. case_bool_decide as H6; cbn [negb orb]; [|done].
  destruct (_ =? _); cbn [negb orb]; [|done]. destruct (_ =? _); cbn [negb orb]; [|done].
  destruct (entry r (key_request key)) as [e|] eqn:He; [|done].
  apply entry_Some in He as [Hin Hq]; [|apply Hok].
  case_bool_decide as H7; cbn [negb orb]; [|done]. case_bool_decide as H8; cbn [negb]; [|done].
  intros Hd. exists b. split; try done. exists e. do 3 (split; [done|]).
  destruct (en_phase e) as [|ep|ep|qu]; try done; (case_bool_decide as He; [|done]); subst ep;
    injection Hd as <-; [left|right]; (split; [done|]); congruence.
Qed.

Lemma catchup_completion_wp key dg :
  wp (complete_draft_catchup_key key dg) r (fun r' o => match o with
    | Ok _ => exists d b, catchup_completes key dg d b /\
        r' = put_draft_catchup (Some (CatchupCompleted key dg)) (completed r b [d])
    | Err _ => r' = r /\ forall d b, ~ catchup_completes key dg d b
    end).
Proof using Hok.
  unfold complete_draft_catchup_key. wp_step. wp_step. change (id r) with r. apply wp_lift.
  { intros e He. split; [done|]. intros d b Hd.
    pose proof (proj2 (validate_catchup_completion_spec key dg d) (ex_intro _ b Hd)). congruence. }
  intros d Hd. apply validate_catchup_completion_spec in Hd as [b Hd]. wp_step. rewrite <- (cc_epoch _ _ _ _ Hd).
  eapply wp_mono; [apply (apply_completion_wp C); [done|apply Hd|by rewrite (cc_requests _ _ _ _ Hd)]|].
  intros r' _ ->. wp_steps. by exists d, b.
Qed.

Lemma catchup_completed_ok key dg d b :
  catchup_completes key dg d b ->
  registry_ok C (put_draft_catchup (Some (CatchupCompleted key dg)) (completed r b [d])).
Proof using Hok.
  intros [Hb Hph _ Hreq Hep Hbd Hv (e & Hin & Hq & Hpl & Hd)].
  assert (Hlen : length [d] = length (if_requests b)) by (by rewrite Hreq).
  assert (Hd' : Forall next_plan_ok [d]).
  { constructor; [|done]. destruct Hd as [[_ ->]|[_ ->]]; [|done]. cbn. by apply (ro_bound _ _ Hok). }
  (* the same registry without the catch-up *)
  assert (Hok' : registry_ok C (put_draft_catchup None r)).
  { pose proof Hok as [? ? ? ? ? ? Hfl ? ? _]. split; try done.
    intros b' Hb'. destruct (Hfl b' Hb') as [? [? ? ? ? ?]]. split; [done|]. by split. }
  pose proof (completed_ok C _ b Hok' Hb [d] Hlen Hd' eq_refl) as Hc.
  pose proof Hc as [? ? ? ? ? ? ? ? ? _]. split; try done.
  - unfold catchup_ok. cbn [put_draft_catchup rg_draft_catchup completed]. split; [done|].
    split; [cbn; by rewrite Hep|]. split; [|by exists (if_plan b)].
    intros x Hx Hxq _ _. cbn in Hx. apply list_elem_of_fmap in Hx as (y & -> & Hy). rewrite settled_request in Hxq.
    unfold settled. rewrite Hxq, Hreq. cbn. rewrite decide_True by done. rewrite Hep. by destruct d.
Qed.
End exact.

(** ** Reconciliation *)

(** The registry that takes over one request whose prefill completed elsewhere. *)
Definition installed (r : M1ServingRegistryV1) (rc : M1AuthenticatedPrefillRegistryReconciliationV1) : M1ServingRegistryV1 :=
  mkRegistry (rg_identity r) [mkEntry (rc_request rc) (rc_successor rc) PhaseReady (Some (rc_epoch rc))]
    (Some (rc_prefill rc)) None None None 2 (Completion.value (rc_epoch rc)) (Completion.value (rc_epoch rc)).

Lemma fresh_fields r : is_fresh_for_authenticated_prefill_reconciliation r = true ->
  r = mkRegistry (rg_identity r) [] None None None None 1 0 0.
Proof.
  unfold is_fresh_for_authenticated_prefill_reconciliation. rewrite !andb_true_iff, !negb_true_iff, !N.eqb_eq.
  destruct r as [i l b re f d n s c]; cbn. intros [[[[[[[Hl Hb] Hr] Hf] Hd] Hn] Hs] Hc].
  destruct l; [|by rewrite vlen_cons in Hl; lia]. destruct b, re, f, d; try done. by subst.
Qed.

Lemma install_wp r rc :
  wp (install_authenticated_prefill_reconciliation rc) r (fun r' o => match o with
    | Ok _ => is_fresh_for_authenticated_prefill_reconciliation r = true /\ r' = installed r rc
    | Err e => r' = r /\ e = RegistryNotFresh /\ is_fresh_for_authenticated_prefill_reconciliation r = false
    end).
Proof.
  unfold install_authenticated_prefill_reconciliation. wp_step. wp_step. change (id r) with r.
  destruct (is_fresh_for_authenticated_prefill_reconciliation r) eqn:Hf; cbn [negb]; [|by apply wp_ret].
  wp_steps. split; [done|]. by rewrite (fresh_fields r Hf).
Qed.

Lemma installed_ok C r rc :
  0 < C <= 32 -> generation (rc_request rc) <> 0 -> 1 <= Completion.value (rc_epoch rc) <= u64_max ->
  plan_ok (rc_prefill rc) -> plan_ok (rc_successor rc) -> registry_ok C (installed r rc).
Proof.
  intros HC Hg He Hp Hs. split; cbn; try done; try lia.
  - change (vlen [mkEntry (rc_request rc) (rc_successor rc) PhaseReady (Some (rc_epoch rc))]) with 1. lia.
  - apply NoDup_singleton.
  - apply Forall_singleton. split; cbn; try done. intros ep [= <-]. lia.
  - by intros p [= <-].
  - intros e Hin. apply list_elem_of_singleton in Hin as ->. done.
Qed.
