(* ===== verification/RegistryWindow.v ===== *)
(** The replacement of a completed window: every member has retired and is
    replaced, in one publication, by a request of the same slot and the next
    generation; the predecessors come back if the publication is given up. *)
From S2P Require Import Prelude Spec PlanSelection Platform Registry RegistryFacts RegistryInv RegistryOps RegistryRounds.
From S2P Require Scheduler SpecLoop M1Completion.
Local Open Scope prog_scope.

Record predecessor_ok (completed : N) (prior : M1ServingPlanV1) (e : M1ServingEntryV1) : Prop := {
  pd_plan : en_plan e = prior;
  pd_phase : exists ep, en_phase e = PhaseRetired (CompletedAt ep) /\ en_last_quiescence e = Some ep /\
    1 <= Completion.value ep <= completed
}.

Record successor_ok (q : RequestId) (e : M1ServingEntryV1) : Prop := {
  sc_nonzero : generation q <> 0;
  sc_slot : slot q = slot (en_request e);
  sc_generation : generation q = generation (en_request e) + 1;
  sc_bound : generation q <= u32_max
}.

Lemma predecessor_spec n prior e i :
  validate_completed_window_predecessor e prior n i = Ok tt <-> predecessor_ok n prior e.
Proof.
  unfold validate_completed_window_predecessor. split.
  - case_bool_decide as H1; cbn [negb]; [|done]. destruct (en_phase e) as [| | |[|ep]] eqn:Hp; try done.
    destruct (N.eqb_spec (Completion.value ep) 0); cbn [orb]; [done|].
    destruct (N.ltb_spec n (Completion.value ep)); cbn [orb]; [done|].
    case_bool_decide as H2; cbn [negb]; [|done]. intros _. split; [done|]. exists ep. split_and?; try done; lia.
  - intros [-> (ep & -> & -> & H1 & H2)]. rewrite !bool_decide_true by done. cbn [negb].
    rewrite (proj2 (N.eqb_neq _ _)), (proj2 (N.ltb_ge _ _)) by lia. done.
Qed.

Lemma predecessors_loop_spec n prior l : forall i,
  predecessors_loop l prior n i = Ok tt <-> Forall (predecessor_ok n prior) l.
Proof.
  induction l as [|e l IH]; intros i; cbn [predecessors_loop]; [done|]. rewrite Forall_cons, <- (IH (i + 1)).
  pose proof (predecessor_spec n prior e i) as He.
  destruct (validate_completed_window_predecessor e prior n i) as [[]|]; naive_solver.
Qed.

(** The two checks of a successor. *)
Lemma successor_cases q e :
  successor_ok q e \/ generation q = 0 \/ slot q <> slot (en_request e) \/
  successor_is u32_max (generation (en_request e)) (generation q) = false.
Proof.
  destruct (successor_is u32_max (generation (en_request e)) (generation q)) eqn:E; [|by do 3 right].
  apply successor_is_spec in E as [E1 E2].
  destruct (decide (generation q = 0)); [by right; left|]. destruct (decide (slot q = slot (en_request e))).
  - left. by split.
  - by right; right; left.
Qed.

Lemma successor_checks q e : successor_ok q e ->
  (generation q =? 0) = false /\ (slot q =? slot (en_request e)) = true /\
  successor_is u32_max (generation (en_request e)) (generation q) = true.
Proof.
  intros [H1 H2 H3 H4]. split; [by apply N.eqb_neq|]. split; [by apply N.eqb_eq|]. by apply successor_is_spec.
Qed.

Lemma successor_cons_spec {T E} q e (e1 e2 e3 : E) (k : result T E) (x : T) :
  (if generation q =? 0 then Err e1
   else if negb (slot q =? slot (en_request e)) then Err e2
   else if negb (successor_is u32_max (generation (en_request e)) (generation q)) then Err e3 else k) = Ok x <->
  successor_ok q e /\ k = Ok x.
Proof.
  split.
  - destruct (successor_cases q e) as [H|[H|[H|H]]].
    + destruct (successor_checks _ _ H) as (-> & -> & ->). done.
    + by rewrite (proj2 (N.eqb_eq _ _) H).
    + destruct (_ =? 0); [done|]. by rewrite (proj2 (N.eqb_neq _ _) H).
    + destruct (_ =? 0); [done|]. rewrite H. by destruct (negb _).
  - intros [H ->]. by destruct (successor_checks _ _ H) as (-> & -> & ->).
Qed.

Lemma successors_loop_spec requests : forall entries i, length requests = length entries ->
  successors_loop requests entries i = Ok tt <-> Forall2 successor_ok requests entries.
Proof.
  induction requests as [|q requests IH]; intros [|e entries] i Hl; cbn [successors_loop]; try done.
  etransitivity; [apply successor_cons_spec|]. by rewrite Forall2_cons, IH by (by injection Hl).
Qed.

(** The successors of distinct requests are distinct. *)
Lemma successors_nodup requests entries :
  Forall2 successor_ok requests entries -> NoDup (en_request <$> entries) -> NoDup requests.
Proof.
  intros H. induction H as [|q e requests entries Hq Hf IH]; [constructor|]. cbn.
  intros [Hnin Hnd]%NoDup_cons. apply NoDup_cons. split; [|by apply IH]. intros Hin. apply Hnin.
  apply list_elem_of_lookup in Hin as [i Hi]. destruct (Forall2_lookup_l _ _ _ _ _ Hf Hi) as (e' & He' & Hs).
  destruct Hq as [_ Hq1 Hq2 _], Hs as [_ Hs1 Hs2 _]. apply list_elem_of_fmap. exists e'.
  split; [|by eapply list_elem_of_lookup_2]. destruct (en_request e), (en_request e'). cbn in *. f_equal; lia.
Qed.

Section window.
Context {P : Platform} {HP : PlatformLaws P} (C : N) (r : M1ServingRegistryV1).
Hypothesis Hok : registry_ok C r.

Record window_due (plan : M1ServingPlanV1) (requests : list RequestId) (prior : M1ServingPlanV1) : Prop := {
  wd_reservation : rg_reservation r = None;
  wd_flight : rg_in_flight r = None;
  wd_catchup : rg_draft_catchup r = None;
  wd_bound : rg_bound_plan r = Some prior;
  wd_predecessors : Forall (predecessor_ok (rg_completed_epoch r) prior) (rg_entries r);
  wd_mode : plan_mode plan = Graph.Prefill;
  wd_count : 1 <= vlen requests <= sp_sequence_capacity plan;
  wd_successors : Forall2 successor_ok requests (rg_entries r);
  wd_epoch : rg_submitted_epoch r < u64_max;
  wd_id : rg_next_reservation_id r < u64_max
}.

Lemma window_checks_spec plan requests prior next_epoch following_id :
  window_checks C r plan requests = Ok (prior, next_epoch, following_id) <->
  window_due plan requests prior /\ next_epoch = rg_submitted_epoch r + 1 /\
  following_id = rg_next_reservation_id r + 1.
Proof using Hok.
  unfold window_checks, reject_live_reservation, checked_add. split.
  - destruct (rg_reservation r) eqn:H1; [done|]. destruct (rg_in_flight r) eqn:H2; cbn [is_some]; [done|].
    destruct (rg_draft_catchup r) eqn:H3; cbn [is_some]; [done|]. destruct (rg_bound_plan r) as [p|] eqn:H4; [|done].
    destruct (_ =? 0); [done|]. destruct (predecessors_loop _ _ _ _) as [[]|] eqn:H5; [|done].
    apply predecessors_loop_spec in H5. case_bool_decide as H6; cbn [negb]; [|done].
    destruct (N.eqb_spec (vlen requests) 0) as [|H7]; [done|].
    destruct (N.ltb_spec C (vlen requests)); cbn [orb]; [done|].
    destruct (N.ltb_spec (sp_sequence_capacity plan) (vlen requests)); [done|].
    destruct (N.eqb_spec (vlen requests) (vlen (rg_entries r))) as [H8|]; cbn [negb]; [|done].
    destruct (successors_loop _ _ _) as [[]|] eqn:H9; [|done].
    apply successors_loop_spec in H9; [|unfold vlen in H8; lia].
    destruct (_ =? _); cbn [negb]; [|done]. destruct (N.leb_spec (rg_submitted_epoch r + 1) u64_max); [|done].
    destruct (N.leb_spec (rg_next_reservation_id r + 1) u64_max); [|done]. intros [= <- <- <-].
    split; [|done]. split; try done; lia.
  - intros ([H1 H2 H3 H4 H5 H6 H7 H8 H9 H10] & -> & ->). rewrite H1, H2, H3, H4. cbn [is_some].
    pose proof (Forall2_vlen _ _ _ H8) as Hl. pose proof (ro_count _ _ Hok).
    rewrite (proj2 (N.eqb_neq (vlen (rg_entries r)) 0)) by lia.
    rewrite (proj2 (predecessors_loop_spec _ _ _ _) H5), bool_decide_true by done. cbn [negb].
    rewrite (proj2 (N.eqb_neq (vlen requests) 0)), !(proj2 (N.ltb_ge _ _)) by lia. cbn [orb].
    rewrite Hl, N.eqb_refl. cbn [negb].
    rewrite (proj2 (successors_loop_spec _ _ _ (Forall2_length _ _ _ H8)) H8).
    rewrite (idle_epochs _ _ Hok H2), N.eqb_refl. cbn [negb]. rewrite <- (idle_epochs _ _ Hok H2).
    by rewrite !(proj2 (N.leb_le _ _)) by lia.
Qed.

Definition window_batch (plan : M1ServingPlanV1) (requests : list RequestId) (prior : M1ServingPlanV1) :
    M1ServingBatchPlanV1 :=
  mkBatch plan requests (Completion.mkEpoch (rg_submitted_epoch r + 1)) (QuiescentNewWindow prior plan).

(** The registry whose members a window reservation replaced. *)
Definition windowed (plan : M1ServingPlanV1) (requests : list RequestId) (prior : M1ServingPlanV1) :
    M1ServingRegistryV1 :=
  put_entries (fresh_entry plan <$> requests) (reserved r (window_batch plan requests prior) None).

Definition window_token (plan : M1ServingPlanV1) (requests : list RequestId) (prior : M1ServingPlanV1) :
    M1ServingNewWindowPublicationReservationV1 :=
  mkNewWindow prior (rg_entries r) requests (token_of r (window_batch plan requests prior)).

Lemma push_requests_spec requests : forall inline, vlen inline + vlen requests <= 32 ->
  push_requests requests inline = Some (inline ++ requests).
Proof using HP.
  induction requests as [|q requests IH]; intros inline Hl; cbn [push_requests]; [by rewrite app_nil_r|].
  rewrite vlen_cons in Hl. rewrite try_push_spec. change M1_SERVING_INLINE_ROSTER_CAPACITY_V1 with 32.
  rewrite (proj2 (N.ltb_lt _ _)) by lia. rewrite IH; [by rewrite <- app_assoc|].
  rewrite vlen_app. change (vlen [q]) with 1. lia.
Qed.

Lemma window_storage_wp plan requests storage :
  wp (reserve_completed_window_replacement_with_storage C plan requests storage) r (fun r' o => match o with
    | Ok token => exists prior, window_due plan requests prior /\ vlen requests <= vec_capacity storage /\
        token = window_token plan requests prior /\ r' = windowed plan requests prior
    | Err (e, plan', requests') => r' = r /\ plan' = plan /\ requests' = requests /\
        ((e = HostAllocation /\ vec_capacity storage < vlen requests) \/ forall prior, ~ window_due plan requests prior)
    end).
Proof using Hok HP.
  unfold reserve_completed_window_replacement_with_storage. wp_step. wp_step. change (id r) with r.
  destruct (window_checks C r plan requests) as [[[prior next] fol]|e] eqn:Hw.
  - apply window_checks_spec in Hw as (Hd & -> & ->).
    change (vec_capacity (vec_clear storage)) with (vec_capacity storage).
    destruct (N.ltb_spec (vec_capacity storage) (vlen requests)) as [Hc|Hc].
    { apply wp_ret. do 3 (split; [done|]). by left. }
    rewrite push_requests_spec.
    2:{ rewrite (Forall2_vlen _ _ _ (wd_successors _ _ _ Hd)). pose proof (ro_count _ _ Hok).
        pose proof (ro_capacity _ _ Hok). change (vlen (@nil RequestId)) with 0. lia. }
    wp_steps. by exists prior.
  - apply wp_ret. do 3 (split; [done|]). right. intros prior Hd.
    pose proof (proj2 (window_checks_spec _ _ prior _ _) (conj Hd (conj eq_refl eq_refl))). congruence.
Qed.

Lemma window_reserve_wp plan requests :
  wp (reserve_completed_window_replacement C plan requests) r (fun r' o => match o with
    | Ok token => exists prior, window_due plan requests prior /\
        token = window_token plan requests prior /\ r' = windowed plan requests prior
    | Err (e, plan', requests') => r' = r /\ plan' = plan /\ requests' = requests /\
        (e = HostAllocation \/ forall prior, ~ window_due plan requests prior)
    end).
Proof using Hok HP.
  unfold reserve_completed_window_replacement. destruct (vec_reserve vec_new (vlen requests)) as [storage|].
  - eapply wp_mono; [apply window_storage_wp|]. intros r' [token|[[e p] q]].
    + intros (prior & ? & _ & ? & ?). by exists prior.
    + intros (? & ? & ? & [[? _]|?]); auto.
  - apply wp_ret. auto.
Qed.

Lemma windowed_ok plan requests prior :
  plan_ok plan -> window_due plan requests prior -> registry_ok C (windowed plan requests prior).
Proof using Hok.
  intros Hp [H1 H2 H3 H4 H5 H6 H7 H8 H9 H10]. pose proof Hok as [Hcap Hn Hnd Hes Hb Hep Hfl Hgr Hres Hcat].
  assert (Hreq : en_request <$> (fresh_entry plan <$> requests) = requests).
  { rewrite <- list_fmap_compose. apply list_fmap_id. }
  split; cbn [windowed window_batch reserved put_entries put_next_reservation_id put_reservation rg_entries
    rg_completed_epoch rg_submitted_epoch rg_in_flight rg_bound_plan rg_reservation rg_next_reservation_id
    bp_plan bp_epoch bp_action]; try done.
  - rewrite <- (Forall2_vlen _ _ _ H8) in Hn. unfold vlen in *. by rewrite length_fmap.
  - rewrite Hreq. by apply (successors_nodup _ (rg_entries r)).
  - apply Forall_fmap, Forall_forall. intros q Hq. apply list_elem_of_lookup in Hq as [i Hi].
    destruct (Forall2_lookup_l _ _ _ _ _ H8 Hi) as (e & _ & [? _ _ _]). by split.
  - intros b Hfb. congruence.
  - intros e (q & -> & _)%list_elem_of_fmap. done.
  - intros live [= <-]. cbn. split_and?; try done; lia.
  - unfold catchup_ok. cbn. by rewrite H3.
Qed.
End window.

(** ** The validation of a window token *)
Record window_member (plan : M1ServingPlanV1) (e : M1ServingEntryV1) (q : RequestId) (p : M1ServingEntryV1) : Prop := {
  wm_entry : e = fresh_entry plan q;
  wm_successor : successor_ok q p
}.

Lemma vget_middle {A} (l : list A) x k : vget (l ++ x :: k) (vlen l) = Some x.
Proof. unfold vget, vlen. by rewrite Nat2N.id, list_lookup_middle. Qed.

Lemma window_loop_wp {S} plan entries : forall requests pre rest (s : S),
  length requests = length entries -> length rest = length entries ->
  wp (window_loop entries requests plan (pre ++ rest) (vlen pre)) s (fun s' o =>
    s' = s /\ (o = Ok tt <-> Forall3 (window_member plan) entries requests rest)).
Proof.
  induction entries as [|e entries IH]; intros [|q requests] pre [|p rest] s Hq Hp; cbn [window_loop]; try done.
  { apply wp_ret. split; [done|]. split; [constructor|done]. }
  assert (Hcons : Forall3 (window_member plan) (e :: entries) (q :: requests) (p :: rest) <->
    window_member plan e q p /\ Forall3 (window_member plan) entries requests rest).
  { split; [by inversion 1|by intros []; constructor]. }
  eapply (wp_mono _ _ (fun s' o => s' = s /\
    (o = Ok tt <-> window_member plan e q p /\ Forall3 (window_member plan) entries requests rest)));
    [|intros s' o; by rewrite Hcons]. clear Hcons.
  assert (Hno : forall err : M1ServingRegistryErrorV1, ~ window_member plan e q p ->
    wp (ret (Err err)) s (fun s' (o : RegistryResult unit) => s' = s /\
      (o = Ok tt <-> window_member plan e q p /\ Forall3 (window_member plan) entries requests rest))).
  { intros err Hn. apply wp_ret. split; [done|]. split; [done|]. by intros [? _]. }
  case_bool_decide as H1; cbn [negb orb]; [|apply Hno; intros [-> _]; done].
  case_bool_decide as H2; cbn [negb orb]; [|apply Hno; intros [-> _]; done].
  unfold is_ready. case_bool_decide as H3; cbn [negb orb]; [|apply Hno; intros [-> _]; done].
  destruct (en_last_quiescence e) eqn:H4; cbn [is_some]; [apply Hno; intros [-> _]; done|].
  assert (He : e = fresh_entry plan q) by (destruct e; cbn in *; by subst).
  destruct (N.eqb_spec (generation q) 0) as [H5|H5]; [apply Hno; by intros [_ [? _ _ _]]|].
  wp_step. eapply wp_slice_at; [apply vget_middle|].
  destruct (successor_cases q p) as [Hs|[Hs|[Hs|Hs]]].
  - destruct (successor_checks _ _ Hs) as (_ & -> & ->). cbn [negb].
    replace (pre ++ p :: rest) with ((pre ++ [p]) ++ rest) by (by rewrite <- app_assoc).
    replace (vlen pre + 1) with (vlen (pre ++ [p])) by (by rewrite vlen_app). eapply wp_mono; [apply IH; [by injection Hq|by injection Hp]|].
    intros s' o [-> ->]. split; [done|]. split; [|by intros [_ ?]]. intros ?. split; [by split|done].
  - done.
  - rewrite (proj2 (N.eqb_neq _ _)) by done. cbn [negb]. apply Hno. by intros [_ [_ ? _ _]].
  - destruct (_ =? _); cbn [negb]; [|apply Hno; intros [_ Hx]].
    + rewrite Hs. cbn [negb]. apply Hno. intros [_ Hx]. destruct (successor_checks _ _ Hx) as (_ & _ & ?). congruence.
    + destruct (successor_checks _ _ Hx) as (_ & _ & ?). congruence.
Qed.

Section token.
Context {P : Platform} {HP : PlatformLaws P} (C : N) (r : M1ServingRegistryV1).
Context (w : M1ServingNewWindowPublicationReservationV1).
Hypothesis Hok : registry_ok C r.

Record live_window (live : M1ServingReservedBatchV1) : Prop := {
  lw_token : live_token C r (nw_publication w) live;
  lw_bound : rg_bound_plan r = Some (nw_prior w);
  lw_action : bp_action (pr_batch (nw_publication w)) =
    QuiescentNewWindow (nw_prior w) (bp_plan (pr_batch (nw_publication w)));
  lw_requests : nw_requests w = bp_requests (pr_batch (nw_publication w));
  lw_count : 1 <= vlen (rg_entries r) <= sp_sequence_capacity (bp_plan (pr_batch (nw_publication w)));
  lw_mode : plan_mode (bp_plan (pr_batch (nw_publication w))) = Graph.Prefill;
  lw_predecessors : Forall (predecessor_ok (rg_completed_epoch r) (nw_prior w)) (nw_predecessors w);
  lw_members : Forall3 (window_member (bp_plan (pr_batch (nw_publication w)))) (rg_entries r)
    (nw_requests w) (nw_predecessors w)
}.

Lemma Forall3_length {A B D} (R : A -> B -> D -> Prop) l k m :
  Forall3 R l k m -> length k = length l /\ length m = length l.
Proof. induction 1 as [|??????? ? [? ?]]; cbn; lia. Qed.

Lemma validate_window_wp {S} (s : S) :
  wp (validate_new_window_reservation C r w) s (fun s' o =>
    s' = s /\ (o = Ok tt <-> exists live, live_window live)).
Proof using Hok.
  unfold validate_new_window_reservation. pose proof (validate_reservation_spec C r Hok (nw_publication w)) as Hv.
  assert (Hno : forall err : M1ServingRegistryErrorV1, (forall live, ~ live_window live) ->
    wp (ret (Err err)) s (fun s' (o : RegistryResult unit) => s' = s /\ (o = Ok tt <-> exists live, live_window live))).
  { intros err Hn. apply wp_ret. split; [done|]. split; [done|]. by intros [live ?%Hn]. }
  destruct (validate_reservation C r (nw_publication w)) as [[]|e].
  2:{ apply Hno. intros live [Hl _ _ _ _ _ _ _]. discriminate (proj2 Hv (ex_intro _ live Hl)). }
  destruct (proj1 Hv eq_refl) as [live Hl]. clear Hv.
  match goal with |- wp (if ?bad then _ else _) _ _ => destruct bad eqn:Hb end.
  { apply Hno. intros live' [_ Hb1 Hb2 Hb3 Hb4 Hb5 _ Hb6]. pose proof (ro_count _ _ Hok).
    apply Forall3_length in Hb6 as [Hl1 Hl2]. rewrite Hb3 in Hl1.
    assert (vlen (nw_predecessors w) = vlen (rg_entries r)) as E1 by (unfold vlen; lia).
    assert (vlen (bp_requests (pr_batch (nw_publication w))) = vlen (rg_entries r)) as E2 by (unfold vlen; lia).
    rewrite Hb1, Hb2, Hb3, Hb5, E1, E2, N.eqb_refl, !bool_decide_true in Hb by done. cbn [negb orb] in Hb.
    rewrite (proj2 (N.eqb_neq (vlen (rg_entries r)) 0)), !(proj2 (N.ltb_ge _ _)) in Hb by lia. done. }
  repeat (apply orb_false_iff in Hb as [Hb ?]).
  repeat match goal with
  | H : negb _ = false |- _ => apply negb_false_iff in H
  | H : bool_decide _ = true |- _ => apply bool_decide_eq_true in H
  | H : (_ =? _) = true |- _ => apply N.eqb_eq in H
  | H : (_ =? _) = false |- _ => apply N.eqb_neq in H
  | H : (_ <? _) = false |- _ => apply N.ltb_ge in H
  end.
  destruct (predecessors_loop _ _ _ _) as [[]|] eqn:Hp.
  2:{ apply Hno. intros live' [_ _ _ _ _ _ Hb6 _]. apply (predecessors_loop_spec _ _ _ 0) in Hb6. congruence. }
  apply predecessors_loop_spec in Hp.
  eapply wp_mono; [apply (window_loop_wp _ _ _ [] (nw_predecessors w)); unfold vlen in *; lia|].
  intros s' o [-> ->]. split; [done|]. split.
  - intros Hm. exists live. split; try done; [lia|congruence].
  - intros [live' [_ _ _ Hq _ _ _ Hm]]. by rewrite <- Hq.
Qed.

Lemma window_restore_wp :
  wp (restore_completed_window_replacement C w) r (fun r' o => match o with
    | Ok (p, q) => (exists live, live_window live) /\ p = bp_plan (pr_batch (nw_publication w)) /\
        q = nw_requests w /\ r' = put_entries (nw_predecessors w) (put_reservation None r)
    | Err (e, w') => r' = r /\ w' = w /\ forall live, ~ live_window live
    end).
Proof using Hok.
  unfold restore_completed_window_replacement. wp_step. wp_step. change (id r) with r. wp_step.
  eapply wp_mono; [apply validate_window_wp|]. intros r' [[]|e] [-> Hv].
  - wp_steps. split; [by apply Hv|done].
  - apply wp_ret. do 2 (split; [done|]). intros live Hl. discriminate (proj2 Hv (ex_intro _ live Hl)).
Qed.

(** Every member of an accepted window is published. *)
Lemma window_entries live : live_window live ->
  set_phase (PhaseInFlight (bp_epoch (pr_batch (nw_publication w)))) <$> rg_entries r =
  launch (bp_requests (pr_batch (nw_publication w))) (bp_epoch (pr_batch (nw_publication w))) <$> rg_entries r.
Proof.
  intros [_ _ _ Hq _ _ _ Hm]. apply list_eq. intros i. rewrite !list_lookup_fmap.
  destruct (rg_entries r !! i) as [e|] eqn:He; [|done]. cbn. f_equal. unfold launch.
  destruct (existsb _ _) eqn:E; [done|]. exfalso. rewrite <- Hq in E.
  assert (en_request e ∈ nw_requests w); [|by apply existsb_In in H; congruence].
  clear -Hm He. revert i He. induction Hm as [|x q p l k m [-> _] Hm IH]; intros [|i]; try done; cbn.
  - intros [= <-]. cbn. set_solver.
  - intros Hi%IH. set_solver.
Qed.

Lemma window_record_wp :
  wp (record_new_window_publication C w) r (fun r' o => match o with
    | Ok _ => exists live, live_window live /\ r' = recorded r (pr_batch (nw_publication w)) (next_catchup live)
    | Err (e, w') => r' = r /\ w' = w /\ forall live, ~ live_window live
    end).
Proof using Hok.
  unfold record_new_window_publication. wp_step. wp_step. change (id r) with r. wp_step.
  eapply wp_mono; [apply validate_window_wp|]. intros r' [[]|e] [-> Hv].
  - destruct (proj1 Hv eq_refl) as [live Hl]. rewrite (window_entries live Hl). unfold bind_batch. wp_steps. exists live.
    split; [done|]. pose proof Hl as [[_ _ _ _ _ _ Ha Hv' _ _] _ Hact _ _ _ _ _].
    unfold validate_reserved_action in Hv'. unfold recorded, next_catchup. rewrite Hact in *. rewrite Ha.
    destruct (is_some (rv_draft_catchup live)); [done|]. destruct (rg_draft_catchup r) eqn:Hd; [done|]. by rewrite <- Hd.
  - apply wp_ret. do 2 (split; [done|]). intros live Hl. discriminate (proj2 Hv (ex_intro _ live Hl)).
Qed.

(** What a token keeps of the members it replaced. *)
Record window_ok : Prop := {
  wo_requests : NoDup (en_request <$> nw_predecessors w);
  wo_entries n : Completion.value (bp_epoch (pr_batch (nw_publication w))) = n + 1 ->
    Forall (entry_ok n) (nw_predecessors w)
}.

Lemma window_restored_ok live :
  live_window live -> window_ok -> registry_ok C (put_entries (nw_predecessors w) (put_reservation None r)).
Proof using Hok.
  intros Hl [Hnd' Hes']. pose proof Hl as [Ht _ Hact _ _ _ Hp Hm].
  destruct (token_epoch C r (nw_publication w) live Hok Ht) as [Hepoch _].
  destruct Ht as [_ Hf _ _ _ _ _ Hv _ _]. unfold validate_reserved_action in Hv. rewrite Hact in Hv.
  destruct (is_some (rv_draft_catchup live)); [done|]. destruct (rg_draft_catchup r) eqn:Hd; [done|].
  pose proof (idle_epochs _ _ Hok Hf) as Hidle. pose proof Hok as [Hcap Hn Hnd Hes Hb Hep Hfl Hgr Hres Hcat].
  split; cbn [put_entries put_reservation rg_entries rg_completed_epoch rg_submitted_epoch rg_in_flight
    rg_bound_plan rg_reservation rg_next_reservation_id]; try done.
  - apply Forall3_length in Hm as [_ Hm]. unfold vlen in *. lia.
  - apply Hes'. lia.
  - intros b Hfb. congruence.
  - intros e He Hfly. rewrite Forall_forall in Hp. destruct (Hp e He) as [_ (ep & Hph & _)].
    unfold flying in Hfly. by rewrite Hph in Hfly.
  - unfold catchup_ok. cbn. by rewrite Hd.
Qed.
End token.

Lemma window_token_ok C r plan requests prior :
  registry_ok C r -> rg_in_flight r = None -> window_ok (window_token r plan requests prior).
Proof.
  intros Hok Hf. split; cbn; [apply Hok|]. intros n Hn. rewrite (idle_epochs _ _ Hok Hf) in Hn.
  replace n with (rg_completed_epoch r) by lia. apply Hok.
Qed.
