(* ===== verification/RegistryWorld.v ===== *)
(** A serving registry together with the callers around it: the publication
    tokens they hold, the window tokens, and the history of what was published
    and completed.  [run_op] is one call; [step] says what an accepted call does
    to this world; a refused call does nothing. *)
From S2P Require Import Prelude Spec PlanSelection Platform Registry RegistryFacts RegistryInv RegistryOps RegistryRounds RegistryWindow.
From S2P Require Scheduler SpecLoop M1Completion.
Local Open Scope prog_scope.

Inductive Event :=
| Published (requests : list RequestId) (epoch : N)
| Completed (requests : list RequestId) (epoch : N).

Record World := mkWorld {
  w_registry : M1ServingRegistryV1;
  w_tokens : list M1ServingPublicationReservationV1;
  w_windows : list M1ServingNewWindowPublicationReservationV1;
  w_trace : list Event
}.

Definition put_registry v (w : World) := mkWorld v (w_tokens w) (w_windows w) (w_trace w).
Definition put_tokens v (w : World) := mkWorld (w_registry w) v (w_windows w) (w_trace w).
Definition put_windows v (w : World) := mkWorld (w_registry w) (w_tokens w) v (w_trace w).
Definition put_trace v (w : World) := mkWorld (w_registry w) (w_tokens w) (w_windows w) v.

(** A call of a method; a token is named by its place. *)
Inductive Op :=
| OpAdmit (q : RequestId) (p : M1ServingPlanV1)
| OpCancel (q : RequestId)
| OpTransition (q : RequestId) (p : M1ServingPlanV1)
| OpRemove (q : RequestId)
| OpRetireQueue (bound : M1ServingPlanV1)
| OpRegister (key : M1ServingDraftCatchupKeyV1)
| OpComplete (identity : N) (ep : Completion.CompletionEpoch) (ds : list M1ServingCompletionDispositionV1)
| OpCompleteCatchup (key : M1ServingDraftCatchupKeyV1) (dg : N)
| OpReserve (b : M1ServingBatchPlanV1)
| OpReserveCatchup (b : M1ServingBatchPlanV1) (key : M1ServingDraftCatchupKeyV1)
| OpReserveRestore (b : M1ServingBatchPlanV1) (key : M1ServingDraftCatchupKeyV1) (dg : N)
| OpReserveWindow (p : M1ServingPlanV1) (requests : list RequestId)
| OpAbort (i : nat)
| OpRecord (i : nat)
| OpRestoreWindow (i : nat)
| OpRecordWindow (i : nat)
| OpForeign (t : M1ServingPublicationReservationV1).

Section world.
Context {P : Platform} (C : N).

(** A call that keeps no token. *)
Definition plain {A} (m : R A) : M World bool :=
  let! o := zoom w_registry put_registry m in
  ret (negb (is_err o)).

Definition issue (m : R M1ServingPublicationReservationV1) : M World bool :=
  let! o := zoom w_registry put_registry m in
  match o with
  | Ok t => modify (fun w => put_tokens (w_tokens w ++ [t]) w) ;; ret true
  | Err _ => ret false
  end.

Definition in_flight_requests (r : M1ServingRegistryV1) : list RequestId :=
  match rg_in_flight r with Some b => if_requests b | None => [] end.

(** A completion, logged with the batch it completes. *)
Definition complete_with (requests : list RequestId) (ep : Completion.CompletionEpoch) : M World bool :=
  modify (fun w => put_trace (w_trace w ++ [Completed requests (Completion.value ep)]) w) ;; ret true.

Definition publish (b : M1ServingBatchPlanV1) : M World unit :=
  modify (fun w => put_trace (w_trace w ++ [Published (bp_requests b) (Completion.value (bp_epoch b))]) w).

Definition consume (i : nat)
    (m : M1ServingPublicationReservationV1 ->
       M M1ServingRegistryV1 (result unit (M1ServingRegistryErrorV1 * M1ServingPublicationReservationV1)))
    (log : M1ServingBatchPlanV1 -> M World unit) : M World bool :=
  let! w := gets id in
  match w_tokens w !! i with
  | None => ret false
  | Some t =>
      let! o := zoom w_registry put_registry (m t) in
      match o with
      | Ok _ => modify (fun w => put_tokens (delete i (w_tokens w)) w) ;; log (pr_batch t) ;; ret true
      | Err (_, t) => modify (fun w => put_tokens (<[i := t]> (w_tokens w)) w) ;; ret false
      end
  end.

Definition consume_window {A} (i : nat)
    (m : M1ServingNewWindowPublicationReservationV1 ->
       M M1ServingRegistryV1 (result A (M1ServingRegistryErrorV1 * M1ServingNewWindowPublicationReservationV1)))
    (log : M1ServingBatchPlanV1 -> M World unit) : M World bool :=
  let! w := gets id in
  match w_windows w !! i with
  | None => ret false
  | Some t =>
      let! o := zoom w_registry put_registry (m t) in
      match o with
      | Ok _ =>
          modify (fun w => put_windows (delete i (w_windows w)) w) ;;
          log (pr_batch (nw_publication t)) ;; ret true
      | Err (_, t) => modify (fun w => put_windows (<[i := t]> (w_windows w)) w) ;; ret false
      end
  end.

Definition run_op (op : Op) : M World bool :=
  match op with
  | OpAdmit q p => plain (admit_request C q p)
  | OpCancel q => plain (cancel q)
  | OpTransition q p => plain (transition q p)
  | OpRemove q => plain (remove_retired q)
  | OpRetireQueue bound => plain (record_quiescent_queue_retirement bound)
  | OpRegister key => plain (register_draft_catchup_key key)
  | OpComplete identity ep ds =>
      let! w := gets id in
      match preflight_completion_exact_for (w_registry w) identity ep ds with
      | Err _ => ret false
      | Ok _ =>
          zoom w_registry put_registry (apply_preflighted_completion ep ds) ;;
          complete_with (in_flight_requests (w_registry w)) ep
      end
  | OpCompleteCatchup key dg =>
      let! w := gets id in
      let! o := zoom w_registry put_registry (complete_draft_catchup_key key dg) in
      match o with
      | Ok _ => complete_with (in_flight_requests (w_registry w)) (key_epoch key)
      | Err _ => ret false
      end
  | OpReserve b => issue (reserve_publication C b)
  | OpReserveCatchup b key => issue (reserve_draft_catchup_key C b key)
  | OpReserveRestore b key dg => issue (reserve_draft_catchup_restore_key C b key dg)
  | OpReserveWindow p requests =>
      let! o := zoom w_registry put_registry (reserve_completed_window_replacement C p requests) in
      match o with
      | Ok t => modify (fun w => put_windows (w_windows w ++ [t]) w) ;; ret true
      | Err _ => ret false
      end
  | OpAbort i => consume i (abort_publication C) (fun _ => ret tt)
  | OpRecord i => consume i (record_publication C) publish
  | OpRestoreWindow i => consume_window i (restore_completed_window_replacement C) (fun _ => ret tt)
  | OpRecordWindow i => consume_window i (record_new_window_publication C) publish
  | OpForeign t =>
      let! w := gets id in
      if pr_registry_identity t =? rg_identity (w_registry w) then ret false
      else modify (put_tokens (w_tokens w ++ [t])) ;; ret true
  end.

Fixpoint run_ops (ops : list Op) : M World unit :=
  match ops with
  | [] => ret tt
  | op :: ops' => run_op op ;; run_ops ops'
  end.

(** The plans callers pass were made by [plan_new]. *)
Definition op_ok (op : Op) : Prop :=
  match op with
  | OpAdmit _ p | OpTransition _ p | OpReserveWindow p _ => plan_ok p
  | OpComplete _ _ ds => Forall next_plan_ok ds
  | _ => True
  end.

(** ** What an accepted call does *)

(** Calls without a token. *)
Inductive plain_step (r : M1ServingRegistryV1) : Op -> M1ServingRegistryV1 -> Prop :=
| PlainAdmit q p :
    rg_reservation r = None -> generation q <> 0 -> plan_mode p = Graph.Prefill ->
    (q ∉ (en_request <$> rg_entries r)) -> vlen (rg_entries r) < C ->
    plain_step r (OpAdmit q p) (put_entries (rg_entries r ++ [fresh_entry p q]) r)
| PlainCancel q i e :
    rg_reservation r = None -> rg_entries r !! i = Some e -> en_request e = q ->
    (en_phase e = PhaseReady \/ exists ep, en_phase e = PhaseInFlight ep) ->
    plain_step r (OpCancel q) (put_entries (<[i := set_phase (cancelled_phase e) e]> (rg_entries r)) r)
| PlainTransition q next i e :
    rg_reservation r = None -> rg_draft_catchup r = None -> rg_entries r !! i = Some e -> en_request e = q ->
    en_phase e = PhaseReady -> is_Some (en_last_quiescence e) ->
    validate_plan_transition (en_plan e) next = Ok tt ->
    plain_step r (OpTransition q next)
      (put_entries (<[i := mkEntry q next PhaseReady (en_last_quiescence e)]> (rg_entries r)) r)
| PlainRemove q i e qu :
    rg_reservation r = None -> rg_entries r !! i = Some e -> en_request e = q -> en_phase e = PhaseRetired qu ->
    plain_step r (OpRemove q) (put_entries (delete i (rg_entries r)) r)
| PlainRetireQueue bound :
    rg_reservation r = None -> rg_in_flight r = None -> rg_bound_plan r = Some bound ->
    ready_work_needs_bound_queue r bound = false ->
    plain_step r (OpRetireQueue bound) (put_draft_catchup None (put_bound_plan None r))
| PlainRegister key parent :
    rg_reservation r = None -> rg_in_flight r = None -> rg_draft_catchup r = None ->
    rg_bound_plan r = Some parent -> validate_draft_catchup_ready_key r parent key = Ok tt ->
    plain_step r (OpRegister key) (put_draft_catchup (Some (CatchupPending key)) r).

(** The completions of the batch in flight. *)
Inductive complete_step (r : M1ServingRegistryV1) (b : M1ServingInFlightBatchV1) : Op -> M1ServingRegistryV1 -> Prop :=
| CompleteExactly ep ds :
    completes r ep ds b -> complete_step r b (OpComplete (rg_identity r) ep ds) (completed r b ds)
| CompleteCatchup key dg d :
    catchup_completes r key dg d b ->
    complete_step r b (OpCompleteCatchup key dg)
      (put_draft_catchup (Some (CatchupCompleted key dg)) (completed r b [d])).

(** The reservations of a planned batch. *)
Inductive reserves (r : M1ServingRegistryV1) (b : M1ServingBatchPlanV1) : Op -> option M1ServingDraftCatchupKeyV1 -> Prop :=
| ReservesOrdinary : 
    planned C r b -> ordinary (bp_action b) = true -> rg_next_reservation_id r < u64_max ->
    reserves r b (OpReserve b) None
| ReservesCatchup key :
    planned C r b -> validate_draft_catchup_start r b key = Ok tt -> rg_next_reservation_id r < u64_max ->
    reserves r b (OpReserveCatchup b key) (Some key)
| ReservesRestore key dg :
    planned C r b -> rg_draft_catchup r = Some (CatchupCompleted key dg) ->
    bp_requests b = [key_request key] -> sp_target (bp_plan b) = key_parent key ->
    rg_next_reservation_id r < u64_max -> reserves r b (OpReserveRestore b key dg) None.

Inductive step (w : World) : Op -> World -> Prop :=
| StepPlain op r' : plain_step (w_registry w) op r' -> step w op (put_registry r' w)
| StepComplete op b r' :
    rg_in_flight (w_registry w) = Some b -> complete_step (w_registry w) b op r' ->
    step w op (put_trace (w_trace w ++ [Completed (if_requests b) (Completion.value (if_epoch b))]) (put_registry r' w))
| StepReserve op b key :
    reserves (w_registry w) b op key ->
    step w op (put_tokens (w_tokens w ++ [token_of (w_registry w) b])
      (put_registry (reserved (w_registry w) b key) w))
| StepReserveWindow p requests prior :
    window_due (w_registry w) p requests prior ->
    step w (OpReserveWindow p requests) (put_windows (w_windows w ++ [window_token (w_registry w) p requests prior])
      (put_registry (windowed (w_registry w) p requests prior) w))
| StepAbort i t live :
    w_tokens w !! i = Some t -> live_token C (w_registry w) t live ->
    step w (OpAbort i) (put_tokens (delete i (w_tokens w)) (put_registry (put_reservation None (w_registry w)) w))
| StepRecord i t live :
    w_tokens w !! i = Some t -> live_token C (w_registry w) t live ->
    step w (OpRecord i)
      (put_trace (w_trace w ++ [Published (bp_requests (pr_batch t)) (Completion.value (bp_epoch (pr_batch t)))])
        (put_tokens (delete i (w_tokens w))
          (put_registry (recorded (w_registry w) (pr_batch t) (next_catchup live)) w)))
| StepRestoreWindow i v live :
    w_windows w !! i = Some v -> live_window C (w_registry w) v live ->
    step w (OpRestoreWindow i) (put_windows (delete i (w_windows w))
      (put_registry (put_entries (nw_predecessors v) (put_reservation None (w_registry w))) w))
| StepRecordWindow i v live :
    w_windows w !! i = Some v -> live_window C (w_registry w) v live ->
    step w (OpRecordWindow i)
      (put_trace (w_trace w ++ [Published (bp_requests (pr_batch (nw_publication v)))
                                  (Completion.value (bp_epoch (pr_batch (nw_publication v))))])
        (put_windows (delete i (w_windows w))
          (put_registry (recorded (w_registry w) (pr_batch (nw_publication v)) (next_catchup live)) w)))
| StepForeign t :
    pr_registry_identity t <> rg_identity (w_registry w) ->
    step w (OpForeign t) (put_tokens (w_tokens w ++ [t]) w).
End world.

(** ** Calls and steps *)
Section calls.
Context {P : Platform} {HP : PlatformLaws P} (C : N) (w : World).
Hypothesis Hok : registry_ok C (w_registry w).

Lemma put_registry_id : put_registry (w_registry w) w = w.
Proof. by destruct w. Qed.
Lemma put_tokens_id i t : w_tokens w !! i = Some t -> put_tokens (<[i := t]> (w_tokens w)) w = w.
Proof. intros H. unfold put_tokens. rewrite list_insert_id by done. by destruct w. Qed.
Lemma put_windows_id i v : w_windows w !! i = Some v -> put_windows (<[i := v]> (w_windows w)) w = w.
Proof. intros H. unfold put_windows. rewrite list_insert_id by done. by destruct w. Qed.

(** Only a window reservation asks the host for memory. *)
Definition allocates (op : Op) : bool := match op with OpReserveWindow _ _ => true | _ => false end.

(** What a call leaves: a step if it was accepted; nothing changed if not, and
    then there was no step. *)
Definition called (op : Op) (w' : World) (accepted : bool) : Prop :=
  if accepted then step C w op w' else w' = w /\ (allocates op = false -> forall w2, ~ step C w op w2).

(** The calls without a token, and the reservations of a planned batch. *)
Definition is_plain (op : Op) : bool :=
  match op with
  | OpAdmit _ _ | OpCancel _ | OpTransition _ _ | OpRemove _ | OpRetireQueue _ | OpRegister _ => true
  | _ => false
  end.
Definition is_reserve (op : Op) : bool :=
  match op with OpReserve _ | OpReserveCatchup _ _ | OpReserveRestore _ _ _ => true | _ => false end.
Definition is_complete (op : Op) : bool :=
  match op with OpComplete _ _ _ | OpCompleteCatchup _ _ => true | _ => false end.

Lemma plain_step_kind op r' : plain_step C (w_registry w) op r' -> is_plain op = true.
Proof. by destruct 1. Qed.
Lemma complete_step_kind b op r' : complete_step (w_registry w) b op r' -> is_complete op = true.
Proof. by destruct 1. Qed.
Lemma reserves_kind b op key : reserves C (w_registry w) b op key -> is_reserve op = true.
Proof. by destruct 1. Qed.

(** The step of each kind of call. *)
Lemma step_inv op w' : step C w op w' ->
  (is_plain op = true -> exists r', plain_step C (w_registry w) op r') /\
  (is_complete op = true -> exists b r', complete_step (w_registry w) b op r') /\
  (is_reserve op = true -> exists b key, reserves C (w_registry w) b op key).
Proof.
  destruct 1 as [op r' Hs|op b r' Hb Hs|op b key Hs| | | | | |]; try done; split_and?; try done; intros Hk; eauto.
  - apply plain_step_kind in Hs. by destruct op.
  - apply plain_step_kind in Hs. by destruct op.
  - apply complete_step_kind in Hs. by destruct op.
  - apply complete_step_kind in Hs. by destruct op.
  - apply reserves_kind in Hs. by destruct op.
  - apply reserves_kind in Hs. by destruct op.
Qed.

Lemma plain_called {A} (m : R A) op : is_plain op = true ->
  wp m (w_registry w) (fun r' o => match o with
    | Ok _ => plain_step C (w_registry w) op r'
    | Err _ => r' = w_registry w /\ forall r2, ~ plain_step C (w_registry w) op r2
    end) ->
  wp (plain m) w (called op).
Proof.
  intros Hk H. unfold plain. wp_step. apply wp_zoom. eapply wp_mono; [exact H|]. intros r' [x|e] Hr; apply wp_ret.
  - by apply StepPlain.
  - destruct Hr as [-> Hn]. split; [apply put_registry_id|]. intros _ w2 Hs.
    apply step_inv in Hs as (Hs & _). destruct (Hs Hk) as [r2 H2]. by eapply Hn.
Qed.

Lemma issue_called (m : R M1ServingPublicationReservationV1) op : is_reserve op = true ->
  wp m (w_registry w) (fun r' o => match o with
    | Ok t => exists b key, reserves C (w_registry w) b op key /\ t = token_of (w_registry w) b /\
        r' = reserved (w_registry w) b key
    | Err _ => r' = w_registry w /\ forall b key, ~ reserves C (w_registry w) b op key
    end) ->
  wp (issue m) w (called op).
Proof.
  intros Hk H. unfold issue. wp_step. apply wp_zoom. eapply wp_mono; [exact H|]. intros r' [t|e] Hr.
  - destruct Hr as (b & key & Hb & -> & ->). wp_steps. exact (StepReserve C w op b key Hb).
  - destruct Hr as [-> Hn]. apply wp_ret. split; [apply put_registry_id|]. intros _ w2 Hs.
    apply step_inv in Hs as (_ & _ & Hs). destruct (Hs Hk) as (b & key & H2). by eapply Hn.
Qed.

Lemma consume_called i m log op (Q : M1ServingPublicationReservationV1 -> M1ServingRegistryV1 -> Prop) :
  (forall t, w_tokens w !! i = Some t -> wp (m t) (w_registry w) (fun r' o => match o with
     | Ok _ => Q t r'
     | Err (_, t') => r' = w_registry w /\ t' = t /\ forall live, ~ live_token C (w_registry w) t live
     end)) ->
  (forall w2, step C w op w2 -> exists t live, w_tokens w !! i = Some t /\ live_token C (w_registry w) t live) ->
  (forall t r', w_tokens w !! i = Some t -> Q t r' ->
     wp (log (pr_batch t)) (put_tokens (delete i (w_tokens w)) (put_registry r' w)) (fun w' _ => step C w op w')) ->
  wp (consume i m log) w (called op).
Proof.
  intros Hm Hst Hlog. unfold consume. wp_step. wp_step. change (id w) with w.
  destruct (w_tokens w !! i) as [t|] eqn:Hi.
  2:{ apply wp_ret. split; [done|]. intros _ w2 Hs. destruct (Hst w2 Hs) as (x & live & Hx & _). congruence. }
  wp_step. apply wp_zoom.
  eapply wp_mono; [by apply Hm|]. intros r' [x|[e t']].
  - intros HQ. wp_step. wp_step. wp_step. eapply wp_mono; [by apply Hlog|]. intros w' u Hs. by apply wp_ret.
  - intros (-> & -> & Hn). wp_step. wp_step. apply wp_ret. rewrite put_registry_id.
    split; [by apply put_tokens_id|]. intros _ w2 Hs. destruct (Hst w2 Hs) as (x & live & Hx & Hl).
    eapply (Hn live). congruence.
Qed.

Lemma consume_window_called {A} i m log op
    (Q : M1ServingNewWindowPublicationReservationV1 -> M1ServingRegistryV1 -> Prop) :
  (forall v, w_windows w !! i = Some v -> wp (m v) (w_registry w) (fun r' (o : result A _) => match o with
     | Ok _ => Q v r'
     | Err (_, v') => r' = w_registry w /\ v' = v /\ forall live, ~ live_window C (w_registry w) v live
     end)) ->
  (forall w2, step C w op w2 -> exists v live, w_windows w !! i = Some v /\ live_window C (w_registry w) v live) ->
  (forall v r', w_windows w !! i = Some v -> Q v r' ->
     wp (log (pr_batch (nw_publication v))) (put_windows (delete i (w_windows w)) (put_registry r' w))
       (fun w' _ => step C w op w')) ->
  wp (consume_window i m log) w (called op).
Proof.
  intros Hm Hst Hlog. unfold consume_window. wp_step. wp_step. change (id w) with w.
  destruct (w_windows w !! i) as [t|] eqn:Hi.
  2:{ apply wp_ret. split; [done|]. intros _ w2 Hs. destruct (Hst w2 Hs) as (x & live & Hx & _). congruence. }
  wp_step. apply wp_zoom.
  eapply wp_mono; [by apply Hm|]. intros r' [x|[e t']].
  - intros HQ. wp_step. wp_step. wp_step. eapply wp_mono; [by apply Hlog|]. intros w' u Hs. by apply wp_ret.
  - intros (-> & -> & Hn). wp_step. wp_step. apply wp_ret. rewrite put_registry_id.
    split; [by apply put_windows_id|]. intros _ w2 Hs. destruct (Hst w2 Hs) as (x & live & Hx & Hl).
    eapply (Hn live). congruence.
Qed.

Lemma no_completion op : is_complete op = true ->
  (forall b r', ~ complete_step (w_registry w) b op r') -> called op w false.
Proof.
  intros Hk Hn. split; [done|]. intros _ w2 Hs. apply step_inv in Hs as (_ & Hs & _).
  destruct (Hs Hk) as (b & r' & H2). by eapply Hn.
Qed.

Lemma complete_called identity ep ds : wp (run_op C (OpComplete identity ep ds)) w (called (OpComplete identity ep ds)).
Proof using Hok.
  cbn [run_op]. wp_step. wp_step. change (id w) with w. unfold preflight_completion_exact_for.
  destruct (N.eqb_spec identity (rg_identity (w_registry w))) as [->|]; cbn [negb].
  2:{ apply wp_ret, no_completion; [done|]. intros b r' Hs. by inversion Hs. }
  pose proof (validate_completion_spec C _ Hok ep ds) as Hv.
  destruct (validate_completion_exact _ _ _) as [[]|].
  2:{ apply wp_ret, no_completion; [done|]. intros b r' Hs. inversion Hs as [ep' ds' Hc|]; subst.
      discriminate (proj2 Hv (ex_intro _ b Hc)). }
  destruct (proj1 Hv eq_refl) as [b Hb]. pose proof Hb as (Hf & Hc & -> & Hd).
  wp_step. apply wp_zoom. eapply wp_mono; [apply (apply_completion_wp C _ b Hok Hf); by rewrite (Forall2_length _ _ _ Hd)|].
  intros r' _ ->. unfold complete_with, in_flight_requests. rewrite Hf. wp_step. wp_step. apply wp_ret.
  eapply (StepComplete C w _ b); [done|]. by apply CompleteExactly.
Qed.

Lemma complete_catchup_called key dg : wp (run_op C (OpCompleteCatchup key dg)) w (called (OpCompleteCatchup key dg)).
Proof using Hok.
  cbn [run_op]. wp_step. wp_step. change (id w) with w. wp_step. apply wp_zoom.
  eapply wp_mono; [apply (catchup_completion_wp C _ Hok)|]. intros r' [[]|e].
  - intros (d & b & Hd & ->). unfold complete_with, in_flight_requests. rewrite (cc_flight _ _ _ _ _ Hd).
    rewrite <- (cc_epoch _ _ _ _ _ Hd). wp_step. wp_step. apply wp_ret.
    eapply (StepComplete C w _ b); [apply Hd|]. by apply CompleteCatchup.
  - intros [-> Hn]. apply wp_ret. rewrite put_registry_id. apply no_completion; [done|].
    intros b r' Hs. inversion Hs; subst. by eapply Hn.
Qed.

Lemma plain_calls op : is_plain op = true -> wp (run_op C op) w (called op).
Proof using Hok.
  intros Hk. destruct op; try done; cbn [run_op]; (apply plain_called; [done|]).
  - eapply wp_mono; [by apply admit_request_wp|]. intros r' [x|e].
    + intros (? & ? & ? & ? & ? & ->). by apply PlainAdmit.
    + intros [-> Hn]. split; [done|]. intros r2 Hs. inversion Hs; subst. by apply Hn.
  - eapply wp_mono; [by apply (cancel_wp C)|]. intros r' [x|e].
    + intros (? & i & e & ? & ? & ? & _ & ->). by eapply PlainCancel.
    + intros [-> Hn]. split; [done|]. intros r2 Hs. inversion Hs; subst. by eapply Hn.
  - eapply wp_mono; [by apply (transition_wp C)|]. intros r' [x|e].
    + intros (? & ? & i & e & ? & ? & ? & ? & ? & ->). by apply PlainTransition.
    + intros [-> Hn]. split; [done|]. intros r2 Hs. inversion Hs; subst. by eapply Hn.
  - eapply wp_mono; [by apply (remove_wp C)|]. intros r' [x|e].
    + intros (? & i & e & ? & ? & ? & ->). by eapply PlainRemove.
    + intros [-> Hn]. split; [done|]. intros r2 Hs. inversion Hs; subst. by eapply Hn.
  - eapply wp_mono; [by apply retirement_wp|]. intros r' [x|e].
    + intros (? & ? & ? & ? & ->). by apply PlainRetireQueue.
    + intros [-> Hn]. split; [done|]. intros r2 Hs. inversion Hs; subst. by apply Hn.
  - eapply wp_mono; [by apply register_wp|]. intros r' [x|e].
    + intros (? & ? & ? & (parent & ? & ?) & ->). by eapply PlainRegister.
    + intros [-> Hn]. split; [done|]. intros r2 Hs. inversion Hs; subst. naive_solver.
Qed.

Lemma reserve_calls op : is_reserve op = true -> wp (run_op C op) w (called op).
Proof using HP Hok.
  intros Hk. destruct op as [| | | | | | | |b|b key|b key dg| | | | | |]; try done; cbn [run_op]; (apply issue_called; [done|]).
  - eapply wp_mono; [by apply (reserve_wp C)|]. intros r' [t|e].
    + intros (? & ? & ? & -> & ->). eexists _, _. split; [by apply ReservesOrdinary|done].
    + intros [-> Hn]. split; [done|]. intros b' key Hs. inversion Hs; subst. by apply Hn.
  - eapply wp_mono; [by apply (reserve_catchup_wp C)|]. intros r' [t|e].
    + intros (? & ? & ? & -> & ->). eexists _, _. split; [by apply ReservesCatchup|done].
    + intros [-> Hn]. split; [done|]. intros b' key' Hs. inversion Hs; subst. by apply Hn.
  - eapply wp_mono; [by apply (reserve_restore_wp C)|]. intros r' [t|e].
    + intros (? & ? & ? & ? & ? & -> & ->). eexists _, _. split; [by eapply ReservesRestore|done].
    + intros [-> Hn]. split; [done|]. intros b' key' Hs. inversion Hs; subst. by apply Hn.
Qed.

Lemma step_token op w2 : step C w op w2 ->
  match op with
  | OpAbort i | OpRecord i => exists t live, w_tokens w !! i = Some t /\ live_token C (w_registry w) t live
  | OpRestoreWindow i | OpRecordWindow i =>
      exists v live, w_windows w !! i = Some v /\ live_window C (w_registry w) v live
  | OpForeign t => pr_registry_identity t <> rg_identity (w_registry w)
  | _ => True
  end.
Proof.
  destruct 1 as [op r' Hs|op b r' Hb Hs|op b key Hs| | | | | |]; try done; try (by eauto).
  - by destruct Hs.
  - by destruct Hs.
  - by destruct Hs.
Qed.

Lemma token_calls i : wp (run_op C (OpAbort i)) w (called (OpAbort i)) /\ wp (run_op C (OpRecord i)) w (called (OpRecord i)).
Proof using Hok.
  split; cbn [run_op].
  - apply (consume_called _ _ _ _ (fun t r' => exists live, live_token C (w_registry w) t live /\
      r' = put_reservation None (w_registry w))).
    + intros t _. eapply wp_mono; [by apply (abort_wp C)|]. intros r' [x|[e t']]; [|naive_solver].
      intros [[live ?] ->]. by exists live.
    + intros w2 Hs. exact (step_token _ _ Hs).
    + intros t r' Hi (live & Hl & ->). apply wp_ret. exact (StepAbort C w i t live Hi Hl).
  - apply (consume_called _ _ _ _ (fun t r' => exists live, live_token C (w_registry w) t live /\
      r' = recorded (w_registry w) (pr_batch t) (next_catchup live))).
    + intros t _. eapply wp_mono; [by apply (record_wp C)|]. intros r' [x|[e t']]; naive_solver.
    + intros w2 Hs. exact (step_token _ _ Hs).
    + intros t r' Hi (live & Hl & ->). apply wp_modify. exact (StepRecord C w i t live Hi Hl).
Qed.

Lemma window_calls i : wp (run_op C (OpRestoreWindow i)) w (called (OpRestoreWindow i)) /\
  wp (run_op C (OpRecordWindow i)) w (called (OpRecordWindow i)).
Proof using Hok.
  split; cbn [run_op].
  - apply (consume_window_called _ _ _ _ (fun v r' => exists live, live_window C (w_registry w) v live /\
      r' = put_entries (nw_predecessors v) (put_reservation None (w_registry w)))).
    + intros v _. eapply wp_mono; [by apply (window_restore_wp C)|]. intros r' [[p q]|[e t']]; [|naive_solver].
      intros ([live ?] & _ & _ & ->). by exists live.
    + intros w2 Hs. exact (step_token _ _ Hs).
    + intros t r' Hi (live & Hl & ->). apply wp_ret. exact (StepRestoreWindow C w i t live Hi Hl).
  - apply (consume_window_called _ _ _ _ (fun v r' => exists live, live_window C (w_registry w) v live /\
      r' = recorded (w_registry w) (pr_batch (nw_publication v)) (next_catchup live))).
    + intros v _. eapply wp_mono; [by apply (window_record_wp C)|]. intros r' [x|[e t']]; naive_solver.
    + intros w2 Hs. exact (step_token _ _ Hs).
    + intros t r' Hi (live & Hl & ->). apply wp_modify. exact (StepRecordWindow C w i t live Hi Hl).
Qed.

Lemma call_wp op : wp (run_op C op) w (called op).
Proof using HP Hok.
  destruct op; try (by apply plain_calls); try (by apply reserve_calls); try apply token_calls; try apply window_calls.
  - apply complete_called.
  - apply complete_catchup_called.
  - cbn [run_op]. wp_step. apply wp_zoom. eapply wp_mono; [by apply (window_reserve_wp C)|]. intros r' [t|[[e p'] q']].
    + intros (prior & Hd & -> & ->). wp_step. wp_step. apply wp_ret. exact (StepReserveWindow C w p requests prior Hd).
    + intros (-> & _). apply wp_ret. split; [apply put_registry_id|done].
  - cbn [run_op]. wp_step. wp_step. change (id w) with w.
    destruct (N.eqb_spec (pr_registry_identity t) (rg_identity (w_registry w))).
    { apply wp_ret. split; [done|]. intros _ w2 Hs. exact (step_token _ _ Hs ltac:(done)). }
    wp_step. wp_step. apply wp_ret. by apply StepForeign.
Qed.
End calls.
