(* ===== verification/RegistryWorldInv.v ===== *)
(** The invariant of a serving registry and its callers, kept by every call. *)
From S2P Require Import Prelude Spec PlanSelection Platform Registry RegistryFacts RegistryInv RegistryOps RegistryRounds RegistryWindow RegistryWorld.
From S2P Require Scheduler SpecLoop M1Completion.
Local Open Scope prog_scope.

(** ** A reservation is honoured *)
Section live.
Context {P : Platform} {HP : PlatformLaws P} (C : N) (r : M1ServingRegistryV1).
Hypothesis Hok : registry_ok C r.

Lemma ordinary_no_catchup b : planned C r b -> ordinary (bp_action b) = true -> rg_draft_catchup r = None.
Proof using HP Hok.
  intros Hp Ho. destruct (planned_fields C r Hok b Hp) as (_ & _ & _ & _ & _ & _ & _ & Hc & _).
  unfold classify_next_queue_action in Hc. destruct (rg_draft_catchup r) as [[]|]; [| | |done].
  1, 3: destruct (_ && _ && _); [|done]; injection Hc as Hc; by rewrite <- Hc in Ho.
  done.
Qed.

Lemma restore_action b key dg :
  planned C r b -> rg_draft_catchup r = Some (CatchupCompleted key dg) ->
  bp_action b = QuiescentDraftCatchupRestore (bp_plan b).
Proof using HP Hok.
  intros Hp Hd. destruct (planned_fields C r Hok b Hp) as (_ & _ & _ & _ & _ & _ & _ & Hc & _).
  unfold classify_next_queue_action in Hc. rewrite Hd in Hc. destruct (_ && _ && _); [|done]. by injection Hc.
Qed.

Lemma reserves_planned op b key : reserves C r b op key -> planned C r b.
Proof. by destruct 1. Qed.

Definition reserved_entry (b : M1ServingBatchPlanV1) (key : option M1ServingDraftCatchupKeyV1) :
    M1ServingReservedBatchV1 :=
  mkReserved (rg_next_reservation_id r) (bp_plan b) (bp_epoch b) (bp_action b) key.

Lemma reserved_action op b key :
  reserves C r b op key -> validate_reserved_action C (reserved r b key) (reserved_entry b key) b = Ok tt.
Proof using HP Hok.
  intros Hr. pose proof (reserves_planned _ _ _ Hr) as Hp. unfold validate_reserved_action. destruct Hr as [_ Ho _|key _ Hs _|key dg _ Hd Hq Ht _].
  - cbn [reserved_entry rv_draft_catchup is_some orb reserved put_next_reservation_id put_reservation rg_draft_catchup].
    rewrite (ordinary_no_catchup b Hp Ho). by destruct (bp_action b).
  - pose proof (proj1 (start_fields _ _ _) Hs) as (_ & Ha & _). rewrite Ha.
    cbn [reserved_entry rv_draft_catchup]. rewrite bool_decide_true by done. exact Hs.
  - rewrite (restore_action b key dg Hp Hd).
    change (rg_draft_catchup (reserved r b None)) with (rg_draft_catchup r). rewrite Hd.
    cbn [reserved_entry rv_draft_catchup is_some orb]. rewrite !bool_decide_true by done. cbn [negb orb].
    change (validate_next_batch C r b = Ok tt).
    destruct (planned_fields C r Hok b Hp) as (Hr & Hf & _).
    apply (validate_next_batch_spec C r b (ro_capacity _ _ Hok) (entries_plan_ok _ _ Hok)); [|done..].
    unfold reject_live_reservation. by rewrite Hr.
Qed.

(** The token of a reservation is the one the registry honours. *)
Lemma reserved_live op b key :
  reserves C r b op key -> live_token C (reserved r b key) (token_of r b) (reserved_entry b key).
Proof using HP Hok.
  intros Hr. pose proof (reserved_action op b key Hr) as Ha. apply reserves_planned in Hr.
  destruct (planned_fields C r Hok b Hr) as (_ & Hf & _ & Hq & Hd & _). by split.
Qed.

Lemma ready_of_fresh plan requests n : (length requests <= N.to_nat n)%nat ->
  take (N.to_nat n) (List.filter (fun e => is_ready e && bool_decide (en_plan e = plan)) (fresh_entry plan <$> requests)) =
  fresh_entry plan <$> requests.
Proof.
  intros Hl. assert (Hf : List.filter (fun e => is_ready e && bool_decide (en_plan e = plan)) (fresh_entry plan <$> requests) =
    fresh_entry plan <$> requests).
  { clear Hl. induction requests as [|q requests IH]; [done|]. cbn. rewrite bool_decide_true by done. by f_equal. }
  rewrite Hf. apply take_ge. by rewrite length_fmap.
Qed.

Lemma windowed_due p requests prior :
  window_due r p requests prior ->
  due_roster C (windowed r p requests prior) p = requests /\ due_ready C (windowed r p requests prior) p.
Proof using Hok.
  intros [H1 H2 H3 H4 H5 H6 H7 H8 H9 H10].
  assert (Hd : due_roster C (windowed r p requests prior) p = requests).
  { unfold due_roster. change (rg_draft_catchup (windowed r p requests prior)) with (rg_draft_catchup r). rewrite H3.
    unfold ready_of_plan. cbn [windowed put_entries rg_entries]. rewrite ready_of_fresh.
    - rewrite <- list_fmap_compose. apply list_fmap_id.
    - pose proof (Forall2_length _ _ _ H8). pose proof (ro_count _ _ Hok). unfold vlen in *. lia. }
  split; [done|]. unfold due_ready. change (rg_draft_catchup (windowed r p requests prior)) with (rg_draft_catchup r).
  rewrite H3, Hd. destruct requests; [|done]. change (vlen (@nil RequestId)) with 0 in H7. lia.
Qed.

Lemma windowed_live p requests prior :
  window_due r p requests prior ->
  live_window C (windowed r p requests prior) (window_token r p requests prior)
    (reserved_entry (window_batch r p requests prior) None).
Proof using Hok.
  intros Hw. destruct (windowed_due _ _ _ Hw) as [Hd Hr]. destruct Hw as [H1 H2 H3 H4 H5 H6 H7 H8 H9 H10].
  split; try done.
  - split; try done. unfold validate_reserved_action. cbn. by rewrite H3.
  - cbn. unfold vlen in *. rewrite length_fmap. done.
  - cbn. clear -H8. induction H8; constructor; [by split|done].
Qed.
End live.

(** ** The invariant *)
Definition all_tokens (w : World) : list M1ServingPublicationReservationV1 :=
  w_tokens w ++ (nw_publication <$> w_windows w).

(** The identities of the outstanding tokens of the registry itself. *)
Definition own_ids (w : World) : list N :=
  pr_id <$> filter (fun t => pr_registry_identity t = rg_identity (w_registry w)) (all_tokens w).

Definition publications (tr : list Event) : list (list RequestId * N) :=
  omap (fun e => match e with Published q n => Some (q, n) | _ => None end) tr.
Definition completions (tr : list Event) : list (list RequestId * N) :=
  omap (fun e => match e with Completed q n => Some (q, n) | _ => None end) tr.

Definition flight_of (r : M1ServingRegistryV1) : list (list RequestId * N) :=
  match rg_in_flight r with Some b => [(if_requests b, Completion.value (if_epoch b))] | None => [] end.

Definition epochs (n : N) : list N := N.of_nat <$> seq 1 (N.to_nat n).

Section invariant.
Context {P : Platform} (C : N).

(** The outstanding token that the registry honours. *)
Definition honoured (w : World) (live : M1ServingReservedBatchV1) : Prop :=
  (exists i t, w_tokens w !! i = Some t /\ live_token C (w_registry w) t live) \/
  (exists i v, w_windows w !! i = Some v /\ live_window C (w_registry w) v live).

Record world_ok (w : World) : Prop := {
  wk_registry : registry_ok C (w_registry w);
  wk_windows v : v ∈ w_windows w -> window_ok v;
  wk_ids i : i ∈ own_ids w -> i < rg_next_reservation_id (w_registry w);
  wk_unique : NoDup (own_ids w);
  wk_live live : rg_reservation (w_registry w) = Some live -> honoured w live;
  wk_trace : publications (w_trace w) = completions (w_trace w) ++ flight_of (w_registry w);
  wk_epochs : snd <$> completions (w_trace w) = epochs (rg_completed_epoch (w_registry w))
}.
End invariant.

(** ** Tokens come and go *)
Definition ids_of (identity : N) (l : list M1ServingPublicationReservationV1) : list N :=
  pr_id <$> filter (fun t => pr_registry_identity t = identity) l.

Lemma ids_of_perm identity l k : l ≡ₚ k -> ids_of identity l ≡ₚ ids_of identity k.
Proof. intros H. unfold ids_of. by rewrite H. Qed.

(** Issuing a token with a fresh identity. *)
Lemma ids_issue identity l k t n :
  k ≡ₚ t :: l -> (pr_registry_identity t = identity -> pr_id t = n) ->
  (forall i, i ∈ ids_of identity l -> i < n) -> NoDup (ids_of identity l) ->
  (forall i, i ∈ ids_of identity k -> i < n + 1) /\ NoDup (ids_of identity k).
Proof.
  intros Hk Ht Hl Hnd. pose proof (ids_of_perm identity _ _ Hk) as Hp. unfold ids_of at 2 in Hp. rewrite filter_cons in Hp.
  destruct (decide _) as [E|E]; cbn [fmap list_fmap] in Hp; fold (ids_of identity l) in Hp.
  - rewrite (Ht E) in Hp. split.
    + intros i. rewrite Hp. intros [->|Hi%Hl]%elem_of_cons; lia.
    + rewrite Hp. apply NoDup_cons. split; [|done]. intros Hn%Hl. lia.
  - split.
    + intros i. rewrite Hp. intros Hi%Hl. lia.
    + by rewrite Hp.
Qed.

(** Using one up. *)
Lemma ids_consume identity l k t n :
  l ≡ₚ t :: k -> (forall i, i ∈ ids_of identity l -> i < n) -> NoDup (ids_of identity l) ->
  (forall i, i ∈ ids_of identity k -> i < n) /\ NoDup (ids_of identity k).
Proof.
  intros Hk Hl Hnd. pose proof (ids_of_perm identity _ _ Hk) as Hp. unfold ids_of at 2 in Hp. rewrite filter_cons in Hp.
  destruct (decide _) as [E|E]; cbn [fmap list_fmap] in Hp; fold (ids_of identity k) in Hp.
  - rewrite Hp in Hnd. apply NoDup_cons in Hnd as [_ Hnd]. split; [|done].
    intros i Hi. apply Hl. rewrite Hp. by right.
  - rewrite Hp in Hnd. split; [|done]. intros i Hi. apply Hl. by rewrite Hp.
Qed.

Lemma tokens_issue (l : list M1ServingPublicationReservationV1) k t : (l ++ [t]) ++ k ≡ₚ t :: l ++ k.
Proof. rewrite <- app_assoc. cbn. by rewrite <- Permutation_middle. Qed.

Lemma tokens_consume (l : list M1ServingPublicationReservationV1) k i t : l !! i = Some t -> l ++ k ≡ₚ t :: delete i l ++ k.
Proof. intros H. by rewrite (delete_Permutation _ _ _ H) at 1. Qed.

Lemma windows_consume (l : list M1ServingPublicationReservationV1) k i v : k !! i = Some v ->
  l ++ (nw_publication <$> k) ≡ₚ nw_publication v :: l ++ (nw_publication <$> delete i k).
Proof. intros H. rewrite (delete_Permutation _ _ _ H) at 1. cbn. by rewrite <- Permutation_middle. Qed.

Lemma windows_issue (l : list M1ServingPublicationReservationV1) k v :
  l ++ (nw_publication <$> (k ++ [v])) ≡ₚ nw_publication v :: l ++ (nw_publication <$> k).
Proof. rewrite fmap_app, app_assoc. cbn. by rewrite <- Permutation_cons_append. Qed.

(** ** Steps keep the invariant *)
Section steps.
Context {P : Platform} {HP : PlatformLaws P} (C : N) (w : World).
Hypothesis Hok : world_ok C w.

Lemma plain_ok op r' : op_ok op -> plain_step C (w_registry w) op r' -> registry_ok C r'.
Proof using Hok.
  intros Hop Hs. pose proof (wk_registry _ _ Hok) as Hr. destruct Hs; cbn [op_ok] in Hop.
  - by apply admit_ok.
  - by apply cancel_ok.
  - subst q. by apply transition_ok.
  - by eapply remove_ok.
  - by apply retirement_ok.
  - apply register_ok; [done|done|]. by exists parent.
Qed.

(** A plain call runs without a reservation and leaves the batch in flight. *)
Lemma plain_same op r' : plain_step C (w_registry w) op r' ->
  rg_reservation r' = None /\ rg_identity r' = rg_identity (w_registry w) /\
  rg_next_reservation_id r' = rg_next_reservation_id (w_registry w) /\
  rg_in_flight r' = rg_in_flight (w_registry w) /\ rg_completed_epoch r' = rg_completed_epoch (w_registry w).
Proof using Type. by destruct 1. Qed.

Lemma step_plain_ok op r' : op_ok op -> plain_step C (w_registry w) op r' -> world_ok C (put_registry r' w).
Proof using Hok.
  intros Hop Hs. pose proof (plain_ok _ _ Hop Hs). destruct (plain_same _ _ Hs) as (H1 & H2 & H3 & H4 & H5).
  destruct Hok as [W1 W2 W3 W4 W5 W6 W7]. split; cbn [put_registry w_registry w_windows w_trace]; try done.
  - intros i Hi. rewrite H3. apply W3. unfold own_ids in *. cbn [put_registry w_registry] in Hi. by rewrite H2 in Hi.
  - unfold own_ids. cbn [put_registry w_registry]. by rewrite H2.
  - intros live Hl. congruence.
  - unfold flight_of. by rewrite H4.
  - by rewrite H5.
Qed.

Lemma epochs_succ n : epochs (n + 1) = epochs n ++ [n + 1].
Proof.
  unfold epochs. rewrite N.add_1_r, N2Nat.inj_succ, seq_S, fmap_app. cbn. f_equal. f_equal. lia.
Qed.

Lemma complete_state b op r' : op_ok op ->
  rg_in_flight (w_registry w) = Some b -> complete_step (w_registry w) b op r' ->
  registry_ok C r' /\ rg_identity r' = rg_identity (w_registry w) /\ rg_reservation r' = None /\
  rg_next_reservation_id r' = rg_next_reservation_id (w_registry w) /\ rg_in_flight r' = None /\
  rg_completed_epoch r' = Completion.value (if_epoch b).
Proof using Hok.
  intros Hop Hb Hs. pose proof (wk_registry _ _ Hok) as Hr. destruct (flight C _ b Hr Hb) as [Hres _].
  destruct Hs as [ep ds Hc|key dg d Hc]; (split; [|done]).
  - destruct Hc as (_ & Hd & _ & Hf). apply completed_ok; try done. by rewrite (Forall2_length _ _ _ Hf).
  - by apply catchup_completed_ok.
Qed.

Lemma step_complete_ok b op r' : op_ok op ->
  rg_in_flight (w_registry w) = Some b -> complete_step (w_registry w) b op r' ->
  world_ok C (put_trace (w_trace w ++ [Completed (if_requests b) (Completion.value (if_epoch b))]) (put_registry r' w)).
Proof using Hok.
  intros Hop Hb Hs. destruct (complete_state b op r' Hop Hb Hs) as (H1 & H2 & H3 & H4 & H5 & H6).
  destruct (completed_epoch C _ b (wk_registry _ _ Hok) Hb) as [Hep _].
  destruct Hok as [W1 W2 W3 W4 W5 W6 W7]. split; cbn [put_trace put_registry w_registry w_windows w_trace]; try done.
  - intros i Hi. rewrite H4. apply W3. unfold own_ids in *. cbn [put_trace put_registry w_registry] in Hi. by rewrite H2 in Hi.
  - unfold own_ids. cbn [put_trace put_registry w_registry]. by rewrite H2.
  - intros live Hl. congruence.
  - unfold flight_of in *. rewrite Hb in W6. rewrite H5. unfold publications, completions in *.
    rewrite !omap_app. cbn. by rewrite !app_nil_r.
  - unfold completions in *. rewrite omap_app, fmap_app. cbn. by rewrite W7, H6, Hep, epochs_succ.
Qed.

(** Issuing a token: the next identity, reserved by the registry [r']. *)
Lemma issue_ok r' tokens windows t :
  registry_ok C r' -> rg_identity r' = rg_identity (w_registry w) ->
  rg_next_reservation_id r' = rg_next_reservation_id (w_registry w) + 1 ->
  rg_in_flight r' = rg_in_flight (w_registry w) -> rg_completed_epoch r' = rg_completed_epoch (w_registry w) ->
  tokens ++ (nw_publication <$> windows) ≡ₚ t :: all_tokens w ->
  (pr_registry_identity t = rg_identity (w_registry w) -> pr_id t = rg_next_reservation_id (w_registry w)) ->
  (forall v, v ∈ windows -> window_ok v) ->
  (forall live, rg_reservation r' = Some live -> honoured C (mkWorld r' tokens windows (w_trace w)) live) ->
  world_ok C (mkWorld r' tokens windows (w_trace w)).
Proof using Hok.
  intros H1 H2 H3 H4 H5 H6 H7 H8 H9. destruct Hok as [W1 W2 W3 W4 W5 W6 W7].
  destruct (ids_issue (rg_identity (w_registry w)) _ _ t _ H6 H7 W3 W4) as [Hi Hn].
  split; cbn [w_registry w_windows w_trace]; try done.
  - unfold own_ids, all_tokens. cbn [w_registry w_windows w_tokens]. rewrite H2, H3. exact Hi.
  - unfold own_ids, all_tokens. cbn [w_registry w_windows w_tokens]. rewrite H2. exact Hn.
  - unfold flight_of. by rewrite H4.
  - by rewrite H5.
Qed.

(** Using up the token the registry honours. *)
Lemma consume_ok r' tokens windows t trace :
  registry_ok C r' -> rg_identity r' = rg_identity (w_registry w) ->
  rg_next_reservation_id r' = rg_next_reservation_id (w_registry w) -> rg_reservation r' = None ->
  rg_completed_epoch r' = rg_completed_epoch (w_registry w) ->
  all_tokens w ≡ₚ t :: tokens ++ (nw_publication <$> windows) ->
  (forall v, v ∈ windows -> v ∈ w_windows w) ->
  publications trace = completions trace ++ flight_of r' -> completions trace = completions (w_trace w) ->
  world_ok C (mkWorld r' tokens windows trace).
Proof using Hok.
  intros H1 H2 H3 H4 H5 H6 H7 H8 H9. destruct Hok as [W1 W2 W3 W4 W5 W6 W7].
  destruct (ids_consume (rg_identity (w_registry w)) _ _ t _ H6 W3 W4) as [Hi Hn].
  split; cbn [w_registry w_windows w_trace]; try done.
  - intros v Hv. by apply W2, H7.
  - unfold own_ids, all_tokens. cbn [w_registry w_windows w_tokens]. rewrite H2, H3. exact Hi.
  - unfold own_ids, all_tokens. cbn [w_registry w_windows w_tokens]. rewrite H2. exact Hn.
  - intros live Hl. congruence.
  - by rewrite H9, W7, H5.
Qed.

Lemma published_trace r' b :
  rg_in_flight (w_registry w) = None ->
  rg_in_flight r' = Some (mkInFlight (bp_plan b) (bp_requests b) (bp_epoch b)) ->
  publications (w_trace w ++ [Published (bp_requests b) (Completion.value (bp_epoch b))]) =
    completions (w_trace w ++ [Published (bp_requests b) (Completion.value (bp_epoch b))]) ++ flight_of r' /\
  completions (w_trace w ++ [Published (bp_requests b) (Completion.value (bp_epoch b))]) = completions (w_trace w).
Proof using Hok.
  intros Hf Hf'. pose proof (wk_trace _ _ Hok) as Ht. unfold flight_of in *. rewrite Hf in Ht. rewrite Hf'.
  rewrite app_nil_r in Ht. unfold publications, completions in *. rewrite !omap_app. cbn. by rewrite app_nil_r, Ht.
Qed.

Lemma delete_elem {A} (l : list A) i x : x ∈ delete i l -> x ∈ l.
Proof using Type. intros H. by apply (sublist_subseteq _ _ (sublist_delete l i)). Qed.

Lemma step_world_ok op w' : op_ok op -> step C w op w' -> world_ok C w'.
Proof using HP Hok.
  intros Hop Hs. pose proof (wk_registry _ _ Hok) as Hr.
  destruct Hs as [op r' Hs|op b r' Hb Hs|op b key Hs|p requests prior Hd|i t live Hi Hl|i t live Hi Hl|i v live Hi Hl
                 |i v live Hi Hl|t Ht].
  - by eapply step_plain_ok.
  - by eapply step_complete_ok.
  - pose proof (reserves_planned _ _ _ _ _ Hs) as Hp.
    apply (issue_ok _ _ _ (token_of (w_registry w) b)); try done.
    + by apply planned_reserved_ok.
    + apply tokens_issue.
    + apply Hok.
    + intros live [= <-]. left. exists (length (w_tokens w)), (token_of (w_registry w) b).
      split; [by apply list_lookup_middle|]. exact (reserved_live C _ Hr _ _ _ Hs).
  - apply (issue_ok _ _ _ (nw_publication (window_token (w_registry w) p requests prior))); try done.
    + by apply windowed_ok.
    + apply windows_issue.
    + intros v [Hv|Hv]%elem_of_app; [by apply Hok|]. apply list_elem_of_singleton in Hv as ->.
      apply (window_token_ok C); [done|apply Hd].
    + intros live [= <-]. right. exists (length (w_windows w)), (window_token (w_registry w) p requests prior).
      split; [by apply list_lookup_middle|]. by apply windowed_live.
  - apply (consume_ok _ _ _ t); try done.
    + by eapply aborted_ok.
    + by apply tokens_consume.
    + apply (wk_trace _ _ Hok).
  - destruct (published_trace (recorded (w_registry w) (pr_batch t) (next_catchup live)) (pr_batch t)) as [H1 H2];
      [apply Hl|done|]. apply (consume_ok _ _ _ t); try done.
    + by apply (recorded_ok C _ t).
    + by apply tokens_consume.
  - assert (Hf : rg_in_flight (w_registry w) = None) by apply Hl.
    apply (consume_ok _ _ _ (nw_publication v)); try done.
    + eapply window_restored_ok; [done|done|]. apply Hok. by eapply list_elem_of_lookup_2.
    + by apply windows_consume.
    + intros x Hx. exact (delete_elem (w_windows w) i x Hx).
    + apply (wk_trace _ _ Hok).
  - destruct (published_trace (recorded (w_registry w) (pr_batch (nw_publication v)) (next_catchup live))
      (pr_batch (nw_publication v))) as [H1 H2]; [apply Hl|done|]. apply (consume_ok _ _ _ (nw_publication v)); try done.
    + apply (recorded_ok C _ (nw_publication v)); [done|apply Hl].
    + by apply windows_consume.
    + intros x Hx. exact (delete_elem (w_windows w) i x Hx).
  - destruct Hok as [W1 W2 W3 W4 W5 W6 W7].
    assert (Hids : own_ids (put_tokens (w_tokens w ++ [t]) w) ≡ₚ own_ids w).
    { unfold own_ids, all_tokens. cbn [put_tokens w_registry w_windows w_tokens]. rewrite tokens_issue, filter_cons.
      by rewrite decide_False. }
    split; try done.
    + intros i. rewrite Hids. apply W3.
    + by rewrite Hids.
    + intros live Hl. destruct (W5 live Hl) as [(i & x & Hi & Hx)|Hv]; [left|by right].
      exists i, x. split; [|done]. cbn. by apply lookup_app_l_Some.
Qed.

Lemma run_op_ok op : op_ok op -> wp (run_op C op) w (fun w' _ => world_ok C w').
Proof using HP Hok.
  intros Hop. eapply wp_mono; [apply call_wp, Hok|]. intros w' [] Hs; cbn in Hs; [by eapply step_world_ok|by destruct Hs as [-> _]].
Qed.
End steps.

Lemma run_ops_ok {P : Platform} {HP : PlatformLaws P} C ops : forall w,
  world_ok C w -> Forall op_ok ops -> wp (run_ops C ops) w (fun w' _ => world_ok C w').
Proof.
  induction ops as [|op ops IH]; intros w Hw Ho; cbn [run_ops]; [by apply wp_ret|].
  apply Forall_cons in Ho as [Ho1 Ho2]. wp_step. eapply wp_mono; [by apply run_op_ok|]. intros w' b Hw'. by apply IH.
Qed.

Definition start (r : M1ServingRegistryV1) : World := mkWorld r [] [] [].

Lemma start_world_ok {P : Platform} C counter counter' r : new C counter = Done counter' (Ok r) -> world_ok C (start r).
Proof.
  intros Hn. pose proof (new_ok _ _ _ _ Hn) as Hr.
  assert (r = mkRegistry (rg_identity r) [] None None None None 1 0 0) as E.
  { revert Hn. unfold new. destruct (_ =? 0); [done|]. destruct (_ <? _); [done|].
    unfold fresh, try_bind, bind, gets, modify, ret. destruct (checked_add _ _ _); by intros [= _ <-]. }
  rewrite E in *. split; cbn; try done; [by intros v Hv%not_elem_of_nil|by intros i Hi%not_elem_of_nil|constructor].
Qed.
