(* ===== verification/RegistryLife.v ===== *)
(** The lifecycle of a request in the serving registry, against the request
    lifecycle of [ferric-spec]: a member's phase is a lifecycle state, a request
    that is not a member is vacant. *)
From S2P Require Import Prelude Spec PlanSelection Platform Registry RegistryFacts RegistryInv RegistryOps RegistryRounds RegistryWindow RegistryWorld RegistryWorldInv.
From S2P Require Scheduler SpecLoop M1Completion.
Local Open Scope prog_scope.

Definition seq_of (ph : option M1ServingRequestPhaseV1) : Lifecycle.SequentialRequest :=
  match ph with
  | None => Lifecycle.mkSeq Lifecycle.Vacant Lifecycle.Idle
  | Some PhaseReady => Lifecycle.mkSeq Lifecycle.Ready Lifecycle.Idle
  | Some (PhaseInFlight _) => Lifecycle.mkSeq Lifecycle.InFlight Lifecycle.Executing
  | Some (PhaseCancellationPending _) => Lifecycle.mkSeq Lifecycle.Retiring Lifecycle.RetiringExecuting
  | Some (PhaseRetired _) => Lifecycle.mkSeq Lifecycle.Retiring Lifecycle.RetiringQuiescent
  end.

Definition lifecycle (r : M1ServingRegistryV1) (q : RequestId) : Lifecycle.SequentialRequest := seq_of (phase r q).

(** Transitions the specification accepts, one after the other. *)
Fixpoint path (s : Lifecycle.SequentialRequest) (ts : list Lifecycle.RequestTransition) :
    option Lifecycle.SequentialRequest :=
  match ts with
  | [] => Some s
  | t :: ts' => match Lifecycle.apply_request_transition s t with Ok s' => path s' ts' | Err _ => None end
  end.

Definition moves (s s' : Lifecycle.SequentialRequest) : Prop := exists ts, path s ts = Some s'.

Lemma moves_refl s : moves s s.
Proof. by exists []. Qed.

Ltac by_path ts := exists ts; reflexivity.

(** ** The entry of a request in a changed roster *)
Definition lookup_entry (l : list M1ServingEntryV1) (q : RequestId) : option M1ServingEntryV1 :=
  snd <$> list_find (fun e => en_request e = q) l.

Lemma lookup_cons x l q :
  lookup_entry (x :: l) q = if decide (en_request x = q) then Some x else lookup_entry l q.
Proof. unfold lookup_entry. cbn. destruct (decide _); [done|]. by destruct (list_find _ l) as [[]|]. Qed.

Lemma lookup_Some l q e : NoDup (en_request <$> l) -> lookup_entry l q = Some e <-> e ∈ l /\ en_request e = q.
Proof. exact (entry_Some (mkRegistry 0 l None None None None 0 0 0) q e). Qed.

Lemma lookup_None l q : lookup_entry l q = None <-> q ∉ (en_request <$> l).
Proof.
  induction l as [|x l IH]; [split; [by intros _ ?%not_elem_of_nil|done]|]. rewrite lookup_cons. cbn. case_decide as E.
  - subst. set_solver.
  - rewrite IH. set_solver.
Qed.

Lemma lookup_fmap (f : M1ServingEntryV1 -> M1ServingEntryV1) l q :
  (forall e, en_request (f e) = en_request e) -> lookup_entry (f <$> l) q = f <$> lookup_entry l q.
Proof.
  intros Hf. induction l as [|x l IH]; [done|]. cbn [fmap list_fmap]. rewrite !lookup_cons, Hf. by destruct (decide _).
Qed.

Lemma lookup_app l x q : lookup_entry (l ++ [x]) q =
  match lookup_entry l q with Some e => Some e | None => if decide (en_request x = q) then Some x else None end.
Proof.
  induction l as [|y l IH]; cbn [app]; rewrite !lookup_cons; [done|]. rewrite IH. by destruct (decide (en_request y = q)).
Qed.

Lemma lookup_update l i e e' q : NoDup (en_request <$> l) -> l !! i = Some e -> en_request e' = en_request e ->
  lookup_entry (<[i := e']> l) q = if decide (en_request e = q) then Some e' else lookup_entry l q.
Proof.
  intros Hnd Hi E. revert i Hnd Hi. induction l as [|x l IH]; intros [|i] Hnd Hi; try done.
  - injection Hi as ->. change (<[0%nat := e']> (e :: l)) with (e' :: l). rewrite !lookup_cons, E. by destruct (decide _).
  - apply NoDup_cons in Hnd as [Hx Hnd]. change (<[S i := e']> (x :: l)) with (x :: <[i := e']> l). rewrite !lookup_cons.
    rewrite (IH i Hnd Hi). destruct (decide (en_request x = q)) as [<-|]; [|done]. rewrite decide_False; [done|].
    intros Eq. apply Hx. rewrite <- Eq. apply list_elem_of_fmap_2. by eapply list_elem_of_lookup_2.
Qed.

Lemma lookup_delete l i e q : NoDup (en_request <$> l) -> l !! i = Some e ->
  lookup_entry (delete i l) q = if decide (en_request e = q) then None else lookup_entry l q.
Proof.
  intros Hnd Hi. revert i Hnd Hi. induction l as [|x l IH]; intros [|i] Hnd Hi; try done; apply NoDup_cons in Hnd as [Hx Hnd].
  - injection Hi as ->. change (delete 0%nat (e :: l)) with l. rewrite lookup_cons. case_decide as E; [|done]. apply lookup_None.
    by rewrite <- E.
  - change (delete (S i) (x :: l)) with (x :: delete i l). rewrite !lookup_cons, (IH i Hnd Hi).
    destruct (decide (en_request x = q)) as [<-|]; [|done]. rewrite decide_False; [done|].
    intros E. apply Hx. rewrite <- E. apply list_elem_of_fmap_2. by eapply list_elem_of_lookup_2.
Qed.

Definition life (l : list M1ServingEntryV1) (q : RequestId) : Lifecycle.SequentialRequest :=
  seq_of (en_phase <$> lookup_entry l q).

Lemma lifecycle_life r q : lifecycle r q = life (rg_entries r) q.
Proof. done. Qed.

Section life.
Context {P : Platform} {HP : PlatformLaws P} (C : N) (r : M1ServingRegistryV1).
Hypothesis Hok : registry_ok C r.

Lemma life_update i e e' q : rg_entries r !! i = Some e -> en_request e' = en_request e ->
  moves (seq_of (Some (en_phase e))) (seq_of (Some (en_phase e'))) ->
  moves (life (rg_entries r) q) (life (<[i := e']> (rg_entries r)) q).
Proof using Hok.
  intros Hi E Hm. unfold life. rewrite (lookup_update _ _ e) by (done || apply Hok). case_decide as Hq; [|apply moves_refl].
  rewrite (proj2 (lookup_Some (rg_entries r) q e (ro_requests _ _ Hok))); [done|]. split; [|done].
  by eapply list_elem_of_lookup_2.
Qed.

Lemma life_fmap (f : M1ServingEntryV1 -> M1ServingEntryV1) q :
  (forall e, en_request (f e) = en_request e) ->
  (forall e, e ∈ rg_entries r -> moves (seq_of (Some (en_phase e))) (seq_of (Some (en_phase (f e))))) ->
  moves (life (rg_entries r) q) (life (f <$> rg_entries r) q).
Proof using Hok.
  intros Hf Hm. unfold life. rewrite (lookup_fmap f) by done.
  destruct (lookup_entry (rg_entries r) q) as [e|] eqn:He; [|apply moves_refl].
  apply (lookup_Some _ _ _ (ro_requests _ _ Hok)) in He as [He _]. by apply Hm.
Qed.

Lemma plain_moves op r' q : plain_step C r op r' -> moves (lifecycle r q) (lifecycle r' q).
Proof using Hok.
  rewrite !lifecycle_life.
  destruct 1 as [q' p _ _ _ Hq _|q' i e _ Hi Hq Hph|q' next i e _ _ Hi Hq Hph _ _|q' i e qu _ Hi Hq Hph| |]; cbn [put_entries put_draft_catchup put_bound_plan rg_entries].
  - unfold life. rewrite lookup_app. destruct (lookup_entry (rg_entries r) q) eqn:He; [apply moves_refl|].
    case_decide; [|apply moves_refl]. by_path [Lifecycle.Admit].
  - apply (life_update i e); [done|done|]. unfold cancelled_phase. cbn.
    destruct Hph as [->|[ep ->]]; by_path [Lifecycle.Retire].
  - apply (life_update i e); [done|by subst|]. rewrite Hph. apply moves_refl.
  - unfold life. rewrite (lookup_delete _ _ e) by (done || apply Hok). case_decide as E; [|apply moves_refl].
    rewrite (proj2 (lookup_Some (rg_entries r) q e (ro_requests _ _ Hok))).
    + cbn. rewrite Hph. by_path [Lifecycle.DetachKv].
    + split; [by eapply list_elem_of_lookup_2|done].
  - apply moves_refl.
  - apply moves_refl.
Qed.

Lemma disposition_of_Forall2 (R : RequestId -> M1ServingCompletionDispositionV1 -> Prop) requests ds q d :
  Forall2 R requests ds -> disposition_of requests ds q = Some d -> R q d.
Proof.
  induction 1 as [|x y requests ds Hxy Hf IH]; cbn; [done|]. case_decide as E; [|done]. intros [= <-]. by subst.
Qed.

(** A settled member: its batch is over, and it goes on or retires. *)
Lemma settle_moves b e q d :
  disposition_ok r b q d -> e ∈ rg_entries r -> en_request e = q ->
  moves (seq_of (Some (en_phase e))) (seq_of (Some (en_phase (settle_entry (if_epoch b) d e)))).
Proof using Hok.
  intros (x & Hx & Hq & Hph & _ & Hd) He Heq.
  assert (x = e) as -> by (eapply same_entry; [done|done|done|congruence]). unfold phase_at in Hph.
  destruct d as [next|]; cbn [settle_entry en_phase].
  - destruct Hd as [-> _]. by_path [Lifecycle.CompleteExact; Lifecycle.FinalizeKv].
  - destruct (en_phase e); try done.
    + by_path [Lifecycle.CompleteExact; Lifecycle.Retire].
    + by_path [Lifecycle.CompleteExact].
Qed.

Lemma settled_moves b ds q : Forall2 (disposition_ok r b) (if_requests b) ds ->
  moves (life (rg_entries r) q) (life (settled (if_requests b) ds (if_epoch b) <$> rg_entries r) q).
Proof using Hok.
  intros Hf. apply life_fmap; [apply settled_request|]. intros e He. unfold settled.
  destruct (disposition_of _ _ _) as [d|] eqn:E; [|apply moves_refl].
  apply (disposition_of_Forall2 _ _ _ _ _ Hf) in E. by eapply settle_moves.
Qed.

Lemma catchup_disposition_ok key dg d b :
  catchup_completes r key dg d b -> Forall2 (disposition_ok r b) (if_requests b) [d].
Proof using Hok.
  intros [Hb Hph _ Hreq Hep Hbd Hv (e & Hin & Hq & Hpl & Hd)]. rewrite Hreq. constructor; [|constructor].
  exists e. split; [done|]. split; [done|]. rewrite Hep. unfold phase_at.
  destruct Hd as [[-> ->]|[-> ->]]; rewrite bool_decide_true by done; [|done].
  do 2 (split; [done|]). split; [done|]. unfold valid_for in Hv. rewrite !andb_true_iff, !bool_decide_eq_true in Hv.
  destruct Hv as [[[[[[[[[[[_ Hm] _] _] _] _] _] _] _] _] _] _]. by rewrite Hm.
Qed.

Lemma complete_moves b op r' q : complete_step r b op r' -> moves (lifecycle r q) (lifecycle r' q).
Proof using Hok.
  rewrite !lifecycle_life. destruct 1 as [ep ds (_ & _ & _ & Hf)|key dg d Hc]; cbn [completed put_draft_catchup rg_entries].
  - by apply settled_moves.
  - apply settled_moves. by eapply catchup_disposition_ok.
Qed.

Lemma recorded_moves t live q : live_token C r t live ->
  moves (lifecycle r q) (lifecycle (recorded r (pr_batch t) (next_catchup live)) q).
Proof using Hok.
  intros [_ _ _ _ _ _ _ _ Hreq Hrdy]. rewrite !lifecycle_life. cbn [recorded rg_entries].
  apply life_fmap; [apply launch_request|]. intros e He. rewrite launch_phase. case_decide as Hin; [|apply moves_refl].
  rewrite Hreq in Hin. destruct (due_member C r Hok _ _ Hrdy Hin) as (x & Hx & Hxq & Hph & _).
  assert (x = e) as <- by (by eapply same_entry). rewrite Hph. by_path [Lifecycle.Dispatch].
Qed.

(** A window reservation detaches its predecessors and admits their successors. *)
Lemma windowed_moves p requests prior q : window_due r p requests prior ->
  moves (lifecycle r q) (lifecycle (windowed r p requests prior) q).
Proof using Hok.
  intros Hd. rewrite !lifecycle_life. cbn [windowed put_entries rg_entries]. unfold life.
  assert (Hold : en_phase <$> lookup_entry (rg_entries r) q = None \/
    exists qu, en_phase <$> lookup_entry (rg_entries r) q = Some (PhaseRetired qu)).
  { destruct (lookup_entry (rg_entries r) q) as [e|] eqn:He; [right|by left].
    apply (lookup_Some _ _ _ (ro_requests _ _ Hok)) in He as [He _].
    pose proof (wd_predecessors _ _ _ _ Hd) as Hp. rewrite Forall_forall in Hp.
    destruct (Hp e He) as [_ (ep & Hph & _)]. exists (CompletedAt ep). cbn. by rewrite Hph. }
  assert (Hnew : en_phase <$> lookup_entry (fresh_entry p <$> requests) q = None \/
    en_phase <$> lookup_entry (fresh_entry p <$> requests) q = Some PhaseReady).
  { unfold lookup_entry. destruct (list_find _ (fresh_entry p <$> requests)) as [[i x]|] eqn:Hf; [right|left; reflexivity].
    apply list_find_Some in Hf as (Hi & _). rewrite list_lookup_fmap in Hi.
    destruct (requests !! i); [|done]. by injection Hi as <-. }
  destruct Hold as [->|[qu ->]], Hnew as [->| ->].
  - apply moves_refl.
  - by_path [Lifecycle.Admit].
  - by_path [Lifecycle.DetachKv].
  - by_path [Lifecycle.DetachKv; Lifecycle.Admit].
Qed.
End life.

(** Giving a window back puts its predecessors in place again. *)
Definition gives_back (op : Op) : bool := match op with OpRestoreWindow _ => true | _ => false end.

Lemma step_moves {P : Platform} {HP : PlatformLaws P} C w op w' q :
  world_ok C w -> step C w op w' -> gives_back op = false ->
  moves (lifecycle (w_registry w) q) (lifecycle (w_registry w') q).
Proof.
  intros Hok Hs Hg. pose proof (wk_registry _ _ Hok) as Hr.
  destruct Hs as [op r' Hs|op b r' Hb Hs|op b key Hs|p requests prior Hd|i t live Hi Hl|i t live Hi Hl|i v live Hi Hl
                 |i v live Hi Hl|t Ht].
  - by eapply plain_moves.
  - by eapply complete_moves.
  - apply moves_refl.
  - by eapply windowed_moves.
  - apply moves_refl.
  - by apply (recorded_moves C _ Hr t).
  - done.
  - apply (recorded_moves C _ Hr (nw_publication v)), Hl.
  - apply moves_refl.
Qed.
