(* ===== verification/RegistryProgress.v ===== *)
(** The registry is never wedged: a batch in flight can be completed, a
    reservation can be recorded, and idle ready work can be put in flight. *)
From S2P Require Import Prelude Spec PlanSelection Platform Registry RegistryFacts RegistryInv RegistryOps RegistryRounds RegistryWindow RegistryWorld RegistryWorldInv.
From S2P Require Scheduler SpecLoop M1Completion.
Local Open Scope prog_scope.

Section progress.
Context {P : Platform} {HP : PlatformLaws P} (C : N).

(** A call that has a step is accepted. *)
Lemma accepted w op w2 :
  registry_ok C (w_registry w) -> allocates op = false -> step C w op w2 ->
  exists w', run_op C op w = Done w' true /\ step C w op w'.
Proof using HP.
  intros Hok Ha Hs. destruct (wp_done _ _ _ (call_wp C w Hok op)) as (w' & [] & E & Hc); cbn in Hc; [by exists w'|].
  destruct Hc as [_ Hn]. by destruct (Hn Ha w2 Hs).
Qed.

(** *** Completing *)
Lemma retire_all_ok r b : registry_ok C r -> rg_in_flight r = Some b ->
  Forall2 (disposition_ok r b) (if_requests b) (replicate (length (if_requests b)) Retire).
Proof.
  intros Hok Hb. destruct (flight C r b Hok Hb) as [_ [_ _ _ Hm _]]. revert Hm. generalize (if_requests b) as l.
  induction l as [|q l IH]; intros Hm; cbn; constructor.
  - destruct (Hm q ltac:(by left)) as (e & ? & ? & ? & ?). by exists e.
  - apply IH. intros x Hx. apply Hm. by right.
Qed.

Lemma catchup_can_complete r key b :
  registry_ok C r -> rg_draft_catchup r = Some (CatchupInFlight key) -> rg_in_flight r = Some b ->
  exists dg d, catchup_completes r key dg d b.
Proof.
  intros Hok Hd Hb. pose proof (ro_catchup _ _ Hok) as Hc. unfold catchup_ok in Hc. rewrite Hd in Hc.
  destruct Hc as (b' & Hb' & Hreq & Hep & Hv & Hce & _). assert (b' = b) as -> by congruence.
  destruct (flight C r b Hok Hb) as [_ [_ _ _ Hm Hbd]]. destruct (Hm (key_request key)) as (e & He & Hq & Hph & Hpl).
  { rewrite Hreq. by left. }
  exists (key_prior_dispatch_generation key + 1). rewrite Hep in Hph. unfold phase_at in Hph.
  assert (Hs : successor_is u64_max (key_prior_dispatch_generation key) (key_prior_dispatch_generation key + 1) = true).
  { apply successor_is_spec. split; [done|]. unfold valid_for, has_successor, checked_add in Hv.
    rewrite !andb_true_iff in Hv. destruct Hv as [[[[_ Hv] _] _] _]. apply bool_decide_eq_true in Hv.
    destruct (N.leb_spec (key_prior_dispatch_generation key + 1) u64_max); [done|]. by destruct Hv. }
  destruct (en_phase e) as [|ep|ep|qu] eqn:E; try done; apply bool_decide_eq_true in Hph as ->.
  - exists (Continue (if_plan b)). split; try done. exists e. do 3 (split; [done|]). by left.
  - exists Retire. split; try done. exists e. do 3 (split; [done|]). by right.
Qed.

Lemma can_complete w b : registry_ok C (w_registry w) -> rg_in_flight (w_registry w) = Some b ->
  exists op w', run_op C op w = Done w' true /\ rg_in_flight (w_registry w') = None.
Proof using HP.
  intros Hok Hb. assert (Hex : exists op r', is_complete op = true /\ complete_step (w_registry w) b op r').
  { destruct (rg_draft_catchup (w_registry w)) as [[key|key|key dg]|] eqn:Hd.
    - pose proof (ro_catchup _ _ Hok) as Hc. unfold catchup_ok in Hc. rewrite Hd in Hc. destruct Hc as [Hc _]. congruence.
    - destruct (catchup_can_complete _ _ _ Hok Hd Hb) as (dg & d & Hc). eexists _, _. split; [|by apply CompleteCatchup]. done.
    - pose proof (ro_catchup _ _ Hok) as Hc. unfold catchup_ok in Hc. rewrite Hd in Hc. destruct Hc as [Hc _]. congruence.
    - eexists _, _. split; [|apply CompleteExactly; do 3 (split; [done|]); by apply retire_all_ok]. done. }
  destruct Hex as (op & r' & Hk & Hs). exists op.
  destruct (accepted w op _ Hok ltac:(by destruct op) (StepComplete C w op b r' Hb Hs)) as (w' & E & Hs').
  exists w'. split; [done|]. inversion Hs' as [? ? Hx|? ? ? ? Hx|? ? ? Hx| | | | | |]; subst; try done.
  - apply plain_step_kind in Hx. by destruct op.
  - by destruct Hx.
  - apply reserves_kind in Hx. by destruct op.
Qed.

(** *** Recording *)
Lemma can_record w live : world_ok C w -> rg_reservation (w_registry w) = Some live ->
  exists op w', run_op C op w = Done w' true /\ rg_in_flight (w_registry w') <> None.
Proof using HP.
  intros Hok Hl. pose proof (wk_registry _ _ Hok) as Hr. destruct (wk_live _ _ Hok live Hl) as [(i & t & Hi & Ht)|(i & v & Hi & Hv)].
  - exists (OpRecord i). destruct (accepted w (OpRecord i) _ Hr eq_refl (StepRecord C w i t live Hi Ht)) as (w' & E & Hs).
    exists w'. split; [done|]. inversion Hs as [? ? Hx|? ? ? ? Hx|? ? ? Hx| | | | | |]; subst; done || by inversion Hx.
  - exists (OpRecordWindow i). destruct (accepted w (OpRecordWindow i) _ Hr eq_refl (StepRecordWindow C w i v live Hi Hv)) as (w' & E & Hs).
    exists w'. split; [done|]. inversion Hs as [? ? Hx|? ? ? ? Hx|? ? ? Hx| | | | | |]; subst; done || by inversion Hx.
Qed.

(** *** Planning *)
Section idle.
Context (r : M1ServingRegistryV1).
Hypothesis Hok : registry_ok C r.
Hypothesis Hres : rg_reservation r = None.
Hypothesis Hfly : rg_in_flight r = None.
Hypothesis Hepoch : rg_submitted_epoch r < u64_max.
Hypothesis Hready : exists e, e ∈ rg_entries r /\ en_phase e = PhaseReady.

Lemma next_ready : exists p, next_ready_plan r = Some p.
Proof using Hready.
  destruct Hready as (e & He & Hph). unfold next_ready_plan.
  assert (Hb : exists p, en_plan <$> min_by_key (fun e => plan_priority (en_plan e)) (List.filter is_ready (rg_entries r)) = Some p).
  { destruct (min_by_key _ _) as [x|] eqn:E; [by eexists|]. apply min_by_key_None in E.
    assert (Hin : e ∈ List.filter is_ready (rg_entries r)).
    { apply filter_In. split; [done|]. unfold is_ready. by rewrite bool_decide_true. }
    rewrite E in Hin. by apply not_elem_of_nil in Hin. }
  destruct (rg_draft_catchup r) as [ph|]; [|done]. destruct (ready_entry _ _ _); [by eexists|done].
Qed.

(** With no catch-up due and no queue bound, planning is a fresh launch. *)
Lemma plan_fresh : rg_draft_catchup r = None -> rg_bound_plan r = None -> exists b, planned C r b /\ bp_action b = FreshLaunch.
Proof using All.
  intros Hd Hb. destruct next_ready as [p Hp]. unfold planned, plan_next, reject_live_reservation.
  rewrite Hres, Hfly, Hp. cbn [is_some].
  rewrite (proj2 (plan_roster_spec C r p (due_roster C r p) ltac:(apply Hok))) by (by rewrite Hd).
  unfold checked_add. rewrite (proj2 (N.leb_le _ _)) by lia. unfold classify_next_queue_action. rewrite Hd, Hb.
  by eexists.
Qed.

(** Planning, when it fails, leaves a queue that no ready work needs. *)
Lemma plan_or_retire :
  (exists b, planned C r b) \/
  exists bound, rg_bound_plan r = Some bound /\ ready_work_needs_bound_queue r bound = false.
Proof using All.
  destruct next_ready as [p Hp]. destruct (rg_draft_catchup r) as [ph|] eqn:Hd.
  - assert (Hidle : exists ep, idle_catchup r (catchup_key ph) ep).
    { pose proof (ro_catchup _ _ Hok) as Hc. unfold catchup_ok in Hc. rewrite Hd in Hc.
      destruct ph as [key|key|key dg]; [by eexists| |by eexists]. destruct Hc as (b & Hb & _). congruence. }
    destruct Hidle as (ep & _ & _ & _ & parent & Hbd & Hv).
    assert (Hparent : key_parent (catchup_key ph) = sp_target parent).
    { unfold valid_for in Hv. rewrite !andb_true_iff, !bool_decide_eq_true in Hv. naive_solver. }
    destruct (catchup_ready r (catchup_key ph) parent) eqn:Hcr.
    + left. unfold catchup_ready in Hcr.
      pose proof (proj1 (is_some_ready_entry r _ _ (ro_requests _ _ Hok)) Hcr) as (e & He & Hq & Hph & Hpl%bool_decide_eq_true).
      assert (p = parent) as ->.
      { revert Hp. unfold next_ready_plan. rewrite Hd.
        rewrite (proj2 (ready_entry_Some r _ _ e (ro_requests _ _ Hok))); [congruence|].
        rewrite bool_decide_true by (by rewrite Hpl, Hparent). done. }
      unfold planned, plan_next, reject_live_reservation. rewrite Hres, Hfly, Hp. cbn [is_some].
      rewrite (proj2 (plan_roster_spec C r parent (due_roster C r parent) ltac:(apply Hok))) by (by rewrite Hd).
      unfold checked_add. rewrite (proj2 (N.leb_le _ _)) by lia. unfold classify_next_queue_action. rewrite Hd.
      destruct ph as [key|key|key dg]; cbn [catchup_key] in *.
      * rewrite !bool_decide_true by done. unfold catchup_ready. rewrite Hcr. by eexists.
      * pose proof (ro_catchup _ _ Hok) as Hc. unfold catchup_ok in Hc. rewrite Hd in Hc. destruct Hc as (b & Hb & _). congruence.
      * rewrite !bool_decide_true by done. unfold catchup_ready. rewrite Hcr. by eexists.
    + right. exists parent. split; [done|]. unfold ready_work_needs_bound_queue. rewrite Hd, Hcr. apply andb_false_r.
  - destruct (classify_queue_action (rg_bound_plan r) p) as [a|e] eqn:Ha; [left|right].
    + unfold planned, plan_next, reject_live_reservation. rewrite Hres, Hfly, Hp. cbn [is_some].
      rewrite (proj2 (plan_roster_spec C r p (due_roster C r p) ltac:(apply Hok))) by (by rewrite Hd).
      unfold checked_add. rewrite (proj2 (N.leb_le _ _)) by lia. unfold classify_next_queue_action. rewrite Hd, Ha. by eexists.
    + unfold classify_queue_action in Ha. destruct (rg_bound_plan r) as [bound|] eqn:Hb; [|done]. exists bound.
      split; [done|]. destruct (decide (bound = p)) as [|Hne]; [done|].
      destruct (admit_m1_production_rollover_transition_v1 bound p) eqn:Hadm; [done|].
      unfold ready_work_needs_bound_queue. rewrite Hd, Hp, Hadm, bool_decide_false; [done|]. congruence.
Qed.

(** The call that reserves the planned batch. *)
Lemma planned_call b : planned C r b -> rg_next_reservation_id r < u64_max ->
  exists op key, reserves C r b op key /\ allocates op = false.
Proof using Hok HP Hepoch.
  intros Hp Hid. destruct (planned_fields C r Hok b Hp) as (_ & _ & _ & Hreq & Hrdy & He & Hs & Hc & Hplan).
  destruct (ordinary (bp_action b)) eqn:Ho; [by exists (OpReserve b), None; split; [apply ReservesOrdinary|]|].
  unfold classify_next_queue_action in Hc. destruct (rg_draft_catchup r) as [[key|key|key dg]|] eqn:Hd; [| | |].
  - destruct (_ && _ && _) eqn:Hen; [|done]. injection Hc as Hact. rewrite !andb_true_iff, !bool_decide_eq_true in Hen.
    destruct Hen as [[Hbd Hpar] Hcr]. exists (OpReserveCatchup b key), (Some key). split; [|done]. apply ReservesCatchup; try done.
    pose proof (ro_catchup _ _ Hok) as Hcat. unfold catchup_ok in Hcat. rewrite Hd in Hcat.
    destruct Hcat as (_ & Hce & Hdue & parent & Hbd' & Hv). assert (parent = bp_plan b) as -> by congruence.
    unfold due_roster in Hreq. rewrite Hd in Hreq. cbn in Hreq.
    destruct (planned_fields C r Hok b Hp) as (_ & Hf & _). pose proof (idle_epochs _ _ Hok Hf) as Hidle.
    unfold catchup_ready in Hcr. apply is_some_ready_entry in Hcr as (e & Hin & Hq & Hph & Hpl%bool_decide_eq_true); [|apply Hok].
    apply start_fields. split; [done|]. split; [done|]. split; [done|]. split.
    + rewrite He, Hidle, Hce. unfold valid_for in Hv. rewrite !andb_true_iff in Hv.
      destruct Hv as [[[[[[_ Hv] _] _] _] _] _]. apply successor_is_spec in Hv as [Hv _].
      destruct (key_epoch key). cbn in *. by rewrite Hv.
    + apply (ready_key_fields C r Hok). split; [done|]. split; [done|]. split; [lia|]. split; [done|].
      exists e. do 4 (split; [done|]). apply Hdue; try done. by rewrite Hpl, Hpar.
  - done.
  - destruct (_ && _ && _) eqn:Hen; [|done]. rewrite !andb_true_iff, !bool_decide_eq_true in Hen.
    destruct Hen as [[Hbd Hpar] Hcr]. exists (OpReserveRestore b key dg), None. split; [|done]. apply ReservesRestore; try done.
    unfold due_roster in Hreq. by rewrite Hd in Hreq.
  - unfold classify_queue_action in Hc. destruct (rg_bound_plan r) as [prior|]; [|by injection Hc as Hc; rewrite <- Hc in Ho].
    destruct (decide _); [by injection Hc as Hc; rewrite <- Hc in Ho|].
    destruct (admit_m1_production_rollover_transition_v1 _ _); [|done]. by injection Hc as Hc; rewrite <- Hc in Ho.
Qed.
End idle.
End progress.

(** *** Idle ready work *)
Section idle_world.
Context {P : Platform} {HP : PlatformLaws P} (C : N).

Definition has_ready (r : M1ServingRegistryV1) : Prop := exists e, e ∈ rg_entries r /\ en_phase e = PhaseReady.

(** The planned batch is in flight two calls later. *)
Lemma planned_flies w b : world_ok C w -> planned C (w_registry w) b ->
  rg_submitted_epoch (w_registry w) < u64_max -> rg_next_reservation_id (w_registry w) < u64_max ->
  exists ops w', (length ops <= 2)%nat /\ run_ops C ops w = Done w' tt /\ rg_in_flight (w_registry w') <> None.
Proof using HP.
  intros Hok Hp Hs Hid. pose proof (wk_registry _ _ Hok) as Hr.
  destruct (planned_call C _ Hr Hs b Hp Hid) as (op & key & Hop & Ha).
  destruct (accepted C w op _ Hr Ha (StepReserve C w op b key Hop)) as (w1 & E1 & Hs1).
  assert (Hres : exists live, rg_reservation (w_registry w1) = Some live).
  { apply reserves_kind in Hop. inversion Hs1 as [? ? Hx|? ? ? ? Hx|? ? ? Hx| | | | | |]; subst; try done.
    - apply plain_step_kind in Hx. by destruct op.
    - apply complete_step_kind in Hx. by destruct op.
    - by eexists. }
  destruct Hres as [live Hl].
  assert (Hok1 : world_ok C w1).
  { eapply step_world_ok; [done| |done]. apply reserves_kind in Hop. by destruct op. }
  destruct (can_record C w1 live Hok1 Hl) as (op2 & w2 & E2 & Hf). exists [op; op2], w2. split; [cbn; lia|].
  split; [|done]. cbn [run_ops]. unfold bind. by rewrite E1, E2.
Qed.

Lemma idle_flies w : world_ok C w ->
  rg_in_flight (w_registry w) = None -> has_ready (w_registry w) ->
  rg_submitted_epoch (w_registry w) < u64_max -> rg_next_reservation_id (w_registry w) < u64_max ->
  exists ops w', (length ops <= 3)%nat /\ run_ops C ops w = Done w' tt /\ rg_in_flight (w_registry w') <> None.
Proof using HP.
  intros Hok Hf Hready Hs Hid. pose proof (wk_registry _ _ Hok) as Hr.
  destruct (rg_reservation (w_registry w)) as [live|] eqn:Hres.
  { destruct (can_record C w live Hok Hres) as (op & w' & E & Hfly). exists [op], w'. split; [cbn; lia|].
    split; [|done]. cbn [run_ops]. unfold bind. by rewrite E. }
  destruct (plan_or_retire C _ Hr Hres Hf Hs Hready) as [[b Hp]|(bound & Hbd & Hn)].
  { destruct (planned_flies w b Hok Hp Hs Hid) as (ops & w' & Hl & E & Hfly). exists ops, w'. split; [lia|done]. }
  pose proof (PlainRetireQueue C (w_registry w) bound Hres Hf Hbd Hn) as Hp.
  destruct (accepted C w (OpRetireQueue bound) _ Hr eq_refl (StepPlain C w _ _ Hp)) as (w1 & E1 & Hs1).
  assert (Hw1 : w1 = put_registry (put_draft_catchup None (put_bound_plan None (w_registry w))) w).
  { inversion Hs1 as [? ? Hx|? ? ? ? Hx|? ? ? Hx| | | | | |]; subst; try done; by inversion Hx. }
  assert (Hok1 : world_ok C w1) by (eapply step_world_ok; [done| |done]; done). subst w1.
  destruct (plan_fresh C _ (wk_registry _ _ Hok1) Hres Hf Hs Hready eq_refl eq_refl) as (b & Hb & _).
  destruct (planned_flies _ b Hok1 Hb Hs Hid) as (ops & w' & Hl & E & Hfly). exists (OpRetireQueue bound :: ops), w'.
  split; [cbn; lia|]. split; [|done]. cbn [run_ops]. unfold bind at 1. by rewrite E1.
Qed.
End idle_world.
