(* ===== verification/RegistryTheorems.v ===== *)
(** The guarantees of the serving registry, for every sequence of calls from a
    new registry. *)
From S2P Require Import Prelude Spec PlanSelection Platform Registry RegistryFacts RegistryInv RegistryOps RegistryRounds RegistryWindow RegistryWorld RegistryWorldInv RegistryLife RegistryProgress.
From S2P Require Scheduler SpecLoop M1Completion.
Local Open Scope prog_scope.

(** The worlds calls lead to from a new registry. *)
Definition Reach {P : Platform} (C : N) (w : World) : Prop :=
  exists counter counter' r ops, new C counter = Done counter' (Ok r) /\ Forall op_ok ops /\
    run_ops C ops (start r) = Done w tt.

Lemma reach_ok {P : Platform} {HP : PlatformLaws P} C w : Reach C w -> world_ok C w.
Proof.
  intros (counter & counter' & r & ops & Hn & Ho & Hr).
  pose proof (run_ops_ok C ops (start r) (start_world_ok C _ _ _ Hn) Ho) as H. unfold wp in H. by rewrite Hr in H.
Qed.

(** *** Safety *)

(** A roster within its capacity; the batch in flight is exactly the members
    with submitted work. *)
Record roster_safe (C : N) (r : M1ServingRegistryV1) : Prop := {
  rs_capacity : vlen (rg_entries r) <= C <= 32;
  rs_requests : NoDup (en_request <$> rg_entries r);
  rs_plans e : e ∈ rg_entries r -> generation (en_request e) <> 0 /\ plan_ok (en_plan e);
  rs_flight b : rg_in_flight r = Some b -> rg_reservation r = None /\ rg_bound_plan r = Some (if_plan b) /\
    NoDup (if_requests b) /\ 1 <= vlen (if_requests b) <= N.min C (sp_sequence_capacity (if_plan b)) /\
    forall q, q ∈ if_requests b <-> exists e, e ∈ rg_entries r /\ en_request e = q /\ flying e = true;
  rs_idle : rg_in_flight r = None -> forall e, e ∈ rg_entries r -> flying e = false
}.

Lemma registry_roster_safe C r : registry_ok C r -> roster_safe C r.
Proof.
  intros Hok. pose proof (ro_capacity _ _ Hok). pose proof (ro_count _ _ Hok). split; [lia|apply Hok| | |].
  - intros e He. by destruct (entry_in _ _ _ Hok He).
  - intros b Hb. destruct (ro_flight _ _ Hok b Hb) as [Hr [F1 F2 F3 F4 F5]]. do 4 (split; [done|]). intros q. split.
    + intros Hq. destruct (F4 q Hq) as (e & He & Hq' & Hph & _). exists e. do 2 (split; [done|]).
      unfold phase_at in Hph. unfold flying. by destruct (en_phase e).
    + intros (e & He & <- & Hfly). destruct (ro_grounded _ _ Hok e He Hfly) as (b' & Hb' & Hin). congruence.
  - intros Hf e He. by eapply idle_grounded.
Qed.

(** C10: no sequence of calls panics; whatever they are, the roster stays within
    its capacity with distinct requests on admitted plans, the batch in flight
    is exactly the members whose work is submitted, bounded by its plan and
    never beside a reservation, the one live reservation is honoured by one
    outstanding token, and no two outstanding tokens share an identity. *)
Theorem registry_safe {P : Platform} {HP : PlatformLaws P} C counter counter' r ops :
  new C counter = Done counter' (Ok r) -> Forall op_ok ops ->
  exists w, run_ops C ops (start r) = Done w tt /\ roster_safe C (w_registry w) /\ NoDup (own_ids w) /\
    (forall live, rg_reservation (w_registry w) = Some live -> honoured C w live).
Proof.
  intros Hn Ho. pose proof (run_ops_ok C ops (start r) (start_world_ok C _ _ _ Hn) Ho) as H.
  apply wp_done in H as (w & [] & E & Hw). exists w. split; [done|].
  split; [by apply registry_roster_safe, Hw|]. split; apply Hw.
Qed.

(** C16: batches are published and completed one at a time: the completions are
    the publications in order, but for a last one still in flight, each roster
    completes as published, and epochs count from one without a gap. *)
Theorem registry_history {P : Platform} {HP : PlatformLaws P} C w :
  Reach C w ->
  publications (w_trace w) = completions (w_trace w) ++ flight_of (w_registry w) /\
  snd <$> completions (w_trace w) = epochs (rg_completed_epoch (w_registry w)) /\
  snd <$> publications (w_trace w) = epochs (rg_submitted_epoch (w_registry w)).
Proof.
  intros H%reach_ok. pose proof (wk_trace _ _ H) as Ht. pose proof (wk_epochs _ _ H) as He.
  split; [done|]. split; [done|]. rewrite Ht, fmap_app, He. unfold flight_of.
  pose proof (ro_epochs _ _ (wk_registry _ _ H)) as [Hs _]. destruct (rg_in_flight (w_registry w)) as [b|] eqn:Hb; cbn in Hs.
  - destruct (completed_epoch C _ b (wk_registry _ _ H) Hb) as [Hep _]. cbn. by rewrite Hep, Hs, epochs_succ.
  - rewrite app_nil_r. f_equal. lia.
Qed.


(** *** Planning *)
Lemma min_by_key_first {A} (key : A -> N) l1 x l2 :
  Forall (fun y => key x < key y) l1 -> Forall (fun y => key x <= key y) l2 ->
  min_by_key key (l1 ++ x :: l2) = Some x.
Proof.
  intros H1 H2. induction H1 as [|y l1 Hy H1 IH]; cbn [app min_by_key].
  - destruct (min_by_key key l2) as [z|] eqn:E; [|done]. apply min_by_key_spec in E as (k1 & k2 & -> & _ & _).
    apply Forall_app in H2 as [_ H2]. apply Forall_cons in H2 as [H2 _]. by rewrite (proj2 (N.leb_le _ _)).
  - rewrite IH. by rewrite (proj2 (N.leb_gt _ _)).
Qed.

(** The batch to be planned: the plan of the ready member of the best priority
    admitted first, its ready members in admission order as many as fit, the
    next epoch, and the queue action from the bound plan. *)
Record best_batch (C : N) (r : M1ServingRegistryV1) (b : M1ServingBatchPlanV1) : Prop := {
  bb_best : exists l1 e l2, List.filter is_ready (rg_entries r) = l1 ++ e :: l2 /\ en_plan e = bp_plan b /\
    Forall (fun x => plan_priority (bp_plan b) < plan_priority (en_plan x)) l1 /\
    Forall (fun x => plan_priority (bp_plan b) <= plan_priority (en_plan x)) l2;
  bb_requests : bp_requests b = en_request <$> take (N.to_nat (N.min C (sp_sequence_capacity (bp_plan b))))
    (List.filter (fun e => is_ready e && bool_decide (en_plan e = bp_plan b)) (rg_entries r));
  bb_epoch : bp_epoch b = Completion.mkEpoch (rg_submitted_epoch r + 1) /\ rg_submitted_epoch r < u64_max;
  bb_action : classify_queue_action (rg_bound_plan r) (bp_plan b) = Ok (bp_action b)
}.

Lemma next_ready_best C r b : best_batch C r b -> rg_draft_catchup r = None -> next_ready_plan r = Some (bp_plan b).
Proof.
  intros [(l1 & e & l2 & Hf & He & H1 & H2) _ _ _] Hd. unfold next_ready_plan. rewrite Hd, Hf.
  rewrite <- He in *. by rewrite (min_by_key_first (fun e => plan_priority (en_plan e))).
Qed.

Lemma planned_best {P : Platform} {HP : PlatformLaws P} C r b :
  registry_ok C r -> rg_reservation r = None -> rg_in_flight r = None -> rg_draft_catchup r = None ->
  planned C r b <-> best_batch C r b.
Proof.
  intros Hok Hr Hf Hd. split.
  - intros Hp. destruct (planned_fields C r Hok b Hp) as (_ & _ & Hn & Hq & _ & He & Hs & Hc & _).
    unfold due_roster in Hq. rewrite Hd in Hq. unfold classify_next_queue_action in Hc. rewrite Hd in Hc.
    split; try done. unfold next_ready_plan in Hn. rewrite Hd in Hn.
    destruct (min_by_key _ _) as [e|] eqn:E; [|done]. injection Hn as Hn.
    apply min_by_key_spec in E as (l1 & l2 & E & H1 & H2). exists l1, e, l2. by rewrite <- Hn.
  - intros Hb. pose proof (next_ready_best C r b Hb Hd) as Hn. destruct Hb as [_ Hq [He Hs] Ha].
    unfold planned, plan_next, reject_live_reservation. rewrite Hr, Hf, Hn. cbn [is_some].
    rewrite (proj2 (plan_roster_spec C r _ (due_roster C r (bp_plan b)) ltac:(apply Hok))) by (by rewrite Hd).
    unfold checked_add. rewrite (proj2 (N.leb_le _ _)) by lia. unfold classify_next_queue_action, due_roster. rewrite Hd, Ha.
    unfold ready_of_plan. rewrite <- Hq, <- He. by destruct b.
Qed.

(** C12: an idle registry plans the one batch the policy calls for: prefill
    before decode before speculation, admission order within a priority, as
    many ready members of the plan as fit, under the next epoch; and that batch
    is the only one a reservation takes. *)
Theorem registry_plan_exact {P : Platform} {HP : PlatformLaws P} C w b :
  Reach C w -> rg_reservation (w_registry w) = None -> rg_in_flight (w_registry w) = None ->
  rg_draft_catchup (w_registry w) = None ->
  (plan_next C (w_registry w) = Ok (Some b) <-> best_batch C (w_registry w) b) /\
  (plan_next C (w_registry w) = Ok None <-> List.filter is_ready (rg_entries (w_registry w)) = []) /\
  (forall b' w', run_op C (OpReserve b') w = Done w' true -> best_batch C (w_registry w) b').
Proof.
  intros H%reach_ok Hr Hf Hd. pose proof (wk_registry _ _ H) as Hok. split; [by apply planned_best|]. split.
  - split.
    + unfold plan_next, reject_live_reservation, next_ready_plan. rewrite Hr, Hf, Hd. cbn [is_some].
      destruct (min_by_key _ _) as [e|] eqn:E; [|by apply min_by_key_None in E]. cbn.
      destruct (plan_roster _ _ _); [|done]. destruct (checked_add _ _ _); [|done]. by destruct (classify_next_queue_action _ _).
    + intros E. unfold plan_next, reject_live_reservation, next_ready_plan. by rewrite Hr, Hf, Hd, E.
  - intros b' w' E. pose proof (call_wp C w Hok (OpReserve b')) as Hw. unfold wp in Hw. rewrite E in Hw. cbn in Hw.
    apply step_inv in Hw as (_ & _ & Hw). destruct (Hw eq_refl) as (b2 & key & Hs). inversion Hs; subst.
    by apply planned_best.
Qed.

(** *** Lifecycle *)


(** C14: the registry is never wedged: one call completes a batch in flight, one
    call publishes a live reservation, and an idle registry with ready work is
    in flight within three calls, while epochs and reservation identities last. *)
Theorem registry_progress {P : Platform} {HP : PlatformLaws P} C w :
  Reach C w ->
  (forall b, rg_in_flight (w_registry w) = Some b ->
     exists op w', run_op C op w = Done w' true /\ rg_in_flight (w_registry w') = None) /\
  (forall live, rg_reservation (w_registry w) = Some live ->
     exists op w', run_op C op w = Done w' true /\ rg_in_flight (w_registry w') <> None) /\
  (rg_in_flight (w_registry w) = None -> has_ready (w_registry w) ->
     rg_submitted_epoch (w_registry w) < u64_max -> rg_next_reservation_id (w_registry w) < u64_max ->
     exists ops w', (length ops <= 3)%nat /\ run_ops C ops w = Done w' tt /\ rg_in_flight (w_registry w') <> None).
Proof.
  intros H%reach_ok. split; [|split].
  - intros b. apply can_complete, H.
  - intros live. by apply can_record.
  - by apply idle_flies.
Qed.

(** *** Completion *)
Lemma entry_settled r b ds q e : entry r q = Some e ->
  entry (completed r b ds) q = Some (settled (if_requests b) ds (if_epoch b) e).
Proof.
  intros He. change (lookup_entry (settled (if_requests b) ds (if_epoch b) <$> rg_entries r) q =
    Some (settled (if_requests b) ds (if_epoch b) e)).
  rewrite lookup_fmap by (intros; apply settled_request). change (lookup_entry (rg_entries r) q) with (entry r q).
  by rewrite He.
Qed.

Lemma disposition_of_lookup requests ds i q d :
  NoDup requests -> requests !! i = Some q -> ds !! i = Some d -> disposition_of requests ds q = Some d.
Proof.
  intros Hnd. revert ds i. induction Hnd as [|x requests Hx Hnd IH]; intros [|y ds] [|i]; try done; cbn.
  - intros [= ->] [= ->]. by rewrite decide_True.
  - intros Hq Hd. rewrite decide_False; [by eapply IH|]. intros ->. apply Hx. by eapply list_elem_of_lookup_2.
Qed.

(** What a completion leaves of a member. *)
Definition completed_member (r r' : M1ServingRegistryV1) (ep : Completion.CompletionEpoch) (q : RequestId)
    (d : M1ServingCompletionDispositionV1) : Prop :=
  match d with
  | Continue next => phase r' q = Some PhaseReady /\ plan r' q = Some next
  | Retire => phase r' q = Some (PhaseRetired (CompletedAt ep)) /\ plan r' q = plan r q
  end.

(** C13: a completion is accepted exactly for the batch in flight, under its
    epoch, with one disposition per member that the member's phase allows (no
    member with a pending cancellation goes on, and none goes back to prefill);
    then the members are ready under the next plan or retired at that epoch,
    nobody else changes, and the registry is idle. *)
Theorem registry_completion_exact {P : Platform} {HP : PlatformLaws P} C w b identity ep ds :
  Reach C w -> rg_in_flight (w_registry w) = Some b ->
  ((exists w', run_op C (OpComplete identity ep ds) w = Done w' true) <->
   identity = rg_identity (w_registry w) /\ rg_draft_catchup (w_registry w) = None /\ ep = if_epoch b /\
   Forall2 (disposition_ok (w_registry w) b) (if_requests b) ds) /\
  (forall w', run_op C (OpComplete identity ep ds) w = Done w' true ->
     Forall2 (completed_member (w_registry w) (w_registry w') ep) (if_requests b) ds /\
     (forall q, q ∉ if_requests b -> entry (w_registry w') q = entry (w_registry w) q) /\
     rg_in_flight (w_registry w') = None /\ rg_completed_epoch (w_registry w') = Completion.value ep).
Proof.
  intros H%reach_ok Hb. pose proof (wk_registry _ _ H) as Hok.
  assert (Hstep : forall w', step C w (OpComplete identity ep ds) w' ->
    completes (w_registry w) ep ds b /\ identity = rg_identity (w_registry w) /\
    w_registry w' = completed (w_registry w) b ds).
  { intros w' Hs. inversion Hs as [? ? Hx|? b' ? Hb' Hx|? ? ? Hx| | | | | |]; subst; try (by inversion Hx).
    assert (b' = b) as -> by congruence. by inversion Hx; subst. }
  pose proof (call_wp C w Hok (OpComplete identity ep ds)) as Hw. split; [split|].
  - intros [w' E]. unfold wp in Hw. rewrite E in Hw. destruct (Hstep w' Hw) as ((_ & Hd & He & Hf) & Hi & _). done.
  - intros (-> & Hd & -> & Hf).
    assert (Hc : completes (w_registry w) (if_epoch b) ds b) by done.
    destruct (accepted C w (OpComplete _ _ _) _ Hok eq_refl (StepComplete C w _ b _ Hb (CompleteExactly _ _ _ ds Hc))) as (w' & E & _).
    by exists w'.
  - intros w' E. unfold wp in Hw. rewrite E in Hw. destruct (Hstep w' Hw) as ((_ & Hd & -> & Hf) & Hi & ->).
    destruct (flight C _ b Hok Hb) as [_ [Hnd _ _ _ _]]. split; [|split; [|done]].
    + apply Forall2_same_length_lookup. split; [by eapply Forall2_length|]. intros i q d Hq Hdi.
      pose proof (disposition_of_lookup _ _ _ _ _ Hnd Hq Hdi) as Hdo.
      destruct (Forall2_lookup_lr _ _ _ _ _ _ Hf Hq Hdi) as (e & He & Hqe & _).
      pose proof (proj2 (entry_Some _ q e (ro_requests _ _ Hok)) (conj He Hqe)) as Hen.
      pose proof (entry_settled _ b ds q e Hen) as Hs. unfold completed_member, phase, plan. rewrite Hs, Hen. cbn.
      unfold settled. rewrite Hqe, Hdo. by destruct d.
    + intros q Hq. destruct (entry (w_registry w) q) as [e|] eqn:Hen.
      * rewrite (entry_settled _ b ds q e Hen). f_equal. unfold settled.
        apply (entry_Some _ _ _ (ro_requests _ _ Hok)) in Hen as [_ Hqe]. rewrite Hqe.
        destruct (disposition_of _ ds q) as [d|] eqn:Ed; [|done]. by apply disposition_of_In in Ed as [? _].
      * change (lookup_entry (settled (if_requests b) ds (if_epoch b) <$> rg_entries (w_registry w)) q = None).
        rewrite lookup_fmap by (intros; apply settled_request).
        change (lookup_entry (rg_entries (w_registry w)) q) with (entry (w_registry w) q). by rewrite Hen.
Qed.

(** *** Windows *)

(** C17: a window reservation replaces every retired member by a ready request
    of its slot and the next generation; giving it back returns the plan and
    the roster it was called with and restores the registry, but for the
    reservation identity it spent. *)
Theorem registry_window_roundtrip {P : Platform} {HP : PlatformLaws P} C w p requests w1 :
  Reach C w -> plan_ok p -> run_op C (OpReserveWindow p requests) w = Done w1 true ->
  rg_entries (w_registry w1) = fresh_entry p <$> requests /\
  Forall2 successor_ok requests (rg_entries (w_registry w)) /\
  exists v, w_windows w1 = w_windows w ++ [v] /\
    restore_completed_window_replacement C v (w_registry w1) =
      Done (put_next_reservation_id (rg_next_reservation_id (w_registry w) + 1) (w_registry w)) (Ok (p, requests)).
Proof.
  intros H%reach_ok Hp E. pose proof (wk_registry _ _ H) as Hok.
  pose proof (call_wp C w Hok (OpReserveWindow p requests)) as Hw. unfold wp in Hw. rewrite E in Hw. cbn in Hw.
  inversion Hw as [? ? Hx|? ? ? ? Hx|? ? ? Hx|p' requests' prior Hd| | | | |]; subst; try (by inversion Hx).
  split; [done|]. split; [apply Hd|]. exists (window_token (w_registry w) p requests prior). split; [done|].
  cbn [put_windows put_registry w_registry]. pose proof (windowed_ok C _ Hok p requests prior Hp Hd) as Hok1.
  pose proof (windowed_live C _ Hok p requests prior Hd) as Hl.
  pose proof (window_restore_wp C _ (window_token (w_registry w) p requests prior) Hok1) as Hr.
  apply wp_done in Hr as (r' & o & -> & Hr). destruct o as [[p2 q2]|[e v]].
  - destruct Hr as (_ & -> & -> & ->). cbn. f_equal.
    destruct (wd_reservation _ _ _ _ Hd). by destruct (w_registry w).
  - destruct Hr as (_ & _ & Hn). by destruct (Hn _ Hl).
Qed.

(** *** Draft catch-up *)

(** C18: while a draft catch-up is due, nothing is reserved but it: an accepted
    reservation is of the planned batch, its one member under the bound plan,
    and made by the call that starts the catch-up or restores the draft. *)
Theorem registry_catchup_exclusive {P : Platform} {HP : PlatformLaws P} C w ph op w' :
  Reach C w -> rg_draft_catchup (w_registry w) = Some ph ->
  is_reserve op = true \/ allocates op = true -> run_op C op w = Done w' true ->
  exists b, plan_next C (w_registry w) = Ok (Some b) /\ bp_requests b = [key_request (catchup_key ph)] /\
    rg_bound_plan (w_registry w) = Some (bp_plan b) /\ sp_target (bp_plan b) = key_parent (catchup_key ph) /\
    match ph with
    | CatchupPending k => bp_action b = QuiescentDraftCatchup (bp_plan b) /\ op = OpReserveCatchup b k
    | CatchupInFlight _ => False
    | CatchupCompleted k dg => bp_action b = QuiescentDraftCatchupRestore (bp_plan b) /\ op = OpReserveRestore b k dg
    end.
Proof.
  intros H%reach_ok Hd Hk E. pose proof (wk_registry _ _ H) as Hok.
  pose proof (call_wp C w Hok op) as Hw. unfold wp in Hw. rewrite E in Hw. cbn in Hw.
  destruct Hk as [Hk|Hk].
  2:{ destruct op; try done. inversion Hw as [? ? Hx|? ? ? ? Hx|? ? ? Hx|? ? ? Hx| | | | |]; subst; try (by inversion Hx).
      pose proof (wd_catchup _ _ _ _ Hx). congruence. }
  apply step_inv in Hw as (_ & _ & Hs). destruct (Hs Hk) as (b & key & Hb). clear Hs Hk. exists b.
  pose proof (reserves_planned _ _ _ _ _ Hb) as Hp.
  destruct (planned_fields C _ Hok b Hp) as (_ & _ & _ & Hq & _ & _ & _ & Hc & _).
  unfold due_roster in Hq. rewrite Hd in Hq. unfold classify_next_queue_action in Hc. rewrite Hd in Hc.
  split; [done|]. split; [done|]. destruct ph as [k|k|k dg]; [|done|];
    (destruct (_ && _ && _) eqn:Hen; [|done]; injection Hc as Ha;
     rewrite !andb_true_iff, !bool_decide_eq_true in Hen; destruct Hen as [[Hbd Ht] _];
     do 2 (split; [done|]); split; [done|]).
  - destruct Hb as [_ Ho _|key' _ Hst _|key' dg' _ Hd' _ _ _]; [by rewrite <- Ha in Ho| |congruence].
    apply start_fields in Hst as (Hd' & _). congruence.
  - destruct Hb as [_ Ho _|key' _ Hst _|key' dg' _ Hd' _ _ _]; [by rewrite <- Ha in Ho| |congruence].
    apply start_fields in Hst as (Hd' & _). congruence.
Qed.

(** *** A run *)
Definition prefill8 : M1ServingPlanV1 := mkServingPlan
  (Graph.mkSelection Graph.Target8B Graph.Prefill Graph.PrefillS8T128)
  (Graph.mkSelection Graph.Draft06B Graph.Prefill Graph.PrefillS8T128) PairedPrefill 8.
Definition spec8 : M1ServingPlanV1 := mkServingPlan
  (Graph.mkSelection Graph.Target8B Graph.Speculative Graph.SpeculativeS8K4C8192)
  (Graph.mkSelection Graph.Draft06B Graph.Decode Graph.DecodeS8C8192) SpeculativeK4 8.
Definition prefill1 : M1ServingPlanV1 := mkServingPlan
  (Graph.mkSelection Graph.Target8B Graph.Prefill Graph.PrefillS1T128)
  (Graph.mkSelection Graph.Draft06B Graph.Prefill Graph.PrefillS1T128) PairedPrefill 1.
Definition spec1 : M1ServingPlanV1 := mkServingPlan
  (Graph.mkSelection Graph.Target8B Graph.Speculative Graph.SpeculativeS1K4C8192)
  (Graph.mkSelection Graph.Draft06B Graph.Decode Graph.DecodeS1C8192) SpeculativeK4 1.

Lemma prefill8_ok : plan_ok prefill8.
Proof. exists (sp_target prefill8), (sp_draft prefill8). by vm_compute. Qed.
Lemma spec8_ok : plan_ok spec8.
Proof. exists (sp_target spec8), (sp_draft spec8). by vm_compute. Qed.
Lemma prefill1_ok : plan_ok prefill1.
Proof. exists (sp_target prefill1), (sp_draft prefill1). by vm_compute. Qed.
Lemma spec1_ok : plan_ok spec1.
Proof. exists (sp_target spec1), (sp_draft spec1). by vm_compute. Qed.

Definition demo_registry : M1ServingRegistryV1 := mkRegistry 7 [] None None None None 1 0 0.
Definition at_epoch (n : N) : Completion.CompletionEpoch := Completion.mkEpoch n.
Definition demo_a : RequestId := mkRequestId 0 1.
Definition demo_b : RequestId := mkRequestId 1 5.

Definition demo_launch : M1ServingBatchPlanV1 := mkBatch prefill8 [demo_a; demo_b] (at_epoch 1) FreshLaunch.
Definition demo_rollover : M1ServingBatchPlanV1 :=
  mkBatch spec8 [demo_a] (at_epoch 2) (QuiescentRollover prefill8 spec8 ReasonMode).

(** Two requests prefill together, one is cancelled in flight, the other goes on
    speculating and retires; a window takes its place. *)
Definition demo_ops : list Op :=
  [OpAdmit demo_a prefill8; OpAdmit demo_b prefill8; OpReserve demo_launch; OpRecord 0; OpCancel demo_b;
   OpComplete 7 (at_epoch 1) [Continue spec8; Retire]; OpReserve demo_rollover; OpAbort 0; OpReserve demo_rollover;
   OpRecord 0; OpComplete 7 (at_epoch 2) [Retire]; OpRemove demo_b; OpReserveWindow prefill8 [mkRequestId 0 2];
   OpRecordWindow 0].

Definition run_demo (ops : list Op) : World :=
  match run_ops (P := demo_platform) 4 ops (start demo_registry) with Done w _ => w | Panic => start demo_registry end.
Definition demo_world (n : nat) : World := run_demo (take n demo_ops).

Lemma demo_ops_ok : Forall op_ok demo_ops.
Proof. repeat constructor; apply prefill8_ok || apply spec8_ok. Qed.

Lemma run_demo_reach ops : Forall op_ok ops -> run_ops (P := demo_platform) 4 ops (start demo_registry) = Done (run_demo ops) tt ->
  Reach (P := demo_platform) 4 (run_demo ops).
Proof. intros Ho E. exists 7, 8, demo_registry, ops. done. Qed.

Lemma demo_reach n : run_ops (P := demo_platform) 4 (take n demo_ops) (start demo_registry) = Done (demo_world n) tt ->
  Reach (P := demo_platform) 4 (demo_world n).
Proof. intros E. apply run_demo_reach; [|done]. apply Forall_take, demo_ops_ok. Qed.

Lemma registry_safe_witness :
  exists w, run_ops (P := demo_platform) 4 demo_ops (start demo_registry) = Done w tt /\
    roster_safe 4 (w_registry w) /\ lifecycle (w_registry w) (mkRequestId 0 2) = Lifecycle.mkSeq Lifecycle.InFlight Lifecycle.Executing.
Proof.
  destruct (registry_safe (HP := demo_platform_laws) 4 7 8 demo_registry demo_ops eq_refl demo_ops_ok) as (w & E & Hs & _).
  exists w. split; [exact E|]. split; [exact Hs|]. revert E. vm_compute. by intros [= <-].
Defined.

Lemma registry_history_witness :
  publications (w_trace (demo_world 14)) =
    completions (w_trace (demo_world 14)) ++ [([mkRequestId 0 2], 3)] /\
  completions (w_trace (demo_world 14)) = [([demo_a; demo_b], 1); ([demo_a], 2)].
Proof.
  destruct (registry_history (HP := demo_platform_laws) 4 (demo_world 14) (demo_reach 14 ltac:(by vm_compute))) as (H & _).
  split; [exact H|by vm_compute].
Defined.


Lemma registry_plan_exact_witness :
  best_batch 4 (w_registry (demo_world 6)) demo_rollover /\
  plan_next (P := demo_platform) 4 (w_registry (demo_world 6)) = Ok (Some demo_rollover).
Proof.
  destruct (registry_plan_exact (HP := demo_platform_laws) 4 (demo_world 6) demo_rollover
    (demo_reach 6 ltac:(by vm_compute)) eq_refl eq_refl eq_refl) as [H _].
  assert (E : plan_next (P := demo_platform) 4 (w_registry (demo_world 6)) = Ok (Some demo_rollover)) by (by vm_compute).
  split; [exact (proj1 H E)|exact E].
Defined.


Lemma registry_progress_witness :
  has_ready (w_registry (demo_world 2)) /\
  exists ops w', (length ops <= 3)%nat /\ run_ops (P := demo_platform) 4 ops (demo_world 2) = Done w' tt /\
    rg_in_flight (w_registry w') <> None.
Proof.
  assert (Hr : has_ready (w_registry (demo_world 2))).
  { exists (fresh_entry prefill8 demo_a). split; [by left|done]. }
  split; [exact Hr|].
  destruct (registry_progress (HP := demo_platform_laws) 4 (demo_world 2) (demo_reach 2 ltac:(by vm_compute))) as (_ & _ & H).
  apply H; [done|exact Hr|by vm_compute|by vm_compute].
Defined.

Lemma registry_completion_exact_witness :
  rg_in_flight (w_registry (demo_world 5)) = Some (mkInFlight prefill8 [demo_a; demo_b] (at_epoch 1)) /\
  phase (w_registry (demo_world 6)) demo_a = Some PhaseReady /\ plan (w_registry (demo_world 6)) demo_a = Some spec8.
Proof.
  assert (Hb : rg_in_flight (w_registry (demo_world 5)) = Some (mkInFlight prefill8 [demo_a; demo_b] (at_epoch 1)))
    by (by vm_compute).
  split; [exact Hb|].
  destruct (registry_completion_exact (HP := demo_platform_laws) 4 (demo_world 5) _ 7 (at_epoch 1) [Continue spec8; Retire]
    (demo_reach 5 ltac:(by vm_compute)) Hb) as [_ H].
  destruct (H (demo_world 6) ltac:(by vm_compute)) as [Hm _]. by inversion Hm.
Defined.

Lemma registry_window_roundtrip_witness :
  rg_entries (w_registry (demo_world 13)) = [fresh_entry prefill8 (mkRequestId 0 2)] /\
  exists v, w_windows (demo_world 13) = w_windows (demo_world 12) ++ [v] /\
    restore_completed_window_replacement 4 v (w_registry (demo_world 13)) =
      Done (put_next_reservation_id 5 (w_registry (demo_world 12))) (Ok (prefill8, [mkRequestId 0 2])).
Proof.
  destruct (registry_window_roundtrip (HP := demo_platform_laws) 4 (demo_world 12) prefill8 [mkRequestId 0 2] (demo_world 13)
    (demo_reach 12 ltac:(by vm_compute)) prefill8_ok ltac:(by vm_compute)) as (H1 & _ & H2).
  split; [exact H1|exact H2].
Defined.

(** A speculating request whose draft falls a token behind its target. *)
Definition demo_key : M1ServingDraftCatchupKeyV1 :=
  mkKey 3 (sp_target spec1) demo_a 1 (at_epoch 2) (at_epoch 3) 40 41 17 9.
Definition demo_catchup : M1ServingBatchPlanV1 := mkBatch spec1 [demo_a] (at_epoch 3) (QuiescentDraftCatchup spec1).
Definition demo_catchup_ops : list Op :=
  [OpAdmit demo_a prefill1; OpReserve (mkBatch prefill1 [demo_a] (at_epoch 1) FreshLaunch); OpRecord 0;
   OpComplete 7 (at_epoch 1) [Continue spec1];
   OpReserve (mkBatch spec1 [demo_a] (at_epoch 2) (QuiescentRollover prefill1 spec1 ReasonMode)); OpRecord 0;
   OpComplete 7 (at_epoch 2) [Continue spec1]; OpRegister demo_key].

Lemma demo_catchup_reach : Reach (P := demo_platform) 4 (run_demo demo_catchup_ops).
Proof. apply run_demo_reach; [|by vm_compute]. repeat constructor; apply prefill1_ok || apply spec1_ok. Qed.

Lemma registry_catchup_exclusive_witness :
  rg_draft_catchup (w_registry (run_demo demo_catchup_ops)) = Some (CatchupPending demo_key) /\
  exists b, plan_next (P := demo_platform) 4 (w_registry (run_demo demo_catchup_ops)) = Ok (Some b) /\
    bp_requests b = [demo_a] /\ bp_action b = QuiescentDraftCatchup (bp_plan b).
Proof.
  assert (Hd : rg_draft_catchup (w_registry (run_demo demo_catchup_ops)) = Some (CatchupPending demo_key)) by (by vm_compute).
  split; [exact Hd|].
  destruct (registry_catchup_exclusive (HP := demo_platform_laws) 4 (run_demo demo_catchup_ops) _
    (OpReserveCatchup demo_catchup demo_key) (run_demo (demo_catchup_ops ++ [OpReserveCatchup demo_catchup demo_key]))
    demo_catchup_reach Hd (or_introl eq_refl) ltac:(by vm_compute)) as (b & Hp & Hq & _ & _ & Ha & _).
  exists b. split; [exact Hp|]. split; [exact Hq|exact Ha].
Defined.
