(* ===== verification/ContinuousBatch.v ===== *)
(** The logical continuous-batching contract of
    [ferric-spec/src/continuous_batching.rs]: the fixed table of 32 request
    slots with their generations, active epochs and publication counts, the
    request-local actions, and the interleaved step that routes an action to
    one generational request. *)
From S2P Require Import Prelude Spec M1Completion.
Local Open Scope prog_scope.

Definition M1_CONTINUOUS_BATCH_CAPACITY : N := 32.

Record ContinuousRequest := mkContinuous {
  cr_generation : N;
  lifecycle : Lifecycle.SequentialRequest;
  active_epoch : Completion.CompletionEpoch;
  has_active_epoch : bool;
  published_for_active_epoch : bool;
  published_token_count : N
}.

Definition epoch_zero : Completion.CompletionEpoch := Completion.mkEpoch 0.

(** [ContinuousRequest::INITIAL]. *)
Definition continuous_initial : ContinuousRequest :=
  mkContinuous 1 (Lifecycle.mkSeq Lifecycle.Vacant Lifecycle.Idle) epoch_zero false false 0.

(** [ContinuousRequest::active_epoch]. *)
Definition active_epoch_of (self : ContinuousRequest) : option Completion.CompletionEpoch :=
  if has_active_epoch self then Some (active_epoch self) else None.

Inductive ContinuousBatchAction :=
| Admit
| Dispatch (epoch : Completion.CompletionEpoch)
| Retire
| CompleteExact (epoch : Completion.CompletionEpoch)
| Publish (epoch : Completion.CompletionEpoch) (emitted_tokens : N)
| FinalizeKv
| DetachKv.

Inductive ContinuousBatchError :=
| SlotOutOfRange
| StaleGeneration
| Lifecycle_ (error : Lifecycle.TransitionError)
| EpochMissing
| EpochAlreadyActive
| EpochMismatch
| PublicationNotReady
| AlreadyPublished
| InvalidTokenCount
| TokenCountExhausted
| GenerationExhausted.

Record ContinuousBatch := mkBatch { slots : list ContinuousRequest }.

(** [ContinuousBatch::initial]. *)
Definition batch_initial : ContinuousBatch :=
  mkBatch (vfill M1_CONTINUOUS_BATCH_CAPACITY continuous_initial).

(** [ContinuousBatch::request]: the slot of an exact live generation. *)
Definition batch_request {S} (self : ContinuousBatch) (request : RequestId) :
    M S (option ContinuousRequest) :=
  if M1_CONTINUOUS_BATCH_CAPACITY <=? slot request then ret None
  else
    let! entry := slice_at (slots self) (slot request) in
    if negb (cr_generation entry =? generation request) then ret None else ret (Some entry).

(** [ContinuousBatch::replace]. *)
Definition batch_replace (slot : N) (request : ContinuousRequest) : M ContinuousBatch unit :=
  update_at slots (fun l _ => mkBatch l) slot (fun _ => request).

Definition lifecycle_result (current : ContinuousRequest)
    (transition : Lifecycle.RequestTransition) :
    result Lifecycle.SequentialRequest ContinuousBatchError :=
  match Lifecycle.apply_request_transition (lifecycle current) transition with
  | Ok next => Ok next
  | Err error => Err (Lifecycle_ error)
  end.

Definition is_publication_ready (current : ContinuousRequest) : bool :=
  match Lifecycle.state (lifecycle current), Lifecycle.phase (lifecycle current) with
  | Lifecycle.InFlight, Lifecycle.AwaitingKv => true
  | _, _ => false
  end.

Definition is_valid_publication_token_count (emitted_tokens : N) : bool :=
  (0 <? emitted_tokens) && (emitted_tokens <=? M1_MAX_COMPLETION_TOKENS).

Definition is_retiring_quiescent (lifecycle : Lifecycle.SequentialRequest) : bool :=
  match Lifecycle.phase lifecycle with
  | Lifecycle.RetiringQuiescent => true
  | _ => false
  end.

(** The struct updates of the steps: a new lifecycle with the epoch kept, and
    with the epoch and the publication reset. *)
Definition with_lifecycle (current : ContinuousRequest) (lc : Lifecycle.SequentialRequest) :
    ContinuousRequest :=
  mkContinuous (cr_generation current) lc (active_epoch current) (has_active_epoch current)
    (published_for_active_epoch current) (published_token_count current).

Definition without_epoch (current : ContinuousRequest) (lc : Lifecycle.SequentialRequest) :
    ContinuousRequest :=
  mkContinuous (cr_generation current) lc epoch_zero false false (published_token_count current).

Definition apply_continuous_publish_step (current : ContinuousRequest)
    (epoch : Completion.CompletionEpoch) (emitted_tokens : N) :
    result ContinuousRequest ContinuousBatchError :=
  if negb (has_active_epoch current) then Err EpochMissing
  else if negb (Completion.value (active_epoch current) =? Completion.value epoch) then
    Err EpochMismatch
  else if negb (is_publication_ready current) then Err PublicationNotReady
  else if published_for_active_epoch current then Err AlreadyPublished
  else if negb (is_valid_publication_token_count emitted_tokens) then Err InvalidTokenCount
  else if u64_max - emitted_tokens <? published_token_count current then Err TokenCountExhausted
  else
    Ok (mkContinuous (cr_generation current) (lifecycle current) (active_epoch current)
          (has_active_epoch current) true (published_token_count current + emitted_tokens)).

Definition apply_continuous_request_step (current : ContinuousRequest)
    (action : ContinuousBatchAction) : result ContinuousRequest ContinuousBatchError :=
  match action with
  | Admit =>
      match lifecycle_result current Lifecycle.Admit with
      | Err e => Err e
      | Ok lc => Ok (with_lifecycle current lc)
      end
  | Dispatch epoch =>
      if Completion.value epoch =? 0 then Err EpochMissing
      else if has_active_epoch current then Err EpochAlreadyActive
      else
        match lifecycle_result current Lifecycle.Dispatch with
        | Err e => Err e
        | Ok lc =>
            Ok (mkContinuous (cr_generation current) lc epoch true false
                  (published_token_count current))
        end
  | Retire =>
      match lifecycle_result current Lifecycle.Retire with
      | Err e => Err e
      | Ok lc =>
          if is_retiring_quiescent lc then Ok (without_epoch current lc)
          else Ok (with_lifecycle current lc)
      end
  | CompleteExact epoch =>
      if negb (has_active_epoch current) then Err EpochMissing
      else if negb (Completion.value (active_epoch current) =? Completion.value epoch) then
        Err EpochMismatch
      else
        match lifecycle_result current Lifecycle.CompleteExact with
        | Err e => Err e
        | Ok lc =>
            if is_retiring_quiescent lc then Ok (without_epoch current lc)
            else Ok (with_lifecycle current lc)
        end
  | Publish epoch emitted_tokens => apply_continuous_publish_step current epoch emitted_tokens
  | FinalizeKv =>
      if negb (published_for_active_epoch current) then Err PublicationNotReady
      else
        match lifecycle_result current Lifecycle.FinalizeKv with
        | Err e => Err e
        | Ok lc => Ok (without_epoch current lc)
        end
  | DetachKv =>
      if has_active_epoch current then Err EpochAlreadyActive
      else
        match checked_add u32_max (cr_generation current) 1 with
        | None => Err GenerationExhausted
        | Some generation =>
            match lifecycle_result current Lifecycle.DetachKv with
            | Err e => Err e
            | Ok lc => Ok (mkContinuous generation lc epoch_zero false false 0)
            end
        end
  end.

Definition apply_continuous_batch_step (request : RequestId) (action : ContinuousBatchAction) :
    M ContinuousBatch (result unit ContinuousBatchError) :=
  if M1_CONTINUOUS_BATCH_CAPACITY <=? slot request then ret (Err SlotOutOfRange)
  else
    let! current := read_at slots (slot request) in
    if negb (cr_generation current =? generation request) then ret (Err StaleGeneration)
    else
      match apply_continuous_request_step current action with
      | Err e => ret (Err e)
      | Ok updated => batch_replace (slot request) updated ;; ret (Ok tt)
      end.

(** ** Validity *)

(** [ContinuousRequest::valid]. *)
Definition valid (self : ContinuousRequest) : bool :=
  (0 <? cr_generation self) &&
  match Lifecycle.state (lifecycle self), Lifecycle.phase (lifecycle self) with
  | Lifecycle.Vacant, Lifecycle.Idle | Lifecycle.Ready, Lifecycle.Idle
  | Lifecycle.Retiring, Lifecycle.RetiringQuiescent =>
      negb (has_active_epoch self) && negb (published_for_active_epoch self)
  | Lifecycle.InFlight, Lifecycle.Executing | Lifecycle.Retiring, Lifecycle.RetiringExecuting =>
      has_active_epoch self && (0 <? Completion.value (active_epoch self)) &&
      negb (published_for_active_epoch self)
  | Lifecycle.InFlight, Lifecycle.AwaitingKv =>
      has_active_epoch self && (0 <? Completion.value (active_epoch self))
  | _, _ => false
  end.

Lemma valid_initial : valid continuous_initial = true.
Proof. done. Qed.

(** A step keeps a request valid; detaching is the only way to a new
    generation, which is the next one. *)
Lemma request_step_valid c a c' :
  valid c = true -> apply_continuous_request_step c a = Ok c' -> valid c' = true.
Proof.
  destruct c as [g [[] []] ep [] [] n], a as [|e| |e|e k| |]; unfold valid; cbn;
    rewrite ?andb_false_r, ?andb_true_r; intros Hv H; try done;
    unfold apply_continuous_publish_step, lifecycle_result, checked_add in H; cbn in H;
    repeat (case_match; try discriminate); simplify_eq; cbn;
    rewrite ?andb_true_iff, ?N.ltb_lt, ?N.eqb_neq in *; lia.
Qed.

Lemma request_step_generation c a c' :
  apply_continuous_request_step c a = Ok c' ->
  cr_generation c' = cr_generation c + match a with DetachKv => 1 | _ => 0 end.
Proof.
  destruct a as [|e| |e|e k| |]; cbn; intros H;
    unfold apply_continuous_publish_step, checked_add in H;
    repeat case_match; simplify_eq; cbn; lia.
Qed.
