(* ===== verification/PhysicalKv.v ===== *)
(** The logical physical-paged-KV contract of
    [ferric-spec/src/paged_kv_refinement.rs]: the page table and page slots of
    one admitted request and role, and every operation on them. *)
From S2P Require Import Prelude Spec PlanSelection.
Local Open Scope prog_scope.
Import Graph Completion.

Definition M1_KV_PAGE_TOKENS : N := 16.
Definition M1_KV_PAGE_TABLE_ENTRIES : N := 512.
Definition M1_KV_PHYSICAL_PAGE_SLOTS : N := 512.
Definition M1_MAX_CONTEXT_TOKENS : N := 8192.

Record PhysicalPageId := mkPhysicalPage {
  pp_role : Qwen3ModelRole; pp_index : N; pp_generation : N
}.

Inductive PhysicalPageOwnership :=
| Free
| Exclusive (request : RequestId) (role : Qwen3ModelRole)
| Retired (request : RequestId) (role : Qwen3ModelRole) (after_epoch : CompletionEpoch).

Record PhysicalPageSlot := mkSlot {
  ps_generation : N; ownership : PhysicalPageOwnership; initialized_prefix : N
}.

(** [PhysicalPageSlot::FREE]. *)
Definition slot_free : PhysicalPageSlot := mkSlot 1 Free 0.

Inductive PhysicalKvLifecycle :=
| Active
| Cancelled (after_epoch : CompletionEpoch)
| RetiredAwaitingQuiescence (after_epoch : CompletionEpoch).

Record LogicalKvState := mkLogical {
  lk_request : RequestId;
  lk_role : Qwen3ModelRole;
  lk_lifecycle : PhysicalKvLifecycle;
  lk_resident_tokens : N;
  lk_committed_tokens : N
}.

Record PhysicalKvLocation := mkLocation { page : PhysicalPageId; offset : N }.

Inductive PhysicalKvError :=
| InvalidSelection | ZeroRequestGeneration | WrongLifecycle | RequestMismatch
| SelectionMismatch | RoleMismatch | PageOutOfRange | PageGenerationMismatch
| PageNotFree | PhysicalAlias | PageNotRequired | PageTableExhausted
| ContextExceeded | LogicalPositionMismatch | LogicalPositionOutOfRange | MissingPage
| PageOwnershipMismatch | UninitializedRead | CommitExceedsResident | NoTentativeToken
| SettlementCursorMismatch | SettlementIntervalMismatch | SettlementTailTooWide
| SettlementPageCountMismatch | SettlementPhysicalAlias | ZeroRetirementEpoch
| RetirementEpochMismatch | NoPageToRetire | GenerationExhausted
| InvalidQuiescenceAuthority.

Inductive PhysicalKvCatchupCommitError :=
| CompletionEpochMismatch
| AcceptedCountMismatch
| Physical (error : PhysicalKvError).

Record KvQuiescenceAuthority := mkAuthority {
  qa_request : RequestId; qa_role : Qwen3ModelRole; exact_epoch : CompletionEpoch
}.

Record PhysicalKvSettlementPermit := mkPermit {
  sp_request : RequestId;
  sp_selection : Qwen3PlanSelection;
  sp_after_epoch : CompletionEpoch;
  pre_committed : N;
  tentative_end : N;
  commit_end : N;
  old_page_count : N;
  next_page_count : N;
  retired_pages : N;
  retired_page : option PhysicalPageId;
  retained_page : option PhysicalPageId
}.

Record PhysicalKvReselectionPermit := mkReselection {
  rp_request : RequestId;
  prior_selection : Qwen3PlanSelection;
  next_selection : Qwen3PlanSelection;
  prior_max_context_tokens : N;
  next_max_context_tokens : N;
  rp_resident_tokens : N;
  rp_committed_tokens : N;
  rp_page_count : N
}.

Record PhysicalKvState := mkKv {
  kv_request : RequestId;
  kv_selection : Qwen3PlanSelection;
  kv_lifecycle : PhysicalKvLifecycle;
  max_context_tokens : N;
  resident_tokens : N;
  committed_tokens : N;
  page_count : N;
  page_table : list (option PhysicalPageId);
  page_slots : list PhysicalPageSlot
}.

#[export] Instance PhysicalPageId_eq_dec : EqDecision PhysicalPageId.
Proof. solve_decision. Defined.
#[export] Instance PhysicalPageOwnership_eq_dec : EqDecision PhysicalPageOwnership.
Proof. solve_decision. Defined.
#[export] Instance PhysicalPageSlot_eq_dec : EqDecision PhysicalPageSlot.
Proof. solve_decision. Defined.
#[export] Instance PhysicalKvLifecycle_eq_dec : EqDecision PhysicalKvLifecycle.
Proof. solve_decision. Defined.
#[export] Instance PhysicalKvError_eq_dec : EqDecision PhysicalKvError.
Proof. solve_decision. Defined.
#[export] Instance PhysicalKvState_eq_dec : EqDecision PhysicalKvState.
Proof. solve_decision. Defined.

(** Field updates of the operations. *)
Definition set_lifecycle (l : PhysicalKvLifecycle) (s : PhysicalKvState) : PhysicalKvState :=
  mkKv (kv_request s) (kv_selection s) l (max_context_tokens s) (resident_tokens s)
    (committed_tokens s) (page_count s) (page_table s) (page_slots s).
Definition set_cursors (resident committed : N) (s : PhysicalKvState) : PhysicalKvState :=
  mkKv (kv_request s) (kv_selection s) (kv_lifecycle s) (max_context_tokens s) resident
    committed (page_count s) (page_table s) (page_slots s).
Definition set_page_count (n : N) (s : PhysicalKvState) : PhysicalKvState :=
  mkKv (kv_request s) (kv_selection s) (kv_lifecycle s) (max_context_tokens s)
    (resident_tokens s) (committed_tokens s) n (page_table s) (page_slots s).
Definition set_page_table (t : list (option PhysicalPageId)) (s : PhysicalKvState) :
    PhysicalKvState :=
  mkKv (kv_request s) (kv_selection s) (kv_lifecycle s) (max_context_tokens s)
    (resident_tokens s) (committed_tokens s) (page_count s) t (page_slots s).
Definition set_page_slots (l : list PhysicalPageSlot) (s : PhysicalKvState) : PhysicalKvState :=
  mkKv (kv_request s) (kv_selection s) (kv_lifecycle s) (max_context_tokens s)
    (resident_tokens s) (committed_tokens s) (page_count s) (page_table s) l.
Definition set_selection (sel : Qwen3PlanSelection) (ctx : N) (s : PhysicalKvState) :
    PhysicalKvState :=
  mkKv (kv_request s) sel (kv_lifecycle s) ctx (resident_tokens s)
    (committed_tokens s) (page_count s) (page_table s) (page_slots s).

Definition put_table (i : N) (p : option PhysicalPageId) : M PhysicalKvState unit :=
  update_at page_table set_page_table i (fun _ => p).
Definition put_slot (i : N) (f : PhysicalPageSlot -> PhysicalPageSlot) : M PhysicalKvState unit :=
  update_at page_slots set_page_slots i f.

(** ** Construction *)

Definition kv_new (request : RequestId) (selection : Qwen3PlanSelection) :
    result PhysicalKvState PhysicalKvError :=
  if generation request =? 0 then Err ZeroRequestGeneration
  else
    match dimensions (bucket selection) (role selection) (mode selection) with
    | None => Err InvalidSelection
    | Some dims =>
        Ok (mkKv request selection Active (context_tokens dims) 0 0 0
              (vfill M1_KV_PAGE_TABLE_ENTRIES None) (vfill M1_KV_PHYSICAL_PAGE_SLOTS slot_free))
    end.

(** The first loop of [new_with_page_generations]: a zero generation. *)
Fixpoint zero_generation_loop {S} (fuel : nat) (page_generations : list N) (position : N) :
    M S bool :=
  match fuel with
  | O => ret false
  | S fuel' =>
      if position <? M1_KV_PHYSICAL_PAGE_SLOTS then
        let! g := slice_at page_generations position in
        if g =? 0 then ret true
        else
          let! next := add_usize position 1 in
          zero_generation_loop fuel' page_generations next
      else ret false
  end.

(** The second loop: the free slots with the snapshot's generations. *)
Fixpoint seed_loop {S} (fuel : nat) (page_generations : list N) (position : N)
    (slots : list PhysicalPageSlot) : M S (list PhysicalPageSlot) :=
  match fuel with
  | O => ret slots
  | S fuel' =>
      if position <? M1_KV_PHYSICAL_PAGE_SLOTS then
        let! g := slice_at page_generations position in
        let! slots' := slice_set slots position (mkSlot g Free 0) in
        let! next := add_usize position 1 in
        seed_loop fuel' page_generations next slots'
      else ret slots
  end.

Definition new_with_page_generations {S} (request : RequestId) (selection : Qwen3PlanSelection)
    (page_generations : list N) : M S (result PhysicalKvState PhysicalKvError) :=
  if generation request =? 0 then ret (Err ZeroRequestGeneration)
  else
    match dimensions (bucket selection) (role selection) (mode selection) with
    | None => ret (Err InvalidSelection)
    | Some dims =>
        let fuel := N.to_nat M1_KV_PHYSICAL_PAGE_SLOTS in
        let! zero := zero_generation_loop fuel page_generations 0 in
        if zero : bool then ret (Err PageGenerationMismatch)
        else
          let! slots := seed_loop fuel page_generations 0
                          (vfill M1_KV_PHYSICAL_PAGE_SLOTS slot_free) in
          ret (Ok (mkKv request selection Active (context_tokens dims) 0 0 0
                     (vfill M1_KV_PAGE_TABLE_ENTRIES None) slots))
    end.

(** ** Reads *)

Definition logical_state (self : PhysicalKvState) : LogicalKvState :=
  mkLogical (kv_request self) (role (kv_selection self)) (kv_lifecycle self)
    (resident_tokens self) (committed_tokens self).

Definition page_at {S} (self : PhysicalKvState) (position : N) :
    M S (option PhysicalPageId) :=
  if M1_KV_PAGE_TABLE_ENTRIES <=? position then ret None
  else slice_at (page_table self) position.

Definition page_generation {S} (self : PhysicalKvState) (index : N) : M S (option N) :=
  if M1_KV_PHYSICAL_PAGE_SLOTS <=? index then ret None
  else
    let! s := slice_at (page_slots self) index in
    ret (Some (ps_generation s)).

Fixpoint table_contains_loop {S} (fuel : nat) (self : PhysicalKvState) (index position : N) :
    M S bool :=
  match fuel with
  | O => ret false
  | S fuel' =>
      if position <? M1_KV_PAGE_TABLE_ENTRIES then
        let! entry := slice_at (page_table self) position in
        if match entry with Some page => pp_index page =? index | None => false end then ret true
        else
          let! next := add_usize position 1 in
          table_contains_loop fuel' self index next
      else ret false
  end.

Definition table_contains_index {S} (self : PhysicalKvState) (index : N) : M S bool :=
  table_contains_loop (N.to_nat M1_KV_PAGE_TABLE_ENTRIES) self index 0.

Definition same_role (left right : Qwen3ModelRole) : bool :=
  match left, right with
  | Target8B, Target8B | Draft06B, Draft06B => true
  | _, _ => false
  end.

Definition is_active (lifecycle : PhysicalKvLifecycle) : bool :=
  match lifecycle with Active => true | _ => false end.

Definition is_free_slot (s : PhysicalPageSlot) (page : PhysicalPageId) : bool :=
  (0 <? pp_generation page) && (ps_generation s =? pp_generation page) &&
  match ownership s with Free => true | _ => false end &&
  (initialized_prefix s =? 0).

Definition same_request (left right : RequestId) : bool :=
  (slot left =? slot right) && (generation left =? generation right).

Definition is_exclusive_owner (o : PhysicalPageOwnership) (request : RequestId)
    (role : Qwen3ModelRole) : bool :=
  match o with
  | Exclusive owner owner_role => same_request owner request && same_role owner_role role
  | _ => false
  end.

Definition is_retired_owner (o : PhysicalPageOwnership) (request : RequestId)
    (role : Qwen3ModelRole) (exact_epoch : CompletionEpoch) : bool :=
  match o with
  | Retired owner owner_role after_epoch =>
      same_request owner request && same_role owner_role role &&
      (value after_epoch =? value exact_epoch)
  | _ => false
  end.

Definition validate_active_authority (state : PhysicalKvState) (request : RequestId)
    (selection : Qwen3PlanSelection) : result unit PhysicalKvError :=
  if negb (is_active (kv_lifecycle state)) then Err WrongLifecycle
  else if negb (slot (kv_request state) =? slot request) ||
          negb (generation (kv_request state) =? generation request) then Err RequestMismatch
  else if negb (selection_matches (kv_selection state) selection) then Err SelectionMismatch
  else Ok tt.

(** The identity checks on the page of a table position, which the reads and
    the tail operations run in this order. *)
Definition owned_page {S} (state : PhysicalKvState) (position : N) :
    M S (result (PhysicalPageId * PhysicalPageSlot) PhysicalKvError) :=
  let! entry := slice_at (page_table state) position in
  match entry with
  | None => ret (Err MissingPage)
  | Some page =>
      if negb (same_role (pp_role page) (role (kv_selection state))) then ret (Err RoleMismatch)
      else if M1_KV_PHYSICAL_PAGE_SLOTS <=? pp_index page then ret (Err PageOutOfRange)
      else
        let! s := slice_at (page_slots state) (pp_index page) in
        if (pp_generation page =? 0) || negb (ps_generation s =? pp_generation page) then
          ret (Err PageGenerationMismatch)
        else if negb (is_exclusive_owner (ownership s) (kv_request state)
                        (role (kv_selection state))) then ret (Err PageOwnershipMismatch)
        else ret (Ok (page, s))
  end.

(** ** Selection changes *)

Definition preflight_physical_kv_reselection (state : PhysicalKvState)
    (next_selection : Qwen3PlanSelection) : result PhysicalKvReselectionPermit PhysicalKvError :=
  if negb (is_active (kv_lifecycle state)) then Err WrongLifecycle
  else if negb (same_role (role (kv_selection state)) (role next_selection)) then
    Err RoleMismatch
  else
    match dimensions (bucket next_selection) (role next_selection) (mode next_selection) with
    | None => Err InvalidSelection
    | Some dims =>
        if context_tokens dims <? resident_tokens state then Err ContextExceeded
        else
          Ok (mkReselection (kv_request state) (kv_selection state) next_selection
                (max_context_tokens state) (context_tokens dims) (resident_tokens state)
                (committed_tokens state) (page_count state))
    end.

Definition apply_preflighted_physical_kv_reselection (permit : PhysicalKvReselectionPermit) :
    M PhysicalKvState unit :=
  modify (set_selection (next_selection permit) (next_max_context_tokens permit)).

(** ** Tokens and pages *)

Definition append_physical_page (request : RequestId) (selection : Qwen3PlanSelection)
    (page : PhysicalPageId) : M PhysicalKvState (result unit PhysicalKvError) :=
  let! state := gets id in
  match validate_active_authority state request selection with
  | Err e => ret (Err e)
  | Ok _ =>
      if negb (same_role (pp_role page) (role (kv_selection state))) then ret (Err RoleMismatch)
      else if M1_KV_PHYSICAL_PAGE_SLOTS <=? pp_index page then ret (Err PageOutOfRange)
      else if max_context_tokens state <=? resident_tokens state then ret (Err ContextExceeded)
      else if negb (resident_tokens state mod M1_KV_PAGE_TOKENS =? 0) ||
              negb (page_count state =? resident_tokens state / M1_KV_PAGE_TOKENS) then
        ret (Err PageNotRequired)
      else if M1_KV_PAGE_TABLE_ENTRIES <=? page_count state then ret (Err PageTableExhausted)
      else
        let! contained := table_contains_index state (pp_index page) in
        if contained : bool then ret (Err PhysicalAlias)
        else
          let! s := slice_at (page_slots state) (pp_index page) in
          if negb (is_free_slot s page) then
            if (pp_generation page =? 0) || negb (ps_generation s =? pp_generation page) then
              ret (Err PageGenerationMismatch)
            else ret (Err PageNotFree)
          else
            put_table (page_count state) (Some page) ;;
            put_slot (pp_index page) (fun _ =>
              mkSlot (pp_generation page)
                (Exclusive (kv_request state) (role (kv_selection state))) 0) ;;
            let! next := add32 (page_count state) 1 in
            modify (set_page_count next) ;;
            ret (Ok tt)
  end.

Definition map_initialized_token {S} (state : PhysicalKvState) (request : RequestId)
    (selection : Qwen3PlanSelection) (logical_position : N) :
    M S (result PhysicalKvLocation PhysicalKvError) :=
  match validate_active_authority state request selection with
  | Err e => ret (Err e)
  | Ok _ =>
      if resident_tokens state <=? logical_position then ret (Err LogicalPositionOutOfRange)
      else
        let logical_page := logical_position / M1_KV_PAGE_TOKENS in
        let offset := logical_position mod M1_KV_PAGE_TOKENS in
        if (page_count state <=? logical_page) || (M1_KV_PAGE_TABLE_ENTRIES <=? logical_page) then
          ret (Err MissingPage)
        else
          let? (page, s) := owned_page state logical_page in
          if initialized_prefix s <=? offset then ret (Err UninitializedRead)
          else ret (Ok (mkLocation page offset))
  end.

Definition write_physical_token (request : RequestId) (selection : Qwen3PlanSelection)
    (logical_position : N) : M PhysicalKvState (result unit PhysicalKvError) :=
  let! state := gets id in
  match validate_active_authority state request selection with
  | Err e => ret (Err e)
  | Ok _ =>
      if negb (logical_position =? resident_tokens state) then ret (Err LogicalPositionMismatch)
      else if (max_context_tokens state <=? logical_position) ||
              (M1_MAX_CONTEXT_TOKENS <=? logical_position) then ret (Err ContextExceeded)
      else
        let logical_page := logical_position / M1_KV_PAGE_TOKENS in
        let offset := logical_position mod M1_KV_PAGE_TOKENS in
        if (page_count state <=? logical_page) || (M1_KV_PAGE_TABLE_ENTRIES <=? logical_page) then
          ret (Err MissingPage)
        else
          let? (page, s) := owned_page state logical_page in
          if negb (initialized_prefix s =? offset) ||
             (M1_KV_PAGE_TOKENS <=? initialized_prefix s) then ret (Err LogicalPositionMismatch)
          else
            let! prefix := add32 (initialized_prefix s) 1 in
            put_slot (pp_index page) (fun s => mkSlot (ps_generation s) (ownership s) prefix) ;;
            let! resident := add32 (resident_tokens state) 1 in
            modify (set_cursors resident (committed_tokens state)) ;;
            ret (Ok tt)
  end.

Definition commit_physical_kv (request : RequestId) (selection : Qwen3PlanSelection)
    (accepted_tokens : N) : M PhysicalKvState (result unit PhysicalKvError) :=
  let! state := gets id in
  match validate_active_authority state request selection with
  | Err e => ret (Err e)
  | Ok _ =>
      if resident_tokens state <? committed_tokens state then ret (Err CommitExceedsResident)
      else
        let! pending := sub_w (resident_tokens state) (committed_tokens state) in
        if pending <? accepted_tokens then ret (Err CommitExceedsResident)
        else
          let! committed := add32 (committed_tokens state) accepted_tokens in
          modify (set_cursors (resident_tokens state) committed) ;;
          ret (Ok tt)
  end.

(** The draft state that catches up with the bonus token of its target. *)
Definition initialize_draft_catchup_kv (target : PhysicalKvState) (request : RequestId)
    (parent selection : Qwen3PlanSelection) (logical_position : N) :
    M PhysicalKvState (result unit PhysicalKvError) :=
  match validate_active_authority target request parent with
  | Err e => ret (Err e)
  | Ok _ =>
      if negb (same_role (role parent) Target8B) || negb (same_role (role selection) Draft06B) then
        ret (Err RoleMismatch)
      else if M1_MAX_CONTEXT_TOKENS <=? logical_position then ret (Err ContextExceeded)
      else
        let! selected := gets id in
        if negb (resident_tokens target =? committed_tokens target) then
          ret (Err LogicalPositionMismatch)
        else
          let! next := add32 logical_position 1 in
          if negb (committed_tokens target =? next) ||
             negb (committed_tokens selected =? logical_position) then
            ret (Err LogicalPositionMismatch)
          else write_physical_token request selection logical_position
  end.

Definition commit_initialized_draft_catchup_kv (request : RequestId)
    (selection : Qwen3PlanSelection) (initialized_epoch after_epoch : CompletionEpoch)
    (accepted_tokens : N) : M PhysicalKvState (result unit PhysicalKvCatchupCommitError) :=
  if negb (value initialized_epoch =? value after_epoch) then ret (Err CompletionEpochMismatch)
  else if negb (accepted_tokens =? 1) then ret (Err AcceptedCountMismatch)
  else
    let! r := commit_physical_kv request selection 1 in
    match r with
    | Ok _ => ret (Ok tt)
    | Err error => ret (Err (Physical error))
    end.

Definition rollback_physical_token (request : RequestId) (selection : Qwen3PlanSelection)
    (after_epoch : CompletionEpoch) : M PhysicalKvState (result unit PhysicalKvError) :=
  let! state := gets id in
  match validate_active_authority state request selection with
  | Err e => ret (Err e)
  | Ok _ =>
      if value after_epoch =? 0 then ret (Err ZeroRetirementEpoch)
      else if resident_tokens state <=? committed_tokens state then ret (Err NoTentativeToken)
      else if (page_count state =? 0) || (M1_KV_PAGE_TABLE_ENTRIES <? page_count state) then
        ret (Err MissingPage)
      else
        let! table_position := sub_w (page_count state) 1 in
        let? (page, s) := owned_page state table_position in
        let! last := sub_w (resident_tokens state) 1 in
        let! expected_prefix := add32 (last mod M1_KV_PAGE_TOKENS) 1 in
        if negb (initialized_prefix s =? expected_prefix) then ret (Err UninitializedRead)
        else
          modify (set_cursors last (committed_tokens state)) ;;
          (if initialized_prefix s =? 1 then
             put_table table_position None ;;
             modify (set_page_count table_position) ;;
             put_slot (pp_index page) (fun _ =>
               mkSlot (pp_generation page)
                 (Retired (kv_request state) (role (kv_selection state)) after_epoch) 1)
           else
             let! prefix := sub_w (initialized_prefix s) 1 in
             put_slot (pp_index page) (fun s => mkSlot (ps_generation s) (ownership s) prefix)) ;;
          ret (Ok tt)
  end.

Definition physical_page_count (tokens : N) : N :=
  if tokens =? 0 then 0 else (tokens - 1) / M1_KV_PAGE_TOKENS + 1.

(** ** Speculative settlement *)

(** The inner scan of a settlement check: another entry with the same index. *)
Fixpoint alias_loop {S} (fuel : nat) (state : PhysicalKvState) (index position other : N) :
    M S bool :=
  match fuel with
  | O => ret false
  | S fuel' =>
      if other <? M1_KV_PAGE_TABLE_ENTRIES then
        let! entry := slice_at (page_table state) other in
        if negb (other =? position) &&
           match entry with Some alias => pp_index alias =? index | None => false end then
          ret true
        else
          let! next := add32 other 1 in
          alias_loop fuel' state index position next
      else ret false
  end.

(** The affected tail: every page from the first uncommitted token on. *)
Fixpoint settlement_loop {S} (fuel : nat) (state : PhysicalKvState) (tentative_end position : N) :
    M S (result unit PhysicalKvError) :=
  match fuel with
  | O => ret (Ok tt)
  | S fuel' =>
      if position <? page_count state then
        let? (page, s) := owned_page state position in
        match (if position * M1_KV_PAGE_TOKENS <=? u32_max
               then Some (position * M1_KV_PAGE_TOKENS) else None) with
        | None => ret (Err SettlementPageCountMismatch)
        | Some page_start =>
            if tentative_end <=? page_start then ret (Err SettlementPageCountMismatch)
            else
              let! next := add32 position 1 in
              let! rest := sub_w tentative_end page_start in
              let expected_prefix :=
                if next <? page_count state then M1_KV_PAGE_TOKENS else rest in
              if negb (initialized_prefix s =? expected_prefix) then ret (Err UninitializedRead)
              else
                let! aliased := alias_loop (N.to_nat M1_KV_PAGE_TABLE_ENTRIES) state
                                  (pp_index page) position 0 in
                if aliased : bool then ret (Err SettlementPhysicalAlias)
                else settlement_loop fuel' state tentative_end next
        end
      else ret (Ok tt)
  end.

(** The pages the settlement changes: the one it retires and the partial one it
    keeps. *)
Definition settlement_pages {S} (state : PhysicalKvState) (tentative_end commit_end
    next_page_count retired_pages : N) :
    M S (result (option PhysicalPageId * option PhysicalPageId) PhysicalKvError) :=
  let! retired_page :=
    if retired_pages =? 1 then
      let! last := sub_w (page_count state) 1 in
      slice_at (page_table state) last
    else ret None in
  if (retired_pages =? 1) && match retired_page with None => true | _ => false end then
    ret (Err MissingPage)
  else
    let shrink := (commit_end <? tentative_end) && negb (commit_end mod M1_KV_PAGE_TOKENS =? 0) in
    let! retained_page :=
      if shrink then
        let! last := sub_w next_page_count 1 in
        slice_at (page_table state) last
      else ret None in
    if shrink && match retained_page with None => true | _ => false end then ret (Err MissingPage)
    else if match retired_page with
            | Some page => M1_KV_PHYSICAL_PAGE_SLOTS <=? pp_index page
            | None => false
            end then ret (Err PageOutOfRange)
    else if match retained_page with
            | Some page => M1_KV_PHYSICAL_PAGE_SLOTS <=? pp_index page
            | None => false
            end then ret (Err PageOutOfRange)
    else if match retired_page, retained_page with
            | Some retired, Some retained => pp_index retired =? pp_index retained
            | _, _ => false
            end then ret (Err SettlementPhysicalAlias)
    else ret (Ok (retired_page, retained_page)).

Definition preflight_physical_speculative_settlement {S} (state : PhysicalKvState)
    (request : RequestId) (selection : Qwen3PlanSelection) (after_epoch : CompletionEpoch)
    (pre_committed tentative_end commit_end : N) :
    M S (result PhysicalKvSettlementPermit PhysicalKvError) :=
  match validate_active_authority state request selection with
  | Err e => ret (Err e)
  | Ok _ =>
      if value after_epoch =? 0 then ret (Err ZeroRetirementEpoch)
      else if negb (committed_tokens state =? pre_committed) then
        ret (Err SettlementCursorMismatch)
      else if negb (resident_tokens state =? tentative_end) then
        ret (Err SettlementIntervalMismatch)
      else if (commit_end <? pre_committed) || (tentative_end <? commit_end) then
        ret (Err SettlementIntervalMismatch)
      else if M1_KV_PAGE_TOKENS <? tentative_end - commit_end then
        ret (Err SettlementTailTooWide)
      else
        let expected_page_count := physical_page_count tentative_end in
        let next_page_count := physical_page_count commit_end in
        if negb (page_count state =? expected_page_count) ||
           (M1_KV_PAGE_TABLE_ENTRIES <? page_count state) ||
           (page_count state <? next_page_count) ||
           (1 <? page_count state - next_page_count) then
          ret (Err SettlementPageCountMismatch)
        else
          let? _ :=
            if pre_committed <? tentative_end then
              settlement_loop (N.to_nat (page_count state)) state tentative_end
                (pre_committed / M1_KV_PAGE_TOKENS)
            else ret (Ok tt) in
          let retired_pages := page_count state - next_page_count in
          let? (retired_page, retained_page) :=
            settlement_pages state tentative_end commit_end next_page_count retired_pages in
          ret (Ok (mkPermit request selection after_epoch pre_committed tentative_end commit_end
                     (page_count state) next_page_count retired_pages retired_page retained_page))
  end.

Definition apply_preflighted_physical_speculative_settlement
    (permit : PhysicalKvSettlementPermit) : M PhysicalKvState unit :=
  match retired_page permit with
  | Some page =>
      let! table_position := sub_w (old_page_count permit) 1 in
      let! s := read_at page_slots (pp_index page) in
      put_table table_position None ;;
      let! state := gets id in
      put_slot (pp_index page) (fun _ =>
        mkSlot (pp_generation page)
          (Retired (kv_request state) (role (kv_selection state)) (sp_after_epoch permit))
          (initialized_prefix s))
  | None => ret tt
  end ;;
  match retained_page permit with
  | Some page =>
      put_slot (pp_index page) (fun s =>
        mkSlot (ps_generation s) (ownership s) (commit_end permit mod M1_KV_PAGE_TOKENS))
  | None => ret tt
  end ;;
  modify (set_page_count (next_page_count permit)) ;;
  modify (set_cursors (commit_end permit) (commit_end permit)).

(** ** Cancellation, retirement and reuse *)

Definition cancel_physical_kv (request : RequestId) (selection : Qwen3PlanSelection)
    (after_epoch : CompletionEpoch) : M PhysicalKvState (result unit PhysicalKvError) :=
  let! state := gets id in
  match validate_active_authority state request selection with
  | Err e => ret (Err e)
  | Ok _ =>
      if value after_epoch =? 0 then ret (Err ZeroRetirementEpoch)
      else
        modify (set_lifecycle
          (if page_count state =? 0 then RetiredAwaitingQuiescence after_epoch
           else Cancelled after_epoch)) ;;
        ret (Ok tt)
  end.

Definition retire_cancelled_tail (request : RequestId) (selection : Qwen3PlanSelection)
    (after_epoch : CompletionEpoch) : M PhysicalKvState (result PhysicalPageId PhysicalKvError) :=
  let! state := gets id in
  match kv_lifecycle state with
  | Cancelled expected =>
      if negb (value expected =? value after_epoch) then ret (Err RetirementEpochMismatch)
      else if negb (slot (kv_request state) =? slot request) ||
              negb (generation (kv_request state) =? generation request) then
        ret (Err RequestMismatch)
      else if negb (selection_matches (kv_selection state) selection) then
        ret (Err SelectionMismatch)
      else if (page_count state =? 0) || (M1_KV_PAGE_TABLE_ENTRIES <? page_count state) then
        ret (Err NoPageToRetire)
      else
        let! table_position := sub_w (page_count state) 1 in
        let? (page, s) := owned_page state table_position in
        if (initialized_prefix s =? 0) || (resident_tokens state <? initialized_prefix s) then
          ret (Err UninitializedRead)
        else
          let! remaining := sub_w (resident_tokens state) (initialized_prefix s) in
          put_table table_position None ;;
          modify (set_page_count table_position) ;;
          modify (set_cursors remaining
            (if remaining <? committed_tokens state then remaining
             else committed_tokens state)) ;;
          put_slot (pp_index page) (fun _ =>
            mkSlot (pp_generation page)
              (Retired (kv_request state) (role (kv_selection state)) after_epoch)
              (initialized_prefix s)) ;;
          (if table_position =? 0 then
             modify (set_lifecycle (RetiredAwaitingQuiescence after_epoch))
           else ret tt) ;;
          ret (Ok page)
  | _ => ret (Err WrongLifecycle)
  end.

Definition release_retired_page (page : PhysicalPageId) (authority : KvQuiescenceAuthority) :
    M PhysicalKvState (result PhysicalPageId PhysicalKvError) :=
  let! state := gets id in
  if negb (slot (kv_request state) =? slot (qa_request authority)) ||
     negb (generation (kv_request state) =? generation (qa_request authority)) ||
     negb (same_role (role (kv_selection state)) (qa_role authority)) then
    ret (Err InvalidQuiescenceAuthority)
  else if negb (same_role (pp_role page) (qa_role authority)) then ret (Err RoleMismatch)
  else if M1_KV_PHYSICAL_PAGE_SLOTS <=? pp_index page then ret (Err PageOutOfRange)
  else
    let! s := slice_at (page_slots state) (pp_index page) in
    if (pp_generation page =? 0) || negb (ps_generation s =? pp_generation page) then
      ret (Err PageGenerationMismatch)
    else if ps_generation s =? u32_max then ret (Err GenerationExhausted)
    else if negb (is_retired_owner (ownership s) (qa_request authority) (qa_role authority)
                    (exact_epoch authority)) then ret (Err InvalidQuiescenceAuthority)
    else
      let! contained := table_contains_index state (pp_index page) in
      if contained : bool then ret (Err PhysicalAlias)
      else
        let! next := add32 (pp_generation page) 1 in
        put_slot (pp_index page) (fun _ => mkSlot next Free 0) ;;
        ret (Ok (mkPhysicalPage (pp_role page) (pp_index page) next)).

(** ** The retirement metadata batch *)

Record PhysicalKvRetiredPageMetadataV1 := mkRetired {
  rm_page : PhysicalPageId; rm_after_epoch : CompletionEpoch
}.

(** The roster scan: the mask of the selected slots. *)
Fixpoint roster_loop {S} (state : PhysicalKvState) (request : RequestId) (role : Qwen3ModelRole)
    (pages : list PhysicalKvRetiredPageMetadataV1) (selected : list bool) :
    M S (result (list bool) PhysicalKvError) :=
  match pages with
  | [] => ret (Ok selected)
  | retired :: pages' =>
      let page := rm_page retired in
      if negb (same_role (pp_role page) role) then ret (Err RoleMismatch)
      else if M1_KV_PHYSICAL_PAGE_SLOTS <=? pp_index page then ret (Err PageOutOfRange)
      else
        let index := pp_index page in
        let! seen := slice_at selected index in
        if seen : bool then ret (Err PhysicalAlias)
        else
          let! s := slice_at (page_slots state) index in
          if (pp_generation page =? 0) || negb (ps_generation s =? pp_generation page) then
            ret (Err PageGenerationMismatch)
          else if ps_generation s =? u32_max then ret (Err GenerationExhausted)
          else if value (rm_after_epoch retired) =? 0 then ret (Err ZeroRetirementEpoch)
          else
            let? _ :=
              match ownership s with
              | Retired owner_request owner_role after_epoch =>
                  if negb (slot owner_request =? slot request) ||
                     negb (generation owner_request =? generation request) ||
                     negb (same_role owner_role role) then ret (Err PageOwnershipMismatch)
                  else if negb (value after_epoch =? value (rm_after_epoch retired)) then
                    ret (Err RetirementEpochMismatch)
                  else ret (Ok tt)
              | _ => ret (Err PageOwnershipMismatch)
              end in
            let! contained := table_contains_index state index in
            if contained : bool then ret (Err PhysicalAlias)
            else
              let! selected' := slice_set selected index true in
              roster_loop state request role pages' selected'
  end.

Definition preflight_retired_page_metadata_batch_v1 {S} (state : PhysicalKvState)
    (request : RequestId) (batch_role : Qwen3ModelRole)
    (pages : list PhysicalKvRetiredPageMetadataV1) : M S (result (list bool) PhysicalKvError) :=
  if negb (slot (kv_request state) =? slot request) ||
     negb (generation (kv_request state) =? generation request) then ret (Err RequestMismatch)
  else if negb (same_role (role (kv_selection state)) batch_role) then ret (Err RoleMismatch)
  else if M1_KV_PHYSICAL_PAGE_SLOTS <? vlen pages then ret (Err PageOutOfRange)
  else roster_loop state request batch_role pages (vfill M1_KV_PHYSICAL_PAGE_SLOTS false).

(** [PhysicalKvRetirementMetadataBatchV1::commit]: advance the selected slots. *)
Fixpoint commit_batch_loop (fuel : nat) (selected : list bool) (index : N) :
    M PhysicalKvState unit :=
  match fuel with
  | O => ret tt
  | S fuel' =>
      if index <? M1_KV_PHYSICAL_PAGE_SLOTS then
        let! chosen := slice_at selected index in
        (if chosen : bool then
           let! s := read_at page_slots index in
           let! next := add32 (ps_generation s) 1 in
           put_slot index (fun _ => mkSlot next Free 0)
         else ret tt) ;;
        let! next_index := add_usize index 1 in
        commit_batch_loop fuel' selected next_index
      else ret tt
  end.

Definition commit_batch (selected : list bool) : M PhysicalKvState unit :=
  commit_batch_loop (N.to_nat M1_KV_PHYSICAL_PAGE_SLOTS) selected 0.
