(* ===== verification/PhysicalKvInv.v ===== *)
(** The representation invariant of one physical KV state: the page table is
    the list of the pages the request owns, every page but the last is full,
    and every slot of the pool is free, owned through the table, or retired. *)
From S2P Require Import Prelude Spec PlanSelection PhysicalKv.
Local Open Scope prog_scope.
Import Graph Completion.

(** ** The page table as a list *)
Definition table (pages : list PhysicalPageId) : list (option PhysicalPageId) :=
  (Some <$> pages) ++ vfill (M1_KV_PAGE_TABLE_ENTRIES - vlen pages) None.

Definition kv_role (s : PhysicalKvState) : Qwen3ModelRole := role (kv_selection s).
Definition slot_at (s : PhysicalKvState) (i : N) : PhysicalPageSlot :=
  vnth slot_free (page_slots s) i.

(** The initialized prefix of the page at [p]. *)
Definition page_fill (resident p : N) : N := N.min M1_KV_PAGE_TOKENS (resident - M1_KV_PAGE_TOKENS * p).

Definition page_owned (s : PhysicalKvState) (p : N) (pg : PhysicalPageId) : Prop :=
  pp_role pg = kv_role s /\ pp_index pg < M1_KV_PHYSICAL_PAGE_SLOTS /\ 0 < pp_generation pg /\
  slot_at s (pp_index pg) =
    mkSlot (pp_generation pg) (Exclusive (kv_request s) (kv_role s)) (page_fill (resident_tokens s) p).

Definition slot_ok (s : PhysicalKvState) (pages : list PhysicalPageId) (i : N) : Prop :=
  0 < ps_generation (slot_at s i) <= u32_max /\
  match ownership (slot_at s i) with
  | Free => initialized_prefix (slot_at s i) = 0
  | Exclusive _ _ => i ∈ pp_index <$> pages
  | Retired request role after_epoch =>
      request = kv_request s /\ role = kv_role s /\ 0 < value after_epoch /\
      0 < initialized_prefix (slot_at s i) <= M1_KV_PAGE_TOKENS
  end.

Definition lifecycle_ok (s : PhysicalKvState) : Prop :=
  match kv_lifecycle s with
  | Active => True
  | Cancelled e => 0 < value e /\ 0 < page_count s
  | RetiredAwaitingQuiescence e => 0 < value e /\ page_count s = 0
  end.

Record kv_rep (s : PhysicalKvState) (pages : list PhysicalPageId) : Prop := {
  kr_table : page_table s = table pages;
  kr_count : page_count s = vlen pages;
  kr_max : vlen pages <= M1_KV_PAGE_TABLE_ENTRIES;
  kr_slots : vlen (page_slots s) = M1_KV_PHYSICAL_PAGE_SLOTS;
  kr_sel : exists dims,
    dimensions (bucket (kv_selection s)) (role (kv_selection s)) (mode (kv_selection s)) = Some dims /\
    max_context_tokens s = context_tokens dims;
  kr_cursor : committed_tokens s <= resident_tokens s /\ resident_tokens s <= max_context_tokens s;
  kr_cover : resident_tokens s <= M1_KV_PAGE_TOKENS * vlen pages <= resident_tokens s + M1_KV_PAGE_TOKENS;
  kr_page : forall p pg, vget pages p = Some pg -> page_owned s p pg;
  kr_nodup : NoDup (pp_index <$> pages);
  kr_slot : forall i, i < M1_KV_PHYSICAL_PAGE_SLOTS -> slot_ok s pages i;
  kr_life : lifecycle_ok s
}.

Definition kv_wf (s : PhysicalKvState) : Prop := exists pages, kv_rep s pages.

Ltac kv_consts :=
  unfold M1_KV_PAGE_TABLE_ENTRIES, M1_KV_PHYSICAL_PAGE_SLOTS, M1_KV_PAGE_TOKENS,
    M1_MAX_CONTEXT_TOKENS, u32_max, usize_max, u64_max in *.

Section table.
Implicit Types (pages : list PhysicalPageId).

Lemma vlen_table pages :
  vlen pages <= M1_KV_PAGE_TABLE_ENTRIES -> vlen (table pages) = M1_KV_PAGE_TABLE_ENTRIES.
Proof.
  intros H. unfold table. rewrite vlen_app, vlen_vfill.
  unfold vlen in *. rewrite length_fmap. lia.
Qed.

Lemma vget_table pages p :
  vlen pages <= M1_KV_PAGE_TABLE_ENTRIES -> p < M1_KV_PAGE_TABLE_ENTRIES ->
  vget (table pages) p = Some (vget pages p).
Proof.
  intros Hl Hp. unfold table, vget, vlen, vfill in *.
  destruct (decide (N.to_nat p < length pages)%nat) as [Hlt|Hge].
  - rewrite lookup_app_l by (rewrite length_fmap; lia). rewrite list_lookup_fmap.
    destruct (lookup_lt_is_Some_2 pages (N.to_nat p)) as [x ->]; done.
  - rewrite lookup_app_r by (rewrite length_fmap; lia). rewrite length_fmap.
    rewrite lookup_replicate_2 by lia. by rewrite (lookup_ge_None_2 pages) by lia.
Qed.

Lemma table_push pages pg :
  vlen pages < M1_KV_PAGE_TABLE_ENTRIES ->
  vset (table pages) (vlen pages) (Some pg) = table (pages ++ [pg]).
Proof.
  intros Hl. unfold table, vset, vfill in *. rewrite vlen_app. change (vlen [pg]) with 1. unfold vlen in *.
  replace (N.to_nat (N.of_nat (length pages))) with (length (Some <$> pages) + 0)%nat
    by (rewrite length_fmap; lia).
  rewrite insert_app_r, fmap_app, <- app_assoc. f_equal.
  replace (N.to_nat (M1_KV_PAGE_TABLE_ENTRIES - N.of_nat (length pages)))
    with (S (N.to_nat (M1_KV_PAGE_TABLE_ENTRIES - (N.of_nat (length pages) + 1)))) by lia.
  done.
Qed.

Lemma table_pop pages pg :
  vlen (pages ++ [pg]) <= M1_KV_PAGE_TABLE_ENTRIES ->
  vset (table (pages ++ [pg])) (vlen pages) None = table pages.
Proof.
  rewrite vlen_app. change (vlen [pg]) with 1. intros Hl. unfold table, vset, vfill in *.
  rewrite vlen_app. change (vlen [pg]) with 1. unfold vlen in *.
  rewrite fmap_app, <- app_assoc.
  replace (N.to_nat (N.of_nat (length pages))) with (length (Some <$> pages) + 0)%nat
    by (rewrite length_fmap; lia).
  rewrite insert_app_r. f_equal.
  replace (N.to_nat (M1_KV_PAGE_TABLE_ENTRIES - N.of_nat (length pages)))
    with (S (N.to_nat (M1_KV_PAGE_TABLE_ENTRIES - (N.of_nat (length pages) + 1)))) by lia.
  done.
Qed.

(** The table determines the list. *)
Lemma table_inj pages pages' :
  vlen pages <= M1_KV_PAGE_TABLE_ENTRIES -> vlen pages' <= M1_KV_PAGE_TABLE_ENTRIES ->
  table pages = table pages' -> pages = pages'.
Proof.
  intros Hl Hl' Ht. apply list_eq. intros i.
  destruct (decide (N.of_nat i < M1_KV_PAGE_TABLE_ENTRIES)) as [Hi|Hi].
  - pose proof (vget_table pages (N.of_nat i) Hl Hi) as H1. rewrite Ht in H1.
    rewrite vget_table in H1 by done. unfold vget in H1. rewrite Nat2N.id in H1. congruence.
  - unfold vlen in *. rewrite !lookup_ge_None_2 by lia. done.
Qed.

(** The list has a last page when it is not empty. *)
Lemma pages_last pages : 0 < vlen pages -> exists pages' pg, pages = pages' ++ [pg].
Proof.
  intros H. destruct pages as [|pg pages'] using rev_ind; [done|]. eauto.
Qed.

Lemma vlen_push {A} (l : list A) x : vlen (l ++ [x]) = vlen l + 1.
Proof. by rewrite vlen_app. Qed.

Lemma vget_push {A} (l : list A) x p :
  vget (l ++ [x]) p = if decide (p = vlen l) then Some x else vget l p.
Proof.
  unfold vget, vlen. case_decide as E.
  - rewrite lookup_app_r by lia. by replace (N.to_nat p - length l)%nat with 0%nat by lia.
  - destruct (decide (N.to_nat p < length l)%nat).
    + by rewrite lookup_app_l by done.
    + rewrite lookup_app_r by lia. rewrite (lookup_ge_None_2 l) by lia.
      apply lookup_ge_None_2. simpl. lia.
Qed.
End table.

Lemma same_role_spec a b : same_role a b = true <-> a = b.
Proof. destruct a, b; split; (done || discriminate). Qed.
Lemma same_role_refl a : same_role a a = true.
Proof. by destruct a. Qed.
Lemma same_request_spec a b : same_request a b = true <-> a = b.
Proof.
  destruct a, b. unfold same_request. rewrite andb_true_iff, !N.eqb_eq. cbn.
  split; [intros [-> ->]; done|intros [= -> ->]; done].
Qed.
Lemma same_request_refl a : same_request a a = true.
Proof. by apply same_request_spec. Qed.
Lemma is_exclusive_owner_refl r ro : is_exclusive_owner (Exclusive r ro) r ro = true.
Proof. cbn. by rewrite same_request_refl, same_role_refl. Qed.

(** The identity tests of the guards, read as equalities. *)
Lemma request_differs a b :
  negb (slot a =? slot b) || negb (generation a =? generation b) = negb (same_request a b).
Proof. unfold same_request. by rewrite negb_andb. Qed.

(** Which authority reaches an active state. *)
Lemma validate_active_authority_ok s request selection :
  validate_active_authority s request selection = Ok tt <->
  kv_lifecycle s = Active /\ request = kv_request s /\ selection = kv_selection s.
Proof.
  unfold validate_active_authority. rewrite request_differs.
  destruct (kv_lifecycle s) eqn:Hl; cbn; [|by split; [|intros (? & _)]..].
  destruct (same_request (kv_request s) request) eqn:Hr; cbn.
  2:{ split; [done|]. intros (_ & -> & _). by rewrite same_request_refl in Hr. }
  apply same_request_spec in Hr as <-.
  destruct (selection_matches (kv_selection s) selection) eqn:Hs; cbn.
  - apply selection_matches_spec in Hs as <-. done.
  - split; [done|]. intros (_ & _ & ->).
    by rewrite (proj2 (selection_matches_spec _ _) eq_refl) in Hs.
Qed.

Section scans.
Context {S : Type}.

Lemma table_contains_loop_wp fuel s pages index position (st : S) :
  page_table s = table pages -> vlen pages <= M1_KV_PAGE_TABLE_ENTRIES ->
  position <= M1_KV_PAGE_TABLE_ENTRIES -> M1_KV_PAGE_TABLE_ENTRIES - position <= N.of_nat fuel ->
  wp (table_contains_loop fuel s index position) st (fun st' b =>
    st' = st /\ b = bool_decide (index ∈ pp_index <$> drop (N.to_nat position) pages)).
Proof.
  intros Ht Hl. revert position. induction fuel as [|fuel IH]; intros position Hp Hf; simpl.
  - apply wp_ret. split; [done|]. symmetry. apply bool_decide_eq_false_2.
    rewrite drop_ge by (kv_consts; unfold vlen in *; lia). set_solver.
  - destruct (N.ltb_spec position M1_KV_PAGE_TABLE_ENTRIES) as [Hlt|Hge].
    2:{ apply wp_ret. split; [done|]. symmetry. apply bool_decide_eq_false_2.
        rewrite drop_ge by (kv_consts; unfold vlen in *; lia). set_solver. }
    wp_step. eapply wp_slice_at; [rewrite Ht; by apply vget_table|].
    assert (Hnext : forall (v : option PhysicalPageId), v = vget pages position ->
      index ∈ pp_index <$> drop (N.to_nat position) pages <->
      match v with Some pg => pp_index pg = index | None => False end \/
      index ∈ pp_index <$> drop (N.to_nat (position + 1)) pages).
    { intros v ->. replace (N.to_nat (position + 1)) with (Datatypes.S (N.to_nat position)) by lia.
      unfold vget. destruct (pages !! N.to_nat position) as [pg|] eqn:Hg.
      - rewrite (drop_S pages pg) by done. rewrite fmap_cons, elem_of_cons. naive_solver.
      - apply lookup_ge_None_1 in Hg. rewrite !drop_ge by lia. set_solver. }
    specialize (Hnext _ eq_refl).
    destruct (vget pages position) as [pg|]; [destruct (N.eqb_spec (pp_index pg) index)|].
    1: apply wp_ret; split; [done|]; symmetry; apply bool_decide_eq_true_2; tauto.
    all: wp_step; apply wp_add_usize; [kv_consts; lia|].
    all: eapply wp_mono; [apply IH; lia|]; cbn; intros s' b [-> ->]; split; [done|];
      apply bool_decide_ext; rewrite Hnext; tauto.
Qed.

Lemma table_contains_wp s pages index (st : S) (Q : S -> bool -> Prop) :
  page_table s = table pages -> vlen pages <= M1_KV_PAGE_TABLE_ENTRIES ->
  Q st (bool_decide (index ∈ pp_index <$> pages)) -> wp (table_contains_index s index) st Q.
Proof.
  intros Ht Hl HQ. eapply wp_mono; [by apply (table_contains_loop_wp _ s pages); [..|kv_consts; lia|kv_consts; lia]|].
  cbn. by intros s' b [-> ->].
Qed.

Context (s : PhysicalKvState) (pages : list PhysicalPageId).
Hypothesis Hrep : kv_rep s pages.

(** The checks on an owned page pass, and return it with its slot. *)
Lemma owned_page_wp p pg (st : S) (Q : S -> result (PhysicalPageId * PhysicalPageSlot) PhysicalKvError -> Prop) :
  vget pages p = Some pg ->
  Q st (Ok (pg, mkSlot (pp_generation pg) (Exclusive (kv_request s) (kv_role s))
                  (page_fill (resident_tokens s) p))) ->
  wp (owned_page s p) st Q.
Proof.
  intros Hp HQ. destruct Hrep as [Ht Hc Hmax Hslots _ _ _ Hpage _ _ _].
  destruct (Hpage _ _ Hp) as (Hr & Hi & Hg & Hs). apply vget_Some_lt in Hp as Hlt.
  unfold owned_page. wp_step. eapply wp_slice_at.
  { rewrite Ht. apply vget_table; [done|kv_consts; lia]. }
  rewrite Hp. unfold kv_role in *. rewrite Hr, same_role_refl. cbn [negb].
  rewrite (proj2 (N.leb_gt _ _) Hi). wp_step.
  eapply wp_slice_at; [apply (vget_nth slot_free); by rewrite Hslots|].
  fold (slot_at s (pp_index pg)). rewrite Hs. cbn [ps_generation ownership].
  rewrite (proj2 (N.eqb_neq _ _)) by lia. rewrite N.eqb_refl, is_exclusive_owner_refl.
  by apply wp_ret.
Qed.
End scans.

Lemma rep_context s pages : kv_rep s pages -> max_context_tokens s <= M1_MAX_CONTEXT_TOKENS.
Proof.
  intros H. destruct (kr_sel _ _ H) as (d & Hd & ->).
  destruct (kv_selection s) as [[] [] []]; cbn in Hd; simplify_eq; cbn; kv_consts; lia.
Qed.
