(* ===== verification/PhysicalKvOps.v ===== *)
(** What every operation of the physical KV state does on a well-formed state:
    the short decision it amounts to, with no defensive branch left, and the
    state it leaves. *)
From S2P Require Import Prelude Spec PlanSelection PhysicalKv PhysicalKvInv.
Local Open Scope prog_scope.
Import Graph Completion.

(** A state with the table [pages] and new cursors, slots and lifecycle. *)
Definition kv_at (s : PhysicalKvState) (life : PhysicalKvLifecycle) (resident committed : N)
    (pages : list PhysicalPageId) (slots : list PhysicalPageSlot) : PhysicalKvState :=
  mkKv (kv_request s) (kv_selection s) life (max_context_tokens s) resident committed
    (vlen pages) (table pages) slots.

Lemma rep_kv_at s pages :
  kv_rep s pages ->
  s = kv_at s (kv_lifecycle s) (resident_tokens s) (committed_tokens s) pages (page_slots s).
Proof. intros [Ht Hc]. destruct s; cbn in *. unfold kv_at; cbn. by subst. Qed.

Definition put_state (s : PhysicalKvState) (i : N) (x : PhysicalPageSlot) : list PhysicalPageSlot :=
  vset (page_slots s) i x.

Lemma page_fill_full resident p :
  M1_KV_PAGE_TOKENS * (p + 1) <= resident -> page_fill resident p = M1_KV_PAGE_TOKENS.
Proof. unfold page_fill. kv_consts. lia. Qed.

Lemma vnth_put s pages i j x :
  kv_rep s pages -> i < M1_KV_PHYSICAL_PAGE_SLOTS ->
  vnth slot_free (put_state s i x) j = if decide (j = i) then x else slot_at s j.
Proof.
  intros H Hi. unfold put_state. rewrite vnth_vset by (by rewrite (kr_slots _ _ H)).
  by case_decide.
Qed.

Lemma tail_fresh (pre : list PhysicalPageId) pg p pg' :
  NoDup (pp_index <$> pre ++ [pg]) -> vget pre p = Some pg' -> pp_index pg' <> pp_index pg.
Proof.
  rewrite fmap_app. intros (_ & Hd & _)%NoDup_app Hp.
  apply (list_elem_of_lookup_2 pre) in Hp.
  specialize (Hd (pp_index pg') (list_elem_of_fmap_2 _ _ _ Hp)). cbn in Hd. set_solver.
Qed.

(** ** The three ways an operation changes the tail *)

(** The tail page gets another prefix. *)
Lemma rep_tail_keep s pre pg resident committed :
  kv_rep s (pre ++ [pg]) ->
  M1_KV_PAGE_TOKENS * vlen pre <= resident <= M1_KV_PAGE_TOKENS * (vlen pre + 1) ->
  committed <= resident -> resident <= max_context_tokens s ->
  kv_rep (kv_at s (kv_lifecycle s) resident committed (pre ++ [pg])
            (put_state s (pp_index pg)
               (mkSlot (pp_generation pg) (Exclusive (kv_request s) (kv_role s))
                  (resident - M1_KV_PAGE_TOKENS * vlen pre)))) (pre ++ [pg]).
Proof.
  intros H Hres Hcom Hmax. pose proof (vlen_push pre pg) as Hlen.
  destruct (kr_page _ _ H (vlen pre) pg) as (Hrole & Hi & Hg & Hs).
  { rewrite vget_push. by case_decide. }
  split; cbn; try apply H; try done.
  - by unfold put_state; rewrite vlen_vset, (kr_slots _ _ H).
  - rewrite Hlen. kv_consts. lia.
  - intros p pg' Hp. destruct (kr_page _ _ H p pg' Hp) as (? & ? & ? & Hs').
    repeat split; try done. cbn. unfold slot_at at 1. cbn. rewrite (vnth_put _ _ _ _ _ H Hi).
    rewrite vget_push in Hp. destruct (decide (p = vlen pre)) as [->|Hne].
    + injection Hp as <-. rewrite decide_True by done. unfold page_fill. f_equal. kv_consts. lia.
    + rewrite decide_False by (eapply tail_fresh; [apply H|done]).
      apply vget_Some_lt in Hp. rewrite Hs', !page_fill_full; [done|kv_consts; lia|].
      pose proof (kr_cover _ _ H) as Hc. rewrite Hlen in Hc. kv_consts. lia.
  - intros i Hlt. pose proof (kr_slot _ _ H i Hlt) as Hok. unfold slot_ok, slot_at in *. cbn.
    rewrite (vnth_put _ _ _ _ _ H Hi). case_decide as Hd; [|exact Hok].
    subst i. unfold slot_at in Hs. rewrite Hs in Hok. cbn in *. split; [apply Hok|].
    rewrite fmap_app. set_solver.
  - pose proof (kr_life _ _ H) as Hl. unfold lifecycle_ok in *. cbn.
    rewrite (kr_count _ _ H) in Hl. done.
Qed.

(** The tail page is retired: the tokens it held are gone. *)
Lemma rep_tail_drop s pre pg life committed epoch prefix :
  kv_rep s (pre ++ [pg]) ->
  0 < value epoch -> 0 < prefix <= M1_KV_PAGE_TOKENS -> committed <= M1_KV_PAGE_TOKENS * vlen pre ->
  lifecycle_ok (kv_at s life (M1_KV_PAGE_TOKENS * vlen pre) committed pre []) ->
  kv_rep (kv_at s life (M1_KV_PAGE_TOKENS * vlen pre) committed pre
            (put_state s (pp_index pg)
               (mkSlot (pp_generation pg) (Retired (kv_request s) (kv_role s) epoch) prefix))) pre.
Proof.
  intros H He Hk Hcom Hlife. pose proof (vlen_push pre pg) as Hlen.
  destruct (kr_page _ _ H (vlen pre) pg) as (Hrole & Hi & Hg & Hs).
  { rewrite vget_push. by case_decide. }
  pose proof (kr_cover _ _ H) as Hc. rewrite Hlen in Hc.
  pose proof (kr_max _ _ H) as Hm. rewrite Hlen in Hm.
  split; cbn; try apply H; try done.
  - lia.
  - by unfold put_state; rewrite vlen_vset, (kr_slots _ _ H).
  - pose proof (kr_cursor _ _ H). kv_consts. lia.
  - kv_consts. lia.
  - intros p pg' Hp. pose proof (vget_Some_lt _ _ _ Hp) as Hlt.
    destruct (kr_page _ _ H p pg') as (? & ? & ? & Hs').
    { rewrite vget_push. by rewrite decide_False by lia. }
    repeat split; try done. cbn. unfold slot_at at 1. cbn. rewrite (vnth_put _ _ _ _ _ H Hi).
    rewrite decide_False by (eapply tail_fresh; [apply H|done]).
    rewrite Hs', !page_fill_full; [done|kv_consts; lia..].
  - pose proof (kr_nodup _ _ H) as Hn. rewrite fmap_app in Hn.
    apply NoDup_app in Hn as (Hn & _). exact Hn.
  - intros i Hlt. pose proof (kr_slot _ _ H i Hlt) as Hok. unfold slot_ok, slot_at in *. cbn.
    rewrite (vnth_put _ _ _ _ _ H Hi). case_decide as Hd.
    + subst i. unfold slot_at in Hs. rewrite Hs in Hok. cbn in *. split_and!; try done; try lia.
    + unfold slot_at in *. rewrite fmap_app in Hok. destruct Hok as [? Hok]. split; [done|].
      destruct (ownership _); try done. set_solver.
Qed.

(** A free page is appended, empty. *)
Lemma rep_tail_push s pages pg :
  kv_rep s pages -> kv_lifecycle s = Active ->
  pp_role pg = kv_role s -> pp_index pg < M1_KV_PHYSICAL_PAGE_SLOTS -> 0 < pp_generation pg ->
  slot_at s (pp_index pg) = mkSlot (pp_generation pg) Free 0 ->
  resident_tokens s = M1_KV_PAGE_TOKENS * vlen pages -> resident_tokens s < max_context_tokens s ->
  kv_rep (kv_at s (kv_lifecycle s) (resident_tokens s) (committed_tokens s) (pages ++ [pg])
            (put_state s (pp_index pg)
               (mkSlot (pp_generation pg) (Exclusive (kv_request s) (kv_role s)) 0))) (pages ++ [pg]).
Proof.
  intros H Hact Hrole Hi Hg Hs Hres Hmax. pose proof (vlen_push pages pg) as Hlen.
  pose proof (rep_context _ _ H) as Hctx.
  assert (Hfresh : pp_index pg ∉ pp_index <$> pages).
  { intros (pg' & Heq & [p Hp]%list_elem_of_lookup)%list_elem_of_fmap.
    destruct (kr_page _ _ H (N.of_nat p) pg') as (_ & _ & _ & Hs').
    { unfold vget. by rewrite Nat2N.id. }
    rewrite <- Heq, Hs in Hs'. done. }
  split; cbn; try apply H; try done.
  - rewrite Hlen. kv_consts. lia.
  - by unfold put_state; rewrite vlen_vset, (kr_slots _ _ H).
  - rewrite Hlen. kv_consts. lia.
  - intros p pg' Hp. unfold page_owned. cbn. unfold slot_at. cbn. rewrite (vnth_put _ _ _ _ _ H Hi).
    rewrite vget_push in Hp. case_decide as Hp'; simplify_eq.
    + repeat split; try done. rewrite decide_True by done. unfold page_fill. f_equal. kv_consts. lia.
    + destruct (kr_page _ _ H p pg' Hp) as (? & ? & ? & Hs'). repeat split; try done.
      rewrite decide_False; [done|]. intros Heq. apply Hfresh. rewrite <- Heq.
      apply list_elem_of_fmap_2. by apply (list_elem_of_lookup_2 pages) in Hp.
  - rewrite fmap_app. apply NoDup_app. split_and!; [apply H| |apply NoDup_singleton].
    intros x Hx. cbn. intros ->%list_elem_of_singleton. done.
  - intros i Hlt. pose proof (kr_slot _ _ H i Hlt) as Hok. unfold slot_ok, slot_at in *. cbn.
    rewrite (vnth_put _ _ _ _ _ H Hi), fmap_app. case_decide as Hd.
    + subst i. unfold slot_at in Hs. rewrite Hs in Hok. cbn in *. split; [apply Hok|set_solver].
    + unfold slot_at in *. destruct Hok as [? Hok]. split; [done|].
      destruct (ownership _); try done. set_solver.
  - unfold lifecycle_ok. cbn. by rewrite Hact.
Qed.
