(* ===== verification/PhysicalKvSpec.v ===== *)
(** The decision each operation of the physical KV state amounts to on a
    well-formed state, and its exact effect on the represented page list. *)
From S2P Require Import Prelude Spec PlanSelection PhysicalKv PhysicalKvInv PhysicalKvOps.
Local Open Scope prog_scope.
Import Graph Completion.

(** Decisions taken under the authority of an active request. *)
Definition under {A} (s : PhysicalKvState) (request : RequestId) (selection : Qwen3PlanSelection)
    (d : result A PhysicalKvError) : result A PhysicalKvError :=
  match validate_active_authority s request selection with Err e => Err e | Ok _ => d end.

(** The tail page holds no token yet. *)
Definition tail_empty (s : PhysicalKvState) : bool :=
  resident_tokens s + M1_KV_PAGE_TOKENS =? M1_KV_PAGE_TOKENS * page_count s.

Definition write_decision (s : PhysicalKvState) (logical_position : N) :
    result unit PhysicalKvError :=
  if negb (logical_position =? resident_tokens s) then Err LogicalPositionMismatch
  else if max_context_tokens s <=? logical_position then Err ContextExceeded
  else if M1_KV_PAGE_TOKENS * page_count s <=? logical_position then Err MissingPage
  else Ok tt.

Definition commit_decision (s : PhysicalKvState) (accepted : N) : result unit PhysicalKvError :=
  if resident_tokens s <? committed_tokens s + accepted then Err CommitExceedsResident else Ok tt.

Definition rollback_decision (s : PhysicalKvState) (after_epoch : CompletionEpoch) :
    result unit PhysicalKvError :=
  if value after_epoch =? 0 then Err ZeroRetirementEpoch
  else if resident_tokens s =? committed_tokens s then Err NoTentativeToken
  else if tail_empty s then Err UninitializedRead
  else Ok tt.

Definition settlement_decision (s : PhysicalKvState) (after_epoch : CompletionEpoch)
    (pre_committed tentative_end commit_end : N) : result unit PhysicalKvError :=
  if value after_epoch =? 0 then Err ZeroRetirementEpoch
  else if negb (committed_tokens s =? pre_committed) then Err SettlementCursorMismatch
  else if negb (resident_tokens s =? tentative_end) then Err SettlementIntervalMismatch
  else if (commit_end <? pre_committed) || (tentative_end <? commit_end) then
    Err SettlementIntervalMismatch
  else if M1_KV_PAGE_TOKENS <? tentative_end - commit_end then Err SettlementTailTooWide
  else if tail_empty s then Err SettlementPageCountMismatch
  else Ok tt.

Definition append_decision (s : PhysicalKvState) (page : PhysicalPageId) :
    result unit PhysicalKvError :=
  if negb (same_role (pp_role page) (kv_role s)) then Err RoleMismatch
  else if M1_KV_PHYSICAL_PAGE_SLOTS <=? pp_index page then Err PageOutOfRange
  else if max_context_tokens s <=? resident_tokens s then Err ContextExceeded
  else if negb (resident_tokens s =? M1_KV_PAGE_TOKENS * page_count s) then Err PageNotRequired
  else
    match ownership (slot_at s (pp_index page)) with
    | Exclusive _ _ => Err PhysicalAlias
    | Free =>
        if (pp_generation page =? 0) ||
           negb (ps_generation (slot_at s (pp_index page)) =? pp_generation page) then
          Err PageGenerationMismatch
        else Ok tt
    | Retired _ _ _ =>
        if (pp_generation page =? 0) ||
           negb (ps_generation (slot_at s (pp_index page)) =? pp_generation page) then
          Err PageGenerationMismatch
        else Err PageNotFree
    end.

Definition retire_decision (s : PhysicalKvState) (request : RequestId)
    (selection : Qwen3PlanSelection) (after_epoch : CompletionEpoch) :
    result unit PhysicalKvError :=
  match kv_lifecycle s with
  | Cancelled expected =>
      if negb (value expected =? value after_epoch) then Err RetirementEpochMismatch
      else if negb (same_request (kv_request s) request) then Err RequestMismatch
      else if negb (selection_matches (kv_selection s) selection) then
        Err PhysicalKv.SelectionMismatch
      else if tail_empty s then Err UninitializedRead
      else Ok tt
  | _ => Err WrongLifecycle
  end.

Definition release_decision (s : PhysicalKvState) (page : PhysicalPageId)
    (authority : KvQuiescenceAuthority) : result unit PhysicalKvError :=
  if negb (same_request (kv_request s) (qa_request authority)) ||
     negb (same_role (kv_role s) (qa_role authority)) then Err InvalidQuiescenceAuthority
  else if negb (same_role (pp_role page) (qa_role authority)) then Err RoleMismatch
  else if M1_KV_PHYSICAL_PAGE_SLOTS <=? pp_index page then Err PageOutOfRange
  else if (pp_generation page =? 0) ||
          negb (ps_generation (slot_at s (pp_index page)) =? pp_generation page) then
    Err PageGenerationMismatch
  else if pp_generation page =? u32_max then Err GenerationExhausted
  else
    match ownership (slot_at s (pp_index page)) with
    | Retired _ _ after_epoch =>
        if value after_epoch =? value (exact_epoch authority) then Ok tt
        else Err InvalidQuiescenceAuthority
    | _ => Err InvalidQuiescenceAuthority
    end.

(** The states the tail operations lead to. *)
Definition with_tail (s : PhysicalKvState) (pre : list PhysicalPageId) (pg : PhysicalPageId)
    (resident committed : N) : PhysicalKvState :=
  kv_at s (kv_lifecycle s) resident committed (pre ++ [pg])
    (put_state s (pp_index pg)
       (mkSlot (pp_generation pg) (Exclusive (kv_request s) (kv_role s))
          (resident - M1_KV_PAGE_TOKENS * vlen pre))).

Definition drop_tail (s : PhysicalKvState) (pre : list PhysicalPageId) (pg : PhysicalPageId)
    (life : PhysicalKvLifecycle) (committed : N) (epoch : CompletionEpoch) (prefix : N) :
    PhysicalKvState :=
  kv_at s life (M1_KV_PAGE_TOKENS * vlen pre) committed pre
    (put_state s (pp_index pg)
       (mkSlot (pp_generation pg) (Retired (kv_request s) (kv_role s) epoch) prefix)).

Lemma tail_empty_spec s pre pg :
  kv_rep s (pre ++ [pg]) ->
  tail_empty s = (resident_tokens s =? M1_KV_PAGE_TOKENS * vlen pre).
Proof.
  intros H. unfold tail_empty. rewrite (kr_count _ _ H), vlen_push. kv_consts.
  destruct (N.eqb_spec (resident_tokens s) (16 * vlen pre)); [apply N.eqb_eq|apply N.eqb_neq]; lia.
Qed.

(** The tail page is the one that holds, or receives, the last tokens. *)
Lemma rep_split s pages :
  kv_rep s pages -> 0 < page_count s ->
  exists pre pg, pages = pre ++ [pg] /\ page_count s = vlen pre + 1 /\
    M1_KV_PAGE_TOKENS * vlen pre <= resident_tokens s <= M1_KV_PAGE_TOKENS * (vlen pre + 1) /\
    vget pages (vlen pre) = Some pg /\
    page_owned s (vlen pre) pg /\
    page_fill (resident_tokens s) (vlen pre) = resident_tokens s - M1_KV_PAGE_TOKENS * vlen pre.
Proof.
  intros H Hp. rewrite (kr_count _ _ H) in Hp. destruct (pages_last _ Hp) as (pre & pg & ->).
  pose proof (kr_cover _ _ H) as Hc. rewrite vlen_push in Hc.
  assert (Hg : vget (pre ++ [pg]) (vlen pre) = Some pg)
    by (rewrite vget_push; by rewrite decide_True).
  exists pre, pg. split; [done|]. split; [by rewrite (kr_count _ _ H), vlen_push|].
  split; [kv_consts; lia|]. split; [exact Hg|]. split; [by apply (kr_page _ _ H)|].
  unfold page_fill. kv_consts. lia.
Qed.

Lemma rep_table_len s pages :
  kv_rep s pages -> vlen (page_table s) = M1_KV_PAGE_TABLE_ENTRIES.
Proof. intros H. rewrite (kr_table _ _ H). apply vlen_table, H. Qed.

Lemma page_position p :
  p = M1_KV_PAGE_TOKENS * (p / M1_KV_PAGE_TOKENS) + p mod M1_KV_PAGE_TOKENS /\
  p mod M1_KV_PAGE_TOKENS < M1_KV_PAGE_TOKENS.
Proof. split; [apply N.Div0.div_mod|by apply N.mod_lt]. Qed.

Lemma rep_page_count_max s pages : kv_rep s pages -> page_count s <= M1_KV_PAGE_TABLE_ENTRIES.
Proof. intros H. rewrite (kr_count _ _ H). apply H. Qed.

(** ** Reads *)
Section ops.
Context (s : PhysicalKvState) (pages : list PhysicalPageId).
Hypothesis Hrep : kv_rep s pages.

(** The translation of a resident token is total: position [p] lives in the
    page [p / 16] at offset [p mod 16]. *)
Lemma map_wp {S} request selection p (st : S) (Q : S -> result PhysicalKvLocation PhysicalKvError -> Prop) :
  (forall pg, p < resident_tokens s -> vget pages (p / M1_KV_PAGE_TOKENS) = Some pg ->
     Q st (under s request selection (Ok (mkLocation pg (p mod M1_KV_PAGE_TOKENS))))) ->
  (resident_tokens s <= p -> Q st (under s request selection (Err LogicalPositionOutOfRange))) ->
  wp (map_initialized_token s request selection p) st Q.
Proof.
  intros Hok Herr. unfold map_initialized_token, under in *.
  pose proof (rep_page_count_max _ _ Hrep) as Hmax. pose proof (kr_cover _ _ Hrep) as Hc.
  pose proof (kr_count _ _ Hrep) as Hn.
  destruct (N.leb_spec (resident_tokens s) p) as [Hge|Hlt].
  - specialize (Herr Hge). destruct (validate_active_authority _ _ _); by apply wp_ret.
  - assert (Hp : p / M1_KV_PAGE_TOKENS < vlen pages).
    { apply N.Div0.div_lt_upper_bound. kv_consts. lia. }
    destruct (vget_lt _ _ Hp) as [pg Hpg]. specialize (Hok pg Hlt Hpg).
    destruct (validate_active_authority _ _ _); [|by apply wp_ret].
    rewrite (proj2 (N.leb_gt _ _)) by (rewrite Hn; exact Hp).
    rewrite (proj2 (N.leb_gt M1_KV_PAGE_TABLE_ENTRIES _)) by lia. cbn [orb].
    wp_step. eapply owned_page_wp; [done..|]. cbn [initialized_prefix].
    rewrite (proj2 (N.leb_gt _ _)); [by apply wp_ret|].
    unfold page_fill. kv_consts.
    pose proof (N.Div0.div_mod p 16) as Hdm. assert (Hmod : p mod 16 < 16) by (by apply N.mod_lt). lia.
Qed.

(** ** Operations on an active state *)

(** Guards of the authority come first in every operation. *)
Lemma under_wp {A B} request selection (k : M PhysicalKvState (result A PhysicalKvError))
    (d : result B PhysicalKvError) (Q : PhysicalKvState -> result A PhysicalKvError -> Prop) :
  (forall e, validate_active_authority s request selection = Err e -> Q s (Err e)) ->
  (validate_active_authority s request selection = Ok tt -> wp k s Q) ->
  wp (match validate_active_authority s request selection with
      | Err e => ret (Err e) | Ok _ => k end) s Q.
Proof.
  intros He Hk. destruct (validate_active_authority _ _ _) as [[]|e]; [by apply Hk|].
  apply wp_ret. by apply He.
Qed.

Lemma put_slot_wp i f (st : PhysicalKvState) (Q : PhysicalKvState -> unit -> Prop) :
  vlen (page_slots st) = M1_KV_PHYSICAL_PAGE_SLOTS -> i < M1_KV_PHYSICAL_PAGE_SLOTS ->
  Q (set_page_slots (vset (page_slots st) i (f (slot_at st i))) st) tt ->
  wp (put_slot i f) st Q.
Proof. intros Hl Hi HQ. unfold put_slot. apply (wp_update_at _ _ slot_free); [by rewrite Hl|done]. Qed.

Lemma put_table_wp i p (st : PhysicalKvState) (Q : PhysicalKvState -> unit -> Prop) :
  vlen (page_table st) = M1_KV_PAGE_TABLE_ENTRIES -> i < M1_KV_PAGE_TABLE_ENTRIES ->
  Q (set_page_table (vset (page_table st) i p) st) tt ->
  wp (put_table i p) st Q.
Proof. intros Hl Hi HQ. unfold put_table. apply (wp_update_at _ _ None); [by rewrite Hl|done]. Qed.

Lemma phys_commit_wp request selection accepted (Q : PhysicalKvState -> result unit PhysicalKvError -> Prop) :
  (forall e, under s request selection (commit_decision s accepted) = Err e -> Q s (Err e)) ->
  (under s request selection (commit_decision s accepted) = Ok tt ->
     Q (set_cursors (resident_tokens s) (committed_tokens s + accepted) s) (Ok tt)) ->
  wp (commit_physical_kv request selection accepted) s Q.
Proof.
  unfold commit_physical_kv, under.
  intros He Hok. wp_step. apply wp_gets. cbn [id]. revert He Hok.
  destruct (validate_active_authority s request selection) as [[]|e];
    [|intros He _; by apply wp_ret, He].
  unfold commit_decision. pose proof (kr_cursor _ _ Hrep) as [Hc Hm].
  pose proof (rep_context _ _ Hrep).
  rewrite (proj2 (N.ltb_ge (resident_tokens s) (committed_tokens s))) by lia.
  destruct (N.ltb_spec (resident_tokens s) (committed_tokens s + accepted)); intros He Hok;
    (wp_step; apply wp_sub_w; [lia|]).
  - rewrite (proj2 (N.ltb_lt _ accepted)) by lia. by apply wp_ret, He.
  - rewrite (proj2 (N.ltb_ge _ accepted)) by lia.
    wp_step. apply wp_add32; [kv_consts; lia|]. wp_step. apply wp_modify. by apply wp_ret, Hok.
Qed.

Lemma write_wp request selection p (Q : PhysicalKvState -> result unit PhysicalKvError -> Prop) :
  (forall e, under s request selection (write_decision s p) = Err e -> Q s (Err e)) ->
  (forall pre pg, under s request selection (write_decision s p) = Ok tt ->
     pages = pre ++ [pg] -> p = resident_tokens s ->
     M1_KV_PAGE_TOKENS * vlen pre <= p < M1_KV_PAGE_TOKENS * (vlen pre + 1) ->
     kv_rep (with_tail s pre pg (p + 1) (committed_tokens s)) pages ->
     Q (with_tail s pre pg (p + 1) (committed_tokens s)) (Ok tt)) ->
  wp (write_physical_token request selection p) s Q.
Proof.
  unfold write_physical_token, under.
  intros He Hok. wp_step. apply wp_gets. cbn [id]. revert He Hok.
  destruct (validate_active_authority s request selection) as [[]|e] eqn:Hv;
    [|intros He _; by apply wp_ret, He].
  apply validate_active_authority_ok in Hv as (Hact & _ & _).
  unfold write_decision. pose proof (kr_cursor _ _ Hrep) as [Hc Hm].
  pose proof (rep_context _ _ Hrep) as Hctx. pose proof (rep_page_count_max _ _ Hrep) as Hmax.
  destruct (N.eqb_spec p (resident_tokens s)) as [Hp|Hp]; cbn [negb];
    [|intros He _; by apply wp_ret, He].
  destruct (N.leb_spec (max_context_tokens s) p) as [Hge|Hlt]; cbn [orb];
    [intros He _; by apply wp_ret, He|].
  rewrite (proj2 (N.leb_gt M1_MAX_CONTEXT_TOKENS p)) by lia.
  destruct (page_position p) as [Hdm Hmod].
  remember (p / M1_KV_PAGE_TOKENS) as q eqn:Hq. remember (p mod M1_KV_PAGE_TOKENS) as r eqn:Hr.
  clear Hq Hr.
  destruct (N.leb_spec (page_count s) q) as [Hpc|Hpc]; cbn [orb].
  { intros He _. apply wp_ret, He.
    by rewrite (proj2 (N.leb_le (M1_KV_PAGE_TOKENS * page_count s) p)) by (kv_consts; lia). }
  rewrite (proj2 (N.leb_gt M1_KV_PAGE_TABLE_ENTRIES _)) by lia.
  rewrite (proj2 (N.leb_gt (M1_KV_PAGE_TOKENS * page_count s) p)) by (kv_consts; lia).
  intros _ Hok.
  destruct (rep_split s pages Hrep) as (pre & pg & -> & Hcnt & Hres & Hget & Hown & Hfill); [lia|].
  assert (Hpos : q = vlen pre) by (kv_consts; lia).
  rewrite Hpos. wp_step. eapply owned_page_wp; [done..|]. cbn [initialized_prefix].
  rewrite Hfill, (proj2 (N.eqb_eq (resident_tokens s - _) _)) by (kv_consts; lia). cbn [negb orb].
  rewrite (proj2 (N.leb_gt _ _)) by (kv_consts; lia).
  wp_step. apply wp_add32; [kv_consts; lia|]. destruct Hown as (Hr & Hi & Hg & Hs).
  wp_step. apply put_slot_wp; [exact (kr_slots _ _ Hrep)|done|]. rewrite Hs. cbn [ps_generation ownership].
  wp_step. apply wp_add32; [kv_consts; lia|]. wp_step. apply wp_modify. apply wp_ret.
  specialize (Hok pre pg eq_refl eq_refl Hp).
  assert (Hrep' : kv_rep (with_tail s pre pg (p + 1) (committed_tokens s)) (pre ++ [pg])).
  { apply rep_tail_keep; try done; kv_consts; lia. }
  specialize (Hok ltac:(kv_consts; lia) Hrep').
  match goal with |- Q ?x _ => replace x with (with_tail s pre pg (p + 1) (committed_tokens s)) end;
    [exact Hok|].
  unfold with_tail, kv_at, put_state, set_cursors, set_page_slots; cbn.
  rewrite <- (kr_table _ _ Hrep), (kr_count _ _ Hrep). f_equal; [lia|].
  f_equal. f_equal. lia.
Qed.

Lemma append_wp request selection page (Q : PhysicalKvState -> result unit PhysicalKvError -> Prop) :
  (forall e, under s request selection (append_decision s page) = Err e -> Q s (Err e)) ->
  (forall s', under s request selection (append_decision s page) = Ok tt ->
     s' = kv_at s (kv_lifecycle s) (resident_tokens s) (committed_tokens s) (pages ++ [page])
            (put_state s (pp_index page)
               (mkSlot (pp_generation page) (Exclusive (kv_request s) (kv_role s)) 0)) ->
     resident_tokens s = M1_KV_PAGE_TOKENS * vlen pages ->
     resident_tokens s < max_context_tokens s ->
     kv_rep s' (pages ++ [page]) -> Q s' (Ok tt)) ->
  wp (append_physical_page request selection page) s Q.
Proof.
  unfold append_physical_page, under.
  intros He Hok. wp_step. apply wp_gets. cbn [id]. revert He Hok.
  destruct (validate_active_authority s request selection) as [[]|e] eqn:Hv;
    [|intros He _; by apply wp_ret, He].
  apply validate_active_authority_ok in Hv as (Hact & _ & _).
  unfold append_decision, kv_role. pose proof (rep_context _ _ Hrep) as Hctx.
  pose proof (rep_page_count_max _ _ Hrep) as Hmax. pose proof (kr_cover _ _ Hrep) as Hc.
  pose proof (kr_count _ _ Hrep) as Hcnt.
  destruct (same_role (pp_role page) (role (kv_selection s))) eqn:Hrole; cbn [negb];
    [|intros He _; by apply wp_ret, He].
  apply same_role_spec in Hrole.
  destruct (N.leb_spec M1_KV_PHYSICAL_PAGE_SLOTS (pp_index page)) as [Hi|Hi];
    [intros He _; by apply wp_ret, He|].
  destruct (N.leb_spec (max_context_tokens s) (resident_tokens s)) as [Hm|Hm];
    [intros He _; by apply wp_ret, He|].
  destruct (page_position (resident_tokens s)) as [Hdm Hmod].
  remember (resident_tokens s / M1_KV_PAGE_TOKENS) as q eqn:Hq.
  remember (resident_tokens s mod M1_KV_PAGE_TOKENS) as r eqn:Hr. clear Hq Hr.
  destruct (N.eqb_spec (resident_tokens s) (M1_KV_PAGE_TOKENS * page_count s)) as [Hres|Hres]; cbn [negb].
  2:{ intros He _. destruct (N.eqb_spec r 0) as [->|]; cbn [negb orb]; [|by apply wp_ret, He].
      rewrite (proj2 (N.eqb_neq (page_count s) q)) by (kv_consts; lia). by apply wp_ret, He. }
  rewrite (proj2 (N.eqb_eq r 0)) by (kv_consts; lia).
  rewrite (proj2 (N.eqb_eq (page_count s) q)) by (kv_consts; lia). cbn [negb orb].
  rewrite (proj2 (N.leb_gt M1_KV_PAGE_TABLE_ENTRIES (page_count s))) by (kv_consts; lia).
  intros He Hok. wp_step. apply (table_contains_wp s pages); [apply Hrep..|].
  destruct (kr_slot _ _ Hrep _ Hi) as [Hgen Hslot].
  case_bool_decide as Hin.
  { apply wp_ret, He. apply list_elem_of_fmap in Hin as (pg & Heq & Hpg).
    apply list_elem_of_lookup in Hpg as [p Hp].
    destruct (kr_page _ _ Hrep (N.of_nat p) pg) as (_ & _ & _ & Hs).
    { unfold vget. by rewrite Nat2N.id. }
    by rewrite Heq, Hs. }
  wp_step. eapply wp_slice_at; [apply (vget_nth slot_free); by rewrite (kr_slots _ _ Hrep)|].
  fold (slot_at s (pp_index page)). unfold is_free_slot. revert He Hok.
  destruct (slot_at s (pp_index page)) as [g o f] eqn:Hs. cbn [ps_generation ownership initialized_prefix] in *.
  rewrite <- (N.eqb_sym 0). destruct (N.eqb_spec 0 (pp_generation page)) as [Hz|Hz]; cbn [orb].
  { rewrite (proj2 (N.ltb_ge 0 (pp_generation page))) by lia. cbn.
    destruct o; [| exfalso; by apply Hin |]; intros He _; by apply wp_ret, He. }
  rewrite (proj2 (N.ltb_lt 0 (pp_generation page))) by lia.
  destruct (N.eqb_spec g (pp_generation page)) as [Hg|Hg]; cbn.
  2:{ destruct o; [| exfalso; by apply Hin |]; intros He _; by apply wp_ret, He. }
  subst g. destruct o as [|r' ro|r' ro ep]; cbn; [|exfalso; by apply Hin|intros He _; by apply wp_ret, He].
  rewrite Hslot. cbn. intros _ Hok.
  wp_step. apply put_table_wp; [exact (rep_table_len _ _ Hrep)|kv_consts; lia|].
  wp_step. apply put_slot_wp; [exact (kr_slots _ _ Hrep)|done|].
  wp_step. apply wp_add32; [kv_consts; lia|]. wp_step. apply wp_modify. apply wp_ret.
  match goal with |- Q ?x _ =>
    replace x with (kv_at s (kv_lifecycle s) (resident_tokens s) (committed_tokens s) (pages ++ [page])
      (put_state s (pp_index page)
         (mkSlot (pp_generation page) (Exclusive (kv_request s) (kv_role s)) 0)))
  end.
  - apply Hok; [done|done|kv_consts; lia|done|].
    apply rep_tail_push; try done; [lia|by rewrite Hs, Hslot|kv_consts; lia].
  - unfold kv_at, put_state, set_page_count, set_page_slots, set_page_table; cbn.
    rewrite vlen_push, Hcnt, (kr_table _ _ Hrep), table_push by (kv_consts; lia). done.
Qed.

Lemma rollback_wp request selection epoch (Q : PhysicalKvState -> result unit PhysicalKvError -> Prop) :
  (forall e, under s request selection (rollback_decision s epoch) = Err e -> Q s (Err e)) ->
  (forall pre pg s', under s request selection (rollback_decision s epoch) = Ok tt ->
     pages = pre ++ [pg] ->
     M1_KV_PAGE_TOKENS * vlen pre < resident_tokens s ->
     s' = (if resident_tokens s =? M1_KV_PAGE_TOKENS * vlen pre + 1
           then drop_tail s pre pg (kv_lifecycle s) (committed_tokens s) epoch 1
           else with_tail s pre pg (resident_tokens s - 1) (committed_tokens s)) ->
     kv_rep s' (if resident_tokens s =? M1_KV_PAGE_TOKENS * vlen pre + 1 then pre else pages) ->
     Q s' (Ok tt)) ->
  wp (rollback_physical_token request selection epoch) s Q.
Proof.
  unfold rollback_physical_token, under.
  intros He Hok. wp_step. apply wp_gets. cbn [id]. revert He Hok.
  destruct (validate_active_authority s request selection) as [[]|e] eqn:Hv;
    [|intros He _; by apply wp_ret, He].
  apply validate_active_authority_ok in Hv as (Hact & _ & _).
  unfold rollback_decision. pose proof (kr_cursor _ _ Hrep) as [Hc Hm].
  pose proof (rep_context _ _ Hrep) as Hctx. pose proof (rep_page_count_max _ _ Hrep) as Hmax.
  pose proof (kr_cover _ _ Hrep) as Hcov. pose proof (kr_count _ _ Hrep) as Hcnt.
  destruct (N.eqb_spec (value epoch) 0) as [Hz|Hz]; [intros He _; by apply wp_ret, He|].
  destruct (N.eqb_spec (resident_tokens s) (committed_tokens s)) as [Heq|Hne].
  { intros He _. rewrite (proj2 (N.leb_le _ (committed_tokens s))) by lia. by apply wp_ret, He. }
  rewrite (proj2 (N.leb_gt (resident_tokens s) (committed_tokens s))) by lia.
  destruct (rep_split s pages Hrep) as (pre & pg & -> & Hpc & Hres & Hget & Hown & Hfill);
    [kv_consts; lia|].
  rewrite (tail_empty_spec _ _ _ Hrep).
  rewrite (proj2 (N.eqb_neq (page_count s) 0)) by lia.
  rewrite (proj2 (N.ltb_ge M1_KV_PAGE_TABLE_ENTRIES (page_count s))) by lia. cbn [orb].
  intros He Hok. wp_step. apply wp_sub_w; [lia|]. rewrite Hpc, N.add_sub.
  wp_step. eapply owned_page_wp; [done..|]. cbn [initialized_prefix].
  wp_step. apply wp_sub_w; [lia|].
  destruct (page_position (resident_tokens s - 1)) as [Hdm Hmod].
  remember ((resident_tokens s - 1) / M1_KV_PAGE_TOKENS) as q eqn:Hq.
  remember ((resident_tokens s - 1) mod M1_KV_PAGE_TOKENS) as r eqn:Hr. clear Hq Hr.
  wp_step. apply wp_add32; [kv_consts; lia|]. rewrite Hfill. revert He Hok.
  destruct (N.eqb_spec (resident_tokens s) (M1_KV_PAGE_TOKENS * vlen pre)) as [Hemp|Hemp].
  { intros He _. rewrite (proj2 (N.eqb_neq (resident_tokens s - _) (r + 1))) by (kv_consts; lia).
    by apply wp_ret, He. }
  rewrite (proj2 (N.eqb_eq (resident_tokens s - _) (r + 1))) by (kv_consts; lia). cbn [negb].
  intros _ Hok. destruct Hown as (Hr & Hi & Hg & Hs).
  specialize (fun s' => Hok pre pg s' eq_refl eq_refl ltac:(lia)). cbn beta in Hok.
  wp_step. apply wp_modify. wp_step. revert Hok.
  destruct (N.eqb_spec (resident_tokens s) (M1_KV_PAGE_TOKENS * vlen pre + 1)) as [Hone|Hmany]; intros Hok.
  - rewrite (proj2 (N.eqb_eq (_ - _) 1)) by lia.
    wp_step. apply put_table_wp; [exact (rep_table_len _ _ Hrep)|kv_consts; lia|].
    wp_step. apply wp_modify. apply put_slot_wp; [exact (kr_slots _ _ Hrep)|done|]. apply wp_ret.
    match goal with |- Q ?x _ =>
      replace x with (drop_tail s pre pg (kv_lifecycle s) (committed_tokens s) epoch 1) end.
    + apply Hok; [done|]. apply rep_tail_drop; try done; try lia.
      unfold lifecycle_ok. cbn. by rewrite Hact.
    + unfold drop_tail, kv_at, put_state, set_page_count, set_page_slots, set_page_table, set_cursors; cbn.
      rewrite (kr_table _ _ Hrep), table_pop by (rewrite <- Hcnt; done). f_equal. lia.
  - rewrite (proj2 (N.eqb_neq (_ - _) 1)) by lia.
    wp_step. apply wp_sub_w; [lia|]. apply put_slot_wp; [exact (kr_slots _ _ Hrep)|done|]. apply wp_ret.
    match goal with |- Q ?x _ =>
      replace x with (with_tail s pre pg (resident_tokens s - 1) (committed_tokens s)) end.
    + apply Hok; [done|]. apply rep_tail_keep; try done; kv_consts; lia.
    + unfold with_tail, kv_at, put_state, set_page_count, set_page_slots, set_page_table, set_cursors; cbn.
      change (slot_at _ (pp_index pg)) with (slot_at s (pp_index pg)).
      rewrite <- (kr_table _ _ Hrep), <- Hcnt, Hs. cbn. do 2 f_equal. f_equal. lia.
Qed.

Lemma phys_cancel_wp request selection epoch (Q : PhysicalKvState -> result unit PhysicalKvError -> Prop) :
  (forall e, under s request selection
     (if value epoch =? 0 then Err ZeroRetirementEpoch else Ok tt) = Err e -> Q s (Err e)) ->
  (forall s', under s request selection
     (if value epoch =? 0 then Err ZeroRetirementEpoch else Ok tt) = Ok tt ->
     s' = set_lifecycle (if page_count s =? 0 then RetiredAwaitingQuiescence epoch
                         else Cancelled epoch) s ->
     0 < value epoch -> kv_rep s' pages -> Q s' (Ok tt)) ->
  wp (cancel_physical_kv request selection epoch) s Q.
Proof.
  unfold cancel_physical_kv, under.
  intros He Hok. wp_step. apply wp_gets. cbn [id]. revert He Hok.
  destruct (validate_active_authority s request selection) as [[]|e] eqn:Hv;
    [|intros He _; by apply wp_ret, He].
  destruct (N.eqb_spec (value epoch) 0) as [Hz|Hz]; [intros He _; by apply wp_ret, He|].
  intros _ Hok. wp_step. apply wp_modify. apply wp_ret. apply Hok; [done|done|lia|].
  destruct Hrep as [? ? ? ? ? ? ? ? ? ? ?]. split; try done.
  unfold lifecycle_ok. cbn. destruct (N.eqb_spec (page_count s) 0); split; lia || done.
Qed.

Lemma phys_retire_wp request selection epoch
    (Q : PhysicalKvState -> result PhysicalPageId PhysicalKvError -> Prop) :
  (forall e, retire_decision s request selection epoch = Err e -> Q s (Err e)) ->
  (forall pre pg s', retire_decision s request selection epoch = Ok tt ->
     pages = pre ++ [pg] ->
     s' = drop_tail s pre pg
            (if vlen pre =? 0 then RetiredAwaitingQuiescence epoch else kv_lifecycle s)
            (N.min (committed_tokens s) (M1_KV_PAGE_TOKENS * vlen pre)) epoch
            (resident_tokens s - M1_KV_PAGE_TOKENS * vlen pre) ->
     kv_rep s' pre -> Q s' (Ok pg)) ->
  wp (retire_cancelled_tail request selection epoch) s Q.
Proof.
  unfold retire_cancelled_tail, retire_decision.
  intros He Hok. wp_step. apply wp_gets. cbn [id]. revert He Hok.
  pose proof (kr_life _ _ Hrep) as Hlife. unfold lifecycle_ok in Hlife.
  destruct (kv_lifecycle s) as [|expected|ep] eqn:Hl; try (intros He _; by apply wp_ret, He).
  destruct Hlife as [Hexp Hpos].
  destruct (N.eqb_spec (value expected) (value epoch)) as [Heq|Hne]; cbn [negb];
    [|intros He _; by apply wp_ret, He].
  rewrite request_differs.
  destruct (same_request (kv_request s) request); cbn [negb]; [|intros He _; by apply wp_ret, He].
  destruct (selection_matches (kv_selection s) selection); cbn [negb];
    [|intros He _; by apply wp_ret, He].
  destruct (rep_split s pages Hrep Hpos) as (pre & pg & -> & Hpc & Hres & Hget & Hown & Hfill).
  pose proof (rep_page_count_max _ _ Hrep) as Hmax. pose proof (kr_count _ _ Hrep) as Hcnt.
  rewrite (tail_empty_spec _ _ _ Hrep).
  rewrite (proj2 (N.eqb_neq (page_count s) 0)) by lia.
  rewrite (proj2 (N.ltb_ge M1_KV_PAGE_TABLE_ENTRIES (page_count s))) by lia. cbn [orb].
  intros He Hok. wp_step. apply wp_sub_w; [lia|]. rewrite Hpc, N.add_sub.
  wp_step. eapply owned_page_wp; [done..|]. cbn [initialized_prefix].
  rewrite Hfill. revert He Hok.
  destruct (N.eqb_spec (resident_tokens s) (M1_KV_PAGE_TOKENS * vlen pre)) as [Hemp|Hemp].
  { intros He _. rewrite (proj2 (N.eqb_eq (_ - _) 0)) by lia. by apply wp_ret, He. }
  rewrite (proj2 (N.eqb_neq (_ - _) 0)) by lia.
  rewrite (proj2 (N.ltb_ge (resident_tokens s) (_ - _))) by lia. cbn [orb].
  intros _ Hok. specialize (fun s' => Hok pre pg s' eq_refl eq_refl). cbn beta in Hok.
  destruct Hown as (Hr & Hi & Hg & Hs).
  wp_step. apply wp_sub_w; [lia|].
  replace (resident_tokens s - (resident_tokens s - M1_KV_PAGE_TOKENS * vlen pre))
    with (M1_KV_PAGE_TOKENS * vlen pre) by lia.
  wp_step. apply put_table_wp; [exact (rep_table_len _ _ Hrep)|kv_consts; lia|].
  wp_step. apply wp_modify. wp_step. apply wp_modify.
  wp_step. apply put_slot_wp; [exact (kr_slots _ _ Hrep)|done|]. wp_step.
  match type of Hok with forall s', s' = ?x -> _ => assert (Hrep' : kv_rep x pre) end.
  { apply rep_tail_drop; try done; try (kv_consts; lia).
    unfold lifecycle_ok. cbn. destruct (N.eqb_spec (vlen pre) 0); cbn; split; lia. }
  specialize (Hok _ eq_refl Hrep').
  match goal with |- wp _ ?x _ => assert (Hx : x = kv_at s (kv_lifecycle s) (M1_KV_PAGE_TOKENS * vlen pre)
    (N.min (committed_tokens s) (M1_KV_PAGE_TOKENS * vlen pre)) pre
    (put_state s (pp_index pg) (mkSlot (pp_generation pg)
       (Retired (kv_request s) (kv_role s) epoch) (resident_tokens s - M1_KV_PAGE_TOKENS * vlen pre)))) end.
  { unfold kv_at, put_state, set_page_count, set_page_slots, set_page_table, set_cursors; cbn.
    rewrite (kr_table _ _ Hrep), table_pop by (rewrite <- Hcnt; done). f_equal.
    destruct (N.ltb_spec (M1_KV_PAGE_TOKENS * vlen pre) (committed_tokens s)); lia. }
  rewrite Hx. destruct (N.eqb_spec (vlen pre) 0) as [Hz|Hz].
  - apply wp_modify. apply wp_ret. exact Hok.
  - apply wp_ret. apply wp_ret. unfold drop_tail in Hok. rewrite Hl. exact Hok.
Qed.

(** A retired slot is in no page of the table. *)
Lemma retired_not_in_table i r ro e g k :
  slot_at s i = mkSlot g (Retired r ro e) k -> i ∉ pp_index <$> pages.
Proof.
  intros Hs (pg & -> & [p Hp]%list_elem_of_lookup)%list_elem_of_fmap.
  destruct (kr_page _ _ Hrep (N.of_nat p) pg) as (_ & _ & _ & Hs').
  { unfold vget. by rewrite Nat2N.id. }
  congruence.
Qed.

(** Freeing a slot outside the table. *)
Lemma rep_slot_free i g :
  i < M1_KV_PHYSICAL_PAGE_SLOTS -> i ∉ pp_index <$> pages -> 0 < g <= u32_max ->
  kv_rep (set_page_slots (put_state s i (mkSlot g Free 0)) s) pages.
Proof.
  intros Hi Hout Hg. destruct Hrep as [? ? ? Hl ? ? ? Hpage ? Hslot ?]. split; try done.
  - cbn. unfold put_state. by rewrite vlen_vset.
  - intros p pg Hp. destruct (Hpage p pg Hp) as (? & ? & ? & Hs). repeat split; try done.
    unfold slot_at at 1. cbn. rewrite (vnth_put _ _ _ _ _ Hrep Hi).
    rewrite decide_False; [done|]. intros <-. apply Hout, list_elem_of_fmap_2.
    by apply (list_elem_of_lookup_2 pages) in Hp.
  - intros j Hj. specialize (Hslot j Hj). unfold slot_ok, slot_at in *. cbn.
    rewrite (vnth_put _ _ _ _ _ Hrep Hi). by case_decide.
Qed.

Lemma phys_release_wp page authority (Q : PhysicalKvState -> result PhysicalPageId PhysicalKvError -> Prop) :
  (forall e, release_decision s page authority = Err e -> Q s (Err e)) ->
  (forall s', release_decision s page authority = Ok tt ->
     s' = set_page_slots (put_state s (pp_index page) (mkSlot (pp_generation page + 1) Free 0)) s ->
     kv_rep s' pages ->
     Q s' (Ok (mkPhysicalPage (pp_role page) (pp_index page) (pp_generation page + 1)))) ->
  wp (release_retired_page page authority) s Q.
Proof.
  unfold release_retired_page, release_decision.
  intros He Hok. wp_step. apply wp_gets. cbn [id]. revert He Hok.
  rewrite request_differs. fold (kv_role s).
  destruct (same_request (kv_request s) (qa_request authority)) eqn:Hreq; cbn [negb orb];
    [|intros He _; by apply wp_ret, He].
  apply same_request_spec in Hreq.
  destruct (same_role (kv_role s) (qa_role authority)) eqn:Hrole; cbn [negb];
    [|intros He _; by apply wp_ret, He].
  apply same_role_spec in Hrole.
  destruct (same_role (pp_role page) (qa_role authority)) eqn:Hpr; cbn [negb];
    [|intros He _; by apply wp_ret, He].
  destruct (N.leb_spec M1_KV_PHYSICAL_PAGE_SLOTS (pp_index page)) as [Hi|Hi];
    [intros He _; by apply wp_ret, He|].
  intros He Hok. wp_step.
  eapply wp_slice_at; [apply (vget_nth slot_free); by rewrite (kr_slots _ _ Hrep)|].
  fold (slot_at s (pp_index page)). destruct (kr_slot _ _ Hrep _ Hi) as [Hgen Hslot]. revert He Hok.
  destruct ((pp_generation page =? 0) || negb (ps_generation (slot_at s (pp_index page)) =? pp_generation page))
    eqn:Hg; [intros He _; by apply wp_ret, He|].
  apply orb_false_iff in Hg as [_ Hg]. apply negb_false_iff, N.eqb_eq in Hg. rewrite Hg in *.
  destruct (N.eqb_spec (pp_generation page) u32_max) as [Hx|Hx]; [intros He _; by apply wp_ret, He|].
  destruct (slot_at s (pp_index page)) as [g o f] eqn:Hs. cbn in *.
  destruct o as [|r ro|r ro ep]; cbn [is_retired_owner negb]; try (intros He _; by apply wp_ret, He).
  destruct Hslot as (-> & -> & Hep & Hf).
  rewrite Hreq, Hrole, same_request_refl, same_role_refl. cbn [andb].
  destruct (value ep =? value (exact_epoch authority)); cbn [negb]; [|intros He _; by apply wp_ret, He].
  intros _ Hok. pose proof (retired_not_in_table _ _ _ _ _ _ Hs) as Hout.
  wp_step. apply (table_contains_wp s pages); [apply Hrep..|].
  rewrite bool_decide_eq_false_2 by done.
  wp_step. apply wp_add32; [lia|]. wp_step.
  apply put_slot_wp; [exact (kr_slots _ _ Hrep)|done|]. apply wp_ret.
  apply Hok; [done|done|]. apply rep_slot_free; [done..|lia].
Qed.

(** ** Speculative settlement *)

Lemma alias_loop_wp {S} fuel p pg other (st : S) (Q : S -> bool -> Prop) :
  vget pages p = Some pg ->
  other <= M1_KV_PAGE_TABLE_ENTRIES -> M1_KV_PAGE_TABLE_ENTRIES - other <= N.of_nat fuel ->
  Q st false -> wp (alias_loop fuel s (pp_index pg) p other) st Q.
Proof.
  intros Hp Ho Hf HQ. revert other Ho Hf. induction fuel as [|fuel IH]; intros other Ho Hf; simpl.
  { by apply wp_ret. }
  destruct (N.ltb_spec other M1_KV_PAGE_TABLE_ENTRIES) as [Hlt|]; [|by apply wp_ret].
  wp_step. eapply wp_slice_at; [rewrite (kr_table _ _ Hrep); apply vget_table; [apply Hrep|done]|].
  assert (Hno : negb (other =? p) &&
    match vget pages other with Some alias => pp_index alias =? pp_index pg | None => false end = false).
  { destruct (N.eqb_spec other p) as [|Hne]; [done|]. cbn.
    destruct (vget pages other) as [alias|] eqn:Ha; [|done].
    apply N.eqb_neq. intros Heq. apply Hne. apply N2Nat.inj.
    apply (NoDup_lookup _ _ _ (pp_index pg) (kr_nodup _ _ Hrep)); rewrite list_lookup_fmap;
      unfold vget in *; [by rewrite Ha; cbn; rewrite Heq|by rewrite Hp]. }
  rewrite Hno. wp_step. apply wp_add32; [kv_consts; lia|]. apply IH; lia.
Qed.

Lemma settlement_loop_wp {S} fuel position (st : S) (Q : S -> result unit PhysicalKvError -> Prop) :
  tail_empty s = false -> page_count s - position <= N.of_nat fuel ->
  Q st (Ok tt) -> wp (settlement_loop fuel s (resident_tokens s) position) st Q.
Proof.
  intros Hte Hf HQ. revert position Hf. induction fuel as [|fuel IH]; intros position Hf; cbn [settlement_loop].
  { by apply wp_ret. }
  destruct (N.ltb_spec position (page_count s)) as [Hlt|]; [|by apply wp_ret].
  pose proof (rep_page_count_max _ _ Hrep) as Hmax. pose proof (kr_cover _ _ Hrep) as Hc.
  pose proof (kr_count _ _ Hrep) as Hcnt.
  unfold tail_empty in Hte. apply N.eqb_neq in Hte.
  destruct (vget_lt pages position) as [pg Hpg]; [by rewrite <- Hcnt|].
  wp_step. eapply owned_page_wp; [done..|]. cbn [initialized_prefix].
  rewrite (proj2 (N.leb_le (position * M1_KV_PAGE_TOKENS) u32_max)) by (kv_consts; lia).
  rewrite (proj2 (N.leb_gt (resident_tokens s) (position * _))) by (kv_consts; lia).
  wp_step. apply wp_add32; [kv_consts; lia|]. wp_step. apply wp_sub_w; [kv_consts; lia|]. cbn zeta.
  rewrite (proj2 (N.eqb_eq (page_fill _ _) _)).
  2:{ unfold page_fill. destruct (N.ltb_spec (position + 1) (page_count s)); kv_consts; lia. }
  cbn [negb]. wp_step. eapply alias_loop_wp; [done|kv_consts; lia|kv_consts; lia|]. apply IH. lia.
Qed.

Lemma physical_page_count_spec t :
  t <= M1_KV_PAGE_TOKENS * physical_page_count t < t + M1_KV_PAGE_TOKENS.
Proof.
  unfold physical_page_count. destruct (N.eqb_spec t 0) as [->|Hn]; [kv_consts; lia|].
  destruct (page_position (t - 1)) as [Hd Hm].
  remember ((t - 1) / M1_KV_PAGE_TOKENS) as q eqn:Hq.
  remember ((t - 1) mod M1_KV_PAGE_TOKENS) as r eqn:Hr. clear Hq Hr. kv_consts. lia.
Qed.

(** The permit a passing check issues. *)
Definition permit_of (request : RequestId) (selection : Qwen3PlanSelection)
    (epoch : CompletionEpoch) (commit : N) : PhysicalKvSettlementPermit :=
  let next := physical_page_count commit in
  mkPermit request selection epoch (committed_tokens s) (resident_tokens s) commit
    (page_count s) next (page_count s - next)
    (if page_count s - next =? 1 then vget pages (page_count s - 1) else None)
    (if (commit <? resident_tokens s) && negb (commit mod M1_KV_PAGE_TOKENS =? 0)
     then vget pages (next - 1) else None).

Lemma settlement_pages_wp {S} commit (st : S)
    (Q : S -> result (option PhysicalPageId * option PhysicalPageId) PhysicalKvError -> Prop) :
  tail_empty s = false -> commit <= resident_tokens s ->
  resident_tokens s - commit <= M1_KV_PAGE_TOKENS ->
  let next := physical_page_count commit in
  Q st (Ok (if page_count s - next =? 1 then vget pages (page_count s - 1) else None,
            if (commit <? resident_tokens s) && negb (commit mod M1_KV_PAGE_TOKENS =? 0)
            then vget pages (next - 1) else None)) ->
  wp (settlement_pages s (resident_tokens s) commit next (page_count s - next)) st Q.
Proof.
  intros Hte Hle Htail next HQ. unfold settlement_pages.
  pose proof (physical_page_count_spec commit) as Hn. fold next in Hn.
  pose proof (rep_page_count_max _ _ Hrep) as Hmax. pose proof (kr_cover _ _ Hrep) as Hc.
  pose proof (kr_count _ _ Hrep) as Hcnt.
  unfold tail_empty in Hte. apply N.eqb_neq in Hte.
  assert (Hix : forall p pg, vget pages p = Some pg -> pp_index pg < M1_KV_PHYSICAL_PAGE_SLOTS)
    by (intros p pg Hp; by apply (kr_page _ _ Hrep) in Hp as (_ & ? & _)).
  assert (Hget : forall p, p < page_count s ->
    forall (Q' : S -> option PhysicalPageId -> Prop), Q' st (vget pages p) ->
    wp (slice_at (page_table s) p) st Q').
  { intros p Hp Q' HQ'. eapply wp_slice_at; [|exact HQ'].
    rewrite (kr_table _ _ Hrep). apply vget_table; [apply Hrep|lia]. }
  destruct (page_position commit) as [Hd Hm].
  remember (commit mod M1_KV_PAGE_TOKENS) as r eqn:Hr.
  remember (commit / M1_KV_PAGE_TOKENS) as q eqn:Hq. clear Hr Hq.
  assert (Hfirst : forall (Q' : S -> option PhysicalPageId -> Prop),
    Q' st (if page_count s - next =? 1 then vget pages (page_count s - 1) else None) ->
    wp (if page_count s - next =? 1
        then let! last := sub_w (page_count s) 1 in slice_at (page_table s) last
        else ret None) st Q').
  { intros Q'. destruct (N.eqb_spec (page_count s - next) 1); intros HQ'; [|by apply wp_ret].
    wp_step. apply wp_sub_w; [lia|]. apply Hget; [lia|done]. }
  wp_step. apply Hfirst. clear Hfirst.
  assert (Hret : forall pg, (if page_count s - next =? 1 then vget pages (page_count s - 1) else None) = Some pg ->
    vget pages (page_count s - 1) = Some pg /\ next = page_count s - 1 /\ 0 < page_count s).
  { intros pg. destruct (N.eqb_spec (page_count s - next) 1); [|done]. intros ?. split; [done|lia]. }
  assert (Hsome : (page_count s - next =? 1) &&
    match (if page_count s - next =? 1 then vget pages (page_count s - 1) else None) with
    | None => true | _ => false end = false).
  { destruct (N.eqb_spec (page_count s - next) 1); [|done].
    destruct (vget_lt pages (page_count s - 1)) as [x ->]; [lia|done]. }
  rewrite Hsome. clear Hsome. cbn zeta.
  remember (if page_count s - next =? 1 then vget pages (page_count s - 1) else None) as ret eqn:Er.
  clear Er. revert HQ.
  destruct ((commit <? resident_tokens s) && negb (r =? 0)) eqn:Hshrink; intros HQ.
  - apply andb_true_iff in Hshrink as [Hlt%N.ltb_lt Hr%negb_true_iff%N.eqb_neq].
    wp_step. wp_step. apply wp_sub_w; [kv_consts; lia|]. apply Hget; [kv_consts; lia|].
    destruct (vget_lt pages (next - 1)) as [pg Hpg]; [kv_consts; lia|].
    rewrite Hpg in *. cbn [andb]. pose proof (Hix _ _ Hpg) as Hi2.
    destruct ret as [pg'|].
    + destruct (Hret pg' eq_refl) as (Hpg' & Hnx & Hpos).
      rewrite (proj2 (N.leb_gt _ _)) by (by eapply Hix).
      rewrite (proj2 (N.leb_gt _ _)) by done.
      rewrite (proj2 (N.eqb_neq _ _)); [by apply wp_ret|]. intros Heq.
      assert (page_count s - 1 = next - 1); [|lia]. apply N2Nat.inj.
      apply (NoDup_lookup _ _ _ (pp_index pg') (kr_nodup _ _ Hrep)); rewrite list_lookup_fmap;
        unfold vget in *; [by rewrite Hpg'|by rewrite Hpg; cbn; rewrite Heq].
    + rewrite (proj2 (N.leb_gt _ _)) by done. by apply wp_ret.
  - wp_step. apply wp_ret. cbn [andb]. destruct ret as [pg'|]; [|by apply wp_ret].
    destruct (Hret pg' eq_refl) as (Hpg' & _). rewrite (proj2 (N.leb_gt _ _)) by (by eapply Hix).
    by apply wp_ret.
Qed.

Lemma phys_preflight_wp {S} request selection epoch pre t commit (st : S)
    (Q : S -> result PhysicalKvSettlementPermit PhysicalKvError -> Prop) :
  (forall e, under s request selection (settlement_decision s epoch pre t commit) = Err e -> Q st (Err e)) ->
  (under s request selection (settlement_decision s epoch pre t commit) = Ok tt ->
     Q st (Ok (permit_of request selection epoch commit))) ->
  wp (preflight_physical_speculative_settlement s request selection epoch pre t commit) st Q.
Proof.
  unfold preflight_physical_speculative_settlement, under.
  destruct (validate_active_authority s request selection) as [[]|e] eqn:Hv;
    [|intros He _; by apply wp_ret, He].
  unfold settlement_decision.
  destruct (value epoch =? 0); [intros He _; by apply wp_ret, He|].
  destruct (N.eqb_spec (committed_tokens s) pre) as [<-|]; cbn [negb];
    [|intros He _; by apply wp_ret, He].
  destruct (N.eqb_spec (resident_tokens s) t) as [<-|]; cbn [negb];
    [|intros He _; by apply wp_ret, He].
  destruct (N.ltb_spec commit (committed_tokens s)) as [?|Hlo]; cbn [orb];
    [intros He _; by apply wp_ret, He|].
  destruct (N.ltb_spec (resident_tokens s) commit) as [?|Hhi]; [intros He _; by apply wp_ret, He|].
  destruct (N.ltb_spec M1_KV_PAGE_TOKENS (resident_tokens s - commit)) as [?|Hw];
    [intros He _; by apply wp_ret, He|].
  pose proof (physical_page_count_spec (resident_tokens s)) as Hnt.
  pose proof (physical_page_count_spec commit) as Hnc.
  pose proof (rep_page_count_max _ _ Hrep) as Hmax. pose proof (kr_cover _ _ Hrep) as Hc.
  pose proof (kr_count _ _ Hrep) as Hcnt.
  destruct (tail_empty s) eqn:Hte; cbn zeta.
  { intros He _. unfold tail_empty in Hte. apply N.eqb_eq in Hte.
    rewrite (proj2 (N.eqb_neq (page_count s) _)) by (kv_consts; lia). by apply wp_ret, He. }
  intros _ Hok. pose proof Hte as Hne. unfold tail_empty in Hne. apply N.eqb_neq in Hne.
  rewrite (proj2 (N.eqb_eq (page_count s) _)) by (kv_consts; lia). cbn [negb orb].
  rewrite (proj2 (N.ltb_ge M1_KV_PAGE_TABLE_ENTRIES _)) by lia.
  rewrite (proj2 (N.ltb_ge (page_count s) _)) by (kv_consts; lia).
  rewrite (proj2 (N.ltb_ge 1 _)) by (kv_consts; lia). cbn [orb].
  wp_step. destruct (committed_tokens s <? resident_tokens s).
  - apply settlement_loop_wp; [done|rewrite N2Nat.id; apply N.le_sub_l|]. wp_step. by apply settlement_pages_wp; [..|apply wp_ret, Hok].
  - apply wp_ret. wp_step. by apply settlement_pages_wp; [..|apply wp_ret, Hok].
Qed.
End ops.
