(* ===== verification/PhysicalKvSettle.v ===== *)
(** Settlement of a speculative tail: its effect on the page list, and its
    agreement with committing the accepted tokens and rolling back the others
    one at a time. *)
From S2P Require Import Prelude Spec PlanSelection PhysicalKv PhysicalKvInv PhysicalKvOps PhysicalKvSpec.
Local Open Scope prog_scope.
Import Graph Completion.

(** What an operation on the tail leaves alone. *)
Record same_owner (s s' : PhysicalKvState) : Prop := {
  so_request : kv_request s' = kv_request s;
  so_selection : kv_selection s' = kv_selection s;
  so_lifecycle : kv_lifecycle s' = kv_lifecycle s;
  so_max : max_context_tokens s' = max_context_tokens s
}.

(** The result of settling at [commit]: the pages past it are retired, the
    others are kept with both cursors at [commit]. *)
Record settled (s : PhysicalKvState) (pages : list PhysicalPageId) (epoch : CompletionEpoch)
    (commit : N) (s' : PhysicalKvState) : Prop := {
  se_owner : same_owner s s';
  se_resident : resident_tokens s' = commit;
  se_committed : committed_tokens s' = commit;
  se_rep : kv_rep s' (take (N.to_nat (physical_page_count commit)) pages);
  se_retired : forall p pg, vget pages p = Some pg -> physical_page_count commit <= p ->
    slot_at s' (pp_index pg) =
      mkSlot (pp_generation pg) (Retired (kv_request s) (kv_role s) epoch)
        (initialized_prefix (slot_at s (pp_index pg)));
  se_other : forall i, i ∉ pp_index <$> pages -> slot_at s' i = slot_at s i
}.

Lemma rep_cursor s pages committed :
  kv_rep s pages -> committed <= resident_tokens s ->
  kv_rep (set_cursors (resident_tokens s) committed s) pages.
Proof. intros [? ? ? ? ? [? ?] ? ? ? ? ?] Hc. split; done. Qed.

Lemma take_all_pages (pages : list PhysicalPageId) n :
  vlen pages <= n -> take (N.to_nat n) pages = pages.
Proof. intros H. apply take_ge. unfold vlen in H. lia. Qed.

Lemma take_pre (pre : list PhysicalPageId) pg : take (N.to_nat (vlen pre)) (pre ++ [pg]) = pre.
Proof. unfold vlen. rewrite Nat2N.id. apply take_app_length. Qed.

Lemma slot_at_kv_at s life r c pages slots i :
  slot_at (kv_at s life r c pages slots) i = vnth slot_free slots i.
Proof. done. Qed.

Lemma in_push (pre : list PhysicalPageId) pg i :
  i ∉ pp_index <$> pre ++ [pg] -> i <> pp_index pg /\ i ∉ pp_index <$> pre.
Proof. rewrite fmap_app. set_solver. Qed.

(** The tail page is kept, with a shorter prefix. *)
Lemma settled_keep s pre pg epoch commit :
  kv_rep s (pre ++ [pg]) ->
  M1_KV_PAGE_TOKENS * vlen pre < commit <= resident_tokens s ->
  settled s (pre ++ [pg]) epoch commit (with_tail s pre pg commit commit).
Proof.
  intros H Hc. pose proof (kr_cover _ _ H) as Hcov. rewrite vlen_push in Hcov.
  pose proof (kr_cursor _ _ H) as [_ Hm]. pose proof (physical_page_count_spec commit) as Hn.
  destruct (kr_page _ _ H (vlen pre) pg) as (Hr & Hi & Hg & Hs).
  { rewrite vget_push. by case_decide. }
  split; try done.
  - rewrite take_all_pages by (rewrite vlen_push; kv_consts; lia).
    apply rep_tail_keep; try done; kv_consts; lia.
  - intros p pg' Hp Hge. apply vget_Some_lt in Hp. rewrite vlen_push in Hp. kv_consts. lia.
  - intros i [Hne _]%in_push. unfold with_tail. rewrite slot_at_kv_at, (vnth_put _ _ _ _ _ H Hi).
    by rewrite decide_False.
Qed.

(** Settling in two steps: drop the tail page, then settle what is left. *)
Lemma settled_drop s pre pg epoch commit s' :
  kv_rep s (pre ++ [pg]) -> kv_lifecycle s = Active -> 0 < value epoch ->
  M1_KV_PAGE_TOKENS * vlen pre < resident_tokens s ->
  committed_tokens s <= M1_KV_PAGE_TOKENS * vlen pre ->
  physical_page_count commit = vlen pre ->
  let s1 := drop_tail s pre pg (kv_lifecycle s) (committed_tokens s) epoch
              (resident_tokens s - M1_KV_PAGE_TOKENS * vlen pre) in
  (kv_rep s1 pre -> settled s1 pre epoch commit s') -> settled s (pre ++ [pg]) epoch commit s'.
Proof.
  intros H Hact He Hres Hcom Hn s1 Hs'.
  pose proof (kr_cover _ _ H) as Hcov. rewrite vlen_push in Hcov.
  destruct (kr_page _ _ H (vlen pre) pg) as (Hr & Hi & Hg & Hs).
  { rewrite vget_push. by case_decide. }
  assert (Hfresh : pp_index pg ∉ pp_index <$> pre).
  { pose proof (kr_nodup _ _ H) as Hnd. rewrite fmap_app in Hnd.
    apply NoDup_app in Hnd as (_ & Hd & _). intros Hin. apply (Hd _ Hin). cbn. set_solver. }
  assert (Hrep1 : kv_rep s1 pre).
  { apply rep_tail_drop; try done; [kv_consts; lia|]. unfold lifecycle_ok. cbn. by rewrite Hact. }
  specialize (Hs' Hrep1). destruct Hs' as [[? ? ? ?] ? ? Hrep' Hret Hoth].
  assert (Hslot1 : forall i, slot_at s1 i = if decide (i = pp_index pg)
    then mkSlot (pp_generation pg) (Retired (kv_request s) (kv_role s) epoch)
           (resident_tokens s - M1_KV_PAGE_TOKENS * vlen pre)
    else slot_at s i).
  { intros i. unfold s1, drop_tail. by rewrite slot_at_kv_at, (vnth_put _ _ _ _ _ H Hi). }
  split; try done.
  - rewrite Hn in *. rewrite take_pre. rewrite take_all_pages in Hrep' by done. done.
  - intros p pg' Hp Hge. rewrite vget_push in Hp. case_decide as Hd.
    + injection Hp as <-. rewrite (Hoth _ Hfresh), Hslot1, decide_True by done.
      rewrite Hs. cbn. f_equal. unfold page_fill. kv_consts. lia.
    + apply vget_Some_lt in Hp. lia.
  - intros i [Hne Hin]%in_push. rewrite (Hoth _ Hin), Hslot1. by rewrite decide_False.
Qed.

(** Nothing to retire or shrink. *)
Lemma settled_all s pages epoch :
  kv_rep s pages -> tail_empty s = false ->
  settled s pages epoch (resident_tokens s) (set_cursors (resident_tokens s) (resident_tokens s) s).
Proof.
  intros H Hte. pose proof (physical_page_count_spec (resident_tokens s)) as Hn.
  pose proof (kr_cover _ _ H) as Hcov. unfold tail_empty in Hte. apply N.eqb_neq in Hte.
  rewrite (kr_count _ _ H) in Hte. split; try done.
  - rewrite take_all_pages by (kv_consts; lia). by apply rep_cursor.
  - intros p pg Hp Hge. apply vget_Some_lt in Hp. kv_consts. lia.
Qed.

Lemma apply_retained_wp s pre pg permit (Q : PhysicalKvState -> unit -> Prop) :
  kv_rep s (pre ++ [pg]) ->
  retained_page permit = Some pg -> next_page_count permit = vlen pre + 1 ->
  M1_KV_PAGE_TOKENS * vlen pre < commit_end permit < M1_KV_PAGE_TOKENS * (vlen pre + 1) ->
  Q (with_tail s pre pg (commit_end permit) (commit_end permit)) tt ->
  forall n r c, wp (match retained_page permit with
      | Some page =>
          put_slot (pp_index page) (fun s =>
            mkSlot (ps_generation s) (ownership s) (commit_end permit mod M1_KV_PAGE_TOKENS))
      | None => ret tt
      end ;;
      modify (set_page_count (next_page_count permit)) ;;
      modify (set_cursors (commit_end permit) (commit_end permit))) (set_cursors r c (set_page_count n s)) Q.
Proof.
  intros H Hret Hnext Hc HQ n r0 c0. rewrite Hret, Hnext.
  destruct (kr_page _ _ H (vlen pre) pg) as (Hr & Hi & Hg & Hs).
  { rewrite vget_push. by case_decide. }
  wp_step. apply put_slot_wp; [exact (kr_slots _ _ H)|done|]. wp_step. apply wp_modify. apply wp_modify.
  match goal with |- Q ?x _ => replace x with (with_tail s pre pg (commit_end permit) (commit_end permit)) end;
    [done|].
  unfold with_tail, kv_at, put_state, set_page_count, set_page_slots, set_cursors; cbn.
  change (slot_at _ (pp_index pg)) with (slot_at s (pp_index pg)).
  rewrite <- (kr_table _ _ H), vlen_push, Hs. cbn. do 3 f_equal.
  destruct (page_position (commit_end permit)) as [Hd Hm].
  remember (commit_end permit / M1_KV_PAGE_TOKENS) as q eqn:Hq.
  remember (commit_end permit mod M1_KV_PAGE_TOKENS) as r eqn:Hqr. clear Hq Hqr. kv_consts. lia.
Qed.

Lemma apply_none_wp s permit (Q : PhysicalKvState -> unit -> Prop) :
  retained_page permit = None -> next_page_count permit = page_count s ->
  Q (set_cursors (commit_end permit) (commit_end permit) s) tt ->
  forall n r c, wp (match retained_page permit with
      | Some page =>
          put_slot (pp_index page) (fun s =>
            mkSlot (ps_generation s) (ownership s) (commit_end permit mod M1_KV_PAGE_TOKENS))
      | None => ret tt
      end ;;
      modify (set_page_count (next_page_count permit)) ;;
      modify (set_cursors (commit_end permit) (commit_end permit))) (set_cursors r c (set_page_count n s)) Q.
Proof.
  intros -> -> HQ n r c. wp_step. apply wp_ret. wp_step. apply wp_modify. by apply wp_modify.
Qed.

Lemma settled_mod commit k : commit = M1_KV_PAGE_TOKENS * k -> commit mod M1_KV_PAGE_TOKENS = 0.
Proof. intros ->. rewrite N.mul_comm. by apply N.Div0.mod_mul. Qed.

Lemma mod_inside commit k :
  M1_KV_PAGE_TOKENS * k < commit < M1_KV_PAGE_TOKENS * (k + 1) -> commit mod M1_KV_PAGE_TOKENS <> 0.
Proof.
  intros Hc Hz. destruct (page_position commit) as [Hd _]. rewrite Hz in Hd.
  remember (commit / M1_KV_PAGE_TOKENS) as q eqn:Hq. clear Hq Hz. kv_consts. nia.
Qed.

(** After the retired page is gone: the rest of the settlement. *)
Lemma apply_rest_wp s pages epoch permit (Q : PhysicalKvState -> unit -> Prop) :
  kv_rep s pages -> tail_empty s = false -> commit_end permit <= resident_tokens s ->
  next_page_count permit = vlen pages ->
  vlen pages = physical_page_count (commit_end permit) ->
  retained_page permit =
    (if negb (commit_end permit mod M1_KV_PAGE_TOKENS =? 0) then vget pages (vlen pages - 1) else None) \/
  commit_end permit = resident_tokens s /\ retained_page permit = None ->
  (forall s', settled s pages epoch (commit_end permit) s' -> Q s' tt) ->
  forall n r c, wp (match retained_page permit with
      | Some page =>
          put_slot (pp_index page) (fun s =>
            mkSlot (ps_generation s) (ownership s) (commit_end permit mod M1_KV_PAGE_TOKENS))
      | None => ret tt
      end ;;
      modify (set_page_count (next_page_count permit)) ;;
      modify (set_cursors (commit_end permit) (commit_end permit)))
    (set_cursors r c (set_page_count n s)) Q.
Proof.
  intros H Hte Hle Hnext Hvl Hret HQ n r c.
  pose proof (physical_page_count_spec (commit_end permit)) as Hn. rewrite <- Hvl in Hn.
  pose proof (kr_cover _ _ H) as Hcov. pose proof (kr_count _ _ H) as Hcnt.
  assert (Hall : commit_end permit = resident_tokens s -> retained_page permit = None ->
    wp (match retained_page permit with
      | Some page =>
          put_slot (pp_index page) (fun s =>
            mkSlot (ps_generation s) (ownership s) (commit_end permit mod M1_KV_PAGE_TOKENS))
      | None => ret tt
      end ;;
      modify (set_page_count (next_page_count permit)) ;;
      modify (set_cursors (commit_end permit) (commit_end permit)))
    (set_cursors r c (set_page_count n s)) Q).
  { intros Heq Hnone. apply apply_none_wp; [done|by rewrite Hcnt|].
    apply HQ. rewrite Heq. by apply settled_all. }
  destruct Hret as [Hret|[Heq Hnone]]; [|by apply Hall].
  destruct (N.eqb_spec (commit_end permit mod M1_KV_PAGE_TOKENS) 0) as [Hz|Hz]; cbn [negb] in Hret.
  - destruct (page_position (commit_end permit)) as [Hd _]. rewrite Hz in Hd.
    remember (commit_end permit / M1_KV_PAGE_TOKENS) as q eqn:Hq. clear Hq Hz.
    apply Hall; [|done]. unfold tail_empty in Hte. apply N.eqb_neq in Hte.
    kv_consts. lia.
  - destruct (decide (vlen pages = 0)) as [E|E].
    { exfalso. apply Hz. apply (settled_mod _ 0). kv_consts. lia. }
    destruct (pages_last pages) as (pre & pg & ->); [lia|]. rewrite vlen_push in *.
    rewrite N.add_sub, vget_push, decide_True in Hret by done.
    assert (Hstrict : commit_end permit <> M1_KV_PAGE_TOKENS * (vlen pre + 1)).
    { intros Heq. apply Hz. by eapply settled_mod. }
    eapply apply_retained_wp; [done|done|done|kv_consts; lia|].
    apply HQ. apply settled_keep; [done|kv_consts; lia].
Qed.

(** The whole settlement, from the permit of a passing check. *)
Lemma apply_settlement_wp s pages request selection epoch commit (Q : PhysicalKvState -> unit -> Prop) :
  kv_rep s pages ->
  under s request selection (settlement_decision s epoch (committed_tokens s) (resident_tokens s) commit) = Ok tt ->
  (forall s', settled s pages epoch commit s' -> Q s' tt) ->
  wp (apply_preflighted_physical_speculative_settlement
        (permit_of s pages request selection epoch commit)) s Q.
Proof.
  intros H. unfold under.
  destruct (validate_active_authority s request selection) as [[]|] eqn:Hv; [|done].
  apply validate_active_authority_ok in Hv as (Hact & -> & ->).
  unfold settlement_decision. rewrite !N.eqb_refl. cbn [negb].
  destruct (N.eqb_spec (value epoch) 0) as [|He]; [done|].
  destruct (N.ltb_spec commit (committed_tokens s)) as [|Hlo]; cbn [orb]; [done|].
  destruct (N.ltb_spec (resident_tokens s) commit) as [|Hhi]; [done|].
  destruct (N.ltb_spec M1_KV_PAGE_TOKENS (resident_tokens s - commit)) as [|Hw]; [done|].
  destruct (tail_empty s) eqn:Hte; [done|]. intros _ HQ.
  pose proof Hte as Hne. unfold tail_empty in Hne. apply N.eqb_neq in Hne.
  pose proof (physical_page_count_spec commit) as Hn.
  pose proof (kr_cover _ _ H) as Hcov. pose proof (kr_count _ _ H) as Hcnt.
  unfold apply_preflighted_physical_speculative_settlement, permit_of. cbn [retired_page old_page_count].
  destruct (N.eqb_spec (page_count s - physical_page_count commit) 1) as [Hone|Hzero].
  - destruct (rep_split s pages H) as (pre & pg & -> & Hpc & Hres & Hget & Hown & Hfill); [lia|].
    assert (Hnext : physical_page_count commit = vlen pre) by lia.
    rewrite Hpc, N.add_sub, Hget. destruct Hown as (Hr & Hi & Hg & Hs).
    wp_step. wp_step. apply wp_sub_w; [lia|]. rewrite N.add_sub.
    wp_step. apply (wp_read_at _ slot_free); [by rewrite (kr_slots _ _ H)|].
    fold (slot_at s (pp_index pg)). rewrite Hs. cbn [initialized_prefix]. rewrite Hfill.
    wp_step. apply put_table_wp; [exact (rep_table_len _ _ H)|pose proof (rep_page_count_max _ _ H); lia|].
    wp_step. apply wp_gets. apply put_slot_wp; [exact (kr_slots _ _ H)|done|].
    set (s1 := drop_tail s pre pg (kv_lifecycle s) (committed_tokens s) epoch
                 (resident_tokens s - M1_KV_PAGE_TOKENS * vlen pre)).
    assert (Hcom : commit <= M1_KV_PAGE_TOKENS * vlen pre) by (kv_consts; lia).
    assert (Hlt : M1_KV_PAGE_TOKENS * vlen pre < resident_tokens s) by (kv_consts; lia).
    assert (Hrep1 : kv_rep s1 pre).
    { apply rep_tail_drop; try done; [lia|kv_consts; lia|lia|].
      unfold lifecycle_ok. cbn. by rewrite Hact. }
    match goal with |- wp _ ?x _ =>
      replace x with (set_cursors (resident_tokens s) (committed_tokens s) (set_page_count (page_count s) s1)) end.
    2:{ unfold s1, drop_tail, kv_at, put_state, set_page_count, set_page_slots, set_page_table, set_cursors; cbn.
        rewrite (kr_table _ _ H), table_pop by (rewrite <- Hcnt; exact (rep_page_count_max _ _ H)). done. }
    apply (apply_rest_wp s1 pre epoch); try done.
    + unfold tail_empty, s1. cbn. apply N.eqb_neq. kv_consts. lia.
    + left. cbn [retained_page commit_end]. rewrite (proj2 (N.ltb_lt commit _)) by lia. cbn [andb].
      destruct (N.eqb_spec (commit mod M1_KV_PAGE_TOKENS) 0) as [|Hz]; cbn [negb]; [done|].
      rewrite vget_push, Hnext, decide_False; [done|].
      assert (vlen pre <> 0); [|lia]. intros E. apply Hz, (settled_mod _ 0). kv_consts. lia.
    + intros s' Hs'. apply HQ. eapply settled_drop; try done; lia.
  - assert (Hnext : physical_page_count commit = vlen pages) by (kv_consts; lia).
    wp_step. apply wp_ret.
    assert (Hself : set_cursors (resident_tokens s) (committed_tokens s)
                      (set_page_count (page_count s) s) = s) by (by destruct s).
    match goal with |- wp ?m _ _ =>
      enough (Hgo : wp m (set_cursors (resident_tokens s) (committed_tokens s)
                            (set_page_count (page_count s) s)) Q) end.
    { by rewrite Hself in Hgo. }
    apply (apply_rest_wp s pages epoch); try done.
    cbn [retained_page commit_end]. rewrite Hnext.
    destruct (N.ltb_spec commit (resident_tokens s)); cbn [andb]; [by left|right].
    split; [lia|done].
Qed.
