(* ===== verification/PhysicalKvBatch.v ===== *)
(** The retirement metadata batch: checking a roster and committing it is
    releasing its pages one by one. *)
From S2P Require Import Prelude Spec PlanSelection PhysicalKv PhysicalKvInv PhysicalKvOps PhysicalKvSpec.
Local Open Scope prog_scope.
Import Graph Completion.

Definition rm_index (r : PhysicalKvRetiredPageMetadataV1) : N := pp_index (rm_page r).

(** The quiescence authority a roster entry stands for. *)
Definition entry_authority (s : PhysicalKvState) (r : PhysicalKvRetiredPageMetadataV1) :
    KvQuiescenceAuthority := mkAuthority (kv_request s) (kv_role s) (rm_after_epoch r).

(** Releasing the pages of a roster one at a time. *)
Fixpoint release_each (request : RequestId) (batch_role : Qwen3ModelRole) (pages : list PhysicalKvRetiredPageMetadataV1) :
    M PhysicalKvState (result unit PhysicalKvError) :=
  match pages with
  | [] => ret (Ok tt)
  | r :: pages' =>
      let? _ := release_retired_page (rm_page r)
                  (mkAuthority request batch_role (rm_after_epoch r)) in
      release_each request batch_role pages'
  end.

Definition freed (s : PhysicalKvState) (r : PhysicalKvRetiredPageMetadataV1) : PhysicalKvState :=
  set_page_slots (put_state s (rm_index r) (mkSlot (pp_generation (rm_page r) + 1) Free 0)) s.

Definition entry_ok (s : PhysicalKvState) (r : PhysicalKvRetiredPageMetadataV1) : Prop :=
  release_decision s (rm_page r) (entry_authority s r) = Ok tt.

Definition roster_ok (s : PhysicalKvState) (pages : list PhysicalKvRetiredPageMetadataV1) : Prop :=
  NoDup (rm_index <$> pages) /\ Forall (entry_ok s) pages.

(** What a passing entry says about its slot. *)
Lemma entry_ok_spec s pages r :
  kv_rep s pages ->
  entry_ok s r <->
  pp_role (rm_page r) = kv_role s /\ rm_index r < M1_KV_PHYSICAL_PAGE_SLOTS /\
  0 < pp_generation (rm_page r) < u32_max /\
  exists e k, slot_at s (rm_index r) =
    mkSlot (pp_generation (rm_page r)) (Retired (kv_request s) (kv_role s) e) k /\
    value e = value (rm_after_epoch r).
Proof.
  intros H. unfold entry_ok, release_decision, entry_authority. cbn [qa_request qa_role exact_epoch].
  fold (rm_index r). rewrite same_request_refl, same_role_refl. cbn [negb orb].
  split.
  - destruct (same_role (pp_role (rm_page r)) (kv_role s)) eqn:Hr; cbn [negb]; [|done].
    apply same_role_spec in Hr.
    destruct (N.leb_spec M1_KV_PHYSICAL_PAGE_SLOTS (rm_index r)) as [|Hi]; [done|].
    destruct (kr_slot _ _ H _ Hi) as [Hgen Hslot].
    destruct (N.eqb_spec (pp_generation (rm_page r)) 0) as [|Hz]; cbn [orb]; [done|].
    destruct (slot_at s (rm_index r)) as [g o k]. cbn in *.
    destruct (N.eqb_spec g (pp_generation (rm_page r))) as [->|]; cbn; [|done].
    destruct (N.eqb_spec (pp_generation (rm_page r)) u32_max); [done|].
    destruct o as [|r' ro|r' ro e]; try done. destruct Hslot as (-> & -> & _).
    destruct (N.eqb_spec (value e) (value (rm_after_epoch r))); [|done].
    intros _. split; [done|]. split; [done|]. split; [lia|]. by exists e, k.
  - intros (Hr & Hi & Hg & e & k & Hs & He). rewrite Hs, Hr, same_role_refl. cbn [negb].
    rewrite (proj2 (N.leb_gt _ _) Hi), (proj2 (N.eqb_neq _ 0)) by lia. cbn.
    rewrite N.eqb_refl, (proj2 (N.eqb_neq _ u32_max)) by lia. cbn.
    by rewrite (proj2 (N.eqb_eq _ _) He).
Qed.

Lemma entry_rep s pages r : kv_rep s pages -> entry_ok s r -> kv_rep (freed s r) pages.
Proof.
  intros H Hok. apply (entry_ok_spec _ _ _ H) in Hok as (_ & Hi & Hg & e & k & Hs & _).
  apply rep_slot_free; [done|done| |lia]. by eapply retired_not_in_table.
Qed.

Lemma slot_at_freed s pages r i :
  kv_rep s pages -> entry_ok s r ->
  slot_at (freed s r) i =
    if decide (i = rm_index r) then mkSlot (pp_generation (rm_page r) + 1) Free 0 else slot_at s i.
Proof.
  intros H Hok. apply (entry_ok_spec _ _ _ H) in Hok as (_ & Hi & _).
  unfold freed, slot_at at 1. cbn. by rewrite (vnth_put _ _ _ _ _ H Hi).
Qed.

(** Releasing an entry leaves the others as they were, and refuses a repeat. *)
Lemma entry_ok_freed s pages r r' :
  kv_rep s pages -> entry_ok s r ->
  entry_ok (freed s r) r' <-> rm_index r' <> rm_index r /\ entry_ok s r'.
Proof.
  intros H Hok. pose proof (entry_rep _ _ _ H Hok) as H'.
  rewrite (entry_ok_spec _ _ _ H'), (entry_ok_spec _ _ _ H).
  rewrite (slot_at_freed _ _ _ _ H Hok).
  change (kv_role (freed s r)) with (kv_role s). change (kv_request (freed s r)) with (kv_request s).
  case_decide as Hd.
  - split; [|tauto]. intros (_ & _ & _ & e & k & ? & _). done.
  - tauto.
Qed.

Lemma roster_ok_cons s pages r ps :
  kv_rep s pages ->
  roster_ok s (r :: ps) <-> entry_ok s r /\ roster_ok (freed s r) ps.
Proof.
  intros H. unfold roster_ok. rewrite fmap_cons, NoDup_cons, Forall_cons. split.
  - intros ((Hin & Hnd) & Hr & Hps). split; [done|]. split; [done|].
    rewrite Forall_forall in *. intros r' Hr'. apply (entry_ok_freed _ _ _ _ H Hr).
    split; [|by apply Hps]. intros Heq. apply Hin. rewrite <- Heq. by apply list_elem_of_fmap_2.
  - intros (Hr & Hnd & Hps). rewrite Forall_forall in *.
    assert (Hall : forall r', r' ∈ ps -> rm_index r' <> rm_index r /\ entry_ok s r').
    { intros r' Hr'. apply (entry_ok_freed _ _ _ _ H Hr). by apply Hps. }
    split; [split; [|done]|].
    + intros (r' & Heq & Hr')%list_elem_of_fmap. destruct (Hall r' Hr') as [Hne _]. by apply Hne.
    + split; [done|]. intros r' Hr'. by apply Hall.
Qed.

Definition freed_all (s : PhysicalKvState) (ps : list PhysicalKvRetiredPageMetadataV1) : PhysicalKvState := foldl freed s ps.

(** One by one: the releases succeed exactly for a correct roster. *)
Lemma release_each_wp ps : forall s pages (Q : PhysicalKvState -> result unit PhysicalKvError -> Prop),
  kv_rep s pages ->
  (forall s' e, ~ roster_ok s ps -> Q s' (Err e)) ->
  (roster_ok s ps -> kv_rep (freed_all s ps) pages -> Q (freed_all s ps) (Ok tt)) ->
  wp (release_each (kv_request s) (kv_role s) ps) s Q.
Proof.
  induction ps as [|r ps IH]; intros s pages Q H He Hok; cbn [release_each].
  { apply wp_ret. apply Hok; [|done]. split; [apply NoDup_nil_2|done]. }
  wp_step. apply (phys_release_wp _ _ H).
  - intros e Hd. apply He. intros [_ Hall]. apply Forall_cons_1 in Hall as [Hr _].
    unfold entry_ok, entry_authority in Hr. congruence.
  - intros s' Hd -> Hrep.
    assert (Hr : entry_ok s r) by exact Hd.
    apply (IH (freed s r) pages); [done| |].
    + intros s' e Hno. apply He. intros Hyes. apply Hno.
      by apply (roster_ok_cons _ _ _ _ H) in Hyes as [_ ?].
    + intros Hps Hrep'. apply Hok; [|done]. apply (roster_ok_cons _ _ _ _ H). done.
Qed.

(** ** The roster check *)

Definition mask_of (ps : list PhysicalKvRetiredPageMetadataV1) (mask : list bool) : Prop :=
  vlen mask = M1_KV_PHYSICAL_PAGE_SLOTS /\
  forall i, i < M1_KV_PHYSICAL_PAGE_SLOTS -> vget mask i = Some (bool_decide (i ∈ rm_index <$> ps)).

Lemma mask_empty : mask_of [] (vfill M1_KV_PHYSICAL_PAGE_SLOTS false).
Proof.
  split; [by rewrite vlen_vfill|]. intros i Hi. rewrite vget_vfill by done.
  by rewrite bool_decide_eq_false_2 by set_solver.
Qed.

Lemma mask_push ps mask r :
  mask_of ps mask -> rm_index r < M1_KV_PHYSICAL_PAGE_SLOTS ->
  mask_of (ps ++ [r]) (vset mask (rm_index r) true).
Proof.
  intros [Hl Hm] Hr. split; [by rewrite vlen_vset|]. intros i Hi.
  destruct (decide (i = rm_index r)) as [->|Hne].
  - rewrite vget_vset_eq by (by rewrite Hl). symmetry. f_equal. apply bool_decide_eq_true_2.
    rewrite fmap_app. set_solver.
  - rewrite vget_vset_ne by done. rewrite Hm by done. f_equal. apply bool_decide_ext.
    rewrite fmap_app. set_solver.
Qed.

Lemma phys_roster_loop_wp {S} s pages (H : kv_rep s pages) ps : forall seen mask (st : S)
    (Q : S -> result (list bool) PhysicalKvError -> Prop),
  mask_of seen mask ->
  (forall e, ~ (NoDup (rm_index <$> ps) /\ Forall (entry_ok s) ps /\
                forall r, r ∈ ps -> rm_index r ∉ rm_index <$> seen) -> Q st (Err e)) ->
  (forall mask', NoDup (rm_index <$> ps) -> Forall (entry_ok s) ps ->
     (forall r, r ∈ ps -> rm_index r ∉ rm_index <$> seen) -> mask_of (seen ++ ps) mask' -> Q st (Ok mask')) ->
  wp (roster_loop s (kv_request s) (kv_role s) ps mask) st Q.
Proof.
  induction ps as [|r ps IH]; intros seen mask st Q Hm He Hok; cbn [roster_loop].
  { apply wp_ret, Hok; [apply NoDup_nil_2|done|set_solver|by rewrite app_nil_r]. }
  assert (Hfail : forall e, ~ entry_ok s r \/ rm_index r ∈ rm_index <$> seen -> wp (ret (Err e)) st Q).
  { intros e Hor. apply wp_ret, He. intros (_ & Hall & Hfresh).
    destruct Hor as [Hno|Hin]; [by apply Forall_cons_1 in Hall as [? _]|].
    apply (Hfresh r); [set_solver|done]. }
  setoid_rewrite (entry_ok_spec _ pages _ H) in Hfail.
  destruct (same_role (pp_role (rm_page r)) (kv_role s)) eqn:Hr; cbn [negb].
  2:{ apply Hfail. left. intros (Heq & _). by rewrite Heq, same_role_refl in Hr. }
  apply same_role_spec in Hr. fold (rm_index r).
  destruct (N.leb_spec M1_KV_PHYSICAL_PAGE_SLOTS (rm_index r)) as [|Hi]; [apply Hfail; left; lia|].
  cbn zeta. wp_step. eapply wp_slice_at; [by apply Hm|].
  case_bool_decide as Hin; [by apply Hfail; right|].
  wp_step. eapply wp_slice_at; [apply (vget_nth slot_free); by rewrite (kr_slots _ _ H)|].
  fold (slot_at s (rm_index r)). destruct (kr_slot _ _ H _ Hi) as [Hgen Hslot].
  destruct (slot_at s (rm_index r)) as [g o k] eqn:Hs. cbn [ps_generation ownership initialized_prefix] in *.
  destruct (N.eqb_spec (pp_generation (rm_page r)) 0) as [|Hz]; cbn [orb]; [apply Hfail; left; lia|].
  destruct (N.eqb_spec g (pp_generation (rm_page r))) as [->|Hne]; cbn [negb];
    [|apply Hfail; left; intros (_ & _ & _ & e & k' & [= Heq] & _); done].
  destruct (N.eqb_spec (pp_generation (rm_page r)) u32_max) as [|Hx]; [apply Hfail; left; lia|].
  destruct o as [|r' ro|r' ro e].
  1,2: destruct (_ =? 0); [|wp_step; apply wp_ret]; apply Hfail; left;
    intros (_ & _ & _ & e & k' & [=] & _).
  destruct Hslot as (-> & -> & Hpos & Hk).
  destruct (N.eqb_spec (value (rm_after_epoch r)) 0) as [Hze|Hze].
  { apply Hfail; left. intros (_ & _ & _ & e' & k' & [= <- <-] & ?). lia. }
  wp_step. cbv iota. rewrite request_differs, same_request_refl, same_role_refl. cbn [negb orb].
  destruct (N.eqb_spec (value e) (value (rm_after_epoch r))) as [Hev|Hev]; cbn [negb].
  2:{ apply wp_ret. apply Hfail. left. intros (_ & _ & _ & e' & k' & [= <- <-] & ?). done. }
  apply wp_ret. assert (Hentry : entry_ok s r).
  { apply (entry_ok_spec _ _ _ H). split; [done|]. split; [done|]. split; [lia|]. by exists e, k. }
  wp_step. apply (table_contains_wp s pages); [apply H..|].
  rewrite bool_decide_eq_false_2 by (by eapply retired_not_in_table).
  wp_step. apply wp_slice_set; [by rewrite (proj1 Hm)|].
  apply (IH (seen ++ [r])); [by apply mask_push| |].
  - intros e' Hno. apply He. intros ([Hnin Hnd]%NoDup_cons & Hall%Forall_cons_1 & Hfresh). apply Hno.
    split; [done|]. split; [apply Hall|]. intros r0 Hr0. rewrite fmap_app.
    specialize (Hfresh r0 ltac:(set_solver)). intros [?|Heq]%elem_of_app; [done|].
    apply list_elem_of_singleton in Heq. apply Hnin. rewrite <- Heq. by apply list_elem_of_fmap_2.
  - intros mask' Hnd Hall Hfresh Hmask'. rewrite <- app_assoc in Hmask'.
    assert (Hsplit : forall r0, r0 ∈ ps -> (rm_index r0 ∉ rm_index <$> seen) /\ rm_index r0 <> rm_index r).
    { intros r0 Hr0. specialize (Hfresh r0 Hr0). rewrite fmap_app in Hfresh. set_solver. }
    apply Hok; [|by apply Forall_cons| |done].
    + rewrite fmap_cons. apply NoDup_cons. split; [|done].
      intros (r0 & Heq & Hr0)%list_elem_of_fmap. by destruct (Hsplit r0 Hr0).
    + intros r0 [->|Hr0]%elem_of_cons; [done|]. by apply Hsplit.
Qed.

(** Distinct slots of a pool of [M1_KV_PHYSICAL_PAGE_SLOTS] are at most that many. *)
Lemma distinct_bound (l : list N) n : NoDup l -> (forall x, x ∈ l -> x < n) -> vlen l <= n.
Proof.
  intros Hnd Hlt.
  assert (Hsub : N.to_nat <$> l ⊆+ seq 0 (N.to_nat n)).
  { apply NoDup_submseteq; [by apply (NoDup_fmap_2 N.to_nat)|].
    intros x (y & -> & Hy)%list_elem_of_fmap. apply elem_of_seq. specialize (Hlt y Hy). lia. }
  apply submseteq_length in Hsub. rewrite length_fmap, length_seq in Hsub. unfold vlen. lia.
Qed.

Lemma preflight_batch_wp {S} s pages request batch_role ps (st : S)
    (Q : S -> result (list bool) PhysicalKvError -> Prop) :
  kv_rep s pages ->
  (forall e, ~ (request = kv_request s /\ batch_role = kv_role s /\ roster_ok s ps) -> Q st (Err e)) ->
  (forall mask, request = kv_request s -> batch_role = kv_role s -> roster_ok s ps ->
     mask_of ps mask -> Q st (Ok mask)) ->
  wp (preflight_retired_page_metadata_batch_v1 s request batch_role ps) st Q.
Proof.
  intros H He Hok. unfold preflight_retired_page_metadata_batch_v1.
  rewrite request_differs. fold (kv_role s).
  destruct (same_request (kv_request s) request) eqn:Hreq; cbn [negb].
  2:{ apply wp_ret, He. intros (-> & _). by rewrite same_request_refl in Hreq. }
  apply same_request_spec in Hreq as <-.
  destruct (same_role (kv_role s) batch_role) eqn:Hrole; cbn [negb].
  2:{ apply wp_ret, He. intros (_ & -> & _). by rewrite same_role_refl in Hrole. }
  apply same_role_spec in Hrole as <-.
  destruct (N.ltb_spec M1_KV_PHYSICAL_PAGE_SLOTS (vlen ps)) as [Hlong|_].
  { apply wp_ret, He. intros (_ & _ & Hnd & Hall).
    pose proof (distinct_bound (rm_index <$> ps) M1_KV_PHYSICAL_PAGE_SLOTS Hnd) as Hb.
    unfold vlen in *. rewrite length_fmap in Hb. apply N.lt_nge in Hlong. apply Hlong, Hb.
    intros x (r & -> & Hr)%list_elem_of_fmap. rewrite Forall_forall in Hall.
    by apply Hall, (entry_ok_spec _ _ _ H) in Hr as (_ & ? & _). }
  apply (phys_roster_loop_wp s pages H ps [] _ st Q mask_empty).
  - intros e Hno. apply He. intros (_ & _ & Hnd & Hall). apply Hno. split; [done|]. split; [done|].
    set_solver.
  - intros mask Hnd Hall _ Hm. by apply Hok.
Qed.

(** ** Committing *)

(** The state after the slots below [index] have been advanced. *)
Record advanced (s : PhysicalKvState) (ps : list PhysicalKvRetiredPageMetadataV1) (index : N)
    (t : PhysicalKvState) : Prop := {
  ad_frame : set_page_slots (page_slots s) t = s;
  ad_len : vlen (page_slots t) = vlen (page_slots s);
  ad_slot : forall i, i < M1_KV_PHYSICAL_PAGE_SLOTS ->
    slot_at t i = if bool_decide (i < index /\ i ∈ rm_index <$> ps)
                  then mkSlot (ps_generation (slot_at s i) + 1) Free 0 else slot_at s i
}.

Lemma commit_batch_loop_wp s pages ps mask fuel : forall index t
    (Q : PhysicalKvState -> unit -> Prop),
  kv_rep s pages -> roster_ok s ps -> mask_of ps mask -> advanced s ps index t ->
  index <= M1_KV_PHYSICAL_PAGE_SLOTS -> M1_KV_PHYSICAL_PAGE_SLOTS - index <= N.of_nat fuel ->
  (forall t', advanced s ps M1_KV_PHYSICAL_PAGE_SLOTS t' -> Q t' tt) ->
  wp (commit_batch_loop fuel mask index) t Q.
Proof.
  induction fuel as [|fuel IH]; intros index t Q H Hroster Hm Ht Hi Hf HQ; cbn [commit_batch_loop].
  { apply wp_ret, HQ. by replace M1_KV_PHYSICAL_PAGE_SLOTS with index by lia. }
  destruct (N.ltb_spec index M1_KV_PHYSICAL_PAGE_SLOTS) as [Hlt|Hge].
  2:{ apply wp_ret, HQ. by replace M1_KV_PHYSICAL_PAGE_SLOTS with index by lia. }
  assert (Hlen : vlen (page_slots t) = M1_KV_PHYSICAL_PAGE_SLOTS)
    by (rewrite (ad_len _ _ _ _ Ht); apply H).
  wp_step. eapply wp_slice_at; [by apply Hm|].
  assert (Hcur : slot_at t index = slot_at s index).
  { rewrite (ad_slot _ _ _ _ Ht) by done. by rewrite bool_decide_eq_false_2 by lia. }
  wp_step. case_bool_decide as Hin.
  - wp_step. apply (wp_read_at _ slot_free); [by rewrite Hlen|]. fold (slot_at t index).
    assert (Hmax : ps_generation (slot_at s index) < u32_max).
    { apply list_elem_of_fmap in Hin as (r & -> & Hr). destruct Hroster as [_ Hall].
      rewrite Forall_forall in Hall. apply Hall, (entry_ok_spec _ _ _ H) in Hr
        as (_ & _ & ? & e & k & -> & _). cbn. lia. }
    rewrite Hcur. wp_step. apply wp_add32; [lia|].
    apply put_slot_wp; [done|done|]. wp_step. apply wp_add_usize; [kv_consts; lia|].
    apply IH; try done; try lia. destruct Ht as [Hfr Hl Hs]. split.
    + by destruct t.
    + cbn. by rewrite vlen_vset.
    + intros i Hib. unfold slot_at at 1. cbn. rewrite vnth_vset by (by rewrite Hlen).
      case_decide as Hd.
      * subst i. by rewrite bool_decide_eq_true_2 by (split; [lia|done]).
      * fold (slot_at t i). rewrite Hs by done.
        rewrite (bool_decide_ext (i < index /\ _) (i < index + 1 /\ i ∈ rm_index <$> ps)); [done|].
        split; intros [? ?]; split; (done || lia).
  - apply wp_ret. wp_step. apply wp_add_usize; [kv_consts; lia|].
    apply IH; try done; try lia. destruct Ht as [Hfr Hl Hs]. split; [done|done|].
    intros i Hib. rewrite Hs by done.
    rewrite (bool_decide_ext (i < index /\ _) (i < index + 1 /\ i ∈ rm_index <$> ps)); [done|].
    split; intros [? ?]; split; try done; [lia|]. assert (i <> index) by (by intros ->). lia.
Qed.

Lemma advanced_start s pages ps : kv_rep s pages -> advanced s ps 0 s.
Proof.
  intros H. split; [by destruct s|done|]. intros i Hi. by rewrite bool_decide_eq_false_2 by (intros [? _]; lia).
Qed.

Lemma advanced_unique s pages ps t t' :
  kv_rep s pages -> advanced s ps M1_KV_PHYSICAL_PAGE_SLOTS t ->
  advanced s ps M1_KV_PHYSICAL_PAGE_SLOTS t' -> t = t'.
Proof.
  intros H [Hf Hl Hs] [Hf' Hl' Hs'].
  assert (Hslots : page_slots t = page_slots t').
  { apply list_eq_same_length with (n := N.to_nat M1_KV_PHYSICAL_PAGE_SLOTS);
      pose proof (kr_slots _ _ H); unfold vlen in *; [lia..|].
    intros i x y Hi Hx Hy. specialize (Hs (N.of_nat i) ltac:(lia)). specialize (Hs' (N.of_nat i) ltac:(lia)).
    rewrite <- Hs' in Hs. unfold slot_at, vnth, vget in Hs. rewrite Nat2N.id, Hx, Hy in Hs. done. }
  destruct t, t'. unfold set_page_slots in *. cbn in *. subst.
  destruct s. injection Hf as -> -> -> -> -> -> -> ->. injection Hf' as -> -> -> -> -> -> -> ->. done.
Qed.

Lemma freed_all_advanced ps : forall s pages,
  kv_rep s pages -> roster_ok s ps -> advanced s ps M1_KV_PHYSICAL_PAGE_SLOTS (freed_all s ps).
Proof.
  induction ps as [|r ps IH]; intros s pages H Hok; cbn [freed_all foldl].
  { split; [by destruct s|done|]. intros i Hi.
    rewrite bool_decide_eq_false_2; [done|]. set_solver. }
  pose proof Hok as Hall. apply (roster_ok_cons _ _ _ _ H) in Hok as [Hr Hps].
  pose proof (entry_rep _ _ _ H Hr) as H1. destruct (IH _ _ H1 Hps) as [Hf Hl Hs]. split.
  - fold (freed_all (freed s r) ps). unfold freed in Hf at 3.
    destruct (freed_all (freed s r) ps), s. unfold set_page_slots in *. cbn in *.
    injection Hf as -> -> -> -> -> -> -> ->. done.
  - fold (freed_all (freed s r) ps). rewrite Hl. unfold freed. cbn. unfold put_state. by rewrite vlen_vset.
  - intros i Hi. fold (freed_all (freed s r) ps). rewrite Hs by done. rewrite (slot_at_freed _ _ _ _ H Hr).
    assert (Hnd : rm_index r ∉ rm_index <$> ps).
    { destruct Hall as [Hnd _]. rewrite fmap_cons in Hnd. by apply NoDup_cons in Hnd as [? _]. }
    case_decide as Hd.
    + subst i. rewrite bool_decide_eq_false_2 by tauto.
      rewrite bool_decide_eq_true_2 by (rewrite fmap_cons; split; [done|set_solver]).
      apply (entry_ok_spec _ _ _ H) in Hr as (_ & _ & _ & e & k & -> & _). done.
    + rewrite (bool_decide_ext (_ /\ i ∈ rm_index <$> ps)
        (i < M1_KV_PHYSICAL_PAGE_SLOTS /\ i ∈ rm_index <$> r :: ps)); [done|].
      rewrite fmap_cons, elem_of_cons. tauto.
Qed.

Lemma commit_batch_wp s pages ps mask (Q : PhysicalKvState -> unit -> Prop) :
  kv_rep s pages -> roster_ok s ps -> mask_of ps mask -> Q (freed_all s ps) tt ->
  wp (commit_batch mask) s Q.
Proof.
  intros H Hok Hm HQ. apply (commit_batch_loop_wp s pages ps); try done.
  - by eapply advanced_start.
  - intros t' Ht'. by rewrite (advanced_unique _ _ _ _ _ H Ht' (freed_all_advanced _ _ _ H Hok)).
Qed.

Lemma freed_all_slot s pages ps :
  kv_rep s pages -> roster_ok s ps -> forall i, i < M1_KV_PHYSICAL_PAGE_SLOTS ->
  slot_at (freed_all s ps) i =
    if bool_decide (i ∈ rm_index <$> ps) then mkSlot (ps_generation (slot_at s i) + 1) Free 0
    else slot_at s i.
Proof.
  intros H Hok i Hi. rewrite (ad_slot _ _ _ _ (freed_all_advanced ps s pages H Hok)) by done.
  rewrite (bool_decide_ext (i < M1_KV_PHYSICAL_PAGE_SLOTS /\ i ∈ rm_index <$> ps)
             (i ∈ rm_index <$> ps)) by tauto. done.
Qed.

Lemma slot_at_beyond s i : vlen (page_slots s) <= i -> slot_at s i = slot_free.
Proof.
  intros H. unfold slot_at, vnth, vget. unfold vlen in H. by rewrite lookup_ge_None_2 by lia.
Qed.
