(* ===== verification/PhysicalKvWorld.v ===== *)
(** Runs of physical KV operations: the effect of each operation on the page
    list and the cursors, the device memory written through the page table, and
    the token log the two implement. *)
From S2P Require Import Prelude Spec PlanSelection PhysicalKv PhysicalKvInv PhysicalKvOps PhysicalKvSpec.
From S2P Require Import PhysicalKvSettle PhysicalKvBatch.
From stdpp Require Import gmap.
Local Open Scope prog_scope.
Local Open Scope N_scope.
Import Graph Completion.

(** The calls a request can make; a write carries the token state the device
    stores at the position. *)
Inductive kv_op (V : Type) :=
| OpAppend (page : PhysicalPageId)
| OpWrite (logical_position : N) (v : V)
| OpCommit (accepted : N)
| OpRollback (epoch : CompletionEpoch)
| OpSettle (epoch : CompletionEpoch) (pre_committed tentative_end commit_end : N)
| OpReselect (next : Qwen3PlanSelection)
| OpCancel (epoch : CompletionEpoch)
| OpRetire (epoch : CompletionEpoch)
| OpRelease (page : PhysicalPageId) (authority : KvQuiescenceAuthority)
| OpBatch (batch_role : Qwen3ModelRole) (pages : list PhysicalKvRetiredPageMetadataV1).
Arguments OpAppend {V}. Arguments OpWrite {V}. Arguments OpCommit {V}. Arguments OpRollback {V}.
Arguments OpSettle {V}. Arguments OpReselect {V}. Arguments OpCancel {V}. Arguments OpRetire {V}.
Arguments OpRelease {V}. Arguments OpBatch {V}.

(** A call under the caller's request and selection. *)
Record kv_call (V : Type) := mkCall {
  c_request : RequestId; c_selection : Qwen3PlanSelection; c_op : kv_op V
}.
Arguments mkCall {V}. Arguments c_request {V}. Arguments c_selection {V}. Arguments c_op {V}.

Definition drop_value {S A} (m : M S (result A PhysicalKvError)) : M S (result unit PhysicalKvError) :=
  let? _ := m in ret (Ok tt).

Definition exec_kv {V} (c : kv_call V) : M PhysicalKvState (result unit PhysicalKvError) :=
  let request := c_request c in
  let selection := c_selection c in
  match c_op c with
  | OpAppend page => append_physical_page request selection page
  | OpWrite p _ => write_physical_token request selection p
  | OpCommit n => commit_physical_kv request selection n
  | OpRollback e => rollback_physical_token request selection e
  | OpSettle e pre t commit =>
      let! state := gets id in
      let? permit := preflight_physical_speculative_settlement state request selection e pre t commit in
      apply_preflighted_physical_speculative_settlement permit ;; ret (Ok tt)
  | OpReselect next =>
      let! state := gets id in
      match preflight_physical_kv_reselection state next with
      | Err e => ret (Err e)
      | Ok permit => apply_preflighted_physical_kv_reselection permit ;; ret (Ok tt)
      end
  | OpCancel e => cancel_physical_kv request selection e
  | OpRetire e => drop_value (retire_cancelled_tail request selection e)
  | OpRelease page authority => drop_value (release_retired_page page authority)
  | OpBatch batch_role pages =>
      let! state := gets id in
      let? mask := preflight_retired_page_metadata_batch_v1 state request batch_role pages in
      commit_batch mask ;; ret (Ok tt)
  end.

(** ** Effects *)

Record same_cursors (s s' : PhysicalKvState) : Prop := {
  sc_request : kv_request s' = kv_request s;
  sc_life : kv_lifecycle s' = kv_lifecycle s;
  sc_resident : resident_tokens s' = resident_tokens s;
  sc_committed : committed_tokens s' = committed_tokens s
}.

Definition effect_of {V} (o : kv_op V) (s : PhysicalKvState) (pages : list PhysicalPageId)
    (s' : PhysicalKvState) (pages' : list PhysicalPageId) : Prop :=
  match o with
  | OpAppend page =>
      kv_lifecycle s = Active /\ resident_tokens s = M1_KV_PAGE_TOKENS * vlen pages /\
      pages' = pages ++ [page] /\ same_cursors s s'
  | OpWrite p _ =>
      kv_lifecycle s = Active /\ p = resident_tokens s /\ pages' = pages /\
      kv_lifecycle s' = Active /\ resident_tokens s' = p + 1 /\
      committed_tokens s' = committed_tokens s
  | OpCommit n =>
      kv_lifecycle s = Active /\ pages' = pages /\ kv_lifecycle s' = Active /\
      resident_tokens s' = resident_tokens s /\
      committed_tokens s' = committed_tokens s + n
  | OpRollback _ =>
      kv_lifecycle s = Active /\ committed_tokens s < resident_tokens s /\
      pages' = take (N.to_nat (physical_page_count (resident_tokens s - 1))) pages /\
      kv_lifecycle s' = Active /\ resident_tokens s' = resident_tokens s - 1 /\
      committed_tokens s' = committed_tokens s
  | OpSettle _ _ _ commit =>
      kv_lifecycle s = Active /\ committed_tokens s <= commit <= resident_tokens s /\
      pages' = take (N.to_nat (physical_page_count commit)) pages /\
      kv_lifecycle s' = Active /\ resident_tokens s' = commit /\ committed_tokens s' = commit
  | OpReselect next => kv_lifecycle s = Active /\ pages' = pages /\ same_cursors s s'
  | OpCancel e =>
      kv_lifecycle s = Active /\ pages' = pages /\ 0 < value e /\
      kv_lifecycle s' = (if vlen pages =? 0 then RetiredAwaitingQuiescence e else Cancelled e) /\
      resident_tokens s' = resident_tokens s /\ committed_tokens s' = committed_tokens s
  | OpRetire e =>
      (exists e', kv_lifecycle s = Cancelled e' /\ value e' = value e) /\
      tail_empty s = false /\ 0 < vlen pages /\
      pages' = take (N.to_nat (vlen pages - 1)) pages /\
      resident_tokens s' = M1_KV_PAGE_TOKENS * (vlen pages - 1) /\
      committed_tokens s' = N.min (committed_tokens s) (M1_KV_PAGE_TOKENS * (vlen pages - 1)) /\
      kv_lifecycle s' = (if vlen pages =? 1 then RetiredAwaitingQuiescence e else kv_lifecycle s)
  | OpRelease _ _ | OpBatch _ _ => pages' = pages /\ same_cursors s s'
  end.

(** The selection a call leaves is the one it had, or an admitted one. *)
Lemma reselect_rep s pages next dims :
  kv_rep s pages -> role next = kv_role s ->
  dimensions (bucket next) (role next) (mode next) = Some dims ->
  resident_tokens s <= context_tokens dims ->
  kv_rep (set_selection next (context_tokens dims) s) pages.
Proof.
  intros [? ? ? ? ? [? ?] ? Hpage ? Hslot ?] Hr Hd Hle.
  split; try done; cbn; [by exists dims| |].
  - intros p pg Hp. unfold page_owned, kv_role in *. cbn. rewrite Hr. by apply Hpage.
  - intros i Hi. specialize (Hslot i Hi). unfold slot_ok, kv_role in *. cbn. rewrite Hr. done.
Qed.

Lemma physical_page_count_last resident pre :
  M1_KV_PAGE_TOKENS * pre < resident <= M1_KV_PAGE_TOKENS * (pre + 1) ->
  physical_page_count (resident - 1) = if resident =? M1_KV_PAGE_TOKENS * pre + 1 then pre else pre + 1.
Proof.
  intros H. pose proof (physical_page_count_spec (resident - 1)).
  destruct (N.eqb_spec resident (M1_KV_PAGE_TOKENS * pre + 1)); kv_consts; lia.
Qed.

Lemma freed_all_frame ps s :
  same_cursors s (freed_all s ps).
Proof.
  revert s. induction ps as [|r ps IH]; intros s; cbn [freed_all foldl]; [done|].
  destruct (IH (freed s r)) as [? ? ? ?]. split; done.
Qed.

Lemma freed_all_rep ps s pages :
  kv_rep s pages -> roster_ok s ps -> kv_rep (freed_all s ps) pages.
Proof.
  revert s. induction ps as [|r ps IH]; intros s H Hok; [done|].
  apply (roster_ok_cons _ _ _ _ H) in Hok as [Hr Hps]. apply IH; [by apply entry_rep|done].
Qed.

Section effects.
Context {V : Type}.

(** Every call ends: a refused one leaves the state as it was, a successful
    one keeps the invariant and has the effect above. *)
Definition outcome_ok (c : kv_call V) (s : PhysicalKvState) (pages : list PhysicalPageId)
    (s' : PhysicalKvState) (r : result unit PhysicalKvError) : Prop :=
  match r with
  | Err _ => s' = s
  | Ok _ => exists pages', kv_rep s' pages' /\ effect_of (c_op c) s pages s' pages' /\
                           kv_request s' = kv_request s /\
                           match c_op c with
                           | OpWrite _ _ =>
                               validate_active_authority s' (c_request c) (c_selection c) = Ok tt
                           | _ => True
                           end
  end.

Lemma under_ok {A} s request selection (d : result A PhysicalKvError) a :
  under s request selection d = Ok a ->
  kv_lifecycle s = Active /\ request = kv_request s /\ selection = kv_selection s /\ d = Ok a.
Proof.
  unfold under. destruct (validate_active_authority s request selection) as [[]|] eqn:Hv; [|done].
  apply validate_active_authority_ok in Hv. intros ->. tauto.
Qed.

Lemma exec_effect (c : kv_call V) s pages :
  kv_rep s pages -> wp (exec_kv c) s (outcome_ok c s pages).
Proof.
  intros H. destruct c as [request selection o]. unfold exec_kv. cbn [c_op c_request c_selection].
  destruct o as [pg|p v|n|e|e pre t commit|next|e|e|pg auth|batch_role ps].
  - apply (append_wp s pages H); [done|]. intros s' (Hact & _)%under_ok -> Hres _ Hrep.
    exists (pages ++ [pg]). done.
  - apply (write_wp s pages H); [done|]. intros pre pg (Hact & Hr & Hs & _)%under_ok -> Hp _ Hrep.
    exists (pre ++ [pg]). split; [done|]. split; [done|]. split; [done|].
    by apply validate_active_authority_ok.
  - apply (phys_commit_wp s pages H); [done|]. intros (Hact & _ & _ & Hd)%under_ok.
    exists pages. split; [|done]. unfold commit_decision in Hd.
    destruct (N.ltb_spec (resident_tokens s) (committed_tokens s + n)); [done|]. by apply rep_cursor.
  - apply (rollback_wp s pages H); [done|].
    intros pre pg s' (Hact & _ & _ & Hd)%under_ok -> Hlt -> Hrep.
    pose proof (kr_cover _ _ H) as Hcov. rewrite vlen_push in Hcov.
    pose proof (physical_page_count_last (resident_tokens s) (vlen pre) ltac:(kv_consts; lia)) as Hn.
    unfold rollback_decision in Hd. destruct (value e =? 0); [done|].
    destruct (N.eqb_spec (resident_tokens s) (committed_tokens s)) as [|Hne]; [done|].
    pose proof (kr_cursor _ _ H) as [Hcur _].
    eexists. split; [exact Hrep|]. cbn [c_op effect_of]. rewrite Hn.
    destruct (N.eqb_spec (resident_tokens s) (M1_KV_PAGE_TOKENS * vlen pre + 1)) as [Hone|].
    + rewrite take_pre. repeat split; try done; cbn; lia.
    + rewrite take_all_pages by (rewrite vlen_push; lia). repeat split; try done; lia.
  - wp_step. apply wp_gets. cbn [id]. wp_step. apply (phys_preflight_wp s pages H); [done|].
    intros Hd. pose proof Hd as (Hact & -> & -> & Hd')%under_ok. unfold settlement_decision in Hd'.
    destruct (value e =? 0); [done|].
    destruct (N.eqb_spec (committed_tokens s) pre) as [<-|]; [|done].
    destruct (N.eqb_spec (resident_tokens s) t) as [<-|]; [|done].
    destruct (N.ltb_spec commit (committed_tokens s)); [done|].
    destruct (N.ltb_spec (resident_tokens s) commit); [done|].
    wp_step. apply (apply_settlement_wp s pages); [done..|]. intros s' [[] Hr Hc Hrep _ _].
    apply wp_ret. eexists. split; [exact Hrep|]. repeat split; try done. congruence.
  - wp_step. apply wp_gets. cbn [id]. unfold preflight_physical_kv_reselection.
    destruct (is_active (kv_lifecycle s)) eqn:Hact; cbn [negb]; [|by apply wp_ret].
    destruct (same_role (role (kv_selection s)) (role next)) eqn:Hr; cbn [negb]; [|by apply wp_ret].
    apply same_role_spec in Hr.
    destruct (dimensions _ _ _) as [dims|] eqn:Hd; [|by apply wp_ret].
    destruct (N.ltb_spec (context_tokens dims) (resident_tokens s)); [by apply wp_ret|].
    wp_step. apply wp_modify. apply wp_ret. exists pages.
    split; [by apply reselect_rep|]. repeat split. by destruct (kv_lifecycle s).
  - apply (phys_cancel_wp s pages H); [done|]. intros s' (Hact & _)%under_ok -> He Hrep.
    exists pages. split; [done|]. cbn. by rewrite (kr_count _ _ H).
  - wp_step. apply (phys_retire_wp s pages H); [done|]. intros pre pg s' Hd -> -> Hrep. apply wp_ret.
    unfold retire_decision in Hd. destruct (kv_lifecycle s) as [|e'|] eqn:Hl; [done| |done].
    destruct (N.eqb_spec (value e') (value e)) as [He|]; cbn [negb] in Hd; [|done].
    repeat (destruct (negb _); [done|]). destruct (tail_empty s) eqn:Hte; [done|].
    exists pre. split; [done|]. cbn [c_op effect_of]. rewrite vlen_push, N.add_sub, take_pre.
    split; [|done]. repeat split; try done; try lia; [by exists e'|].
    cbn. rewrite Hl. destruct (N.eqb_spec (vlen pre) 0), (N.eqb_spec (vlen pre + 1) 1); (done || lia).
  - wp_step. apply (phys_release_wp s pages H); [done|]. intros s' _ -> Hrep. apply wp_ret.
    by exists pages.
  - wp_step. apply wp_gets. cbn [id]. wp_step. apply (preflight_batch_wp s pages); [done|done|].
    intros mask -> -> Hok Hm. wp_step. apply (commit_batch_wp s pages ps); [done..|].
    apply wp_ret. exists pages. destruct (freed_all_frame ps s) as [Hreq ? ? ?].
    split; [by eapply freed_all_rep|]. done.
Qed.
End effects.
