(* ===== verification/PhysicalKvMemory.v ===== *)
(** The device memory behind the page table: a run of operations implements a
    token log, and a committed token keeps its place and its contents. *)
From S2P Require Import Prelude Spec PlanSelection PhysicalKv PhysicalKvInv PhysicalKvOps PhysicalKvSpec.
From S2P Require Import PhysicalKvSettle PhysicalKvBatch PhysicalKvWorld.
From stdpp Require Import gmap.
Local Open Scope prog_scope.
Local Open Scope N_scope.
Import Graph Completion.

Section memory.
Context {V : Type}.

(** The metadata and the contents of the physical page slots, by slot index and
    offset. *)
Record kv_world := mkWorld { w_kv : PhysicalKvState; w_mem : gmap (N * N) V }.

(** The log of token states: the resident ones, with the committed count. *)
Record kv_log := mkLog { tokens : list V; committed : N }.

Definition put_kv (s : PhysicalKvState) (w : kv_world) : kv_world := mkWorld s (w_mem w).

(** One call; an accepted write stores its token at the location the page table
    gives for it. *)
Definition exec_world (c : kv_call V) : M kv_world (result unit PhysicalKvError) :=
  let? _ := zoom w_kv put_kv (exec_kv c) in
  match c_op c with
  | OpWrite p v =>
      let! s := gets w_kv in
      let? loc := map_initialized_token s (c_request c) (c_selection c) p in
      modify (fun w => mkWorld (w_kv w) (<[(pp_index (page loc), offset loc) := v]> (w_mem w))) ;;
      ret (Ok tt)
  | _ => ret (Ok tt)
  end.

(** Reading a position through the page table. *)
Definition read_world (request : RequestId) (selection : Qwen3PlanSelection) (p : N) :
    M kv_world (result (option V) PhysicalKvError) :=
  let! w := gets id in
  let? loc := map_initialized_token (w_kv w) request selection p in
  ret (Ok (w_mem w !! (pp_index (page loc), offset loc))).

(** The log machine. *)
Definition log_step (o : kv_op V) (a : kv_log) : kv_log :=
  match o with
  | OpWrite _ v => mkLog (tokens a ++ [v]) (committed a)
  | OpCommit n => mkLog (tokens a) (committed a + n)
  | OpRollback _ => mkLog (take (length (tokens a) - 1) (tokens a)) (committed a)
  | OpSettle _ _ _ commit => mkLog (take (N.to_nat commit) (tokens a)) commit
  | OpRetire _ =>
      let kept := M1_KV_PAGE_TOKENS * ((vlen (tokens a) - 1) / M1_KV_PAGE_TOKENS) in
      mkLog (take (N.to_nat kept) (tokens a)) (N.min (committed a) kept)
  | _ => a
  end.

Fixpoint run_world (calls : list (kv_call V)) : M kv_world (list (result unit PhysicalKvError)) :=
  match calls with
  | [] => ret []
  | c :: calls' =>
      let! r := exec_world c in
      let! rs := run_world calls' in
      ret (r :: rs)
  end.

(** The log after the accepted calls. *)
Fixpoint run_log (calls : list (kv_call V)) (rs : list (result unit PhysicalKvError)) (a : kv_log) :
    kv_log :=
  match calls, rs with
  | c :: calls', Ok _ :: rs' => run_log calls' rs' (log_step (c_op c) a)
  | _ :: calls', Err _ :: rs' => run_log calls' rs' a
  | _, _ => a
  end.

(** ** The simulation *)

Definition mem_ok (pages : list PhysicalPageId) (l : list V) (mem : gmap (N * N) V) : Prop :=
  forall p pg v, vget pages (p / M1_KV_PAGE_TOKENS) = Some pg -> vget l p = Some v ->
    mem !! (pp_index pg, p mod M1_KV_PAGE_TOKENS) = Some v.

Record represents (w : kv_world) (a : kv_log) (pages : list PhysicalPageId) : Prop := {
  re_rep : kv_rep (w_kv w) pages;
  re_len : vlen (tokens a) = resident_tokens (w_kv w);
  re_committed : committed a = committed_tokens (w_kv w);
  re_mem : mem_ok pages (tokens a) (w_mem w)
}.

(** Shrinking the log and the page list keeps the memory agreement. *)
Lemma mem_ok_sub pages l mem pages' l' :
  mem_ok pages l mem ->
  (forall q pg, vget pages' q = Some pg -> vget pages q = Some pg \/ vlen l' <= M1_KV_PAGE_TOKENS * q) ->
  (forall p v, vget l' p = Some v -> vget l p = Some v) ->
  mem_ok pages' l' mem.
Proof.
  intros Hm Hp Hl p pg v Hpg Hv. destruct (Hp _ _ Hpg) as [Hpg'|Hge].
  - apply Hm; [done|]. by apply Hl.
  - exfalso. apply vget_Some_lt in Hv. destruct (page_position p) as [Hd _].
    clear Hp Hpg. remember (p / M1_KV_PAGE_TOKENS) as q eqn:Hq.
    remember (p mod M1_KV_PAGE_TOKENS) as r eqn:Hr. clear Hq Hr. lia.
Qed.

Lemma vget_take {A} (l : list A) n p x : vget (take n l) p = Some x -> vget l p = Some x.
Proof. unfold vget. intros [? _]%lookup_take_Some. done. Qed.

Lemma vlen_take {A} (l : list A) n : n <= vlen l -> vlen (take (N.to_nat n) l) = n.
Proof. unfold vlen. rewrite length_take. lia. Qed.

(** The new token goes to a cell no other resident token uses. *)
Lemma mem_ok_write s pages l mem v p pg :
  kv_rep s pages -> mem_ok pages l mem -> vlen l = p ->
  vget pages (p / M1_KV_PAGE_TOKENS) = Some pg ->
  mem_ok pages (l ++ [v]) (<[(pp_index pg, p mod M1_KV_PAGE_TOKENS) := v]> mem).
Proof.
  intros H Hm Hp Hpg p' pg' v' Hpg' Hv'. rewrite vget_push in Hv'. case_decide as Hd.
  - rewrite Hp in Hd. subst p'. simplify_eq. by rewrite lookup_insert_eq.
  - rewrite lookup_insert_ne; [by apply Hm|]. intros [= Hi Hr]. apply vget_Some_lt in Hv' as Hlt.
    assert (Hq : p / M1_KV_PAGE_TOKENS = p' / M1_KV_PAGE_TOKENS).
    { apply N2Nat.inj. apply (NoDup_lookup _ _ _ (pp_index pg) (kr_nodup _ _ H));
        rewrite list_lookup_fmap; unfold vget in *; [by rewrite Hpg|by rewrite Hpg'; cbn; rewrite Hi]. }
    destruct (page_position p) as [Hdp _]. destruct (page_position p') as [Hdp' _].
    rewrite <- Hq, <- Hr in Hdp'. rewrite Hp in Hd. congruence.
Qed.

Lemma kept_tokens s pages :
  kv_rep s pages -> tail_empty s = false -> 0 < vlen pages ->
  M1_KV_PAGE_TOKENS * ((resident_tokens s - 1) / M1_KV_PAGE_TOKENS) = M1_KV_PAGE_TOKENS * (vlen pages - 1).
Proof.
  intros H Hte Hp. pose proof (kr_cover _ _ H) as Hc. unfold tail_empty in Hte.
  apply N.eqb_neq in Hte. rewrite (kr_count _ _ H) in Hte.
  destruct (page_position (resident_tokens s - 1)) as [Hd Hm].
  remember ((resident_tokens s - 1) / M1_KV_PAGE_TOKENS) as q eqn:Hq.
  remember ((resident_tokens s - 1) mod M1_KV_PAGE_TOKENS) as r eqn:Hr. clear Hq Hr.
  kv_consts. f_equal. lia.
Qed.

(** The log state after an effect is the one the metadata describes. *)
Lemma effect_represents c w a pages s' pages' :
  represents w a pages -> kv_rep s' pages' ->
  effect_of (c_op c) (w_kv w) pages s' pages' ->
  match c_op c with
  | OpWrite p v => forall pg, vget pages' (p / M1_KV_PAGE_TOKENS) = Some pg ->
      represents (mkWorld s' (<[(pp_index pg, p mod M1_KV_PAGE_TOKENS) := v]> (w_mem w)))
        (log_step (c_op c) a) pages'
  | _ => represents (mkWorld s' (w_mem w)) (log_step (c_op c) a) pages'
  end.
Proof.
  intros [H Hlen Hcom Hmem] H' He. pose proof (kr_cursor _ _ H) as [Hcur _].
  destruct (c_op c) as [pg|p v|n|e|e pre t commit|next|e|e|pg auth|batch_role ps];
    cbn [effect_of log_step] in *.
  - destruct He as (_ & Hres & -> & [_ _ Hr Hc]).
    split; cbn; [done|by rewrite Hr|by rewrite Hc|].
    eapply mem_ok_sub; [done| |done]. intros q pg' Hq. rewrite vget_push in Hq.
    case_decide as Hd; [right; subst q; lia|by left].
  - destruct He as (_ & -> & -> & _ & Hr & Hc). intros pg Hpg.
    split; cbn; [done|by rewrite vlen_push, Hr, Hlen|by rewrite Hc|].
    by eapply mem_ok_write.
  - destruct He as (_ & -> & _ & Hr & Hc). split; cbn; [done|by rewrite Hr|lia|done].
  - destruct He as (_ & Hlt & -> & _ & Hr & Hc). split; cbn; [done| |by rewrite Hc|].
    + rewrite Hr. unfold vlen in *. rewrite length_take. lia.
    + eapply mem_ok_sub; [done| |by intros; eapply vget_take].
      intros q pg Hq. left. by eapply vget_take.
  - destruct He as (_ & [Hlo Hhi] & -> & _ & Hr & Hc). split; cbn; [done| |done|].
    + by rewrite vlen_take by lia.
    + eapply mem_ok_sub; [done| |by intros; eapply vget_take].
      intros q pg Hq. left. by eapply vget_take.
  - destruct He as (_ & -> & [_ _ Hr Hc]). split; cbn; [done|by rewrite Hr|by rewrite Hc|done].
  - destruct He as (_ & -> & _ & _ & Hr & Hc). split; cbn; [done|by rewrite Hr|by rewrite Hc|done].
  - destruct He as (_ & Hte & Hpos & -> & Hr & Hc & _).
    pose proof (kept_tokens _ _ H Hte Hpos) as Hk. rewrite <- Hlen in Hk.
    pose proof (kr_cover _ _ H) as Hcov. rewrite Hk.
    split; cbn; [done| |by rewrite Hc, Hcom|].
    + rewrite vlen_take, Hr; [done|]. kv_consts. lia.
    + eapply mem_ok_sub; [done| |by intros; eapply vget_take].
      intros q pg Hq. left. by eapply vget_take.
  - destruct He as (-> & [_ _ Hr Hc]). split; cbn; [done|by rewrite Hr|by rewrite Hc|done].
  - destruct He as (-> & [_ _ Hr Hc]). split; cbn; [done|by rewrite Hr|by rewrite Hc|done].
Qed.

Lemma exec_world_wp c w a pages :
  represents w a pages ->
  wp (exec_world c) w (fun w' r => exists pages',
    represents w' (match r with Ok _ => log_step (c_op c) a | Err _ => a end) pages' /\
    outcome_ok c (w_kv w) pages (w_kv w') r).
Proof.
  intros Hw. pose proof (re_rep _ _ _ Hw) as H. unfold exec_world.
  wp_step. apply wp_zoom. eapply wp_mono; [exact (exec_effect c _ _ H)|]. cbn beta.
  intros s' [[]|e] Hout.
  2:{ cbn in Hout. subst s'. exists pages. split; [|done]. destruct w; exact Hw. }
  pose proof Hout as (pages' & H' & He & _ & Hv).
  pose proof (effect_represents c w a pages s' pages' Hw H' He) as Hrep.
  destruct (c_op c) as [pg|p v|n|e|e pre t commit|next|e|e|pg auth|batch_role ps] eqn:Hop;
    try (apply wp_ret; exists pages'; by rewrite <- Hop in * ).
  wp_step. apply wp_gets. wp_step. cbn [put_kv w_kv].
  cbn in He. destruct He as (_ & Hp & _ & _ & Hr & _).
  apply (map_wp s' pages' H'); [|intros Hge; exfalso; lia].
  intros pg Hlt Hpg. unfold under. rewrite Hv. cbn [page offset].
  wp_step. apply wp_modify. apply wp_ret. exists pages'.
  split; [by apply Hrep|done].
Qed.

Lemma run_world_wp calls : forall w a pages,
  represents w a pages ->
  wp (run_world calls) w (fun w' rs => length rs = length calls /\
    exists pages', represents w' (run_log calls rs a) pages').
Proof.
  induction calls as [|c calls IH]; intros w a pages Hw; cbn [run_world].
  { apply wp_ret. split; [done|]. by exists pages. }
  wp_step. eapply wp_mono; [by apply exec_world_wp|]. cbn beta. intros w1 r (pages1 & Hw1 & _).
  wp_step. eapply wp_mono; [by eapply IH|]. cbn beta. intros w2 rs (Hl & pages2 & Hw2).
  apply wp_ret. split; [cbn; by rewrite Hl|]. exists pages2. by destruct r.
Qed.

Lemma read_world_wp w a pages p :
  represents w a pages -> kv_lifecycle (w_kv w) = Active ->
  wp (read_world (kv_request (w_kv w)) (kv_selection (w_kv w)) p) w (fun w' r =>
    w' = w /\ r = match vget (tokens a) p with
                  | Some v => Ok (Some v)
                  | None => Err LogicalPositionOutOfRange
                  end).
Proof.
  intros [H Hlen _ Hmem] Hact. unfold read_world. wp_step. apply wp_gets. cbn [id]. wp_step.
  assert (Hv : validate_active_authority (w_kv w) (kv_request (w_kv w)) (kv_selection (w_kv w)) = Ok tt)
    by (by apply validate_active_authority_ok).
  apply (map_wp _ _ H); unfold under; rewrite Hv.
  - intros pg Hlt Hpg. apply wp_ret. split; [done|]. cbn [page offset].
    destruct (vget_lt (tokens a) p) as [v Hpv]; [by rewrite Hlen|].
    rewrite Hpv. by rewrite (Hmem p pg v Hpg Hpv).
  - intros Hge. split; [done|]. destruct (vget (tokens a) p) as [v|] eqn:Hpv; [|done].
    apply vget_Some_lt in Hpv. lia.
Qed.

(** The state a request starts from. *)
Lemma kv_new_rep request selection s :
  kv_new request selection = Ok s -> kv_rep s [] /\ kv_lifecycle s = Active /\ resident_tokens s = 0 /\
    committed_tokens s = 0 /\ kv_request s = request /\ kv_selection s = selection.
Proof.
  unfold kv_new. destruct (generation request =? 0); [done|].
  destruct (dimensions _ _ _) as [dims|] eqn:Hd; [|done]. intros [= <-]. split; [|done].
  split; cbn; try done; try (kv_consts; lia).
  - exists dims. done.
  - apply NoDup_nil_2.
  - intros i Hi. unfold slot_ok, slot_at. cbn. rewrite vnth_vfill. cbn. kv_consts. lia.
Qed.
End memory.

(** ** States a request starts from *)

(** The snapshot of a page pool: one positive generation per slot. *)
Definition snapshot_ok (gens : list N) : Prop :=
  vlen gens = M1_KV_PHYSICAL_PAGE_SLOTS /\ Forall (fun g => g <= u32_max) gens.

Lemma zero_generation_loop_wp {S} gens fuel : forall position (st : S),
  vlen gens = M1_KV_PHYSICAL_PAGE_SLOTS -> position <= M1_KV_PHYSICAL_PAGE_SLOTS ->
  M1_KV_PHYSICAL_PAGE_SLOTS - position <= N.of_nat fuel ->
  wp (zero_generation_loop fuel gens position) st (fun st' b => st' = st /\
    (b = false -> forall i, position <= i < M1_KV_PHYSICAL_PAGE_SLOTS -> 0 < vnth 0 gens i)).
Proof.
  induction fuel as [|fuel IH]; intros position st Hl Hp Hf; cbn [zero_generation_loop].
  { apply wp_ret. split; [done|]. intros _ i Hi. lia. }
  destruct (N.ltb_spec position M1_KV_PHYSICAL_PAGE_SLOTS) as [Hlt|].
  2:{ apply wp_ret. split; [done|]. intros _ i Hi. lia. }
  wp_step. eapply wp_slice_at; [apply (vget_nth 0); by rewrite Hl|].
  destruct (N.eqb_spec (vnth 0 gens position) 0) as [|Hz]; [by apply wp_ret|].
  wp_step. apply wp_add_usize; [kv_consts; lia|].
  eapply wp_mono; [apply IH; lia|]. cbn. intros s' b [-> Hb]. split; [done|]. intros Hf' i Hi.
  destruct (decide (i = position)) as [->|]; [lia|]. apply Hb; [done|lia].
Qed.

Lemma phys_seed_loop_wp {S} gens fuel : forall position slots (st : S),
  vlen gens = M1_KV_PHYSICAL_PAGE_SLOTS -> vlen slots = M1_KV_PHYSICAL_PAGE_SLOTS ->
  position <= M1_KV_PHYSICAL_PAGE_SLOTS -> M1_KV_PHYSICAL_PAGE_SLOTS - position <= N.of_nat fuel ->
  (forall i, i < position -> vnth slot_free slots i = mkSlot (vnth 0 gens i) Free 0) ->
  wp (seed_loop fuel gens position slots) st (fun st' slots' => st' = st /\
    vlen slots' = M1_KV_PHYSICAL_PAGE_SLOTS /\
    forall i, i < M1_KV_PHYSICAL_PAGE_SLOTS -> vnth slot_free slots' i = mkSlot (vnth 0 gens i) Free 0).
Proof.
  induction fuel as [|fuel IH]; intros position slots st Hl Hs Hp Hf Hpre; cbn [seed_loop].
  { apply wp_ret. split; [done|]. split; [done|]. intros i Hi. apply Hpre. lia. }
  destruct (N.ltb_spec position M1_KV_PHYSICAL_PAGE_SLOTS) as [Hlt|].
  2:{ apply wp_ret. split; [done|]. split; [done|]. intros i Hi. apply Hpre. lia. }
  wp_step. eapply wp_slice_at; [apply (vget_nth 0); by rewrite Hl|].
  wp_step. apply wp_slice_set; [by rewrite Hs|].
  wp_step. apply wp_add_usize; [kv_consts; lia|].
  apply IH; [done|by rewrite vlen_vset|lia|lia|]. intros i Hi. rewrite vnth_vset by (by rewrite Hs).
  case_decide as Hd; [by subst i|]. apply Hpre. lia.
Qed.

Inductive fresh_kv (request : RequestId) (selection : Qwen3PlanSelection) (s : PhysicalKvState) : Prop :=
| fresh_new : kv_new request selection = Ok s -> fresh_kv request selection s
| fresh_seeded gens :
    snapshot_ok gens ->
    new_with_page_generations request selection gens tt = Done tt (Ok s) ->
    fresh_kv request selection s.

Lemma fresh_kv_rep request selection s :
  fresh_kv request selection s ->
  kv_rep s [] /\ kv_lifecycle s = Active /\ resident_tokens s = 0 /\ committed_tokens s = 0 /\
  kv_request s = request /\ kv_selection s = selection.
Proof.
  intros [Hn|gens [Hlen Hmax] Hn]; [by apply kv_new_rep|].
  revert Hn. unfold new_with_page_generations. destruct (generation request =? 0); [done|].
  destruct (dimensions _ _ _) as [dims|] eqn:Hd; [|done]. cbn zeta.
  assert (Hz := zero_generation_loop_wp gens (N.to_nat M1_KV_PHYSICAL_PAGE_SLOTS) 0 tt Hlen
    ltac:(kv_consts; lia) ltac:(kv_consts; lia)).
  assert (Hs := phys_seed_loop_wp gens (N.to_nat M1_KV_PHYSICAL_PAGE_SLOTS) 0
    (vfill M1_KV_PHYSICAL_PAGE_SLOTS slot_free) tt Hlen (vlen_vfill _ _)
    ltac:(kv_consts; lia) ltac:(kv_consts; lia) ltac:(intros; lia)).
  apply wp_done in Hz as ([] & b & Hz & _ & Hpos). apply wp_done in Hs as ([] & slots & Hs & _ & Hls & Hslots).
  unfold bind. rewrite Hz. destruct b; [done|]. rewrite Hs. intros [= <-]. split; [|done].
  split; cbn; try done; try (kv_consts; lia).
  - by exists dims.
  - apply NoDup_nil_2.
  - intros i Hi. unfold slot_ok, slot_at. cbn. rewrite Hslots by done. cbn. split; [|done].
    split; [by apply Hpos; [|lia]|]. rewrite Forall_forall in Hmax. apply Hmax.
    apply (list_elem_of_lookup_2 _ (N.to_nat i)). apply (vget_nth 0). by rewrite Hlen.
Qed.
