(* ===== verification/PhysicalKvLife.v ===== *)
(** How a physical KV state lives: committed tokens stay put, a cancelled
    request drains page by page unless its tail page is empty, and a settlement
    is a commit followed by rollbacks. *)
From S2P Require Import Prelude Spec PlanSelection PhysicalKv PhysicalKvInv PhysicalKvOps PhysicalKvSpec.
From S2P Require Import PhysicalKvSettle PhysicalKvBatch PhysicalKvWorld PhysicalKvMemory.
From stdpp Require Import gmap.
Local Open Scope prog_scope.
Local Open Scope N_scope.
Import Graph Completion.

(** ** Committed tokens *)
Section stable.
Context {V : Type}.

(** What an active state keeps from an earlier one: the pages and the tokens of
    the committed prefix. *)
Record keeps (s : PhysicalKvState) (pages : list PhysicalPageId) (a : kv_log (V := V))
    (s' : PhysicalKvState) (pages' : list PhysicalPageId) (a' : kv_log (V := V)) : Prop := {
  ke_active : kv_lifecycle s = Active;
  ke_committed : committed_tokens s <= committed_tokens s';
  ke_pages : forall q pg, M1_KV_PAGE_TOKENS * q < committed_tokens s ->
    vget pages q = Some pg -> vget pages' q = Some pg;
  ke_tokens : forall p v, p < committed_tokens s -> vget (tokens a) p = Some v ->
    vget (tokens a') p = Some v
}.

Lemma phys_keeps_refl s pages a : kv_lifecycle s = Active -> keeps s pages a s pages a.
Proof. intros. split; (done || lia). Qed.

Lemma keeps_trans s pages a s1 pages1 a1 s2 pages2 a2 :
  keeps s pages a s1 pages1 a1 -> keeps s1 pages1 a1 s2 pages2 a2 -> keeps s pages a s2 pages2 a2.
Proof.
  intros [? ? Hp Ht] [? ? Hp' Ht']. split; [done|lia| |].
  - intros q pg ? ?. apply Hp'; [lia|]. by apply Hp.
  - intros p v ? ?. apply Ht'; [lia|]. by apply Ht.
Qed.

Lemma vget_take_lt {A} (l : list A) n p x :
  p < n -> vget l p = Some x -> vget (take (N.to_nat n) l) p = Some x.
Proof. unfold vget. intros Hp Hx. rewrite lookup_take_lt by lia. done. Qed.

Lemma committed_page s commit q :
  committed_tokens s <= commit -> M1_KV_PAGE_TOKENS * q < committed_tokens s ->
  q < physical_page_count commit.
Proof. intros Hc Hq. pose proof (physical_page_count_spec commit). kv_consts. lia. Qed.

Lemma effect_keeps c w a pages s' pages' :
  represents (V := V) w a pages -> effect_of (c_op c) (w_kv w) pages s' pages' ->
  kv_lifecycle s' = Active ->
  keeps (w_kv w) pages a s' pages' (log_step (c_op c) a).
Proof.
  intros [H Hlen Hcom _] He Hact'. pose proof (kr_cursor _ _ H) as [Hcur _].
  destruct (c_op c) as [pg|p v|n|e|e pre t commit|next|e|e|pg auth|batch_role ps];
    cbn [effect_of log_step] in *.
  - destruct He as (Hact & _ & -> & [_ _ Hr Hc]). split; [done|lia| |done].
    intros q pg' _ Hq. rewrite vget_push. rewrite decide_False; [done|].
    apply vget_Some_lt in Hq. lia.
  - destruct He as (Hact & _ & -> & _ & Hr & Hc). split; [done|lia|done|].
    intros p' v' Hp' Hv'. cbn. rewrite vget_push. rewrite decide_False; [done|].
    apply vget_Some_lt in Hv'. lia.
  - destruct He as (Hact & -> & _ & Hr & Hc). split; [done|lia|done|done].
  - destruct He as (Hact & Hlt & -> & _ & Hr & Hc). split; [done|lia| |].
    + intros q pg Hq. apply vget_take_lt. apply (committed_page (w_kv w)); [lia|done].
    + intros p v Hp Hv. cbn. replace (length (tokens a) - 1)%nat with (N.to_nat (vlen (tokens a) - 1))
        by (unfold vlen; lia). apply vget_take_lt; [lia|done].
  - destruct He as (Hact & [Hlo Hhi] & -> & _ & Hr & Hc). split; [done|lia| |].
    + intros q pg Hq. apply vget_take_lt. by apply (committed_page (w_kv w)).
    + intros p v Hp. cbn. apply vget_take_lt. lia.
  - destruct He as (Hact & -> & [_ _ Hr Hc]). split; [done|lia|done|done].
  - destruct He as (_ & _ & _ & Hl & _). rewrite Hl in Hact'. by destruct (vlen pages =? 0).
  - destruct He as ((e' & He' & _) & _ & _ & _ & _ & _ & Hl). rewrite Hl in Hact'.
    rewrite He' in Hact'. by destruct (vlen pages =? 1).
  - destruct He as (-> & [_ Hl Hr Hc]). split; [congruence|lia|done|done].
  - destruct He as (-> & [_ Hl Hr Hc]). split; [congruence|lia|done|done].
Qed.

Lemma run_keeps calls : forall w a pages,
  represents (V := V) w a pages ->
  wp (run_world calls) w (fun w' rs => exists pages',
    represents w' (run_log calls rs a) pages' /\
    (kv_lifecycle (w_kv w') = Active ->
     keeps (w_kv w) pages a (w_kv w') pages' (run_log calls rs a))).
Proof.
  induction calls as [|c calls IH]; intros w a pages Hw; cbn [run_world].
  { apply wp_ret. exists pages. split; [done|]. apply phys_keeps_refl. }
  wp_step. eapply wp_mono; [by apply exec_world_wp|]. cbn beta. intros w1 r (pages1 & Hw1 & Hout).
  wp_step. eapply wp_mono; [by eapply IH|]. cbn beta. intros w2 rs (pages2 & Hw2 & Hk).
  apply wp_ret. exists pages2. destruct r as [[]|e]; cbn [run_log].
  - split; [done|]. intros Hact. specialize (Hk Hact).
    destruct Hout as (pages1' & Hrep1 & He & _).
    assert (pages1' = pages1) as ->.
    { pose proof (kr_table _ _ Hrep1) as H1. rewrite (kr_table _ _ (re_rep _ _ _ Hw1)) in H1.
      by eapply table_inj; [| |exact (eq_sym H1)]; [apply Hrep1|apply Hw1]. }
    eapply keeps_trans; [|exact Hk]. eapply effect_keeps; [done|done|apply Hk].
  - split; [done|]. intros Hact. cbn in Hout. rewrite <- Hout.
    assert (pages1 = pages) as <-.
    { pose proof (kr_table _ _ (re_rep _ _ _ Hw)) as H1. rewrite <- Hout in H1.
      rewrite (kr_table _ _ (re_rep _ _ _ Hw1)) in H1.
      by eapply table_inj; [| |exact H1]; [apply Hw1|apply Hw]. }
    by apply Hk.
Qed.
End stable.

(** ** Draining a cancelled request *)

(** Retiring the tail [n] times: the pages in the order they go. *)
Fixpoint retire_all (n : nat) (request : RequestId) (selection : Qwen3PlanSelection)
    (epoch : CompletionEpoch) : M PhysicalKvState (result (list PhysicalPageId) PhysicalKvError) :=
  match n with
  | O => ret (Ok [])
  | S n' =>
      let? page := retire_cancelled_tail request selection epoch in
      let? rest := retire_all n' request selection epoch in
      ret (Ok (page :: rest))
  end.

(** A cancelled state after some of its pages have been retired. *)
Record drained (s : PhysicalKvState) (pages : list PhysicalPageId) (epoch : CompletionEpoch)
    (s' : PhysicalKvState) : Prop := {
  dr_rep : kv_rep s' [];
  dr_request : kv_request s' = kv_request s;
  dr_selection : kv_selection s' = kv_selection s;
  dr_life : kv_lifecycle s' = RetiredAwaitingQuiescence epoch;
  dr_retired : forall p pg, vget pages p = Some pg -> exists k,
    slot_at s' (pp_index pg) =
      mkSlot (pp_generation pg) (Retired (kv_request s) (kv_role s) epoch) k;
  dr_other : forall i, i ∉ pp_index <$> pages -> slot_at s' i = slot_at s i
}.

Lemma drop_tail_slot s pre pg life c epoch k i :
  kv_rep s (pre ++ [pg]) ->
  slot_at (drop_tail s pre pg life c epoch k) i =
    if decide (i = pp_index pg) then mkSlot (pp_generation pg) (Retired (kv_request s) (kv_role s) epoch) k
    else slot_at s i.
Proof.
  intros H. destruct (kr_page _ _ H (vlen pre) pg) as (_ & Hi & _).
  { rewrite vget_push. by case_decide. }
  unfold drop_tail. by rewrite slot_at_kv_at, (vnth_put _ _ _ _ _ H Hi).
Qed.

Lemma last_fresh s pre pg : kv_rep s (pre ++ [pg]) -> pp_index pg ∉ pp_index <$> pre.
Proof.
  intros H. pose proof (kr_nodup _ _ H) as Hnd. rewrite fmap_app in Hnd.
  apply NoDup_app in Hnd as (_ & Hd & _). intros Hin. apply (Hd _ Hin). cbn. set_solver.
Qed.

Lemma retire_all_wp pages : forall s epoch,
  kv_rep s pages -> 0 < vlen pages -> kv_lifecycle s = Cancelled epoch -> tail_empty s = false ->
  wp (retire_all (length pages) (kv_request s) (kv_selection s) epoch) s (fun s' r =>
    r = Ok (reverse pages) /\ drained s pages epoch s').
Proof.
  induction pages as [|pg pre IH] using rev_ind; intros s epoch H Hpos Hl Hte; [done|].
  rewrite length_app. cbn [length]. rewrite Nat.add_comm. cbn [retire_all Nat.add].
  assert (Hd : retire_decision s (kv_request s) (kv_selection s) epoch = Ok tt).
  { unfold retire_decision. rewrite Hl, N.eqb_refl, same_request_refl, Hte. cbn [negb].
    by rewrite (proj2 (selection_matches_spec _ _) eq_refl). }
  wp_step. apply (phys_retire_wp s (pre ++ [pg]) H); [by rewrite Hd|].
  intros pre' pg' s1 _ [<- Hpg]%app_inj_2 Hs1 Hrep1; [|done]. injection Hpg as <-.
  assert (Hslot1 : forall i, slot_at s1 i = if decide (i = pp_index pg)
      then mkSlot (pp_generation pg) (Retired (kv_request s) (kv_role s) epoch)
             (resident_tokens s - M1_KV_PAGE_TOKENS * vlen pre)
      else slot_at s i).
  { intros i. subst s1. by apply drop_tail_slot. }
  pose proof (last_fresh _ _ _ H) as Hfresh.
  rewrite reverse_snoc. destruct (decide (vlen pre = 0)) as [Hz|Hnz].
  - assert (pre = []) as -> by (destruct pre; [done|unfold vlen in Hz; cbn in Hz; lia]).
    cbn [length retire_all]. wp_step. apply wp_ret. apply wp_ret. split; [done|].
    split; [done|by subst s1|by subst s1|by subst s1| |].
    + intros p pg' Hp. eexists.
      rewrite vget_push in Hp. case_decide; [|by unfold vget in Hp]. injection Hp as <-.
      by rewrite Hslot1, decide_True.
    + intros i [Hne _]%in_push. by rewrite Hslot1, decide_False.
  - wp_step. eapply wp_mono; [|cbn beta].
    { replace (kv_request s) with (kv_request s1) by (by subst s1).
      replace (kv_selection s) with (kv_selection s1) by (by subst s1).
      apply IH; [done|lia| |].
      - subst s1. cbn. by rewrite (proj2 (N.eqb_neq _ _) Hnz).
      - subst s1. unfold tail_empty. cbn. apply N.eqb_neq. kv_consts. lia. }
    intros s2 r [-> [Hr2 Hq Hs Hl2 Hret Hoth]]. apply wp_ret. split; [done|].
    assert (Hq1 : kv_request s1 = kv_request s) by (by subst s1).
    assert (Hr1 : kv_role s1 = kv_role s) by (by subst s1).
    split; [done|by rewrite Hq|by rewrite Hs; subst s1|done| |].
    + intros p pg' Hp. rewrite vget_push in Hp. case_decide.
      * injection Hp as <-. eexists. by rewrite (Hoth _ Hfresh), Hslot1, decide_True.
      * rewrite <- Hq1, <- Hr1. by apply (Hret p).
    + intros i [Hne Hin]%in_push. by rewrite (Hoth _ Hin), Hslot1, decide_False.
Qed.

(** ** The empty tail page *)

Definition stuck (s : PhysicalKvState) (epoch : CompletionEpoch) : Prop :=
  kv_lifecycle s = Cancelled epoch /\ tail_empty s = true.

Lemma effect_stuck {V} (o : kv_op V) s pages s' pages' epoch :
  kv_rep s pages -> kv_rep s' pages' -> effect_of o s pages s' pages' -> stuck s epoch -> stuck s' epoch.
Proof.
  intros H H' He [Hl Hte].
  assert (Hframe : pages' = pages -> same_cursors s s' -> stuck s' epoch).
  { intros -> [_ Hl' Hr _]. split; [congruence|]. unfold tail_empty in *.
    by rewrite Hr, (kr_count _ _ H'), <- (kr_count _ _ H). }
  destruct o as [pg|p v|n|e|e pre t commit|next|e|e|pg auth|batch_role ps]; cbn [effect_of] in He;
    try (destruct He as [Hact _]; congruence).
  - destruct He as (_ & Hte' & _). congruence.
  - destruct He. by apply Hframe.
  - destruct He. by apply Hframe.
Qed.

(** A world whose metadata is well formed, whatever the memory holds. *)
Lemma exec_world_wf {V} (c : kv_call V) w pages :
  kv_rep (w_kv w) pages ->
  wp (exec_world c) w (fun w' r => outcome_ok c (w_kv w) pages (w_kv w') r).
Proof.
  intros H. unfold exec_world. wp_step. apply wp_zoom.
  eapply wp_mono; [exact (exec_effect c _ _ H)|]. cbn beta. intros s' [[]|e] Hout; [|done].
  pose proof Hout as (pages' & H' & He & _ & Hv).
  destruct (c_op c) as [pg|p v|n|e|e pre t commit|next|e|e|pg auth|batch_role ps] eqn:Hop;
    try (by apply wp_ret).
  cbn in He. destruct He as (_ & Hp & _ & _ & Hr & _).
  wp_step. apply wp_gets. wp_step. cbn [put_kv w_kv].
  apply (map_wp s' pages' H'); [|intros Hge; exfalso; lia].
  intros pg Hlt Hpg. unfold under. rewrite Hv. wp_step. apply wp_modify. by apply wp_ret.
Qed.

Lemma run_stuck_wf {V} (calls : list (kv_call V)) : forall w pages epoch,
  kv_rep (w_kv w) pages -> stuck (w_kv w) epoch ->
  wp (run_world calls) w (fun w' rs => kv_wf (w_kv w') /\ stuck (w_kv w') epoch).
Proof.
  induction calls as [|c calls IH]; intros w pages epoch Hw Hs; cbn [run_world].
  { apply wp_ret. split; [by exists pages|done]. }
  wp_step. eapply wp_mono; [by eapply exec_world_wf|]. cbn beta. intros w1 r Hout.
  assert (Hs1 : exists pages1, kv_rep (w_kv w1) pages1 /\ stuck (w_kv w1) epoch).
  { destruct r as [[]|e]; cbn in Hout; [|by rewrite Hout; exists pages].
    destruct Hout as (pages1 & Hrep & He & _). exists pages1. split; [done|].
    exact (effect_stuck _ _ _ _ _ _ Hw Hrep He Hs). }
  destruct Hs1 as (pages1 & Hw1 & Hs1).
  wp_step. eapply wp_mono; [by eapply IH|]. cbn beta. intros w2 rs Hs2. by apply wp_ret.
Qed.

(** ** Settlement as commit and rollback *)

Fixpoint rollback_n (n : nat) (request : RequestId) (selection : Qwen3PlanSelection)
    (epoch : CompletionEpoch) : M PhysicalKvState (result unit PhysicalKvError) :=
  match n with
  | O => ret (Ok tt)
  | S n' =>
      let? _ := rollback_physical_token request selection epoch in
      rollback_n n' request selection epoch
  end.

(** Two slots that differ at most in the prefix a retired page remembers. *)
Definition slot_agrees (x y : PhysicalPageSlot) : Prop :=
  ps_generation x = ps_generation y /\ ownership x = ownership y /\
  (initialized_prefix x = initialized_prefix y \/
   match ownership x with Retired _ _ _ => True | _ => False end).

Record kv_agrees (s s' : PhysicalKvState) : Prop := {
  ag_owner : same_owner s s';
  ag_resident : resident_tokens s' = resident_tokens s;
  ag_committed : committed_tokens s' = committed_tokens s;
  ag_count : page_count s' = page_count s;
  ag_table : page_table s' = page_table s;
  ag_slots : forall i, slot_agrees (slot_at s i) (slot_at s' i)
}.

(** After rolling back to [t]: the pages past it are retired. *)
Record rolled (s : PhysicalKvState) (pages : list PhysicalPageId) (epoch : CompletionEpoch)
    (t : N) (s' : PhysicalKvState) : Prop := {
  ro_owner : same_owner s s';
  ro_resident : resident_tokens s' = t;
  ro_committed : committed_tokens s' = committed_tokens s;
  ro_rep : kv_rep s' (take (N.to_nat (physical_page_count t)) pages);
  ro_retired : forall p pg, vget pages p = Some pg -> physical_page_count t <= p -> exists k,
    slot_at s' (pp_index pg) =
      mkSlot (pp_generation pg) (Retired (kv_request s) (kv_role s) epoch) k;
  ro_other : forall i, i ∉ pp_index <$> pages -> slot_at s' i = slot_at s i
}.

Lemma rolled_start s pages epoch :
  kv_rep s pages -> tail_empty s = false -> rolled s pages epoch (resident_tokens s) s.
Proof.
  intros H Hte. destruct (settled_all s pages epoch H Hte) as [_ _ _ Hrep Hret _].
  assert (Hall : take (N.to_nat (physical_page_count (resident_tokens s))) pages = pages).
  { apply take_all_pages. pose proof (physical_page_count_spec (resident_tokens s)).
    pose proof (kr_cover _ _ H). unfold tail_empty in Hte. apply N.eqb_neq in Hte.
    rewrite (kr_count _ _ H) in Hte. kv_consts. lia. }
  split; try done; [by rewrite Hall|].
  intros p pg Hp Hge. specialize (Hret p pg Hp Hge). apply vget_Some_lt in Hp.
  apply (f_equal vlen) in Hall. unfold vlen in *. rewrite length_take in Hall. lia.
Qed.

Lemma vget_take_inv {A} (l : list A) n p x :
  vget (take (N.to_nat n) l) p = Some x -> p < n /\ vget l p = Some x.
Proof. unfold vget. intros [? ?]%lookup_take_Some. by split; [lia|]. Qed.

(** One more rollback. *)
Lemma rolled_step s pages epoch t s' :
  kv_rep s pages -> kv_lifecycle s = Active -> 0 < value epoch ->
  rolled s pages epoch t s' -> committed_tokens s < t ->
  wp (rollback_physical_token (kv_request s) (kv_selection s) epoch) s' (fun s'' r =>
    r = Ok tt /\ rolled s pages epoch (t - 1) s'').
Proof.
  intros H Hact He [[Hq Hs Hl Hm] Hr Hc Hrep Hret Hoth] Ht.
  set (kept := take (N.to_nat (physical_page_count t)) pages) in *.
  pose proof (physical_page_count_spec t) as Hpc.
  assert (Hd : under s' (kv_request s) (kv_selection s) (rollback_decision s' epoch) = Ok tt).
  { unfold under. rewrite (proj2 (validate_active_authority_ok _ _ _)) by (rewrite Hl, Hq, Hs; done).
    unfold rollback_decision. rewrite (proj2 (N.eqb_neq _ 0)) by lia.
    rewrite (proj2 (N.eqb_neq _ (committed_tokens s'))) by lia.
    assert (tail_empty s' = false) as ->; [|done].
    unfold tail_empty. apply N.eqb_neq. rewrite Hr, (kr_count _ _ Hrep).
    assert (vlen kept <= physical_page_count t).
    { unfold kept, vlen. rewrite length_take. lia. }
    kv_consts. lia. }
  apply (rollback_wp s' kept Hrep); [by rewrite Hd|].
  intros pre pg s'' _ Hk Hlt Hs'' Hrep''. split; [done|].
  pose proof (kr_cover _ _ Hrep) as Hcov. rewrite Hk, vlen_push in Hcov.
  pose proof (physical_page_count_last t (vlen pre)) as Hpl. rewrite Hr in *.
  specialize (Hpl ltac:(kv_consts; lia)).
  assert (Hpt : physical_page_count t = vlen pre + 1) by (kv_consts; lia).
  assert (Hpg : vget pages (vlen pre) = Some pg).
  { apply (vget_take_inv pages (physical_page_count t)). fold kept. rewrite Hk, vget_push.
    by rewrite decide_True. }
  assert (Hpre : take (N.to_nat (vlen pre)) pages = pre).
  { transitivity (take (N.to_nat (vlen pre)) kept); [|rewrite Hk; apply take_pre].
    unfold kept. rewrite take_take. f_equal. lia. }
  assert (Hsel : same_owner s s'').
  { rewrite Hs''. destruct (t =? _); split; (done || cbn; congruence). }
  assert (Hrole : kv_role s' = kv_role s) by (unfold kv_role; by rewrite Hs).
  rewrite Hk in Hrep. revert Hs'' Hrep'' Hpl.
  destruct (N.eqb_spec t (M1_KV_PAGE_TOKENS * vlen pre + 1)) as [Hone|Hmany]; intros Hs'' Hrep'' Hpl.
  - assert (Hslot : forall i, slot_at s'' i = if decide (i = pp_index pg)
      then mkSlot (pp_generation pg) (Retired (kv_request s) (kv_role s) epoch) 1 else slot_at s' i).
    { intros i. rewrite Hs'', <- Hq, <- Hrole. by apply drop_tail_slot. }
    split; [done|rewrite Hs''; cbn; lia|by rewrite Hs''|by rewrite Hpl, Hpre| |].
    + intros p pg' Hp Hge. destruct (decide (p = vlen pre)) as [->|Hne].
      * rewrite Hpg in Hp. injection Hp as <-. exists 1. by rewrite Hslot, decide_True.
      * destruct (Hret p pg' Hp) as [k Hk']; [rewrite Hpt; lia|]. exists k.
        rewrite Hslot, decide_False; [done|]. intros Heq. apply Hne, N2Nat.inj.
        apply (NoDup_lookup _ _ _ (pp_index pg) (kr_nodup _ _ H)); rewrite list_lookup_fmap;
          unfold vget in *; [by rewrite Hp; cbn; rewrite Heq|by rewrite Hpg].
    + intros i Hi. rewrite Hslot, decide_False; [by apply Hoth|]. intros ->. apply Hi.
      apply list_elem_of_fmap_2. by apply (list_elem_of_lookup_2 pages) in Hpg.
  - assert (Hslot : forall i, i <> pp_index pg -> slot_at s'' i = slot_at s' i).
    { intros i Hi. rewrite Hs''. unfold with_tail.
      destruct (kr_page _ _ Hrep (vlen pre) pg) as (_ & Hib & _).
      { rewrite vget_push. by case_decide. }
      rewrite slot_at_kv_at, (vnth_put _ _ _ _ _ Hrep Hib). by rewrite decide_False. }
    rewrite Hk in Hrep''.
    split; [done|by rewrite Hs''|by rewrite Hs''| | |].
    + rewrite Hpl. unfold kept in Hk. rewrite Hpt in Hk. by rewrite Hk.
    + intros p pg' Hp Hge. rewrite Hpl in Hge. destruct (Hret p pg' Hp) as [k Hk']; [lia|].
      exists k. rewrite Hslot; [done|]. intros Heq. assert (p = vlen pre); [|lia]. apply N2Nat.inj.
      apply (NoDup_lookup _ _ _ (pp_index pg) (kr_nodup _ _ H)); rewrite list_lookup_fmap;
        unfold vget in *; [by rewrite Hp; cbn; rewrite Heq|by rewrite Hpg].
    + intros i Hi. rewrite Hslot; [by apply Hoth|]. intros ->. apply Hi.
      apply list_elem_of_fmap_2. by apply (list_elem_of_lookup_2 pages) in Hpg.
Qed.

Lemma rollback_n_wp n : forall s pages epoch t s',
  kv_rep s pages -> kv_lifecycle s = Active -> 0 < value epoch ->
  rolled s pages epoch t s' -> committed_tokens s + N.of_nat n <= t ->
  wp (rollback_n n (kv_request s) (kv_selection s) epoch) s' (fun s'' r =>
    r = Ok tt /\ rolled s pages epoch (t - N.of_nat n) s'').
Proof.
  induction n as [|n IH]; intros s pages epoch t s' H Hact He Hro Ht; cbn [rollback_n].
  { apply wp_ret. split; [done|]. by rewrite N.sub_0_r. }
  wp_step. eapply wp_mono; [apply (rolled_step s pages epoch t s'); [done..|lia]|].
  cbn beta. intros s'' r [-> Hro']. eapply wp_mono; [apply (IH s pages epoch (t - 1)); [done..|lia]|].
  cbn beta. intros s3 r [-> Hro3]. split; [done|].
  by replace (t - N.of_nat (S n)) with (t - 1 - N.of_nat n) by lia.
Qed.

(** A settlement and the rollbacks end in the same state, up to the prefix a
    retired page remembers. *)
Lemma settled_rolled_agree s s0 pages epoch c s1 s2 :
  kv_rep s pages -> same_owner s s0 -> kv_rep s0 pages ->
  (forall i, slot_at s0 i = slot_at s i) -> committed_tokens s0 = c ->
  settled s pages epoch c s1 -> rolled s0 pages epoch c s2 -> kv_agrees s1 s2.
Proof.
  intros H [Hq0 Hs0 Hl0 Hm0] H0 Hslot0 Hc0 [[Hq1 Hs1 Hl1 Hm1] Hr1 Hc1 Hrep1 Hret1 Hoth1]
    [[Hq2 Hs2 Hl2 Hm2] Hr2 Hc2 Hrep2 Hret2 Hoth2].
  assert (Hrole : forall x y, kv_selection x = kv_selection y -> kv_role x = kv_role y)
    by (intros x y Hxy; unfold kv_role; by rewrite Hxy).
  split; [split; congruence|congruence|congruence| | |].
  - by rewrite (kr_count _ _ Hrep1), (kr_count _ _ Hrep2).
  - by rewrite (kr_table _ _ Hrep1), (kr_table _ _ Hrep2).
  - intros i. destruct (decide (i ∈ pp_index <$> pages)) as [Hin|Hout].
    2:{ rewrite (Hoth1 i Hout), (Hoth2 i Hout), Hslot0. split; [done|]. split; [done|by left]. }
    apply list_elem_of_fmap in Hin as (pg & -> & [p Hp]%list_elem_of_lookup).
    assert (Hget : vget pages (N.of_nat p) = Some pg) by (unfold vget; by rewrite Nat2N.id).
    destruct (N.lt_ge_cases (N.of_nat p) (physical_page_count c)) as [Hlt|Hge].
    + pose proof (vget_take_lt _ _ _ _ Hlt Hget) as Hk.
      destruct (kr_page _ _ Hrep1 _ _ Hk) as (_ & _ & _ & ->).
      destruct (kr_page _ _ Hrep2 _ _ Hk) as (_ & _ & _ & ->).
      rewrite Hr1, Hr2, Hq1, Hq2, Hq0, (Hrole s1 s), (Hrole s2 s) by congruence.
      split; [done|]. split; [done|by left].
    + rewrite (Hret1 _ _ Hget Hge). destruct (Hret2 _ _ Hget Hge) as [k ->].
      rewrite Hq0, (Hrole s0 s) by congruence. split; [done|]. split; [done|by right].
Qed.

(** Committing the accepted tokens and rolling back the rest, one call at a
    time. *)
Definition commit_then_rollback (request : RequestId) (selection : Qwen3PlanSelection)
    (epoch : CompletionEpoch) (accepted : N) (rejected : nat) :
    M PhysicalKvState (result unit PhysicalKvError) :=
  let? _ := commit_physical_kv request selection accepted in
  rollback_n rejected request selection epoch.

Lemma commit_then_rollback_wp s pages epoch c :
  kv_rep s pages -> kv_lifecycle s = Active -> 0 < value epoch -> tail_empty s = false ->
  committed_tokens s <= c <= resident_tokens s ->
  let s0 := set_cursors (resident_tokens s) c s in
  wp (commit_then_rollback (kv_request s) (kv_selection s) epoch (c - committed_tokens s)
        (N.to_nat (resident_tokens s - c))) s
    (fun s2 r => r = Ok tt /\ rolled s0 pages epoch c s2).
Proof.
  intros H Hact He Hte Hc s0. unfold commit_then_rollback. wp_step.
  assert (Hv : validate_active_authority s (kv_request s) (kv_selection s) = Ok tt)
    by (by apply validate_active_authority_ok).
  assert (Hd : commit_decision s (c - committed_tokens s) = Ok tt).
  { unfold commit_decision. by rewrite (proj2 (N.ltb_ge _ _)) by lia. }
  apply (phys_commit_wp s pages H); unfold under; rewrite Hv, Hd; [done|]. intros _.
  replace (committed_tokens s + (c - committed_tokens s)) with c by lia. fold s0.
  assert (H0 : kv_rep s0 pages) by (apply rep_cursor; [done|lia]).
  eapply wp_mono; [apply (rollback_n_wp _ s0 pages epoch (resident_tokens s)); try done|].
  - by apply (rolled_start s0 pages).
  - cbn. lia.
  - cbn beta. intros s2 r [-> Hro]. split; [done|].
    by replace (resident_tokens s - N.of_nat (N.to_nat (resident_tokens s - c))) with c in Hro by lia.
Qed.

(** ** Translation of a resident position *)
Lemma page_of_resident s pages p :
  kv_rep s pages -> p < resident_tokens s -> exists pg, vget pages (p / M1_KV_PAGE_TOKENS) = Some pg.
Proof.
  intros H Hp. apply vget_lt. pose proof (kr_cover _ _ H).
  apply N.Div0.div_lt_upper_bound. lia.
Qed.

Lemma map_at_done s pages (H : kv_rep s pages) p pg :
  kv_lifecycle s = Active -> p < resident_tokens s ->
  vget pages (p / M1_KV_PAGE_TOKENS) = Some pg ->
  map_initialized_token s (kv_request s) (kv_selection s) p tt =
    Done tt (Ok (mkLocation pg (p mod M1_KV_PAGE_TOKENS))).
Proof.
  intros Hact Hp Hpg.
  assert (Hv : validate_active_authority s (kv_request s) (kv_selection s) = Ok tt)
    by (by apply validate_active_authority_ok).
  assert (Hm : wp (map_initialized_token s (kv_request s) (kv_selection s) p) tt (fun st r =>
    r = Ok (mkLocation pg (p mod M1_KV_PAGE_TOKENS)))).
  { apply (map_wp s pages H); unfold under; rewrite Hv; [|lia]. intros pg' _ Hpg'. congruence. }
  apply wp_done in Hm as ([] & r & -> & ->). done.
Qed.
