(* ===== verification/PhysicalKvTheorems.v ===== *)
(** The theorems of the physical KV contract. *)
From S2P Require Import Prelude Spec PlanSelection PhysicalKv PhysicalKvInv PhysicalKvOps PhysicalKvSpec.
From S2P Require Import PhysicalKvSettle PhysicalKvBatch PhysicalKvWorld PhysicalKvMemory PhysicalKvLife.
From stdpp Require Import gmap.
Local Open Scope prog_scope.
Local Open Scope N_scope.
Import Graph Completion.

Lemma fresh_represents {V} (request : RequestId) (selection : Qwen3PlanSelection) (s : PhysicalKvState)
    (mem : gmap (N * N) V) :
  fresh_kv request selection s -> represents (mkWorld s mem) (mkLog [] 0) [].
Proof.
  intros (H & _ & Hr & Hc & _)%fresh_kv_rep. split; cbn; [done|by rewrite Hr|by rewrite Hc|].
  intros p pg v _ Hv. by unfold vget in Hv.
Qed.

Lemma run_done {S A} (m : M S A) s s' a (Q : S -> A -> Prop) : m s = Done s' a -> wp m s Q -> Q s' a.
Proof. unfold wp. by intros ->. Qed.

(** C0: The page table implements a token log over device memory. From a new
    request, whatever calls are made and whichever are refused, no call
    panics, the resident and committed counts are those of the log that the
    accepted calls describe (writes append, rollbacks and settlements cut,
    retirements drop a page), and while the request is active reading any
    position through the page table gives exactly the token state the log
    holds there. *)
Theorem kv_memory_refines_log {V} (request : RequestId) (selection : Qwen3PlanSelection)
    (s : PhysicalKvState) (mem : gmap (N * N) V) (calls : list (kv_call V)) :
  fresh_kv request selection s ->
  wp (run_world calls) (mkWorld s mem) (fun w rs =>
    let a := run_log calls rs (mkLog [] 0) in
    length rs = length calls /\ kv_wf (w_kv w) /\
    resident_tokens (w_kv w) = vlen (tokens a) /\ committed_tokens (w_kv w) = committed a /\
    (kv_lifecycle (w_kv w) = Active -> forall p,
       read_world (kv_request (w_kv w)) (kv_selection (w_kv w)) p w =
         Done w (match vget (tokens a) p with
                 | Some v => Ok (Some v)
                 | None => Err LogicalPositionOutOfRange
                 end))).
Proof.
  intros Hnew. eapply wp_mono; [by eapply run_world_wp, fresh_represents|].
  cbn beta. intros w rs (Hl & pages & Hw). split; [done|]. split; [exists pages; apply Hw|].
  split; [symmetry; apply Hw|]. split; [symmetry; apply Hw|].
  intros Hact p. destruct (wp_done _ _ _ (read_world_wp w _ pages p Hw Hact)) as (w' & r & -> & -> & ->).
  done.
Qed.

(** C0: A committed token keeps its place. Between two points of a run, as long
    as the request is still active at the second, every position committed at
    the first is translated to the same page, generation and offset, and the
    memory there holds what it held. *)
Theorem kv_committed_stable {V} (request : RequestId) (selection : Qwen3PlanSelection)
    (s : PhysicalKvState) (mem : gmap (N * N) V)
    (calls1 calls2 : list (kv_call V)) :
  fresh_kv request selection s ->
  wp (run_world calls1) (mkWorld s mem) (fun w1 _ =>
    wp (run_world calls2) w1 (fun w2 _ =>
      kv_lifecycle (w_kv w2) = Active -> forall p, p < committed_tokens (w_kv w1) ->
      exists loc v,
        map_initialized_token (w_kv w1) (kv_request (w_kv w1)) (kv_selection (w_kv w1)) p tt =
          Done tt (Ok loc) /\
        map_initialized_token (w_kv w2) (kv_request (w_kv w2)) (kv_selection (w_kv w2)) p tt =
          Done tt (Ok loc) /\
        w_mem w1 !! (pp_index (page loc), offset loc) = Some v /\
        w_mem w2 !! (pp_index (page loc), offset loc) = Some v)).
Proof.
  intros Hnew. eapply wp_mono; [by eapply run_world_wp, fresh_represents|].
  cbn beta. intros w1 rs1 (_ & pages1 & Hw1).
  eapply wp_mono; [by eapply run_keeps|]. cbn beta. intros w2 rs2 (pages2 & Hw2 & Hk) Hact2 p Hp.
  specialize (Hk Hact2). destruct Hk as [Hact1 Hcom Hpages Htok].
  destruct Hw1 as [H1 Hlen1 Hc1 Hm1]. destruct Hw2 as [H2 Hlen2 Hc2 Hm2].
  pose proof (kr_cursor _ _ H1) as [Hcur1 _]. pose proof (kr_cursor _ _ H2) as [Hcur2 _].
  destruct (vget_lt (tokens (run_log calls1 rs1 (mkLog [] 0))) p) as [v Hv]; [lia|].
  pose proof (page_of_resident _ _ p H1 ltac:(lia)) as [pg Hpg].
  assert (Hq : M1_KV_PAGE_TOKENS * (p / M1_KV_PAGE_TOKENS) < committed_tokens (w_kv w1)).
  { destruct (page_position p) as [Hd _]. clear Hpg.
    remember (p / M1_KV_PAGE_TOKENS) as q eqn:Hq. remember (p mod M1_KV_PAGE_TOKENS) as r eqn:Hr.
    clear Hq Hr. kv_consts. lia. }
  exists (mkLocation pg (p mod M1_KV_PAGE_TOKENS)), v.
  split; [by apply (map_at_done _ _ H1); [|lia|]|].
  split; [apply (map_at_done _ _ H2); [done|lia|by apply Hpages]|]. cbn [page offset].
  split; [by apply Hm1|]. apply Hm2; [by apply Hpages|by apply Htok].
Qed.

(** The outcome of an operation that either refuses and changes nothing, or
    succeeds. *)
Definition decides {A} (m : M PhysicalKvState (result A PhysicalKvError)) (s : PhysicalKvState)
    (d : result unit PhysicalKvError) : Prop :=
  wp m s (fun s' r =>
    match d, r with
    | Ok _, Ok _ => kv_wf s'
    | Err e, Err e' => e' = e /\ s' = s
    | _, _ => False
    end).

(** C0: On a well-formed state each operation is exactly its short decision:
    the identity, generation, ownership and aliasing checks the code repeats on
    pages it has already bound never fail, every refusal has the one cause the
    decision names and leaves the state as it was, and every success keeps the
    state well formed. *)
Theorem kv_decisions s :
  kv_wf s ->
  forall request selection,
  (forall page, decides (append_physical_page request selection page) s
     (under s request selection (append_decision s page))) /\
  (forall p, decides (write_physical_token request selection p) s
     (under s request selection (write_decision s p))) /\
  (forall n, decides (commit_physical_kv request selection n) s
     (under s request selection (commit_decision s n))) /\
  (forall e, decides (rollback_physical_token request selection e) s
     (under s request selection (rollback_decision s e))) /\
  (forall e, decides (retire_cancelled_tail request selection e) s
     (retire_decision s request selection e)) /\
  (forall page authority, decides (release_retired_page page authority) s
     (release_decision s page authority)) /\
  (forall e pre t c, wp (preflight_physical_speculative_settlement s request selection e pre t c) tt
     (fun _ r => match r with Ok _ => Ok tt | Err e => Err e end =
                 under s request selection (settlement_decision s e pre t c))).
Proof.
  intros [pages H] request selection. unfold decides.
  repeat split; intros.
  - apply (append_wp s pages H); [by intros e -> |]. intros s' -> _ _ _ ?. by eexists.
  - apply (write_wp s pages H); [by intros e -> |]. intros pre pg -> _ _ _ ?. by eexists.
  - apply (phys_commit_wp s pages H); [by intros e -> |]. intros Hd. rewrite Hd. apply under_ok in Hd as (_ & _ & _ & Hd).
    exists pages. unfold commit_decision in Hd.
    destruct (N.ltb_spec (resident_tokens s) (committed_tokens s + n)); [done|]. by apply rep_cursor.
  - apply (rollback_wp s pages H); [by intros e' -> |]. intros pre pg s' -> _ _ _ ?. by eexists.
  - apply (phys_retire_wp s pages H); [by intros e' -> |]. intros pre pg s' -> _ _ ?. by eexists.
  - apply (phys_release_wp s pages H); [by intros e' -> |]. intros s' -> _ ?. by eexists.
  - apply (phys_preflight_wp s pages H); [by intros e' -> |]. by intros ->.
Qed.

(** C0: Settling a speculative round in one step is committing the accepted
    tokens and rolling back the rejected ones one by one: whenever the check
    passes, both ways succeed and end in the same state, up to the prefix
    recorded on a retired page. *)
Theorem kv_settlement_is_rollback s request selection epoch c permit :
  kv_wf s ->
  preflight_physical_speculative_settlement s request selection epoch (committed_tokens s)
    (resident_tokens s) c tt = Done tt (Ok permit) ->
  exists s1 s2,
    apply_preflighted_physical_speculative_settlement permit s = Done s1 tt /\
    commit_then_rollback request selection epoch (c - committed_tokens s)
      (N.to_nat (resident_tokens s - c)) s = Done s2 (Ok tt) /\
    kv_agrees s1 s2 /\ resident_tokens s1 = c /\ committed_tokens s1 = c /\ kv_wf s1.
Proof.
  intros [pages H] Hpre.
  assert (Hp : under s request selection (settlement_decision s epoch (committed_tokens s) (resident_tokens s) c) = Ok tt /\
    permit = permit_of s pages request selection epoch c).
  { apply (run_done _ _ _ _ (fun _ r => forall p, r = Ok p ->
      under s request selection (settlement_decision s epoch (committed_tokens s) (resident_tokens s) c) = Ok tt /\
      p = permit_of s pages request selection epoch c) Hpre); [|done].
    apply (phys_preflight_wp s pages H); [done|]. intros Hd p [= <-]. done. }
  destruct Hp as [Hd ->]. pose proof Hd as (Hact & -> & -> & Hd')%under_ok.
  unfold settlement_decision in Hd'. destruct (N.eqb_spec (value epoch) 0) as [|He]; [done|].
  rewrite !N.eqb_refl in Hd'. cbn [negb] in Hd'.
  destruct (N.ltb_spec c (committed_tokens s)); [done|].
  destruct (N.ltb_spec (resident_tokens s) c); [done|]. cbn [orb] in Hd'.
  destruct (M1_KV_PAGE_TOKENS <? resident_tokens s - c); [done|].
  destruct (tail_empty s) eqn:Hte; [done|].
  destruct (wp_done _ _ _ (apply_settlement_wp s pages _ _ epoch c (fun s' _ => settled s pages epoch c s') H Hd (fun s' Hs => Hs)))
    as (s1 & [] & Hs1 & Hset).
  destruct (wp_done _ _ _ (commit_then_rollback_wp s pages epoch c H Hact ltac:(lia) Hte ltac:(lia)))
    as (s2 & r & Hs2 & -> & Hro).
  exists s1, s2. split; [done|]. split; [done|].
  split; [|split; [apply Hset|split; [apply Hset|eexists; apply Hset]]].
  eapply settled_rolled_agree; [exact H| | | | |exact Hset|exact Hro]; try done.
  apply rep_cursor; [done|lia].
Qed.

(** C0: Committing a checked retirement batch is releasing its pages one by
    one, each under the quiescence of its own epoch: the roster check passes
    exactly when all the releases would succeed, and then both end in the same
    state. *)
Theorem kv_batch_is_releases s request batch_role ps :
  kv_wf s ->
  match preflight_retired_page_metadata_batch_v1 s request batch_role ps tt with
  | Done _ (Ok mask) => exists s',
      commit_batch mask s = Done s' tt /\
      release_each request batch_role ps s = Done s' (Ok tt) /\ kv_wf s'
  | Done _ (Err _) =>
      request = kv_request s -> batch_role = kv_role s ->
      exists s' e, release_each request batch_role ps s = Done s' (Err e)
  | Panic => False
  end.
Proof.
  intros [pages H].
  assert (Hwp : wp (preflight_retired_page_metadata_batch_v1 s request batch_role ps) tt (fun _ r =>
    match r with
    | Ok mask => request = kv_request s /\ batch_role = kv_role s /\ roster_ok s ps /\ mask_of ps mask
    | Err _ => ~ (request = kv_request s /\ batch_role = kv_role s /\ roster_ok s ps)
    end)) by (by apply (preflight_batch_wp s pages)).
  apply wp_done in Hwp as (u & r & -> & Hr).
  assert (Heach : wp (release_each (kv_request s) (kv_role s) ps) s (fun s' r =>
    match r with
    | Ok _ => roster_ok s ps /\ s' = freed_all s ps /\ kv_rep s' pages
    | Err _ => ~ roster_ok s ps
    end)) by (by apply (release_each_wp ps s pages)).
  apply wp_done in Heach as (s2 & r2 & Hs2 & Hr2).
  destruct r as [mask|e].
  - destruct Hr as (-> & -> & Hok & Hm). destruct r2 as [[]|e2]; [|done].
    destruct Hr2 as (_ & -> & Hrep). exists (freed_all s ps).
    assert (Hc : wp (commit_batch mask) s (fun s' _ => s' = freed_all s ps))
      by (by apply (commit_batch_wp s pages ps)).
    apply wp_done in Hc as (s3 & [] & Hs3 & ->). split; [done|]. split; [done|by exists pages].
  - intros -> ->. destruct r2 as [[]|e2]; [exfalso; apply Hr; tauto|]. by exists s2, e2.
Qed.

(** The roster of the pages retired at [epoch]. *)
Definition roster_at (epoch : CompletionEpoch) (pages : list PhysicalPageId) :
    list PhysicalKvRetiredPageMetadataV1 := (fun pg => mkRetired pg epoch) <$> pages.

(** Cancelling, retiring every page, and committing the retirement batch. *)
Definition cancel_and_drain (epoch : CompletionEpoch) : M PhysicalKvState (result unit PhysicalKvError) :=
  let! s := gets id in
  let? _ := cancel_physical_kv (kv_request s) (kv_selection s) epoch in
  let? pages := retire_all (N.to_nat (page_count s)) (kv_request s) (kv_selection s) epoch in
  let! s' := gets id in
  let? mask := preflight_retired_page_metadata_batch_v1 s' (kv_request s) (kv_role s)
                 (roster_at epoch pages) in
  commit_batch mask ;; ret (Ok tt).

Lemma roster_at_index epoch pages i :
  i ∈ rm_index <$> roster_at epoch (reverse pages) <-> i ∈ pp_index <$> pages.
Proof.
  unfold roster_at. rewrite <- list_fmap_compose. change (rm_index ∘ _) with pp_index.
  rewrite fmap_reverse. by rewrite elem_of_reverse.
Qed.

Lemma drained_roster s pages epoch s' :
  kv_rep s pages -> drained s pages epoch s' ->
  (forall p pg, vget pages p = Some pg -> pp_generation pg < u32_max) ->
  roster_ok s' (roster_at epoch (reverse pages)).
Proof.
  intros H [Hrep Hq Hs Hl Hret _] Hgen. split.
  - unfold roster_at. rewrite <- list_fmap_compose.
    assert (Hnd : NoDup (pp_index <$> reverse pages)).
    { rewrite reverse_Permutation. apply H. }
    exact Hnd.
  - unfold roster_at. rewrite Forall_fmap, Forall_forall. intros pg Hpg.
    rewrite elem_of_reverse in Hpg. apply list_elem_of_lookup in Hpg as [p Hp].
    assert (Hget : vget pages (N.of_nat p) = Some pg) by (unfold vget; by rewrite Nat2N.id).
    destruct (Hret _ _ Hget) as [k Hk]. destruct (kr_page _ _ H _ _ Hget) as (Hr & Hi & Hg & _).
    apply (entry_ok_spec _ _ _ Hrep). cbn. unfold rm_index. cbn.
    unfold kv_role in *. rewrite Hs. split; [done|]. split; [done|].
    split; [split; [done|by eapply Hgen]|]. exists epoch, k. by rewrite Hq.
Qed.

(** C0: A cancelled request can always be drained, unless its tail page is
    empty. From an active state whose tail page holds a token and whose page
    generations are not exhausted, cancelling, retiring page after page and
    committing the retirement batch all succeed; the request then holds no page
    and no token, and every page it held is free at the next generation. *)
Theorem kv_cancel_drains s pages epoch :
  kv_rep s pages -> kv_lifecycle s = Active -> tail_empty s = false -> 0 < value epoch ->
  (forall p pg, vget pages p = Some pg -> pp_generation pg < u32_max) ->
  exists s', cancel_and_drain epoch s = Done s' (Ok tt) /\ kv_wf s' /\
    kv_lifecycle s' = RetiredAwaitingQuiescence epoch /\
    page_count s' = 0 /\ resident_tokens s' = 0 /\
    (forall p pg, vget pages p = Some pg ->
       slot_at s' (pp_index pg) = mkSlot (pp_generation pg + 1) Free 0) /\
    (forall i, i ∉ pp_index <$> pages -> slot_at s' i = slot_at s i).
Proof.
  intros H Hact Hte He Hgen.
  enough (Hwp : wp (cancel_and_drain epoch) s (fun s' r => r = Ok tt /\ exists s1,
    drained s pages epoch s1 /\ s' = freed_all s1 (roster_at epoch (reverse pages)))).
  { apply wp_done in Hwp as (s' & r & Hs' & -> & s1 & Hdr & ->). eexists. split; [exact Hs'|].
    pose proof (drained_roster _ _ _ _ H Hdr Hgen) as Hok. destruct Hdr as [Hrep Hq Hs Hl Hret Hoth].
    pose proof (freed_all_rep _ _ _ Hrep Hok) as Hrep'.
    pose proof (freed_all_slot _ _ _ Hrep Hok) as Hslot.
    destruct (freed_all_frame (roster_at epoch (reverse pages)) s1) as [_ Hl' _ _].
    split; [by exists []|]. split; [congruence|]. split; [by rewrite (kr_count _ _ Hrep')|].
    split; [pose proof (kr_cover _ _ Hrep'); change (vlen []) with 0 in *; lia|]. split.
    - intros p pg Hp. destruct (kr_page _ _ H p pg Hp) as (_ & Hi & _).
      destruct (Hret p pg Hp) as [k Hk]. rewrite Hslot by done. rewrite Hk.
      rewrite bool_decide_eq_true_2; [done|]. apply roster_at_index.
      apply list_elem_of_fmap_2. by apply (list_elem_of_lookup_2 pages) in Hp.
    - intros i Hi. destruct (N.lt_ge_cases i M1_KV_PHYSICAL_PAGE_SLOTS) as [Hlt|Hge].
      + rewrite Hslot by done. rewrite bool_decide_eq_false_2 by (by rewrite roster_at_index).
        by apply Hoth.
      + rewrite !slot_at_beyond; [done|by rewrite (kr_slots _ _ H)|by rewrite (kr_slots _ _ Hrep')]. }
  unfold cancel_and_drain. wp_step. apply wp_gets. cbn [id]. wp_step.
  assert (Hv : under s (kv_request s) (kv_selection s)
    (if value epoch =? 0 then Err ZeroRetirementEpoch else Ok tt) = Ok tt).
  { unfold under. rewrite (proj2 (validate_active_authority_ok _ _ _)) by done.
    by rewrite (proj2 (N.eqb_neq _ 0)) by lia. }
  apply (phys_cancel_wp s pages H); [by rewrite Hv|]. intros s0 _ Hs0 _ H0.
  assert (Hq0 : kv_request s0 = kv_request s) by (by subst s0).
  assert (Hsel0 : kv_selection s0 = kv_selection s) by (by subst s0).
  assert (Hdrain : wp (retire_all (N.to_nat (page_count s)) (kv_request s) (kv_selection s) epoch) s0
    (fun s' r => r = Ok (reverse pages) /\ drained s pages epoch s')).
  { rewrite (kr_count _ _ H). destruct (decide (vlen pages = 0)) as [Hz|Hnz].
    - assert (pages = []) as -> by (destruct pages; [done|unfold vlen in Hz; cbn in Hz; lia]).
      cbn [retire_all N.to_nat]. apply wp_ret. split; [done|].
      split; [done|by rewrite Hq0|by rewrite Hsel0| |by unfold vget|].
      + subst s0. cbn. by rewrite (kr_count _ _ H).
      + intros i _. by subst s0.
    - rewrite <- Hq0, <- Hsel0. unfold vlen. rewrite Nat2N.id.
      eapply wp_mono; [apply (retire_all_wp pages); [done|lia| |by subst s0]|].
      + subst s0. cbn. by rewrite (kr_count _ _ H), (proj2 (N.eqb_neq _ 0)).
      + cbn beta. intros s1 r [-> [? Hq1 Hs1 ? Hret Hoth]]. split; [done|].
        split; [done|by rewrite Hq1|by rewrite Hs1|done| |].
        * intros p pg Hp. destruct (Hret p pg Hp) as [k Hk]. exists k. rewrite Hk.
          unfold kv_role. by rewrite Hq0, Hsel0.
        * intros i Hi. rewrite Hoth by done. by subst s0. }
  wp_step. eapply wp_mono; [exact Hdrain|]. cbn beta. intros s1 r [-> Hdr].
  wp_step. apply wp_gets. cbn [id]. wp_step.
  pose proof (drained_roster _ _ _ _ H Hdr Hgen) as Hok. pose proof Hdr as [Hrep Hq Hs Hl _ _].
  assert (Hrole : kv_role s = kv_role s1) by (unfold kv_role; by rewrite Hs).
  apply (preflight_batch_wp s1 []); [done| |].
  - intros e Hno. exfalso. apply Hno. by rewrite Hq.
  - intros mask _ _ _ Hm. wp_step. apply (commit_batch_wp s1 [] (roster_at epoch (reverse pages))); [done..|].
    apply wp_ret. split; [done|]. by exists s1.
Qed.

(** C0: A request cancelled with an empty tail page is never drained. Once a
    page has been appended and the request is cancelled before a token is
    written to it, whatever calls follow, the request stays cancelled with its
    pages bound and every attempt to retire the tail is refused. *)
Theorem kv_empty_tail_stuck {V} (s : PhysicalKvState) (request : RequestId)
    (selection : Qwen3PlanSelection) (page : PhysicalPageId) (epoch : CompletionEpoch)
    (s1 s2 : PhysicalKvState)
    (mem : gmap (N * N) V) (calls : list (kv_call V)) :
  kv_wf s ->
  append_physical_page request selection page s = Done s1 (Ok tt) ->
  cancel_physical_kv request selection epoch s1 = Done s2 (Ok tt) ->
  wp (run_world calls) (mkWorld s2 mem) (fun w _ =>
    kv_lifecycle (w_kv w) = Cancelled epoch /\ 0 < page_count (w_kv w) /\
    forall request' selection' epoch', exists e,
      retire_cancelled_tail request' selection' epoch' (w_kv w) = Done (w_kv w) (Err e)).
Proof.
  intros [pages H] Happ Hcan.
  assert (H1 : kv_rep s1 (pages ++ [page]) /\ resident_tokens s1 = M1_KV_PAGE_TOKENS * vlen pages).
  { apply (run_done _ _ _ _ (fun s' r => r = Ok tt -> kv_rep s' (pages ++ [page]) /\
      resident_tokens s' = M1_KV_PAGE_TOKENS * vlen pages) Happ); [|done].
    apply (append_wp s pages H); [done|]. intros s' _ -> Hres _ Hrep _. done. }
  destruct H1 as [H1 Hres1].
  assert (H2 : kv_rep s2 (pages ++ [page]) /\ stuck s2 epoch).
  { apply (run_done _ _ _ _ (fun s' r => r = Ok tt -> kv_rep s' (pages ++ [page]) /\ stuck s' epoch) Hcan);
      [|done].
    apply (phys_cancel_wp s1 _ H1); [done|]. intros s' _ -> _ Hrep _. split; [done|]. split.
    - cbn. rewrite (kr_count _ _ H1), vlen_push. by rewrite (proj2 (N.eqb_neq _ 0)) by lia.
    - unfold tail_empty. cbn. rewrite Hres1, (kr_count _ _ H1), vlen_push. apply N.eqb_eq. lia. }
  destruct H2 as [H2 Hst].
  eapply wp_mono; [exact (run_stuck_wf calls (mkWorld s2 mem) _ epoch H2 Hst)|].
  cbn beta. intros w _ (Hw & [Hl Hte]). split; [done|]. destruct Hw as [pages' Hw].
  split; [pose proof (kr_life _ _ Hw) as Hlife; unfold lifecycle_ok in Hlife; rewrite Hl in Hlife; apply Hlife|].
  intros request' selection' epoch'.
  assert (Hwp : wp (retire_cancelled_tail request' selection' epoch') (w_kv w)
    (fun s' r => s' = w_kv w /\ exists e, r = Err e)).
  { apply (phys_retire_wp _ _ Hw); [by intros e _; split; [|exists e]|].
    intros pre pg s' Hd. exfalso. unfold retire_decision in Hd. rewrite Hl, Hte in Hd.
    by repeat (destruct (negb _); [done|]). }
  apply wp_done in Hwp as (s' & r & Hr & -> & e & ->). by exists e.
Qed.

(** ** A concrete request *)
Definition demo_request : RequestId := mkRequestId 0 1.
Definition demo_selection : Qwen3PlanSelection := mkSelection Target8B Decode DecodeS1C8192.
Definition demo_epoch : CompletionEpoch := mkEpoch 7.

Definition demo_kv : PhysicalKvState :=
  mkKv demo_request demo_selection Active 8192 0 0 0 (vfill 512 None) (vfill 512 slot_free).

Definition call (o : kv_op N) : kv_call N := mkCall demo_request demo_selection o.
Definition demo_page (i : N) : PhysicalPageId := mkPhysicalPage Target8B i 1.
Definition demo_writes (from : N) (n : nat) : list (kv_call N) :=
  (fun i => let p := from + N.of_nat i in call (OpWrite p (100 + p))) <$> seq 0 n.

(** Two pages, eighteen tokens, four of them committed. *)
Definition demo_calls : list (kv_call N) :=
  [call (OpAppend (demo_page 3))] ++ demo_writes 0 16 ++
  [call (OpAppend (demo_page 5))] ++ demo_writes 16 2 ++ [call (OpCommit 4)].

Definition state_after (calls : list (kv_call N)) (s : PhysicalKvState) : kv_world (V := N) :=
  match run_world calls (mkWorld s ∅) with Done w _ => w | Panic => mkWorld s ∅ end.

Definition demo_filled : PhysicalKvState := Eval vm_compute in w_kv (state_after demo_calls demo_kv).

Lemma demo_new : kv_new demo_request demo_selection = Ok demo_kv.
Proof. vm_compute. reflexivity. Qed.

Lemma demo_fresh : fresh_kv demo_request demo_selection demo_kv.
Proof. apply fresh_new. exact demo_new. Qed.

(** The same request over a pool whose pages have been used before. *)
Lemma demo_seeded : exists s, fresh_kv demo_request demo_selection s /\ slot_at s 3 = mkSlot 9 Free 0.
Proof.
  destruct (new_with_page_generations demo_request demo_selection (vfill 512 9) tt) as [[] [s|e]|] eqn:H;
    [|vm_compute in H; discriminate H..].
  exists s. split.
  - apply (fresh_seeded _ _ _ (vfill 512 9)); [|exact H]. split; [reflexivity|].
    apply Forall_replicate. kv_consts. lia.
  - vm_compute in H. injection H as <-. reflexivity.
Qed.

(** Whatever the calls, the state stays well formed. *)
Lemma state_after_wf calls : kv_wf (w_kv (state_after calls demo_kv)).
Proof.
  assert (Hw : wp (run_world calls) (mkWorld demo_kv ∅) (fun w _ => kv_wf (w_kv w))).
  { eapply wp_mono; [eapply run_world_wp, (fresh_represents _ _ _ _ demo_fresh)|].
    cbn beta. intros w rs (_ & pages & Hr). exists pages. apply Hr. }
  apply wp_done in Hw as (w & rs & Hrun & Hwf). unfold state_after. by rewrite Hrun.
Qed.

Lemma demo_filled_rep : kv_rep demo_filled [demo_page 3; demo_page 5].
Proof.
  assert (Heq : w_kv (state_after demo_calls demo_kv) = demo_filled) by (vm_compute; reflexivity).
  destruct (state_after_wf demo_calls) as [pages Hrep]. rewrite Heq in Hrep. pose proof (kr_table _ _ Hrep) as Ht.
  assert (pages = [demo_page 3; demo_page 5]) as <-; [|done].
  apply table_inj; [apply Hrep|vm_compute; discriminate|]. rewrite <- Ht. vm_compute. reflexivity.
Qed.

Lemma kv_memory_refines_log_witness :
  wp (run_world demo_calls) (mkWorld demo_kv ∅) (fun w rs =>
    let a := run_log demo_calls rs (mkLog [] 0) in
    length rs = length demo_calls /\ kv_wf (w_kv w) /\
    resident_tokens (w_kv w) = vlen (tokens a) /\ committed_tokens (w_kv w) = committed a /\
    (kv_lifecycle (w_kv w) = Active -> forall p,
       read_world (kv_request (w_kv w)) (kv_selection (w_kv w)) p w =
         Done w (match vget (tokens a) p with
                 | Some v => Ok (Some v)
                 | None => Err LogicalPositionOutOfRange
                 end))).
Proof. apply (kv_memory_refines_log demo_request demo_selection). exact demo_fresh. Defined.

Lemma kv_committed_stable_witness :
  wp (run_world demo_calls) (mkWorld demo_kv ∅) (fun w1 _ =>
    wp (run_world [call (OpSettle demo_epoch 4 18 15); call (OpWrite 15 9)]) w1 (fun w2 _ =>
      kv_lifecycle (w_kv w2) = Active -> forall p, p < committed_tokens (w_kv w1) ->
      exists loc v,
        map_initialized_token (w_kv w1) (kv_request (w_kv w1)) (kv_selection (w_kv w1)) p tt =
          Done tt (Ok loc) /\
        map_initialized_token (w_kv w2) (kv_request (w_kv w2)) (kv_selection (w_kv w2)) p tt =
          Done tt (Ok loc) /\
        w_mem w1 !! (pp_index (page loc), offset loc) = Some v /\
        w_mem w2 !! (pp_index (page loc), offset loc) = Some v)).
Proof. apply (kv_committed_stable demo_request demo_selection). exact demo_fresh. Defined.

Lemma kv_decisions_witness :
  decides (rollback_physical_token demo_request demo_selection demo_epoch) demo_filled (Ok tt).
Proof.
  assert (Hwf : kv_wf demo_filled) by (exists [demo_page 3; demo_page 5]; exact demo_filled_rep).
  destruct (kv_decisions demo_filled Hwf demo_request demo_selection) as (_ & _ & _ & H & _).
  exact (H demo_epoch).
Defined.

Lemma kv_settlement_is_rollback_witness : exists permit s1 s2,
  preflight_physical_speculative_settlement demo_filled demo_request demo_selection demo_epoch 4 18 15 tt =
    Done tt (Ok permit) /\
  apply_preflighted_physical_speculative_settlement permit demo_filled = Done s1 tt /\
  commit_then_rollback demo_request demo_selection demo_epoch 11 3 demo_filled = Done s2 (Ok tt) /\
  kv_agrees s1 s2.
Proof.
  assert (Hwf : kv_wf demo_filled) by (exists [demo_page 3; demo_page 5]; exact demo_filled_rep).
  destruct (preflight_physical_speculative_settlement demo_filled demo_request demo_selection demo_epoch
    4 18 15 tt) as [[] [permit|e]|] eqn:Hpre; [|vm_compute in Hpre; discriminate Hpre..].
  destruct (kv_settlement_is_rollback demo_filled demo_request demo_selection demo_epoch 15 permit Hwf Hpre)
    as (s1 & s2 & H1 & H2 & H3 & _).
  exists permit, s1, s2. split; [reflexivity|]. split; [exact H1|]. split; [exact H2|exact H3].
Defined.

(** After a settlement that retires the second page. *)
Definition demo_settled : PhysicalKvState :=
  w_kv (state_after (demo_calls ++ [call (OpSettle demo_epoch 4 18 15)]) demo_kv).

Lemma kv_batch_is_releases_witness : exists mask s',
  preflight_retired_page_metadata_batch_v1 demo_settled demo_request Target8B
    [mkRetired (demo_page 5) demo_epoch] tt = Done tt (Ok mask) /\
  commit_batch mask demo_settled = Done s' tt /\
  release_each demo_request Target8B [mkRetired (demo_page 5) demo_epoch] demo_settled = Done s' (Ok tt).
Proof.
  assert (Hwf : kv_wf demo_settled) by exact (state_after_wf _).
  pose proof (kv_batch_is_releases demo_settled demo_request Target8B
    [mkRetired (demo_page 5) demo_epoch] Hwf) as H.
  destruct (preflight_retired_page_metadata_batch_v1 demo_settled demo_request Target8B
    [mkRetired (demo_page 5) demo_epoch] tt) as [[] [mask|e]|] eqn:E; [|vm_compute in E; discriminate E..].
  destruct H as (s' & Hc & Hr & _). exists mask, s'. split; [reflexivity|]. split; [exact Hc|exact Hr].
Defined.

Lemma kv_cancel_drains_witness : exists s',
  cancel_and_drain demo_epoch demo_filled = Done s' (Ok tt) /\
  kv_lifecycle s' = RetiredAwaitingQuiescence demo_epoch /\ page_count s' = 0 /\
  slot_at s' 3 = mkSlot 2 Free 0 /\ slot_at s' 5 = mkSlot 2 Free 0.
Proof.
  destruct (kv_cancel_drains demo_filled [demo_page 3; demo_page 5] demo_epoch demo_filled_rep)
    as (s' & Hs & _ & Hl & Hc & _ & Hp & _).
  - reflexivity.
  - vm_compute. reflexivity.
  - reflexivity.
  - intros p pg Hp. unfold vget in Hp.
    destruct (N.to_nat p) as [|[|n]]; [injection Hp as <-; reflexivity|injection Hp as <-; reflexivity|discriminate Hp].
  - exists s'. split; [exact Hs|]. split; [exact Hl|]. split; [exact Hc|].
    split; [exact (Hp 0 (demo_page 3) eq_refl)|exact (Hp 1 (demo_page 5) eq_refl)].
Defined.

Lemma kv_empty_tail_stuck_witness : exists s1 s2,
  append_physical_page demo_request demo_selection (demo_page 3) demo_kv = Done s1 (Ok tt) /\
  cancel_physical_kv demo_request demo_selection demo_epoch s1 = Done s2 (Ok tt) /\
  wp (run_world [call (OpRetire demo_epoch); call (OpWrite 0 1)]) (mkWorld s2 ∅) (fun w _ =>
    kv_lifecycle (w_kv w) = Cancelled demo_epoch /\ 0 < page_count (w_kv w) /\
    forall request' selection' epoch', exists e,
      retire_cancelled_tail request' selection' epoch' (w_kv w) = Done (w_kv w) (Err e)).
Proof.
  assert (Hwf : kv_wf demo_kv).
  { exists []. apply (kv_new_rep demo_request demo_selection). exact demo_new. }
  destruct (append_physical_page demo_request demo_selection (demo_page 3) demo_kv) as [s1 [[]|e]|] eqn:H1;
    [|vm_compute in H1; discriminate H1..].
  destruct (cancel_physical_kv demo_request demo_selection demo_epoch s1) as [s2 [[]|e]|] eqn:H2.
  2,3: vm_compute in H1; injection H1 as <-; vm_compute in H2; discriminate H2.
  exists s1, s2. split; [reflexivity|]. split; [exact H2|].
  exact (kv_empty_tail_stuck demo_kv demo_request demo_selection (demo_page 3) demo_epoch s1 s2 ∅ _ Hwf H1 H2).
Defined.
