(* ===== verification/KvIndexing.v ===== *)
(** [ferric-spec/src/speculative_kv_indexing.rs]: which token each model input
    of a speculative round consumes, at which position of the KV, and where the
    round commits for every accepted count. *)
From S2P Require Import Prelude Spec PlanSelection M1Completion PhysicalKv ContinuousBatch.
Local Open Scope prog_scope.
Import Graph.

Definition M1_MAX_SPECULATIVE_KV_DRAFT_TOKENS : N := 16.
Definition M1_MAX_SPECULATIVE_KV_TARGET_INPUTS : N := 17.

Inductive SpeculativeKvInputSource :=
| RoundAnchor (token : N)
| DraftCandidate (index token : N).

Record SpeculativeKvInputBinding := mkBinding {
  ib_role : Qwen3ModelRole; graph_ordinal : N; logical_position : N; source : SpeculativeKvInputSource
}.

Inductive TargetChoiceUse := LogitOnly.

Record TargetChoiceBinding := mkChoice {
  choice_index : N; after_target_ordinal : N; use_kind : TargetChoiceUse
}.

Inductive CorrectionBonusKvDisposition := DeferredUntilNextStep | TargetResident | DraftResident.

Record SpeculativeKvInterval := mkInterval { start : N; end_ : N }.

Record SpeculativeKvRoundIndex := mkIndex {
  ix_request : RequestId;
  ix_completion_epoch : Completion.CompletionEpoch;
  ix_plan_id : Identity.Identity;
  target_selection : Qwen3PlanSelection;
  draft_selection : Qwen3PlanSelection;
  draft_token_count : N;
  round_anchor : N;
  draft_tokens : list N;
  target_pre_committed : N;
  draft_pre_committed : N;
  target_tentative : SpeculativeKvInterval;
  draft_tentative : SpeculativeKvInterval;
  target_commit_ends : list N;
  draft_commit_ends : list N;
  correction_bonus : CorrectionBonusKvDisposition
}.

Inductive SpeculativeKvIndexError :=
| IxRequest | IxCompletionEpoch | PlanIdentity | IxSelection (error : Qwen3PlanError) | RoleOrMode
| BucketMismatch | DraftLength | GraphDimensions | CursorMismatch | IxContextExceeded
| TentativeInterval | TokenOutOfRange | NoncanonicalUnusedToken | CommitEnd
| CorrectionBonusNotDeferred | AuthorityMismatch.

Definition bucket_k (bucket : Qwen3PlanBucket) : option N :=
  match bucket with
  | SpeculativeS1K4C8192 | SpeculativeS8K4C8192 => Some 4
  | SpeculativeS1K8C8192 => Some 8
  | SpeculativeS1K16C8192 => Some 16
  | _ => None
  end.

Definition buckets_match (left right : Qwen3PlanBucket) : bool :=
  match left, right with
  | SpeculativeS1K4C8192, SpeculativeS1K4C8192 | SpeculativeS8K4C8192, SpeculativeS8K4C8192
  | SpeculativeS1K8C8192, SpeculativeS1K8C8192 | SpeculativeS1K16C8192, SpeculativeS1K16C8192 => true
  | _, _ => false
  end.

(** The source of an input: the anchor first, then the draft candidates. *)
Definition input_source {S} (self : SpeculativeKvRoundIndex) (ordinal : N) :
    M S SpeculativeKvInputSource :=
  if ordinal =? 0 then ret (RoundAnchor (round_anchor self))
  else
    let! previous := sub_w ordinal 1 in
    let! token := slice_at (draft_tokens self) previous in
    ret (DraftCandidate previous token).

Definition target_input {S} (self : SpeculativeKvRoundIndex) (ordinal : N) :
    M S (option SpeculativeKvInputBinding) :=
  if (draft_token_count self <? ordinal) || (M1_MAX_SPECULATIVE_KV_DRAFT_TOKENS <? ordinal) then
    ret None
  else
    match checked_add u32_max (target_pre_committed self) ordinal with
    | None => ret None
    | Some position =>
        let! src := input_source self ordinal in
        ret (Some (mkBinding Target8B ordinal position src))
    end.

Definition draft_input {S} (self : SpeculativeKvRoundIndex) (ordinal : N) :
    M S (option SpeculativeKvInputBinding) :=
  if (draft_token_count self <=? ordinal) || (M1_MAX_SPECULATIVE_KV_DRAFT_TOKENS <? ordinal) then
    ret None
  else
    match checked_add u32_max (draft_pre_committed self) ordinal with
    | None => ret None
    | Some position =>
        let! src := input_source self ordinal in
        ret (Some (mkBinding Draft06B ordinal position src))
    end.

Definition target_choice (self : SpeculativeKvRoundIndex) (choice : N) : option TargetChoiceBinding :=
  if draft_token_count self <? choice then None else Some (mkChoice choice choice LogitOnly).

Definition target_commit_end (self : SpeculativeKvRoundIndex) (accepted : N) : option N :=
  if draft_token_count self <? accepted then None
  else
    match checked_add u32_max (target_pre_committed self) accepted with
    | None => None
    | Some e => checked_add u32_max e 1
    end.

Definition draft_commit_end {S} (self : SpeculativeKvRoundIndex) (accepted : N) : M S (option N) :=
  if draft_token_count self <? accepted then ret None
  else
    let! consumed :=
      if accepted <? draft_token_count self then add32 accepted 1 else ret (draft_token_count self) in
    ret (checked_add u32_max (draft_pre_committed self) consumed).

(** [while token_index < M1_MAX_SPECULATIVE_KV_DRAFT_TOKENS] *)
Fixpoint index_tokens_loop {S} (fuel : nat) (self : SpeculativeKvRoundIndex) (token_index : N) :
    M S (result unit SpeculativeKvIndexError) :=
  match fuel with
  | O => ret (Ok tt)
  | S fuel' =>
      if token_index <? M1_MAX_SPECULATIVE_KV_DRAFT_TOKENS then
        let! token := slice_at (draft_tokens self) token_index in
        let? _ :=
          if token_index <? draft_token_count self then
            if QWEN3_VOCABULARY_SIZE <=? token then ret (Err TokenOutOfRange) else ret (Ok tt)
          else if negb (token =? 0) then ret (Err NoncanonicalUnusedToken) else ret (Ok tt) in
        let! next := add_usize token_index 1 in
        index_tokens_loop fuel' self next
      else ret (Ok tt)
  end.

(** [while accepted < M1_MAX_SPECULATIVE_KV_TARGET_INPUTS] *)
Fixpoint index_ends_loop {S} (fuel : nat) (self : SpeculativeKvRoundIndex) (accepted : N) :
    M S (result unit SpeculativeKvIndexError) :=
  match fuel with
  | O => ret (Ok tt)
  | S fuel' =>
      if accepted <? M1_MAX_SPECULATIVE_KV_TARGET_INPUTS then
        let! target_end := slice_at (target_commit_ends self) accepted in
        let? _ :=
          if accepted <=? draft_token_count self then
            if u32_max <? accepted then ret (Err CommitEnd)
            else
              let! t := add32 (target_pre_committed self) accepted in
              let! expected_target := add32 t 1 in
              let! consumed :=
                if accepted <? draft_token_count self then add32 accepted 1
                else ret (draft_token_count self) in
              let! expected_draft := add32 (draft_pre_committed self) consumed in
              if negb (target_end =? expected_target) then ret (Err CommitEnd)
              else
                let! draft_end := slice_at (draft_commit_ends self) accepted in
                if negb (draft_end =? expected_draft) then ret (Err CommitEnd) else ret (Ok tt)
          else if negb (target_end =? 0) then ret (Err CommitEnd)
          else
            let! draft_end := slice_at (draft_commit_ends self) accepted in
            if negb (draft_end =? 0) then ret (Err CommitEnd) else ret (Ok tt) in
        let! next := add_usize accepted 1 in
        index_ends_loop fuel' self next
      else ret (Ok tt)
  end.

Definition index_validate {S} (self : SpeculativeKvRoundIndex) :
    M S (result unit SpeculativeKvIndexError) :=
  if (M1_CONTINUOUS_BATCH_CAPACITY <=? slot (ix_request self)) || (generation (ix_request self) =? 0) then
    ret (Err IxRequest)
  else if Completion.value (ix_completion_epoch self) =? 0 then ret (Err IxCompletionEpoch)
  else if negb (Identity.is_present (ix_plan_id self)) then ret (Err PlanIdentity)
  else
    match validate (target_selection self) with
    | Err error => ret (Err (IxSelection error))
    | Ok _ =>
    match validate (draft_selection self) with
    | Err error => ret (Err (IxSelection error))
    | Ok _ =>
    if negb match role (target_selection self) with Target8B => true | _ => false end ||
       negb match role (draft_selection self) with Draft06B => true | _ => false end ||
       negb match mode (target_selection self) with Speculative => true | _ => false end ||
       negb match mode (draft_selection self) with Speculative => true | _ => false end then
      ret (Err RoleOrMode)
    else if negb (buckets_match (bucket (target_selection self)) (bucket (draft_selection self))) then
      ret (Err BucketMismatch)
    else
    match bucket_k (bucket (target_selection self)) with
    | None => ret (Err DraftLength)
    | Some k =>
    if negb (k =? draft_token_count self) || (draft_token_count self =? 0) ||
       (M1_MAX_SPECULATIVE_KV_DRAFT_TOKENS <? draft_token_count self) then ret (Err DraftLength)
    else
    match dimensions (bucket (target_selection self)) Target8B Speculative,
          dimensions (bucket (draft_selection self)) Draft06B Speculative with
    | None, _ | _, None => ret (Err GraphDimensions)
    | Some target_dimensions, Some draft_dimensions =>
    let! target_width := add32 (draft_token_count self) 1 in
    let draft_width := draft_token_count self in
    if negb (active_tokens target_dimensions =? target_width) ||
       negb (active_tokens draft_dimensions =? draft_width) then ret (Err GraphDimensions)
    else if negb (target_pre_committed self =? draft_pre_committed self) then ret (Err CursorMismatch)
    else
    let! target_limit := sub_w M1_MAX_CONTEXT_TOKENS target_width in
    let! draft_limit := sub_w M1_MAX_CONTEXT_TOKENS draft_width in
    if (target_limit <? target_pre_committed self) || (draft_limit <? draft_pre_committed self) then
      ret (Err IxContextExceeded)
    else
    let! target_end := add32 (target_pre_committed self) target_width in
    let! draft_end := add32 (draft_pre_committed self) draft_width in
    if negb (start (target_tentative self) =? target_pre_committed self) ||
       negb (end_ (target_tentative self) =? target_end) ||
       negb (start (draft_tentative self) =? draft_pre_committed self) ||
       negb (end_ (draft_tentative self) =? draft_end) then ret (Err TentativeInterval)
    else if QWEN3_VOCABULARY_SIZE <=? round_anchor self then ret (Err TokenOutOfRange)
    else
    let? _ := index_tokens_loop (N.to_nat M1_MAX_SPECULATIVE_KV_DRAFT_TOKENS) self 0 in
    let? _ := index_ends_loop (N.to_nat M1_MAX_SPECULATIVE_KV_TARGET_INPUTS) self 0 in
    if negb match correction_bonus self with DeferredUntilNextStep => true | _ => false end then
      ret (Err CorrectionBonusNotDeferred)
    else ret (Ok tt)
    end
    end
    end
    end.

Definition index_validate_for {S} (self : SpeculativeKvRoundIndex) (expected_request : RequestId)
    (expected_epoch : Completion.CompletionEpoch) (expected_plan_id : Identity.Identity)
    (expected_target expected_draft : Qwen3PlanSelection) :
    M S (result unit SpeculativeKvIndexError) :=
  let? _ := index_validate self in
  if negb (slot (ix_request self) =? slot expected_request) ||
     negb (generation (ix_request self) =? generation expected_request) ||
     negb (Completion.value (ix_completion_epoch self) =? Completion.value expected_epoch) ||
     negb (Identity.equals (ix_plan_id self) expected_plan_id) ||
     negb (selection_matches (target_selection self) expected_target) ||
     negb (selection_matches (draft_selection self) expected_draft) then
    ret (Err AuthorityMismatch)
  else ret (Ok tt).
