(* ===== verification/Isolation.v ===== *)
(** [ferric-spec/src/request_isolation.rs]: two requests of a continuous batch
    with their target and draft KV, and the operations that act on one of them
    under the scheduler's lifecycle. *)
From S2P Require Import Prelude Spec PlanSelection PhysicalKv ContinuousBatch KvIndexing.
Local Open Scope prog_scope.
Import Graph Completion.

Inductive IsolatedSchedulerAction :=
| IAdmit
| IDispatch (epoch : CompletionEpoch)
| ICompleteExact (epoch : CompletionEpoch)
| IPublish (epoch : CompletionEpoch) (emitted_tokens : N)
| IFinalizeKv.

Inductive IsolatedKvAction :=
| AppendPage (page : PhysicalPageId)
| WriteToken (logical_position : N)
| Commit (accepted_tokens : N)
| RollbackToken (after_epoch : CompletionEpoch)
| RetireTail (after_epoch : CompletionEpoch).

Inductive RequestIsolationError :=
| ISlotOutOfRange | SameRequestSlot | StaleRequest | TargetRoleRequired | DraftRoleRequired
| PlanPairMismatch | IWrongLifecycle | MissingEpoch | IEpochMismatch | TentativeTokensRemain
| NoExactQuiescence | RetiredPageCountExhausted | RetiredPageCountUnderflow | IGenerationExhausted
| AcceptedCountOutOfRange | InvalidSpeculativeIndex
| IScheduler (error : ContinuousBatchError)
| IPhysical (error : PhysicalKvError).

Record IsolatedRequestKv := mkIso {
  iso_request : RequestId;
  target : PhysicalKvState;
  draft : PhysicalKvState;
  target_retired_pages : N;
  draft_retired_pages : N;
  quiescent_epoch : CompletionEpoch;
  has_quiescent_epoch : bool
}.

Record IsolatedSpeculativeKvExpectation := mkExpectation {
  ex_request : RequestId;
  ex_completion_epoch : CompletionEpoch;
  ex_plan_id : Identity.Identity;
  ex_target_selection : Qwen3PlanSelection;
  ex_draft_selection : Qwen3PlanSelection
}.

Record IsolatedSpeculativeKvSettlement := mkSettlement {
  accepted_draft_tokens : N;
  out_target_commit_end : N;
  out_draft_commit_end : N;
  out_target_retired_pages : N;
  out_draft_retired_pages : N
}.

Record IsolatedSpeculativeKvSettlementPermit := mkIsoPermit {
  ip_target : PhysicalKvSettlementPermit;
  ip_draft : PhysicalKvSettlementPermit;
  ip_outcome : IsolatedSpeculativeKvSettlement;
  next_target_retired_pages : N;
  next_draft_retired_pages : N
}.

Definition is_target_role (role : Qwen3ModelRole) : bool :=
  match role with Target8B => true | Draft06B => false end.
Definition is_draft_role (role : Qwen3ModelRole) : bool :=
  match role with Draft06B => true | Target8B => false end.

Definition modes_match (left right : Qwen3ExecutionMode) : bool :=
  match left, right with
  | Prefill, Prefill | Decode, Decode | Speculative, Speculative => true
  | _, _ => false
  end.

Definition plan_buckets_match (left right : Qwen3PlanBucket) : bool :=
  match left, right with
  | PrefillS1T128, PrefillS1T128 | PrefillS8T128, PrefillS8T128
  | PrefillS1T512, PrefillS1T512 | PrefillS1T2048, PrefillS1T2048
  | DecodeS1C8192, DecodeS1C8192 | DecodeS8C8192, DecodeS8C8192 | DecodeS32C8192, DecodeS32C8192
  | SpeculativeS1K4C8192, SpeculativeS1K4C8192 | SpeculativeS8K4C8192, SpeculativeS8K4C8192
  | SpeculativeS1K8C8192, SpeculativeS1K8C8192 | SpeculativeS1K16C8192, SpeculativeS1K16C8192 => true
  | _, _ => false
  end.

Definition pair_matches (target draft : Qwen3PlanSelection) : bool :=
  is_target_role (role target) && is_draft_role (role draft) &&
  modes_match (mode target) (mode draft) && plan_buckets_match (bucket target) (bucket draft).

(** [IsolatedRequestKv::new]. *)
Definition iso_new (request : RequestId) (target_selection draft_selection : Qwen3PlanSelection) :
    result IsolatedRequestKv RequestIsolationError :=
  if M1_CONTINUOUS_BATCH_CAPACITY <=? slot request then Err ISlotOutOfRange
  else if generation request =? 0 then Err StaleRequest
  else if negb (is_target_role (role target_selection)) then Err TargetRoleRequired
  else if negb (is_draft_role (role draft_selection)) then Err DraftRoleRequired
  else if negb (pair_matches target_selection draft_selection) then Err PlanPairMismatch
  else
    match kv_new request target_selection with
    | Err error => Err (IPhysical error)
    | Ok t =>
        match kv_new request draft_selection with
        | Err error => Err (IPhysical error)
        | Ok d => Ok (mkIso request t d 0 0 (mkEpoch 0) false)
        end
    end.

(** The two requests and the batch they belong to. *)
Record IsoWorld := mkIsoWorld {
  batch : ContinuousBatch; selected : IsolatedRequestKv; other : IsolatedRequestKv
}.

Definition put_batch (b : ContinuousBatch) (w : IsoWorld) : IsoWorld :=
  mkIsoWorld b (selected w) (other w).
Definition put_selected (s : IsolatedRequestKv) (w : IsoWorld) : IsoWorld :=
  mkIsoWorld (batch w) s (other w).
Definition set_target (t : PhysicalKvState) (s : IsolatedRequestKv) : IsolatedRequestKv :=
  mkIso (iso_request s) t (draft s) (target_retired_pages s) (draft_retired_pages s)
    (quiescent_epoch s) (has_quiescent_epoch s).
Definition set_draft (d : PhysicalKvState) (s : IsolatedRequestKv) : IsolatedRequestKv :=
  mkIso (iso_request s) (target s) d (target_retired_pages s) (draft_retired_pages s)
    (quiescent_epoch s) (has_quiescent_epoch s).
Definition set_retired (t d : N) (s : IsolatedRequestKv) : IsolatedRequestKv :=
  mkIso (iso_request s) (target s) (draft s) t d (quiescent_epoch s) (has_quiescent_epoch s).
Definition set_quiescent_epoch (e : CompletionEpoch) (s : IsolatedRequestKv) : IsolatedRequestKv :=
  mkIso (iso_request s) (target s) (draft s) (target_retired_pages s) (draft_retired_pages s) e true.

(** An operation on the selected request, on its target, on its draft. *)
Definition on_selected {A} (m : M IsolatedRequestKv A) : M IsoWorld A := zoom selected put_selected m.
Definition on_target {A} (m : M PhysicalKvState A) : M IsolatedRequestKv A := zoom target set_target m.
Definition on_draft {A} (m : M PhysicalKvState A) : M IsolatedRequestKv A := zoom draft set_draft m.

Definition lift_physical {S A} (m : M S (result A PhysicalKvError)) :
    M S (result A RequestIsolationError) :=
  let! r := m in
  ret (match r with Ok a => Ok a | Err error => Err (IPhysical error) end).

(** [projection().quiescent_epoch]. *)
Definition exact_quiescent_epoch (s : IsolatedRequestKv) : option CompletionEpoch :=
  if has_quiescent_epoch s then Some (quiescent_epoch s) else None.

Definition requests_match (left right : RequestId) : bool := same_request left right.

Definition validate_routing {S} (b : ContinuousBatch) (sel oth : IsolatedRequestKv)
    (request : RequestId) : M S (result ContinuousRequest RequestIsolationError) :=
  if (M1_CONTINUOUS_BATCH_CAPACITY <=? slot (iso_request sel)) ||
     (M1_CONTINUOUS_BATCH_CAPACITY <=? slot (iso_request oth)) then ret (Err ISlotOutOfRange)
  else if slot (iso_request sel) =? slot (iso_request oth) then ret (Err SameRequestSlot)
  else if negb (requests_match (iso_request sel) request) then ret (Err StaleRequest)
  else
    let! entry := batch_request b request in
    match entry with
    | Some current => ret (Ok current)
    | None => ret (Err StaleRequest)
    end.

(** Routing in the current world. *)
Definition route (request : RequestId) : M IsoWorld (result ContinuousRequest RequestIsolationError) :=
  let! w := gets id in validate_routing (batch w) (selected w) (other w) request.

Definition scheduler_action (action : IsolatedSchedulerAction) : ContinuousBatchAction :=
  match action with
  | IAdmit => ContinuousBatch.Admit
  | IDispatch epoch => ContinuousBatch.Dispatch epoch
  | ICompleteExact epoch => ContinuousBatch.CompleteExact epoch
  | IPublish epoch emitted => ContinuousBatch.Publish epoch emitted
  | IFinalizeKv => ContinuousBatch.FinalizeKv
  end.

(** The phases the guards match on. *)
Definition lifecycle_is (current : ContinuousRequest) (st : Lifecycle.RequestState)
    (ph : Lifecycle.LifecyclePhase) : bool :=
  match Lifecycle.state (lifecycle current), st with
  | Lifecycle.Ready, Lifecycle.Ready | Lifecycle.InFlight, Lifecycle.InFlight
  | Lifecycle.Retiring, Lifecycle.Retiring | Lifecycle.Vacant, Lifecycle.Vacant => true
  | _, _ => false
  end &&
  match Lifecycle.phase (lifecycle current), ph with
  | Lifecycle.Idle, Lifecycle.Idle | Lifecycle.Executing, Lifecycle.Executing
  | Lifecycle.AwaitingKv, Lifecycle.AwaitingKv
  | Lifecycle.RetiringExecuting, Lifecycle.RetiringExecuting
  | Lifecycle.RetiringQuiescent, Lifecycle.RetiringQuiescent => true
  | _, _ => false
  end.

Definition lifecycle_allows_kv (current : ContinuousRequest) (action : IsolatedKvAction) : bool :=
  match action with
  | AppendPage _ | WriteToken _ => lifecycle_is current Lifecycle.InFlight Lifecycle.Executing
  | Commit _ | RollbackToken _ => lifecycle_is current Lifecycle.InFlight Lifecycle.AwaitingKv
  | RetireTail _ => lifecycle_is current Lifecycle.Retiring Lifecycle.RetiringQuiescent
  end.

Definition apply_isolated_scheduler_step (request : RequestId) (action : IsolatedSchedulerAction) :
    M IsoWorld (result unit RequestIsolationError) :=
  let? current := route request in
  let! s := gets selected in
  if match action with IFinalizeKv => true | _ => false end &&
     (negb (is_active (kv_lifecycle (target s))) || negb (is_active (kv_lifecycle (draft s))) ||
      negb (committed_tokens (target s) =? resident_tokens (target s)) ||
      negb (committed_tokens (draft s) =? resident_tokens (draft s))) then
    ret (Err TentativeTokensRemain)
  else
    let! r := zoom batch put_batch (apply_continuous_batch_step request (scheduler_action action)) in
    match r with
    | Err error => ret (Err (IScheduler error))
    | Ok _ =>
        match action with
        | ICompleteExact epoch =>
            if lifecycle_is current Lifecycle.Retiring Lifecycle.RetiringExecuting then
              on_selected (modify (set_quiescent_epoch epoch)) ;; ret (Ok tt)
            else ret (Ok tt)
        | _ => ret (Ok tt)
        end
    end.

Definition cancel_isolated_request (request : RequestId) :
    M IsoWorld (result unit RequestIsolationError) :=
  let? current := route request in
  match active_epoch_of current with
  | None => ret (Err MissingEpoch)
  | Some epoch =>
      if negb (lifecycle_is current Lifecycle.InFlight Lifecycle.Executing ||
               lifecycle_is current Lifecycle.InFlight Lifecycle.AwaitingKv) then
        ret (Err IWrongLifecycle)
      else
        let! s := gets selected in
        if negb (is_active (kv_lifecycle (target s))) || negb (is_active (kv_lifecycle (draft s))) then
          ret (Err IWrongLifecycle)
        else if negb (requests_match (kv_request (target s)) request) ||
                negb (requests_match (kv_request (draft s)) request) then ret (Err StaleRequest)
        else
          let! r := zoom batch put_batch (apply_continuous_batch_step request ContinuousBatch.Retire) in
          match r with
          | Err error => ret (Err (IScheduler error))
          | Ok _ =>
              let? _ := on_selected (lift_physical
                (on_target (cancel_physical_kv request (kv_selection (target s)) epoch))) in
              let? _ := on_selected (lift_physical
                (on_draft (cancel_physical_kv request (kv_selection (draft s)) epoch))) in
              if lifecycle_is current Lifecycle.InFlight Lifecycle.AwaitingKv then
                on_selected (modify (set_quiescent_epoch epoch)) ;; ret (Ok tt)
              else ret (Ok tt)
          end
  end.

Definition epoch_is (o : option CompletionEpoch) (e : CompletionEpoch) : bool :=
  match o with Some e' => value e' =? value e | None => false end.

(** The physical operation of an action, with the page it retires. *)
Definition kv_action (request : RequestId) (action : IsolatedKvAction) :
    M PhysicalKvState (result (option PhysicalPageId) PhysicalKvError) :=
  let! state := gets id in
  let selection := kv_selection state in
  let unit_page_result (m : M PhysicalKvState (result unit PhysicalKvError)) :=
    let? _ := m in ret (Ok None) in
  match action with
  | AppendPage page => unit_page_result (append_physical_page request selection page)
  | WriteToken p => unit_page_result (write_physical_token request selection p)
  | Commit n => unit_page_result (commit_physical_kv request selection n)
  | RollbackToken e => unit_page_result (rollback_physical_token request selection e)
  | RetireTail e =>
      let? page := retire_cancelled_tail request selection e in ret (Ok (Some page))
  end.

Definition apply_isolated_kv_action (request : RequestId) (action_role : Qwen3ModelRole)
    (action : IsolatedKvAction) : M IsoWorld (result (option PhysicalPageId) RequestIsolationError) :=
  let? current := route request in
  let! s := gets selected in
  if negb (lifecycle_allows_kv current action) then ret (Err IWrongLifecycle)
  else if match action with
          | RollbackToken e => negb (epoch_is (active_epoch_of current) e)
          | _ => false
          end then ret (Err IEpochMismatch)
  else if match action with
          | RetireTail e => negb (epoch_is (exact_quiescent_epoch s) e)
          | _ => false
          end then ret (Err NoExactQuiescence)
  else
    let is_target := is_target_role action_role in
    let before_page_count := if is_target then page_count (target s) else page_count (draft s) in
    let retired_count := if is_target then target_retired_pages s else draft_retired_pages s in
    let may_retire_page := match action with RollbackToken _ | RetireTail _ => true | _ => false end in
    match (if may_retire_page then checked_add u32_max retired_count 1 else Some retired_count) with
    | None => ret (Err RetiredPageCountExhausted)
    | Some next_retired_count =>
        let? page := on_selected (lift_physical
          (if is_target then on_target (kv_action request action) else on_draft (kv_action request action))) in
        let! s' := gets selected in
        let after_page_count := if is_target then page_count (target s') else page_count (draft s') in
        (if after_page_count <? before_page_count then
           on_selected (modify (fun s =>
             if is_target then set_retired next_retired_count (draft_retired_pages s) s
             else set_retired (target_retired_pages s) next_retired_count s))
         else ret tt) ;;
        ret (Ok page)
    end.

Definition preflight_isolated_speculative_kv {S} (b : ContinuousBatch) (sel oth : IsolatedRequestKv)
    (index : SpeculativeKvRoundIndex) (accepted : N) (expected : IsolatedSpeculativeKvExpectation) :
    M S (result IsolatedSpeculativeKvSettlementPermit RequestIsolationError) :=
  let? current := validate_routing b sel oth (ex_request expected) in
  if negb (lifecycle_is current Lifecycle.InFlight Lifecycle.AwaitingKv) then ret (Err IWrongLifecycle)
  else if negb (epoch_is (active_epoch_of current) (ex_completion_epoch expected)) ||
          negb (value (ix_completion_epoch index) =? value (ex_completion_epoch expected)) then
    ret (Err IEpochMismatch)
  else if negb (selection_matches (kv_selection (target sel)) (ex_target_selection expected)) ||
          negb (selection_matches (kv_selection (draft sel)) (ex_draft_selection expected)) then
    ret (Err PlanPairMismatch)
  else
    let! valid := index_validate_for index (ex_request expected) (ex_completion_epoch expected)
                    (ex_plan_id expected) (ex_target_selection expected) (ex_draft_selection expected) in
    match valid with
    | Err _ => ret (Err InvalidSpeculativeIndex)
    | Ok _ =>
        if draft_token_count index <? accepted then ret (Err AcceptedCountOutOfRange)
        else
          match target_commit_end index accepted with
          | None => ret (Err AcceptedCountOutOfRange)
          | Some target_end =>
              let! draft_end_ := draft_commit_end index accepted in
              match draft_end_ with
              | None => ret (Err AcceptedCountOutOfRange)
              | Some draft_end =>
                  let? t := lift_physical
                    (preflight_physical_speculative_settlement (target sel) (ex_request expected)
                       (ex_target_selection expected) (ex_completion_epoch expected)
                       (target_pre_committed index) (end_ (target_tentative index)) target_end) in
                  let? d := lift_physical
                    (preflight_physical_speculative_settlement (draft sel) (ex_request expected)
                       (ex_draft_selection expected) (ex_completion_epoch expected)
                       (draft_pre_committed index) (end_ (draft_tentative index)) draft_end) in
                  match checked_add u32_max (target_retired_pages sel) (retired_pages t),
                        checked_add u32_max (draft_retired_pages sel) (retired_pages d) with
                  | Some next_t, Some next_d =>
                      ret (Ok (mkIsoPermit t d
                        (mkSettlement accepted target_end draft_end (retired_pages t) (retired_pages d))
                        next_t next_d))
                  | _, _ => ret (Err RetiredPageCountExhausted)
                  end
              end
          end
    end.

Definition apply_preflighted_isolated_speculative_kv (permit : IsolatedSpeculativeKvSettlementPermit) :
    M IsolatedRequestKv IsolatedSpeculativeKvSettlement :=
  on_target (apply_preflighted_physical_speculative_settlement (ip_target permit)) ;;
  on_draft (apply_preflighted_physical_speculative_settlement (ip_draft permit)) ;;
  modify (set_retired (next_target_retired_pages permit) (next_draft_retired_pages permit)) ;;
  ret (ip_outcome permit).

Definition settle_isolated_speculative_kv (index : SpeculativeKvRoundIndex) (accepted : N)
    (expected : IsolatedSpeculativeKvExpectation) :
    M IsoWorld (result IsolatedSpeculativeKvSettlement RequestIsolationError) :=
  let! w := gets id in
  let? permit := preflight_isolated_speculative_kv (batch w) (selected w) (other w) index accepted expected in
  let! outcome := on_selected (apply_preflighted_isolated_speculative_kv permit) in
  ret (Ok outcome).

Definition map_isolated_token (request : RequestId) (map_role : Qwen3ModelRole) (p : N) :
    M IsoWorld (result PhysicalKvLocation RequestIsolationError) :=
  let? current := route request in
  let! s := gets selected in
  if negb (lifecycle_is current Lifecycle.Ready Lifecycle.Idle ||
           lifecycle_is current Lifecycle.InFlight Lifecycle.Executing ||
           lifecycle_is current Lifecycle.InFlight Lifecycle.AwaitingKv) then ret (Err IWrongLifecycle)
  else if is_target_role map_role then
    lift_physical (map_initialized_token (target s) request (kv_selection (target s)) p)
  else lift_physical (map_initialized_token (draft s) request (kv_selection (draft s)) p).

Definition release_isolated_page (request : RequestId) (page_role : Qwen3ModelRole)
    (page : PhysicalPageId) (exact : CompletionEpoch) :
    M IsoWorld (result PhysicalPageId RequestIsolationError) :=
  let? current := route request in
  let! s := gets selected in
  if negb (lifecycle_is current Lifecycle.Retiring Lifecycle.RetiringQuiescent) then
    ret (Err IWrongLifecycle)
  else if negb (has_quiescent_epoch s) then ret (Err NoExactQuiescence)
  else if negb (value (quiescent_epoch s) =? value exact) then ret (Err IEpochMismatch)
  else if value exact =? 0 then ret (Err NoExactQuiescence)
  else
    let is_target := is_target_role page_role in
    let retired_count := if is_target then target_retired_pages s else draft_retired_pages s in
    if retired_count =? 0 then ret (Err RetiredPageCountUnderflow)
    else
      let authority := mkAuthority request page_role exact in
      let? released := on_selected (lift_physical
        (if is_target then on_target (release_retired_page page authority)
         else on_draft (release_retired_page page authority))) in
      let! s' := gets selected in
      (if is_target then
         let! n := sub_w (target_retired_pages s') 1 in
         on_selected (modify (set_retired n (draft_retired_pages s')))
       else
         let! n := sub_w (draft_retired_pages s') 1 in
         on_selected (modify (set_retired (target_retired_pages s') n))) ;;
      ret (Ok released).

Definition is_retired_awaiting (l : PhysicalKvLifecycle) : bool :=
  match l with RetiredAwaitingQuiescence _ => true | _ => false end.

Definition detach_isolated_request (request : RequestId) :
    M IsoWorld (result RequestId RequestIsolationError) :=
  let? current := route request in
  let! s := gets selected in
  if negb (lifecycle_is current Lifecycle.Retiring Lifecycle.RetiringQuiescent) then
    ret (Err IWrongLifecycle)
  else if negb (has_quiescent_epoch s) then ret (Err NoExactQuiescence)
  else if negb (resident_tokens (target s) =? 0) || negb (resident_tokens (draft s) =? 0) ||
          negb (page_count (target s) =? 0) || negb (page_count (draft s) =? 0) ||
          negb (target_retired_pages s =? 0) || negb (draft_retired_pages s =? 0) ||
          negb (is_retired_awaiting (kv_lifecycle (target s))) ||
          negb (is_retired_awaiting (kv_lifecycle (draft s))) then ret (Err IWrongLifecycle)
  else
    match checked_add u32_max (generation request) 1 with
    | None => ret (Err IGenerationExhausted)
    | Some next_generation =>
        let next_request := mkRequestId (slot request) next_generation in
        match iso_new next_request (kv_selection (target s)) (kv_selection (draft s)) with
        | Err e => ret (Err e)
        | Ok replacement =>
            let! r := zoom batch put_batch (apply_continuous_batch_step request ContinuousBatch.DetachKv) in
            match r with
            | Err error => ret (Err (IScheduler error))
            | Ok _ =>
                modify (put_selected replacement) ;;
                ret (Ok next_request)
            end
        end
    end.
