(* ===== verification/StepComposition.v ===== *)
(** [ferric-spec/src/speculative_step_composition.rs]: one speculative step,
    which checks the compact completion against greedy verification, settles the
    target and draft KV and publishes, all or nothing. *)
From S2P Require Import Prelude Spec PlanSelection M1Completion PhysicalKv ContinuousBatch KvIndexing.
From S2P Require Import Isolation StepPublication.
Local Open Scope prog_scope.

Inductive AtomicSpeculativeStepError :=
| DraftTokensMismatch
| PublicationError (error : StepPublicationError)
| KvError (error : RequestIsolationError).

Record AtomicSpeculativeStepOutcome := mkStepOutcome {
  settlement : IsolatedSpeculativeKvSettlement;
  published_delta : ReservedStateDelta
}.

Record SpeculativeStepPreflight := mkStepPermit {
  publication_permit : SpeculativePublicationPermit;
  kv_permit : IsolatedSpeculativeKvSettlementPermit;
  step_accepted_draft_tokens : N
}.

(** The two tokens slices the caller supplies. *)
Record SpeculativeTokenInputs := mkInputs { in_draft_tokens : list N; in_target_choices : list N }.

Definition required_single_member_accepted_count {S} (accepted : N) : M S N := add32 accepted 1.

(** [while position < draft_tokens.len()] *)
Fixpoint exact_draft_loop {S} (fuel : nat) (index : SpeculativeKvRoundIndex) (draft : list N)
    (position : N) : M S bool :=
  match fuel with
  | O => ret true
  | S fuel' =>
      if position <? vlen draft then
        let! d := slice_at draft position in
        let! e := slice_at (draft_tokens index) position in
        if negb (d =? e) then ret false
        else
          let! next := add_usize position 1 in
          exact_draft_loop fuel' index draft next
      else ret true
  end.

Definition exact_draft_tokens {S} (index : SpeculativeKvRoundIndex) (draft : list N) : M S bool :=
  if (vlen (draft_tokens index) <? draft_token_count index) ||
     negb (vlen draft =? draft_token_count index) then ret false
  else exact_draft_loop (length draft) index draft 0.

(** The state of one step: the two requests with their batch, and the
    publication. *)
Record StepWorld := mkStepWorld { iso : IsoWorld; publication : StepPublication }.

Definition put_iso (i : IsoWorld) (w : StepWorld) : StepWorld := mkStepWorld i (publication w).
Definition put_publication (p : StepPublication) (w : StepWorld) : StepWorld := mkStepWorld (iso w) p.

Definition preflight_speculative_step (index : SpeculativeKvRoundIndex)
    (expected : IsolatedSpeculativeKvExpectation) (inputs : SpeculativeTokenInputs) :
    M StepWorld (result SpeculativeStepPreflight AtomicSpeculativeStepError) :=
  let! exact := exact_draft_tokens index (in_draft_tokens inputs) in
  if negb exact then ret (Err DraftTokensMismatch)
  else
    let! p := zoom publication put_publication
      (preflight_speculative_publication
         (mkExpected (ix_request index) (ix_completion_epoch index) (ix_plan_id index)
            (target_selection index))
         (in_draft_tokens inputs) (in_target_choices inputs)) in
    match p with
    | Err error => ret (Err (PublicationError error))
    | Ok publication_permit =>
        let accepted := permit_accepted_draft_tokens publication_permit in
        let! w := gets iso in
        let! k := preflight_isolated_speculative_kv (batch w) (selected w) (other w) index accepted expected in
        match k with
        | Err error => ret (Err (KvError error))
        | Ok kv_permit => ret (Ok (mkStepPermit publication_permit kv_permit accepted))
        end
    end.

Definition apply_preflighted_speculative_step (permit : SpeculativeStepPreflight) :
    M StepWorld AtomicSpeculativeStepOutcome :=
  let! s := zoom iso put_iso (on_selected
    (apply_preflighted_isolated_speculative_kv (kv_permit permit))) in
  let! d := zoom publication put_publication
    (apply_preflighted_speculative_publication (publication_permit permit)) in
  ret (mkStepOutcome s d).

Definition settle_and_publish_speculative_step (index : SpeculativeKvRoundIndex)
    (expected : IsolatedSpeculativeKvExpectation) (inputs : SpeculativeTokenInputs) :
    M StepWorld (result AtomicSpeculativeStepOutcome AtomicSpeculativeStepError) :=
  let? permit := preflight_speculative_step index expected inputs in
  let! outcome := apply_preflighted_speculative_step permit in
  ret (Ok outcome).
